(* ===== verification/_CoqProject ===== *)
-Q . S2P
Prelude.v
Util.v
Bitops.v
Bitmap.v
DList.v
MmState.v
Libc.v
Palloc.v
Pmm.v
Simple.v
Vmm.v
Init.v
Cp0.v
Pgtable.v
Sync.v
Uvm.v
Areas.v
SlabHeap.v
Teardown.v
Lifetime.v
Clone.v
Tlb.v
MmTest.v
Proc.v
Sched.v
EarlyKmmap.v
Trap.v
Entry.v
Start.v
Snprintf.v
Bus.v
Console.v
Dev.v
Boot.v
Head.v
Bootmain.v
Mp.v
I386.v
Apic.v
Semaphore.v
I386Pg.v
I386Proc.v
I386Trap.v
