(* ===== verification/Prelude.v ===== *)
(** * Verification of the AIM kernel

    AIM is a small multiprocessor kernel in C.  This library models its MIPS32
    configuration (32-bit pointers and [long], 64-bit physical addresses, 4 KiB
    pages, kernel segment at 0x80000000; the machine constants are those of
    mach-loongson3a), and the files of the PC port that take the place of MIPS
    ones, as executable definitions and proves what its components promise.

    ** How the program is modelled

    Every C function is a Gallina function with the source's name (a leading
    [__] is dropped).  A function that can stop the kernel returns a [res]:
    [Ok], or [Err] with [Panicked] (panic or a failed assert), [BadPtr] (an
    access outside every object, undefined in C) or [OutOfFuel].  Static
    variables are fields of a state record that is passed along.  Structures
    that are linked together live in typed stores from addresses to fields, so
    that aliasing and use after free are visible; everything else is a byte
    memory.  Integers are [Z] with the wrap-around of their width written out
    ([w8], [w16], [w32], [w64], [sgn]).  A function pointer is the name of one
    of the functions that the kernel stores in it, or, where another component
    is called, an interface class.  Loops are instances of [loop] with a fuel
    that the theorems show to be enough: it is computed from the size of the
    list, the number of pages or the number of words that the loop visits; only
    the length of a string, the number of polls of a device, the depth of the
    tree of buses and the nesting of the two memory allocators are parameters,
    with the bound they must exceed as a hypothesis.  The entries of the
    kernel and the context switch on MIPS are lists of instructions run by an interpreter, other
    assembly is modelled by its effect on registers and memory; concurrency (spinlocks, semaphores, the
    start of the other processors) as step relations in which every access of
    every processor to shared memory is a step.

    ** The files

    - Prelude: outcomes, the proof rules [wp] (total correctness) and [wpp]
      (that or a panic), loops, fixed-width integers, arrays, tactics.
    - Util: include/util.h, include/sys/types.h and the address conversions.
    - Bitops: include/bitops.h, include/arch/mips/arch-bitops.h.
    - Bitmap: include/bitmap.h, kern/lib/libbitmap, bit operations of atomic.h.
    - DList: include/list.h, refined to mathematical lists.
    - MmState: state of the memory managers and the interface [Kmem] between
      the page allocator and the object allocator, with its laws [KmemLaws]
      (it may run out of objects) and [KmemRoom] (it has room for some more).
    - Libc: lib/libc memory and string functions on the byte memory.
    - Palloc: kern/mm/pmm/palloc.c, the first-fit page allocator, refined to a
      sorted list of coalesced blocks, for every lawful object allocator.
    - Pmm: kern/mm/pmm/pmm.c, the front end of the page allocator.
    - Simple: kern/mm/vmm/simple.c, the bootstrap heap and the bitmap slabs.
    - Vmm: kern/mm/vmm/vmm.c, and the knot that lets the two allocators call each
      other ([kmem]); the bootstrap heap satisfies [KmemLaws].
    - Init: kern/init/init.c and init_free_pages of kern/arch/mips/arch_mmu.c.
    - Cp0: the coprocessor registers of include/arch/mips/mipsregs.h and tlb.h, the
      translation buffer behind them, and tlb_flush of kern/arch/mips/arch_mmu.c.
    - Pgtable: kern/arch/mips/pgtable.c, two-level page tables in byte memory.
    - Sync: include/arch/mips/arch-sync.h, arch-irq.h, atomic.h and
      include/aim/sync.h: ticket spinlock, semaphore, recursive lock.
    - Uvm: kern/mm/uvm.c, user address spaces.
    - Areas: [create_uvm] over every object allocator that satisfies the
      interface [ObjLaws]; the bootstrap heap does, and [KmemRoom].
    - SlabHeap: so does the slab allocator, while its pages have free slots.
    - Teardown: [destroy_uvm] over the same interface, and the round trip.
    - Lifetime: [mm_new] and [mm_destroy] over the same interface.
    - Clone: [mm_clone], with two address spaces side by side.
    - Tlb: the refill handler of kern/arch/mips/tlbex.S and the loads and stores of
      user programs through the translation buffer.
    - MmTest: kern/mm/test.c, the self test that runs all of this together.
    - Proc: kern/proc/proc.c, namespace.c, proctree.c, kern/arch/mips/proc.c.
    - Sched: kern/proc/sched/sched.c and scheduler.c, kern/proc/initproc.c.
    - EarlyKmmap: kern/mm/kmmap/early_kmmap.c, kern/mm/mmu.c, kern/mm/jump.c.
    - Trap: kern/arch/mips/arch_trap.c with include/arch/mips/decode.h,
      kern/trap/trap.c.
    - Entry: kern/arch/mips/trapentry.S and switch.S with the macros of
      include/arch/mips/stack.h, as instructions on registers and memory.
    - Start: forkret and proc_trap_return of kern/arch/mips/proc.c, from the switch
      to a new process to the first instruction of its program.
    - Snprintf: lib/libc/snprintf.c.
    - Bus: include/aim/device.h, include/aim/io.h, drivers/io/io-mem.c and
      io-port.c; the machine is the class [Hw].
    - Console: drivers/serial/uart-ns16550.c, kern/dev/console.c,
      kern/panic/panic.c; the device is the class [Ns16550].
    - Dev: kern/dev/index/index.c and devlist.c, drivers/common/core.c.
    - Boot: kern/init/early_init.c, the initcall of the UART driver,
      kern/arch/mips/arch_smp.c.
    - Head: kern/arch/mips/entry.S, the entries of all processors.
    - Bootmain: boot/bootmain.c, the boot loader, with the headers it reads;
      the ports are the class [Ports], the disk behind them the class [Ata].
    - Mp: kern/arch/i386/arch_mp.c, the processor tables of the BIOS.
    - I386: descriptors, trap dispatch, boot page directory and spinlock of the
      i386 port (kern/arch/i386/arch_mmu.c, arch_trap.c, arch_early_init.c,
      include/arch/i386).
    - Apic: kern/arch/i386/arch_lapic.c and arch_smp.c; the controller is the
      class [Lapic] with the laws [LapicOk], and the start of the other
      processors is the step relation [sstep].
    - Semaphore: semaphores and counters of include/arch/i386/arch-sync.h and
      atomic.h, with the step relation [sem_step].
    - I386Pg: kern/arch/i386/pgoperation.c, the page tables of the PC.
    - I386Proc: kern/arch/i386/proc.c and switch.S.
    - I386Trap: kern/arch/i386/vectors.S and trap_asm.S as instructions.

    ** What the theorems show

    Memory: page allocation and freeing refine a sorted, coalesced list of free
    blocks, freeing undoes allocation, aligned allocation gives its padding
    back, objects handed out by the slabs are distinct and inside their page,
    and the boot sequence establishes the invariants ([palloc_alloc_correct],
    [palloc_free_correct], [palloc_roundtrip], [alloc_aligned_correct],
    [page_fill_correct], [slab_alloc_correct], [slab_free_correct],
    [boot_pages_correct]).  Address spaces: mapping makes exactly the pages of
    the range translate as requested, the searches for areas find what the
    sorted list contains, and copying between user and kernel memory moves every
    byte wherever the page boundaries fall; new user memory gets one area, one
    new frame and one translation per page, in its place in the sorted list;
    removing it undoes this without a leak, destroying the address space gives
    everything back, and a copy has the same mappings, permissions and contents
    in frames of its own; programs see through the translation buffer what the
    page tables say, and the kernel's own test of all this passes and loses
    nothing ([map_pages_correct],
    [find_vma_before_correct], [find_continuous_correct], [copy_fill_correct],
    [create_uvm_correct], [destroy_uvm_correct], [create_destroy_roundtrip],
    [mm_destroy_correct], [mm_life_roundtrip], [clone_space_correct],
    [user_program_correct], [mm_test_correct], [early_mappings_correct]).  Concurrency and processes: mutual exclusion and
    service of the spinlock in the order of arrival (and, when every processor
    keeps taking steps, for each that waits), the recursive lock, the scheduler's
    invariant that no process runs on two processors, process numbers, the
    process tree, trap handling with emulation of the branch before a delay
    slot, the registers that an exception saves and restores around the C
    handler and the registers that a switch of contexts exchanges, the way of
    a new process or the child of a fork into user mode, the entry of the
    kernel, disjoint stacks ([spinlock_mutual_exclusion],
    [spinlock_fifo_progress], [recursive_lock_correct], [schedule_correct],
    [kpid_correct], [proctree_correct], [trap_handler_correct],
    [trap_path_correct], [switch_regs_correct],
    [first_run_correct], [boot_entry_correct], [smp_stacks_correct]).  Devices: formatted output is what C
    prescribes, cut to the buffer, for the widths where the code agrees with C; the
    console sends exactly the text that is formatted; accesses
    through a tree of buses reach the sum of the base addresses; the device
    index is a sorted list with lookups, insertion and removal
    ([vsnprintf_correct], [kprintf_correct], [bus_access_correct],
    [device_index_correct], [discover_correct], [console_handover_correct]).
    Bring-up of a PC: the boot loader places every segment of the kernel image
    and calls its entry, the processors of the BIOS tables are found, the boot
    directory translates every early mapping, descriptors and gates say what
    they were given, the exchange lock excludes, a semaphore admits as many
    processors as its limit and lets every processor through in the end, in some
    continuation of every run, the interrupt controller is programmed as meant,
    every other processor comes up with its own stack and the kernel's page
    directory, page tables translate what was mapped, a process goes on
    where it was switched away from, and a trap finds all registers of the
    interrupted program in its frame and gives them back ([bootmain_correct],
    [mpinit_correct], [boot_directory_correct], [descriptors_correct],
    [xchg_lock_correct], [semaphore_correct], [lapic_init_correct],
    [smp_startup_handshake], [i386_pages_correct], [process_switch_correct],
    [i386_trap_path_correct]).  Libraries: lists, bitmaps, bit searches, copying and
    strings.

    Where the code does not do what it means to, a theorem states what it does:
    [unmap_pages_first], [stale_translation], [kpid_correct] (last part),
    [find_vma_before_head], [pick_none], [wakeup_deadlocks], [blez_negative], [link_not_taken],
    [jump_last_word], [stack_macros], [slave_stack_shared], [early_mapping_duplicate],
    [bitmap_test_bit_word], [generic_fls64_ignores_high], [dev_next_past_end],
    [trailing_percent], [int_text_conforms], [console_dynamic_base],
    [early_map_small], [rom_half_searched],
    [mpinit_correct] (last part), [destroy_uvm_correct] (the run that ends with the
    list), [i386_init_stale], [i386_map_present], [i386_pages_correct] (the size
    that is returned), [process_switch_correct] (the child of a fork),
    [i386_trap_path_correct] (the flags of a new process).

    ** Not modelled

    The ARM port, whose functions are mostly empty; the boot code of the PC in
    assembly; the order of calls in [master_init] and
    [master_early_init], which end in endless loops; the
    text of debugging messages inside the components ([kprintf] itself is
    modelled); caches and memory ordering weaker than sequential consistency
    (the source relies on the machine for it).  The page allocator
    needs an object for every block of free memory and stops the kernel without
    one; the theorems on freeing user memory are total, with the number of
    objects it may need as a hypothesis, where those on the allocator alone state
    both outcomes ([palloc_free_correct], [palloc_roundtrip]: the kernel stops
    only when there is no object).  In the
    scheduler's model a switch of contexts exchanges all registers of the two
    processes; which of them switch.S really saves is [switch_regs_correct].  In
    the start of the other processors of a PC, the commands of [lapicstartap] to
    one processor are one step, and what [slave_init] does before it reports is
    not part of the relation.

    The address space operations are proved for a heap that serves its objects
    without a page: the bootstrap heap, or slabs with free slots in pages that
    keep an object.  The case in which the slab allocator takes a page in the
    middle of such an operation, or gives its last one back, is not part of
    these theorems; [allocator_boot_test] runs it on a concrete machine.

    ** What could follow

    An interface to the heap whose operations may take and return pages, the
    caching interface with an allocator behind it, and the functional
    behaviour of [probe_devices] over several passes. *)
From stdpp Require Export base numbers list gmap.
From Stdlib Require Export ZArith Lia.

#[export] Set Default Goal Selector "!".
#[global] Open Scope Z_scope.

(** ** Outcomes

    A C function that can stop the kernel returns a [res]: [Ok v] is a normal
    return, [Err Panicked] is [panic()] or a failed [assert()] (both never
    return), [Err BadPtr] is an access outside every object (undefined
    behaviour in C), and [Err OutOfFuel] is a loop that did not finish within
    its bound. *)
Inductive fault := Panicked | BadPtr | OutOfFuel.

Inductive res (A : Type) :=
| Ok (a : A)
| Err (e : fault).
Arguments Ok {A} a.
Arguments Err {A} e.

#[global] Instance fault_eq_dec : EqDecision fault.
Proof. solve_decision. Defined.
#[global] Instance res_eq_dec `{EqDecision A} : EqDecision (res A).
Proof. solve_decision. Defined.

#[global] Instance res_ret : MRet res := λ A a, Ok a.
#[global] Instance res_bind : MBind res := λ A B f m,
  match m with Ok a => f a | Err e => Err e end.
#[global] Instance res_fmap : FMap res := λ A B f m,
  match m with Ok a => Ok (f a) | Err e => Err e end.

(** [assert(c)] of include/aim/debug.h: [panic] unless the condition holds. *)
Definition assert_ (c : bool) : res unit := if c then Ok tt else Err Panicked.

Definition of_option {A} (e : fault) (o : option A) : res A :=
  match o with Some a => Ok a | None => Err e end.

(** Total correctness: [m] returns normally, with a value that satisfies [Q]. *)
Definition wp {A} (m : res A) (Q : A → Prop) : Prop :=
  match m with Ok a => Q a | Err _ => False end.

Lemma wp_ok {A} (a : A) (Q : A → Prop) : Q a → wp (Ok a) Q.
Proof. done. Qed.

Lemma wp_bind {A B} (m : res A) (f : A → res B) (Q : B → Prop) :
  wp m (λ a, wp (f a) Q) → wp (m ≫= f) Q.
Proof. by destruct m. Qed.

Lemma wp_mono {A} (m : res A) (P Q : A → Prop) :
  wp m P → (∀ a, P a → Q a) → wp m Q.
Proof. destruct m; simpl; auto. Qed.

Lemma wp_inv {A} (m : res A) (Q : A → Prop) : wp m Q → ∃ a, m = Ok a ∧ Q a.
Proof. destruct m; simpl; [eauto|done]. Qed.

Lemma wp_eq {A} (m : res A) (a : A) : wp m (λ b, b = a) ↔ m = Ok a.
Proof. destruct m; simpl; naive_solver. Qed.

Lemma wp_assert (c : bool) (Q : unit → Prop) : c = true → Q tt → wp (assert_ c) Q.
Proof. by intros ->. Qed.

(** [m] returns normally with a value that satisfies [Q], or panics; it neither
    goes wrong nor loops. *)
Definition wpp {A} (m : res A) (Q : A → Prop) : Prop := m = Err Panicked ∨ wp m Q.

Lemma wpp_wp {A} (m : res A) (Q : A → Prop) : wp m Q → wpp m Q.
Proof. by right. Qed.

Lemma wpp_bind {A B} (m : res A) (f : A → res B) (Q : B → Prop) :
  wpp m (λ a, wpp (f a) Q) → wpp (m ≫= f) Q.
Proof. intros [->|H]; [by left|]. destruct m; simpl in *; [done|by destruct H]. Qed.

Lemma wpp_mono {A} (m : res A) (P Q : A → Prop) :
  wpp m P → (∀ a, P a → Q a) → wpp m Q.
Proof. intros [?|?] HPQ; [by left|right]. by eapply wp_mono. Qed.

(** ** Loops

    Every C loop is an instance of [loop]: the body yields [inl] of the next
    loop state, or [inr] of the value the loop delivers ([break], [return] or
    a false condition). *)
Fixpoint loop {St R} (fuel : nat) (body : St → res (St + R)) (s : St) : res R :=
  match fuel with
  | O => Err OutOfFuel
  | S fuel' =>
    r ← body s;
    match r with inl s' => loop fuel' body s' | inr v => Ok v end
  end.

Lemma loop_S {St R} (fuel : nat) (body : St → res (St + R)) (s : St) :
  loop (S fuel) body s = (r ← body s; match r with inl s' => loop fuel body s' | inr v => Ok v end).
Proof. done. Qed.

(** The proof rule for [loop]: an invariant and a measure below the fuel. *)
Lemma wp_loop {St R} (body : St → res (St + R)) (I : St → Prop) (m : St → nat)
    (Q : R → Prop) (fuel : nat) (s : St) :
  (∀ s, I s → wp (body s) (λ r,
     match r with inl s' => I s' ∧ (m s' < m s)%nat | inr v => Q v end)) →
  I s → (m s < fuel)%nat →
  wp (loop fuel body s) Q.
Proof.
  intros Hbody. revert s. induction fuel as [|fuel IH]; intros s HI Hm; [lia|].
  simpl. apply wp_bind. eapply wp_mono; [by apply Hbody|].
  intros [s'|v]; [|done]. intros [HI' Hlt]. apply IH; [done|lia].
Qed.

(** Two loops whose bodies go along with each other. *)
Lemma loop_sim {S1 S2 R1 R2} (R : S1 → S2 → Prop) (Q : R1 → R2 → Prop) body1 body2 fuel s1 s2 :
  (∀ s1 s2, R s1 s2 → match body1 s1 with
     | Err e => body2 s2 = Err e
     | Ok (inl s1') => ∃ s2', body2 s2 = Ok (inl s2') ∧ R s1' s2'
     | Ok (inr r1) => ∃ r2, body2 s2 = Ok (inr r2) ∧ Q r1 r2 end) → R s1 s2 →
  match loop fuel body1 s1 with Err e => loop fuel body2 s2 = Err e | Ok r1 => ∃ r2, loop fuel body2 s2 = Ok r2 ∧ Q r1 r2 end.
Proof.
  intros Hb. revert s1 s2. induction fuel as [|fuel IH]; intros s1 s2 Hr; [done|]. rewrite !loop_S. specialize (Hb s1 s2 Hr).
  destruct (body1 s1) as [[s1'|r1]|e].
  - destruct Hb as (s2' & -> & Hr'). by apply IH.
  - destruct Hb as (r2 & -> & Hq). by exists r2.
  - by rewrite Hb.
Qed.

(** More fuel does not change a result. *)
Lemma loop_fuel_mono {St R} (body : St → res (St + R)) (f1 f2 : nat) (s : St) (v : R) :
  loop f1 body s = Ok v → (f1 ≤ f2)%nat → loop f2 body s = Ok v.
Proof.
  revert f2 s. induction f1 as [|f1 IH]; intros f2 s Hl Hle; [done|].
  destruct f2 as [|f2]; [lia|]. simpl in *.
  destruct (body s) as [[s'|v']|e]; simpl in *; [|done|done].
  apply IH; [done|lia].
Qed.

(** ** Fixed-width integers

    [unsigned long], [size_t], pointers and [uint32_t] are 32 bits wide on the
    MIPS32 target; [addr_t], [lsize_t] and [uint64_t] are 64 bits wide. *)
Definition wrap (n x : Z) : Z := x mod 2 ^ n.
Abbreviation w8 := (wrap 8).
Abbreviation w16 := (wrap 16).
Abbreviation w32 := (wrap 32).
Abbreviation w64 := (wrap 64).

Definition fits (n x : Z) : Prop := 0 ≤ x < 2 ^ n.
Definition fitsb (n x : Z) : bool := (0 <=? x) && (x <? 2 ^ n).

#[global] Instance fits_dec n x : Decision (fits n x).
Proof. unfold fits. apply _. Defined.

(** Two's complement reading of an [n]-bit pattern. *)
Definition sgn (n x : Z) : Z :=
  let y := wrap n x in if y <? 2 ^ (n - 1) then y else y - 2 ^ n.

Lemma wrap_small n x : fits n x → wrap n x = x.
Proof. intros H. by apply Z.mod_small. Qed.

Lemma wrap_fits n x : 0 ≤ n → fits n (wrap n x).
Proof. intros Hn. apply Z.mod_pos_bound. by apply Z.pow_pos_nonneg. Qed.

Lemma wrap_idemp n x : wrap n (wrap n x) = wrap n x.
Proof. unfold wrap. apply Zmod_mod. Qed.

Lemma wrap_testbit n x i : 0 ≤ n →
  Z.testbit (wrap n x) i = (i <? n) && Z.testbit x i.
Proof.
  intros Hn. unfold wrap. destruct (Z.ltb_spec i n); simpl.
  - destruct (decide (0 ≤ i)).
    + by apply Z.mod_pow2_bits_low.
    + rewrite !Z.testbit_neg_r by lia. done.
  - apply Z.mod_pow2_bits_high. lia.
Qed.

Lemma fits_testbit_high n x i : fits n x → n ≤ i → Z.testbit x i = false.
Proof.
  intros [H0 H1] Hi. destruct (decide (x = 0)) as [->|]; [apply Z.bits_0|].
  apply Z.bits_above_log2; [done|].
  apply Z.lt_le_trans with n; [|done]. apply Z.log2_lt_pow2; lia.
Qed.

Lemma fits_of_bits n x : 0 ≤ n → 0 ≤ x →
  (∀ i, n ≤ i → Z.testbit x i = false) → fits n x.
Proof.
  intros Hn Hx Hb. assert (x = wrap n x) as ->; [|by apply wrap_fits].
  apply Z.bits_inj'. intros i Hi. rewrite wrap_testbit by done.
  destruct (Z.ltb_spec i n); [done|]. by apply Hb.
Qed.

Lemma sgn_small x : 0 ≤ x < 2 ^ 31 → sgn 32 x = x.
Proof.
  intros Hx. unfold sgn. rewrite wrap_small by (unfold fits; lia).
  by destruct (Z.ltb_spec x (2 ^ (32 - 1))); [|lia].
Qed.

Lemma fits_lor n x y : 0 ≤ n → fits n x → fits n y → fits n (Z.lor x y).
Proof.
  intros Hn Hx Hy. apply fits_of_bits; [done| |].
  - apply Z.lor_nonneg. unfold fits in *; lia.
  - intros i Hi. rewrite Z.lor_spec.
    by rewrite (fits_testbit_high n x), (fits_testbit_high n y).
Qed.

Lemma fits_land n x y : 0 ≤ n → fits n x → 0 ≤ y → fits n (Z.land x y).
Proof.
  intros Hn Hx Hy. apply fits_of_bits; [done| |].
  - apply Z.land_nonneg. by left; destruct Hx.
  - intros i Hi. rewrite Z.land_spec. by rewrite (fits_testbit_high n x).
Qed.

Lemma fits_lxor n x y : 0 ≤ n → fits n x → fits n y → fits n (Z.lxor x y).
Proof.
  intros Hn Hx Hy. apply fits_of_bits; [done| |].
  - apply Z.lxor_nonneg. unfold fits in *; lia.
  - intros i Hi. rewrite Z.lxor_spec.
    by rewrite (fits_testbit_high n x), (fits_testbit_high n y).
Qed.

Lemma lnot_testbit_wrap n x i : 0 ≤ n → 0 ≤ i →
  Z.testbit (wrap n (Z.lnot x)) i = (i <? n) && negb (Z.testbit x i).
Proof. intros Hn Hi. rewrite wrap_testbit by done. by rewrite Z.lnot_spec. Qed.

Lemma ones_testbit n i : 0 ≤ n → 0 ≤ i → Z.testbit (Z.ones n) i = (i <? n).
Proof. intros Hn Hi. destruct (Z.ltb_spec i n).
  - by apply Z.ones_spec_low.
  - by apply Z.ones_spec_high.
Qed.

(** ** Automation

    [bits] rewrites [Z.testbit] through the operators of the C expressions;
    [bitwise] proves an equation of integers bit by bit. *)
Create Rewrite HintDb bits.
#[export] Hint Rewrite Z.lor_spec Z.land_spec Z.lxor_spec Z.ldiff_spec Z.bits_0 : bits.
#[export] Hint Rewrite wrap_testbit Z.lnot_spec Z.shiftl_spec Z.shiftr_spec
  ones_testbit using lia : bits.

Ltac zcases :=
  repeat match goal with
  | |- context [?a <? ?b] => destruct (Z.ltb_spec a b)
  | |- context [?a <=? ?b] => destruct (Z.leb_spec a b)
  | |- context [?a =? ?b] => destruct (Z.eqb_spec a b)
  end.

Ltac bitwise :=
  let i := fresh "i" in let Hi := fresh "Hi" in
  apply Z.bits_inj'; intros i Hi; autorewrite with bits.

(** [wp_go] runs the straight-line part of a total-correctness goal. *)
Ltac wp_step :=
  match goal with
  | |- wp (_ ≫= _) _ => apply wp_bind
  | |- wp (mret _) _ => apply wp_ok
  | |- wp (Ok _) _ => apply wp_ok
  | |- wp (let '(_, _) := ?p in _) _ => destruct p
  end.
Ltac wp_go := repeat wp_step.

Create HintDb aim.
Create Rewrite HintDb addr.
#[export] Hint Resolve wrap_fits fits_lor fits_land fits_lxor : aim.

(** ** Lists as C arrays *)

(** [a[k]] and [a[k] = v]: an index outside the array is a [BadPtr]. *)
Definition rd {A} (a : list A) (k : Z) : res A :=
  if 0 <=? k then of_option BadPtr (a !! Z.to_nat k) else Err BadPtr.

Definition wr {A} (a : list A) (k : Z) (v : A) : res (list A) :=
  if (0 <=? k) && (k <? Z.of_nat (length a)) then Ok (<[Z.to_nat k := v]> a)
  else Err BadPtr.

(** The content of an array as a total function, zero outside. *)
Definition at_ (a : list Z) (k : Z) : Z :=
  if 0 <=? k then default 0 (a !! Z.to_nat k) else 0.

Lemma rd_ok a k : 0 ≤ k < Z.of_nat (length a) → rd a k = Ok (at_ a k).
Proof.
  intros Hk. unfold rd, at_. rewrite (proj2 (Z.leb_le 0 k)) by lia.
  destruct (lookup_lt_is_Some_2 a (Z.to_nat k)) as [x Hx]; [lia|].
  by rewrite Hx.
Qed.

Lemma wr_ok {A} (a : list A) k v : 0 ≤ k < Z.of_nat (length a) →
  wr a k v = Ok (<[Z.to_nat k := v]> a).
Proof.
  intros Hk. unfold wr.
  rewrite (proj2 (Z.leb_le 0 k)), (proj2 (Z.ltb_lt k _)) by lia. done.
Qed.

Lemma rd_lookup {A} (a : list A) k x : 0 ≤ k → a !! Z.to_nat k = Some x → rd a k = Ok x.
Proof. intros Hk E. unfold rd. by rewrite (proj2 (Z.leb_le 0 k) Hk), E. Qed.
Lemma rd_inv {A} (a : list A) k x : rd a k = Ok x → 0 ≤ k ∧ a !! Z.to_nat k = Some x.
Proof.
  unfold rd. destruct (Z.leb_spec 0 k); [|done]. destruct (a !! Z.to_nat k) eqn:E; [|done]. by intros [= ->].
Qed.

Lemma at_insert a k v j : 0 ≤ k < Z.of_nat (length a) → 0 ≤ j →
  at_ (<[Z.to_nat k := v]> a) j = if j =? k then v else at_ a j.
Proof.
  intros Hk Hj. unfold at_. rewrite (proj2 (Z.leb_le 0 j)) by lia.
  destruct (Z.eqb_spec j k) as [->|].
  - by rewrite list_lookup_insert_eq by lia.
  - by rewrite list_lookup_insert_ne by lia.
Qed.

Lemma at_fits n a k : 0 ≤ n → Forall (fits n) a → fits n (at_ a k).
Proof.
  intros Hn Ha. unfold at_. assert (fits n 0).
  { split; [done|]. by apply Z.pow_pos_nonneg. }
  destruct (0 <=? k); [|done].
  destruct (a !! Z.to_nat k) eqn:E; simpl; [|done].
  by eapply Forall_lookup_1.
Qed.
#[export] Hint Resolve at_fits : aim.
