(* ===== verification/Util.v ===== *)
(** * Shared macros and address arithmetic

    include/util.h (alignment, rounding, [OVERLAP], [get_lowest_0]),
    include/sys/types.h (device numbers), include/errno.h, lib/libc/stddef.h,
    include/aim/mmu.h and include/arch/mips/{arch-mmu,addrspace}.h (kernel
    virtual addresses).  A macro applied to an expression of an [n]-bit
    unsigned type takes the width [n] first, for its [typeof]. *)
From S2P Require Import Prelude.

(** ** Constants *)
Definition EOF_ : Z := -1.
Definition NULL : Z := 0.
Definition ENOENT : Z := 2.
Definition ENOMEM : Z := 12.
Definition EACCES : Z := 13.
Definition EFAULT : Z := 14.
Definition EEXIST : Z := 17.
Definition EINVAL : Z := 22.
Definition ENOTSUP : Z := 91.

Definition PAGE_SHIFT : Z := 12.
Definition PAGE_SIZE : Z := 4096.
Definition PAGE_MASK : Z := PAGE_SIZE - 1.
Definition BITS_PER_LONG : Z := 32.
Definition WORD_SHIFT : Z := 2.
Definition JUNKBYTE : Z := 0x20.
Definition GFP_UNSAFE : Z := 1.
Definition GFP_ZERO : Z := 2.

(** The defaults of configure.ac. *)
Definition KERN_BASE : Z := 0x80000000.
Definition KMMAP_BASE : Z := 0xf0000000.
Definition RESERVED_BASE : Z := 0xfffff000.
Definition USERTOP : Z := 0x7ff00000.
Definition MAX_PROCESSES : Z := 65536.

(** ** Alignment and rounding (include/util.h) *)
Definition ALIGN_MASK (n a : Z) : Z := wrap n (a - 1).
Definition IS_ALIGNED (n x a : Z) : bool := Z.land x (ALIGN_MASK n a) =? 0.
Definition ALIGN_ABOVE (n x a : Z) : Z :=
  wrap n (Z.lor (wrap n (x - 1)) (ALIGN_MASK n a) + 1).
Definition ALIGN_BELOW (n x a : Z) : Z := Z.land x (wrap n (Z.lnot (ALIGN_MASK n a))).
Definition ALIGN_PREV (n x a : Z) : Z := ALIGN_BELOW n (wrap n (x - 1)) a.
Definition ALIGN_NEXT (n x a : Z) : Z := ALIGN_ABOVE n (wrap n (x + 1)) a.

Definition DIV_ROUND_UP (n x d : Z) : Z := wrap n (wrap n (x + d) - 1) / d.
Definition ROUNDUP (n x d : Z) : Z := wrap n (DIV_ROUND_UP n x d * d).
Definition ROUNDDOWN (n x d : Z) : Z := wrap n (x - x mod d).

(** [OVERLAP(st1, len1, st2, len2)], on 32-bit addresses. *)
Definition OVERLAP (st1 len1 st2 len2 : Z) : bool :=
  ((st2 <? st1) && (st1 <? w32 (st2 + len2))) ||
  ((st1 <? st2) && (st2 <? w32 (st1 + len1))).

(** [get_lowest_0(x)]: [-1] when all bits are set. *)
Definition get_lowest_0 (n x : Z) : res Z :=
  if wrap n (x + 1) =? 0 then Ok (-1)
  else loop (Z.to_nat n + 1)
         (λ '(i, y), if Z.land y 1 =? 1 then Ok (inl (i + 1, Z.shiftr y 1))
                     else Ok (inr i)) (0, x).

(** ** Device numbers (include/sys/types.h) *)
Definition major (dev : Z) : Z := Z.land (Z.shiftr dev 8) 0xff.
Definition minor (dev : Z) : Z := Z.land dev 0xff.
Definition makedev (mj mn : Z) : Z := Z.lor (w32 (Z.shiftl mj 8)) (Z.land mn 0xff).

(** ** Kernel addresses *)

(** include/arch/mips/arch-mmu.h, the macros in force wherever that header is
    included. *)
Definition kva2pa (kva : Z) : Z := w32 (kva - KERN_BASE).
Definition pa2kva (pa : Z) : Z := w32 (w32 pa + KERN_BASE).
Definition PAGE_OFFSET (a : Z) : Z := Z.land a PAGE_MASK.

(** include/aim/mmu.h *)
Definition premap_addr (a : Z) : Z :=
  let i := w32 a in if KERN_BASE <=? i then w32 (i - KERN_BASE) else i.
Definition postmap_addr (a : Z) : Z :=
  let i := w32 a in if KERN_BASE <=? i then i else w32 (i + KERN_BASE).

(** include/arch/mips/addrspace.h: the segment-aware conversions, which the
    macros above shadow. *)
Module Seg.
Definition KSEG0 : Z := 0x80000000.
Definition KSEG1 : Z := 0xa0000000.
Definition KSSEG : Z := 0xc0000000.
Definition LOWRAM_TOP : Z := 0x10000000.
Definition is_user (x : Z) : bool := (0 <=? x) && (x <? KSEG0).
Definition seg_kva2pa (a : Z) : Z :=
  if KSEG1 <? a then w32 (a - KSEG1)
  else if KSEG0 <? a then w32 (a - KSEG0)
  else if KSSEG <? a then w32 (a - KSSEG + LOWRAM_TOP)
  else w32 (-1).
Definition seg_pa2kva (x : Z) : Z :=
  if LOWRAM_TOP <? x then w32 (x - LOWRAM_TOP + KSSEG) else w32 (KSEG0 + x).
End Seg.

(** ** Alignment lemmas *)
Section align.
Context (n k : Z) (Hk : 0 ≤ k < n).

Lemma pow2_lt : 0 < 2 ^ k < 2 ^ n.
Proof. split; [apply Z.pow_pos_nonneg; lia|]. apply Z.pow_lt_mono_r; lia. Qed.

Lemma ALIGN_MASK_pow2 : ALIGN_MASK n (2 ^ k) = Z.ones k.
Proof.
  pose proof pow2_lt. unfold ALIGN_MASK. rewrite Z.ones_equiv, Z.sub_1_r.
  apply wrap_small. unfold fits. lia.
Qed.

Lemma IS_ALIGNED_pow2 x : IS_ALIGNED n x (2 ^ k) = (x mod 2 ^ k =? 0).
Proof. unfold IS_ALIGNED. by rewrite ALIGN_MASK_pow2, Z.land_ones by lia. Qed.

Lemma shift_back x : Z.shiftl (Z.shiftr x k) k = 2 ^ k * (x / 2 ^ k).
Proof. rewrite Z.shiftl_mul_pow2, Z.shiftr_div_pow2 by lia. lia. Qed.

Lemma ALIGN_BELOW_pow2 x : fits n x → ALIGN_BELOW n x (2 ^ k) = 2 ^ k * (x / 2 ^ k).
Proof.
  intros Hx. unfold ALIGN_BELOW. rewrite ALIGN_MASK_pow2, <- shift_back.
  bitwise. zcases; rewrite ?andb_true_r, ?andb_false_r; simpl.
  - rewrite (Z.testbit_neg_r _ (i - k)) by lia. done.
  - rewrite Z.shiftr_spec by lia. f_equal. lia.
  - rewrite Z.testbit_neg_r by lia. done.
  - rewrite Z.shiftr_spec by lia. replace (i - k + k) with i by lia.
    symmetry. by apply (fits_testbit_high n).
Qed.

Lemma lor_ones x : Z.lor x (Z.ones k) = 2 ^ k * (x / 2 ^ k) + (2 ^ k - 1).
Proof.
  rewrite <- shift_back, Z.sub_1_r, <- Z.ones_equiv.
  assert (Z.land (Z.shiftl (Z.shiftr x k) k) (Z.ones k) = 0) as Hz.
  { bitwise. zcases; rewrite ?andb_false_r; [|done].
    rewrite Z.testbit_neg_r by lia. done. }
  rewrite Z.add_nocarry_lxor, Z.lxor_lor by done.
  bitwise. zcases; rewrite ?orb_true_r, ?orb_false_r; [done|].
  rewrite Z.shiftr_spec by lia. f_equal. lia.
Qed.

Lemma ALIGN_ABOVE_pow2 x : fits n x →
  ALIGN_ABOVE n x (2 ^ k) = wrap n (2 ^ k * ((x + 2 ^ k - 1) / 2 ^ k)).
Proof.
  intros Hx. pose proof pow2_lt. unfold ALIGN_ABOVE. rewrite ALIGN_MASK_pow2, lor_ones.
  destruct (decide (x = 0)) as [->|Hx0].
  - replace (2 ^ k * ((0 + 2 ^ k - 1) / 2 ^ k)) with 0
      by (rewrite (Z.div_small (0 + 2 ^ k - 1)); lia).
    replace (wrap n (0 - 1)) with (2 ^ n - 1)
      by (unfold wrap; apply Z.mod_unique with (-1); lia).
    replace (2 ^ n) with (2 ^ (n - k) * 2 ^ k)
      by (rewrite <- Z.pow_add_r by lia; f_equal; lia).
    replace (2 ^ (n - k) * 2 ^ k - 1) with ((2 ^ (n - k) - 1) * 2 ^ k + (2 ^ k - 1)) by lia.
    rewrite Z.div_add_l, (Z.div_small (2 ^ k - 1)) by lia.
    replace (2 ^ k * (2 ^ (n - k) - 1 + 0) + (2 ^ k - 1) + 1) with (2 ^ k * 2 ^ (n - k)) by lia.
    rewrite <- Z.pow_add_r by lia. replace (k + (n - k)) with n by lia.
    unfold wrap. rewrite Z_mod_same_full. symmetry. apply Z.mod_0_l. lia.
  - rewrite (wrap_small n (x - 1)) by (unfold fits in *; lia).
    f_equal. replace (x + 2 ^ k - 1) with (1 * 2 ^ k + (x - 1)) by lia.
    rewrite Z.div_add_l by lia. lia.
Qed.

(** A power of two divides the smallest multiple it is rounded up to. *)
Lemma ceil_bounds x : x ≤ 2 ^ k * ((x + 2 ^ k - 1) / 2 ^ k) < x + 2 ^ k.
Proof.
  pose proof pow2_lt. pose proof (Z.mod_pos_bound (x + 2 ^ k - 1) (2 ^ k)).
  pose proof (Z.div_mod (x + 2 ^ k - 1) (2 ^ k)). lia.
Qed.

Lemma ALIGN_ABOVE_no_wrap x : fits n x → x ≤ 2 ^ n - 2 ^ k →
  ALIGN_ABOVE n x (2 ^ k) = 2 ^ k * ((x + 2 ^ k - 1) / 2 ^ k).
Proof.
  intros Hx Hle. rewrite ALIGN_ABOVE_pow2 by done. apply wrap_small.
  pose proof pow2_lt. pose proof (ceil_bounds x).
  split; [unfold fits in *; lia|].
  assert (2 ^ n = 2 ^ k * 2 ^ (n - k)) as Hn.
  { rewrite <- Z.pow_add_r by lia. f_equal. lia. }
  assert (0 < 2 ^ (n - k)) by (apply Z.pow_pos_nonneg; lia).
  assert (2 ^ k * ((x + 2 ^ k - 1) / 2 ^ k) ≤ 2 ^ n - 2 ^ k); [|lia].
  rewrite Hn in Hle |- *.
  assert ((x + 2 ^ k - 1) / 2 ^ k < 2 ^ (n - k)); [|nia].
  apply Z.div_lt_upper_bound; lia.
Qed.
End align.

(** [ALIGN_ABOVE] rounds an address up to the next multiple of a power of
    two: the result is aligned and is the only multiple in [x, x + 2^k). *)
Lemma align_above_rounds_up n k x :
  0 ≤ k < n → fits n x → x ≤ 2 ^ n - 2 ^ k →
  IS_ALIGNED n (ALIGN_ABOVE n x (2 ^ k)) (2 ^ k) = true ∧
  x ≤ ALIGN_ABOVE n x (2 ^ k) < x + 2 ^ k.
Proof.
  intros Hk Hx Hle. pose proof (pow2_lt n k Hk).
  rewrite ALIGN_ABOVE_no_wrap by done.
  split; [|by apply (ceil_bounds n)]. rewrite IS_ALIGNED_pow2 by done.
  apply Z.eqb_eq. rewrite Z.mul_comm. apply Z.mod_mul. lia.
Qed.

(** ** [OVERLAP], [get_lowest_0] and address conversions *)
Lemma OVERLAP_spec st1 len1 st2 len2 :
  0 ≤ st1 → 0 ≤ st2 → 0 < len1 → 0 < len2 →
  st1 + len1 < 2 ^ 32 → st2 + len2 < 2 ^ 32 →
  OVERLAP st1 len1 st2 len2 = true ↔
  st1 ≠ st2 ∧ st1 < st2 + len2 ∧ st2 < st1 + len1.
Proof.
  intros. unfold OVERLAP. rewrite !wrap_small by (unfold fits; lia).
  rewrite orb_true_iff, !andb_true_iff, !Z.ltb_lt. lia.
Qed.

(** The wrap-around of the sums makes [OVERLAP] miss a region that ends at the
    top of the address space, and the strict tests make it miss two regions
    with the same start. *)
Lemma OVERLAP_same_start st len1 len2 : OVERLAP st len1 st len2 = false.
Proof. unfold OVERLAP. by rewrite Z.ltb_irrefl. Qed.

Lemma get_lowest_0_loop n x : 0 ≤ n → fits n x → wrap n (x + 1) ≠ 0 →
  wp (get_lowest_0 n x) (λ i, 0 ≤ i < n ∧ Z.testbit x i = false ∧
    ∀ j, 0 ≤ j < i → Z.testbit x j = true).
Proof.
  intros Hn Hx Hne. unfold get_lowest_0.
  rewrite (proj2 (Z.eqb_neq _ _)) by done.
  apply wp_loop with
    (I := λ '(i, y), 0 ≤ i ≤ n ∧ y = Z.shiftr x i ∧ ∀ j, 0 ≤ j < i → Z.testbit x j = true)
    (m := λ '(i, _), Z.to_nat (n - i)); [|split_and!; try lia; by rewrite ?Z.shiftr_0_r|lia].
  intros [i y] (Hi & -> & Hlow).
  assert (Z.land (Z.shiftr x i) 1 = Z.b2z (Z.testbit x i)) as ->.
  { change 1 with (Z.ones 1). rewrite Z.land_ones by lia.
    change (2 ^ 1) with 2. rewrite <- Z.bit0_mod, Z.shiftr_spec by lia. done. }
  destruct (Z.testbit x i) eqn:Hb; simpl.
  - assert (i < n).
    { destruct (decide (i = n)) as [->|]; [|lia].
      by rewrite (fits_testbit_high n) in Hb by done. }
    split; [|lia]. split; [lia|]. split.
    + rewrite Z.shiftr_shiftr by lia. done.
    + intros j Hj. destruct (decide (j = i)) as [->|]; [done|]. apply Hlow; lia.
  - split; [|done]. destruct (decide (i = n)) as [->|]; [|lia]. exfalso.
    apply Hne. replace x with (Z.ones n).
    + rewrite Z.ones_equiv. unfold wrap. replace (Z.pred (2 ^ n) + 1) with (2 ^ n) by lia.
      apply Z_mod_same_full.
    + bitwise. zcases.
      * by rewrite Hlow by lia.
      * symmetry. by apply (fits_testbit_high n).
Qed.

(** The physical frames below [KERN_BASE] are mapped one to one. *)
Lemma kva2pa_pa2kva pa : 0 ≤ pa < KERN_BASE → kva2pa (pa2kva pa) = pa.
Proof.
  intros Hpa. unfold kva2pa, pa2kva, KERN_BASE in *.
  rewrite (wrap_small 32 pa), (wrap_small 32 (pa + _)) by (unfold fits; lia).
  rewrite wrap_small by (unfold fits; lia). lia.
Qed.

Lemma pa2kva_eq pa : 0 ≤ pa < KERN_BASE → pa2kva pa = pa + KERN_BASE.
Proof.
  intros Hpa. unfold pa2kva, KERN_BASE in *.
  rewrite (wrap_small 32 pa) by (unfold fits; lia). apply wrap_small. unfold fits; lia.
Qed.

(** The bytes of a page stay together. *)
Lemma pa2kva_page z r : z mod 4096 = 0 → 0 ≤ r < 4096 → pa2kva (z + r) = pa2kva z + r.
Proof.
  intros Hz Hr. unfold pa2kva, wrap. rewrite !Zplus_mod_idemp_l.
  replace (z + r + KERN_BASE) with ((z + KERN_BASE) + r) by lia. unfold KERN_BASE. change (2 ^ 32) with 4294967296.
  Z.to_euclidean_division_equations. lia.
Qed.

Lemma premap_addr_low a : 0 ≤ a < KERN_BASE → premap_addr a = a.
Proof.
  intros Ha. unfold premap_addr. rewrite wrap_small by (unfold fits, KERN_BASE in *; lia).
  rewrite (proj2 (Z.leb_gt _ _)) by lia. done.
Qed.

Lemma premap_postmap a : 0 ≤ a < KERN_BASE → premap_addr (postmap_addr a) = a.
Proof.
  intros Ha. unfold premap_addr, postmap_addr, KERN_BASE in *.
  rewrite (wrap_small 32 a) by (unfold fits; lia).
  rewrite (proj2 (Z.leb_gt _ a)) by lia.
  rewrite wrap_idemp, (wrap_small 32 (a + _)) by (unfold fits; lia).
  rewrite (proj2 (Z.leb_le _ _)), wrap_small by (unfold fits; lia). lia.
Qed.
#[export] Hint Rewrite kva2pa_pa2kva premap_addr_low premap_postmap using lia : addr.

(** Device numbers round-trip for majors and minors of one byte. *)
Lemma major_makedev mj mn : fits 8 mj → fits 8 mn → major (makedev mj mn) = mj.
Proof.
  intros Hj Hn. unfold major, makedev. change 0xff with (Z.ones 8).
  bitwise. zcases; rewrite ?andb_true_r, ?andb_false_r; simpl; try lia.
  - replace (i + 8 - 8) with i by lia. by rewrite orb_false_r.
  - symmetry. by apply (fits_testbit_high 8).
  - symmetry. by apply (fits_testbit_high 8).
Qed.

Lemma minor_makedev mj mn : fits 8 mn → minor (makedev mj mn) = mn.
Proof.
  intros Hn. unfold minor, makedev. change 0xff with (Z.ones 8).
  bitwise. zcases; rewrite ?andb_true_r, ?andb_false_r; simpl; try lia.
  - by rewrite Z.testbit_neg_r by lia.
  - symmetry. by apply (fits_testbit_high 8).
  - symmetry. by apply (fits_testbit_high 8).
Qed.
