(* ===== verification/Bitops.v ===== *)
(** * Bit searching and counting on machine words

    include/bitops.h (the portable versions, for [BITS_PER_LONG = 32]) and
    include/arch/mips/arch-bitops.h (the versions built on the [clz] and [clo]
    instructions). *)
From S2P Require Import Prelude Util.

(** ** Portable versions (include/bitops.h) *)

Definition generic_ffs (word : Z) : Z :=
  if word =? 0 then 0 else
  let num := 1 in
  let '(num, word) := if Z.land word 0xffff =? 0 then (num + 16, Z.shiftr word 16) else (num, word) in
  let '(num, word) := if Z.land word 0xff =? 0 then (num + 8, Z.shiftr word 8) else (num, word) in
  let '(num, word) := if Z.land word 0xf =? 0 then (num + 4, Z.shiftr word 4) else (num, word) in
  let '(num, word) := if Z.land word 0x3 =? 0 then (num + 2, Z.shiftr word 2) else (num, word) in
  if Z.land word 0x1 =? 0 then num + 1 else num.

(** [~0ul << k] *)
Definition high_mask (k : Z) : Z := w32 (Z.shiftl (w32 (Z.lnot 0)) k).

Definition generic_fls (word : Z) : Z :=
  if word =? 0 then 0 else
  let num := BITS_PER_LONG in
  let '(num, word) := if Z.land word (high_mask (BITS_PER_LONG - 16)) =? 0
    then (num - 16, w32 (Z.shiftl word 16)) else (num, word) in
  let '(num, word) := if Z.land word (high_mask (BITS_PER_LONG - 8)) =? 0
    then (num - 8, w32 (Z.shiftl word 8)) else (num, word) in
  let '(num, word) := if Z.land word (high_mask (BITS_PER_LONG - 4)) =? 0
    then (num - 4, w32 (Z.shiftl word 4)) else (num, word) in
  let '(num, word) := if Z.land word (high_mask (BITS_PER_LONG - 2)) =? 0
    then (num - 2, w32 (Z.shiftl word 2)) else (num, word) in
  if Z.land word (high_mask (BITS_PER_LONG - 1)) =? 0 then num - 1 else num.

Definition hweight32 (w : Z) : Z :=
  let res := w32 (w - Z.land (Z.shiftr w 1) 0x55555555) in
  let res := w32 (Z.land res 0x33333333 + Z.land (Z.shiftr res 2) 0x33333333) in
  let res := Z.land (w32 (res + Z.shiftr res 4)) 0x0F0F0F0F in
  let res := w32 (res + Z.shiftr res 8) in
  Z.land (w32 (res + Z.shiftr res 16)) 0x000000FF.

Definition hweight64 (w : Z) : Z :=
  hweight32 (w32 (Z.shiftr w 32)) + hweight32 (w32 w).

(** ** MIPS versions (include/arch/mips/arch-bitops.h) *)

(** The [clz] and [clo] instructions: number of leading zeros and ones. *)
Definition clz (x : Z) : Z := if x =? 0 then 32 else 31 - Z.log2 x.
Definition clo (x : Z) : Z := clz (w32 (Z.lnot x)).

Definition fls (x : Z) : Z := BITS_PER_LONG - clz x.
Definition ffs (x : Z) : Z := fls (Z.land x (w32 (- x))).
Definition flz (x : Z) : Z := BITS_PER_LONG - clo x.
Definition ffz (x : Z) : Z :=
  let nx := w32 (Z.lnot x) in flz (w32 (Z.lnot (Z.land nx (w32 (- nx))))).

(** The 64-bit versions, for [BITS_PER_LONG = 32].  [__generic_ffz64] tests the
    undefined macro [bits_per_long], so its 32-bit case is not compiled. *)
Definition generic_ffs64 (word : Z) : Z :=
  if w32 word =? 0 then ffs (w32 (Z.shiftr word 32)) + 32 else ffs (w32 word).
Definition generic_fls64 (word : Z) : Z :=
  if w32 word =? 0 then fls (w32 (Z.shiftr word 32)) + 32 else fls (w32 word).
Definition generic_ffz64 (word : Z) : Z := ffz (w32 word).
Definition generic_flz64 (word : Z) : Z :=
  if w32 word =? 0 then flz (w32 (Z.shiftr word 32)) + 32 else flz (w32 word).

(** ** Reference definitions *)

(** [p] is the position of the least significant set bit of [x]. *)
Definition lowest_set (x p : Z) : Prop :=
  0 ≤ p ∧ Z.testbit x p = true ∧ ∀ j, 0 ≤ j < p → Z.testbit x j = false.

(** The number of set bits among the [n] least significant ones. *)
Fixpoint popcount (n : nat) (x : Z) : Z :=
  match n with
  | O => 0
  | S n' => Z.b2z (Z.odd x) + popcount n' (Z.div2 x)
  end.

Lemma lowest_set_unique x p q : lowest_set x p → lowest_set x q → p = q.
Proof.
  intros (Hp0 & Hp & Hpl) (Hq0 & Hq & Hql).
  destruct (Z.lt_trichotomy p q) as [H|[H|H]]; [|done|].
  - rewrite Hql in Hp by lia. done.
  - rewrite Hpl in Hq by lia. done.
Qed.

Lemma lowest_set_nonzero x p : lowest_set x p → x ≠ 0.
Proof. intros (_ & Hp & _) ->. by rewrite Z.bits_0 in Hp. Qed.

(** *** [generic_ffs] *)

(** The search invariant: the [num - 1] low bits of [w0] are clear, [w] is what
    is left of it, and one of its [k] low bits is set. *)
Definition ffs_inv (w0 k num w : Z) : Prop :=
  1 ≤ num ∧ w = Z.shiftr w0 (num - 1) ∧
  (∀ j, 0 ≤ j < num - 1 → Z.testbit w0 j = false) ∧ w mod 2 ^ k ≠ 0.

Lemma mod_pow2_zero_bits w k : 0 ≤ k →
  w mod 2 ^ k = 0 → ∀ j, 0 ≤ j < k → Z.testbit w j = false.
Proof.
  intros Hk Hz j Hj. rewrite <- (Z.mod_pow2_bits_low w k j) by lia.
  by rewrite Hz, Z.bits_0.
Qed.

Lemma ffs_step w0 h num w : 0 < h → ffs_inv w0 (2 * h) num w →
  let '(num', w') := if Z.land w (Z.ones h) =? 0 then (num + h, Z.shiftr w h) else (num, w) in
  ffs_inv w0 h num' w'.
Proof.
  intros Hh (Hn & -> & Hlow & Hk). rewrite Z.land_ones by lia.
  destruct (Z.eqb_spec (Z.shiftr w0 (num - 1) mod 2 ^ h) 0) as [Hz|Hz]; [|by split_and!].
  split_and!; [lia| | |].
  - rewrite Z.shiftr_shiftr by lia. f_equal. lia.
  - intros j Hj. destruct (decide (j < num - 1)); [apply Hlow; lia|].
    replace j with ((j - (num - 1)) + (num - 1)) by lia.
    rewrite <- Z.shiftr_spec by lia. apply (mod_pow2_zero_bits _ h); [lia|done|lia].
  - intros Hz'. apply Hk. replace (2 * h) with (h + h) by lia.
    rewrite Z.pow_add_r by lia. rewrite Z.rem_mul_r by lia.
    rewrite Hz, <- Z.shiftr_div_pow2 by lia. rewrite Hz'. lia.
Qed.

Lemma generic_ffs_lowest x : fits 32 x → x ≠ 0 → lowest_set x (generic_ffs x - 1).
Proof.
  intros Hx Hx0. unfold generic_ffs. rewrite (proj2 (Z.eqb_neq _ _)) by done.
  assert (ffs_inv x 32 1 x) as H32.
  { split_and!; [lia|by rewrite Z.shiftr_0_r|lia|].
    by rewrite Z.mod_small by (unfold fits in Hx; lia). }
  apply (ffs_step _ 16) in H32; [|lia]. change (Z.ones 16) with 0xffff in H32.
  destruct (if Z.land x 0xffff =? 0 then _ else _) as [n1 w1].
  apply (ffs_step _ 8) in H32; [|lia]. change (Z.ones 8) with 0xff in H32.
  destruct (if Z.land w1 0xff =? 0 then _ else _) as [n2 w2].
  apply (ffs_step _ 4) in H32; [|lia]. change (Z.ones 4) with 0xf in H32.
  destruct (if Z.land w2 0xf =? 0 then _ else _) as [n3 w3].
  apply (ffs_step _ 2) in H32; [|lia]. change (Z.ones 2) with 0x3 in H32.
  destruct (if Z.land w3 0x3 =? 0 then _ else _) as [n4 w4].
  apply (ffs_step _ 1) in H32; [|lia]. change (Z.ones 1) with 0x1 in H32.
  assert (∀ n w, ffs_inv x 1 n w → lowest_set x (n - 1)) as Hend.
  { clear. intros n w (Hn & -> & Hlow & Hk). split_and!; [lia| |done].
    change (2 ^ 1) with 2 in Hk. rewrite <- Z.bit0_mod, Z.shiftr_spec in Hk by lia.
    rewrite Z.add_0_l in Hk. by destruct (Z.testbit x (n - 1)). }
  destruct (Z.land w4 0x1 =? 0); by eapply Hend.
Qed.

(** *** [generic_fls] *)
Definition fls_inv (w0 k num w : Z) : Prop :=
  num ≤ 32 ∧ w = w0 * 2 ^ (32 - num) ∧ 2 ^ (32 - k) ≤ w < 2 ^ 32.

Lemma high_mask_test w k : 0 ≤ k < 32 → fits 32 w →
  (Z.land w (high_mask k) =? 0) = (w <? 2 ^ k).
Proof.
  intros Hk Hw.
  assert (Z.land w (high_mask k) = 2 ^ k * (w / 2 ^ k)) as ->.
  { rewrite <- shift_back with (n := 32) by lia. unfold high_mask. bitwise.
    destruct (decide (i < k)).
    - rewrite !(Z.testbit_neg_r _ (i - k)) by lia. by rewrite !andb_false_r.
    - autorewrite with bits. replace (i - k + k) with i by lia.
      destruct (decide (i < 32)).
      + rewrite !(proj2 (Z.ltb_lt _ _)) by lia. simpl. by rewrite andb_true_r.
      + rewrite (fits_testbit_high 32 w) by (done || lia). done. }
  assert (0 < 2 ^ k) by (apply Z.pow_pos_nonneg; lia).
  pose proof (Z.div_mod w (2 ^ k)). pose proof (Z.mod_pos_bound w (2 ^ k)).
  destruct (Z.ltb_spec w (2 ^ k)).
  - apply Z.eqb_eq. rewrite Z.div_small; unfold fits in *; lia.
  - apply Z.eqb_neq. assert (1 ≤ w / 2 ^ k); [|lia].
    apply Z.div_le_lower_bound; lia.
Qed.

Lemma fls_step w0 h num w : 0 < h ≤ 16 → fls_inv w0 (2 * h) num w →
  let '(num', w') := if Z.land w (high_mask (BITS_PER_LONG - h)) =? 0
    then (num - h, w32 (Z.shiftl w h)) else (num, w) in
  fls_inv w0 h num' w'.
Proof.
  intros Hh (Hn & -> & Hlo & Hhi). unfold BITS_PER_LONG.
  assert (0 < 2 ^ (32 - 2 * h)) by (apply Z.pow_pos_nonneg; lia).
  rewrite high_mask_test by (unfold fits; lia).
  destruct (Z.ltb_spec (w0 * 2 ^ (32 - num)) (2 ^ (32 - h))) as [Hlt|Hge]; [|by split_and!].
  rewrite Z.shiftl_mul_pow2, <- Z.mul_assoc, <- Z.pow_add_r by lia.
  replace (32 - num + h) with (32 - (num - h)) by lia.
  assert (2 ^ (32 - h) ≤ w0 * 2 ^ (32 - (num - h)) < 2 ^ 32) as Hb.
  { replace (32 - (num - h)) with ((32 - num) + h) by lia.
    rewrite Z.pow_add_r, Z.mul_assoc by lia.
    assert (2 ^ 32 = 2 ^ (32 - h) * 2 ^ h) as E1.
    { rewrite <- Z.pow_add_r by lia. f_equal. lia. }
    assert (2 ^ (32 - h) = 2 ^ (32 - 2 * h) * 2 ^ h) as E2.
    { rewrite <- Z.pow_add_r by lia. f_equal. lia. }
    assert (0 < 2 ^ h) by (apply Z.pow_pos_nonneg; lia). nia. }
  rewrite wrap_small; [by split_and!; try lia|]. split; [|lia].
  assert (0 < 2 ^ (32 - h)) by (apply Z.pow_pos_nonneg; lia). lia.
Qed.

Lemma generic_fls_log2 x : fits 32 x → x ≠ 0 → generic_fls x = Z.log2 x + 1.
Proof.
  intros Hx Hx0. unfold generic_fls. rewrite (proj2 (Z.eqb_neq _ _)) by done.
  assert (fls_inv x 32 32 x) as H32.
  { split_and!; [lia| | |]; unfold fits in Hx.
    - change (2 ^ (32 - 32)) with 1. lia.
    - change (2 ^ (32 - 32)) with 1. lia.
    - lia. }
  unfold BITS_PER_LONG at 1.
  apply (fls_step _ 16) in H32; [|lia].
  destruct (if Z.land x (high_mask (BITS_PER_LONG - 16)) =? 0 then _ else _) as [n1 w1].
  apply (fls_step _ 8) in H32; [|lia].
  destruct (if Z.land w1 (high_mask (BITS_PER_LONG - 8)) =? 0 then _ else _) as [n2 w2].
  apply (fls_step _ 4) in H32; [|lia].
  destruct (if Z.land w2 (high_mask (BITS_PER_LONG - 4)) =? 0 then _ else _) as [n3 w3].
  apply (fls_step _ 2) in H32; [|lia].
  destruct (if Z.land w3 (high_mask (BITS_PER_LONG - 2)) =? 0 then _ else _) as [n4 w4].
  apply (fls_step _ 1) in H32; [|lia].
  assert (∀ n w, fls_inv x 1 n w → n = Z.log2 x + 1) as Hend.
  { clear -Hx Hx0. intros n w (Hn & -> & Hlo & Hhi).
    assert (Z.log2 (x * 2 ^ (32 - n)) = 31).
    { apply Z.log2_unique; [lia|]. change (2 ^ (32 - 1)) with (2 ^ 31) in Hlo. lia. }
    rewrite Z.log2_mul_pow2 in H by (unfold fits in Hx; lia). lia. }
  destruct (Z.land w4 (high_mask (BITS_PER_LONG - 1)) =? 0); by eapply Hend.
Qed.

(** *** The MIPS versions *)
Lemma fls_log2 x : fits 32 x → fls x = if x =? 0 then 0 else Z.log2 x + 1.
Proof. intros Hx. unfold fls, clz, BITS_PER_LONG. destruct (x =? 0); lia. Qed.

Lemma lowest_set_exists x : fits 32 x → x ≠ 0 → ∃ p, lowest_set x p ∧ p < 32.
Proof.
  intros Hx Hx0. pose proof (generic_ffs_lowest x Hx Hx0) as Hl. eexists; split; [done|].
  destruct Hl as (_ & Hb & _). destruct (decide (generic_ffs x - 1 < 32)); [done|].
  by rewrite (fits_testbit_high 32) in Hb by (done || lia).
Qed.

(** [x & -x] isolates the least significant set bit. *)
Lemma isolate_lowest x p : fits 32 x → lowest_set x p → Z.land x (w32 (- x)) = 2 ^ p.
Proof.
  intros Hx (Hp & Hb & Hlow).
  assert (p < 32). { destruct (decide (p < 32)); [done|].
    by rewrite (fits_testbit_high 32) in Hb by (done || lia). }
  (* x = 2^p * (2 * y + 1), so -x = 2^p * (2 * (-y - 1) + 1) *)
  assert (∃ y, x = 2 ^ p * (2 * y + 1)) as [y ->].
  { exists (Z.shiftr x (p + 1)). rewrite Z.shiftr_div_pow2, Z.pow_add_r by lia.
    rewrite <- Z.div_div by lia. change (2 ^ 1) with 2.
    assert (x / 2 ^ p = 2 * (x / 2 ^ p / 2) + 1) as <-.
    { rewrite (Z.div_mod (x / 2 ^ p) 2) at 1 by lia. f_equal.
      rewrite <- Z.bit0_mod, <- Z.shiftr_div_pow2, Z.shiftr_spec, Z.add_0_l by lia.
      by rewrite Hb. }
    rewrite (Z.div_mod x (2 ^ p)) at 1 by lia.
    assert (x mod 2 ^ p = 0) as ->; [|lia].
    apply Z.bits_inj_0. intros j. destruct (decide (0 ≤ j < p)).
    - rewrite Z.mod_pow2_bits_low by lia. by apply Hlow.
    - destruct (decide (j < 0)); [by apply Z.testbit_neg_r|]. apply Z.mod_pow2_bits_high. lia. }
  replace (- (2 ^ p * (2 * y + 1))) with (2 ^ p * (2 * (- y - 1) + 1)) by lia.
  rewrite !(Z.mul_comm (2 ^ p)), <- !Z.shiftl_mul_pow2 by lia.
  bitwise. rewrite Z.pow2_bits_eqb by lia. destruct (Z.eqb_spec p i) as [->|].
  - rewrite Z.sub_diag, !Z.testbit_odd_0. zcases; [done|lia].
  - destruct (decide (i < p)); [by rewrite Z.testbit_neg_r by lia|].
    replace (i - p) with (Z.succ (i - p - 1)) by lia.
    rewrite !Z.testbit_odd_succ by lia.
    replace (- y - 1) with (Z.lnot y) by (unfold Z.lnot; lia).
    rewrite Z.lnot_spec by lia. destruct (Z.testbit y (i - p - 1)); by rewrite ?andb_false_r.
Qed.

Lemma ffs_lowest x p : fits 32 x → lowest_set x p → ffs x = p + 1.
Proof.
  intros Hx Hp. unfold ffs. rewrite (isolate_lowest x p) by done.
  destruct Hp as (Hp0 & Hb & _).
  assert (p < 32). { destruct (decide (p < 32)); [done|].
    by rewrite (fits_testbit_high 32) in Hb by (done || lia). }
  rewrite fls_log2 by (split; [lia|apply Z.pow_lt_mono_r; lia]).
  rewrite (proj2 (Z.eqb_neq _ _)) by (apply Z.pow_nonzero; lia).
  by rewrite Z.log2_pow2 by lia.
Qed.

Lemma ffs_0 : ffs 0 = 0.
Proof. reflexivity. Qed.

Lemma ffz_ffs x : fits 32 x → ffz x = ffs (w32 (Z.lnot x)).
Proof.
  intros Hx. unfold ffz, ffs, flz, fls, clo. set (y := Z.land _ _).
  assert (fits 32 y) by (apply fits_land; [lia|by apply wrap_fits|]; by apply wrap_fits).
  replace (w32 (Z.lnot (w32 (Z.lnot y)))) with y; [done|]. bitwise. zcases.
  - simpl. by rewrite negb_involutive.
  - by apply (fits_testbit_high 32).
Qed.

(** *** [hweight32]

    A word is read as a list of [m]-bit fields, least significant first. *)
Fixpoint comb (m : Z) (ds : list Z) : Z :=
  match ds with [] => 0 | d :: ds => d + 2 ^ m * comb m ds end.

Lemma comb_nonneg m ds : Forall (fits m) ds → 0 ≤ comb m ds.
Proof.
  induction 1 as [|d ds Hd _ IH]; simpl; [lia|].
  pose proof (Z.pow_nonneg 2 m). unfold fits in *. nia.
Qed.

Lemma field_testbit m d a i : 0 ≤ m → fits m d → 0 ≤ i →
  Z.testbit (d + 2 ^ m * a) i = if i <? m then Z.testbit d i else Z.testbit a (i - m).
Proof.
  intros Hm Hd Hi. assert (d = (d + 2 ^ m * a) mod 2 ^ m ∧ a = (d + 2 ^ m * a) / 2 ^ m) as [E1 E2].
  { unfold fits in Hd. split; [apply Z.mod_unique with a|apply Z.div_unique with d]; lia. }
  destruct (Z.ltb_spec i m).
  - rewrite E1 at 2. by rewrite Z.mod_pow2_bits_low.
  - rewrite E2 at 2. rewrite <- Z.shiftr_div_pow2, Z.shiftr_spec by lia. f_equal. lia.
Qed.

Lemma comb_land m xs ys : 0 < m → Forall (fits m) xs → Forall (fits m) ys →
  length xs = length ys →
  Z.land (comb m xs) (comb m ys) = comb m (zip_with Z.land xs ys).
Proof.
  intros Hm Hxs. revert ys. induction Hxs as [|x xs Hx _ IH]; intros [|y ys] Hys Hl; try done.
  apply Forall_cons in Hys as [Hy Hys]. simpl. rewrite <- IH by (done || (simpl in Hl; lia)).
  apply Z.bits_inj'. intros i Hi. rewrite Z.land_spec, !field_testbit; try lia; try done.
  - destruct (i <? m); by rewrite Z.land_spec.
  - apply fits_land; [lia|done|]. by destruct Hy.
Qed.

Lemma comb_shiftr m d ds : 0 ≤ m → fits m d → Z.shiftr (comb m (d :: ds)) m = comb m ds.
Proof.
  intros Hm Hd. simpl. rewrite Z.shiftr_div_pow2 by done.
  rewrite (Z.mul_comm (2 ^ m)), Z.div_add by (apply Z.pow_nonzero; lia).
  rewrite Z.div_small by done. lia.
Qed.

Fixpoint bit_list (n : nat) (x : Z) : list Z :=
  match n with O => [] | S n => Z.b2z (Z.odd x) :: bit_list n (Z.div2 x) end.

Lemma comb_bit_list n x : fits (Z.of_nat n) x → comb 1 (bit_list n x) = x.
Proof.
  revert x. induction n as [|n IH]; intros x Hx; simpl.
  - unfold fits in Hx. simpl in Hx. lia.
  - pose proof (Z.div2_odd x) as Ho. rewrite IH; [change (2 ^ 1) with 2; lia|].
    unfold fits in *. rewrite Nat2Z.inj_succ, Z.pow_succ_r in Hx by lia.
    rewrite Z.div2_div. split; [apply Z.div_pos; lia|]. apply Z.div_lt_upper_bound; lia.
Qed.

Lemma sum_bit_list n x : foldr Z.add 0 (bit_list n x) = popcount n x.
Proof. revert x. induction n as [|n IH]; intros x; simpl; [done|]. by rewrite IH. Qed.

Lemma bit_list_bits n x : Forall (λ b, 0 ≤ b ≤ 1) (bit_list n x).
Proof.
  revert x. induction n as [|n IH]; intros x; simpl; constructor; [|done].
  destruct (Z.odd x); simpl; lia.
Qed.

(** Adding neighbouring fields in place: [x + (x >> m)], masked to even fields. *)
Fixpoint pair_sum (ds : list Z) : list Z :=
  match ds with a :: b :: ds => a + b :: pair_sum ds | _ => [] end.
Fixpoint evens (ds : list Z) : list Z :=
  match ds with a :: b :: ds => a :: 0 :: evens ds | _ => [] end.
Fixpoint odds (ds : list Z) : list Z :=
  match ds with a :: b :: ds => b :: 0 :: odds ds | _ => [] end.

Lemma comb_evens_odds m ds : 0 ≤ m →
  comb m (evens ds) + comb m (odds ds) = comb (m + m) (pair_sum ds).
Proof.
  intros Hm. assert (∀ k xs, (length xs ≤ k)%nat →
    comb m (evens xs) + comb m (odds xs) = comb (m + m) (pair_sum xs)) as H; [|by eapply H].
  induction k as [|k IH]; intros [|a [|b xs]] Hl; simpl in *; try lia.
  rewrite <- IH by lia. rewrite Z.pow_add_r by done. lia.
Qed.

Definition alt_mask (m : Z) (k : nat) : list Z := concat (replicate k [Z.ones m; 0]).

Lemma pairs_ind (P : list Z → Prop) :
  P [] → (∀ a b ds, P ds → P (a :: b :: ds)) →
  ∀ k ds, length ds = (2 * k)%nat → P ds.
Proof.
  intros H0 H2. induction k as [|k IH]; intros [|a [|b ds]] Hl; simpl in Hl; try done; try lia.
  apply H2, IH. lia.
Qed.

Lemma comb_split m k ds : 0 ≤ m → length ds = (2 * k)%nat →
  comb m ds = comb m (evens ds) + 2 ^ m * comb m (odds ds).
Proof.
  intros Hm. revert k ds.
  refine (pairs_ind _ _ _); simpl; [lia|]. intros a b ds IH. rewrite IH. ring.
Qed.

Lemma alt_mask_fits m k : 0 ≤ m → Forall (fits m) (alt_mask m k).
Proof.
  intros Hm. assert (0 < 2 ^ m) by (apply Z.pow_pos_nonneg; lia).
  induction k; [constructor|]. change (alt_mask m (S k)) with (Z.ones m :: 0 :: alt_mask m k).
  rewrite Z.ones_equiv. repeat constructor; try lia. done.
Qed.

Lemma alt_mask_length m k : length (alt_mask m k) = (2 * k)%nat.
Proof. induction k as [|k IH]; [done|]. simpl. unfold alt_mask in IH. lia. Qed.

Lemma zip_alt_evens m k ds : 0 ≤ m → length ds = (2 * k)%nat → Forall (fits m) ds →
  zip_with Z.land ds (alt_mask m k) = evens ds.
Proof.
  intros Hm. revert ds. induction k as [|k IH]; intros [|a [|b ds]] Hl Hds; simpl in Hl; try lia.
  { done. }
  apply Forall_cons in Hds as [Ha Hds]. apply Forall_cons in Hds as [Hb Hds].
  change (alt_mask m (S k)) with (Z.ones m :: 0 :: alt_mask m k). simpl.
  rewrite Z.land_ones, Z.mod_small, Z.land_0_r by (unfold fits in *; lia).
  by rewrite IH by (done || lia).
Qed.

Lemma evens_mask m k ds : 0 < m → length ds = (2 * k)%nat → Forall (fits m) ds →
  Z.land (comb m ds) (comb m (alt_mask m k)) = comb m (evens ds).
Proof.
  intros Hm Hl Hds. rewrite comb_land, zip_alt_evens; try lia; try done.
  - by apply alt_mask_fits; lia.
  - by rewrite alt_mask_length.
Qed.

Lemma comb_snoc0 m ds : comb m (ds ++ [0]) = comb m ds.
Proof. induction ds as [|d ds IH]; simpl; [lia|]. by rewrite IH. Qed.

Lemma evens_tail k ds : length ds = (2 * k)%nat → evens (tail ds ++ [0]) = odds ds.
Proof.
  revert ds. induction k as [|k IH]; intros [|a [|b ds]] Hl; simpl in *; try lia; [done|].
  destruct ds as [|c ds]; [done|]. f_equal. f_equal. rewrite <- IH by (simpl in *; lia). done.
Qed.

Lemma odds_mask m k ds : 0 < m → length ds = (2 * S k)%nat → Forall (fits m) ds →
  Z.land (Z.shiftr (comb m ds) m) (comb m (alt_mask m (S k))) = comb m (odds ds).
Proof.
  intros Hm Hl Hds. destruct ds as [|d ds]; [done|].
  apply Forall_cons in Hds as [Hd Hds]. rewrite comb_shiftr by (done || lia).
  rewrite <- comb_snoc0, evens_mask; [|lia| |].
  - f_equal. by apply (evens_tail (S k) (d :: ds)).
  - rewrite length_app. simpl in *. lia.
  - apply Forall_app. split; [done|]. constructor; [|constructor].
    split; [lia|]. apply Z.pow_pos_nonneg; lia.
Qed.

Lemma pair_sum_bound c ds : Forall (λ b, 0 ≤ b ≤ c) ds → Forall (λ b, 0 ≤ b ≤ 2 * c) (pair_sum ds).
Proof.
  assert (∀ k xs, (length xs ≤ k)%nat → Forall (λ b, 0 ≤ b ≤ c) xs →
    Forall (λ b, 0 ≤ b ≤ 2 * c) (pair_sum xs)) as H; [|by eapply H].
  induction k as [|k IH]; intros [|a [|b xs]] Hl Hx; simpl in *; try lia; try constructor.
  - repeat (apply Forall_cons in Hx as [? Hx]). lia.
  - repeat (apply Forall_cons in Hx as [? Hx]). apply IH; [lia|done].
Qed.

Lemma pair_sum_total k ds : length ds = (2 * k)%nat →
  foldr Z.add 0 (pair_sum ds) = foldr Z.add 0 ds ∧ length (pair_sum ds) = k.
Proof.
  revert ds. induction k as [|k IH]; intros [|a [|b ds]] Hl; simpl in *; try lia.
  destruct (IH ds); [lia|]. split; lia.
Qed.

Lemma bound_fits m c ds : c < 2 ^ m → Forall (λ b, 0 ≤ b ≤ c) ds → Forall (fits m) ds.
Proof. intros Hc Hb. eapply Forall_impl; [done|]. unfold fits. simpl. lia. Qed.

Lemma comb_fits m ds : 0 ≤ m → Forall (fits m) ds → fits (m * Z.of_nat (length ds)) (comb m ds).
Proof.
  intros Hm. induction 1 as [|d ds Hd Hds IH]; simpl.
  - rewrite Z.mul_0_r. unfold fits. lia.
  - replace (m * Z.of_nat (S (length ds))) with (m + m * Z.of_nat (length ds)) by lia.
    unfold fits in *. rewrite Z.pow_add_r by lia. nia.
Qed.

(** The last folds, on eight fields that count at most four bits each. *)
Lemma hweight_tail d0 d1 d2 d3 d4 d5 d6 d7 :
  Forall (λ b, 0 ≤ b ≤ 4) [d0; d1; d2; d3; d4; d5; d6; d7] →
  let res := comb 4 [d0; d1; d2; d3; d4; d5; d6; d7] in
  let res := Z.land (w32 (res + Z.shiftr res 4)) 0x0F0F0F0F in
  let res := w32 (res + Z.shiftr res 8) in
  Z.land (w32 (res + Z.shiftr res 16)) 0x000000FF = d0 + d1 + d2 + d3 + d4 + d5 + d6 + d7.
Proof.
  intros H. repeat match goal with H : Forall _ (_ :: _) |- _ => apply Forall_cons in H as [? H] end.
  clear H. cbv zeta. rewrite comb_shiftr by (unfold fits; lia).
  assert (∀ x, x = comb 4 [d0 + d1; d1 + d2; d2 + d3; d3 + d4; d4 + d5; d5 + d6; d6 + d7; d7] →
    Z.land (w32 x) 0x0F0F0F0F = comb 8 [d0 + d1; d2 + d3; d4 + d5; d6 + d7]) as Hm.
  { intros x ->. rewrite wrap_small.
    - change 0x0F0F0F0F with (comb 4 (alt_mask 4 4)).
      rewrite evens_mask; [simpl; lia|lia|done|].
      repeat (apply Forall_cons; split; [unfold fits; lia|]). done.
    - apply (comb_fits 4 [_; _; _; _; _; _; _; _]); [lia|].
      repeat (apply Forall_cons; split; [unfold fits; lia|]). done. }
  rewrite Hm by (simpl; lia). clear Hm. rewrite comb_shiftr by (unfold fits; lia).
  assert (∀ x, x = comb 8 [d0 + d1 + d2 + d3; d2 + d3 + d4 + d5; d4 + d5 + d6 + d7; d6 + d7] →
    w32 x = x ∧ Z.shiftr x 16 = comb 8 [d4 + d5 + d6 + d7; d6 + d7]) as Hx.
  { intros x ->. split.
    - apply wrap_small, (comb_fits 8 [_; _; _; _]); [lia|].
      repeat (apply Forall_cons; split; [unfold fits; lia|]). done.
    - change 16 with (8 + 8). rewrite <- Z.shiftr_shiftr by lia.
      by rewrite !comb_shiftr by (unfold fits; lia). }
  set (x := comb 8 [d0 + d1; d2 + d3; d4 + d5; d6 + d7] + _).
  destruct (Hx x) as [-> ->]; [unfold x; simpl; lia|]. unfold x.
  change 0x000000FF with (Z.ones 8). rewrite Z.land_ones by lia. unfold wrap.
  rewrite Z.mod_mod_divide by by exists (2 ^ 24).
  symmetry. apply Z.mod_unique with
    ((d2 + d3 + d4 + d5 + d6 + d7) + 2 ^ 8 * ((d4 + d5 + d6 + d7) + 2 ^ 8 * (d6 + d7))); simpl; lia.
Qed.

(** The two masked additions, as sums of neighbouring fields. *)
Lemma hweight_stage1 bs : length bs = 32%nat → Forall (λ b, 0 ≤ b ≤ 1) bs →
  w32 (comb 1 bs - Z.land (Z.shiftr (comb 1 bs) 1) 0x55555555) = comb 2 (pair_sum bs).
Proof.
  intros Hlen Hbs. change 0x55555555 with (comb 1 (alt_mask 1 16)).
  rewrite odds_mask by (done || by apply (bound_fits 1 1)).
  rewrite (comb_split 1 16 bs) at 1 by done.
  replace (comb 1 (evens bs) + 2 ^ 1 * comb 1 (odds bs) - comb 1 (odds bs))
    with (comb 2 (pair_sum bs))
    by (change 2 with (1 + 1); rewrite <- comb_evens_odds by lia; change (2 ^ 1) with 2; lia).
  apply wrap_small. destruct (pair_sum_total 16 bs Hlen) as [_ Hl].
  pose proof (comb_fits 2 (pair_sum bs)) as H. rewrite Hl in H. apply H; [lia|].
  apply (bound_fits 2 (2 * 1)); [done|]. by apply pair_sum_bound.
Qed.

Lemma hweight_stage2 cs : length cs = 16%nat → Forall (λ b, 0 ≤ b ≤ 2) cs →
  w32 (Z.land (comb 2 cs) 0x33333333 + Z.land (Z.shiftr (comb 2 cs) 2) 0x33333333) =
  comb 4 (pair_sum cs).
Proof.
  intros Hlen Hb. assert (Forall (fits 2) cs) by by apply (bound_fits 2 2).
  change 0x33333333 with (comb 2 (alt_mask 2 8)).
  rewrite evens_mask, odds_mask, comb_evens_odds by (done || lia).
  apply wrap_small. destruct (pair_sum_total 8 cs Hlen) as [_ Hl].
  pose proof (comb_fits 4 (pair_sum cs)) as Hc. rewrite Hl in Hc. apply Hc; [lia|].
  apply (bound_fits 4 (2 * 2)); [done|]. by apply pair_sum_bound.
Qed.

Lemma hweight32_fields bs : length bs = 32%nat → Forall (λ b, 0 ≤ b ≤ 1) bs →
  hweight32 (comb 1 bs) = foldr Z.add 0 bs.
Proof.
  intros Hlen Hbs. pose proof (pair_sum_total 16 bs Hlen) as [E1 Hl1].
  pose proof (pair_sum_bound 1 bs Hbs) as Hb1.
  pose proof (pair_sum_total 8 (pair_sum bs) Hl1) as [E2 Hl2].
  pose proof (pair_sum_bound 2 _ Hb1) as Hb2.
  unfold hweight32. cbv zeta. rewrite hweight_stage1, hweight_stage2 by done.
  rewrite <- E1, <- E2. clear E1 E2 Hl1 Hb1. generalize dependent (pair_sum (pair_sum bs)).
  intros ds Hl Hb. do 8 (destruct ds as [|? ds]; [done|]). destruct ds; [|done].
  rewrite hweight_tail by done. simpl. lia.
Qed.

Lemma hweight32_popcount w : fits 32 w → hweight32 w = popcount 32 w.
Proof.
  intros Hw. rewrite <- sum_bit_list, <- hweight32_fields.
  - by rewrite comb_bit_list.
  - done.
  - apply bit_list_bits.
Qed.

Lemma popcount_split n k x : popcount (n + k) x = popcount n x + popcount k (Z.shiftr x (Z.of_nat n)).
Proof.
  revert x. induction n as [|n IH]; intros x.
  - by rewrite Z.shiftr_0_r.
  - change (S n + k)%nat with (S (n + k)). cbn [popcount]. rewrite IH.
    rewrite Nat2Z.inj_succ, <- Z.add_1_l, <- Z.shiftr_shiftr, Z.div2_spec by lia. lia.
Qed.

Lemma popcount_wrap n x : popcount n (wrap (Z.of_nat n) x) = popcount n x.
Proof.
  revert x. induction n as [|n IH]; intros x; [done|]. simpl. rewrite <- (IH (Z.div2 x)).
  f_equal.
  - f_equal. rewrite <- !Z.bit0_odd, wrap_testbit by lia. zcases; [done|lia].
  - f_equal. rewrite !Z.div2_spec. bitwise. rewrite Nat2Z.inj_succ. zcases; lia || done.
Qed.

(** ** Correctness *)

(** [ffs], on MIPS through [clz] and in the portable binary search, returns
    0 for the zero word and otherwise the 1-based position of the least
    significant set bit: that bit is set and no lower bit is. *)
Theorem ffs_correct x : fits 32 x →
  ffs x = generic_ffs x ∧
  (x = 0 → ffs x = 0) ∧ (x ≠ 0 → lowest_set x (ffs x - 1)).
Proof.
  intros Hx. destruct (decide (x = 0)) as [->|Hne]; [done|].
  pose proof (generic_ffs_lowest x Hx Hne) as Hl.
  pose proof (ffs_lowest x _ Hx Hl) as E. split_and!; [lia|done|]. intros _.
  by replace (ffs x - 1) with (generic_ffs x - 1) by lia.
Qed.

Lemma ffs_correct_witness :
  ffs 0x00a0 = generic_ffs 0x00a0 ∧
  (0x00a0 = 0 → ffs 0x00a0 = 0) ∧ (0x00a0 ≠ 0 → lowest_set 0x00a0 (ffs 0x00a0 - 1)).
Proof. apply (ffs_correct 0x00a0). unfold fits. lia. Defined.

(** [fls] returns 0 for the zero word and [floor (log2 x) + 1] otherwise, in
    the MIPS and in the portable version. *)
Theorem fls_correct x : fits 32 x →
  fls x = generic_fls x ∧ fls x = if x =? 0 then 0 else Z.log2 x + 1.
Proof.
  intros Hx. rewrite fls_log2 by done. destruct (Z.eqb_spec x 0) as [->|Hne]; [done|].
  by rewrite generic_fls_log2.
Qed.

Lemma fls_correct_witness :
  fls 0x1234 = generic_fls 0x1234 ∧ fls 0x1234 = if 0x1234 =? 0 then 0 else Z.log2 0x1234 + 1.
Proof. apply (fls_correct 0x1234). unfold fits. lia. Defined.

(** The branch-free Hamming weights count the set bits of the word, 32 and
    64 bits wide. *)
Theorem hweight_counts_bits x : fits 64 x →
  hweight32 (w32 x) = popcount 32 x ∧ hweight64 x = popcount 64 x.
Proof.
  intros Hx. assert (∀ y, hweight32 (w32 y) = popcount 32 y) as H.
  { intros y. rewrite hweight32_popcount by (apply wrap_fits; lia). apply (popcount_wrap 32). }
  split; [done|]. change 64%nat with (32 + 32)%nat. unfold hweight64. rewrite !H, popcount_split.
  change (Z.of_nat 32) with 32. lia.
Qed.

Lemma hweight_counts_bits_witness :
  hweight32 (w32 0xff00000003) = popcount 32 0xff00000003 ∧
  hweight64 0xff00000003 = popcount 64 0xff00000003.
Proof. apply (hweight_counts_bits 0xff00000003). unfold fits. lia. Defined.

(** [__generic_fls64] on a 32-bit machine looks at the high word only when
    the low word is zero, so it reports the last set bit of the low word for
    every value of the high word. *)
Theorem generic_fls64_ignores_high hi lo : fits 32 hi → fits 32 lo → lo ≠ 0 →
  generic_fls64 (2 ^ 32 * hi + lo) = Z.log2 lo + 1.
Proof.
  intros Hh Hl Hne. unfold generic_fls64.
  assert (w32 (2 ^ 32 * hi + lo) = lo) as ->.
  { symmetry. apply Z.mod_unique with hi; unfold fits in *; lia. }
  rewrite (proj2 (Z.eqb_neq _ _)), fls_log2 by done.
  by rewrite (proj2 (Z.eqb_neq _ _)).
Qed.

Lemma generic_fls64_ignores_high_witness :
  generic_fls64 (2 ^ 32 * 1 + 1) = Z.log2 1 + 1 ∧ Z.log2 (2 ^ 32 * 1 + 1) + 1 = 33.
Proof. split; [apply generic_fls64_ignores_high; unfold fits; lia|reflexivity]. Defined.
