(* ===== verification/Bitmap.v ===== *)
(** * Bitmaps

    include/bitmap.h and kern/lib/libbitmap: a bitmap is an array of 32-bit
    words, a [list Z] here.  An access outside the array is a [BadPtr].  The
    exported wrappers of bitmap.h ([bitmap_and] for [__bitmap_and] and so on)
    only pass their arguments on and have the same name here.  Source and
    destination are separate values: each word of the destination depends on
    the same word of the sources and is written after it is read, so that the
    operations on two bitmaps give the same words when they are done in place. *)
From S2P Require Import Prelude Util Bitops.

(** [DIV_ROUND_UP(n, sizeof(unsigned long))]: a division by the bytes, not the
    bits, of a word. *)
Definition BITS_TO_LONGS (n : Z) : Z := (n + 4 - 1) / 4.
Definition BIT_WORD (nr : Z) : Z := nr / BITS_PER_LONG.
Definition BITMAP_FIRST_WORD_MASK (start : Z) : Z :=
  w32 (Z.shiftl (w32 (Z.lnot 0)) (start mod BITS_PER_LONG)).
Definition BITMAP_LAST_WORD_MASK (nbits : Z) : Z :=
  if negb (nbits mod BITS_PER_LONG =? 0)
  then w32 (Z.shiftl 1 (nbits mod BITS_PER_LONG) - 1) else w32 (Z.lnot 0).
Definition not32 (x : Z) : Z := w32 (Z.lnot x).

(** ** Word-by-word combination *)

(** [for (k = 0; k < nr; k++) result |= (dst[k] = op(bitmap1[k], bitmap2[k]))] *)
Definition combine_words (op : Z → Z → Z) (dst b1 b2 : list Z) (bits : Z) : res (list Z * Z) :=
  let nr := BITS_TO_LONGS bits in
  loop (S (Z.to_nat nr)) (λ '(k, dst, result),
    if k <? nr then
      x ← rd b1 k; y ← rd b2 k; let v := op x y in
      dst ← wr dst k v; Ok (inl (k + 1, dst, Z.lor result v))
    else Ok (inr (dst, result))) (0, dst, 0).

Definition bitmap_and (dst b1 b2 : list Z) (bits : Z) : res (list Z * Z) :=
  '(dst, result) ← combine_words Z.land dst b1 b2 bits;
  Ok (dst, if result =? 0 then 0 else 1).
Definition bitmap_andnot (dst b1 b2 : list Z) (bits : Z) : res (list Z * Z) :=
  '(dst, result) ← combine_words (λ x y, Z.land x (not32 y)) dst b1 b2 bits;
  Ok (dst, if result =? 0 then 0 else 1).
Definition bitmap_or (dst b1 b2 : list Z) (bits : Z) : res (list Z) :=
  '(dst, _) ← combine_words Z.lor dst b1 b2 bits; Ok dst.
Definition bitmap_xor (dst b1 b2 : list Z) (bits : Z) : res (list Z) :=
  '(dst, _) ← combine_words Z.lxor dst b1 b2 bits; Ok dst.

Definition bitmap_complement (dst src : list Z) (bits : Z) : res (list Z) :=
  let lim := bits / BITS_PER_LONG in
  '(k, dst) ← loop (S (Z.to_nat lim)) (λ '(k, dst),
    if k <? lim then
      x ← rd src k; dst ← wr dst k (not32 x); Ok (inl (k + 1, dst))
    else Ok (inr (k, dst))) (0, dst);
  if bits mod BITS_PER_LONG =? 0 then Ok dst
  else x ← rd src k; wr dst k (Z.land (not32 x) (BITMAP_LAST_WORD_MASK bits)).

(** ** Tests over the first [bits] bits *)

(** The shape of [__bitmap_equal], [__bitmap_full], [__bitmap_intersects] and
    [__bitmap_subset]: whole words first, with [whole], then the partial last
    word, masked.  [Ok true]: some word passes the test. *)
Definition scan_words (whole : Z → res bool) (last : Z → res Z) (bits : Z) : res bool :=
  let lim := bits / BITS_PER_LONG in
  r ← loop (S (Z.to_nat lim)) (λ k,
    if k <? lim then b ← whole k; if (b : bool) then Ok (inr None) else Ok (inl (k + 1))
    else Ok (inr (Some k))) 0;
  match r with
  | None => Ok true
  | Some k =>
    if bits mod BITS_PER_LONG =? 0 then Ok false
    else x ← last k; Ok (negb (Z.land x (BITMAP_LAST_WORD_MASK bits) =? 0))
  end.

Definition nonzero (x : Z) : bool := negb (x =? 0).
Definition c_bool (b : bool) : Z := if b then 1 else 0.

Definition bitmap_equal (b1 b2 : list Z) (bits : Z) : res Z :=
  r ← scan_words (λ k, x ← rd b1 k; y ← rd b2 k; Ok (negb (x =? y)))
    (λ k, x ← rd b1 k; y ← rd b2 k; Ok (Z.lxor x y)) bits;
  Ok (c_bool (negb r)).
Definition bitmap_full (b : list Z) (bits : Z) : res Z :=
  r ← scan_words (λ k, x ← rd b k; Ok (nonzero (not32 x)))
    (λ k, x ← rd b k; Ok (not32 x)) bits;
  Ok (c_bool (negb r)).
Definition bitmap_intersects (b1 b2 : list Z) (bits : Z) : res Z :=
  r ← scan_words (λ k, x ← rd b1 k; y ← rd b2 k; Ok (nonzero (Z.land x y)))
    (λ k, x ← rd b1 k; y ← rd b2 k; Ok (Z.land x y)) bits;
  Ok (c_bool r).
Definition bitmap_subset (b1 b2 : list Z) (bits : Z) : res Z :=
  r ← scan_words (λ k, x ← rd b1 k; y ← rd b2 k; Ok (nonzero (Z.land x (not32 y))))
    (λ k, x ← rd b1 k; y ← rd b2 k; Ok (Z.land x (not32 y))) bits;
  Ok (c_bool (negb r)).

Definition bitmap_weight (b : list Z) (bits : Z) : res Z :=
  let lim := bits / BITS_PER_LONG in
  '(k, w) ← loop (S (Z.to_nat lim)) (λ '(k, w),
    if k <? lim then x ← rd b k; Ok (inl (k + 1, w + hweight32 x))
    else Ok (inr (k, w))) (0, 0);
  if bits mod BITS_PER_LONG =? 0 then Ok w
  else x ← rd b k; Ok (w + hweight32 (Z.land x (BITMAP_LAST_WORD_MASK bits))).

(** ** Setting and clearing a range *)

(** The common loop of [bitmap_set] and [bitmap_clear]; [upd] is [*p |= mask] or
    [*p &= ~mask]. *)
Definition update_range (upd : Z → Z → Z) (map : list Z) (start nr : Z) : res (list Z) :=
  let size := start + nr in
  '(p, nr, mask, map) ← loop (S (Z.to_nat nr)) (λ '(p, nr, bits_to_set, mask, map),
    if 0 <=? nr - bits_to_set then
      x ← rd map p; map ← wr map p (upd x mask);
      Ok (inl (p + 1, nr - bits_to_set, BITS_PER_LONG, w32 (Z.lnot 0), map))
    else Ok (inr (p, nr, mask, map)))
    (BIT_WORD start, nr, BITS_PER_LONG - start mod BITS_PER_LONG,
     BITMAP_FIRST_WORD_MASK start, map);
  if nr =? 0 then Ok map
  else
    let mask := Z.land mask (BITMAP_LAST_WORD_MASK size) in
    x ← rd map p; wr map p (upd x mask).

Definition bitmap_set (map : list Z) (start nr : Z) : res (list Z) :=
  update_range Z.lor map start nr.
Definition bitmap_clear (map : list Z) (start nr : Z) : res (list Z) :=
  update_range (λ x mask, Z.land x (not32 mask)) map start nr.

(** ** Searching *)

(** [size & ~(BITS_PER_LONG - 1)] as a truth value. *)
Definition more_words (size : Z) : bool :=
  nonzero (Z.land size (w32 (Z.lnot (BITS_PER_LONG - 1)))).

Definition bitmap_find_first_bit (addr : list Z) (size : Z) : res Z :=
  r ← loop (S (Z.to_nat size)) (λ '(p, result, size),
    if more_words size then
      tmp ← rd addr p;
      if nonzero tmp then Ok (inr (inr (result, tmp)))
      else Ok (inl (p + 1, w32 (result + BITS_PER_LONG), w32 (size - BITS_PER_LONG)))
    else Ok (inr (inl (p, result, size)))) (0, 0, size);
  match r with
  | inr (result, tmp) => Ok (w32 (result + ffs tmp))
  | inl (p, result, size) =>
    if size =? 0 then Ok 0 else
    x ← rd addr p;
    let tmp := Z.land x (Z.shiftr (w32 (Z.lnot 0)) (BITS_PER_LONG - size)) in
    if tmp =? 0 then Ok 0 else Ok (w32 (result + ffs tmp))
  end.

Definition bitmap_find_first_zero_bit (addr : list Z) (size : Z) : res Z :=
  r ← loop (S (Z.to_nat size)) (λ '(p, result, size),
    if more_words size then
      tmp ← rd addr p;
      if nonzero (not32 tmp) then Ok (inr (inr (result, tmp)))
      else Ok (inl (p + 1, w32 (result + BITS_PER_LONG), w32 (size - BITS_PER_LONG)))
    else Ok (inr (inl (p, result, size)))) (0, 0, size);
  match r with
  | inr (result, tmp) => Ok (w32 (result + ffz tmp))
  | inl (p, result, size) =>
    if size =? 0 then Ok 0 else
    x ← rd addr p;
    let tmp := Z.lor x (w32 (Z.shiftl (w32 (Z.lnot 0)) size)) in
    if tmp =? w32 (Z.lnot 0) then Ok 0 else Ok (w32 (result + ffz tmp))
  end.

(** [found_first] and [found_middle] are the labels of
    [bitmap_find_next_bit]; [words_from] is its [while] loop and what follows. *)
Definition found_middle (find : Z → Z) (result tmp : Z) : res Z := Ok (w32 (result + find tmp)).
Definition found_first (result size tmp : Z) : res Z :=
  let tmp := Z.land tmp (Z.shiftr (w32 (Z.lnot 0)) (BITS_PER_LONG - size)) in
  if tmp =? 0 then Ok 0 else found_middle ffs result tmp.
Definition words_from (addr : list Z) (p result size : Z) : res Z :=
  r ← loop (S (Z.to_nat size)) (λ '(p, result, size),
    if more_words size then
      tmp ← rd addr p;
      if nonzero tmp then Ok (inr (inr (result, tmp)))
      else Ok (inl (p + 1, w32 (result + BITS_PER_LONG), w32 (size - BITS_PER_LONG)))
    else Ok (inr (inl (p, result, size)))) (p, result, size);
  match r with
  | inr (result, tmp) => found_middle ffs result tmp
  | inl (p, result, size) =>
    if size =? 0 then Ok 0 else tmp ← rd addr p; found_first result size tmp
  end.

Definition bitmap_find_next_bit (addr : list Z) (size offset : Z) : res Z :=
  if offset =? 0 then Ok 0 else
  let offset := w32 (offset - 1) in
  let p := BIT_WORD offset in
  let result := Z.land offset (w32 (Z.lnot (BITS_PER_LONG - 1))) in
  if size <=? offset then Ok 0 else
  let size := w32 (size - result) in
  let offset := offset mod BITS_PER_LONG in
  if nonzero offset then
    tmp ← rd addr p;
    let p := p + 1 in
    let tmp := Z.land tmp (w32 (Z.shiftl (w32 (Z.lnot 0)) offset)) in
    if size <? BITS_PER_LONG then found_first result size tmp
    else if nonzero tmp then found_middle ffs result tmp
    else words_from addr p (w32 (result + BITS_PER_LONG)) (w32 (size - BITS_PER_LONG))
  else words_from addr p result size.

(** The labels and the loop of [bitmap_find_next_zero_bit]. *)
Definition found_first_zero (result size tmp : Z) : res Z :=
  let tmp := Z.lor tmp (w32 (Z.shiftl (w32 (Z.lnot 0)) size)) in
  if tmp =? w32 (Z.lnot 0) then Ok 0 else found_middle ffz result tmp.
Definition words_from_zero (addr : list Z) (p result size : Z) : res Z :=
  r ← loop (S (Z.to_nat size)) (λ '(p, result, size),
    if more_words size then
      tmp ← rd addr p;
      if nonzero (not32 tmp) then Ok (inr (inr (result, tmp)))
      else Ok (inl (p + 1, w32 (result + BITS_PER_LONG), w32 (size - BITS_PER_LONG)))
    else Ok (inr (inl (p, result, size)))) (p, result, size);
  match r with
  | inr (result, tmp) => found_middle ffz result tmp
  | inl (p, result, size) =>
    if size =? 0 then Ok 0 else tmp ← rd addr p; found_first_zero result size tmp
  end.

Definition bitmap_find_next_zero_bit (addr : list Z) (size offset : Z) : res Z :=
  if offset =? 0 then Ok 0 else
  let offset := w32 (offset - 1) in
  let p := BIT_WORD offset in
  let result := Z.land offset (w32 (Z.lnot (BITS_PER_LONG - 1))) in
  if size <=? offset then Ok 0 else
  let size := w32 (size - result) in
  let offset := offset mod BITS_PER_LONG in
  if nonzero offset then
    tmp ← rd addr p;
    let p := p + 1 in
    let tmp := Z.lor tmp (Z.shiftr (w32 (Z.lnot 0)) (BITS_PER_LONG - offset)) in
    if size <? BITS_PER_LONG then found_first_zero result size tmp
    else if nonzero (not32 tmp) then found_middle ffz result tmp
    else words_from_zero addr p (w32 (result + BITS_PER_LONG)) (w32 (size - BITS_PER_LONG))
  else words_from_zero addr p result size.

Definition bitmap_find_last_bit (addr : list Z) (size : Z) : res Z :=
  let words := size / BITS_PER_LONG in
  let back := loop (S (Z.to_nat words)) (λ words,
    if words =? 0 then Ok (inr size)
    else
      let words := words - 1 in
      tmp ← rd addr words;
      if nonzero tmp then Ok (inr (w32 (words * BITS_PER_LONG + fls tmp)))
      else Ok (inl words)) in
  let rest := Z.land size (BITS_PER_LONG - 1) in
  if nonzero rest then
    x ← rd addr words;
    let tmp := Z.land x (Z.shiftr (w32 (Z.lnot 0)) (BITS_PER_LONG - rest)) in
    if nonzero tmp then Ok (w32 (words * BITS_PER_LONG + fls tmp)) else back words
  else back words.

(** ** Shifts *)
Definition bitmap_shift_left (dst src : list Z) (shift bits : Z) : res (list Z) :=
  let lim := BITS_TO_LONGS bits in
  let left := bits mod BITS_PER_LONG in
  let off := shift / BITS_PER_LONG in
  let rem := shift mod BITS_PER_LONG in
  let mask := w32 (Z.shiftl 1 left - 1) in
  dst ← loop (S (Z.to_nat lim)) (λ '(k, dst),
    if 0 <=? k then
      lower ← (if nonzero rem && (0 <? k) then rd src (k - 1) else Ok 0);
      upper ← rd src k;
      let upper := if nonzero left && (k =? lim - 1) then Z.land upper mask else upper in
      let v := Z.lor (Z.shiftr lower (BITS_PER_LONG - rem)) (w32 (Z.shiftl upper rem)) in
      let v := if nonzero left && (k + off =? lim - 1) then Z.land v mask else v in
      dst ← wr dst (k + off) v;
      Ok (inl (k - 1, dst))
    else Ok (inr dst)) (lim - off - 1, dst);
  loop (S (Z.to_nat off)) (λ '(k, dst),
    if k <? off then dst ← wr dst k 0; Ok (inl (k + 1, dst)) else Ok (inr dst)) (0, dst).

Definition bitmap_shift_right (dst src : list Z) (shift bits : Z) : res (list Z) :=
  let lim := BITS_TO_LONGS bits in
  let left := bits mod BITS_PER_LONG in
  let off := shift / BITS_PER_LONG in
  let rem := shift mod BITS_PER_LONG in
  let mask := w32 (Z.shiftl 1 left - 1) in
  dst ← loop (S (Z.to_nat lim)) (λ '(k, dst),
    if off + k <? lim then
      upper ← (if negb (nonzero rem) || (lim <=? off + k + 1) then Ok 0
               else x ← rd src (off + k + 1);
                    Ok (if (off + k + 1 =? lim - 1) && nonzero left then Z.land x mask else x));
      lower ← rd src (off + k);
      let lower := if nonzero left && (off + k =? lim - 1) then Z.land lower mask else lower in
      let v := Z.lor (w32 (Z.shiftl upper (BITS_PER_LONG - rem))) (Z.shiftr lower rem) in
      let v := if nonzero left && (k =? lim - 1) then Z.land v mask else v in
      dst ← wr dst k v;
      Ok (inl (k + 1, dst))
    else Ok (inr dst)) (0, dst);
  loop (S (Z.to_nat off)) (λ '(k, dst),
    if k <? off then dst ← wr dst (lim - off + k) 0; Ok (inl (k + 1, dst)) else Ok (inr dst))
    (0, dst).

(** ** include/bitmap.h inlines and the atomic single-bit updates of
    include/arch/mips/atomic.h *)

(** [memset] over [n] whole words. *)
Definition fill_words (v : Z) (dst : list Z) (n : Z) : res (list Z) :=
  loop (S (Z.to_nat n)) (λ '(k, dst),
    if k <? n then dst ← wr dst k v; Ok (inl (k + 1, dst)) else Ok (inr dst)) (0, dst).

Definition bitmap_zero (dst : list Z) (nbits : Z) : res (list Z) :=
  fill_words 0 dst (BITS_TO_LONGS nbits).
Definition bitmap_fill (dst : list Z) (nbits : Z) : res (list Z) :=
  let nlongs := BITS_TO_LONGS nbits in
  dst ← fill_words 0xffffffff dst (nlongs - 1);
  wr dst (nlongs - 1) (BITMAP_LAST_WORD_MASK nbits).
Definition bitmap_test_bit (nr : Z) (addr : list Z) : res Z :=
  _ ← assert_ (0 <? nr);
  x ← rd addr (BIT_WORD nr);
  Ok (Z.land 1 (Z.shiftr x (Z.land (nr - 1) (BITS_PER_LONG - 1)))).

Definition atomic_set_bit (nr : Z) (addr : list Z) : res (list Z) :=
  let nr := w32 (nr - 1) in
  x ← rd addr (Z.shiftr nr 5);
  wr addr (Z.shiftr nr 5) (Z.lor x (w32 (Z.shiftl 1 (Z.land nr 31)))).
Definition atomic_clear_bit (nr : Z) (addr : list Z) : res (list Z) :=
  let nr := w32 (nr - 1) in
  x ← rd addr (Z.shiftr nr 5);
  wr addr (Z.shiftr nr 5) (Z.land x (not32 (w32 (Z.shiftl 1 (Z.land nr 31))))).

(** ** Reference: a bitmap as a set of bit positions *)
Definition bm_bit (b : list Z) (i : Z) : bool := Z.testbit (at_ b (i / 32)) (i mod 32).

Definition bm_wf (b : list Z) : Prop := Forall (fits 32) b ∧ 32 * Z.of_nat (length b) < 2 ^ 32.

(** [r] is the 1-based position of the first [i >= lo], [i < size], with [f i];
    [0] when there is none. *)
Definition first_from (f : Z → bool) (lo size r : Z) : Prop :=
  (r = 0 ∧ ∀ i, lo ≤ i < size → f i = false) ∨
  (lo < r ≤ size ∧ f (r - 1) = true ∧ ∀ i, lo ≤ i < r - 1 → f i = false).

(** ** Arithmetic of words and positions *)
Lemma bits_to_longs_ge n : 0 ≤ n → 0 ≤ BITS_TO_LONGS n ∧ n ≤ 32 * BITS_TO_LONGS n ∧
  n / 32 ≤ BITS_TO_LONGS n ∧ (n mod 32 ≠ 0 → n / 32 < BITS_TO_LONGS n).
Proof. intros Hn. unfold BITS_TO_LONGS. split_and!; Z.div_mod_to_equations; lia. Qed.

Lemma word_index i n : 0 ≤ i < n → 0 ≤ i / 32 < BITS_TO_LONGS n ∧ 0 ≤ i mod 32 < 32.
Proof. intros Hi. unfold BITS_TO_LONGS. split; Z.div_mod_to_equations; lia. Qed.

Lemma not32_fits x : fits 32 (not32 x).
Proof. apply wrap_fits. lia. Qed.
#[export] Hint Resolve not32_fits : aim.

Lemma not32_testbit x i : 0 ≤ i < 32 → Z.testbit (not32 x) i = negb (Z.testbit x i).
Proof. intros Hi. unfold not32. rewrite lnot_testbit_wrap by lia. zcases; [done|lia]. Qed.

Lemma last_word_mask n : 0 ≤ n → n mod 32 ≠ 0 → BITMAP_LAST_WORD_MASK n = Z.ones (n mod 32).
Proof.
  intros Hn Hm. unfold BITMAP_LAST_WORD_MASK, BITS_PER_LONG.
  rewrite (proj2 (Z.eqb_neq _ _)) by done. simpl.
  pose proof (Z.mod_pos_bound n 32). rewrite Z.shiftl_1_l, Z.sub_1_r, <- Z.ones_equiv.
  apply wrap_small. rewrite Z.ones_equiv.
  assert (2 ^ (n mod 32) < 2 ^ 32) by (apply Z.pow_lt_mono_r; lia).
  pose proof (Z.pow_pos_nonneg 2 (n mod 32)). unfold fits. lia.
Qed.

(** A word is zero exactly when none of its 32 bits is set. *)
Lemma word_zero x : fits 32 x → (x = 0 ↔ ∀ j, 0 ≤ j < 32 → Z.testbit x j = false).
Proof.
  intros Hx. split; [intros ->; intros; apply Z.bits_0|].
  intros Hb. apply Z.bits_inj_0. intros j. destruct (decide (0 ≤ j < 32)); [auto|].
  destruct (decide (j < 0)); [by apply Z.testbit_neg_r|].
  apply (fits_testbit_high 32); [done|lia].
Qed.

Lemma nonzero_false x : nonzero x = false ↔ x = 0.
Proof. unfold nonzero. rewrite negb_false_iff. apply Z.eqb_eq. Qed.
Lemma nonzero_true x : nonzero x = true ↔ x ≠ 0.
Proof. unfold nonzero. rewrite negb_true_iff. apply Z.eqb_neq. Qed.

(** ** Word-by-word combination *)
Lemma combine_words_spec op dst b1 b2 bits :
  0 ≤ bits → BITS_TO_LONGS bits ≤ Z.of_nat (length dst) →
  BITS_TO_LONGS bits ≤ Z.of_nat (length b1) → BITS_TO_LONGS bits ≤ Z.of_nat (length b2) →
  wp (combine_words op dst b1 b2 bits) (λ '(d, r),
    length d = length dst ∧
    (∀ k, 0 ≤ k → at_ d k = if k <? BITS_TO_LONGS bits then op (at_ b1 k) (at_ b2 k) else at_ dst k) ∧
    (r = 0 ↔ ∀ k, 0 ≤ k < BITS_TO_LONGS bits → op (at_ b1 k) (at_ b2 k) = 0)).
Proof.
  intros Hb Hd H1 H2. pose proof (bits_to_longs_ge bits Hb) as (Hn & _).
  unfold combine_words. set (nr := BITS_TO_LONGS bits) in *.
  apply wp_loop with (I := λ '(k, d, r), 0 ≤ k ≤ nr ∧ length d = length dst ∧
    (∀ j, 0 ≤ j → at_ d j = if j <? k then op (at_ b1 j) (at_ b2 j) else at_ dst j) ∧
    (r = 0 ↔ ∀ j, 0 ≤ j < k → op (at_ b1 j) (at_ b2 j) = 0))
    (m := λ '(k, _, _), Z.to_nat (nr - k)); [| |lia].
  - intros [[k d] r] (Hk & Hl & Hat & Hr). destruct (Z.ltb_spec k nr) as [Hlt|Hge]; simpl.
    + rewrite !rd_ok by lia. simpl. rewrite wr_ok by lia. simpl. split; [|lia].
      rewrite length_insert. split_and!; [lia|lia|done| |].
      * intros j Hj. rewrite at_insert, Hat by lia. zcases; subst; try done; lia.
      * rewrite Z.lor_eq_0_iff, Hr. split.
        -- intros [Hall Hk0] j Hj. destruct (decide (j = k)) as [->|]; [done|]. apply Hall; lia.
        -- intros Hall. split; [|apply Hall; lia]. intros j Hj. apply Hall. lia.
    + replace k with nr in * by lia. done.
  - split_and!; [lia|lia|done| |].
    + intros j Hj. zcases; [lia|done].
    + split; [intros _ j Hj; lia|done].
Qed.

(** The operations on two bitmaps, bit by bit. *)
Lemma combine_bits op bop dst b1 b2 bits :
  (∀ x y i, fits 32 x → fits 32 y → 0 ≤ i < 32 →
     Z.testbit (op x y) i = bop (Z.testbit x i) (Z.testbit y i)) →
  bm_wf b1 → bm_wf b2 → 0 ≤ bits → BITS_TO_LONGS bits ≤ Z.of_nat (length dst) →
  BITS_TO_LONGS bits ≤ Z.of_nat (length b1) → BITS_TO_LONGS bits ≤ Z.of_nat (length b2) →
  wp (combine_words op dst b1 b2 bits) (λ '(d, r),
    length d = length dst ∧
    ∀ i, 0 ≤ i < bits → bm_bit d i = bop (bm_bit b1 i) (bm_bit b2 i)).
Proof.
  intros Hop [H1 _] [H2 _] Hb ???. eapply wp_mono; [by apply combine_words_spec|].
  intros [d r] (Hl & Hat & _). split; [done|]. intros i Hi.
  pose proof (word_index i bits Hi) as [Hw Hm]. unfold bm_bit. rewrite Hat by lia.
  rewrite (proj2 (Z.ltb_lt _ _)) by lia. apply Hop; auto with aim; apply at_fits; (done || lia).
Qed.

Ltac combine_with op :=
  eapply wp_mono; [apply combine_bits with (bop := op); try done|
    intros [d r] [_ Hd]; apply wp_ok; exact Hd].

(** [bitmap_and], [bitmap_or], [bitmap_xor] and [bitmap_andnot] on bitmaps
    of the size [DECLARE_BITMAP] gives them return normally and leave in the
    destination, for each of the [bits] positions, the intersection, union,
    symmetric difference and difference of the sources. *)
Theorem bitmap_combine_correct dst b1 b2 bits :
  0 ≤ bits → bm_wf b1 → bm_wf b2 →
  BITS_TO_LONGS bits ≤ Z.of_nat (length dst) →
  BITS_TO_LONGS bits ≤ Z.of_nat (length b1) → BITS_TO_LONGS bits ≤ Z.of_nat (length b2) →
  wp (bitmap_and dst b1 b2 bits) (λ '(d, _),
    ∀ i, 0 ≤ i < bits → bm_bit d i = bm_bit b1 i && bm_bit b2 i) ∧
  wp (bitmap_or dst b1 b2 bits) (λ d,
    ∀ i, 0 ≤ i < bits → bm_bit d i = bm_bit b1 i || bm_bit b2 i) ∧
  wp (bitmap_xor dst b1 b2 bits) (λ d,
    ∀ i, 0 ≤ i < bits → bm_bit d i = xorb (bm_bit b1 i) (bm_bit b2 i)) ∧
  wp (bitmap_andnot dst b1 b2 bits) (λ '(d, _),
    ∀ i, 0 ≤ i < bits → bm_bit d i = bm_bit b1 i && negb (bm_bit b2 i)).
Proof.
  intros. split_and!; apply wp_bind.
  - combine_with andb. intros x y i _ _ _. apply Z.land_spec.
  - combine_with orb. intros x y i _ _ _. apply Z.lor_spec.
  - combine_with xorb. intros x y i _ _ _. apply Z.lxor_spec.
  - combine_with (λ a b, a && negb b). intros x y i _ _ Hi.
    by rewrite Z.land_spec, not32_testbit.
Qed.

Lemma bitmap_combine_correct_witness :
  let b1 := [5; 0] in let b2 := [4; 1] in
  wp (bitmap_and [0; 0] b1 b2 8) (λ '(d, _), ∀ i, 0 ≤ i < 8 → bm_bit d i = bm_bit b1 i && bm_bit b2 i) ∧
  wp (bitmap_or [0; 0] b1 b2 8) (λ d, ∀ i, 0 ≤ i < 8 → bm_bit d i = bm_bit b1 i || bm_bit b2 i) ∧
  wp (bitmap_xor [0; 0] b1 b2 8) (λ d,
    ∀ i, 0 ≤ i < 8 → bm_bit d i = xorb (bm_bit b1 i) (bm_bit b2 i)) ∧
  wp (bitmap_andnot [0; 0] b1 b2 8) (λ '(d, _),
    ∀ i, 0 ≤ i < 8 → bm_bit d i = bm_bit b1 i && negb (bm_bit b2 i)).
Proof.
  apply (bitmap_combine_correct [0; 0] [5; 0] [4; 1] 8); try done.
  - split; [repeat constructor; discriminate|reflexivity].
  - split; [repeat constructor; discriminate|reflexivity].
Defined.

(** ** Tests *)

(** [word_bit W i] is bit [i] of the bitmap whose word [k] is [W k]. *)
Definition word_bit (W : Z → Z) (i : Z) : bool := Z.testbit (W (i / 32)) (i mod 32).

Lemma word_bit_at W k j : 0 ≤ j < 32 → word_bit W (32 * k + j) = Z.testbit (W k) j.
Proof.
  intros Hj. unfold word_bit. replace ((32 * k + j) / 32) with k by (Z.div_mod_to_equations; lia).
  f_equal. Z.div_mod_to_equations; lia.
Qed.

Lemma scan_words_spec W whole last bits :
  0 ≤ bits → (∀ k, 0 ≤ k → fits 32 (W k)) →
  (∀ k, 0 ≤ k < bits / 32 → whole k = Ok (nonzero (W k))) →
  (bits mod 32 ≠ 0 → last (bits / 32) = Ok (W (bits / 32))) →
  wp (scan_words whole last bits) (λ b,
    b = true ↔ ∃ i, 0 ≤ i < bits ∧ word_bit W i = true).
Proof.
  intros Hb HW Hwhole Hlast. unfold scan_words, BITS_PER_LONG. set (lim := bits / 32) in *.
  assert (0 ≤ lim) by (unfold lim; Z.div_mod_to_equations; lia).
  apply wp_bind. apply wp_loop with (I := λ k, 0 ≤ k ≤ lim ∧ ∀ j, 0 ≤ j < k → W j = 0)
    (m := λ k, Z.to_nat (lim - k)); [|split; [lia|intros; lia]|lia].
  intros k (Hk & Hz). destruct (Z.ltb_spec k lim) as [Hlt|Hge]; simpl.
  - rewrite Hwhole by lia. simpl. destruct (nonzero (W k)) eqn:Hnz; simpl.
    + split; [|done]. intros _. apply nonzero_true in Hnz.
      destruct (lowest_set_exists (W k)) as (p & (Hp & Hbit & _) & Hp32); [auto with lia|done|].
      exists (32 * k + p). rewrite word_bit_at by lia. split; [|done].
      unfold lim in Hlt. Z.div_mod_to_equations; lia.
    + apply nonzero_false in Hnz. split; [|lia]. split; [lia|]. intros j Hj.
      destruct (decide (j = k)) as [->|]; [done|]. apply Hz. lia.
  - assert (k = lim) as -> by lia.
    assert (∀ i, 0 ≤ i → i < 32 * lim → word_bit W i = false) as Hlow.
    { intros i Hi Hlt. unfold word_bit. rewrite Hz by (Z.div_mod_to_equations; lia). apply Z.bits_0. }
    destruct (Z.eqb_spec (bits mod 32) 0) as [Hm|Hm]; simpl.
    + split; [done|]. intros (i & Hi & Hbit). rewrite Hlow in Hbit; [done|lia|].
      unfold lim. Z.div_mod_to_equations; lia.
    + rewrite Hlast by done. simpl. rewrite last_word_mask by done.
      rewrite negb_true_iff, Z.eqb_neq, <- Z.eqb_neq.
      pose proof (Z.mod_pos_bound bits 32).
      assert (bits = 32 * lim + bits mod 32) by (unfold lim; Z.div_mod_to_equations; lia).
      split.
      * intros Hne%Z.eqb_neq.
        destruct (lowest_set_exists (Z.land (W lim) (Z.ones (bits mod 32)))) as (p & (Hp & Hbit & _) & _).
        { apply fits_land; [lia|auto|]. rewrite Z.ones_equiv. pose proof (Z.pow_pos_nonneg 2 (bits mod 32)). lia. }
        { done. }
        rewrite Z.land_spec, ones_testbit in Hbit by lia. apply andb_true_iff in Hbit as [Hbit Hlt%Z.ltb_lt].
        exists (32 * lim + p). rewrite word_bit_at by lia. split; [lia|done].
      * intros (i & Hi & Hbit). apply Z.eqb_neq. intros Hz0.
        assert (32 * lim ≤ i) by (destruct (decide (i < 32 * lim)); [by rewrite Hlow in Hbit by lia|lia]).
        replace i with (32 * lim + (i - 32 * lim)) in Hbit by lia.
        rewrite word_bit_at in Hbit by lia.
        assert (Z.testbit (Z.land (W lim) (Z.ones (bits mod 32))) (i - 32 * lim) = true) as Ht.
        { rewrite Z.land_spec, ones_testbit, Hbit by lia. apply Z.ltb_lt. lia. }
        by rewrite Hz0, Z.bits_0 in Ht.
Qed.

(** The arrays hold at least the words the scan reads. *)
Definition covers (b : list Z) (bits : Z) : Prop :=
  Forall (fits 32) b ∧ bits ≤ 32 * Z.of_nat (length b).

Lemma covers_rd b bits k : covers b bits → 0 ≤ bits →
  0 ≤ k < bits / 32 ∨ (bits mod 32 ≠ 0 ∧ k = bits / 32) → rd b k = Ok (at_ b k).
Proof. intros [_ Hl] Hb Hk. apply rd_ok. Z.div_mod_to_equations; lia. Qed.

Lemma covers_fits b bits k : covers b bits → fits 32 (at_ b k).
Proof. intros [Hf _]. by apply at_fits. Qed.
#[export] Hint Resolve covers_fits : aim.

(** A test of the form [return !scan] or [return scan]. *)
Lemma scan_result W whole last bits (neg : bool) (P : Prop) :
  wp (scan_words whole last bits) (λ b, b = true ↔ ∃ i, 0 ≤ i < bits ∧ word_bit W i = true) →
  (P ↔ if neg then ∀ i, 0 ≤ i < bits → word_bit W i = false
       else ∃ i, 0 ≤ i < bits ∧ word_bit W i = true) →
  wp (r ← scan_words whole last bits; Ok (c_bool (if neg then negb r else r)))
    (λ v, v = 1 ∧ P ∨ v = 0 ∧ ¬ P).
Proof.
  intros Hs HP. apply wp_bind. eapply wp_mono; [done|]. simpl. intros b Hb.
  destruct neg, b; simpl; try (left; split; [done|]); try (right; split; [done|]);
    rewrite HP; try rewrite <- Hb; try done.
  - intros Hall. destruct (proj1 Hb eq_refl) as (i & Hi & Ht). by rewrite Hall in Ht.
  - intros i Hi. destruct (word_bit W i) eqn:E; [|done].
    assert (false = true) by (apply Hb; eauto). done.
Qed.

(** The bitmap predicates decide, over the first [bits] positions, equality,
    fullness, intersection and inclusion; bits of the last word past [bits] do
    not matter. *)
Theorem bitmap_tests_correct b1 b2 bits :
  0 ≤ bits → covers b1 bits → covers b2 bits →
  let all P := ∀ i, 0 ≤ i < bits → P (bm_bit b1 i) (bm_bit b2 i) = true in
  let decides m P := wp m (λ v, v = 1 ∧ P ∨ v = 0 ∧ ¬ P) in
  decides (bitmap_equal b1 b2 bits) (all Bool.eqb) ∧
  decides (bitmap_full b1 bits) (all (λ x _, x)) ∧
  decides (bitmap_intersects b1 b2 bits)
    (∃ i, 0 ≤ i < bits ∧ bm_bit b1 i && bm_bit b2 i = true) ∧
  decides (bitmap_subset b1 b2 bits) (all implb).
Proof.
  intros Hb H1 H2 all decides. unfold decides, all. clear decides all.
  split_and!.
  - apply scan_result with (neg := true) (W := λ k, Z.lxor (at_ b1 k) (at_ b2 k)).
    + apply scan_words_spec; [done| | |].
      * intros k _. apply fits_lxor; eauto with aim lia.
      * intros k Hk. erewrite !covers_rd by eauto. simpl. f_equal. unfold nonzero. f_equal.
        apply Bool.eq_iff_eq_true. rewrite !Z.eqb_eq. symmetry. apply Z.lxor_eq_0_iff.
      * intros Hm. by erewrite !covers_rd by eauto.
    + unfold word_bit, bm_bit. setoid_rewrite Z.lxor_spec.
      split; intros Hall i Hi; specialize (Hall i Hi); revert Hall; by do 2 destruct (Z.testbit _ _).
  - apply scan_result with (neg := true) (W := λ k, not32 (at_ b1 k)).
    + apply scan_words_spec; [done|eauto with aim| |].
      * intros k Hk. by erewrite !covers_rd by eauto.
      * intros Hm. by erewrite !covers_rd by eauto.
    + unfold word_bit, bm_bit. split; intros Hall i Hi; specialize (Hall i Hi);
        rewrite not32_testbit in * by (apply Z.mod_pos_bound; lia); by destruct (Z.testbit _ _).
  - apply scan_result with (neg := false) (W := λ k, Z.land (at_ b1 k) (at_ b2 k)).
    + apply scan_words_spec; [done| | |].
      * intros k _. apply fits_land; [lia|eauto with aim|]. by eapply (covers_fits b2).
      * intros k Hk. by erewrite !covers_rd by eauto.
      * intros Hm. by erewrite !covers_rd by eauto.
    + unfold word_bit, bm_bit. setoid_rewrite Z.land_spec. done.
  - apply scan_result with (neg := true) (W := λ k, Z.land (at_ b1 k) (not32 (at_ b2 k))).
    + apply scan_words_spec; [done| | |].
      * intros k _. apply fits_land; [lia|eauto with aim|]. apply not32_fits.
      * intros k Hk. by erewrite !covers_rd by eauto.
      * intros Hm. by erewrite !covers_rd by eauto.
    + unfold word_bit, bm_bit. split; intros Hall i Hi; specialize (Hall i Hi);
        rewrite Z.land_spec, not32_testbit in * by (apply Z.mod_pos_bound; lia);
        revert Hall; by do 2 destruct (Z.testbit _ _).
Qed.

Lemma bitmap_tests_correct_witness :
  let b1 := [6; 0] in let b2 := [0xfe; 1] in
  let all P := ∀ i, 0 ≤ i < 8 → P (bm_bit b1 i) (bm_bit b2 i) = true in
  let decides m P := wp m (λ v, v = 1 ∧ P ∨ v = 0 ∧ ¬ P) in
  decides (bitmap_equal b1 b2 8) (all Bool.eqb) ∧
  decides (bitmap_full b1 8) (all (λ x _, x)) ∧
  decides (bitmap_intersects b1 b2 8) (∃ i, 0 ≤ i < 8 ∧ bm_bit b1 i && bm_bit b2 i = true) ∧
  decides (bitmap_subset b1 b2 8) (all implb).
Proof.
  apply (bitmap_tests_correct [6; 0] [0xfe; 1] 8); [done|split..].
  all: try (repeat constructor; discriminate).
  all: discriminate.
Defined.

(** ** Setting and clearing *)

(** [upd x mask] gives every bit selected by [mask] the value [v]. *)
Definition sets_bits (upd : Z → Z → Z) (v : bool) : Prop :=
  ∀ x mask, fits 32 x → fits 32 mask → fits 32 (upd x mask) ∧
    ∀ j, 0 ≤ j < 32 → Z.testbit (upd x mask) j = if Z.testbit mask j then v else Z.testbit x j.

Lemma sets_bits_lor : sets_bits Z.lor true.
Proof.
  intros x mask Hx Hm. split; [auto with aim lia|]. intros j Hj. rewrite Z.lor_spec.
  by destruct (Z.testbit x j), (Z.testbit mask j).
Qed.

Lemma sets_bits_clear : sets_bits (λ x mask, Z.land x (not32 mask)) false.
Proof.
  intros x mask Hx Hm. split; [apply fits_land; [lia|done|apply not32_fits]|].
  intros j Hj. rewrite Z.land_spec, not32_testbit by done.
  by destruct (Z.testbit x j), (Z.testbit mask j).
Qed.

(** Writing one word changes the bits of that word only. *)
Lemma bm_bit_insert b p v i : 0 ≤ p < Z.of_nat (length b) → 0 ≤ i →
  bm_bit (<[Z.to_nat p := v]> b) i =
  if i / 32 =? p then Z.testbit v (i mod 32) else bm_bit b i.
Proof.
  intros Hp Hi. unfold bm_bit. rewrite at_insert by (try done; Z.div_mod_to_equations; lia).
  by destruct (i / 32 =? p).
Qed.

(** One step of the loop: the bits [lo <= i < hi] of word [p] become [v]. *)
Lemma update_word upd v map p mask lo hi :
  sets_bits upd v → Forall (fits 32) map → fits 32 mask →
  0 ≤ p < Z.of_nat (length map) → 32 * p ≤ lo → hi ≤ 32 * (p + 1) →
  (∀ j, 0 ≤ j < 32 → Z.testbit mask j = (lo <=? 32 * p + j) && (32 * p + j <? hi)) →
  Forall (fits 32) (<[Z.to_nat p := upd (at_ map p) mask]> map) ∧
  ∀ i, 0 ≤ i → bm_bit (<[Z.to_nat p := upd (at_ map p) mask]> map) i =
    if (lo <=? i) && (i <? hi) then v else bm_bit map i.
Proof.
  intros Hupd Hf Hmf Hp Hlo Hhi Hmask.
  destruct (Hupd (at_ map p) mask) as [Hfits Hbits]; [auto with aim lia|done|].
  split; [by apply Forall_insert|]. intros i Hi. rewrite bm_bit_insert by done.
  pose proof (Z.mod_pos_bound i 32 ltac:(lia)).
  assert (i = 32 * (i / 32) + i mod 32) as Hdm by (apply Z.div_mod; lia).
  destruct (Z.eqb_spec (i / 32) p) as [E|E].
  - rewrite Hbits, Hmask by done. rewrite <- E, <- Hdm. unfold bm_bit. done.
  - destruct (Z.leb_spec lo i), (Z.ltb_spec i hi); simpl; try done. exfalso. apply E.
    Z.div_mod_to_equations; lia.
Qed.

Lemma first_mask_bits s j : 0 ≤ s → 0 ≤ j < 32 →
  Z.testbit (BITMAP_FIRST_WORD_MASK s) j = (s mod 32 <=? j).
Proof.
  intros Hs Hj. unfold BITMAP_FIRST_WORD_MASK, BITS_PER_LONG.
  pose proof (Z.mod_pos_bound s 32). rewrite wrap_testbit, Z.shiftl_spec by lia.
  destruct (Z.leb_spec (s mod 32) j).
  - rewrite lnot_testbit_wrap, Z.bits_0 by lia. zcases; (done || lia).
  - rewrite Z.testbit_neg_r by lia. by rewrite andb_false_r.
Qed.

Lemma update_range_spec upd v map start nr :
  sets_bits upd v → Forall (fits 32) map → 0 ≤ start → 0 ≤ nr →
  start + nr ≤ 32 * Z.of_nat (length map) →
  wp (update_range upd map start nr) (λ map',
    length map' = length map ∧ Forall (fits 32) map' ∧
    ∀ i, 0 ≤ i → bm_bit map' i = if (start <=? i) && (i <? start + nr) then v else bm_bit map i).
Proof.
  intros Hupd Hf Hs Hn Hlen. unfold update_range, BITS_PER_LONG, BIT_WORD.
  set (pos n' := start + nr - n'). apply wp_bind.
  apply wp_loop with (I := λ '(p, n', bts, mask, mp),
    0 ≤ n' ≤ nr ∧ p = pos n' / 32 ∧ bts = 32 - pos n' mod 32 ∧ fits 32 mask ∧
    (∀ j, 0 ≤ j < 32 → Z.testbit mask j = (pos n' mod 32 <=? j)) ∧
    length mp = length map ∧ Forall (fits 32) mp ∧
    ∀ i, 0 ≤ i → bm_bit mp i = if (start <=? i) && (i <? pos n') then v else bm_bit map i)
    (m := λ '(_, n', _, _, _), Z.to_nat n'); [| |lia].
  - intros [[[[p n'] bts] mask] mp] (Hn' & -> & -> & Hmf & Hmask & Hl & Hfm & Hbm).
    pose proof (Z.mod_pos_bound (pos n') 32 ltac:(lia)).
    assert (pos n' = 32 * (pos n' / 32) + pos n' mod 32) as Hpos by (apply Z.div_mod; lia).
    assert (0 ≤ pos n' ∧ start ≤ pos n') as [? ?] by (unfold pos; lia).
    set (q := pos n' / 32) in *. set (r := pos n' mod 32) in *.
    destruct (Z.leb_spec 0 (n' - (32 - r))) as [Hge|Hlt]; simpl.
    + assert (0 ≤ q < Z.of_nat (length mp)) by (unfold pos in *; lia).
      rewrite rd_ok by done. simpl. rewrite wr_ok by done. simpl.
      destruct (update_word upd v mp q mask (pos n') (32 * (q + 1))) as [Hf' Hb']; try done; try lia.
      { intros j Hj. rewrite Hmask by done. rewrite (proj2 (Z.ltb_lt (32 * q + j) _)), andb_true_r by lia.
        zcases; lia || done. }
      assert (pos (n' - (32 - r)) = 32 * (q + 1)) as -> by (unfold pos in *; lia).
      split; [|lia]. rewrite length_insert. split_and!; try done; try lia.
      * Z.div_mod_to_equations; lia.
      * Z.div_mod_to_equations; lia.
      * intros j Hj. replace (32 * (q + 1) mod 32) with 0 by (Z.div_mod_to_equations; lia).
        rewrite (proj2 (Z.leb_le 0 j)) by lia. change (w32 (Z.lnot 0)) with (not32 0).
        by rewrite not32_testbit, Z.bits_0 by done.
      * intros i Hi. rewrite Hb', Hbm by done. zcases; simpl; try done; lia.
    + destruct (Z.eqb_spec n' 0) as [->|Hne].
      { apply wp_ok. split_and!; try done. intros i Hi. rewrite Hbm by done.
        unfold pos. by rewrite Z.sub_0_r. }
      assert (0 ≤ q < Z.of_nat (length mp)) by (unfold pos in *; lia).
      rewrite rd_ok by done. simpl. rewrite wr_ok by done. simpl. rewrite length_insert.
      assert ((start + nr) mod 32 = r + n') as Hsm.
      { symmetry. apply Z.mod_unique with q; unfold pos in *; lia. }
      assert (0 ≤ Z.ones (r + n')) by (rewrite Z.ones_equiv; pose proof (Z.pow_pos_nonneg 2 (r + n')); lia).
      rewrite last_word_mask, Hsm by lia.
      destruct (update_word upd v mp q (Z.land mask (Z.ones (r + n'))) (pos n') (start + nr))
        as [Hf' Hb']; try done; try (unfold pos in *; lia).
      { by apply fits_land. }
      { intros j Hj. rewrite Z.land_spec, ones_testbit, Hmask by lia.
        unfold pos in *. zcases; simpl; (done || lia). }
      split_and!; [done|done|]. intros i Hi. rewrite Hb', Hbm by done.
      unfold pos. zcases; simpl; try done; lia.
  - assert (pos nr = start) as Hp0 by (unfold pos; lia). rewrite Hp0.
    split_and!; try done; try lia.
    + apply wrap_fits. lia.
    + intros j Hj. by apply first_mask_bits.
    + intros i Hi. zcases; simpl; (done || lia).
Qed.

(** [bitmap_set] and [bitmap_clear] on a range inside the bitmap return
    normally, give exactly the bits [start <= i < start + nr] their new value
    and leave all the others, and the size, as they were. *)
Theorem bitmap_range_correct map start nr :
  Forall (fits 32) map → 0 ≤ start → 0 ≤ nr → start + nr ≤ 32 * Z.of_nat (length map) →
  wp (bitmap_set map start nr) (λ map', length map' = length map ∧
    ∀ i, 0 ≤ i → bm_bit map' i = bm_bit map i || ((start <=? i) && (i <? start + nr))) ∧
  wp (bitmap_clear map start nr) (λ map', length map' = length map ∧
    ∀ i, 0 ≤ i → bm_bit map' i = bm_bit map i && negb ((start <=? i) && (i <? start + nr))).
Proof.
  intros Hf Hs Hn Hl. split; (eapply wp_mono; [apply update_range_spec; try done;
    (apply sets_bits_lor || apply sets_bits_clear)|]);
    intros map' (Hl' & _ & Hb); (split; [done|]); intros i Hi; rewrite Hb by done;
    destruct ((start <=? i) && (i <? start + nr)); simpl;
    by rewrite ?orb_true_r, ?orb_false_r, ?andb_true_r, ?andb_false_r.
Qed.

Lemma bitmap_range_correct_witness :
  wp (bitmap_set [0; 0; 0] 30 40) (λ map', length map' = 3%nat ∧
    ∀ i, 0 ≤ i → bm_bit map' i = bm_bit [0; 0; 0] i || ((30 <=? i) && (i <? 30 + 40))) ∧
  wp (bitmap_clear [0; 0; 0] 30 40) (λ map', length map' = 3%nat ∧
    ∀ i, 0 ≤ i → bm_bit map' i = bm_bit [0; 0; 0] i && negb ((30 <=? i) && (i <? 30 + 40))).
Proof. apply (bitmap_range_correct [0; 0; 0] 30 40); try done. repeat constructor; done. Defined.

(** ** Searching *)
Lemma low5_clear x : fits 32 x → Z.land x (w32 (Z.lnot (BITS_PER_LONG - 1))) = 32 * (x / 32).
Proof. intros Hx. exact (ALIGN_BELOW_pow2 32 5 ltac:(lia) x Hx). Qed.

Lemma more_words_spec size : fits 32 size → more_words size = (32 <=? size).
Proof.
  intros Hs. unfold more_words, nonzero. rewrite low5_clear by done.
  destruct (Z.leb_spec 32 size).
  - rewrite (proj2 (Z.eqb_neq _ _)); [done|]. Z.div_mod_to_equations; lia.
  - rewrite (proj2 (Z.eqb_eq _ _)); [done|]. unfold fits in Hs. Z.div_mod_to_equations; lia.
Qed.

Lemma all_ones_shiftr s : 0 ≤ s ≤ 32 → Z.shiftr (w32 (Z.lnot 0)) (32 - s) = Z.ones s.
Proof.
  intros Hs. bitwise. zcases; simpl; (done || lia).
Qed.

Lemma first_from_skip f lo mid n r : lo ≤ mid →
  (∀ i, lo ≤ i < mid → f i = false) → first_from f mid n r → first_from f lo n r.
Proof.
  intros Hle Hz [[-> Hall]|(Hr & Ht & Hall)]; [left; split; [done|]|right; split_and!; [lia|lia|done|]];
    intros i Hi; destruct (decide (i < mid)); auto with lia.
Qed.

Lemma first_from_extend f lo mid n r : mid ≤ n → r ≠ 0 → first_from f lo mid r → first_from f lo n r.
Proof. intros Hle Hr [[-> _]|(? & ? & ?)]; [done|]. right. split_and!; auto with lia. Qed.

(** The search inside one word. *)
Lemma found_word f p tmp lo hi : fits 32 tmp → 0 ≤ p → 32 * (p + 1) < 2 ^ 32 →
  32 * p ≤ lo → hi ≤ 32 * (p + 1) →
  (∀ j, 0 ≤ j < 32 → Z.testbit tmp j = (lo <=? 32 * p + j) && (32 * p + j <? hi) && f (32 * p + j)) →
  (tmp = 0 → ∀ i, lo ≤ i < hi → f i = false) ∧
  (tmp ≠ 0 → first_from f lo hi (w32 (32 * p + ffs tmp)) ∧ w32 (32 * p + ffs tmp) ≠ 0).
Proof.
  intros Hf Hp Hmax Hlo Hhi Hbits. split.
  - intros -> i Hi. specialize (Hbits (i - 32 * p) ltac:(lia)).
    replace (32 * p + (i - 32 * p)) with i in Hbits by lia.
    rewrite Z.bits_0, (proj2 (Z.leb_le _ _)), (proj2 (Z.ltb_lt _ _)) in Hbits by lia. done.
  - intros Hne. destruct (lowest_set_exists tmp Hf Hne) as (q & Hl & Hq).
    rewrite (ffs_lowest tmp q) by done. destruct Hl as (Hq0 & Hq1 & Hql).
    rewrite wrap_small by (unfold fits; lia). split; [|lia]. right.
    rewrite Hbits in Hq1 by lia. apply andb_true_iff in Hq1 as [Hr Ht].
    apply andb_true_iff in Hr as [?%Z.leb_le ?%Z.ltb_lt].
    replace (32 * p + (q + 1) - 1) with (32 * p + q) by lia. split_and!; [lia|lia|done|].
    intros i Hi. specialize (Hql (i - 32 * p) ltac:(lia)).
    rewrite Hbits in Hql by lia. replace (32 * p + (i - 32 * p)) with i in Hql by lia.
    by rewrite (proj2 (Z.leb_le _ _)), (proj2 (Z.ltb_lt _ _)) in Hql by lia.
Qed.

Lemma bm_bit_at b p j : 0 ≤ j < 32 → bm_bit b (32 * p + j) = Z.testbit (at_ b p) j.
Proof. apply (word_bit_at (at_ b)). Qed.

Section search.
Context (addr : list Z) (N : Z).
Context (Hf : Forall (fits 32) addr) (HN : N ≤ 32 * Z.of_nat (length addr)).
Context (Hmax : 32 * Z.of_nat (length addr) < 2 ^ 32).

Lemma found_first_spec p lo tmp : 0 ≤ p → 32 * p ≤ lo → 0 < N - 32 * p < 32 → fits 32 tmp →
  (∀ j, 0 ≤ j < 32 → Z.testbit tmp j = (lo <=? 32 * p + j) && bm_bit addr (32 * p + j)) →
  wp (found_first (32 * p) (N - 32 * p) tmp) (first_from (bm_bit addr) lo N).
Proof.
  intros Hp Hlo Hs Ht Hb. unfold found_first, BITS_PER_LONG. rewrite all_ones_shiftr by lia.
  assert (0 ≤ Z.ones (N - 32 * p)).
  { rewrite Z.ones_equiv. pose proof (Z.pow_pos_nonneg 2 (N - 32 * p)). lia. }
  destruct (found_word (bm_bit addr) p (Z.land tmp (Z.ones (N - 32 * p))) lo N) as [H0 H1];
    try done; try lia.
  { by apply fits_land. }
  { intros j Hj. rewrite Z.land_spec, ones_testbit, Hb by lia.
    destruct (bm_bit addr _); zcases; simpl; (done || lia). }
  destruct (Z.eqb_spec (Z.land tmp (Z.ones (N - 32 * p))) 0) as [E|E].
  - apply wp_ok. left. auto.
  - apply wp_ok. by apply H1.
Qed.

Lemma words_from_spec p : 0 ≤ p → 32 * p ≤ N →
  wp (words_from addr p (32 * p) (N - 32 * p)) (first_from (bm_bit addr) (32 * p) N).
Proof.
  intros Hp Hpn. unfold words_from. apply wp_bind.
  apply wp_loop with (I := λ '(q, result, size), p ≤ q ∧ result = 32 * q ∧ size = N - 32 * q ∧
    0 ≤ size ∧ ∀ i, 32 * p ≤ i < 32 * q → bm_bit addr i = false)
    (m := λ '(_, _, size), Z.to_nat size); [| |lia].
  - intros [[q result] size] (Hq & -> & -> & Hs & Hz). unfold BITS_PER_LONG.
    rewrite more_words_spec by (unfold fits; lia).
    destruct (Z.leb_spec 32 (N - 32 * q)) as [Hge|Hlt]; simpl.
    + rewrite rd_ok by lia. simpl.
      assert (fits 32 (at_ addr q)) by auto with aim lia.
      destruct (found_word (bm_bit addr) q (at_ addr q) (32 * q) (32 * (q + 1))) as [H0 H1];
        try done; try lia.
      { intros j Hj. rewrite bm_bit_at by done. zcases; simpl; (done || lia). }
      destruct (nonzero (at_ addr q)) eqn:Hnz; simpl.
      * apply nonzero_true in Hnz. destruct (H1 Hnz) as [Hff Hne].
        apply first_from_skip with (32 * q); [lia|done|].
        apply first_from_extend with (32 * (q + 1)); [lia|done|done].
      * apply nonzero_false in Hnz. rewrite !wrap_small by (unfold fits; lia).
        split; [|lia]. split_and!; try lia. intros i Hi.
        destruct (decide (i < 32 * q)); [apply Hz; lia|]. apply H0; [done|lia].
    + destruct (Z.eqb_spec (N - 32 * q) 0) as [E|E].
      { apply wp_ok. left. split; [done|]. intros i Hi. apply Hz. lia. }
      rewrite rd_ok by lia. simpl. eapply wp_mono; [apply (found_first_spec q (32 * q))|]; try lia.
      * auto with aim lia.
      * intros j Hj. rewrite bm_bit_at by done. by rewrite (proj2 (Z.leb_le _ _)) by lia.
      * intros r Hr. apply first_from_skip with (32 * q); [lia|done|done].
  - split_and!; intros; lia.
Qed.

Lemma find_next_spec offset : 0 < offset → offset - 1 < N →
  wp (bitmap_find_next_bit addr N offset) (first_from (bm_bit addr) (offset - 1) N).
Proof.
  intros Ho Hlt. unfold bitmap_find_next_bit, BIT_WORD.
  rewrite (proj2 (Z.eqb_neq _ _)), (wrap_small 32 (offset - 1)) by (unfold fits; lia).
  rewrite low5_clear, (proj2 (Z.leb_gt _ _)) by (unfold fits; lia). unfold BITS_PER_LONG.
  set (lo := offset - 1) in *. set (q := lo / 32). pose proof (Z.mod_pos_bound lo 32 ltac:(lia)).
  assert (lo = 32 * q + lo mod 32) as Hlo by (apply Z.div_mod; lia).
  rewrite (wrap_small 32 (N - _)) by (unfold fits; lia).
  destruct (nonzero (lo mod 32)) eqn:Hnz.
  - rewrite rd_ok by lia. simpl.
    set (tmp := Z.land _ _). assert (fits 32 tmp) as Htf.
    { apply fits_land; [lia|auto with aim lia|]. apply (wrap_fits 32). lia. }
    assert (∀ j, 0 ≤ j < 32 → Z.testbit tmp j = (lo <=? 32 * q + j) && bm_bit addr (32 * q + j)) as Hb.
    { intros j Hj. unfold tmp. rewrite Z.land_spec. pose proof (first_mask_bits lo j) as Hm.
      unfold BITMAP_FIRST_WORD_MASK, BITS_PER_LONG in Hm. rewrite Hm, bm_bit_at by lia.
      rewrite andb_comm. f_equal. zcases; (done || lia). }
    destruct (Z.ltb_spec (N - 32 * q) 32) as [Hsm|Hbig].
    { apply found_first_spec; try done; lia. }
    destruct (found_word (bm_bit addr) q tmp lo (32 * (q + 1))) as [H0 H1]; try done; try lia.
    { intros j Hj. rewrite Hb by done. rewrite (proj2 (Z.ltb_lt (32 * q + j) _)), andb_true_r by lia. done. }
    destruct (nonzero tmp) eqn:Ht.
    + apply nonzero_true in Ht. apply wp_ok. destruct (H1 Ht). apply first_from_extend with (32 * (q + 1)); [lia|done|done].
    + apply nonzero_false in Ht. rewrite !wrap_small by (unfold fits; lia).
      replace (32 * q + 32) with (32 * (q + 1)) by lia.
      replace (N - 32 * q - 32) with (N - 32 * (q + 1)) by lia.
      eapply wp_mono; [apply words_from_spec; lia|]. intros r Hr.
      apply first_from_skip with (32 * (q + 1)); [lia|auto|done].
  - apply nonzero_false in Hnz. replace lo with (32 * q) by lia. apply words_from_spec; lia.
Qed.
End search.

(** *** The zero searches are the searches in the complement *)
Lemma loop_map {St R R'} (g : R → R') (body : St → res (St + R)) (body' : St → res (St + R')) fuel s :
  (∀ s, body' s = r ← body s; Ok match r with inl s' => inl s' | inr v => inr (g v) end) →
  loop fuel body' s = v ← loop fuel body s; Ok (g v).
Proof.
  intros Hb. revert s. induction fuel as [|fuel IH]; intros s; [done|]. simpl. rewrite Hb.
  destruct (body s) as [[s'|v]|e]; simpl; [apply IH|done|done].
Qed.

Lemma rd_map (f : Z → Z) a k : rd (map f a) k = x ← rd a k; Ok (f x).
Proof.
  unfold rd. destruct (0 <=? k); [|done].
  change (map f a) with (f <$> a). rewrite list_lookup_fmap. by destruct (a !! Z.to_nat k).
Qed.

Lemma not32_involutive x : fits 32 x → not32 (not32 x) = x.
Proof.
  intros Hx. unfold not32. bitwise. zcases; simpl.
  - by rewrite negb_involutive.
  - symmetry. by apply (fits_testbit_high 32).
Qed.

Lemma rd_fits b k x : Forall (fits 32) b → rd b k = Ok x → fits 32 x.
Proof.
  intros Hf. unfold rd. destruct (0 <=? k); [|done].
  destruct (b !! Z.to_nat k) eqn:E; simpl; [|done]. intros [= <-]. by eapply Forall_lookup_1.
Qed.

Lemma found_first_zero_eq result size x : 0 ≤ size ≤ 32 → fits 32 x →
  found_first_zero result size x = found_first result size (not32 x).
Proof.
  intros Hs Hx. unfold found_first_zero, found_first, BITS_PER_LONG.
  rewrite all_ones_shiftr by done.
  assert (Z.land (not32 x) (Z.ones size) = not32 (Z.lor x (w32 (Z.shiftl (w32 (Z.lnot 0)) size)))) as ->.
  { unfold not32. bitwise. destruct (decide (i < size)).
    - rewrite (Z.testbit_neg_r _ (i - size)) by lia. zcases; simpl; try lia;
      by rewrite ?orb_false_r, ?andb_true_r.
    - autorewrite with bits. zcases; simpl; try lia; by rewrite ?orb_true_r, ?andb_false_r. }
  set (y := Z.lor x _). assert (fits 32 y) as Hy.
  { apply fits_lor; [lia|done|apply wrap_fits; lia]. }
  assert ((y =? w32 (Z.lnot 0)) = (not32 y =? 0)) as ->.
  { apply Bool.eq_iff_eq_true. rewrite !Z.eqb_eq. change (w32 (Z.lnot 0)) with (not32 0).
    split; [intros ->; done|]. intros E. rewrite <- (not32_involutive y), E by done. done. }
  unfold found_middle. rewrite ffz_ffs by done. done.
Qed.

Lemma words_from_zero_eq addr p result size : Forall (fits 32) addr → fits 32 size →
  words_from_zero addr p result size = words_from (map not32 addr) p result size.
Proof.
  intros Hf Hs. unfold words_from_zero, words_from. symmetry.
  rewrite loop_map with (body := λ '(p, result, size),
      if more_words size then
        tmp ← rd addr p;
        if nonzero (not32 tmp) then Ok (inr (inr (result, tmp)))
        else Ok (inl (p + 1, w32 (result + BITS_PER_LONG), w32 (size - BITS_PER_LONG)))
      else Ok (inr (inl (p, result, size))))
    (g := λ v : Z * Z * Z + Z * Z, match v with inl s => inl s | inr (r, t) => inr (r, not32 t) end).
  2:{ intros [[q r] s]. destruct (more_words s); [|done]. rewrite rd_map.
      destruct (rd addr q) as [t|]; simpl; [|done]. by destruct (nonzero (not32 t)). }
  match goal with |- context [loop ?f ?b ?s] =>
    assert (∀ v, loop f b s = Ok v → match v with
      | inr (_, t) => fits 32 t | inl (_, _, s') => fits 32 s' ∧ s' < 32 end) as Hres;
      [|destruct (loop f b s) as [[[[q r] s']|[r t]]|e] eqn:E] end.
  - intros v. generalize (S (Z.to_nat size)). intros fuel. revert p result size Hs.
    induction fuel as [|fuel IH]; intros p result size Hs Hv; [done|]. simpl in Hv.
    rewrite more_words_spec in Hv by done. destruct (Z.leb_spec 32 size).
    + destruct (rd addr p) as [t|] eqn:Er; simpl in Hv; [|done].
      destruct (nonzero (not32 t)); simpl in Hv.
      * injection Hv as <-. by eapply rd_fits.
      * eapply IH; [|done]. apply wrap_fits. lia.
    + injection Hv as <-. simpl. done.
  - destruct (Hres _ eq_refl) as [Hs' Hlt]. simpl. destruct (s' =? 0); [done|].
    rewrite rd_map. destruct (rd addr q) as [x|] eqn:Er; simpl; [|done].
    rewrite found_first_zero_eq; [done| |by eapply rd_fits]. unfold fits in Hs'. lia.
  - simpl. specialize (Hres _ eq_refl). unfold found_middle. by rewrite ffz_ffs by done.
  - done.
Qed.

Lemma find_next_zero_eq addr size offset : Forall (fits 32) addr → fits 32 size → fits 32 offset →
  bitmap_find_next_zero_bit addr size offset = bitmap_find_next_bit (map not32 addr) size offset.
Proof.
  intros Hf Hs Ho. unfold bitmap_find_next_zero_bit, bitmap_find_next_bit.
  destruct (Z.eqb_spec offset 0); [done|]. unfold BITS_PER_LONG, BIT_WORD.
  set (o := w32 (offset - 1)). assert (fits 32 o) by (apply wrap_fits; lia).
  destruct (size <=? o); [done|].
  destruct (nonzero (o mod 32)) eqn:Hnz.
  2:{ apply words_from_zero_eq; [done|apply wrap_fits; lia]. }
  rewrite rd_map. destruct (rd addr (o / BITS_PER_LONG)) as [x|] eqn:Er; simpl; [|done].
  assert (fits 32 x) as Hx by by eapply rd_fits.
  pose proof (Z.mod_pos_bound o 32 ltac:(lia)).
  rewrite all_ones_shiftr by lia. set (r := o mod 32) in *.
  assert (Z.land (not32 x) (w32 (Z.shiftl (w32 (Z.lnot 0)) r)) = not32 (Z.lor x (Z.ones r))) as ->.
  { unfold not32. bitwise. destruct (decide (i < r)).
    - rewrite (Z.testbit_neg_r _ (i - r)) by lia. zcases; simpl; try lia;
      by rewrite ?orb_true_r, ?andb_false_r.
    - autorewrite with bits. zcases; simpl; try lia; by rewrite ?orb_false_r, ?andb_true_r. }
  set (y := Z.lor x _). assert (fits 32 y) as Hy.
  { apply fits_lor; [lia|done|]. unfold fits. rewrite Z.ones_equiv.
    assert (2 ^ r < 2 ^ 32) by (apply Z.pow_lt_mono_r; lia).
    pose proof (Z.pow_pos_nonneg 2 r). lia. }
  set (s := w32 (size - _)). assert (fits 32 s) by (apply wrap_fits; lia).
  destruct (Z.ltb_spec s 32).
  - apply found_first_zero_eq; [unfold fits in *; lia|done].
  - destruct (nonzero (not32 y)).
    + unfold found_middle. by rewrite ffz_ffs.
    + apply words_from_zero_eq; [done|apply wrap_fits; lia].
Qed.

Lemma first_from_ext f g lo n r : 0 ≤ lo → (∀ i, 0 ≤ i < n → f i = g i) →
  first_from f lo n r → first_from g lo n r.
Proof.
  intros Hlo Hfg [[-> Hall]|(Hr & Ht & Hall)].
  - left. split; [done|]. intros i Hi. rewrite <- Hfg by lia. auto.
  - right. rewrite <- Hfg by lia. split_and!; [lia|lia|done|].
    intros i Hi. rewrite <- Hfg by lia. auto.
Qed.

Lemma bm_bit_not32 b i : 0 ≤ i < 32 * Z.of_nat (length b) →
  bm_bit (map not32 b) i = negb (bm_bit b i).
Proof.
  intros Hi. unfold bm_bit. rewrite <- not32_testbit by (apply Z.mod_pos_bound; lia). f_equal.
  assert (0 ≤ i / 32 < Z.of_nat (length b)) by (Z.div_mod_to_equations; lia).
  unfold at_. rewrite (proj2 (Z.leb_le _ _)) by lia. change (map not32 b) with (not32 <$> b).
  rewrite list_lookup_fmap. destruct (lookup_lt_is_Some_2 b (Z.to_nat (i / 32))) as [x ->]; [lia|done].
Qed.

Lemma map_not32_fits b : Forall (fits 32) (map not32 b).
Proof. apply Forall_forall. intros x Hx%list_elem_of_In%in_map_iff. destruct Hx as (y & <- & _). apply not32_fits. Qed.

Lemma find_first_zero_ok addr size : bm_wf addr → 0 ≤ size ≤ 32 * Z.of_nat (length addr) →
  wp (bitmap_find_first_zero_bit addr size) (first_from (λ i, negb (bm_bit addr i)) 0 size).
Proof.
  intros [Hf Hmax] Hs. assert (bitmap_find_first_zero_bit addr size = words_from (map not32 addr) 0 0 size) as ->.
  { rewrite <- words_from_zero_eq by (done || unfold fits; lia). done. }
  pose proof (words_from_spec (map not32 addr) size) as H. rewrite length_map in H.
  specialize (H (map_not32_fits addr) ltac:(lia) Hmax 0 ltac:(lia) ltac:(lia)).
  rewrite Z.sub_0_r in H. eapply wp_mono; [exact H|]. intros r.
  apply first_from_ext; [lia|]. intros i Hi. apply bm_bit_not32. lia.
Qed.

(** [bitmap_find_first_bit] and [bitmap_find_first_zero_bit] return the
    1-based position of the first set, respectively clear, bit among the
    [size] bits of the bitmap, and 0 when there is none. *)
Theorem bitmap_find_first_correct addr size :
  bm_wf addr → 0 ≤ size ≤ 32 * Z.of_nat (length addr) →
  wp (bitmap_find_first_bit addr size) (first_from (bm_bit addr) 0 size) ∧
  wp (bitmap_find_first_zero_bit addr size) (first_from (λ i, negb (bm_bit addr i)) 0 size).
Proof.
  intros [Hf Hmax] Hs. split; [|by apply find_first_zero_ok].
  pose proof (words_from_spec addr size Hf ltac:(lia) Hmax 0 ltac:(lia) ltac:(lia)) as H.
  by rewrite Z.sub_0_r in H.
Qed.

Lemma bitmap_find_first_correct_witness :
  (wp (bitmap_find_first_bit [0; 0x30] 40) (first_from (bm_bit [0; 0x30]) 0 40) ∧
   wp (bitmap_find_first_zero_bit [0; 0x30] 40) (first_from (λ i, negb (bm_bit [0; 0x30] i)) 0 40)) ∧
  bitmap_find_first_bit [0; 0x30] 40 = Ok 37.
Proof.
  split; [|reflexivity]. apply (bitmap_find_first_correct [0; 0x30] 40); [|done].
  split; [repeat constructor; done|done].
Defined.

(** [bitmap_find_next_bit] and [bitmap_find_next_zero_bit] return the first
    1-based position at or after [offset] whose bit is set, respectively
    clear, and 0 when there is none; [offset = 0] and offsets past the end
    give 0. *)
Theorem bitmap_find_next_correct addr size offset :
  bm_wf addr → 0 ≤ size ≤ 32 * Z.of_nat (length addr) → fits 32 offset →
  let spec f r := if (offset =? 0) || (size <? offset) then r = 0 else first_from f (offset - 1) size r in
  wp (bitmap_find_next_bit addr size offset) (spec (bm_bit addr)) ∧
  wp (bitmap_find_next_zero_bit addr size offset) (spec (λ i, negb (bm_bit addr i))).
Proof.
  intros [Hf Hmax] Hs Ho spec. rewrite find_next_zero_eq by (done || unfold fits; lia).
  unfold spec. destruct (Z.eqb_spec offset 0) as [->|Hne]; [done|]. simpl.
  destruct (Z.ltb_spec size offset).
  - unfold bitmap_find_next_bit. rewrite (proj2 (Z.eqb_neq _ _)) by done.
    rewrite wrap_small by (unfold fits in *; lia). rewrite (proj2 (Z.leb_le _ _)) by lia. done.
  - split; [apply find_next_spec; unfold fits in *; try done; lia|].
    eapply wp_mono; [apply find_next_spec; rewrite ?length_map; unfold fits in *;
      try apply map_not32_fits; try done; lia|]. intros r.
    apply first_from_ext; [unfold fits in *; lia|]. intros i Hi. apply bm_bit_not32. lia.
Qed.

Lemma bitmap_find_next_correct_witness :
  let spec f r := if (38 =? 0) || (40 <? 38) then r = 0 else first_from f (38 - 1) 40 r in
  (wp (bitmap_find_next_bit [0; 0x30] 40 38) (spec (bm_bit [0; 0x30])) ∧
   wp (bitmap_find_next_zero_bit [0; 0x30] 40 38) (spec (λ i, negb (bm_bit [0; 0x30] i)))) ∧
  bitmap_find_next_zero_bit [0; 0x30] 40 38 = Ok 39.
Proof.
  split; [|reflexivity]. apply (bitmap_find_next_correct [0; 0x30] 40 38); [|done|done].
  split; [repeat constructor; done|done].
Defined.

(** ** Weight *)
Fixpoint bm_count (b : list Z) (n : nat) : Z :=
  match n with O => 0 | S n => bm_count b n + Z.b2z (bm_bit b (Z.of_nat n)) end.

Lemma popcount_snoc n x : popcount (S n) x = popcount n x + Z.b2z (Z.testbit x (Z.of_nat n)).
Proof.
  replace (S n) with (n + 1)%nat by lia. rewrite popcount_split. cbn [popcount].
  rewrite <- Z.bit0_odd, Z.shiftr_spec, Z.add_0_l by lia. lia.
Qed.

Lemma bm_count_word b k n : (n ≤ 32)%nat →
  bm_count b (32 * k + n) = bm_count b (32 * k) + popcount n (at_ b (Z.of_nat k)).
Proof.
  induction n as [|n IH]; intros Hn; [rewrite Nat.add_0_r; simpl; lia|].
  rewrite popcount_snoc. replace (32 * k + S n)%nat with (S (32 * k + n)) by lia.
  cbn [bm_count]. rewrite IH by lia. replace (Z.of_nat (32 * k + n)) with (32 * Z.of_nat k + Z.of_nat n) by lia.
  rewrite bm_bit_at by lia. lia.
Qed.

Lemma popcount_masked n x : 0 ≤ n ≤ 32 → fits 32 x →
  hweight32 (Z.land x (Z.ones n)) = popcount (Z.to_nat n) x.
Proof.
  intros Hn Hx. rewrite Z.land_ones by lia. change (x mod 2 ^ n) with (wrap n x).
  assert (fits n (wrap n x)) as Hw by (apply wrap_fits; lia).
  assert (2 ^ n ≤ 2 ^ 32) by (apply Z.pow_le_mono_r; lia).
  rewrite hweight32_popcount by (unfold fits in *; lia).
  replace 32%nat with (Z.to_nat n + (32 - Z.to_nat n))%nat by lia.
  rewrite popcount_split. replace (wrap n x ≫ Z.of_nat (Z.to_nat n)) with 0.
  - replace (wrap n x) with (wrap (Z.of_nat (Z.to_nat n)) x) by (f_equal; lia).
    rewrite popcount_wrap. assert (∀ k, popcount k 0 = 0) as ->; [|lia].
    intros k. induction k as [|k IH]; [done|]. simpl. lia.
  - rewrite Z2Nat.id, Z.shiftr_div_pow2 by lia. symmetry. by apply Z.div_small.
Qed.

(** [bitmap_weight] counts the set bits among the first [bits] ones. *)
Theorem bitmap_weight_correct b bits : 0 ≤ bits → covers b bits →
  bitmap_weight b bits = Ok (bm_count b (Z.to_nat bits)).
Proof.
  intros Hb Hc. apply wp_eq. unfold bitmap_weight, BITS_PER_LONG. set (lim := bits / 32).
  assert (0 ≤ lim) by (unfold lim; Z.div_mod_to_equations; lia).
  assert (bits = 32 * lim + bits mod 32) as Hbd by (apply Z.div_mod; lia).
  pose proof (Z.mod_pos_bound bits 32 ltac:(lia)). apply wp_bind.
  apply wp_loop with (I := λ '(k, w), 0 ≤ k ≤ lim ∧ w = bm_count b (32 * Z.to_nat k))
    (m := λ '(k, _), Z.to_nat (lim - k)); [|split; [lia|done]|lia].
  intros [k w] [Hk ->]. destruct (Z.ltb_spec k lim).
  - rewrite (covers_rd b bits) by (done || (left; split; [lia|done])). cbn [mbind res_bind wp]. split; [|lia]. split; [lia|].
    rewrite hweight32_popcount by eauto with aim.
    replace (32 * Z.to_nat (k + 1))%nat with (32 * Z.to_nat k + 32)%nat by lia.
    rewrite bm_count_word by lia. rewrite Z2Nat.id by lia. done.
  - replace k with lim by lia. cbn [wp mbind res_bind]. destruct (Z.eqb_spec (bits mod 32) 0) as [E|E].
    + apply wp_ok. f_equal. lia.
    + rewrite (covers_rd b bits) by (done || by right). cbn [mbind res_bind wp]. rewrite last_word_mask by done.
      rewrite popcount_masked by (lia || eauto with aim).
      replace (Z.to_nat bits) with (32 * Z.to_nat lim + Z.to_nat (bits mod 32))%nat by lia.
      rewrite bm_count_word by lia. by rewrite Z2Nat.id by lia.
Qed.

Lemma bitmap_weight_correct_witness :
  bitmap_weight [0xff; 0xf0] 38 = Ok (bm_count [0xff; 0xf0] (Z.to_nat 38)) ∧
  bm_count [0xff; 0xf0] (Z.to_nat 38) = 10.
Proof.
  split; [|reflexivity]. apply bitmap_weight_correct; [done|].
  split; [repeat constructor; done|done].
Defined.

(** ** Single bits *)
Lemma shiftr5 x : Z.shiftr x 5 = x / 32.
Proof. by rewrite Z.shiftr_div_pow2 by lia. Qed.

Lemma land31 x : Z.land x 31 = x mod 32.
Proof. change 31 with (Z.ones 5). by rewrite Z.land_ones by lia. Qed.

Lemma one_bit_mask j : 0 ≤ j < 32 →
  fits 32 (w32 (Z.shiftl 1 j)) ∧
  ∀ i, 0 ≤ i < 32 → Z.testbit (w32 (Z.shiftl 1 j)) i = (i =? j).
Proof.
  intros Hj. split; [apply wrap_fits; lia|]. intros i Hi.
  rewrite Z.shiftl_1_l, wrap_testbit, Z.pow2_bits_eqb by lia. zcases; (done || lia).
Qed.

Section one_bit.
Context (addr : list Z) (nr : Z).
Context (Hf : Forall (fits 32) addr) (Hmax : 32 * Z.of_nat (length addr) < 2 ^ 32).
Context (Hnr : 1 ≤ nr ≤ 32 * Z.of_nat (length addr)).

Lemma atomic_update_spec upd v : sets_bits upd v →
  wp (let n := w32 (nr - 1) in
      x ← rd addr (Z.shiftr n 5); wr addr (Z.shiftr n 5) (upd x (w32 (Z.shiftl 1 (Z.land n 31)))))
    (λ a, length a = length addr ∧ Forall (fits 32) a ∧
      ∀ i, 0 ≤ i → bm_bit a i = if i =? nr - 1 then v else bm_bit addr i).
Proof.
  intros Hupd. cbv zeta. rewrite (wrap_small 32 (nr - 1)) by (unfold fits; lia).
  rewrite shiftr5, land31. pose proof (Z.mod_pos_bound (nr - 1) 32 ltac:(lia)).
  assert (nr - 1 = 32 * ((nr - 1) / 32) + (nr - 1) mod 32) as Hd by (apply Z.div_mod; lia).
  set (p := (nr - 1) / 32) in *. set (j := (nr - 1) mod 32) in *.
  rewrite rd_ok by lia. cbn [mbind res_bind]. rewrite wr_ok by lia. apply wp_ok.
  destruct (one_bit_mask j) as [Hm1 Hm2]; [lia|]. rewrite length_insert.
  destruct (update_word upd v addr p (w32 (Z.shiftl 1 j)) (nr - 1) nr) as [Hf' Hb]; try done; try lia.
  { intros i Hi. rewrite Hm2 by done. zcases; simpl; (done || lia). }
  split_and!; [done|done|]. intros i Hi. rewrite Hb by done. zcases; simpl; (done || lia).
Qed.
End one_bit.

Lemma atomic_set_bit_ok addr nr : bm_wf addr → 1 ≤ nr ≤ 32 * Z.of_nat (length addr) →
  wp (atomic_set_bit nr addr) (λ a, length a = length addr ∧ Forall (fits 32) a ∧
    ∀ i, 0 ≤ i → bm_bit a i = (i =? nr - 1) || bm_bit addr i).
Proof.
  intros [Hf Hmax] Hnr. eapply wp_mono; [apply (atomic_update_spec addr nr) with (upd := Z.lor) (v := true);
    try done; try lia; apply sets_bits_lor|].
  intros a (Hl & Hf' & Hb). split_and!; [done|done|]. intros i Hi. rewrite Hb by done. by destruct (i =? nr - 1).
Qed.

Lemma atomic_clear_bit_ok addr nr : bm_wf addr → 1 ≤ nr ≤ 32 * Z.of_nat (length addr) →
  wp (atomic_clear_bit nr addr) (λ a, length a = length addr ∧ Forall (fits 32) a ∧
    ∀ i, 0 ≤ i → bm_bit a i = negb (i =? nr - 1) && bm_bit addr i).
Proof.
  intros [Hf Hmax] Hnr. eapply wp_mono; [apply (atomic_update_spec addr nr) with
    (upd := λ x mask, Z.land x (not32 mask)) (v := false); try done; try lia; apply sets_bits_clear|].
  intros a (Hl & Hf' & Hb). split_and!; [done|done|]. intros i Hi. rewrite Hb by done. by destruct (i =? nr - 1).
Qed.

(** Bit number 0, the "no bit" answer of the searches, is in a word far outside
    the bitmap. *)
Lemma atomic_bit_zero addr : 32 * Z.of_nat (length addr) ≤ 2 ^ 31 →
  atomic_set_bit 0 addr = Err BadPtr ∧ atomic_clear_bit 0 addr = Err BadPtr.
Proof.
  intros Hsmall. assert (rd addr (Z.shiftr (w32 (0 - 1)) 5) = Err BadPtr) as E.
  { unfold rd. change (Z.shiftr (w32 (0 - 1)) 5) with 134217727.
    rewrite (proj2 (Z.leb_le _ _)), lookup_ge_None_2 by lia. done. }
  unfold atomic_set_bit, atomic_clear_bit. by rewrite E.
Qed.

(** [atomic_set_bit] and [atomic_clear_bit] change exactly the bit with the
    1-based number [nr]; with [nr = 0], the "no bit" answer of the searches,
    they reach a word far outside the bitmap. *)
Theorem atomic_bit_correct addr nr :
  bm_wf addr → 0 ≤ nr ≤ 32 * Z.of_nat (length addr) → 32 * Z.of_nat (length addr) ≤ 2 ^ 31 →
  if nr =? 0 then atomic_set_bit nr addr = Err BadPtr ∧ atomic_clear_bit nr addr = Err BadPtr
  else
    wp (atomic_set_bit nr addr) (λ a, length a = length addr ∧
      ∀ i, 0 ≤ i → bm_bit a i = (i =? nr - 1) || bm_bit addr i) ∧
    wp (atomic_clear_bit nr addr) (λ a, length a = length addr ∧
      ∀ i, 0 ≤ i → bm_bit a i = negb (i =? nr - 1) && bm_bit addr i).
Proof.
  intros Hwf Hnr Hsmall. destruct (Z.eqb_spec nr 0) as [->|Hne]; [by apply atomic_bit_zero|]. split.
  - eapply wp_mono; [apply atomic_set_bit_ok; [done|lia]|]. by intros a (Hl & _ & Hb).
  - eapply wp_mono; [apply atomic_clear_bit_ok; [done|lia]|]. by intros a (Hl & _ & Hb).
Qed.

Lemma atomic_bit_correct_witness :
  (if 33 =? 0 then atomic_set_bit 33 [0; 0] = Err BadPtr ∧ atomic_clear_bit 33 [0; 0] = Err BadPtr
   else
    wp (atomic_set_bit 33 [0; 0]) (λ a, length a = 2%nat ∧
      ∀ i, 0 ≤ i → bm_bit a i = (i =? 33 - 1) || bm_bit [0; 0] i) ∧
    wp (atomic_clear_bit 33 [0; 0]) (λ a, length a = 2%nat ∧
      ∀ i, 0 ≤ i → bm_bit a i = negb (i =? 33 - 1) && bm_bit [0; 0] i)) ∧
  atomic_set_bit 33 [0; 0] = Ok [0; 1].
Proof.
  split; [|reflexivity]. apply (atomic_bit_correct [0; 0] 33); try done.
  split; [repeat constructor; done|done].
Defined.

(** [bitmap_test_bit] takes a 1-based number but selects the word with
    [nr / 32]: it answers for bit [nr - 1] unless [nr] is a multiple of 32, and
    then for the last bit of the following word. *)
Theorem bitmap_test_bit_word nr addr :
  Forall (fits 32) addr → 0 < nr → nr + 31 < 32 * Z.of_nat (length addr) →
  bitmap_test_bit nr addr =
  Ok (Z.b2z (bm_bit addr (if nr mod 32 =? 0 then nr + 31 else nr - 1))).
Proof.
  intros Hf Hn Hl. unfold bitmap_test_bit, BIT_WORD, BITS_PER_LONG.
  rewrite (proj2 (Z.ltb_lt _ _)) by lia. cbn [assert_ mbind res_bind].
  rewrite rd_ok by (Z.div_mod_to_equations; lia). cbn [mbind res_bind].
  rewrite land31. f_equal. pose proof (Z.mod_pos_bound (nr - 1) 32 ltac:(lia)).
  rewrite Z.land_comm. change 1 with (Z.ones 1) at 2. rewrite Z.land_ones by lia.
  change (2 ^ 1) with 2. rewrite <- Z.bit0_mod, Z.shiftr_spec, Z.add_0_l by lia.
  unfold bm_bit. destruct (Z.eqb_spec (nr mod 32) 0); do 2 f_equal.
  - f_equal. Z.div_mod_to_equations; lia.
  - Z.div_mod_to_equations; lia.
  - f_equal. Z.div_mod_to_equations; lia.
Qed.

Lemma bitmap_test_bit_word_witness :
  bitmap_test_bit 32 [0x80000000; 0] =
    Ok (Z.b2z (bm_bit [0x80000000; 0] (if 32 mod 32 =? 0 then 32 + 31 else 32 - 1))) ∧
  bm_bit [0x80000000; 0] (32 - 1) = true ∧ bitmap_test_bit 32 [0x80000000; 0] = Ok 0.
Proof.
  split; [|split; reflexivity]. apply bitmap_test_bit_word; [|done|done].
  repeat constructor; done.
Defined.

(** ** Complement *)
Lemma bitmap_complement_spec dst src bits : 0 ≤ bits → covers src bits →
  bits ≤ 32 * Z.of_nat (length dst) →
  wp (bitmap_complement dst src bits) (λ d, length d = length dst ∧
    ∀ i, 0 ≤ i < bits → bm_bit d i = negb (bm_bit src i)).
Proof.
  intros Hb Hc Hl. unfold bitmap_complement, BITS_PER_LONG. set (lim := bits / 32).
  assert (bits = 32 * lim + bits mod 32) as Hbd by (apply Z.div_mod; lia).
  pose proof (Z.mod_pos_bound bits 32 ltac:(lia)). apply wp_bind.
  apply wp_loop with (I := λ '(k, d), 0 ≤ k ≤ lim ∧ length d = length dst ∧
    ∀ i, 0 ≤ i < 32 * k → bm_bit d i = negb (bm_bit src i))
    (m := λ '(k, _), Z.to_nat (lim - k)); [|split_and!; intros; lia || done|lia].
  intros [k d] (Hk & Hd & Hbits).
  assert (∀ v hi, 32 * k < hi ≤ 32 * (k + 1) → k < Z.of_nat (length d) →
    (∀ j, 0 ≤ j → 32 * k + j < hi → Z.testbit v j = negb (Z.testbit (at_ src k) j)) →
    ∀ i, 0 ≤ i < hi → bm_bit (<[Z.to_nat k:=v]> d) i = negb (bm_bit src i)) as Hstep.
  { intros v hi Hhi Hkd Hv i Hi. rewrite bm_bit_insert by lia.
    destruct (Z.eqb_spec (i / 32) k) as [E|E].
    - assert (i = 32 * k + i mod 32) as Him by (rewrite <- E; apply Z.div_mod; lia).
      rewrite Hv by (Z.div_mod_to_equations; lia). unfold bm_bit. by rewrite E.
    - apply Hbits. Z.div_mod_to_equations; lia. }
  destruct (Z.ltb_spec k lim); cbn [mbind res_bind wp].
  - rewrite (covers_rd src bits) by (done || (left; split; [lia|done])). cbn [mbind res_bind].
    rewrite wr_ok by lia. cbn [mbind res_bind wp]. rewrite length_insert.
    split; [|lia]. split_and!; [lia|lia|done|]. apply Hstep; [lia|lia|].
    intros j Hj Hj2. apply not32_testbit. lia.
  - replace k with lim in * by lia. destruct (Z.eqb_spec (bits mod 32) 0) as [E|E].
    { apply wp_ok. split; [done|]. intros i Hi. apply Hbits. lia. }
    rewrite (covers_rd src bits) by (done || by right). cbn [mbind res_bind].
    rewrite wr_ok by lia. apply wp_ok. rewrite length_insert. split; [done|].
    apply Hstep; [lia|lia|]. intros j Hj Hj2. rewrite last_word_mask, Z.land_spec, ones_testbit by (done || lia).
    rewrite not32_testbit by lia. rewrite (proj2 (Z.ltb_lt _ _)), andb_true_r by lia. done.
Qed.
