(* ===== verification/DList.v ===== *)
(** * Doubly linked lists

    include/list.h.  The heap of [struct list_head] objects is a finite map from
    addresses to the two pointers; an access to an address that holds no object
    is a [BadPtr].  The operations are the pointer assignments of the source, in
    their order.  [dlist L h l] is the abstraction: from the sentry [h] the
    [next] pointers visit the nodes [l] and come back to [h], and the [prev]
    pointers visit them in the opposite order.  [chain] is the part of it that
    lists with two different end nodes (kern/mm/pmm/palloc.c) share. *)
From S2P Require Import Prelude Util.

Record link := Link { nx : Z; pv : Z }.
Abbreviation links := (gmap Z link).

#[global] Instance link_eq_dec : EqDecision link.
Proof. solve_decision. Defined.

(** ** Pointer accesses *)
Definition get_next (L : links) (p : Z) : res Z := of_option BadPtr (nx <$> L !! p).
Definition get_prev (L : links) (p : Z) : res Z := of_option BadPtr (pv <$> L !! p).
Definition set_next (p v : Z) (L : links) : res links :=
  match L !! p with Some k => Ok (<[p := Link v (pv k)]> L) | None => Err BadPtr end.
Definition set_prev (p v : Z) (L : links) : res links :=
  match L !! p with Some k => Ok (<[p := Link (nx k) v]> L) | None => Err BadPtr end.

(** ** The operations of include/list.h *)
Definition INIT_LIST_HEAD (list : Z) (L : links) : res links :=
  L ← set_next list list L; set_prev list list L.

Definition list_add_between (new prev next : Z) (L : links) : res links :=
  L ← set_prev next new L; L ← set_next new next L;
  L ← set_prev new prev L; set_next prev new L.

Definition list_add (new head : Z) (L : links) : res links :=
  n ← get_next L head; list_add_between new head n L.
Definition list_add_tail (new head : Z) (L : links) : res links :=
  p ← get_prev L head; list_add_between new p head L.
Definition list_add_after (new head : Z) (L : links) : res links := list_add new head L.
Definition list_add_before (new head : Z) (L : links) : res links := list_add_tail new head L.

Definition list_del_between (prev next : Z) (L : links) : res links :=
  L ← set_prev next prev L; set_next prev next L.
Definition list_del (entry : Z) (L : links) : res links :=
  p ← get_prev L entry; n ← get_next L entry; list_del_between p n L.
Definition list_del_init (entry : Z) (L : links) : res links :=
  p ← get_prev L entry; n ← get_next L entry;
  L ← list_del_between p n L; INIT_LIST_HEAD entry L.

Definition list_is_first (list head : Z) (L : links) : res bool :=
  p ← get_prev L list; Ok (p =? head).
Definition list_is_last (list head : Z) (L : links) : res bool :=
  n ← get_next L list; Ok (n =? head).
Definition list_empty (head : Z) (L : links) : res bool :=
  n ← get_next L head; Ok (n =? head).
Definition list_is_singular (head : Z) (L : links) : res bool :=
  e ← list_empty head L;
  if (e : bool) then Ok false
  else n ← get_next L head; p ← get_prev L head; Ok (n =? p).

(** [for (pos = start; pos != stop; pos = step(pos)) if (P(pos)) break;]
    delivers the final [pos]; [fuel] bounds the tests of [pos != stop].
    [for_each] and [for_each_reverse] are its instances for [next] and [prev]; their
    fuel is the number of nodes in memory, and the walk over a well-formed list is
    shown to need no more than its own nodes and the sentry. *)
Definition walk_n (fuel : nat) (step : links → Z → res Z) (L : links) (P : Z → res bool) (stop start : Z) : res Z :=
  loop fuel (λ pos,
    if pos =? stop then Ok (inr pos)
    else b ← P pos; if (b : bool) then Ok (inr pos) else n ← step L pos; Ok (inl n)) start.
Definition walk (step : links → Z → res Z) (L : links) (P : Z → res bool) (stop start : Z) : res Z :=
  walk_n (S (size L)) step L P stop start.

Definition for_each_n (fuel : nat) (L : links) (head : Z) (P : Z → res bool) : res Z :=
  n ← get_next L head; walk_n fuel get_next L P head n.
Definition for_each_reverse_n (fuel : nat) (L : links) (head : Z) (P : Z → res bool) : res Z :=
  n ← get_prev L head; walk_n fuel get_prev L P head n.
Definition for_each (L : links) (head : Z) (P : Z → res bool) : res Z := for_each_n (S (size L)) L head P.
Definition for_each_reverse (L : links) (head : Z) (P : Z → res bool) : res Z := for_each_reverse_n (S (size L)) L head P.

(** ** Abstraction *)
Fixpoint chain (L : links) (xs : list Z) : Prop :=
  match xs with
  | x :: (y :: _) as t => get_next L x = Ok y ∧ get_prev L y = Ok x ∧ chain L t
  | _ => True
  end.

Definition dlist (L : links) (h : Z) (l : list Z) : Prop :=
  chain L (h :: l ++ [h]) ∧ NoDup (h :: l).

(** ** Accesses and updates *)
Lemma get_next_ok L p y : get_next L p = Ok y ↔ ∃ k, L !! p = Some k ∧ nx k = y.
Proof. unfold get_next. destruct (L !! p); simpl; split; [intros [= <-]; eauto|intros (? & [= <-] & <-); done|done|intros (? & ? & _); done]. Qed.
Lemma get_prev_ok L p y : get_prev L p = Ok y ↔ ∃ k, L !! p = Some k ∧ pv k = y.
Proof. unfold get_prev. destruct (L !! p); simpl; split; [intros [= <-]; eauto|intros (? & [= <-] & <-); done|done|intros (? & ? & _); done]. Qed.

Lemma set_next_ok L p v : p ∈ dom L → ∃ L', set_next p v L = Ok L' ∧ dom L' = dom L ∧
  (∀ q, get_next L' q = if decide (q = p) then Ok v else get_next L q) ∧
  (∀ q, get_prev L' q = get_prev L q) ∧ (∀ q, q ≠ p → L' !! q = L !! q).
Proof.
  intros [k Hk]%elem_of_dom. unfold set_next. rewrite Hk. eexists; split; [done|].
  split_and!.
  - rewrite dom_insert_L. assert (p ∈ dom L) by by eapply elem_of_dom_2. set_solver.
  - intros q. unfold get_next. rewrite lookup_insert. repeat case_decide; by subst.
  - intros q. unfold get_prev. rewrite lookup_insert. case_decide; subst; [by rewrite Hk|done].
  - intros q Hq. by rewrite lookup_insert_ne.
Qed.

Lemma set_prev_ok L p v : p ∈ dom L → ∃ L', set_prev p v L = Ok L' ∧ dom L' = dom L ∧
  (∀ q, get_prev L' q = if decide (q = p) then Ok v else get_prev L q) ∧
  (∀ q, get_next L' q = get_next L q) ∧ (∀ q, q ≠ p → L' !! q = L !! q).
Proof.
  intros [k Hk]%elem_of_dom. unfold set_prev. rewrite Hk. eexists; split; [done|].
  split_and!.
  - rewrite dom_insert_L. assert (p ∈ dom L) by by eapply elem_of_dom_2. set_solver.
  - intros q. unfold get_prev. rewrite lookup_insert. repeat case_decide; by subst.
  - intros q. unfold get_next. rewrite lookup_insert. case_decide; subst; [by rewrite Hk|done].
  - intros q Hq. by rewrite lookup_insert_ne.
Qed.

(** ** Chains *)
Lemma chain_split L xs x ys : chain L (xs ++ x :: ys) ↔ chain L (xs ++ [x]) ∧ chain L (x :: ys).
Proof.
  induction xs as [|a xs IH]; simpl; [tauto|].
  destruct xs as [|b xs]; simpl in *; tauto.
Qed.

Lemma chain_pair L xs x y ys : chain L (xs ++ x :: y :: ys) ↔
  chain L (xs ++ [x]) ∧ get_next L x = Ok y ∧ get_prev L y = Ok x ∧ chain L (y :: ys).
Proof. rewrite chain_split. simpl. tauto. Qed.

(** A chain only depends on the [next] of all but its last node and on the
    [prev] of all but its first node. *)
Lemma chain_ext L L' xs :
  (∀ x, x ∈ removelast xs → get_next L' x = get_next L x) →
  (∀ x, x ∈ tail xs → get_prev L' x = get_prev L x) →
  chain L xs → chain L' xs.
Proof.
  induction xs as [|x xs IH]; [done|]. destruct xs as [|y xs]; [done|].
  intros Hn Hp (H1 & H2 & H3). split_and!.
  - rewrite Hn; [done|]. simpl. left.
  - rewrite Hp; [done|]. simpl. left.
  - apply IH; [| |done].
    + intros z Hz. apply Hn. simpl. by right.
    + intros z Hz. apply Hp. simpl. by right.
Qed.

Lemma chain_dom L xs : (1 < length xs)%nat → chain L xs → ∀ x, x ∈ xs → x ∈ dom L.
Proof.
  revert L. induction xs as [|a xs IH]; intros L Hl Hc x Hx; [simpl in Hl; lia|].
  destruct xs as [|b xs]; [simpl in Hl; lia|]. destruct Hc as (H1 & H2 & H3).
  apply get_next_ok in H1 as (k1 & H1 & _). apply get_prev_ok in H2 as (k2 & H2 & _).
  apply elem_of_cons in Hx as [->|Hx]; [by eapply elem_of_dom_2|].
  destruct xs as [|c xs].
  - apply list_elem_of_singleton in Hx as ->. by eapply elem_of_dom_2.
  - apply (IH L); [simpl; lia|done|done].
Qed.

Lemma removelast_snoc {A} (xs : list A) x : removelast (xs ++ [x]) = xs.
Proof. apply removelast_last. Qed.

Lemma elem_of_removelast {A} (xs : list A) x : x ∈ removelast xs → x ∈ xs.
Proof.
  destruct xs as [|y xs] using rev_ind; [done|]. rewrite removelast_snoc. set_solver.
Qed.

(** Nodes that a chain passes through once in each direction. *)
Definition simple (xs : list Z) : Prop := NoDup (removelast xs) ∧ NoDup (tail xs).

Lemma dlist_simple L h l : dlist L h l → simple (h :: l ++ [h]).
Proof.
  intros [_ Hnd]. split.
  - change (h :: l ++ [h]) with ((h :: l) ++ [h]). by rewrite removelast_snoc.
  - simpl. rewrite <- Permutation_cons_append. done.
Qed.

Lemma simple_parts xs p n ys : simple (xs ++ p :: n :: ys) →
  p ∉ removelast (n :: ys) ∧ n ∉ tail (xs ++ [p]) ∧
  p ∉ removelast (xs ++ [p]) ∧ n ∉ tail (n :: ys).
Proof.
  intros [Hr Ht]. replace (xs ++ p :: n :: ys) with ((xs ++ [p]) ++ n :: ys) in *
    by by rewrite <- app_assoc.
  rewrite removelast_app in Hr by done. rewrite removelast_snoc.
  assert (tail ((xs ++ [p]) ++ n :: ys) = tail (xs ++ [p]) ++ n :: ys) as E by by destruct xs.
  rewrite E in Ht. apply NoDup_app in Ht as (_ & Ht1 & Ht2). apply NoDup_app in Hr as (Hr1 & Hr2 & _).
  apply NoDup_app in Hr1 as (_ & Hr3 & _). split_and!.
  - apply Hr2. set_solver.
  - intros Hin. eapply Ht1; [done|]. left.
  - intros Hin. apply (Hr3 p Hin). left.
  - simpl. by apply NoDup_cons in Ht2 as [? _].
Qed.

(** Insertion between two neighbours and removal of a node, as facts about any
    heap [L'] whose pointers differ from those of [L] in the required way: the
    sources perform the assignments in different orders. *)
Lemma chain_inserted L L' xs p n ys new :
  chain L (xs ++ p :: n :: ys) → simple (xs ++ p :: n :: ys) → new ∉ xs ++ p :: n :: ys →
  (∀ q, get_next L' q = if decide (q = p) then Ok new else if decide (q = new) then Ok n else get_next L q) →
  (∀ q, get_prev L' q = if decide (q = new) then Ok p else if decide (q = n) then Ok new else get_prev L q) →
  chain L' (xs ++ p :: new :: n :: ys).
Proof.
  intros Hc Hs Hf Hnx Hpv. pose proof (simple_parts _ _ _ _ Hs) as (Hp1 & Hn1 & Hp2 & Hn2).
  apply chain_pair in Hc as (Hc1 & _ & _ & Hc2).
  assert (new ≠ p ∧ new ≠ n) as [Hnp Hnn] by set_solver.
  apply chain_pair. refine (conj _ (conj _ (conj _ _))).
  - eapply chain_ext; [| |exact Hc1].
    + intros x Hx. rewrite Hnx. rewrite removelast_snoc in Hx, Hp2.
      by rewrite !decide_False by set_solver.
    + intros x Hx. rewrite Hpv. assert (x ∈ xs ++ [p]) by (destruct xs; set_solver).
      by rewrite !decide_False by set_solver.
  - by rewrite Hnx, decide_True.
  - by rewrite Hpv, decide_True.
  - refine (conj _ (conj _ _)).
    + by rewrite Hnx, decide_False, decide_True.
    + by rewrite Hpv, decide_False, decide_True.
    + change (chain L' (n :: ys)). eapply chain_ext; [| |exact Hc2].
      * intros x Hx. rewrite Hnx. assert (x ∈ n :: ys) by by apply elem_of_removelast.
        by rewrite !decide_False by set_solver.
      * intros x Hx. rewrite Hpv. simpl in *. by rewrite !decide_False by set_solver.
Qed.

Lemma chain_removed L L' xs p e n ys :
  chain L (xs ++ p :: e :: n :: ys) → simple (xs ++ p :: e :: n :: ys) →
  (∀ q, q ≠ e → get_next L' q = if decide (q = p) then Ok n else get_next L q) →
  (∀ q, q ≠ e → get_prev L' q = if decide (q = n) then Ok p else get_prev L q) →
  p ≠ e → n ≠ e → e ∉ xs → e ∉ ys →
  chain L' (xs ++ p :: n :: ys).
Proof.
  intros Hc Hs Hnx Hpv Hpe Hne Hex Hey.
  destruct (simple_parts xs p e (n :: ys) Hs) as (Hp1 & _ & Hp2 & _).
  assert (simple ((xs ++ [p]) ++ e :: n :: ys)) as Hs' by by rewrite <- app_assoc.
  destruct (simple_parts (xs ++ [p]) e n ys Hs') as (_ & Hn1 & _ & Hn2).
  assert (p ∉ removelast (n :: ys)) as Hp by (simpl in *; set_solver).
  assert (n ∉ tail (xs ++ [p])) as Hn by (destruct xs; simpl in *; set_solver).
  apply chain_pair in Hc as (Hc1 & _ & _ & (_ & _ & Hc2)).
  apply chain_pair. refine (conj _ (conj _ (conj _ _))).
  - eapply chain_ext; [| |exact Hc1].
    + intros x Hx. rewrite removelast_snoc in Hx, Hp2.
      rewrite Hnx, decide_False by set_solver. done.
    + intros x Hx. assert (x ∈ xs ++ [p]) by (destruct xs; set_solver).
      rewrite Hpv, decide_False by set_solver. done.
  - by rewrite Hnx, decide_True by congruence.
  - by rewrite Hpv, decide_True by congruence.
  - eapply chain_ext; [| |exact Hc2].
    + intros x Hx. assert (x ∈ n :: ys) by by apply elem_of_removelast.
      rewrite Hnx, decide_False by set_solver. done.
    + intros x Hx. simpl in *. rewrite Hpv, decide_False by set_solver. done.
Qed.

Lemma list_add_between_chain L xs p n ys new :
  chain L (xs ++ p :: n :: ys) → simple (xs ++ p :: n :: ys) →
  new ∈ dom L → new ∉ xs ++ p :: n :: ys →
  ∃ L', list_add_between new p n L = Ok L' ∧ dom L' = dom L ∧
    chain L' (xs ++ p :: new :: n :: ys) ∧
    (∀ q, q ≠ new → q ≠ p → q ≠ n → L' !! q = L !! q).
Proof.
  intros Hc Hs Hnew Hfresh.
  assert (∀ x, x ∈ xs ++ p :: n :: ys → x ∈ dom L) as Hdom.
  { apply chain_dom; [rewrite length_app; simpl; lia|done]. }
  unfold list_add_between.
  destruct (set_prev_ok L n new) as (L1 & -> & Hd1 & Hp_1 & Hn_1 & Hq1); [set_solver|].
  destruct (set_next_ok L1 new n) as (L2 & HL2 & Hd2 & Hn_2 & Hp_2 & Hq2); [by rewrite Hd1|].
  destruct (set_prev_ok L2 new p) as (L3 & HL3 & Hd3 & Hp_3 & Hn_3 & Hq3); [by rewrite Hd2, Hd1|].
  destruct (set_next_ok L3 p new) as (L4 & HL4 & Hd4 & Hn_4 & Hp_4 & Hq4);
    [rewrite Hd3, Hd2, Hd1; set_solver|].
  cbn [mbind res_bind]. rewrite HL2. cbn [mbind res_bind]. rewrite HL3. cbn [mbind res_bind].
  exists L4. split_and!; [done|congruence| |].
  - eapply chain_inserted; try done.
    + intros q. rewrite Hn_4, Hn_3, Hn_2, Hn_1. done.
    + intros q. rewrite Hp_4, Hp_3, Hp_2, Hp_1. done.
  - intros q ???. by rewrite Hq4, Hq3, Hq2, Hq1.
Qed.

Lemma list_del_between_chain L xs p e n ys :
  chain L (xs ++ p :: e :: n :: ys) → simple (xs ++ p :: e :: n :: ys) →
  e ∉ xs ++ p :: n :: ys →
  ∃ L', list_del_between p n L = Ok L' ∧ dom L' = dom L ∧
    chain L' (xs ++ p :: n :: ys) ∧ (∀ q, q ≠ p → q ≠ n → L' !! q = L !! q).
Proof.
  intros Hc Hs He.
  assert (∀ x, x ∈ xs ++ p :: e :: n :: ys → x ∈ dom L) as Hdom.
  { apply chain_dom; [rewrite length_app; simpl; lia|done]. }
  unfold list_del_between.
  destruct (set_prev_ok L n p) as (L1 & -> & Hd1 & Hp_1 & Hn_1 & Hq1); [set_solver|].
  destruct (set_next_ok L1 p n) as (L2 & HL2 & Hd2 & Hn_2 & Hp_2 & Hq2); [rewrite Hd1; set_solver|].
  cbn [mbind res_bind]. exists L2. split_and!; [done|congruence| |].
  - assert (p ≠ e ∧ n ≠ e ∧ e ∉ xs ∧ e ∉ ys) as (? & ? & ? & ?).
    { clear -He. rewrite elem_of_app, !elem_of_cons in He. naive_solver. }
    eapply chain_removed; try eassumption; intros q _.
    + by rewrite Hn_2, Hn_1.
    + by rewrite Hp_2, Hp_1.
  - intros q ??. by rewrite Hq2, Hq1.
Qed.

(** ** Walking *)

(** The nodes before the one where the walk stops. *)
Definition stops_at (P : Z → bool) (l : list Z) (stop : Z) : Z :=
  match list_find (λ x, P x = true) l with Some (_, x) => x | None => stop end.

Lemma stops_at_cons P x l stop : stops_at P (x :: l) stop = if P x then x else stops_at P l stop.
Proof.
  unfold stops_at. simpl. destruct (P x) eqn:E; [by rewrite decide_True|].
  rewrite decide_False by congruence. by destruct (list_find _ l) as [[? ?]|].
Qed.

Lemma NoDup_dom_length (L : links) (l : list Z) : NoDup l → (∀ x, x ∈ l → x ∈ dom L) → (length l ≤ size L)%nat.
Proof.
  intros Hnd Hsub. rewrite <- size_dom, <- (size_list_to_set (C := gset Z) l) by done.
  apply subseteq_size. intros x Hx. apply Hsub. by apply elem_of_list_to_set in Hx.
Qed.

(** How many nodes the walk passes before it stops. *)
Definition passed (P : Z → bool) (l : list Z) : nat :=
  match list_find (λ x, P x = true) l with Some (i, _) => i | None => length l end.
Lemma passed_cons P x l : passed P (x :: l) = if P x then 0%nat else S (passed P l).
Proof.
  unfold passed. simpl. destruct (P x) eqn:E; [by rewrite decide_True|].
  rewrite decide_False by congruence. by destruct (list_find _ l) as [[? ?]|].
Qed.
Lemma passed_le P l : (passed P l ≤ length l)%nat.
Proof. induction l as [|x l IH]; [done|]. rewrite passed_cons. case_match; simpl; lia. Qed.

(** A walk along any step function that follows the nodes of [l]: one test of the
    condition for every node it passes and one where it stops, no fewer and no
    more. *)
Lemma walk_path (step : links → Z → res Z) L P Pb l stop start fuel :
  stop ∉ l → (∀ x, x ∈ l → P x = Ok (Pb x)) → start = hd stop l →
  (∀ i x, l !! i = Some x → step L x = Ok (default stop (l !! S i))) →
  walk_n fuel step L P stop start = if decide (passed Pb l < fuel)%nat then Ok (stops_at Pb l stop) else Err OutOfFuel.
Proof.
  unfold walk_n. revert start fuel. induction l as [|x l IH]; intros start fuel Hstop HP -> Hstep; (destruct fuel as [|fuel]; [done|]).
  - simpl. by rewrite Z.eqb_refl.
  - rewrite stops_at_cons, passed_cons. simpl. rewrite (proj2 (Z.eqb_neq _ _)) by set_solver. rewrite HP by left. simpl.
    destruct (Pb x); [done|]. rewrite (Hstep 0%nat x) by done. simpl. rewrite IH.
    + repeat case_decide; try done; lia.
    + set_solver.
    + intros y Hy. apply HP. by right.
    + by destruct l.
    + intros i y Hy. by apply (Hstep (S i)).
Qed.

Lemma chain_next L xs stop : chain L (xs ++ [stop]) →
  ∀ i x, xs !! i = Some x → get_next L x = Ok (default stop (xs !! S i)).
Proof.
  induction xs as [|a xs IH]; intros Hc i x Hi; [done|].
  destruct xs as [|b xs]; simpl in Hc; destruct Hc as (H1 & _ & H3); destruct i as [|i];
    simpl in Hi; simplify_eq; try done. by apply (IH H3).
Qed.

Lemma chain_prev L h xs : chain L (h :: xs) →
  ∀ i x, reverse xs !! i = Some x → get_prev L x = Ok (default h (reverse xs !! S i)).
Proof.
  induction xs as [|b xs IH] using rev_ind; intros Hc i x Hi; [done|].
  rewrite reverse_app in Hi |- *. simpl in Hi |- *.
  assert (chain L (h :: xs) ∧ get_prev L b = Ok (default h (last xs))) as [Hc1 Hb].
  { destruct xs as [|c xs] using rev_ind; [simpl in *; tauto|]. clear IHxs.
    rewrite last_snoc. simpl. replace (h :: (xs ++ [c]) ++ [b]) with ((h :: xs) ++ c :: b :: []) in Hc
      by by rewrite <- app_assoc.
    apply chain_pair in Hc as (? & ? & ? & ?). done. }
  destruct i as [|i]; simpl in Hi; simplify_eq.
  - rewrite Hb. f_equal. destruct xs as [|c xs] using rev_ind; [done|].
    by rewrite last_snoc, reverse_snoc.
  - by apply IH.
Qed.

Lemma walk_chain_n fuel L P Pb l stop :
  chain L (l ++ [stop]) → stop ∉ l → (∀ x, x ∈ l → P x = Ok (Pb x)) →
  walk_n fuel get_next L P stop (hd stop l) = if decide (passed Pb l < fuel)%nat then Ok (stops_at Pb l stop) else Err OutOfFuel.
Proof. intros Hc Hs HP. apply walk_path; [done|done|done|by apply chain_next]. Qed.

Lemma walk_chain_back_n fuel L P Pb l stop :
  chain L (stop :: l) → stop ∉ l → (∀ x, x ∈ l → P x = Ok (Pb x)) →
  walk_n fuel get_prev L P stop (hd stop (reverse l)) =
    if decide (passed Pb (reverse l) < fuel)%nat then Ok (stops_at Pb (reverse l) stop) else Err OutOfFuel.
Proof.
  intros Hc Hs HP. apply walk_path; [by rewrite elem_of_reverse| |done|by apply chain_prev].
  intros x Hx. apply HP. by apply elem_of_reverse.
Qed.

Lemma walk_chain L P Pb l stop :
  chain L (l ++ [stop]) → NoDup l → stop ∉ l → (∀ x, x ∈ l → P x = Ok (Pb x)) →
  walk get_next L P stop (hd stop l) = Ok (stops_at Pb l stop).
Proof.
  intros Hc Hnd Hs HP. unfold walk. rewrite (walk_chain_n _ _ _ Pb) by done. rewrite decide_True; [done|].
  pose proof (passed_le Pb l). apply Nat.lt_succ_r. etrans; [done|]. destruct l as [|x l]; [simpl; lia|].
  apply NoDup_dom_length; [done|]. intros y Hy.
  apply (chain_dom L ((x :: l) ++ [stop])); [rewrite length_app; simpl; lia|done|set_solver].
Qed.

Lemma walk_chain_back L P Pb l stop :
  chain L (stop :: l) → NoDup l → stop ∉ l → (∀ x, x ∈ l → P x = Ok (Pb x)) →
  walk get_prev L P stop (hd stop (reverse l)) = Ok (stops_at Pb (reverse l) stop).
Proof.
  intros Hc Hnd Hs HP. unfold walk. rewrite (walk_chain_back_n _ _ _ Pb) by done. rewrite decide_True; [done|].
  pose proof (passed_le Pb (reverse l)). apply Nat.lt_succ_r. etrans; [done|]. rewrite length_reverse.
  destruct l as [|x l]; [simpl; lia|]. apply NoDup_dom_length; [done|]. intros y Hy.
  apply (chain_dom L (stop :: x :: l)); [simpl; lia|done|set_solver].
Qed.

(** A walk over nodes that carry data: it stops at the first one whose data
    satisfies the test. *)
Lemma walk_tagged_gen {B} L (t : Z) (l : list (Z * B)) (test : Z → res bool) (T : B → bool) :
  chain L (l.*1 ++ [t]) → NoDup l.*1 → t ∉ l.*1 →
  (∀ n b, (n, b) ∈ l → test n = Ok (T b)) →
  ∃ l1 l2, l = l1 ++ l2 ∧ Forall (λ nb, T nb.2 = false) l1 ∧
     (∀ nb l', l2 = nb :: l' → T nb.2 = true) ∧
     walk get_next L test t (hd t l.*1) = Ok (hd t l2.*1).
Proof.
  intros Hc Hnd Hd HT.
  set (Pb := λ n, match list_find (λ nb, nb.1 = n) l with Some (_, nb) => T nb.2 | None => false end).
  assert (∀ n b, (n, b) ∈ l → Pb n = T b) as HPb.
  { intros n b Hin. unfold Pb. destruct (list_find _ l) as [[i nb]|] eqn:E.
    - apply list_find_Some in E as (Hl & Hn & _). apply list_elem_of_lookup in Hin as [j Hj].
      assert (i = j) as ->.
      { eapply (NoDup_lookup l.*1); [done| |]; rewrite list_lookup_fmap; [by rewrite Hl|].
        rewrite Hj. simpl. by rewrite Hn. }
      rewrite Hl in Hj. by injection Hj as ->.
    - by apply (list_find_None _ _) in E; rewrite Forall_forall in E; apply E in Hin. }
  assert (walk get_next L test t (hd t l.*1) = Ok (stops_at Pb l.*1 t)) as ->.
  { apply walk_chain; [done|done|done|].
    intros x [[n b] [-> Hin]]%list_elem_of_fmap. simpl. rewrite (HT n b Hin). by rewrite (HPb n b). }
  clear Hc Hnd Hd. clearbody Pb. clear HT. induction l as [|[n b] l IH]; [by exists [], []|].
  rewrite fmap_cons, stops_at_cons. simpl. rewrite (HPb n b) by left. destruct (T b) eqn:E.
  - exists [], ((n, b) :: l). split_and!; [done|done| |done]. by intros nb l' [= <- <-].
  - destruct IH as (l1 & l2 & -> & H1 & H2 & H3); [intros; apply HPb; by right|].
    exists ((n, b) :: l1), l2. split_and!; [done|by constructor|done|done].
Qed.

Lemma walk_tagged {B} L (h t : Z) (l : list (Z * B)) (test : Z → res bool) (T : B → bool) :
  chain L (h :: l.*1 ++ [t]) → NoDup (h :: l.*1 ++ [t]) →
  (∀ n b, (n, b) ∈ l → test n = Ok (T b)) →
  ∃ l1 l2, l = l1 ++ l2 ∧ Forall (λ nb, T nb.2 = false) l1 ∧
     (∀ nb l', l2 = nb :: l' → T nb.2 = true) ∧
     walk get_next L test t (hd t l.*1) = Ok (hd t l2.*1).
Proof.
  intros Hc Hnd HT. apply NoDup_cons in Hnd as [_ Hnd]. apply NoDup_app in Hnd as (Hnd & Hd & _).
  apply walk_tagged_gen; [|done| |done].
  - destruct l; [done|]. by destruct Hc as (_ & _ & Hc).
  - intros Hin. apply (Hd _ Hin). left.
Qed.

(** ** Lists with one sentry *)
Lemma dlist_next L h l : dlist L h l → get_next L h = Ok (hd h l).
Proof. intros [Hc _]. destruct l; simpl in Hc; tauto. Qed.

Lemma dlist_prev L h l : dlist L h l → get_prev L h = Ok (hd h (reverse l)).
Proof.
  intros [Hc _]. destruct l as [|x l] using rev_ind; [simpl in Hc; tauto|]. clear IHl.
  rewrite reverse_snoc. simpl.
  replace (h :: (l ++ [x]) ++ [h]) with ((h :: l) ++ x :: h :: []) in Hc by by rewrite <- app_assoc.
  apply chain_pair in Hc. tauto.
Qed.

Lemma dlist_dom L h l x : dlist L h l → x ∈ h :: l → x ∈ dom L.
Proof.
  intros [Hc _] Hx. apply (chain_dom L (h :: l ++ [h])); [simpl; rewrite length_app; simpl; lia|done|set_solver].
Qed.

(** A list of another sentry is not affected by changes to foreign nodes. *)
Lemma dlist_frame L L' h l :
  (∀ q, q ∈ h :: l → L' !! q = L !! q) → dlist L h l → dlist L' h l.
Proof.
  intros Hq [Hc Hnd]. split; [|done]. eapply chain_ext; [| |done].
  - intros x Hx%elem_of_removelast. unfold get_next. rewrite Hq; [done|set_solver].
  - intros x Hx. unfold get_prev. rewrite Hq; [done|simpl in Hx; set_solver].
Qed.

Lemma dlist_split L h l1 e l2 : dlist L h (l1 ++ e :: l2) →
  get_prev L e = Ok (default h (last l1)) ∧ get_next L e = Ok (hd h l2).
Proof.
  intros [Hc _]. split.
  - destruct l1 as [|x l1] using rev_ind; [simpl in *; tauto|]. rewrite last_snoc.
    replace (h :: ((l1 ++ [x]) ++ e :: l2) ++ [h]) with ((h :: l1) ++ x :: e :: (l2 ++ [h])) in Hc
      by by rewrite <- !app_assoc.
    apply chain_pair in Hc. simpl. tauto.
  - replace (h :: (l1 ++ e :: l2) ++ [h]) with ((h :: l1) ++ e :: (l2 ++ [h])) in Hc
      by by rewrite <- app_assoc.
    apply chain_split in Hc as [_ Hc]. destruct l2; simpl in *; tauto.
Qed.

Lemma dlist_before L h l1 l2 : dlist L h (l1 ++ l2) → get_prev L (hd h l2) = Ok (default h (last l1)).
Proof.
  intros Hd. destruct l2 as [|e l2]; [|by apply (dlist_split _ _ _ _ _ Hd)]. rewrite app_nil_r in Hd. simpl.
  rewrite (dlist_prev _ _ _ Hd). destruct l1 as [|x l1] using rev_ind; [done|]. by rewrite reverse_snoc, last_snoc.
Qed.

Lemma dlist_after L h l1 l2 : dlist L h (l1 ++ l2) → get_next L (default h (last l1)) = Ok (hd h l2).
Proof.
  intros Hd. destruct l1 as [|x l1 _] using rev_ind; [by apply dlist_next|]. rewrite last_snoc.
  rewrite <-app_assoc in Hd. by apply (dlist_split _ _ _ _ _ Hd).
Qed.

Lemma for_each_tagged {B} L h (l : list (Z * B)) (test : Z → res bool) (T : B → bool) :
  dlist L h l.*1 → (∀ n b, (n, b) ∈ l → test n = Ok (T b)) →
  ∃ l1 l2, l = l1 ++ l2 ∧ Forall (λ nb, T nb.2 = false) l1 ∧
     (∀ nb l', l2 = nb :: l' → T nb.2 = true) ∧ for_each L h test = Ok (hd h l2.*1).
Proof.
  intros Hd HT. unfold for_each, for_each_n. rewrite (dlist_next _ _ _ Hd). cbn [mbind res_bind].
  destruct Hd as [Hc Hnd]. apply NoDup_cons in Hnd as [Hh Hnd].
  apply walk_tagged_gen; [|done|done|done].
  destruct l; [done|]. by destruct Hc as (_ & _ & Hc).
Qed.

(** The two chains that the walks follow. *)
Lemma dlist_open L h l : dlist L h l → chain L (l ++ [h]) ∧ chain L (h :: l).
Proof.
  intros [Hc _]. split; [destruct l; [done|]; by destruct Hc as (_ & _ & Hc)|].
  destruct l as [|x l] using rev_ind; [done|].
  replace (h :: (l ++ [x]) ++ [h]) with ((h :: l) ++ x :: [h]) in Hc by by rewrite <- app_assoc.
  apply chain_split in Hc. tauto.
Qed.

Lemma for_each_reverse_ok L h l P Pb : dlist L h l → (∀ x, x ∈ l → P x = Ok (Pb x)) →
  for_each_reverse L h P = Ok (stops_at Pb (reverse l) h).
Proof.
  intros Hd HP. unfold for_each_reverse, for_each_reverse_n. rewrite (dlist_prev _ _ _ Hd). cbn [mbind res_bind].
  destruct (dlist_open _ _ _ Hd) as [_ Hc]. destruct Hd as [_ Hnd]. apply NoDup_cons in Hnd as [Hh Hnd]. by apply walk_chain_back.
Qed.

(** The last node that satisfies the test. *)
Lemma stops_at_last Pb l h : 
  (∃ l1 x l2, l = l1 ++ x :: l2 ∧ Pb x = true ∧ Forall (λ y, Pb y = false) l2 ∧ stops_at Pb (reverse l) h = x) ∨
  (Forall (λ y, Pb y = false) l ∧ stops_at Pb (reverse l) h = h).
Proof.
  induction l as [|x l IH] using rev_ind; [by right|]. rewrite reverse_snoc, stops_at_cons. destruct (Pb x) eqn:E.
  - left. exists l, x, []. done.
  - destruct IH as [(l1 & y & l2 & -> & H1 & H2 & ->)|[H1 ->]].
    + left. exists l1, y, (l2 ++ [x]). split_and!; [by rewrite <- app_assoc|done| |done].
      apply Forall_app. split; [done|by constructor].
    + right. split; [|done]. apply Forall_app. split; [done|by constructor].
Qed.

Lemma dlist_insert_ok L h l1 l2 new : dlist L h (l1 ++ l2) → new ∈ dom L → new ∉ h :: l1 ++ l2 →
  ∃ L', list_add_between new (default h (last l1)) (hd h l2) L = Ok L' ∧ dom L' = dom L ∧
    dlist L' h (l1 ++ new :: l2) ∧ (∀ q, q ∉ h :: new :: l1 ++ l2 → L' !! q = L !! q).
Proof.
  intros Hd Hn Hf. pose proof (dlist_simple _ _ _ Hd) as Hs. destruct Hd as [Hc Hnd].
  assert (∃ xs p, h :: l1 = xs ++ [p] ∧ p = default h (last l1)) as (xs & p & Exs & Ep).
  { destruct l1 as [|x l1] using rev_ind; [by exists [], h|]. exists (h :: l1), x. by rewrite last_snoc. }
  assert (∃ n ys, l2 ++ [h] = n :: ys ∧ n = hd h l2) as (n & ys & Eys & En) by (destruct l2; eauto).
  assert (h :: (l1 ++ l2) ++ [h] = xs ++ p :: n :: ys) as E.
  { rewrite <- app_assoc, Eys, app_comm_cons, Exs. by rewrite <- app_assoc. }
  rewrite E in *. destruct (list_add_between_chain L xs p n ys new Hc Hs Hn) as (L' & HL & Hdom & Hc' & Hq).
  { rewrite <- E. set_solver. }
  rewrite <- Ep, <- En. exists L'. split_and!; [done|done| |].
  - split.
    + replace (h :: (l1 ++ new :: l2) ++ [h]) with (xs ++ p :: new :: n :: ys); [done|].
      rewrite <- app_assoc. simpl. rewrite Eys, app_comm_cons, Exs. by rewrite <- app_assoc.
    + rewrite app_comm_cons, <- Permutation_middle. constructor; [set_solver|done].
  - intros q Hq'. assert (p ∈ h :: l1) by (rewrite Exs; set_solver).
    assert (n ∈ h :: l2) by (subst n; destruct l2; set_solver). apply Hq; set_solver.
Qed.

Lemma dlist_remove_ok L h l1 e l2 : dlist L h (l1 ++ e :: l2) →
  ∃ L', list_del e L = Ok L' ∧ dom L' = dom L ∧ dlist L' h (l1 ++ l2) ∧
    (∀ q, q ∉ h :: l1 ++ l2 → L' !! q = L !! q).
Proof.
  intros Hd. pose proof (dlist_simple _ _ _ Hd) as Hs.
  destruct (dlist_split _ _ _ _ _ Hd) as [Hp Hn]. destruct Hd as [Hc Hnd].
  assert (∃ xs p, h :: l1 = xs ++ [p] ∧ p = default h (last l1)) as (xs & p & Exs & Ep).
  { destruct l1 as [|x l1] using rev_ind; [by exists [], h|]. exists (h :: l1), x. by rewrite last_snoc. }
  assert (∃ n ys, l2 ++ [h] = n :: ys ∧ n = hd h l2) as (n & ys & Eys & En) by (destruct l2; eauto).
  assert (h :: (l1 ++ e :: l2) ++ [h] = xs ++ p :: e :: n :: ys) as E.
  { rewrite <- app_assoc. simpl. rewrite Eys, app_comm_cons, Exs. by rewrite <- app_assoc. }
  rewrite E in *. assert (e ∉ xs ++ p :: n :: ys) as He.
  { rewrite app_comm_cons, <- Permutation_middle in Hnd. apply NoDup_cons in Hnd as [Hnd _].
    replace (xs ++ p :: n :: ys) with ((h :: l1) ++ (l2 ++ [h])); [set_solver|].
    rewrite Exs, Eys. by rewrite <- app_assoc. }
  destruct (list_del_between_chain L xs p e n ys Hc Hs He) as (L' & HL & Hdom & Hc' & Hq).
  unfold list_del. rewrite Hp, Hn. simpl. rewrite <- Ep, <- En.
  exists L'. split_and!; [done|done| |].
  - split.
    + replace (h :: (l1 ++ l2) ++ [h]) with (xs ++ p :: n :: ys); [done|].
      rewrite <- app_assoc, Eys, app_comm_cons, Exs. by rewrite <- app_assoc.
    + rewrite app_comm_cons, <- Permutation_middle in Hnd. by apply NoDup_cons in Hnd as [_ ?].
  - intros q Hq'. assert (p ∈ h :: l1) by (rewrite Exs; set_solver).
    assert (n ∈ h :: l2) by (subst n; destruct l2; set_solver). apply Hq; set_solver.
Qed.

Lemma init_list_ok L h : h ∈ dom L → ∃ L', INIT_LIST_HEAD h L = Ok L' ∧ dom L' = dom L ∧
  dlist L' h [] ∧ (∀ q, q ≠ h → L' !! q = L !! q).
Proof.
  intros Hh. unfold INIT_LIST_HEAD.
  destruct (set_next_ok L h h) as (L1 & -> & Hd1 & Hn1 & Hp1 & Hq1); [done|]. cbn [mbind res_bind].
  destruct (set_prev_ok L1 h h) as (L2 & HL2 & Hd2 & Hp2 & Hn2 & Hq2); [by rewrite Hd1|].
  exists L2. split_and!; [done|congruence| |].
  - split; [|apply NoDup_singleton]. simpl. rewrite Hn2, Hn1, Hp2. by rewrite !decide_True.
  - intros q Hq. by rewrite Hq2, Hq1.
Qed.

(** ** Theorems *)

(** [list_add] and [list_add_tail] on a well-formed list with sentry [h],
    given a node that is not in it, succeed and put the node at the front and at
    the back respectively; the list stays well-formed in both directions and no
    node outside of it is touched. *)
Theorem list_add_refines L h l new :
  dlist L h l → new ∈ dom L → new ∉ h :: l →
  wp (list_add new h L) (λ L', dlist L' h (new :: l) ∧ dom L' = dom L ∧
     ∀ q, q ∉ h :: new :: l → L' !! q = L !! q) ∧
  wp (list_add_tail new h L) (λ L', dlist L' h (l ++ [new]) ∧ dom L' = dom L ∧
     ∀ q, q ∉ h :: new :: l → L' !! q = L !! q).
Proof.
  intros Hd Hn Hf. split.
  - destruct (dlist_insert_ok L h [] l new) as (L' & HL & Hdom & Hd' & Hq); [done..|].
    unfold list_add. rewrite (dlist_next _ _ _ Hd). simpl in *. by rewrite HL.
  - rewrite <- (app_nil_r l) in Hd, Hf.
    destruct (dlist_insert_ok L h l [] new Hd Hn Hf) as (L' & HL & Hdom & Hd' & Hq).
    rewrite app_nil_r in *. unfold list_add_tail. rewrite (dlist_prev _ _ _ Hd). simpl in *.
    destruct l as [|x l] using rev_ind; [simpl in *; by rewrite HL|].
    rewrite reverse_snoc. rewrite last_snoc in HL. simpl in *. by rewrite HL.
Qed.

(** [list_del] and [list_del_init] of a node of a well-formed list remove
    exactly that node; [list_del_init] also leaves the node as an empty list of
    its own. *)
Theorem list_del_refines L h l1 e l2 :
  dlist L h (l1 ++ e :: l2) →
  wp (list_del e L) (λ L', dlist L' h (l1 ++ l2) ∧ dom L' = dom L ∧
     ∀ q, q ∉ h :: l1 ++ l2 → L' !! q = L !! q) ∧
  wp (list_del_init e L) (λ L', dlist L' h (l1 ++ l2) ∧ dlist L' e [] ∧ dom L' = dom L).
Proof.
  intros Hd. destruct (dlist_remove_ok _ _ _ _ _ Hd) as (L' & HL & Hdom & Hd' & Hq).
  assert (e ∉ h :: l1 ++ l2) as He.
  { destruct Hd as [_ Hnd]. rewrite app_comm_cons, <- Permutation_middle in Hnd.
    by apply NoDup_cons in Hnd as [? _]. }
  assert (e ∈ dom L) as Hin by (apply (dlist_dom _ _ _ _ Hd); set_solver).
  split; [by rewrite HL|].
  unfold list_del_init, list_del in *. destruct (get_prev L e), (get_next L e); try done. simpl in *.
  rewrite HL. simpl. destruct (init_list_ok L' e) as (L2 & -> & Hdom2 & Hd2 & Hq2); [by rewrite Hdom|].
  simpl. split_and!; [|done|congruence]. eapply dlist_frame; [|done].
  intros q Hq'. apply Hq2. set_solver.
Qed.

(** C39. On a well-formed list, [for_each] stops at the first node that satisfies
    the loop's exit test and [for_each_reverse] at the last one, both at the
    sentry when there is none.  The loop's condition is then evaluated once for
    every node that was passed and once where the loop stops, never less and never
    more, which is at most once more than the list has nodes, whatever else is in
    memory.  [list_empty] and [list_is_singular] decide the length. *)
Theorem list_walk_correct L h l P Pb :
  dlist L h l → (∀ x, x ∈ l → P x = Ok (Pb x)) →
  for_each L h P = Ok (stops_at Pb l h) ∧
  for_each_reverse L h P = Ok (stops_at Pb (reverse l) h) ∧
  (∀ fuel, for_each_n fuel L h P = if decide (passed Pb l < fuel)%nat then Ok (stops_at Pb l h) else Err OutOfFuel) ∧
  (∀ fuel, for_each_reverse_n fuel L h P =
     if decide (passed Pb (reverse l) < fuel)%nat then Ok (stops_at Pb (reverse l) h) else Err OutOfFuel) ∧
  (passed Pb l ≤ length l)%nat ∧ (passed Pb (reverse l) ≤ length l)%nat ∧
  list_empty h L = Ok (bool_decide (l = [])) ∧
  list_is_singular h L = Ok (bool_decide (length l = 1%nat)).
Proof.
  intros Hd HP. pose proof (dlist_next _ _ _ Hd) as Hn. pose proof (dlist_prev _ _ _ Hd) as Hp.
  assert (h ∉ l ∧ NoDup l) as [Hh Hnd] by (destruct Hd as [_ Hnd]; by apply NoDup_cons in Hnd).
  pose proof (passed_le Pb l). pose proof (passed_le Pb (reverse l)) as Hrev. rewrite length_reverse in Hrev.
  assert (list_empty h L = Ok (bool_decide (l = []))) as He.
  { unfold list_empty. rewrite Hn. simpl. destruct l as [|x l]; simpl; [by rewrite Z.eqb_refl|].
    rewrite (proj2 (Z.eqb_neq _ _)) by set_solver. done. }
  destruct (dlist_open _ _ _ Hd) as [Hc1 Hc2]. split_and!; [| | | |done|done|done|].
  - unfold for_each, for_each_n. rewrite Hn. by apply walk_chain.
  - by apply for_each_reverse_ok.
  - intros fuel. unfold for_each_n. rewrite Hn. by apply walk_chain_n.
  - intros fuel. unfold for_each_reverse_n. rewrite Hp. by apply walk_chain_back_n.
  - unfold list_is_singular. rewrite He. simpl. destruct l as [|x l]; [done|].
    rewrite bool_decide_false by done. rewrite Hn, Hp. simpl.
    destruct l as [|y l] using rev_ind; simpl; [by rewrite Z.eqb_refl|]. clear IHl.
    rewrite bool_decide_false by (rewrite length_app; simpl; lia).
    rewrite app_comm_cons, reverse_snoc. simpl.
    rewrite (proj2 (Z.eqb_neq _ _)); [done|]. apply NoDup_cons in Hnd. set_solver.
Qed.

(** ** Witnesses *)

(** Three nodes: the sentry 100 with 200 in it, and a free node 300. *)
Definition demo_links : links :=
  <[100 := Link 200 200]> (<[200 := Link 100 100]> (<[300 := Link 0 0]> ∅)).

Lemma demo_dlist : dlist demo_links 100 [200].
Proof. split; [by vm_compute|]. apply (bool_decide_unpack _). by vm_compute. Qed.

Lemma list_add_refines_witness :
  wp (list_add_tail 300 100 demo_links) (λ L', dlist L' 100 [200; 300]).
Proof.
  eapply wp_mono; [apply (list_add_refines demo_links 100 [200] 300)|].
  - apply demo_dlist.
  - by apply elem_of_dom.
  - by apply (bool_decide_unpack _).
  - by intros L' [? _].
Defined.

Lemma list_del_refines_witness :
  wp (list_del_init 200 demo_links) (λ L', dlist L' 100 [] ∧ dlist L' 200 []).
Proof.
  eapply wp_mono; [apply (list_del_refines demo_links 100 [] 200 [])|].
  - apply demo_dlist.
  - by intros L' (? & ? & _).
Defined.

Lemma list_walk_correct_witness :
  for_each demo_links 100 (λ x, Ok (x =? 200)) = Ok 200 ∧ for_each_n 1 demo_links 100 (λ x, Ok (x =? 200)) = Ok 200 ∧
  for_each_n 1 demo_links 100 (λ _, Ok false) = Err OutOfFuel ∧ for_each_n 2 demo_links 100 (λ _, Ok false) = Ok 100.
Proof.
  destruct (list_walk_correct demo_links 100 [200] (λ x, Ok (x =? 200)) (λ x, x =? 200)
    demo_dlist (λ x _, eq_refl)) as (H & _ & H1 & _).
  destruct (list_walk_correct demo_links 100 [200] (λ _, Ok false) (λ _, false) demo_dlist (λ x _, eq_refl)) as (_ & _ & H2 & _).
  split; [exact H|]. split; [exact (H1 1%nat)|]. split; [exact (H2 1%nat)|exact (H2 2%nat)].
Defined.
