(* ===== verification/MmState.v ===== *)
(** * State of the memory management subsystem

    The static variables of kern/mm/pmm/pmm.c, kern/mm/pmm/palloc.c,
    kern/mm/vmm/vmm.c and kern/mm/vmm/simple.c in one record, because the page
    allocator and the object allocator call each other through the function
    pointers of include/aim/pmm.h and include/aim/vmm.h.

    The structures that the allocators link together ([struct mem_block],
    [struct alloced_page]) are kept in typed stores, a map from the object's
    address to its fields; an access to an address that holds no live object is
    a [BadPtr], so that a use after free cannot go unnoticed.  Everything else in
    memory is the byte map [bytes]. *)
From S2P Require Import Prelude Util DList.

(** [struct pages] of include/aim/pmm.h. *)
Record pages := Pages { paddr : Z; psize : Z; pflags : Z }.

(** [struct mem_block] of palloc.c: its [prev]/[next] pointers are in [mb_links],
    its anonymous [struct pages] in [mb_pages]; [phead], [ptail] and [free_size]
    are the static variables. *)
Record palloc := Palloc {
  mb_links : links; mb_pages : gmap Z pages;
  phead : Z; ptail : Z; free_size : Z }.

(** The bootstrap allocator of simple.c: [top], [bottom], [ssize]. *)
Record bump := Bump { top : Z; bottom : Z; ssize : Z }.

(** [struct alloced_page] and the static variables of simple.c. *)
Record alloced_page := APage { ap_paddr : Z; ap_size : Z; ap_num : Z; ap_status : list Z }.
Record slab := Slab {
  ap_links : links; ap_pages : gmap Z alloced_page;
  shead : Z; stail : Z; now_plain_page : Z; offset : Z }.

(** The allocators that are ever registered with [set_page_allocator] and
    [set_simple_allocator]: the dummies of pmm.c and vmm.c, palloc.c, and the two
    of simple.c. *)
Inductive page_impl := DummyPages | PallocPages.
Inductive simple_impl := DummySimple | BootstrapSimple | SlabSimple.

Record world := World {
  pa : palloc; page_cur : page_impl;
  bp : bump; sl : slab; simple_cur : simple_impl;
  bytes : Z → Z }.

#[global] Instance pages_eq_dec : EqDecision pages.
Proof. solve_decision. Defined.
#[global] Instance page_impl_eq_dec : EqDecision page_impl.
Proof. solve_decision. Defined.
#[global] Instance simple_impl_eq_dec : EqDecision simple_impl.
Proof. solve_decision. Defined.

Definition upd_pa (f : palloc → palloc) (w : world) : world :=
  World (f (pa w)) (page_cur w) (bp w) (sl w) (simple_cur w) (bytes w).
Definition upd_bp (f : bump → bump) (w : world) : world :=
  World (pa w) (page_cur w) (f (bp w)) (sl w) (simple_cur w) (bytes w).
Definition upd_sl (f : slab → slab) (w : world) : world :=
  World (pa w) (page_cur w) (bp w) (f (sl w)) (simple_cur w) (bytes w).
Definition upd_bytes (f : (Z → Z) → Z → Z) (w : world) : world :=
  World (pa w) (page_cur w) (bp w) (sl w) (simple_cur w) (f (bytes w)).
Definition set_page_cur (p : page_impl) (w : world) : world :=
  World (pa w) p (bp w) (sl w) (simple_cur w) (bytes w).
Definition set_simple_cur (p : simple_impl) (w : world) : world :=
  World (pa w) (page_cur w) (bp w) (sl w) p (bytes w).

(** Evaluate monadic steps and nothing else. *)
Ltac msimpl := cbn [paddr psize pflags fst snd mbind res_bind of_option].

(** ** Bytes *)

(** [memset(dst, c, n)] of lib/libc/memset.c, on the byte map. *)
Definition fill (dst c n : Z) (m : Z → Z) : Z → Z :=
  λ a, if (dst <=? a) && (a <? dst + n) then w8 c else m a.

(** ** The object allocator as palloc.c sees it

    [kmalloc] and [kfree] of kern/mm/vmm/vmm.c, as the operations of an
    interface: the page allocator is proved against the laws of [KmemLaws] and
    [KmemRoom], and an object allocator is an instance. *)
Class Kmem := {
  kmalloc_ : Z → Z → world → res (Z * world);
  kfree_ : Z → world → res world;
  (** the content of the memory that a new [struct mem_block] is placed in *)
  junk_ : Z → world → link * pages }.

(** [J w]: the object allocator can work without calling back into the page
    allocator.  [live w] is the set of the objects it has handed out that are in
    use, the two static end nodes included. *)
Definition live (w : world) : gset Z := dom (mb_links (pa w)).

Definition SIZEOF_MEM_BLOCK : Z := 32.

(** The world with only its object allocator's part changed. *)
Definition same_but_heap (w w' : world) : Prop :=
  pa w' = pa w ∧ page_cur w' = page_cur w ∧ bytes w' = bytes w.

(** [w] with the object [p] entered into the store of the page allocator. *)
Definition with_block (p : Z) (k : link) (b : pages) (w : world) : world :=
  upd_pa (λ s, Palloc (<[p := k]> (mb_links s)) (<[p := b]> (mb_pages s)) (phead s) (ptail s) (free_size s)) w.

(** What taking pages asks of the object allocator: they may give objects back. *)
Class KfreeLaws (K : Kmem) (J : world → Prop) := {
  (** [kfree] of an object that left the store returns; the end nodes never do. *)
  km_free p w k b : p ∉ live w → p ≠ phead (pa w) → p ≠ ptail (pa w) → J (with_block p k b w) → wp (kfree_ p w) (λ w', same_but_heap w w' ∧ J w');
  (** [J] depends on the page allocator only through the set of live objects. *)
  km_frame w w' : J w → live w' = live w → phead (pa w') = phead (pa w) → ptail (pa w') = ptail (pa w) → bp w' = bp w → sl w' = sl w →
    simple_cur w' = simple_cur w → J w' }.

(** Giving pages back also asks for a [struct mem_block]: [kmalloc] returns NULL
    and changes nothing, or the address of an object that is not in use. *)
Class KmemLaws (K : Kmem) (J : world → Prop) := {
  km_laws :: KfreeLaws K J;
  km_alloc w : J w → wp (kmalloc_ SIZEOF_MEM_BLOCK 0 w) (λ '(p, w'), (p = NULL ∧ w' = w) ∨
    (p ≠ NULL ∧ p ∉ live w ∧ same_but_heap w w' ∧ ∀ k b, J (with_block p k b w'))) }.

(** [J r w]: [r] more objects can be had, so that [r] frees do not fail. *)
Class KmemRoom (K : Kmem) (J : nat → world → Prop) := {
  kr_laws r :: KfreeLaws K (J r);
  kr_less r w : J (S r) w → J r w;
  kr_alloc r w : J (S r) w → wp (kmalloc_ SIZEOF_MEM_BLOCK 0 w) (λ '(p, w'),
    p ≠ NULL ∧ p ∉ live w ∧ same_but_heap w w' ∧ ∀ k b, J r (with_block p k b w')) }.
