(* ===== verification/Libc.v ===== *)
(** * String and memory functions

    lib/libc/{memcmp,memcpy,memmove,memset,strcmp,strlcpy}.c on the byte-addressed
    kernel memory, a function from addresses to bytes.  Addresses are 32 bits
    wide; the copy loops are the source's, by words where both pointers allow
    it. *)
From S2P Require Import Prelude Util MmState.

Abbreviation mem := (Z → Z).
Definition wsize : Z := 4.
Definition wmask : Z := wsize - 1.

(** One access of [c] bytes: all are read before the first is written. *)
Definition blit (dst src c : Z) (m : mem) : mem :=
  λ a, if (dst <=? a) && (a <? dst + c) then m (src + (a - dst)) else m a.

Definition store (a v : Z) (m : mem) : mem := λ x, if x =? a then v else m x.

(** ** memcmp, memset *)
Definition memcmp (m : mem) (s1 s2 n : Z) : res Z :=
  '(l, r, n) ← loop (S (Z.to_nat n)) (λ '(l, r, n),
    if negb (n =? 0) && (m l =? m r) then Ok (inl (w32 (l + 1), w32 (r + 1), w32 (n - 1)))
    else Ok (inr (l, r, n))) (s1, s2, n);
  Ok (if negb (n =? 0) then m l - m r else 0).

Definition memset (dst c n : Z) (m : mem) : res (Z * mem) :=
  if negb (n =? 0) then
    m ← loop (S (Z.to_nat n)) (λ '(d, n, m),
      let m := store d (w8 c) m in
      let d := w32 (d + 1) in
      let n := w32 (n - 1) in
      if negb (n =? 0) then Ok (inl (d, n, m)) else Ok (inr m)) (dst, n, m);
    Ok (dst, m)
  else Ok (dst, m).

(** ** memcpy, memmove *)

(** [TLOOP1(s)]: [do { s; } while (--t)], and [TLOOP(s)]: [if (t) TLOOP1(s)]. *)
Abbreviation cursor := (Z * Z * mem)%type.
Definition TLOOP1 (t : Z) (s : cursor → cursor) (st : cursor) : res cursor :=
  loop (S (Z.to_nat t)) (λ '(t, st),
    let st := s st in
    let t := w32 (t - 1) in
    if negb (t =? 0) then Ok (inl (t, st)) else Ok (inr st)) (t, st).
Definition TLOOP (t : Z) (s : cursor → cursor) (st : cursor) : res cursor :=
  if negb (t =? 0) then TLOOP1 t s st else Ok st.

(** [*dst = *src; src += c; dst += c] and [src -= c; dst -= c; *dst = *src]. *)
Definition fwd (c : Z) : cursor → cursor :=
  λ '(dst, src, m), (w32 (dst + c), w32 (src + c), blit dst src c m).
Definition bwd (c : Z) : cursor → cursor :=
  λ '(dst, src, m), let dst := w32 (dst - c) in let src := w32 (src - c) in (dst, src, blit dst src c m).

(** The forward copy that [memcpy] and the first half of [memmove] share. *)
Definition copy_forward (length : Z) (st : cursor) : res cursor :=
  let '(dst, src, _) := st in
  '(length, st) ← (
    if negb (Z.land (Z.lor src dst) wmask =? 0) then
      let t := if negb (Z.land (Z.lxor src dst) wmask =? 0) || (length <? wsize) then length
               else wsize - Z.land src wmask in
      st ← TLOOP1 t (fwd 1) st;
      Ok (w32 (length - t), st)
    else Ok (length, st));
  st ← TLOOP (length / wsize) (fwd wsize) st;
  TLOOP (Z.land length wmask) (fwd 1) st.

Definition copy_backward (length : Z) (st : cursor) : res cursor :=
  let '(dst, src, m) := st in
  let src := w32 (src + length) in
  let dst := w32 (dst + length) in
  '(length, st) ← (
    if negb (Z.land (Z.lor src dst) wmask =? 0) then
      let t := if negb (Z.land (Z.lxor src dst) wmask =? 0) || (length <=? wsize) then length
               else Z.land src wmask in
      st ← TLOOP1 t (bwd 1) (dst, src, m);
      Ok (w32 (length - t), st)
    else Ok (length, (dst, src, m)));
  st ← TLOOP (length / wsize) (bwd wsize) st;
  TLOOP (Z.land length wmask) (bwd 1) st.

Definition memcpy (dst0 src0 length : Z) (m : mem) : res (Z * mem) :=
  if (length =? 0) || (dst0 =? src0) then Ok (dst0, m)
  else '(_, _, m) ← copy_forward length (dst0, src0, m); Ok (dst0, m).

Definition memmove (dst0 src0 length : Z) (m : mem) : res (Z * mem) :=
  if (length =? 0) || (dst0 =? src0) then Ok (dst0, m)
  else if dst0 <? src0 then '(_, _, m) ← copy_forward length (dst0, src0, m); Ok (dst0, m)
  else '(_, _, m) ← copy_backward length (dst0, src0, m); Ok (dst0, m).

(** ** strcmp, strlcpy; [fuel] bounds the length of the strings. *)
Definition strcmp (fuel : nat) (m : mem) (s1 s2 : Z) : res Z :=
  loop fuel (λ '(s1, s2),
    if m s1 =? m s2 then
      let s2 := w32 (s2 + 1) in
      if m s1 =? 0 then Ok (inr 0) else Ok (inl (w32 (s1 + 1), s2))
    else
      let s2 := w32 (s2 + 1) in
      let s2 := w32 (s2 - 1) in
      Ok (inr (m s1 - m s2))) (s1, s2).

Definition strlcpy (fuel : nat) (dst src dsize : Z) (m : mem) : res (Z * mem) :=
  let d := dst in let s := src in let n := dsize in
  '(d, s, n, m) ← (
    if n =? 0 then Ok (d, s, n, m)
    else
      let n := w32 (n - 1) in
      if n =? 0 then Ok (d, s, n, m)
      else loop fuel (λ '(d, s, n, m),
        let c := m s in
        let m := store d c m in
        let d := w32 (d + 1) in let s := w32 (s + 1) in
        if c =? 0 then Ok (inr (d, s, n, m))
        else
          let n := w32 (n - 1) in
          if negb (n =? 0) then Ok (inl (d, s, n, m)) else Ok (inr (d, s, n, m))) (d, s, n, m));
  '(s, m) ← (
    if n =? 0 then
      let m := if negb (dsize =? 0) then store d 0 m else m in
      s ← loop fuel (λ s, let c := m s in let s := w32 (s + 1) in
                          if negb (c =? 0) then Ok (inl s) else Ok (inr s)) s;
      Ok (s, m)
    else Ok (s, m));
  Ok (w32 (w32 (s - src) - 1), m).

(** ** memset is the fill of a range *)
Lemma memset_ok dst c n m : 0 ≤ dst → 0 ≤ n → dst + n < 2 ^ 32 →
  wp (memset dst c n m) (λ '(r, m'), r = dst ∧ ∀ a, m' a = fill dst c n m a).
Proof.
  intros Hd Hn Hb. unfold memset. destruct (Z.eqb_spec n 0) as [->|Hn0]; cbn [negb].
  { apply wp_ok. split; [done|]. intros a. unfold fill. destruct (Z.leb_spec dst a), (Z.ltb_spec a (dst + 0)); simpl; try done. lia. }
  apply wp_bind. eapply wp_mono; [|intros m' Hm'; apply wp_ok; split; [done|exact Hm']].
  apply (wp_loop _ (λ '(d, k, m'), 0 < k ≤ n ∧ d = dst + (n - k) ∧ ∀ a, m' a = fill dst c (n - k) m a)
    (λ '(_, k, _), Z.to_nat k)).
  - intros [[d k] m'] (Hk & -> & Hm). rewrite !wrap_small by (unfold fits; lia).
    assert (∀ a, store (dst + (n - k)) (w8 c) m' a = fill dst c (n - (k - 1)) m a) as Hs.
    { intros a. unfold store, fill in *. rewrite Hm. zcases; simpl; try done; lia. }
    destruct (Z.eqb_spec (k - 1) 0) as [E|E]; simpl.
    + intros a. rewrite Hs, E. by rewrite Z.sub_0_r.
    + split_and!; try lia. done.
  - split_and!; try lia. intros a. unfold fill. zcases; simpl; try done; lia.
  - lia.
Qed.

(** ** Copying *)
Definition copied (dst src n : Z) (m m' : mem) : Prop := ∀ a, m' a = blit dst src n m a.

(** [n] bytes at both addresses lie below 2^32. *)
Definition in_range (dst src n : Z) : Prop := 0 ≤ dst ∧ 0 ≤ src ∧ dst + n < 2 ^ 32 ∧ src + n < 2 ^ 32.

(** A copy from low to high addresses is right when it does not overwrite what it
    has still to read. *)
Definition fwd_safe (dst src n : Z) : Prop := dst ≤ src ∨ src + n ≤ dst.

Section forward.
Context (dst src n : Z) (m : mem) (Hr : in_range dst src n) (Hs : fwd_safe dst src n).

Definition at_fwd (k : Z) (st : cursor) : Prop :=
  ∃ m', st = (dst + k, src + k, m') ∧ copied dst src k m m'.

Lemma fwd_step c k st : 0 < c → 0 ≤ k → k + c ≤ n → at_fwd k st → at_fwd (k + c) (fwd c st).
Proof.
  destruct Hr as (? & ? & ? & ?). intros Hc Hk Hn (m' & -> & Hm'). unfold fwd.
  rewrite !wrap_small by (unfold fits; lia). eexists. split; [f_equal; f_equal; lia|].
  intros a. unfold copied, blit in *. rewrite !Hm'. unfold fwd_safe in Hs. zcases; simpl; try done; try lia; f_equal; lia.
Qed.

Lemma fwd_loop1 c t k st : 0 < c → 0 < t → 0 ≤ k → k + c * t ≤ n → at_fwd k st →
  wp (TLOOP1 t (fwd c) st) (at_fwd (k + c * t)).
Proof.
  intros Hc Ht Hk Hn Hst. unfold TLOOP1. assert (t < 2 ^ 32) by (destruct Hr; nia).
  apply (wp_loop _ (λ '(j, st), 0 < j ≤ t ∧ at_fwd (k + c * (t - j)) st) (λ '(j, _), Z.to_nat j)).
  - intros [j st'] [Hj Hst']. rewrite wrap_small by (unfold fits; lia).
    assert (at_fwd (k + c * (t - (j - 1))) (fwd c st')) as Hstep.
    { replace (k + c * (t - (j - 1))) with (k + c * (t - j) + c) by lia. apply fwd_step; try done; nia. }
    destruct (Z.eqb_spec (j - 1) 0) as [E|E]; simpl.
    + by replace (k + c * (t - (j - 1))) with (k + c * t) in Hstep by (rewrite E; lia).
    + split; [|lia]. split; [lia|done].
  - split; [lia|]. by replace (k + c * (t - t)) with k by lia.
  - lia.
Qed.

Lemma fwd_loop c t k st : 0 < c → 0 ≤ t → 0 ≤ k → k + c * t ≤ n → at_fwd k st →
  wp (TLOOP t (fwd c) st) (at_fwd (k + c * t)).
Proof.
  intros Hc Ht Hk Hn Hst. unfold TLOOP. destruct (Z.eqb_spec t 0) as [->|]; simpl.
  - by replace (k + c * 0) with k by lia.
  - apply fwd_loop1; try done. lia.
Qed.

Lemma copy_forward_ok : 0 < n →
  wp (copy_forward n (dst, src, m)) (λ '(_, _, m'), copied dst src n m m').
Proof.
  intros Hn. pose proof Hr as (? & ? & ? & ?). unfold copy_forward.
  assert (at_fwd 0 (dst, src, m)) as Hat0.
  { exists m. split; [f_equal; f_equal; lia|]. intros a. unfold blit. zcases; simpl; try done; lia. }
  assert (∀ x, Z.land x wmask = x mod 4) as Hland by (intros x; change wmask with (Z.ones 2); by rewrite Z.land_ones).
  apply wp_bind.
  assert (wp (if negb (Z.land (Z.lor src dst) wmask =? 0) then
      let t := if negb (Z.land (Z.lxor src dst) wmask =? 0) || (n <? wsize) then n else wsize - Z.land src wmask in
      st ← TLOOP1 t (fwd 1) (dst, src, m); Ok (w32 (n - t), st) else Ok (n, (dst, src, m)))
    (λ '((len, st) : Z * cursor), ∃ k, 0 ≤ k ≤ n ∧ len = n - k ∧ at_fwd k st)) as Hhead.
  { destruct (negb _); [|by exists 0; split_and!; try lia; rewrite ?Z.sub_0_r].
    cbv zeta. match goal with |- context [TLOOP1 ?e] => set (t := e) end. assert (0 < t ≤ n) as Ht.
    { unfold t. rewrite (Hland src). pose proof (Z.mod_pos_bound src 4). unfold wsize.
      destruct (negb _); simpl; [lia|]. destruct (Z.ltb_spec n 4); lia. }
    apply wp_bind. eapply wp_mono; [apply (fwd_loop1 1 t 0); try done; try lia|].
    intros st Hst. apply wp_ok. rewrite wrap_small by (unfold fits; lia).
    exists t. split_and!; try lia. by replace (0 + 1 * t) with t in Hst by lia. }
  eapply wp_mono; [exact Hhead|]. intros [len st] (k & Hk & -> & Hst). apply wp_bind.
  rewrite Hland. unfold wsize. pose proof (Z.div_mod (n - k) 4). pose proof (Z.mod_pos_bound (n - k) 4).
  assert (0 ≤ (n - k) / 4) by (apply Z.div_pos; lia).
  eapply wp_mono; [apply (fwd_loop 4 ((n - k) / 4) k); try done; lia|]. intros st' Hst'.
  eapply wp_mono; [apply (fwd_loop 1 ((n - k) mod 4) (k + 4 * ((n - k) / 4))); try done; lia|].
  intros [[d s] m'] (m'' & [= _ _ ->] & Hm).
  by replace (k + 4 * ((n - k) / 4) + 1 * ((n - k) mod 4)) with n in Hm by lia.
Qed.
End forward.

Lemma land_lor_0 x y w : Z.land x w = 0 → Z.land (Z.lxor x y) w = 0 → Z.land (Z.lor x y) w = 0.
Proof.
  intros Hx Hxy. apply Z.bits_inj'. intros i Hi.
  apply (f_equal (λ z, Z.testbit z i)) in Hx, Hxy. autorewrite with bits in *.
  by destruct (Z.testbit x i), (Z.testbit y i), (Z.testbit w i).
Qed.

Section backward.
Context (dst src n : Z) (m : mem) (Hr : in_range dst src n) (Hs : src ≤ dst).

(** The last [k] bytes have been copied. *)
Definition at_bwd (k : Z) (st : cursor) : Prop :=
  ∃ m', st = (dst + n - k, src + n - k, m') ∧ copied (dst + n - k) (src + n - k) k m m'.

Lemma bwd_step c k st : 0 < c → 0 ≤ k → k + c ≤ n → at_bwd k st → at_bwd (k + c) (bwd c st).
Proof.
  destruct Hr as (? & ? & ? & ?). intros Hc Hk Hn (m' & -> & Hm'). unfold bwd.
  rewrite !wrap_small by (unfold fits; lia). eexists. split; [f_equal; f_equal; lia|].
  intros a. unfold copied, blit in *. rewrite !Hm'. zcases; simpl; try done; try lia; f_equal; lia.
Qed.

Lemma bwd_loop1 c t k st : 0 < c → 0 < t → 0 ≤ k → k + c * t ≤ n → at_bwd k st →
  wp (TLOOP1 t (bwd c) st) (at_bwd (k + c * t)).
Proof.
  intros Hc Ht Hk Hn Hst. unfold TLOOP1. assert (t < 2 ^ 32) by (destruct Hr; nia).
  apply (wp_loop _ (λ '(j, st), 0 < j ≤ t ∧ at_bwd (k + c * (t - j)) st) (λ '(j, _), Z.to_nat j)).
  - intros [j st'] [Hj Hst']. rewrite wrap_small by (unfold fits; lia).
    assert (at_bwd (k + c * (t - (j - 1))) (bwd c st')) as Hstep.
    { replace (k + c * (t - (j - 1))) with (k + c * (t - j) + c) by lia. apply bwd_step; try done; nia. }
    destruct (Z.eqb_spec (j - 1) 0) as [E|E]; simpl.
    + by replace (k + c * (t - (j - 1))) with (k + c * t) in Hstep by (rewrite E; lia).
    + split; [|lia]. split; [lia|done].
  - split; [lia|]. by replace (k + c * (t - t)) with k by lia.
  - lia.
Qed.

Lemma bwd_loop c t k st : 0 < c → 0 ≤ t → 0 ≤ k → k + c * t ≤ n → at_bwd k st →
  wp (TLOOP t (bwd c) st) (at_bwd (k + c * t)).
Proof.
  intros Hc Ht Hk Hn Hst. unfold TLOOP. destruct (Z.eqb_spec t 0) as [->|]; simpl.
  - by replace (k + c * 0) with k by lia.
  - apply bwd_loop1; try done. lia.
Qed.

Lemma copy_backward_ok : 0 < n →
  wp (copy_backward n (dst, src, m)) (λ '(_, _, m'), copied dst src n m m').
Proof.
  intros Hn. pose proof Hr as (? & ? & ? & ?). unfold copy_backward.
  rewrite (wrap_small 32 (src + n)), (wrap_small 32 (dst + n)) by (unfold fits; lia).
  assert (at_bwd 0 (dst + n, src + n, m)) as Hat0.
  { exists m. split; [f_equal; f_equal; lia|]. intros a. unfold blit. zcases; simpl; try done; lia. }
  assert (∀ x, Z.land x wmask = x mod 4) as Hland by (intros x; change wmask with (Z.ones 2); by rewrite Z.land_ones).
  apply wp_bind.
  assert (wp (if negb (Z.land (Z.lor (src + n) (dst + n)) wmask =? 0) then
      let t := if negb (Z.land (Z.lxor (src + n) (dst + n)) wmask =? 0) || (n <=? wsize) then n
               else Z.land (src + n) wmask in
      st ← TLOOP1 t (bwd 1) (dst + n, src + n, m); Ok (w32 (n - t), st) else Ok (n, (dst + n, src + n, m)))
    (λ '((len, st) : Z * cursor), ∃ k, 0 ≤ k ≤ n ∧ len = n - k ∧ at_bwd k st)) as Hhead.
  { destruct (Z.eqb_spec (Z.land (Z.lor (src + n) (dst + n)) wmask) 0) as [|Hlor]; simpl.
    { exists 0. split_and!; try lia. done. }
    cbv zeta. match goal with |- context [TLOOP1 ?e] => set (t := e) end. assert (0 < t ≤ n) as Ht.
    { unfold t. destruct (Z.eqb_spec (Z.land (Z.lxor (src + n) (dst + n)) wmask) 0) as [Hx|]; simpl; [|lia].
      unfold wsize. destruct (Z.leb_spec n 4); [lia|]. rewrite (Hland (src + n)).
      pose proof (Z.mod_pos_bound (src + n) 4). assert ((src + n) mod 4 ≠ 0); [|lia]. intros Hz. apply Hlor.
      apply (land_lor_0 (src + n) (dst + n) wmask); [by rewrite Hland|done]. }
    apply wp_bind. eapply wp_mono; [apply (bwd_loop1 1 t 0); try done; try lia|].
    intros st Hst. apply wp_ok. rewrite wrap_small by (unfold fits; lia).
    exists t. split_and!; try lia. by replace (0 + 1 * t) with t in Hst by lia. }
  eapply wp_mono; [exact Hhead|]. intros [len st] (k & Hk & -> & Hst). apply wp_bind.
  rewrite Hland. unfold wsize. pose proof (Z.div_mod (n - k) 4). pose proof (Z.mod_pos_bound (n - k) 4).
  assert (0 ≤ (n - k) / 4) by (apply Z.div_pos; lia).
  eapply wp_mono; [apply (bwd_loop 4 ((n - k) / 4) k); try done; lia|]. intros st' Hst'.
  eapply wp_mono; [apply (bwd_loop 1 ((n - k) mod 4) (k + 4 * ((n - k) / 4))); try done; lia|].
  intros [[d s] m'] (m'' & [= _ _ ->] & Hm).
  replace (k + 4 * ((n - k) / 4) + 1 * ((n - k) mod 4)) with n in Hm by lia.
  by replace (dst + n - n) with dst in Hm by lia; replace (src + n - n) with src in Hm by lia.
Qed.
End backward.

(** ** Theorems *)
Lemma forward_ok dst src n m : in_range dst src n → 0 < n → fwd_safe dst src n →
  wp ('(_, _, m') ← copy_forward n (dst, src, m); Ok (dst, m')) (λ '(r, m'), r = dst ∧ copied dst src n m m').
Proof.
  intros Hr Hn Hs. apply wp_bind. eapply wp_mono; [by apply copy_forward_ok; try lia|]. by intros [[d s] m'] Hm.
Qed.

Lemma copied_trivial dst src n m : n = 0 ∨ dst = src → copied dst src n m m.
Proof. intros H a. unfold blit. zcases; simpl; try done; try lia. f_equal. lia. Qed.

Lemma memcpy_ok dst src n m : in_range dst src n → 0 ≤ n → fwd_safe dst src n →
  wp (memcpy dst src n m) (λ '(r, m'), r = dst ∧ copied dst src n m m').
Proof.
  intros Hr Hn Hs. unfold memcpy. destruct (Z.eqb_spec n 0), (Z.eqb_spec dst src); cbn [orb];
    try (apply wp_ok; split; [done|apply copied_trivial; tauto]).
  apply forward_ok; [done|lia|done].
Qed.

Lemma memmove_ok dst src n m : in_range dst src n → 0 ≤ n →
  wp (memmove dst src n m) (λ '(r, m'), r = dst ∧ copied dst src n m m').
Proof.
  intros Hr Hn. unfold memmove. destruct (Z.eqb_spec n 0), (Z.eqb_spec dst src); cbn [orb];
    try (apply wp_ok; split; [done|apply copied_trivial; tauto]).
  destruct (Z.ltb_spec dst src); [apply forward_ok; try done; [lia|left; lia]|].
  apply wp_bind. eapply wp_mono; [by apply copy_backward_ok; try lia|]. by intros [[d s] m'] Hm.
Qed.

(** [memmove] copies [n] bytes correctly whatever the overlap and alignment
    of the two areas, and [memcpy] does so when the areas are disjoint or the
    destination starts at or below the source: afterwards the destination holds
    what the source held before the call, no other byte changes, and the result
    is the destination. *)
Theorem memory_copy_correct dst src n m :
  in_range dst src n → 0 ≤ n →
  wp (memmove dst src n m) (λ '(r, m'), r = dst ∧ copied dst src n m m') ∧
  (fwd_safe dst src n → wp (memcpy dst src n m) (λ '(r, m'), r = dst ∧ copied dst src n m m')).
Proof. intros Hr Hn. split; [by apply memmove_ok|by apply memcpy_ok]. Qed.

Lemma memory_copy_correct_witness :
  wp (memmove 0x1003 0x1001 7 (λ a, a mod 251)) (λ '(r, m'), copied 0x1003 0x1001 7 (λ a, a mod 251) m').
Proof.
  destruct (memory_copy_correct 0x1003 0x1001 7 (λ a, a mod 251)) as [H _].
  - by vm_compute.
  - lia.
  - eapply wp_mono; [exact H|]. by intros [r m'] [_ Hc].
Defined.

(** A string of [len] bytes and its terminator at [s]. *)
Definition cstr (m : mem) (s len : Z) : Prop :=
  0 ≤ s ∧ 0 ≤ len ∧ s + len + 1 < 2 ^ 32 ∧ (∀ i, 0 ≤ i < len → m (s + i) ≠ 0) ∧ m (s + len) = 0.

(** The destination after [k] bytes have been copied. *)
Definition prefix_copied (dst src k : Z) (m m' : mem) : Prop := ∀ a, m' a = blit dst src k m a.

Lemma strlcpy_copy_ok fuel m dst src dsize len :
  cstr m src len → 0 ≤ dst → 1 < dsize → dst + dsize < 2 ^ 32 → len + 1 < Z.of_nat fuel →
  (dst + dsize ≤ src ∨ src + len + 1 ≤ dst) →
  wp (loop fuel (λ '(d, s, n, m),
        let c := m s in
        let m := store d c m in
        let d := w32 (d + 1) in let s := w32 (s + 1) in
        if c =? 0 then Ok (inr (d, s, n, m))
        else
          let n := w32 (n - 1) in
          if negb (n =? 0) then Ok (inl (d, s, n, m)) else Ok (inr (d, s, n, m))) (dst, src, dsize - 1, m))
    (λ '(d, s, n, m'), ∃ k, d = dst + k ∧ s = src + k ∧ prefix_copied dst src k m m' ∧
       ((k = len + 1 ∧ n ≠ 0 ∧ len < dsize - 1) ∨ (k = dsize - 1 ∧ n = 0 ∧ k ≤ len))).
Proof.
  intros (Hs0 & Hl0 & Hsb & Hnz & Hz) Hd Hds Hdb Hf Hdis.
  apply (wp_loop _ (λ '(d, s, n, m'), ∃ k, 0 ≤ k ≤ len ∧ k < dsize - 1 ∧ d = dst + k ∧ s = src + k ∧ n = dsize - 1 - k ∧
      prefix_copied dst src k m m') (λ '(_, _, n, m'), Z.to_nat (len + 1 - (dsize - 1 - n)))).
  - intros [[[d s] n] m'] (k & Hk & Hkd & -> & -> & -> & Hm). cbv zeta.
    assert (m' (src + k) = m (src + k)) as Hrd.
    { rewrite Hm. unfold blit. zcases; simpl; try done. lia. }
    assert (prefix_copied dst src (k + 1) m (store (dst + k) (m' (src + k)) m')) as Hm'.
    { intros a. unfold store. rewrite Hrd. rewrite Hm. unfold blit. zcases; simpl; try done; try lia; f_equal; lia. }
    rewrite !wrap_small by (unfold fits; lia). rewrite Hrd in *.
    destruct (Z.eqb_spec (m (src + k)) 0) as [E|E].
    + assert (k = len) as ->. { destruct (decide (k < len)); [exfalso; apply (Hnz k); [lia|done]|lia]. }
      apply wp_ok. exists (len + 1). split_and!; try lia. done.
    + assert (k < len). { destruct (decide (k = len)) as [->|]; [done|lia]. }
      destruct (Z.eqb_spec (dsize - 1 - k - 1) 0); cbn [negb]; apply wp_ok.
      * exists (k + 1). split_and!; try lia. done.
      * split; [|lia]. exists (k + 1). split_and!; try lia. done.
  - exists 0. split_and!; try lia. intros a. unfold blit. zcases; simpl; try done; lia.
  - lia.
Qed.

(** C40. [strlcpy] with a source string of [len] characters and a destination that
    does not overlap it: it returns [len]; if the buffer is not empty it holds the
    first [min len (dsize - 1)] characters of the source followed by a terminator,
    and no byte outside those is written. *)
Theorem strlcpy_correct fuel m dst src dsize len :
  cstr m src len → 0 ≤ dst → 0 ≤ dsize → dst + dsize < 2 ^ 32 → len + 1 < Z.of_nat fuel →
  (dst + dsize ≤ src ∨ src + len + 1 ≤ dst) →
  wp (strlcpy fuel dst src dsize m) (λ '(r, m'), r = len ∧
    ∀ a, m' a = if dsize =? 0 then m a
                else if a =? dst + Z.min len (dsize - 1) then 0
                else blit dst src (Z.min len (dsize - 1)) m a).
Proof.
  intros Hstr Hd Hds Hdb Hf Hdis. pose proof Hstr as (Hs0 & Hl0 & Hsb & Hnz & Hz). unfold strlcpy.
  assert (∀ k m', 0 ≤ k ≤ len → (∀ i, k ≤ i ≤ len → m' (src + i) = m (src + i)) →
    wp (loop fuel (λ s, let c := m' s in let s := w32 (s + 1) in
                        if negb (c =? 0) then Ok (inl s) else Ok (inr s)) (src + k)) (λ s, s = src + len + 1)) as Hscan.
  { intros k m' Hk Hm'. apply (wp_loop _ (λ s, ∃ j, k ≤ j ≤ len ∧ s = src + j) (λ s, Z.to_nat (src + len - s))).
    - intros s (j & Hj & ->). cbv zeta. rewrite Hm', wrap_small by (unfold fits; lia).
      destruct (Z.eqb_spec (m (src + j)) 0) as [E|E]; cbn [negb]; apply wp_ok.
      + assert (j = len) as ->; [|lia]. destruct (decide (j < len)); [exfalso; apply (Hnz j); [lia|done]|lia].
      + assert (j ≠ len) by congruence. split; [exists (j + 1); lia|lia].
    - exists k. lia.
    - lia. }
  destruct (Z.eqb_spec dsize 0) as [->|Hne]; cbv zeta.
  { msimpl. rewrite Z.eqb_refl. cbn [negb]. apply wp_bind, wp_bind.
    pose proof (Hscan 0 m ltac:(lia) ltac:(done)) as Hsc. rewrite Z.add_0_r in Hsc.
    eapply wp_mono; [exact Hsc|].
    intros s ->. apply wp_ok, wp_ok. rewrite (wrap_small 32 (src + len + 1 - src)) by (unfold fits; lia).
    rewrite wrap_small by (unfold fits; lia). split; [lia|done]. }
  rewrite (wrap_small 32 (dsize - 1)) by (unfold fits; lia).
  destruct (Z.eqb_spec (dsize - 1) 0) as [E1|E1]; msimpl.
  { rewrite E1. cbn [Z.eqb negb]. apply wp_bind, wp_bind.
    assert (∀ i, 0 ≤ i ≤ len → store dst 0 m (src + i) = m (src + i)) as Hst.
    { intros i Hi. unfold store. rewrite (proj2 (Z.eqb_neq _ _)) by lia. done. }
    pose proof (Hscan 0 _ ltac:(lia) Hst) as Hsc. rewrite Z.add_0_r in Hsc.
    eapply wp_mono; [exact Hsc|]. intros s ->. apply wp_ok, wp_ok. rewrite (wrap_small 32 (src + len + 1 - src)) by (unfold fits; lia).
    rewrite wrap_small by (unfold fits; lia). split; [lia|]. intros a. unfold store, blit.
    replace (Z.min len 0) with 0 by lia. zcases; simpl; try done; lia. }
  apply wp_bind. eapply wp_mono; [apply (strlcpy_copy_ok fuel m dst src dsize len); try done; lia|].
  intros [[[d s] n] m'] (k & -> & -> & Hm & [(-> & Hn & Hlt)|(-> & -> & Hk)]); apply wp_bind.
  - rewrite (proj2 (Z.eqb_neq _ _) Hn). apply wp_ok, wp_ok.
    rewrite (wrap_small 32 (src + (len + 1) - src)) by (unfold fits; lia). rewrite wrap_small by (unfold fits; lia).
    split; [lia|]. intros a. rewrite Hm. unfold blit.
    replace (Z.min len (dsize - 1)) with len by lia.
    destruct (Z.eqb_spec a (dst + len)) as [->|Ha]; zcases; simpl; try done; try lia.
    by replace (src + (dst + len - dst)) with (src + len) by lia.
  - cbn [Z.eqb negb]. apply wp_bind. eapply wp_mono; [apply (Hscan (dsize - 1)); [lia|]|].
    + intros i Hi. unfold store. rewrite (proj2 (Z.eqb_neq _ _)) by lia. rewrite Hm. unfold blit. zcases; simpl; try done; lia.
    + intros s ->. apply wp_ok, wp_ok. rewrite (wrap_small 32 (src + len + 1 - src)) by (unfold fits; lia).
      rewrite wrap_small by (unfold fits; lia). split; [lia|]. intros a. unfold store. rewrite Hm.
      replace (Z.min len (dsize - 1)) with (dsize - 1) by lia. done.
Qed.

Lemma strlcpy_correct_witness :
  wp (strlcpy 10 0x2000 0x1000 3 (λ a, if (0x1000 <=? a) && (a <? 0x1005) then 0x61 else 0))
    (λ '(r, m'), r = 5).
Proof.
  eapply wp_mono; [apply (strlcpy_correct 10 _ 0x2000 0x1000 3 5); try lia|].
  - split_and!; try lia; [|done]. intros i Hi.
    rewrite (proj2 (Z.leb_le _ _)), (proj2 (Z.ltb_lt _ _)) by lia. done.
  - intros [r m'] [H _]. exact H.
Defined.

(** [memcmp] is 0 exactly for equal areas; otherwise it is the difference of the
    first bytes that differ. *)
Lemma memcmp_correct m s1 s2 n : in_range s1 s2 n → 0 ≤ n →
  wp (memcmp m s1 s2 n) (λ r,
    (r = 0 ∧ ∀ i, 0 ≤ i < n → m (s1 + i) = m (s2 + i)) ∨
    (∃ k, 0 ≤ k < n ∧ (∀ i, 0 ≤ i < k → m (s1 + i) = m (s2 + i)) ∧
       m (s1 + k) ≠ m (s2 + k) ∧ r = m (s1 + k) - m (s2 + k))).
Proof.
  intros (Ha & Hb & Hc & Hd) Hn. unfold memcmp. apply wp_bind.
  apply (wp_loop _ (λ '(l, r, j), 0 ≤ j ≤ n ∧ l = s1 + (n - j) ∧ r = s2 + (n - j) ∧
      ∀ i, 0 ≤ i < n - j → m (s1 + i) = m (s2 + i)) (λ '(_, _, j), Z.to_nat j)).
  - intros [[l r] j] (Hj & -> & -> & Heq). destruct (Z.eqb_spec j 0) as [->|Hj0]; cbn [negb andb].
    + apply wp_ok, wp_ok. cbn [negb Z.eqb]. left. split; [done|]. intros i Hi. apply Heq. lia.
    + destruct (Z.eqb_spec (m (s1 + (n - j))) (m (s2 + (n - j)))) as [E|E]; apply wp_ok.
      * rewrite !wrap_small by (unfold fits; lia). split; [|lia]. split_and!; try lia.
        intros i Hi. destruct (decide (i = n - j)) as [->|]; [done|]. apply Heq. lia.
      * apply wp_ok. rewrite (proj2 (Z.eqb_neq _ _) Hj0). cbn [negb]. right. exists (n - j).
        split_and!; try lia; done.
  - split_and!; try lia.
  - lia.
Qed.

(** [strcmp] is 0 exactly for equal strings. *)
Lemma strcmp_correct fuel m s1 s2 l1 l2 :
  cstr m s1 l1 → cstr m s2 l2 → l1 + 1 < Z.of_nat fuel →
  wp (strcmp fuel m s1 s2) (λ r,
    (r = 0 ∧ l1 = l2 ∧ ∀ i, 0 ≤ i < l1 → m (s1 + i) = m (s2 + i)) ∨
    (r ≠ 0 ∧ ∃ k, 0 ≤ k ≤ Z.min l1 l2 ∧ (∀ i, 0 ≤ i < k → m (s1 + i) = m (s2 + i)) ∧
       r = m (s1 + k) - m (s2 + k))).
Proof.
  intros (Ha & Hb & Hc & Hd & He) (Fa & Fb & Fc & Fd & Fe) Hf. unfold strcmp.
  apply (wp_loop _ (λ '(p, q), ∃ k, 0 ≤ k ≤ l1 ∧ k ≤ l2 ∧ p = s1 + k ∧ q = s2 + k ∧
      ∀ i, 0 ≤ i < k → m (s1 + i) = m (s2 + i)) (λ '(p, _), Z.to_nat (s1 + l1 - p))).
  - intros [p q] (k & Hk & Hk2 & -> & -> & Heq). cbv zeta.
    rewrite (wrap_small 32 (s2 + k + 1)) by (unfold fits; lia).
    destruct (Z.eqb_spec (m (s1 + k)) (m (s2 + k))) as [E|E].
    + destruct (Z.eqb_spec (m (s1 + k)) 0) as [E0|E0]; apply wp_ok.
      * left. assert (k = l1) by (destruct (decide (k < l1)); [exfalso; apply (Hd k); [lia|done]|lia]).
        assert (k = l2) by (destruct (decide (k < l2)); [exfalso; apply (Fd k); [lia|congruence]|lia]).
        split_and!; try lia. intros i Hi. apply Heq. lia.
      * assert (k ≠ l1) by congruence. assert (k ≠ l2) by congruence.
        rewrite wrap_small by (unfold fits; lia). split; [|lia]. exists (k + 1). split_and!; try lia.
        intros i Hi. destruct (decide (i = k)) as [->|]; [done|]. apply Heq. lia.
    + replace (w32 (s2 + k + 1 - 1)) with (s2 + k) by (rewrite wrap_small by (unfold fits; lia); lia).
      apply wp_ok. right. split; [lia|]. exists k. split_and!; try lia. done.
  - exists 0. split_and!; try lia.
  - lia.
Qed.
