(* ===== verification/Palloc.v ===== *)
(** * The page block allocator

    kern/mm/pmm/palloc.c: a list of free blocks, sorted by physical address,
    between the static nodes [h] and [t].  [alloc] is first fit; [free] inserts
    the block and joins it with its neighbours; [page_allocator_move] rebuilds
    the list in nodes of the current object allocator.

    The blocks are [struct mem_block] objects obtained from [kmalloc]: the
    definitions take the object allocator as a [Kmem], and the theorems hold for
    every one that satisfies [KmemLaws].  The specification is a list of
    [(paddr, size)] pairs with the functions [first_fit] and [put_block]; [rep]
    relates a heap of nodes to such a list. *)
From S2P Require Import Prelude Util DList MmState.

(** ** Accesses to the fields of a [struct mem_block] *)
Definition blk (w : world) (p : Z) : res pages := of_option BadPtr (mb_pages (pa w) !! p).

Definition with_links (L : links) (w : world) : world :=
  upd_pa (λ s, Palloc L (mb_pages s) (phead s) (ptail s) (free_size s)) w.
Definition with_blk (p : Z) (b : pages) (w : world) : world :=
  upd_pa (λ s, Palloc (mb_links s) (<[p := b]> (mb_pages s)) (phead s) (ptail s) (free_size s)) w.
Definition on_links (f : links → res links) (w : world) : res world :=
  L ← f (mb_links (pa w)); Ok (with_links L w).

Definition set_blk (p : Z) (b : pages) (w : world) : res world :=
  match mb_pages (pa w) !! p with
  | Some _ => Ok (with_blk p b w)
  | None => Err BadPtr
  end.

Definition set_free_size (v : Z) (w : world) : world :=
  upd_pa (λ s, Palloc (mb_links s) (mb_pages s) (phead s) (ptail s) v) w.

(** The lifetime of a node: it enters the store with the content of its memory
    when [kmalloc] returns it, and leaves the store when it is passed to
    [kfree]. *)
Definition enter (p : Z) (kb : link * pages) (w : world) : world :=
  upd_pa (λ s, Palloc (<[p := kb.1]> (mb_links s)) (<[p := kb.2]> (mb_pages s))
                 (phead s) (ptail s) (free_size s)) w.
Definition leave (p : Z) (w : world) : world :=
  upd_pa (λ s, Palloc (delete p (mb_links s)) (delete p (mb_pages s))
                 (phead s) (ptail s) (free_size s)) w.

Section ops.
Context {K : Kmem}.

Definition free_block (a : Z) (w : world) : res world :=
  _ ← blk w a; kfree_ a (leave a w).

(** [a->prev->next = a->next; a->next->prev = a->prev;] *)
Definition unlink (a : Z) (w : world) : res world :=
  w ← on_links (λ L, p ← get_prev L a; n ← get_next L a; set_next p n L) w;
  on_links (λ L, n ← get_next L a; p ← get_prev L a; set_prev n p L) w.

(** [a->next->next->prev = a; i = a->next; a->next = a->next->next;], with the
    value of [i]. *)
Definition skip_next (a : Z) (w : world) : res (Z * world) :=
  w ← on_links (λ L, n ← get_next L a; nn ← get_next L n; set_prev nn a L) w;
  i ← get_next (mb_links (pa w)) a;
  w ← on_links (λ L, n ← get_next L a; nn ← get_next L n; set_next a nn L) w;
  Ok (i, w).

(** [a->prev = i->prev; a->next = i; i->prev->next = a; i->prev = a;] *)
Definition insert_before (a i : Z) (w : world) : res world :=
  w ← on_links (λ L, p ← get_prev L i; set_prev a p L) w;
  w ← on_links (λ L, set_next a i L) w;
  w ← on_links (λ L, p ← get_prev L i; set_next p a L) w;
  on_links (λ L, set_prev i a L) w.

(** [static inline int alloc(struct pages *pages)] *)
Definition alloc (pg : pages) (w : world) : res (Z * pages * world) :=
  if negb (psize pg mod PAGE_SIZE =? 0) then Ok (-1, pg, w)
  else if free_size (pa w) <? psize pg then Ok (-1, pg, w)
  else
    let L := mb_links (pa w) in
    n ← get_next L (phead (pa w));
    a ← walk get_next L (λ a, b ← blk w a; Ok (psize pg <=? psize b)) (ptail (pa w)) n;
    if a =? ptail (pa w) then Ok (-1, pg, w)
    else
      b ← blk w a;
      let pg := Pages (paddr b) (psize pg) (pflags pg) in
      let b := Pages (w64 (paddr b + psize pg)) (w64 (psize b - psize pg)) (pflags b) in
      w ← set_blk a b w;
      w ← (if psize b =? 0 then w ← unlink a w; free_block a w else Ok w);
      Ok (0, pg, set_free_size (w64 (free_size (pa w) - psize pg)) w).

(** The two halves of [free] after the insertion: joining with the block before
    (the new current node is delivered) and with the block after. *)
Definition join_prev (a : Z) (w : world) : res (Z * world) :=
  p ← get_prev (mb_links (pa w)) a;
  b ← blk w a;
  c ← (if p =? phead (pa w) then Ok false
       else q ← blk w p; Ok (w64 (paddr q + psize q) =? paddr b));
  if (c : bool) then
    q ← blk w p;
    w ← set_blk p (Pages (paddr q) (w64 (psize q + psize b)) (pflags q)) w;
    w ← unlink a w;
    i ← get_prev (mb_links (pa w)) a;
    w ← free_block a w;
    Ok (i, w)
  else Ok (a, w).

Definition join_next (a : Z) (w : world) : res world :=
  n ← get_next (mb_links (pa w)) a;
  b ← blk w a;
  c ← (if n =? ptail (pa w) then Ok false
       else q ← blk w n; Ok (w64 (paddr b + psize b) =? paddr q));
  if (c : bool) then
    q ← blk w n;
    w ← set_blk a (Pages (paddr b) (w64 (psize b + psize q)) (pflags b)) w;
    '(i, w) ← skip_next a w;
    free_block i w
  else Ok w.

(** [static inline void free(struct pages *pages)] *)
Definition free (pg : pages) (w : world) : res world :=
  if negb (psize pg mod PAGE_SIZE =? 0) then Ok w
  else if negb (psize pg mod PAGE_SIZE =? 0) then Ok w
  else
    '(a, w) ← kmalloc_ SIZEOF_MEM_BLOCK 0 w;
    if a =? NULL then Err Panicked
    else
      let w := enter a (junk_ a w) w in
      b ← blk w a; w ← set_blk a (Pages (paddr pg) (psize b) (pflags b)) w;
      b ← blk w a; w ← set_blk a (Pages (paddr b) (psize pg) (pflags b)) w;
      let L := mb_links (pa w) in
      n ← get_next L (phead (pa w));
      i ← walk get_next L (λ i, x ← blk w i; y ← blk w a; Ok (paddr y <=? paddr x))
            (ptail (pa w)) n;
      w ← insert_before a i w;
      '(a, w) ← join_prev a w;
      w ← join_next a w;
      Ok (set_free_size (w64 (free_size (pa w) + psize pg)) w).

Definition get_free (w : world) : Z := free_size (pa w).

(** [page_allocator_init], with [&h] and [&t] as arguments; the allocator copied
    by [set_page_allocator] is this one. *)
Definition page_allocator_init (h t : Z) (w : world) : res (Z * world) :=
  let w := upd_pa (λ s, Palloc (mb_links s) (mb_pages s) h t 0) w in
  w ← on_links (set_next (ptail (pa w)) NULL) w;
  w ← on_links (set_prev (phead (pa w)) NULL) w;
  w ← on_links (set_next (phead (pa w)) (ptail (pa w))) w;
  w ← on_links (set_prev (ptail (pa w)) (phead (pa w))) w;
  Ok (0, set_page_cur PallocPages w).

(** [page_allocator_move(old)]: [old_free] is [old->free]. *)
Definition page_allocator_move (old_free : Z → world → res world) (w : world) : res (Z * world) :=
  n ← get_next (mb_links (pa w)) (phead (pa w));
  loop (S (size (mb_links (pa w)))) (λ '(now, w),
    if now =? ptail (pa w) then Ok (inr (0, w))
    else
      '(new, w) ← kmalloc_ SIZEOF_MEM_BLOCK 0 w;
      if new =? NULL then Err Panicked
      else
        let w := enter new (junk_ new w) w in
        x ← blk w now; b ← blk w new; w ← set_blk new (Pages (paddr x) (psize b) (pflags b)) w;
        x ← blk w now; b ← blk w new; w ← set_blk new (Pages (paddr b) (psize x) (pflags b)) w;
        w ← on_links (λ L, p ← get_prev L now; set_prev new p L) w;
        w ← on_links (λ L, n ← get_next L now; set_next new n L) w;
        w ← on_links (λ L, p ← get_prev L now; set_next p new L) w;
        w ← on_links (λ L, n ← get_next L now; set_prev n new L) w;
        _ ← blk w now; w ← old_free now (leave now w);
        n ← get_next (mb_links (pa w)) new;
        Ok (inl (n, w))) (n, w).

End ops.

(** ** Specification: lists of free blocks *)
Abbreviation blocks := (list (Z * Z)).

Fixpoint first_fit (sz : Z) (bs : blocks) : option (Z * blocks) :=
  match bs with
  | [] => None
  | (p, s) :: r =>
    if sz <=? s then Some (p, if s - sz =? 0 then r else (p + sz, s - sz) :: r)
    else match first_fit sz r with Some (q, r') => Some (q, (p, s) :: r') | None => None end
  end.

(** Put a block in front of [bs], joining it with the first one if they touch. *)
Definition glue (p s : Z) (bs : blocks) : blocks :=
  match bs with
  | (q, t) :: r => if p + s =? q then (p, s + t) :: r else (p, s) :: bs
  | [] => [(p, s)]
  end.

Fixpoint put_block (p s : Z) (bs : blocks) : blocks :=
  match bs with
  | [] => [(p, s)]
  | (q, t) :: r =>
    if p <=? q then glue p s bs
    else if q + t =? p then glue q (t + s) r
    else (q, t) :: put_block p s r
  end.

Fixpoint total (bs : blocks) : Z :=
  match bs with [] => 0 | (_, s) :: r => s + total r end.

(** The bytes that are free. *)
Definition avail (bs : blocks) (x : Z) : Prop := ∃ p s, (p, s) ∈ bs ∧ p ≤ x < p + s.

(** Blocks above [lo]: page-aligned, not empty, below 2^64, sorted, and no two of
    them touch. *)
Fixpoint wf (lo : Z) (bs : blocks) : Prop :=
  match bs with
  | [] => True
  | (p, s) :: r =>
    lo < p ∧ 0 < s ∧ p mod PAGE_SIZE = 0 ∧ s mod PAGE_SIZE = 0 ∧ p + s < 2 ^ 64 ∧ wf (p + s) r
  end.

(** Propositional reasoning about [avail] up to linear arithmetic. *)
Ltac split_lia :=
  match goal with
  | |- _ ↔ _ => split; split_lia
  | |- _ → _ => intros ?; split_lia
  | H : _ ∨ _ |- _ => destruct H; split_lia
  | |- ?P ∨ ?Q => first [solve [left; split_lia] | solve [right; split_lia] |
      match goal with |- context [?a ≤ ?x < ?b] => destruct (Z.lt_ge_cases x b);
        [solve [left; split_lia | right; split_lia]..] end]
  | _ => first [done | lia]
  end.

Lemma avail_nil x : ¬ avail [] x.
Proof. intros (p & s & Hin & _). by apply elem_of_nil in Hin. Qed.

Lemma avail_cons p s bs x : avail ((p, s) :: bs) x ↔ p ≤ x < p + s ∨ avail bs x.
Proof.
  unfold avail. split.
  - intros (q & t & [[= -> ->]|Hin]%elem_of_cons & Hx); [by left|right; eauto].
  - intros [Hx|(q & t & Hin & Hx)]; [exists p, s|exists q, t]; split; try done; [left|by right].
Qed.

Lemma avail_app bs1 bs2 x : avail (bs1 ++ bs2) x ↔ avail bs1 x ∨ avail bs2 x.
Proof. unfold avail. set_solver. Qed.

Lemma wf_weaken lo lo' bs : lo' ≤ lo → wf lo bs → wf lo' bs.
Proof. destruct bs as [|[p s] r]; simpl; [done|]. intuition lia. Qed.

Lemma wf_above lo bs x : wf lo bs → avail bs x → lo < x.
Proof.
  revert lo. induction bs as [|[p s] r IH]; simpl; intros lo Hwf Hx; [by apply avail_nil in Hx|].
  apply avail_cons in Hx as [Hx|Hx]; [lia|]. apply (IH (p + s)) in Hx; [lia|tauto].
Qed.

Lemma total_nonneg lo bs : wf lo bs → 0 ≤ total bs.
Proof.
  revert lo. induction bs as [|[p s] r IH]; simpl; intros lo Hwf; [done|].
  assert (0 ≤ total r) by (apply (IH (p + s)); tauto). lia.
Qed.

Lemma total_below lo bs : wf lo bs → bs ≠ [] → total bs < 2 ^ 64 - (lo + 1).
Proof.
  revert lo. induction bs as [|[p s] r IH]; simpl; intros lo Hwf Hne; [done|].
  destruct r as [|b r]; [simpl; lia|].
  assert (total (b :: r) < 2 ^ 64 - (p + s + 1)) by (apply IH; [tauto|done]). lia.
Qed.

Lemma wf_elem lo bs p s : wf lo bs → (p, s) ∈ bs → lo < p ∧ 0 < s ∧ p + s < 2 ^ 64.
Proof.
  revert lo. induction bs as [|[q t] r IH]; simpl; intros lo Hwf Hin; [by apply elem_of_nil in Hin|].
  apply elem_of_cons in Hin as [[= -> ->]|Hin]; [lia|].
  destruct (IH (q + t)) as (? & ? & ?); [tauto|done|lia].
Qed.

Lemma first_fit_none sz bs : first_fit sz bs = None → ∀ p s, (p, s) ∈ bs → s < sz.
Proof.
  induction bs as [|[q t] r IH]; simpl; intros Hf p s Hin; [by apply elem_of_nil in Hin|].
  destruct (Z.leb_spec sz t); [done|]. destruct (first_fit sz r) as [[??]|]; [done|].
  apply elem_of_cons in Hin as [[= -> ->]|Hin]; [lia|by eapply IH].
Qed.

Lemma first_fit_total sz lo bs q bs' : wf lo bs → first_fit sz bs = Some (q, bs') → sz ≤ total bs.
Proof.
  revert lo q bs'. induction bs as [|[p s] r IH]; simpl; intros lo q bs' Hwf Hf; [done|].
  pose proof (total_nonneg (p + s) r ltac:(tauto)).
  destruct (Z.leb_spec sz s); [lia|]. destruct (first_fit sz r) as [[q' r']|] eqn:E; [|done].
  assert (sz ≤ total r) by (eapply (IH (p + s)); [tauto|done]). lia.
Qed.

Lemma first_fit_wf sz lo bs q bs' :
  wf lo bs → 0 < sz → sz mod PAGE_SIZE = 0 → first_fit sz bs = Some (q, bs') →
  wf lo bs' ∧ total bs' = total bs - sz ∧ q mod PAGE_SIZE = 0 ∧ lo < q ∧ q + sz < 2 ^ 64.
Proof.
  intros Hwf Hsz Hm. revert lo q bs' Hwf.
  induction bs as [|[p s] r IH]; simpl; intros lo q bs' Hwf Hf; [done|].
  destruct Hwf as (H1 & H2 & H3 & H4 & H5 & H6). destruct (Z.leb_spec sz s).
  - injection Hf as <- <-. destruct (Z.eqb_spec (s - sz) 0); simpl.
    + split_and!; try lia. by eapply wf_weaken; [|done]; lia.
    + unfold PAGE_SIZE in *. split_and!; try lia.
      * rewrite Z.add_mod, H3, Hm by lia. done.
      * rewrite Zminus_mod, H4, Hm. done.
      * by replace (p + sz + (s - sz)) with (p + s) by lia.
  - destruct (first_fit sz r) as [[q' r']|] eqn:E; [|done]. injection Hf as <- <-.
    destruct (IH (p + s) q' r' H6 eq_refl) as (Hw & Ht & Hq & Hl & Hb). simpl. split_and!; try lia; try done.
Qed.

Lemma first_fit_avail sz lo bs q bs' :
  wf lo bs → 0 < sz → first_fit sz bs = Some (q, bs') →
  (∀ x, avail bs x ↔ avail bs' x ∨ q ≤ x < q + sz) ∧ (∀ x, q ≤ x < q + sz → ¬ avail bs' x).
Proof.
  intros Hwf Hsz. revert lo q bs' Hwf.
  induction bs as [|[p s] r IH]; simpl; intros lo q bs' Hwf Hf; [done|].
  destruct Hwf as (H1 & H2 & H3 & H4 & H5 & H6). destruct (Z.leb_spec sz s).
  - injection Hf as <- <-. destruct (Z.eqb_spec (s - sz) 0); split; intros x.
    + rewrite avail_cons. split_lia.
    + intros Hx Ha%(wf_above _ _ _ H6). lia.
    + rewrite !avail_cons. split_lia.
    + intros Hx [Ha|Ha]%avail_cons; [lia|]. apply (wf_above _ _ _ H6) in Ha. lia.
  - destruct (first_fit sz r) as [[q' r']|] eqn:E; [|done]. injection Hf as <- <-.
    destruct (IH (p + s) q' r' H6 eq_refl) as [Ha Hd]. split; intros x.
    + rewrite !avail_cons, Ha. tauto.
    + intros Hx [Hb|Hb]%avail_cons; [|by apply (Hd x)].
      assert (avail r x) as Hr%(wf_above _ _ _ H6) by (apply Ha; by right). lia.
Qed.

Lemma glue_avail p s bs x : 0 ≤ s → (∀ q t, (q, t) ∈ bs → 0 ≤ t) →
  avail (glue p s bs) x ↔ p ≤ x < p + s ∨ avail bs x.
Proof.
  intros Hs Hbs. destruct bs as [|[q t] r]; simpl; [by rewrite avail_cons|].
  assert (0 ≤ t) by (apply (Hbs q); left).
  destruct (Z.eqb_spec (p + s) q) as [<-|]; rewrite !avail_cons; [|done]. split_lia.
Qed.

Lemma glue_wf lo p s bs : lo < p → 0 < s → p mod PAGE_SIZE = 0 → s mod PAGE_SIZE = 0 → p + s < 2 ^ 64 →
  (∀ x, p ≤ x < p + s → ¬ avail bs x) → wf (p - 1) bs →
  wf lo (glue p s bs) ∧ total (glue p s bs) = s + total bs.
Proof.
  intros H1 H2 H3 H4 H5 Hd Hwf. destruct bs as [|[q t] r]; simpl; [done|].
  destruct Hwf as (G1 & G2 & G3 & G4 & G5 & G6).
  assert (p + s ≤ q).
  { destruct (decide (p + s ≤ q)); [done|]. exfalso. apply (Hd q); [lia|]. apply avail_cons. left; lia. }
  destruct (Z.eqb_spec (p + s) q) as [<-|]; simpl.
  - unfold PAGE_SIZE in *. split_and!; try lia.
    + rewrite Z.add_mod, H4, G4 by lia. done.
    + by rewrite Z.add_assoc.
  - split_and!; try lia; done.
Qed.

Lemma put_block_wf lo p s bs : wf lo bs → lo < p → 0 < s → p mod PAGE_SIZE = 0 → s mod PAGE_SIZE = 0 →
  p + s < 2 ^ 64 → (∀ x, p ≤ x < p + s → ¬ avail bs x) →
  wf lo (put_block p s bs) ∧ total (put_block p s bs) = s + total bs ∧
  (∀ x, avail (put_block p s bs) x ↔ p ≤ x < p + s ∨ avail bs x).
Proof.
  intros Hwf Hlo H2 H3 H4 H5. revert lo Hwf Hlo.
  induction bs as [|[q t] r IH]; intros lo Hwf Hlo Hd.
  { simpl. split_and!; try done. intros x. by rewrite avail_cons. }
  assert (∀ q' t', (q', t') ∈ (q, t) :: r → 0 ≤ t') as Hsz.
  { intros q' t' Hin. destruct (wf_elem _ _ _ _ Hwf Hin). lia. }
  cbn [put_block]. destruct (Z.leb_spec p q).
  { destruct (glue_wf lo p s ((q, t) :: r)) as [Hw Ht]; try done.
    - simpl in *. split_and!; try tauto. lia.
    - split_and!; [done|done|]. intros x. apply glue_avail; [lia|done]. }
  destruct Hwf as (G1 & G2 & G3 & G4 & G5 & G6).
  assert (q + t ≤ p).
  { destruct (decide (q + t ≤ p)); [done|]. exfalso. apply (Hd p); [lia|]. apply avail_cons. left; lia. }
  assert (∀ x, p ≤ x < p + s → ¬ avail r x) as Hdr.
  { intros x Hx Ha. apply (Hd x Hx). apply avail_cons. by right. }
  destruct (Z.eqb_spec (q + t) p) as [<-|].
  - destruct (glue_wf lo q (t + s) r) as [Hw Ht]; try lia; try done.
    + unfold PAGE_SIZE in *. rewrite Z.add_mod, H4, G4 by lia. done.
    + intros x Hx Ha. destruct (decide (q + t ≤ x)); [apply (Hdr x); [lia|done]|].
      apply (wf_above _ _ _ G6) in Ha. lia.
    + eapply wf_weaken; [|done]. split_lia.
    + split_and!; [done|simpl; lia|]. intros x.
      rewrite glue_avail, avail_cons; [|lia|intros q' t' Hin; apply (Hsz q'); by right]. split_lia.
  - destruct (IH (q + t) G6) as (Hw & Ht & Ha); [lia|done|].
    simpl. split_and!; try done; try lia. intros x. rewrite !avail_cons, Ha. tauto.
Qed.

(** [bs'] is [bs] without the range of [sz] bytes at [q], all of which was free. *)
Definition taken (q sz : Z) (bs bs' : blocks) : Prop :=
  (∀ x, avail bs x ↔ avail bs' x ∨ q ≤ x < q + sz) ∧ (∀ x, q ≤ x < q + sz → ¬ avail bs' x).

(** Two well-formed lists of blocks with the same free bytes are equal. *)
Lemma wf_unique lo bs1 bs2 : wf lo bs1 → wf lo bs2 → (∀ x, avail bs1 x ↔ avail bs2 x) → bs1 = bs2.
Proof.
  revert lo bs2. induction bs1 as [|[p s] r IH]; intros lo [|[q t] u] H1 H2 Ha; [done|..].
  { exfalso. apply (avail_nil q), Ha, avail_cons. left. simpl in H2. lia. }
  { exfalso. apply (avail_nil p), Ha, avail_cons. left. simpl in H1. lia. }
  destruct H1 as (_ & Hs & _ & _ & _ & H1), H2 as (_ & Ht & _ & _ & _ & H2).
  assert (∀ x, avail ((p, s) :: r) x → p ≤ x) as Hp.
  { intros x [?|Hx%(wf_above _ _ _ H1)]%avail_cons; lia. }
  assert (∀ x, avail ((q, t) :: u) x → q ≤ x) as Hq.
  { intros x [?|Hx%(wf_above _ _ _ H2)]%avail_cons; lia. }
  assert (p = q) as <-.
  { apply Z.le_antisymm; [apply Hp, Ha|apply Hq, Ha]; apply avail_cons; left; lia. }
  assert (¬ avail ((p, s) :: r) (p + s)) as Hns.
  { intros [?|Hx%(wf_above _ _ _ H1)]%avail_cons; lia. }
  assert (¬ avail ((p, t) :: u) (p + t)) as Hnt.
  { intros [?|Hx%(wf_above _ _ _ H2)]%avail_cons; lia. }
  assert (s = t) as <-.
  { destruct (Z.lt_trichotomy s t) as [Hlt|[?|Hlt]]; [|done|]; exfalso.
    - apply Hns, Ha, avail_cons. left; lia.
    - apply Hnt, Ha, avail_cons. left; lia. }
  f_equal. apply (IH (p + s)); [done|done|]. intros x. specialize (Ha x). rewrite !avail_cons in Ha.
  split; intros Hx.
  - destruct Ha as [Ha _]. apply (wf_above _ _ _ H1) in Hx as Hx'. destruct Ha; [by right|lia|done].
  - destruct Ha as [_ Ha]. apply (wf_above _ _ _ H2) in Hx as Hx'. destruct Ha; [by right|lia|done].
Qed.

(** Freeing what [first_fit] took gives the original blocks back. *)
Lemma put_first_fit sz bs q bs' : wf (-1) bs → 0 < sz → sz mod PAGE_SIZE = 0 →
  first_fit sz bs = Some (q, bs') → put_block q sz bs' = bs.
Proof.
  intros Hwf Hsz Hm Hff. destruct (first_fit_wf _ _ _ _ _ Hwf Hsz Hm Hff) as (Hwf' & _ & Hq & Hq0 & Hqb).
  destruct (first_fit_avail _ _ _ _ _ Hwf Hsz Hff) as [Ha Hd].
  destruct (put_block_wf (-1) q sz bs') as (Hw & _ & Hp); try done.
  apply (wf_unique (-1)); [done|done|]. intros x. rewrite Hp, Ha. tauto.
Qed.

(** Evaluate field accesses and monadic steps, and nothing else. *)
Ltac wsimpl :=
  cbn [pa page_cur bp sl simple_cur bytes mb_links mb_pages phead ptail free_size
       paddr psize pflags upd_pa upd_bp upd_sl upd_bytes with_links with_blk with_block enter leave
       set_free_size set_page_cur set_simple_cur fst snd mbind res_bind of_option].

(** ** The nodes that represent a list of blocks *)
Abbreviation nblocks := (list (Z * (Z * Z))).

Record rep (s : palloc) (l : nblocks) : Prop := Rep {
  rep_chain : chain (mb_links s) (phead s :: l.*1 ++ [ptail s]);
  rep_nodup : NoDup (phead s :: l.*1 ++ [ptail s]);
  rep_blk n p z : (n, (p, z)) ∈ l → ∃ f, mb_pages s !! n = Some (Pages p z f) }.

Lemma NoDup_simple (xs : list Z) : NoDup xs → simple xs.
Proof.
  intros Hnd. split.
  - destruct xs as [|x xs] using rev_ind; [done|]. rewrite removelast_snoc.
    by apply NoDup_app in Hnd as [? _].
  - destruct xs; [done|]. by apply NoDup_cons in Hnd as [_ ?].
Qed.

Lemma nodes_app (h t : Z) (l1 l2 : nblocks) :
  h :: (l1 ++ l2).*1 ++ [t] = (h :: l1.*1) ++ (l2.*1 ++ [t]).
Proof. by rewrite fmap_app, <- app_assoc. Qed.
Lemma nodes_mid (h t : Z) (l1 : nblocks) nb l2 :
  h :: (l1 ++ nb :: l2).*1 ++ [t] = (h :: l1.*1) ++ nb.1 :: (l2.*1 ++ [t]).
Proof. by rewrite nodes_app. Qed.

(** The neighbours of a position in the list. *)
Definition before (s : palloc) (l : nblocks) : Z := default (phead s) (last l.*1).
Definition after (s : palloc) (l : nblocks) : Z := hd (ptail s) l.*1.

Lemma before_snoc s l nb : before s (l ++ [nb]) = nb.1.
Proof. unfold before. rewrite fmap_app. simpl. by rewrite last_snoc. Qed.

Lemma around s (l1 l2 : nblocks) : ∃ xs ys,
  phead s :: l1.*1 = xs ++ [before s l1] ∧ l2.*1 ++ [ptail s] = after s l2 :: ys ∧
  phead s :: (l1 ++ l2).*1 ++ [ptail s] = xs ++ before s l1 :: after s l2 :: ys.
Proof.
  assert (∃ xs, phead s :: l1.*1 = xs ++ [before s l1]) as [xs Exs].
  { unfold before. destruct (l1.*1) as [|x l] using rev_ind; [by exists []|].
    exists (phead s :: l). by rewrite last_snoc. }
  assert (∃ ys, l2.*1 ++ [ptail s] = after s l2 :: ys) as [ys Eys].
  { unfold after. destruct (l2.*1); simpl; eauto. }
  exists xs, ys. split_and!; [done|done|].
  rewrite nodes_app, Eys, Exs. by rewrite <- app_assoc.
Qed.

Lemma around_node s (l1 : nblocks) nb l2 : ∃ xs ys,
  phead s :: l1.*1 = xs ++ [before s l1] ∧ l2.*1 ++ [ptail s] = after s l2 :: ys ∧
  phead s :: (l1 ++ nb :: l2).*1 ++ [ptail s] = xs ++ before s l1 :: nb.1 :: after s l2 :: ys.
Proof.
  destruct (around s l1 l2) as (xs & ys & Exs & Eys & _). exists xs, ys. split_and!; [done|done|].
  rewrite nodes_mid, Eys, Exs. by rewrite <- app_assoc.
Qed.

Lemma rep_dom s l n : rep s l → n ∈ phead s :: l.*1 ++ [ptail s] → n ∈ dom (mb_links s).
Proof.
  intros [Hc _ _] Hn. eapply chain_dom; [|exact Hc|done]. simpl. rewrite length_app. simpl. lia.
Qed.

Lemma rep_node s l1 nb l2 : rep s (l1 ++ nb :: l2) →
  get_prev (mb_links s) nb.1 = Ok (before s l1) ∧ get_next (mb_links s) nb.1 = Ok (after s l2) ∧
  nb.1 ≠ before s l1 ∧ nb.1 ≠ after s l2 ∧ nb.1 ≠ phead s ∧ nb.1 ≠ ptail s.
Proof.
  intros [Hc Hnd _]. destruct (around_node s l1 nb l2) as (xs & ys & Exs & Eys & E).
  pose proof Hnd as Hnd2. rewrite E in Hc, Hnd. apply chain_pair in Hc as (_ & H1 & H2 & (H3 & H4 & _)).
  rewrite nodes_mid, <- Permutation_middle, NoDup_cons in Hnd2. destruct Hnd2 as [Hn _].
  split_and!; [done|done| | | |].
  - intros Hx. apply Hn. simpl in Exs. apply elem_of_app. left. rewrite Exs, Hx. set_solver.
  - intros Hx. apply Hn. apply elem_of_app. right. rewrite Eys, Hx. set_solver.
  - intros Hx. apply Hn. rewrite Hx. left.
  - intros Hx. apply Hn. rewrite Hx. set_solver.
Qed.

Lemma rep_head_next s l : rep s l → get_next (mb_links s) (phead s) = Ok (after s l).
Proof. intros [Hc _ _]. unfold after. destruct l; simpl in *; tauto. Qed.

Lemma rep_fresh s l1 nb l2 : rep s (l1 ++ nb :: l2) → nb.1 ∉ phead s :: (l1 ++ l2).*1 ++ [ptail s].
Proof.
  intros [_ Hnd _]. rewrite nodes_mid, <- Permutation_middle, NoDup_cons in Hnd.
  rewrite nodes_app. tauto.
Qed.

Lemma rep_mid s l1 nb l2 : rep s (l1 ++ nb :: l2) →
  ∃ f, mb_pages s !! nb.1 = Some (Pages nb.2.1 nb.2.2 f).
Proof. intros Hr. destruct nb as [n [p z]]. eapply rep_blk; [done|]. set_solver. Qed.

Lemma blk_ok w n b : mb_pages (pa w) !! n = Some b → blk w n = Ok b.
Proof. intros H. unfold blk. by rewrite H. Qed.

Lemma set_blk_ok w n b b' : mb_pages (pa w) !! n = Some b → set_blk n b' w = Ok (with_blk n b' w).
Proof. intros H. unfold set_blk. by rewrite H. Qed.

(** A write to the fields of one block. *)
Lemma rep_with_blk w l1 nb l2 p z f : rep (pa w) (l1 ++ nb :: l2) →
  rep (pa (with_blk nb.1 (Pages p z f) w)) (l1 ++ (nb.1, (p, z)) :: l2).
Proof.
  intros Hr. pose proof (rep_fresh _ _ _ _ Hr) as Hf. destruct Hr as [Hc Hnd Hb].
  assert (phead (pa w) :: (l1 ++ (nb.1, (p, z)) :: l2).*1 ++ [ptail (pa w)] =
          phead (pa w) :: (l1 ++ nb :: l2).*1 ++ [ptail (pa w)]) as E by by rewrite !fmap_app.
  split; wsimpl; [by rewrite E|by rewrite E|].
  intros n p' z' Hin. rewrite lookup_insert. case_decide as Hn.
  - subst. rewrite elem_of_app, elem_of_cons in Hin.
    assert ((nb.1, (p', z')) ∉ l1 ++ l2) as Hnot.
    { intros Hx. apply Hf. right. apply elem_of_app. left. by apply (list_elem_of_fmap_2 fst) in Hx. }
    destruct Hin as [?|[[= -> ->]|?]]; [exfalso; set_solver|by eexists|exfalso; set_solver].
  - apply Hb. rewrite elem_of_app, elem_of_cons in Hin |- *.
    destruct Hin as [?|[[= -> -> ->]|?]]; [by left|done|by right; right].
Qed.

(** A heap in which the neighbours of a node point at each other, with the node
    itself no longer alive. *)
Lemma rep_removed w l1 nb l2 L' : rep (pa w) (l1 ++ nb :: l2) →
  (∀ q, q ≠ nb.1 → get_next L' q =
     if decide (q = before (pa w) l1) then Ok (after (pa w) l2) else get_next (mb_links (pa w)) q) →
  (∀ q, q ≠ nb.1 → get_prev L' q =
     if decide (q = after (pa w) l2) then Ok (before (pa w) l1) else get_prev (mb_links (pa w)) q) →
  rep (pa (leave nb.1 (with_links L' w))) (l1 ++ l2).
Proof.
  intros Hr Hnx Hpv. destruct (rep_node _ _ _ _ Hr) as (_ & _ & Hnp & Hnn & _ & _).
  pose proof (rep_fresh _ _ _ _ Hr) as Hf.
  destruct (around_node (pa w) l1 nb l2) as (xs & ys & Exs & Eys & E).
  destruct (around (pa w) l1 l2) as (xs' & ys' & Exs' & Eys' & E').
  assert (xs' = xs) as -> by (rewrite Exs in Exs'; by simplify_list_eq).
  assert (ys' = ys) as -> by congruence.
  destruct Hr as [Hc Hnd Hbk]. split; wsimpl.
  - rewrite E'. rewrite E in Hc, Hnd. rewrite E' in Hf.
    apply (chain_removed (mb_links (pa w)) _ xs _ nb.1); try done.
    + by apply NoDup_simple.
    + intros q Hq. unfold get_next at 1. rewrite lookup_delete_ne by done. by apply Hnx.
    + intros q Hq. unfold get_prev at 1. rewrite lookup_delete_ne by done. by apply Hpv.
    + set_solver.
    + set_solver.
  - rewrite nodes_app. rewrite nodes_mid, <- Permutation_middle, NoDup_cons in Hnd. tauto.
  - intros n p z Hin. rewrite lookup_delete_ne.
    + apply Hbk. set_solver.
    + intros <-. apply Hf. right. apply elem_of_app. left. by apply (list_elem_of_fmap_2 fst) in Hin.
Qed.

Lemma rep_around_live w l1 l2 : rep (pa w) (l1 ++ l2) →
  before (pa w) l1 ∈ live w ∧ after (pa w) l2 ∈ live w.
Proof.
  intros Hr. destruct (around (pa w) l1 l2) as (xs & ys & _ & _ & E).
  split; apply (rep_dom _ _ _ Hr); rewrite E; set_solver.
Qed.

Lemma rep_around_live_node w l1 nb l2 : rep (pa w) (l1 ++ nb :: l2) →
  before (pa w) l1 ∈ live w ∧ nb.1 ∈ live w ∧ after (pa w) l2 ∈ live w.
Proof.
  intros Hr. destruct (around_node (pa w) l1 nb l2) as (xs & ys & _ & _ & E).
  split_and!; apply (rep_dom _ _ _ Hr); rewrite E; set_solver.
Qed.

(** [unlink] takes a node out of the list and keeps it alive. *)
Lemma unlink_ok w l1 nb l2 : rep (pa w) (l1 ++ nb :: l2) →
  ∃ L', unlink nb.1 w = Ok (with_links L' w) ∧ dom L' = live w ∧
    get_prev L' nb.1 = Ok (before (pa w) l1) ∧
    rep (pa (leave nb.1 (with_links L' w))) (l1 ++ l2).
Proof.
  intros Hr. destruct (rep_node _ _ _ _ Hr) as (Hp & Hn & Hnp & Hnn & _ & _).
  destruct (rep_around_live_node _ _ _ _ Hr) as (Hb & _ & Ha).
  unfold unlink, on_links. rewrite Hp. wsimpl. rewrite Hn. wsimpl.
  destruct (set_next_ok (mb_links (pa w)) (before (pa w) l1) (after (pa w) l2))
    as (L1 & -> & Hd1 & Hn1 & Hp1 & _); [done|]. wsimpl.
  rewrite Hn1, decide_False, Hn by done. wsimpl. rewrite Hp1, Hp. wsimpl.
  destruct (set_prev_ok L1 (after (pa w) l2) (before (pa w) l1))
    as (L2 & -> & Hd2 & Hp2 & Hn2 & _); [by rewrite Hd1|]. wsimpl.
  exists L2. split_and!; [done|unfold live; congruence| |].
  { by rewrite Hp2, decide_False, Hp1 by done. }
  apply rep_removed; [done| |]; intros q _.
  - by rewrite Hn2, Hn1.
  - by rewrite Hp2, Hp1.
Qed.

(** [skip_next] does the same to the node after [a]. *)
Lemma skip_next_ok w l1 na mb l2 : rep (pa w) (l1 ++ na :: mb :: l2) →
  ∃ L', skip_next na.1 w = Ok (mb.1, with_links L' w) ∧ dom L' = live w ∧
    rep (pa (leave mb.1 (with_links L' w))) (l1 ++ na :: l2).
Proof.
  intros Hr. destruct (rep_node _ _ _ _ Hr) as (_ & Hna & _ & _ & _ & _).
  assert (rep (pa w) ((l1 ++ [na]) ++ mb :: l2)) as Hr' by by rewrite <- app_assoc.
  destruct (rep_node _ _ _ _ Hr') as (_ & Hmn & Hmp & Hmm & _ & _).
  destruct (rep_around_live_node _ _ _ _ Hr') as (Hb & _ & Ha).
  assert (before (pa w) (l1 ++ [na]) = na.1) as Eb by apply before_snoc.
  assert (after (pa w) (mb :: l2) = mb.1) as Ea by done. rewrite Ea in Hna. rewrite Eb in *.
  unfold skip_next, on_links. rewrite Hna. wsimpl. rewrite Hmn. wsimpl.
  destruct (set_prev_ok (mb_links (pa w)) (after (pa w) l2) na.1) as (L1 & -> & Hd1 & Hp1 & Hn1 & _);
    [done|]. wsimpl. rewrite Hn1, Hna. wsimpl. rewrite Hn1, Hmn. wsimpl.
  destruct (set_next_ok L1 na.1 (after (pa w) l2)) as (L2 & -> & Hd2 & Hn2 & Hp2 & _); [by rewrite Hd1|]. wsimpl.
  exists L2. split_and!; [done|unfold live; congruence|].
  change (l1 ++ na :: l2) with (l1 ++ [na] ++ l2). rewrite app_assoc.
  apply rep_removed; [done| |]; rewrite Eb; intros q _.
  - by rewrite Hn2, Hn1.
  - by rewrite Hp2, Hp1.
Qed.

(** Insertion of a node before the node [i] of the list. *)
Lemma insert_before_ok w l1 l2 a p z f : rep (pa w) (l1 ++ l2) → a ∈ live w →
  a ∉ phead (pa w) :: (l1 ++ l2).*1 ++ [ptail (pa w)] → mb_pages (pa w) !! a = Some (Pages p z f) →
  ∃ L', insert_before a (after (pa w) l2) w = Ok (with_links L' w) ∧ dom L' = live w ∧
    rep (pa (with_links L' w)) (l1 ++ (a, (p, z)) :: l2).
Proof.
  intros Hr Ha Hf Hm. destruct (around (pa w) l1 l2) as (xs & ys & Exs & Eys & E).
  set (b := before (pa w) l1) in *. set (c := after (pa w) l2) in *.
  assert (b ∈ live w ∧ c ∈ live w) as [Hb Hc].
  { split; apply (rep_dom _ _ _ Hr); rewrite E; set_solver. }
  pose proof Hr as [Hch Hnd Hbk]. rewrite E in Hf, Hch, Hnd.
  assert (a ≠ b ∧ a ≠ c) as [Hab Hac] by set_solver.
  assert (get_prev (mb_links (pa w)) c = Ok b) as Hpc by (apply chain_pair in Hch; tauto).
  unfold insert_before, on_links. rewrite Hpc. wsimpl.
  destruct (set_prev_ok (mb_links (pa w)) a b) as (L1 & -> & Hd1 & Hp1 & Hn1 & _); [done|]. wsimpl.
  destruct (set_next_ok L1 a c) as (L2 & -> & Hd2 & Hn2 & Hp2 & _); [by rewrite Hd1|]. wsimpl.
  rewrite Hp2, Hp1, decide_False, Hpc by done. wsimpl.
  destruct (set_next_ok L2 b a) as (L3 & -> & Hd3 & Hn3 & Hp3 & _); [by rewrite Hd2, Hd1|]. wsimpl.
  destruct (set_prev_ok L3 c a) as (L4 & -> & Hd4 & Hp4 & Hn4 & _); [by rewrite Hd3, Hd2, Hd1|]. wsimpl.
  exists L4. split_and!; [done|unfold live; congruence|].
  destruct (around_node (pa w) l1 (a, (p, z)) l2) as (xs' & ys' & Exs' & Eys' & E2). cbn [fst] in E2. fold b c in E2, Exs', Eys'.
  assert (xs' = xs) as -> by (rewrite Exs in Exs'; by simplify_list_eq).
  assert (ys' = ys) as -> by (rewrite Eys in Eys'; by simplify_list_eq).
  split; wsimpl; [rewrite E2|rewrite E2|].
  - eapply chain_inserted; [exact Hch|by apply NoDup_simple|done| |].
    + intros q. by rewrite Hn4, Hn3, Hn2, Hn1.
    + intros q. rewrite Hp4, Hp3, Hp2, Hp1. fold c b. repeat case_decide; congruence.
  - replace (xs ++ b :: a :: c :: ys) with ((xs ++ [b]) ++ a :: c :: ys) by by rewrite <- app_assoc.
    rewrite <- (Permutation_middle (xs ++ [b])), NoDup_cons, <- app_assoc. done.
  - intros n p' z' Hin. rewrite elem_of_app, elem_of_cons in Hin.
    destruct Hin as [Hin|[[= -> -> ->]|Hin]]; [|by eexists|]; apply Hbk; set_solver.
Qed.

(** Where a walk over the nodes stops, in terms of the blocks. *)
Lemma walk_blocks w l (test : Z → res bool) (T : Z * Z → bool) :
  rep (pa w) l → (∀ n b, (n, b) ∈ l → test n = Ok (T b)) →
  (∃ l1 l2, l = l1 ++ l2 ∧ Forall (λ nb, T nb.2 = false) l1 ∧
     (∀ nb l', l2 = nb :: l' → T nb.2 = true) ∧
     walk get_next (mb_links (pa w)) test (ptail (pa w)) (after (pa w) l) = Ok (after (pa w) l2)).
Proof.
  intros [Hc Hnd Hb] HT. exact (walk_tagged _ _ _ _ _ _ Hc Hnd HT).
Qed.

Lemma rep_ext s s' l : rep s l → phead s' = phead s → ptail s' = ptail s →
  (∀ n, n ∈ dom (mb_links s) → mb_links s' !! n = mb_links s !! n) →
  (∀ n, n ∈ l.*1 → mb_pages s' !! n = mb_pages s !! n) → rep s' l.
Proof.
  intros Hr Hh Ht HL Hp. pose proof (λ n, rep_dom s l n Hr) as Hd. destruct Hr as [Hc Hnd Hb].
  split; rewrite ?Hh, ?Ht; [|done|].
  - eapply chain_ext; [| |done]; intros x Hx; unfold get_next, get_prev; rewrite HL; try done; apply Hd.
    + by apply elem_of_removelast.
    + by right.
  - intros n p z Hin. rewrite Hp; [by apply Hb|]. by apply (list_elem_of_fmap_2 fst) in Hin.
Qed.

(** ** What the pointer operations do to the blocks *)

(** The rest of the world is unchanged. *)
Definition kept (w w' : world) : Prop :=
  bytes w' = bytes w ∧ page_cur w' = page_cur w ∧ phead (pa w') = phead (pa w) ∧
  ptail (pa w') = ptail (pa w) ∧ free_size (pa w') = free_size (pa w).

(** The invariant of the allocator: [bs] are its free blocks. *)
Definition pa_inv (w : world) (bs : blocks) : Prop :=
  ∃ l, rep (pa w) l ∧ l.*2 = bs ∧ wf (-1) bs ∧ free_size (pa w) = total bs.

Section laws.
Context {K : Kmem} {J : world → Prop} `{!KfreeLaws K J}.

Lemma free_block_ok w n b : J w → n ∈ live w → n ≠ phead (pa w) → n ≠ ptail (pa w) → mb_pages (pa w) !! n = Some b →
  wp (free_block n w) (λ w', same_but_heap (leave n w) w' ∧ J w').
Proof.
  unfold live. intros HJ [k Hk]%elem_of_dom Hh Ht Hb. unfold free_block. rewrite (blk_ok _ _ _ Hb). wsimpl.
  apply (km_free n (leave n w) k b).
  - unfold live. wsimpl. rewrite dom_delete_L. set_solver.
  - done.
  - done.
  - eapply km_frame; [exact HJ| |done..]. unfold live. wsimpl.
    rewrite insert_delete_id by done. done.
Qed.

(** Unlinking a node and giving it back. *)
Lemma drop_ok w l1 nb l2 : J w → rep (pa w) (l1 ++ nb :: l2) →
  wp (w ← unlink nb.1 w; free_block nb.1 w) (λ w', J w' ∧ rep (pa w') (l1 ++ l2) ∧ kept w w').
Proof.
  intros HJ Hr. destruct (unlink_ok _ _ _ _ Hr) as (L' & -> & Hd & _ & Hr'). wsimpl.
  destruct (rep_mid _ _ _ _ Hr) as [f Hf].
  assert (nb.1 ∈ live w) as Hn by (apply (rep_dom _ _ _ Hr); rewrite nodes_mid; set_solver).
  pose proof (rep_fresh _ _ _ _ Hr) as Hne.
  eapply wp_mono; [eapply free_block_ok; [|by unfold live; wsimpl; rewrite Hd|wsimpl; set_solver|wsimpl; set_solver|done]|].
  - eapply km_frame; [exact HJ| |done..]. unfold live. by wsimpl.
  - intros w' [(H1 & H2 & H3) HJ']. split_and!; [done|by rewrite H1|]. unfold kept. by rewrite H1, H2, H3.
Qed.

Lemma J_with_blk n b w : J w → J (with_blk n b w).
Proof. intros HJ. by eapply km_frame. Qed.
Lemma J_with_links L w : J w → dom L = live w → J (with_links L w).
Proof. intros HJ Hd. eapply km_frame; [exact HJ|exact Hd|done..]. Qed.
Lemma J_set_free_size v w : J w → J (set_free_size v w).
Proof. intros HJ. by eapply km_frame. Qed.

Lemma first_fit_app sz bs1 bs2 : Forall (λ b, (sz <=? b.2) = false) bs1 →
  first_fit sz (bs1 ++ bs2) =
  match first_fit sz bs2 with Some (q, r) => Some (q, bs1 ++ r) | None => None end.
Proof.
  induction bs1 as [|[p s] bs1 IH]; simpl; intros Hf; [by destruct (first_fit sz bs2) as [[??]|]|].
  apply Forall_cons in Hf as [H1 H2]. simpl in H1. rewrite H1, (IH H2).
  by destruct (first_fit sz bs2) as [[??]|].
Qed.

Lemma alloc_refines pg w bs :
  J w → pa_inv w bs → 0 < psize pg →
  wp (alloc pg w) (λ '(r, pg', w'), J w' ∧ bytes w' = bytes w ∧ page_cur w' = page_cur w ∧
    match (if psize pg mod PAGE_SIZE =? 0 then first_fit (psize pg) bs else None) with
    | None => r = -1 ∧ pg' = pg ∧ w' = w
    | Some (q, bs') => r = 0 ∧ pg' = Pages q (psize pg) (pflags pg) ∧ pa_inv w' bs'
    end).
Proof.
  intros HJ (l & Hr & <- & Hwf & Hfs) Hsz. unfold alloc.
  destruct (Z.eqb_spec (psize pg mod PAGE_SIZE) 0) as [Hm|]; cbn [negb]; [|done].
  rewrite Hfs. destruct (Z.ltb_spec (total l.*2) (psize pg)).
  { destruct (first_fit (psize pg) l.*2) as [[q bs']|] eqn:E; [|done].
    apply (first_fit_total _ (-1)) in E; [lia|done]. }
  rewrite (rep_head_next _ _ Hr). wsimpl.
  destruct (walk_blocks w l (λ a, b ← blk w a; Ok (psize pg <=? psize b)) (λ b, psize pg <=? b.2) Hr)
    as (l1 & l2 & -> & Hl1 & Hl2 & ->).
  { intros n [p z] Hin. destruct (rep_blk _ _ Hr _ _ _ Hin) as [f Hf]. by rewrite (blk_ok _ _ _ Hf). }
  wsimpl. rewrite fmap_app in *.
  assert (Forall (λ b, (psize pg <=? b.2) = false) l1.*2) as Hl1' by by apply Forall_fmap.
  rewrite (first_fit_app _ _ _ Hl1').
  destruct l2 as [|[n [p z]] l2].
  { unfold after. simpl. rewrite Z.eqb_refl. done. }
  specialize (Hl2 _ _ eq_refl). rewrite fmap_cons in *. cbn [fst snd] in *.
  destruct (rep_node _ _ _ _ Hr) as (_ & _ & _ & _ & _ & Hnt).
  destruct (rep_mid _ _ _ _ Hr) as [f Hf]. cbn [fst snd] in Hnt, Hf.
  unfold after. simpl hd. rewrite (proj2 (Z.eqb_neq _ _)) by done.
  rewrite (blk_ok _ _ _ Hf). wsimpl. rewrite (set_blk_ok _ _ _ _ Hf). wsimpl.
  assert (first_fit (psize pg) (l1.*2 ++ (p, z) :: l2.*2) =
    Some (p, l1.*2 ++ (if z - psize pg =? 0 then l2.*2 else (p + psize pg, z - psize pg) :: l2.*2))) as Hff.
  { rewrite (first_fit_app _ _ _ Hl1'). simpl. by rewrite Hl2. }
  destruct (first_fit_wf _ _ _ _ _ Hwf Hsz Hm Hff) as (Hwf' & Ht & _ & Hp0 & Hp1).
  assert (z < 2 ^ 64 ∧ total (l1.*2 ++ (p, z) :: l2.*2) < 2 ^ 64) as [Hz Htot].
  { split.
    - destruct (wf_elem _ _ p z Hwf) as (? & ? & ?); [set_solver|lia].
    - pose proof (total_below _ _ Hwf ltac:(by destruct (l1.*2))). lia. }
  apply Z.leb_le in Hl2. pose proof (total_nonneg _ _ Hwf') as Htn.
  rewrite (wrap_small 64 (z - psize pg)) by (unfold fits; lia).
  rewrite (wrap_small 64 (p + psize pg)) by (unfold fits; lia).
  pose proof (rep_with_blk w l1 (n, (p, z)) l2 (p + psize pg) (z - psize pg) f Hr) as Hr2. cbn [fst] in Hr2.
  set (w2 := with_blk n _ w) in *.
  assert (J w2) as HJ2 by by apply J_with_blk.
  simpl first_fit. rewrite (proj2 (Z.leb_le _ _) Hl2).
  destruct (Z.eqb_spec (z - psize pg) 0).
  - apply wp_bind. eapply wp_mono; [apply (drop_ok w2 _ _ _ HJ2 Hr2)|].
    intros w' (HJ' & Hr' & (Hk1 & Hk2 & Hk3 & Hk4 & Hk5)). apply wp_ok. wsimpl. split_and!; try done.
    { by apply J_set_free_size. }
    exists (l1 ++ l2). rewrite fmap_app. split_and!; [|done|done|].
    + by eapply rep_ext.
    + wsimpl. rewrite Hk5. subst w2. wsimpl. rewrite Hfs, wrap_small by (unfold fits; lia). by rewrite Ht.
  - wsimpl. split_and!; try done.
    { by apply J_set_free_size. }
    exists (l1 ++ (n, (p + psize pg, z - psize pg)) :: l2). rewrite fmap_app.
    split_and!; [|done|done|].
    + by eapply rep_ext.
    + subst w2. wsimpl. rewrite Hfs, wrap_small by (unfold fits; lia). by rewrite Ht.
Qed.

(** Giving back a node that has been taken out of the list. *)
Lemma give_back_ok w n L' b l : J w → n ∈ live w → dom L' = live w → mb_pages (pa w) !! n = Some b →
  rep (pa (leave n (with_links L' w))) l →
  wp (free_block n (with_links L' w)) (λ w', J w' ∧ rep (pa w') l ∧ kept w w').
Proof.
  intros HJ Hn Hd Hb Hr.
  assert (∀ e, e ∈ [phead (pa w); ptail (pa w)] → n ≠ e) as Hne.
  { intros e He ->. apply (rep_dom _ _ e) in Hr; [|wsimpl; set_solver]. revert Hr. wsimpl. rewrite dom_delete_L. set_solver. }
  eapply wp_mono; [eapply free_block_ok; [by apply J_with_links|by unfold live; wsimpl; rewrite Hd|apply Hne; left|apply Hne; right; left|done]|].
  intros w' [(H1 & H2 & H3) HJ']. split_and!; [done|by rewrite H1|]. unfold kept. by rewrite H1, H2, H3.
Qed.

(** Joining a node with its successor is [glue]. *)
Lemma join_next_ok w l1 n p z l2 : J w → rep (pa w) (l1 ++ (n, (p, z)) :: l2) →
  (∀ q t, (q, t) ∈ (p, z) :: l2.*2 → 0 ≤ q ∧ 0 ≤ t ∧ q + t < 2 ^ 64) →
  wp (join_next n w) (λ w', J w' ∧ kept w w' ∧
    ∃ l', rep (pa w') (l1 ++ l') ∧ l'.*2 = glue p z l2.*2).
Proof.
  intros HJ Hr Hb. destruct (rep_node _ _ _ _ Hr) as (_ & Hn & _ & _ & _ & _).
  destruct (rep_mid _ _ _ _ Hr) as [f Hf]. cbn [fst snd] in *.
  unfold join_next. rewrite Hn. wsimpl. rewrite (blk_ok _ _ _ Hf). wsimpl.
  destruct (Hb p z) as (Hp & Hz & Hpz); [left|].
  destruct l2 as [|[m [q t]] l2].
  { unfold after. simpl. rewrite Z.eqb_refl. wsimpl. split_and!; [done|done|]. by exists [(n, (p, z))]. }
  assert (rep (pa w) ((l1 ++ [(n, (p, z))]) ++ (m, (q, t)) :: l2)) as Hr' by by rewrite <- app_assoc.
  destruct (rep_node _ _ _ _ Hr') as (_ & _ & Hmb & _ & _ & Hmt).
  destruct (rep_mid _ _ _ _ Hr') as [g Hg]. cbn [fst snd] in *.
  assert (n ≠ m) as Hnm by (rewrite before_snoc in Hmb; by simpl in Hmb).
  change (after (pa w) ((m, (q, t)) :: l2)) with m. rewrite (proj2 (Z.eqb_neq _ _)) by done.
  rewrite (blk_ok _ _ _ Hg). wsimpl. rewrite (wrap_small 64 (p + z)) by (unfold fits; lia).
  rewrite fmap_cons. cbn [glue snd]. destruct (Z.eqb_spec (p + z) q) as [Hq|]; wsimpl.
  2:{ split_and!; [done|done|]. by exists ((n, (p, z)) :: (m, (q, t)) :: l2). }
  rewrite (set_blk_ok _ _ _ _ Hf). wsimpl.
  destruct (Hb q t) as (? & ? & ?); [rewrite fmap_cons; set_solver|].
  rewrite (wrap_small 64 (z + t)) by (unfold fits; lia).
  pose proof (rep_with_blk w l1 (n, (p, z)) _ p (z + t) f Hr) as Hr2. cbn [fst] in Hr2.
  destruct (skip_next_ok _ _ (n, (p, z + t)) _ _ Hr2) as (L' & Hsk & Hd & Hr3). cbn [fst] in *.
  rewrite Hsk. wsimpl. destruct (rep_around_live_node _ _ _ _ Hr') as (_ & Hlm & _).
  eapply wp_mono; [eapply give_back_ok; [by apply J_with_blk|exact Hlm|done| |exact Hr3]|].
  - wsimpl. rewrite lookup_insert_ne by done. exact Hg.
  - intros w' (HJ' & Hr4 & Hk). split_and!; [done|done|]. by exists ((n, (p, z + t)) :: l2).
Qed.

(** Joining a node with its predecessor. *)
Lemma join_prev_ok w l1 n p z l2 : J w → rep (pa w) (l1 ++ (n, (p, z)) :: l2) →
  (∀ q t, (q, t) ∈ l1.*2 ++ [(p, z)] → 0 ≤ q ∧ 0 ≤ t ∧ q + t < 2 ^ 64) →
  wp (join_prev n w) (λ '(a, w'), J w' ∧ kept w w' ∧
    ((∃ l0 m q t, l1 = l0 ++ [(m, (q, t))] ∧ q + t = p ∧ a = m ∧ rep (pa w') (l0 ++ (m, (q, t + z)) :: l2)) ∨
     (∀ l0 m q t, l1 = l0 ++ [(m, (q, t))] → q + t ≠ p) ∧ a = n ∧ w' = w)).
Proof.
  intros HJ Hr Hb. destruct (rep_node _ _ _ _ Hr) as (Hp & _ & _ & _ & _ & _).
  destruct (rep_mid _ _ _ _ Hr) as [f Hf]. cbn [fst snd] in *.
  unfold join_prev. rewrite Hp. wsimpl. rewrite (blk_ok _ _ _ Hf). wsimpl.
  destruct l1 as [|[m [q t]] l0 _] using rev_ind.
  { unfold before. simpl. rewrite Z.eqb_refl. wsimpl. split_and!; [done|done|]. right. split_and!; [|done|done].
    intros l0 m q t Hl. by destruct l0. }
  assert (before (pa w) (l0 ++ [(m, (q, t))]) = m) as Eb by apply before_snoc.
  rewrite Eb in *. assert (rep (pa w) (l0 ++ (m, (q, t)) :: (n, (p, z)) :: l2)) as Hr' by by rewrite <- app_assoc in Hr.
  destruct (rep_node _ _ _ _ Hr') as (_ & _ & _ & Hmn & Hmh & _).
  destruct (rep_mid _ _ _ _ Hr') as [g Hg]. cbn [fst snd] in *. change (after (pa w) ((n, (p, z)) :: l2)) with n in Hmn.
  rewrite (proj2 (Z.eqb_neq _ _)) by done. rewrite (blk_ok _ _ _ Hg). wsimpl.
  destruct (Hb q t) as (? & ? & ?); [rewrite fmap_app; set_solver|]. destruct (Hb p z) as (? & ? & ?); [set_solver|].
  rewrite (wrap_small 64 (q + t)) by (unfold fits; lia).
  destruct (Z.eqb_spec (q + t) p) as [Hq|Hq]; wsimpl.
  2:{ split_and!; [done|done|]. right. split_and!; [|done|done]. intros l0' m' q' t' Hl.
      apply app_inj_tail in Hl as [_ [= <- <- <-]]. done. }
  rewrite (set_blk_ok _ _ _ _ Hg). wsimpl. rewrite (wrap_small 64 (t + z)) by (unfold fits; lia).
  pose proof (rep_with_blk w l0 (m, (q, t)) _ q (t + z) g Hr') as Hr2. cbn [fst] in Hr2.
  assert (rep (pa (with_blk m (Pages q (t + z) g) w)) ((l0 ++ [(m, (q, t + z))]) ++ (n, (p, z)) :: l2)) as Hr3
    by by rewrite <- app_assoc.
  destruct (unlink_ok _ _ _ _ Hr3) as (L' & Hu & Hd & Hpv & Hr4). cbn [fst] in *. rewrite Hu. wsimpl. rewrite Hpv. wsimpl.
  destruct (rep_around_live_node _ _ _ _ Hr3) as (_ & Hln & _).
  apply wp_bind. eapply wp_mono; [eapply give_back_ok; [by apply J_with_blk|exact Hln|done| |exact Hr4]|].
  - wsimpl. rewrite lookup_insert_ne by done. exact Hf.
  - intros w' (HJ' & Hr5 & Hk). wsimpl. split_and!; [done|done|]. left. exists l0, m, q, t.
    split_and!; try done; [apply before_snoc|]. by rewrite <- app_assoc in Hr5.
Qed.

Lemma put_block_app p s bs1 bs2 : Forall (λ b, b.1 < p ∧ b.1 + b.2 ≠ p) bs1 →
  put_block p s (bs1 ++ bs2) = bs1 ++ put_block p s bs2.
Proof.
  induction bs1 as [|[q t] bs1 IH]; simpl; [done|]. intros [[H1 H2] H3]%Forall_cons. simpl in *.
  rewrite (proj2 (Z.leb_gt _ _)), (proj2 (Z.eqb_neq _ _)) by done. by rewrite IH.
Qed.

Lemma put_block_front p s bs : (∀ b r, bs = b :: r → p ≤ b.1) → put_block p s bs = glue p s bs.
Proof.
  destruct bs as [|[q t] r]; [done|]. intros H. specialize (H _ _ eq_refl). simpl in *.
  by rewrite (proj2 (Z.leb_le _ _)).
Qed.

(** All but the last of the blocks below [p] end below the last one. *)
Lemma wf_ends lo bs1 q t bs2 : wf lo (bs1 ++ (q, t) :: bs2) → Forall (λ b, b.1 + b.2 < q) bs1.
Proof.
  revert lo. induction bs1 as [|[p s] bs1 IH]; simpl; intros lo Hwf; [done|].
  destruct Hwf as (_ & H1 & _ & _ & _ & Hwf). constructor; [|by eapply IH]. simpl.
  assert (avail (bs1 ++ (q, t) :: bs2) q) as Ha.
  { apply avail_app. right. apply avail_cons. left. apply (wf_elem _ _ q t) in Hwf; [lia|set_solver]. }
  by apply (wf_above _ _ _ Hwf) in Ha.
Qed.

Lemma ends_apart lo p bs1 bs2 : wf lo (bs1 ++ bs2) → Forall (λ b, b.1 < p) bs1 →
  (∀ bs0 q t, bs1 = bs0 ++ [(q, t)] → q + t ≠ p) →
  Forall (λ b, b.1 < p ∧ b.1 + b.2 ≠ p) bs1.
Proof.
  intros Hwf Hlt Hne. destruct bs1 as [|[q t] bs0 _] using rev_ind; [done|].
  rewrite <- app_assoc in Hwf. apply wf_ends in Hwf. apply Forall_app in Hlt as [H1 H2].
  apply Forall_cons in H2 as [H2 _]. simpl in H2. apply Forall_app. split.
  - apply Forall_and. split; [done|]. eapply Forall_impl; [exact Hwf|]. simpl. lia.
  - constructor; [|done]. split; [done|]. by eapply Hne.
Qed.

(** A new node with its fields filled in. *)
Lemma rep_enter w l a kb b b' : rep (pa w) l → a ∉ live w →
  rep (pa (with_blk a b' (with_blk a b (enter a kb w)))) l ∧
  a ∉ phead (pa w) :: l.*1 ++ [ptail (pa w)].
Proof.
  intros Hr Ha. pose proof (λ n, rep_dom _ _ n Hr) as Hd. split; [|intros Hin; by apply Ha, Hd].
  eapply rep_ext; [exact Hr|done|done| |]; intros n Hn; wsimpl.
  - rewrite lookup_insert_ne; [done|]. intros ->. by apply Ha.
  - rewrite !lookup_insert_ne; [done|..]; intros ->; apply Ha, Hd; set_solver.
Qed.

Definition freed_ok (pg : pages) (bs : blocks) : Prop :=
  0 ≤ paddr pg ∧ 0 < psize pg ∧ paddr pg mod PAGE_SIZE = 0 ∧ paddr pg + psize pg < 2 ^ 64 ∧
  ∀ x, paddr pg ≤ x < paddr pg + psize pg → ¬ avail bs x.

(** Joining after an insertion is [put_block]. *)
Lemma joins_ok w l1 a p z l2 lo :
  J w → rep (pa w) (l1 ++ (a, (p, z)) :: l2) → -1 ≤ lo → wf lo (l1.*2 ++ l2.*2) →
  0 ≤ p → 0 < z → p + z < 2 ^ 64 →
  Forall (λ nb, nb.2.1 < p) l1 → (∀ nb r, l2 = nb :: r → p ≤ nb.2.1) →
  wp ('(a, w) ← join_prev a w; join_next a w) (λ w', J w' ∧ kept w w' ∧
    ∃ l', rep (pa w') l' ∧ l'.*2 = put_block p z (l1.*2 ++ l2.*2)).
Proof.
  intros HJ Hr Hlo Hwf Hp Hz Hpz Hl1 Hl2.
  assert (∀ q t, (q, t) ∈ l1.*2 ++ l2.*2 → 0 ≤ q ∧ 0 ≤ t ∧ q + t < 2 ^ 64) as Hel.
  { intros q t Hin. destruct (wf_elem _ _ _ _ Hwf Hin). lia. }
  assert (put_block p z l2.*2 = glue p z l2.*2) as Hfront.
  { apply put_block_front. intros b r Hb. destruct l2 as [|nb l2]; [done|].
    injection Hb as <- <-. by eapply Hl2. }
  apply wp_bind. eapply wp_mono; [apply (join_prev_ok _ _ _ _ _ _ HJ Hr)|].
  { intros q t [Hin|Hin]%elem_of_app; [apply Hel; set_solver|]. apply list_elem_of_singleton in Hin as [= -> ->]. lia. }
  intros [a' w'] (HJ' & Hk & [(l0 & m & q & t & -> & Hq & -> & Hr')|(Hne & -> & ->)]).
  - rewrite fmap_app in Hwf, Hel. simpl in Hwf, Hel. rewrite <- app_assoc in Hwf, Hel.
    destruct (Hel q t) as (? & ? & ?); [set_solver|].
    eapply wp_mono; [apply (join_next_ok _ _ _ _ _ _ HJ' Hr')|].
    { intros q' t' [[= -> ->]|Hin]%elem_of_cons; [lia|]. apply Hel. set_solver. }
    intros w'' (HJ'' & Hk' & l' & Hr'' & Hl'). split_and!; [done| |].
    { unfold kept in *. intuition congruence. }
    exists (l0 ++ l'). split; [done|]. rewrite !fmap_app, Hl'. simpl. rewrite <- app_assoc, put_block_app.
    + simpl. apply Forall_app in Hl1 as [_ Hl1]. apply Forall_cons in Hl1 as [Hqp _]. simpl in Hqp.
      rewrite (proj2 (Z.leb_gt _ _)), (proj2 (Z.eqb_eq _ _)) by done. done.
    + apply Forall_app in Hl1 as [Hl0 Hq']. apply Forall_cons in Hq' as [Hq' _]. simpl in Hq'.
      apply Forall_and. split; [by apply Forall_fmap|].
      eapply Forall_impl; [exact (wf_ends _ _ _ _ _ Hwf)|]. simpl. lia.
  - eapply wp_mono; [apply (join_next_ok _ _ _ _ _ _ HJ Hr)|].
    { intros q' t' [[= -> ->]|Hin]%elem_of_cons; [lia|]. apply Hel. set_solver. }
    intros w'' (HJ'' & Hk' & l' & Hr'' & Hl'). split_and!; [done|done|].
    exists (l1 ++ l'). split; [done|]. rewrite !fmap_app, Hl', <- Hfront. symmetry. apply put_block_app.
    eapply ends_apart; [exact Hwf|by apply Forall_fmap|].
    intros bs0 q t Hbs. destruct l1 as [|[m [q' t']] l0 _] using rev_ind; [by destruct bs0|].
    rewrite fmap_app in Hbs. apply app_inj_tail in Hbs as [_ [= <- <-]]. by eapply Hne.
Qed.

(** A free that has its block structure. *)
Lemma free_with pg w bs a w1 : kmalloc_ SIZEOF_MEM_BLOCK 0 w = Ok (a, w1) → a ≠ NULL → a ∉ live w → same_but_heap w w1 →
  (∀ k b, J (with_block a k b w1)) → pa_inv w bs → psize pg mod PAGE_SIZE = 0 → freed_ok pg bs →
  wp (free pg w) (λ w', J w' ∧ bytes w' = bytes w ∧ page_cur w' = page_cur w ∧
    pa_inv w' (put_block (paddr pg) (psize pg) bs)).
Proof.
  intros Hkm Ha Hfresh (Hpa & Hpc & Hby) HJ1 (l & Hr & <- & Hwf & Hfs) Hm (Hp & Hz & Hpm & Hpz & Hdis).
  unfold free. rewrite (proj2 (Z.eqb_eq _ _) Hm). cbn [negb]. rewrite Hkm. msimpl.
  rewrite (proj2 (Z.eqb_neq _ _) Ha).
  rewrite (blk_ok _ a (junk_ a w1).2) by (wsimpl; apply lookup_insert_eq). msimpl.
  rewrite (set_blk_ok _ a (junk_ a w1).2) by (wsimpl; apply lookup_insert_eq). msimpl.
  erewrite (blk_ok _ a) by (wsimpl; apply lookup_insert_eq). msimpl.
  erewrite set_blk_ok by (wsimpl; apply lookup_insert_eq). msimpl.
  assert (rep (pa w1) l) as Hr1 by by rewrite Hpa.
  assert (a ∉ live w1) as Hfresh1 by (unfold live in *; by rewrite Hpa).
  set (b1 := Pages (paddr pg) (psize (junk_ a w1).2) (pflags (junk_ a w1).2)).
  set (b2 := Pages (paddr pg) (psize pg) (pflags (junk_ a w1).2)).
  destruct (rep_enter w1 l a (junk_ a w1) b1 b2 Hr1 Hfresh1) as [Hr2 Hnin].
  set (w2 := with_blk a b2 (with_blk a b1 (enter a (junk_ a w1) w1))) in *.
  assert (J w2) as HJ2 by (by apply J_with_blk, J_with_blk, HJ1).
  assert (mb_pages (pa w2) !! a = Some b2) as Ha2 by (unfold w2; wsimpl; by rewrite lookup_insert_eq).
  rewrite (rep_head_next _ _ Hr2). msimpl.
  destruct (walk_blocks w2 l (λ i, x ← blk w2 i; y ← blk w2 a; Ok (paddr y <=? paddr x))
    (λ b, paddr pg <=? b.1) Hr2) as (l1 & l2 & -> & Hl1 & Hl2 & ->).
  { intros n [p z] Hin. destruct (rep_blk _ _ Hr2 _ _ _ Hin) as [f Hf].
    by rewrite (blk_ok _ _ _ Hf), (blk_ok _ _ _ Ha2). }
  msimpl. rewrite fmap_app in *.
  destruct (insert_before_ok w2 l1 l2 a (paddr pg) (psize pg) (pflags (junk_ a w1).2) Hr2)
    as (L' & -> & Hd & Hr3); [| |exact Ha2|].
  { unfold live, w2. wsimpl. rewrite dom_insert_L. set_solver. }
  { rewrite <- ?fmap_app in Hnin. exact Hnin. }
  msimpl. set (w3 := with_links L' w2) in *.
  assert (J w3) as HJ3 by by apply J_with_links.
  pose proof (joins_ok w3 l1 a (paddr pg) (psize pg) l2 (-1) HJ3 Hr3 ltac:(lia) Hwf Hp Hz Hpz) as Hj.
  assert (Forall (λ nb, nb.2.1 < paddr pg) l1) as Hlt.
  { eapply Forall_impl; [exact Hl1|]. intros nb Hnb. simpl in Hnb. by apply Z.leb_gt. }
  specialize (Hj Hlt). destruct (wp_inv _ _ (Hj ltac:(intros nb r E; apply Z.leb_le; by eapply Hl2)))
    as (w4 & Ew & HJ4 & (Hk1 & Hk2 & Hk3 & Hk4 & Hk5) & l' & Hr4 & Hl'). clear Hj.
  destruct (join_prev a w3) as [[a' w']|e]; [|done]. msimpl. simpl in Ew. rewrite Ew. msimpl.
  destruct (put_block_wf (-1) (paddr pg) (psize pg) (l1.*2 ++ l2.*2)) as (Hwf' & Ht & _); try done; try lia.
  split_and!; [by apply J_set_free_size|wsimpl; rewrite Hk1; exact Hby|wsimpl; rewrite Hk2; exact Hpc|].
  exists l'. split_and!; [by eapply rep_ext|done|done|]. wsimpl.
  rewrite Hk5, Ht. unfold w3, w2. wsimpl. rewrite Hpa, Hfs.
  assert (put_block (paddr pg) (psize pg) (l1.*2 ++ l2.*2) ≠ []) as Hnil.
  { rewrite <- Hl'. destruct l'; [|done]. simpl in *. intros _. by rewrite <- Hl' in Ht; pose proof (total_nonneg _ _ Hwf); simpl in Ht; lia. }
  pose proof (total_below _ _ Hwf' Hnil). pose proof (total_nonneg _ _ Hwf).
  rewrite wrap_small by (unfold fits; lia). lia.
Qed.

Lemma free_refines `{!KmemLaws K J} pg w bs :
  J w → pa_inv w bs → psize pg mod PAGE_SIZE = 0 → freed_ok pg bs →
  (∃ w', kmalloc_ SIZEOF_MEM_BLOCK 0 w = Ok (NULL, w') ∧ free pg w = Err Panicked) ∨
  wp (free pg w) (λ w', J w' ∧ bytes w' = bytes w ∧ page_cur w' = page_cur w ∧
    pa_inv w' (put_block (paddr pg) (psize pg) bs)).
Proof.
  intros HJ Hi Hm Hf. destruct (wp_inv _ _ (km_alloc w HJ)) as ([a w1] & E & [[-> ->]|(Ha & Hfresh & Hs & HJ1)]).
  - left. exists w. split; [done|]. unfold free. rewrite (proj2 (Z.eqb_eq _ _) Hm). cbn [negb]. rewrite E. msimpl. by rewrite Z.eqb_refl.
  - right. by eapply free_with.
Qed.
End laws.

(** A free with room for its block structure does not panic. *)
Lemma free_room {K : Kmem} {J : nat → world → Prop} `{!KmemRoom K J} r pg w bs :
  J (S r) w → pa_inv w bs → psize pg mod PAGE_SIZE = 0 → freed_ok pg bs →
  wp (free pg w) (λ w', J r w' ∧ bytes w' = bytes w ∧ page_cur w' = page_cur w ∧ pa_inv w' (put_block (paddr pg) (psize pg) bs)).
Proof. intros HJ Hi Hm Hf. destruct (wp_inv _ _ (kr_alloc r w HJ)) as ([a w1] & E & Ha & Hfresh & Hs & HJ1). by eapply free_with. Qed.

(** ** Theorems *)

(** [page_allocator_init] makes an empty allocator. *)
Lemma page_allocator_init_ok h t w : h ≠ t → h ∈ live w → t ∈ live w →
  wp (page_allocator_init h t w) (λ '(r, w'), r = 0 ∧ pa_inv w' [] ∧ page_cur w' = PallocPages ∧
    live w' = live w ∧ bp w' = bp w ∧ sl w' = sl w ∧ simple_cur w' = simple_cur w ∧ bytes w' = bytes w).
Proof.
  intros Hne Hh Ht. unfold page_allocator_init, on_links. wsimpl.
  destruct (set_next_ok (mb_links (pa w)) t NULL) as (L1 & -> & Hd1 & _ & _ & _); [done|]. wsimpl.
  destruct (set_prev_ok L1 h NULL) as (L2 & -> & Hd2 & _ & _ & _); [by rewrite Hd1|]. wsimpl.
  destruct (set_next_ok L2 h t) as (L3 & -> & Hd3 & Hn3 & _ & _); [by rewrite Hd2, Hd1|]. wsimpl.
  destruct (set_prev_ok L3 t h) as (L4 & -> & Hd4 & Hp4 & Hn4 & _); [by rewrite Hd3, Hd2, Hd1|]. wsimpl.
  split_and!; try done; [|unfold live; wsimpl; congruence].
  exists []. split_and!; try done. split; wsimpl.
  - simpl. rewrite Hn4, Hn3, Hp4. by rewrite !decide_True.
  - simpl. apply NoDup_cons. split; [set_solver|apply NoDup_singleton].
  - intros n p z Hin. by apply elem_of_nil in Hin.
Qed.

Section claims.
Context {K : Kmem} {J : world → Prop} `{!KmemLaws K J}.

(** C1. First-fit page allocation ([alloc] of palloc.c), for every object
    allocator that satisfies the interface laws.  A request for a positive number
    of bytes either succeeds: the returned range is page-aligned, was entirely
    free, and is exactly what leaves the set of free bytes, the list stays sorted
    and coalesced and the free byte count drops by the size; or it fails with -1
    and changes nothing, and then the size is not a multiple of the page size or
    no free block is large enough. *)
Theorem palloc_alloc_correct pg w bs :
  J w → pa_inv w bs → 0 < psize pg →
  wp (alloc pg w) (λ '(r, pg', w'), J w' ∧ bytes w' = bytes w ∧
    ((r = 0 ∧ psize pg' = psize pg ∧ pflags pg' = pflags pg ∧ paddr pg' mod PAGE_SIZE = 0 ∧
      ∃ bs', pa_inv w' bs' ∧ taken (paddr pg') (psize pg) bs bs' ∧ get_free w' = get_free w - psize pg) ∨
     (r = -1 ∧ pg' = pg ∧ w' = w ∧
      (psize pg mod PAGE_SIZE ≠ 0 ∨ ∀ p s, (p, s) ∈ bs → s < psize pg)))).
Proof.
  intros HJ Hi Hsz. eapply wp_mono; [by apply alloc_refines|].
  intros [[r pg'] w'] (HJ' & Hby & _ & Hres). split; [done|]. split; [done|].
  destruct Hi as (l & Hr & Hl & Hwf & Hfs).
  destruct (Z.eqb_spec (psize pg mod PAGE_SIZE) 0) as [Hm|Hm].
  - destruct (first_fit (psize pg) bs) as [[q bs']|] eqn:E.
    + left. destruct Hres as (-> & -> & Hi'). msimpl.
      destruct (first_fit_wf _ _ _ _ _ Hwf Hsz Hm E) as (_ & Ht & Hq & _ & _). split_and!; try done.
      exists bs'. split; [done|]. split; [by eapply first_fit_avail|].
      destruct Hi' as (l' & _ & _ & _ & Hfs'). unfold get_free. lia.
    + right. destruct Hres as (-> & -> & ->). split_and!; try done. right. by apply first_fit_none.
  - right. destruct Hres as (-> & -> & ->). split_and!; try done. by left.
Qed.

(** C2. Freeing pages ([free] of palloc.c): a page-aligned range of whole pages
    that is not free becomes free, and nothing else does; the list stays sorted
    and its blocks are joined with their neighbours; the free byte count grows by
    the size.  The only other outcome is the panic that the source reports when
    [kmalloc] has no object left for the new block. *)
Theorem palloc_free_correct pg w bs :
  J w → pa_inv w bs → psize pg mod PAGE_SIZE = 0 → freed_ok pg bs →
  (free pg w = Err Panicked ∧ ∃ w', kmalloc_ SIZEOF_MEM_BLOCK 0 w = Ok (NULL, w')) ∨
  wp (free pg w) (λ w', J w' ∧ bytes w' = bytes w ∧ ∃ bs', pa_inv w' bs' ∧
    get_free w' = get_free w + psize pg ∧
    ∀ x, avail bs' x ↔ avail bs x ∨ paddr pg ≤ x < paddr pg + psize pg).
Proof.
  intros HJ Hi Hm Hf. destruct (free_refines pg w bs HJ Hi Hm Hf) as [(w' & ? & ?)|Hw]; [left; eauto|right].
  eapply wp_mono; [done|]. intros w' (HJ' & Hby & _ & Hi'). split_and!; try done.
  destruct Hi as (l & _ & _ & Hwf & Hfs), Hf as (? & ? & ? & ? & ?).
  destruct (put_block_wf (-1) (paddr pg) (psize pg) bs) as (_ & Ht & Ha); try done; try lia.
  eexists. split; [done|]. destruct Hi' as (l' & _ & _ & _ & Hfs'). unfold get_free.
  split; [lia|]. intros x. rewrite Ha. tauto.
Qed.

(** C21. Allocating pages and freeing them again restores the list of free blocks
    exactly, so that no sequence of such pairs fragments memory or loses a page;
    the free returns unless [kmalloc] has no object left for the block, when it
    panics as the source says. *)
Theorem palloc_roundtrip pg w bs :
  J w → pa_inv w bs → 0 < psize pg → psize pg mod PAGE_SIZE = 0 →
  wp (alloc pg w) (λ '(r, pg', w'), r = 0 →
    (free pg' w' = Err Panicked ∧ ∃ w1, kmalloc_ SIZEOF_MEM_BLOCK 0 w' = Ok (NULL, w1)) ∨
    wp (free pg' w') (λ w'', pa_inv w'' bs ∧ get_free w'' = get_free w)).
Proof.
  intros HJ Hi Hsz Hm. eapply wp_mono; [by apply alloc_refines|].
  intros [[r pg'] w'] (HJ' & _ & _ & Hres) ->. rewrite (proj2 (Z.eqb_eq _ _) Hm) in Hres.
  pose proof Hi as (l & _ & _ & Hwf & Hfs).
  destruct (first_fit (psize pg) bs) as [[q bs']|] eqn:E; [|by destruct Hres].
  destruct Hres as (_ & -> & Hi').
  destruct (first_fit_wf _ _ _ _ _ Hwf Hsz Hm E) as (_ & _ & Hq & Hq0 & Hqb).
  destruct (first_fit_avail _ _ _ _ _ Hwf Hsz E) as [_ Hd].
  destruct (free_refines (Pages q (psize pg) (pflags pg)) w' bs' HJ' Hi' Hm) as [(w1 & ? & ?)|Hw]; [|left; by eauto|right].
  { unfold freed_ok. msimpl. split_and!; try done; lia. }
  eapply wp_mono; [done|]. msimpl. intros w'' (_ & _ & _ & Hi''). rewrite (put_first_fit _ _ _ _ Hwf Hsz Hm E) in Hi''.
  split; [done|]. destruct Hi'' as (l'' & _ & _ & _ & Hfs''). unfold get_free. congruence.
Qed.

End claims.
