(* ===== verification/Pmm.v ===== *)
(** * Physical page interface

    kern/mm/pmm/pmm.c and the inline functions of include/aim/pmm.h: the entry
    points to the registered page allocator, the fill patterns, aligned
    allocation by over-allocating and giving the padding back, and single
    pages. *)
From S2P Require Import Prelude Util DList MmState Palloc.

Section ops.
Context {K : Kmem}.

(** The functions of the registered [struct page_allocator]; the dummies of
    pmm.c fail. *)
Definition allocator_alloc (pg : pages) (w : world) : res (Z * pages * world) :=
  match page_cur w with DummyPages => Ok (EOF_, pg, w) | PallocPages => alloc pg w end.
Definition allocator_free (pg : pages) (w : world) : res world :=
  match page_cur w with DummyPages => Ok w | PallocPages => free pg w end.
Definition allocator_get_free (w : world) : Z :=
  match page_cur w with DummyPages => 0 | PallocPages => get_free w end.

Definition set_page_allocator (p : page_impl) (w : world) : world := set_page_cur p w.

(** [for (; size > 0; size -= PAGE_SIZE, paddr += PAGE_SIZE) memset(...)]; a size
    that is not a multiple of the page size never becomes 0. *)
Definition pmemset (paddr b size : Z) (w : world) : res world :=
  loop (S (S (Z.to_nat (size / PAGE_SIZE)))) (λ '(size, paddr, w),
    if 0 <? size then
      let w := upd_bytes (fill (pa2kva paddr) b PAGE_SIZE) w in
      Ok (inl (w64 (size - PAGE_SIZE), w64 (paddr + PAGE_SIZE), w))
    else Ok (inr w)) (size, paddr, w).

(** [alloc_pages(pages)]: [None] is the NULL pointer. *)
Definition alloc_pages (pages : option pages) (w : world) : res (Z * option MmState.pages * world) :=
  match pages with
  | None => Ok (EOF_, None, w)
  | Some pg =>
    '(result, pg, w) ← allocator_alloc pg w;
    w ← (if negb (Z.land (pflags pg) GFP_ZERO =? 0) then pmemset (paddr pg) 0 (psize pg) w else Ok w);
    Ok (result, Some pg, w)
  end.

Definition free_pages (pg : pages) (w : world) : res world :=
  w ← (if Z.land (pflags pg) GFP_UNSAFE =? 0 then pmemset (paddr pg) JUNKBYTE (psize pg) w else Ok w);
  allocator_free pg w.

Definition get_free_memory (w : world) : Z := allocator_get_free w.

(** [alloc_aligned_pages(pages, align)]: the result and the [paddr] it stores. *)
Definition alloc_aligned_pages (pg : pages) (align : Z) (w : world) : res (Z * pages * world) :=
  let buf := Pages (paddr pg) (w64 (psize pg + w64 (align - PAGE_SIZE))) (pflags pg) in
  '(ret, buf, w) ← alloc_pages (Some buf) w;
  buf ← of_option BadPtr buf;
  if ret <? 0 then Ok (ret, pg, w)
  else
    let pg := Pages (ALIGN_ABOVE 64 (paddr buf) align) (psize pg) (pflags pg) in
    w ← (if paddr buf <? paddr pg then
           free_pages (Pages (paddr buf) (w64 (paddr pg - paddr buf)) (pflags buf)) w
         else Ok w);
    w ← (if w64 (paddr pg + psize pg) <? w64 (paddr buf + psize buf) then
           free_pages (Pages (w64 (paddr pg + psize pg))
             (w64 (w64 (w64 (paddr buf + psize buf) - paddr pg) - psize pg)) (pflags buf)) w
         else Ok w);
    Ok (0, pg, w).

(** [pgalloc()]: [(addr_t)-1] on failure.  The [paddr] of the local structure is
    not initialised; it is only read after a successful allocation. *)
Definition pgalloc (w : world) : res (Z * world) :=
  '(r, p, w) ← alloc_pages (Some (Pages 0 PAGE_SIZE 0)) w;
  p ← of_option BadPtr p;
  if negb (r =? 0) then Ok (w64 (-1), w) else Ok (premap_addr (paddr p), w).

Definition pgfree (paddr : Z) (w : world) : res world :=
  free_pages (Pages (premap_addr paddr) PAGE_SIZE 0) w.

End ops.

(** ** Filling pages *)
Lemma fill_in dst c n m a : dst ≤ a < dst + n → fill dst c n m a = w8 c.
Proof. intros [H1 H2]. unfold fill. by rewrite (proj2 (Z.leb_le _ _) H1), (proj2 (Z.ltb_lt _ _) H2). Qed.
Lemma fill_out dst c n m a : ¬ (dst ≤ a < dst + n) → fill dst c n m a = m a.
Proof. intros H. unfold fill. destruct (Z.leb_spec dst a), (Z.ltb_spec a (dst + n)); simpl; try done. lia. Qed.

(** [n] pages of directly mapped memory from [p] on. *)
Definition mapped (p n : Z) : Prop := 0 ≤ p ∧ 0 ≤ n ∧ p + PAGE_SIZE * n ≤ KERN_BASE.

Definition filled (p b sz : Z) (m m' : Z → Z) : Prop :=
  ∀ a, m' a = if (pa2kva p <=? a) && (a <? pa2kva p + sz) then w8 b else m a.

Lemma pmemset_ok p b n w : mapped p n → 0 < n →
  wp (pmemset p b (PAGE_SIZE * n) w) (λ w', ∃ m', w' = upd_bytes (λ _, m') w ∧
    filled p b (PAGE_SIZE * n) (bytes w) m').
Proof.
  intros (Hp & _ & Hm) Hn. unfold pmemset, mapped, PAGE_SIZE, KERN_BASE in *.
  assert (pa2kva p = p + 0x80000000) as Ek by (apply pa2kva_eq; unfold KERN_BASE; lia).
  apply (wp_loop _ (λ '(s, q, w'), ∃ k m', 0 ≤ k ≤ n ∧ s = 4096 * (n - k) ∧ q = p + 4096 * k ∧
      w' = upd_bytes (λ _, m') w ∧ filled p b (4096 * k) (bytes w) m')
    (λ '(s, _, _), Z.to_nat (s / 4096))).
  - intros [[s q] w'] (k & m' & Hk & -> & -> & -> & Hf).
    destruct (Z.ltb_spec 0 (4096 * (n - k))).
    + apply wp_ok. split.
      * exists (k + 1), (fill (pa2kva (p + 4096 * k)) b 4096 m'). split_and!; [lia|lia| | |done|].
        -- rewrite wrap_small by (unfold fits; lia). lia.
        -- rewrite wrap_small by (unfold fits; lia). lia.
        -- intros a. unfold fill. rewrite (Hf a), Ek, pa2kva_eq by (unfold KERN_BASE; lia). unfold KERN_BASE.
           zcases; simpl; try done; lia.
      * rewrite wrap_small by (unfold fits; lia).
        replace (4096 * (n - k) - 4096) with ((n - k - 1) * 4096) by lia.
        replace (4096 * (n - k)) with ((n - k) * 4096) by lia. rewrite !Z.div_mul by lia. lia.
    + apply wp_ok. exists m'. split; [done|]. by replace n with k by lia.
  - exists 0, (bytes w). split_and!; [lia|lia|lia|lia|by destruct w|].
    intros a. destruct (_ && _) eqn:E; [|done]. apply andb_true_iff in E as [E1%Z.leb_le E2%Z.ltb_lt]. lia.
  - lia.
Qed.

(** ** The operations on a registered allocator *)

(** The invariant of the interface: the free blocks [bs] are in the directly
    mapped part of memory. *)
Definition pm_inv (w : world) (bs : blocks) : Prop :=
  page_cur w = PallocPages ∧ pa_inv w bs ∧ (∀ x, avail bs x → x < KERN_BASE).

Lemma pm_inv_bytes m w bs : pm_inv w bs → pm_inv (upd_bytes (λ _, m) w) bs.
Proof. done. Qed.

Section laws.
Context {K : Kmem} {J : world → Prop} `{!KfreeLaws K J}.

Lemma J_bytes m w : J w → J (upd_bytes (λ _, m) w).
Proof. intros HJ. by eapply km_frame. Qed.

Lemma mapped_pages p sz : 0 ≤ p → 0 < sz → sz mod PAGE_SIZE = 0 → p + sz ≤ KERN_BASE →
  ∃ n, sz = PAGE_SIZE * n ∧ 0 < n ∧ mapped p n.
Proof.
  intros Hp Hsz Hm Hb. unfold PAGE_SIZE in *. exists (sz / 4096).
  pose proof (Z_div_exact_full_2 sz 4096 ltac:(lia) Hm) as E.
  unfold mapped, PAGE_SIZE. lia.
Qed.

(** The bytes after a request with [flag] set are filled with [b]. *)
Definition fill_if (c : bool) (p b sz : Z) (w w' : world) : Prop :=
  if c then filled p b sz (bytes w) (bytes w') else bytes w' = bytes w.

Lemma fill_step_ok (c : bool) p b sz w bs : J w → pm_inv w bs → 0 ≤ p → 0 < sz → sz mod PAGE_SIZE = 0 →
  p + sz ≤ KERN_BASE →
  wp (if c then pmemset p b sz w else Ok w) (λ w', J w' ∧ pm_inv w' bs ∧ fill_if c p b sz w w').
Proof.
  intros HJ Hi Hp Hsz Hm Hb. destruct c; [|done].
  destruct (mapped_pages p sz) as (n & -> & Hn & Hmap); [done..|].
  eapply wp_mono; [by apply pmemset_ok|]. intros w' (m' & -> & Hf). split_and!; [by apply J_bytes|done|done].
Qed.

Lemma first_fit_pm sz bs q bs' w w' : pm_inv w bs → 0 < sz → sz mod PAGE_SIZE = 0 →
  first_fit sz bs = Some (q, bs') → page_cur w' = PallocPages → pa_inv w' bs' →
  pm_inv w' bs' ∧ 0 ≤ q ∧ q mod PAGE_SIZE = 0 ∧ q + sz ≤ KERN_BASE ∧
  (∀ x, avail bs x ↔ avail bs' x ∨ q ≤ x < q + sz) ∧ (∀ x, q ≤ x < q + sz → ¬ avail bs' x).
Proof.
  intros (Hc & (l & _ & _ & Hwf & _) & Hlow) Hsz Hm Hff Hc' Hi'.
  destruct (first_fit_avail _ _ _ _ _ Hwf Hsz Hff) as [Ha Hd].
  destruct (first_fit_wf _ _ _ _ _ Hwf Hsz Hm Hff) as (_ & _ & Hq & Hq0 & _).
  split_and!; try done; [|lia|].
  - split_and!; [done|done|]. intros x Hx. apply Hlow, Ha. by left.
  - assert (q + sz - 1 < KERN_BASE); [apply Hlow, Ha; right; lia|lia].
Qed.

Lemma alloc_pages_ok pg w bs : J w → pm_inv w bs → 0 < psize pg → psize pg mod PAGE_SIZE = 0 →
  match first_fit (psize pg) bs with
  | Some (q, bs') =>
    wp (alloc_pages (Some pg) w) (λ '(r, pg', w'), r = 0 ∧ pg' = Some (Pages q (psize pg) (pflags pg)) ∧
      J w' ∧ pm_inv w' bs' ∧
      fill_if (negb (Z.land (pflags pg) GFP_ZERO =? 0)) q 0 (psize pg) w w')
  | None => Z.land (pflags pg) GFP_ZERO = 0 → alloc_pages (Some pg) w = Ok (-1, Some pg, w)
  end.
Proof.
  intros HJ Hi Hsz Hm. pose proof Hi as (Hc & Hpa & Hlow).
  pose proof (alloc_refines pg w bs HJ Hpa Hsz) as Ha. rewrite (proj2 (Z.eqb_eq _ _) Hm) in Ha.
  unfold alloc_pages, allocator_alloc. rewrite Hc.
  destruct (wp_inv _ _ Ha) as ([[r pg'] w'] & -> & HJ' & Hby & Hc' & Hres). wsimpl. clear Ha.
  destruct (first_fit (psize pg) bs) as [[q bs']|] eqn:E.
  - destruct Hres as (-> & -> & Hpa'). rewrite Hc in Hc'. wsimpl.
    destruct (first_fit_pm _ _ _ _ _ _ Hi Hsz Hm E Hc' Hpa') as (Hi' & Hq0 & Hqm & Hqb & _ & _).
    apply wp_bind. eapply wp_mono; [by apply (fill_step_ok _ q 0 (psize pg) w' bs')|].
    intros w'' (HJ'' & Hi'' & Hf). apply wp_ok. split_and!; try done.
    unfold fill_if in *. by rewrite Hby in Hf.
  - intros Hz. destruct Hres as (-> & -> & ->). by rewrite Hz.
Qed.

(** [free_pages] fills the range and then frees it. *)
Lemma free_pages_fill pg w bs : J w → pm_inv w bs → psize pg mod PAGE_SIZE = 0 → freed_ok pg bs → paddr pg + psize pg ≤ KERN_BASE →
  ∃ w1, free_pages pg w = free pg w1 ∧ J w1 ∧ pm_inv w1 bs ∧ fill_if (Z.land (pflags pg) GFP_UNSAFE =? 0) (paddr pg) JUNKBYTE (psize pg) w w1.
Proof.
  intros HJ Hi Hm (Hp & Hz & _ & _ & _) Hb. unfold free_pages.
  destruct (wp_inv _ _ (fill_step_ok (Z.land (pflags pg) GFP_UNSAFE =? 0) (paddr pg) JUNKBYTE (psize pg) w bs
    HJ Hi Hp Hz Hm Hb)) as (w1 & -> & HJ1 & Hi1 & Hf1). wsimpl. exists w1. split_and!; try done. unfold allocator_free. by rewrite (proj1 Hi1).
Qed.
Lemma freed_pm pg c w w1 w' bs : pm_inv w1 bs → psize pg mod PAGE_SIZE = 0 → freed_ok pg bs → paddr pg + psize pg ≤ KERN_BASE → fill_if c (paddr pg) JUNKBYTE (psize pg) w w1 →
  bytes w' = bytes w1 → page_cur w' = page_cur w1 → pa_inv w' (put_block (paddr pg) (psize pg) bs) →
  pm_inv w' (put_block (paddr pg) (psize pg) bs) ∧ fill_if c (paddr pg) JUNKBYTE (psize pg) w w'.
Proof.
  intros (Hc & Hpa & Hlow) Hm (? & ? & ? & ? & ?) Hb Hf Hby Hc' Hpa'. split.
  - split_and!; [by rewrite Hc', Hc|done|]. intros x Hx. destruct Hpa as (l & _ & _ & Hwf & _).
    destruct (put_block_wf (-1) (paddr pg) (psize pg) bs) as (_ & _ & Ha); try done; try lia. apply Ha in Hx as [Hx|Hx]; [lia|by apply Hlow].
  - unfold fill_if in *. by rewrite Hby.
Qed.

Lemma free_pages_ok `{!KmemLaws K J} pg w bs : J w → pm_inv w bs → psize pg mod PAGE_SIZE = 0 → freed_ok pg bs →
  paddr pg + psize pg ≤ KERN_BASE →
  wpp (free_pages pg w) (λ w', J w' ∧ pm_inv w' (put_block (paddr pg) (psize pg) bs) ∧
    fill_if (Z.land (pflags pg) GFP_UNSAFE =? 0) (paddr pg) JUNKBYTE (psize pg) w w').
Proof.
  intros HJ Hi Hm Hf Hb. destruct (free_pages_fill pg w bs HJ Hi Hm Hf Hb) as (w1 & -> & HJ1 & Hi1 & Hf1).
  destruct (free_refines pg w1 bs HJ1 (proj1 (proj2 Hi1)) Hm Hf) as [(w' & _ & Hp')|Hw]; [by left|right].
  eapply wp_mono; [done|]. intros w' (HJ' & Hby & Hc' & Hpa'). split; [done|]. by eapply freed_pm.
Qed.

Lemma aligned_above k q : 12 ≤ k < 31 → 0 ≤ q < KERN_BASE → q mod PAGE_SIZE = 0 →
  ∃ a, ALIGN_ABOVE 64 q (2 ^ k) = a ∧ a mod 2 ^ k = 0 ∧ a mod PAGE_SIZE = 0 ∧
    q ≤ a ≤ q + 2 ^ k - PAGE_SIZE.
Proof.
  intros Hk Hq Hm. unfold KERN_BASE, PAGE_SIZE in *. eexists. split; [done|].
  assert (2 ^ k ≤ 2 ^ 30) by (apply Z.pow_le_mono_r; lia).
  assert (2 ^ k = 4096 * 2 ^ (k - 12)) as E.
  { change 4096 with (2 ^ 12). rewrite <- Z.pow_add_r by lia. f_equal. lia. }
  assert (0 < 2 ^ (k - 12)) by (apply Z.pow_pos_nonneg; lia).
  rewrite (ALIGN_ABOVE_no_wrap 64 k) by (unfold fits; lia).
  pose proof (ceil_bounds 64 k ltac:(lia) q) as Hc.
  set (t := (q + 2 ^ k - 1) / 2 ^ k) in *.
  assert ((2 ^ k * t) mod 4096 = 0) as Hz.
  { rewrite E, <- Z.mul_assoc, Z.mul_comm. apply Z_mod_mult. }
  split_and!; [|done|lia|].
  - rewrite Z.mul_comm. apply Z_mod_mult.
  - assert ((q + 2 ^ k - 2 ^ k * t) mod 4096 = 0) as Hd.
    { rewrite Zminus_mod, Hz, Z.add_mod, Hm, E, (Z.mul_comm 4096), Z_mod_mult by lia. done. }
    apply Z_div_exact_full_2 in Hd; [|lia]. lia.
Qed.

(** Single pages. *)
Lemma pgalloc_ok w bs : J w → pm_inv w bs →
  match first_fit PAGE_SIZE bs with
  | Some (q, bs') => wp (pgalloc w) (λ '(r, w'), r = q ∧ J w' ∧ pm_inv w' bs' ∧ bytes w' = bytes w ∧
      0 ≤ q ∧ q mod PAGE_SIZE = 0 ∧ q + PAGE_SIZE ≤ KERN_BASE ∧ taken q PAGE_SIZE bs bs')
  | None => pgalloc w = Ok (2 ^ 64 - 1, w)
  end.
Proof.
  intros HJ Hi. pose proof (alloc_pages_ok (Pages 0 PAGE_SIZE 0) w bs HJ Hi ltac:(done) ltac:(done)) as Ha.
  cbn [psize pflags] in Ha. unfold pgalloc. destruct (first_fit PAGE_SIZE bs) as [[q bs']|] eqn:E.
  - destruct (wp_inv _ _ Ha) as ([[r b] w1] & -> & -> & -> & HJ1 & Hi1 & Hby). msimpl.
    destruct (first_fit_pm PAGE_SIZE bs q bs' w w1 Hi ltac:(done) ltac:(done) E ltac:(apply Hi1) ltac:(apply Hi1))
      as (_ & Hq0 & Hqm & Hqb & Hav & Hdj).
    rewrite Z.eqb_refl. apply wp_ok. rewrite premap_addr_low by (unfold PAGE_SIZE in *; lia).
    split_and!; try done.
  - by rewrite (Ha ltac:(done)).
Qed.

Lemma pgfree_ok `{!KmemLaws K J} p w bs : J w → pm_inv w bs → 0 ≤ p → p mod PAGE_SIZE = 0 → p + PAGE_SIZE ≤ KERN_BASE →
  (∀ x, p ≤ x < p + PAGE_SIZE → ¬ avail bs x) →
  wpp (pgfree p w) (λ w', J w' ∧ pm_inv w' (put_block p PAGE_SIZE bs) ∧
    filled p JUNKBYTE PAGE_SIZE (bytes w) (bytes w')).
Proof.
  intros HJ Hi Hp Hm Hb Hd. unfold pgfree. rewrite premap_addr_low by (unfold PAGE_SIZE in *; lia).
  eapply wpp_mono; [apply (free_pages_ok _ w bs); try done|by intros w' (? & ? & ?)].
  unfold freed_ok. msimpl. unfold PAGE_SIZE, KERN_BASE in *. split_and!; try done; lia.
Qed.

End laws.

(** Giving pages back with room for the block structure. *)
Section room.
Context {K : Kmem} {J : nat → world → Prop} `{!KmemRoom K J}.

Lemma free_pages_room r pg w bs : J (S r) w → pm_inv w bs → psize pg mod PAGE_SIZE = 0 → freed_ok pg bs → paddr pg + psize pg ≤ KERN_BASE →
  wp (free_pages pg w) (λ w', J r w' ∧ pm_inv w' (put_block (paddr pg) (psize pg) bs) ∧
    fill_if (Z.land (pflags pg) GFP_UNSAFE =? 0) (paddr pg) JUNKBYTE (psize pg) w w').
Proof.
  intros HJ Hi Hm Hf Hb. destruct (free_pages_fill pg w bs HJ Hi Hm Hf Hb) as (w1 & -> & HJ1 & Hi1 & Hf1).
  eapply wp_mono; [by apply (free_room r pg w1 bs HJ1 (proj1 (proj2 Hi1)))|]. intros w' (HJ' & Hby & Hc' & Hpa'). split; [done|]. by eapply freed_pm.
Qed.

Lemma pgfree_room r p w bs : J (S r) w → pm_inv w bs → 0 ≤ p → p mod PAGE_SIZE = 0 → p + PAGE_SIZE ≤ KERN_BASE →
  (∀ x, p ≤ x < p + PAGE_SIZE → ¬ avail bs x) →
  wp (pgfree p w) (λ w', J r w' ∧ pm_inv w' (put_block p PAGE_SIZE bs) ∧ filled p JUNKBYTE PAGE_SIZE (bytes w) (bytes w')).
Proof.
  intros HJ Hi Hp Hm Hb Hd. unfold pgfree. rewrite premap_addr_low by (unfold PAGE_SIZE in *; lia).
  eapply wp_mono; [apply (free_pages_room r _ w bs); try done|by intros w' (? & ? & ?)].
  unfold freed_ok. msimpl. unfold PAGE_SIZE, KERN_BASE in *. split_and!; try done; lia.
Qed.

(** Giving back a part of a range that was taken. *)
Lemma give_padding_room r pg w bs (c : bool) : J (S r) w → pm_inv w bs → psize pg mod PAGE_SIZE = 0 →
  (c = true → freed_ok pg bs ∧ paddr pg + psize pg ≤ KERN_BASE) → (c = false → psize pg = 0) →
  wp (if c then free_pages pg w else Ok w) (λ w', J r w' ∧ ∃ bs', pm_inv w' bs' ∧
    ∀ x, avail bs' x ↔ avail bs x ∨ paddr pg ≤ x < paddr pg + psize pg).
Proof.
  intros HJ Hi Hm H1 H2. destruct c.
  - destruct H1 as [Hf Hb]; [done|].
    eapply wp_mono; [by apply (free_pages_room r pg w bs)|]. intros w' (HJ' & Hi' & _).
    split; [done|]. eexists. split; [exact Hi'|]. intros x.
    destruct Hi as (_ & (l & _ & _ & Hwf & _) & _), Hf as (? & ? & ? & ? & ?).
    destruct (put_block_wf (-1) (paddr pg) (psize pg) bs) as (_ & _ & Ha); try done; try lia.
    rewrite Ha. tauto.
  - apply wp_ok. split; [by apply kr_less|]. exists bs. split; [done|]. intros x. rewrite H2 by done.
    split; [by left|]. intros [?|?]; [done|lia].
Qed.

(** C23. [alloc_aligned_pages] with a power-of-two alignment of at least a page:
    if a block large enough for the request and the worst-case padding exists,
    the call returns 0 with an aligned range that was free, and both pieces of
    padding are given back, so that exactly the requested range leaves the free
    memory; otherwise it returns -1 and changes nothing (unless the caller asked
    for zeroing).  The alignment is below 2 GiB, the size at most that of the
    directly mapped memory, and the object allocator has room for the two block
    structures that the padding may need. *)
Theorem alloc_aligned_correct r pg k w bs : J (S (S r)) w → pm_inv w bs →
  12 ≤ k < 31 → 0 < psize pg ≤ KERN_BASE → psize pg mod PAGE_SIZE = 0 →
  match first_fit (psize pg + 2 ^ k - PAGE_SIZE) bs with
  | None => Z.land (pflags pg) GFP_ZERO = 0 → alloc_aligned_pages pg (2 ^ k) w = Ok (-1, pg, w)
  | Some _ => wp (alloc_aligned_pages pg (2 ^ k) w) (λ '(ret, pg', w'),
      ret = 0 ∧ paddr pg' mod 2 ^ k = 0 ∧ psize pg' = psize pg ∧ J r w' ∧
      ∃ bs', pm_inv w' bs' ∧ taken (paddr pg') (psize pg) bs bs')
  end.
Proof.
  intros HJ Hi Hk Hsz Hm. unfold KERN_BASE, PAGE_SIZE in Hsz, Hm.
  assert (2 ^ k ≤ 2 ^ 30) by (apply Z.pow_le_mono_r; lia).
  assert (2 ^ 12 ≤ 2 ^ k) by (apply Z.pow_le_mono_r; lia).
  unfold alloc_aligned_pages, PAGE_SIZE.
  rewrite (wrap_small 64 (2 ^ k - 4096)), (wrap_small 64 (psize pg + _)) by (unfold fits; lia).
  replace (psize pg + (2 ^ k - 4096)) with (psize pg + 2 ^ k - 4096) by lia.
  assert ((psize pg + 2 ^ k - 4096) mod 4096 = 0) as Hm2.
  { replace (2 ^ k) with (2 ^ (k - 12) * 4096); [|change 4096 with (2 ^ 12); rewrite <- Z.pow_add_r by lia; f_equal; lia].
    rewrite Zminus_mod, Z.add_mod, Hm, Z_mod_mult by lia. done. }
  pose proof (alloc_pages_ok (Pages (paddr pg) (psize pg + 2 ^ k - 4096) (pflags pg)) w bs HJ Hi
    ltac:(simpl; lia) Hm2) as Ha. cbn [psize pflags] in Ha.
  destruct (first_fit (psize pg + 2 ^ k - 4096) bs) as [[q bs1]|] eqn:Eff.
  2:{ intros Hz. rewrite (Ha Hz). done. }
  destruct (wp_inv _ _ Ha) as ([[ret b] w1] & -> & -> & -> & HJ1 & Hi1 & _). clear Ha. msimpl.
  destruct (first_fit_pm (psize pg + 2 ^ k - 4096) bs q bs1 w w1 Hi ltac:(lia) Hm2 Eff ltac:(apply Hi1) ltac:(apply Hi1))
    as (_ & Hq0 & Hqm & Hqb & Hav & Hdj). unfold KERN_BASE in Hqb.
  destruct (aligned_above k q Hk ltac:(unfold KERN_BASE; lia) Hqm) as (a & -> & Hak & Ham & Hqa).
  unfold PAGE_SIZE in Hqa, Ham. msimpl. rewrite (proj2 (Z.ltb_ge 0 0)) by lia.
  rewrite (wrap_small 64 (a - q)), (wrap_small 64 (a + psize pg)),
    (wrap_small 64 (q + (psize pg + 2 ^ k - 4096))) by (unfold fits; lia).
  rewrite (wrap_small 64 (_ - a)) by (unfold fits; lia). rewrite (wrap_small 64 (_ - psize pg)) by (unfold fits; lia).
  unfold KERN_BASE, PAGE_SIZE in *.
  apply wp_bind. eapply wp_mono; [apply (give_padding_room (S r) _ w1 bs1); try done|].
  - msimpl. unfold PAGE_SIZE. rewrite Zminus_mod, Ham, Hqm. done.
  - msimpl. intros Hlt%Z.ltb_lt. split; [|unfold KERN_BASE; lia]. unfold freed_ok. msimpl.
    split_and!; try lia; [done|]. intros x Hx. apply Hdj. lia.
  - msimpl. intros Hge%Z.ltb_ge. lia.
  - msimpl. intros w2 (HJ2 & bs2 & Hi2 & Hav2).
    apply wp_bind. eapply wp_mono; [apply (give_padding_room r _ w2 bs2); try done|].
    + msimpl. unfold PAGE_SIZE. replace (q + (psize pg + 2 ^ k - 4096) - a - psize pg)
        with (q - a + (psize pg + 2 ^ k - 4096) - psize pg) by lia.
      rewrite Zminus_mod, Hm, Z.add_mod, Hm2, (Zminus_mod q), Ham, Hqm by lia. done.
    + msimpl. intros Hlt%Z.ltb_lt. split; [|unfold KERN_BASE; lia]. unfold freed_ok. msimpl.
      split_and!; try lia.
      * unfold PAGE_SIZE. rewrite Z.add_mod, Ham, Hm by lia. done.
      * intros x Hx [Hx2|Hx2]%Hav2; [|lia]. revert Hx2. apply Hdj. lia.
    + msimpl. intros Hge%Z.ltb_ge. lia.
    + msimpl. intros w3 (HJ3 & bs3 & Hi3 & Hav3). apply wp_ok. msimpl.
      split_and!; try done. exists bs3. split; [done|]. split; intros x.
      * rewrite Hav, Hav3, Hav2. split_lia.
      * intros Hx [[Hx3|Hx3]%Hav2|Hx3]%Hav3; try lia. revert Hx3. apply Hdj. lia.
Qed.

End room.

(** ** Theorems *)
Section claims.
Context {K : Kmem} {J : world → Prop} `{!KmemLaws K J}.

(** [alloc_pages] with [GFP_ZERO] and [free_pages] without [GFP_UNSAFE]: the
    bytes of an allocated range read as zero and those of a freed range as the
    junk byte, through the kernel mapping, and no other byte changes. *)
Theorem page_fill_correct pg w bs q bs' :
  J w → pm_inv w bs → 0 < psize pg → psize pg mod PAGE_SIZE = 0 →
  first_fit (psize pg) bs = Some (q, bs') → Z.land (pflags pg) GFP_ZERO ≠ 0 → Z.land (pflags pg) GFP_UNSAFE = 0 →
  wp (alloc_pages (Some pg) w) (λ '(r, pg', w'), r = 0 ∧ filled q 0 (psize pg) (bytes w) (bytes w') ∧
    ∃ p, pg' = Some p ∧ paddr p = q ∧
      wpp (free_pages p w') (λ w'', filled q JUNKBYTE (psize pg) (bytes w') (bytes w''))).
Proof.
  intros HJ Hi Hsz Hm E Hz Hu. pose proof (alloc_pages_ok pg w bs HJ Hi Hsz Hm) as Ha. rewrite E in Ha.
  eapply wp_mono; [done|]. intros [[r pg'] w'] (-> & -> & HJ' & Hi' & Hf).
  rewrite (proj2 (Z.eqb_neq _ _) Hz) in Hf. split_and!; try done. eexists. split_and!; [done|done|].
  destruct (first_fit_pm (psize pg) bs q bs' w w' Hi Hsz Hm E ltac:(apply Hi') ltac:(apply Hi'))
    as (_ & Hq0 & Hqm & Hqb & _ & Hdj).
  eapply wpp_mono; [apply (free_pages_ok _ w' bs'); try done|].
  - unfold freed_ok. msimpl. unfold KERN_BASE in *. split_and!; try done; lia.
  - msimpl. intros w'' (_ & _ & Hf'). by rewrite (proj2 (Z.eqb_eq _ _) Hu) in Hf'.
Qed.

(** [pgalloc] and [pgfree]: when a page is available, [pgalloc] returns the
    address of a whole page-aligned page that was free and no longer is, and
    [pgfree] of that address restores the free blocks exactly; when none is,
    [pgalloc] returns [(addr_t)-1] and changes nothing. *)
Theorem pgalloc_pgfree w bs :
  J w → pm_inv w bs →
  match first_fit PAGE_SIZE bs with
  | Some (q, bs') => wp (pgalloc w) (λ '(r, w'), r = q ∧ q mod PAGE_SIZE = 0 ∧ pm_inv w' bs' ∧
      taken q PAGE_SIZE bs bs' ∧ wpp (pgfree r w') (λ w'', pm_inv w'' bs))
  | None => pgalloc w = Ok (2 ^ 64 - 1, w)
  end.
Proof.
  intros HJ Hi. pose proof (pgalloc_ok w bs HJ Hi) as Ha.
  destruct (first_fit PAGE_SIZE bs) as [[q bs']|] eqn:E; [|done].
  eapply wp_mono; [done|]. intros [r w'] (-> & HJ' & Hi' & _ & Hq & Hm & Hb & Ht). split_and!; try done.
  eapply wpp_mono; [apply (pgfree_ok q w' bs'); try done; apply Ht|].
  intros w'' (_ & Hi'' & _). destruct Hi as (_ & (l & _ & _ & Hwf & _) & _).
  by rewrite (put_first_fit PAGE_SIZE bs q bs' Hwf ltac:(done) ltac:(done) E) in Hi''.
Qed.

End claims.
