(* ===== verification/Simple.v ===== *)
(** * The object allocators

    kern/mm/vmm/simple.c: the bootstrap allocator ([simple_alloc], a pointer that
    only moves up) and the slab allocator ([alloc], [free], [size]), which cuts
    pages of the page allocator into objects of one of nine sizes and keeps a
    bit per 16 bytes in [status].  The page descriptors [struct alloced_page]
    come from [get_plain_object] and are never given back. *)
From S2P Require Import Prelude Util DList MmState Palloc Pmm.

Definition SIZE_NUM : Z := 9.
Definition BIT_SIZE : Z := 0x10.
Definition PG_EMPTY : Z := 0x7ffff.
Definition SIZEOF_ALLOCED_PAGE : Z := 52.

(** ** The bootstrap allocator *)
Definition simple_alloc (size : Z) (flags : Z) (w : world) : res (Z * world) :=
  let b := bp w in
  if w32 (bottom b + ssize b) <? w32 (top b + size) then Ok (NULL, w)
  else Ok (top b, upd_bp (λ b, Bump (w32 (top b + size)) (bottom b) (ssize b)) w).

Definition simple_free (obj : Z) (w : world) : res world := Ok w.
Definition simple_size (obj : Z) (w : world) : res Z := Ok 0.

Definition simple_allocator_bootstrap (pt size : Z) (w : world) : res (Z * world) :=
  Ok (0, set_simple_cur BootstrapSimple (upd_bp (λ _, Bump pt pt size) w)).

(** ** Slot bits *)
Definition fri_size : list Z :=
  [0x1000; 0x800; 0x400; 0x200; 0x100; 0x80; 0x40; 0x20; 0x10].

Definition bit (x : list Z) (a : Z) : res Z :=
  v ← rd x (Z.shiftr a 3); Ok (Z.land (Z.shiftr v (Z.land a 7)) 1).
Definition setbit (x : list Z) (a : Z) : res (list Z) :=
  v ← rd x (Z.shiftr a 3); wr x (Z.shiftr a 3) (Z.lxor v (w8 (Z.shiftl 1 (Z.land a 7)))).

(** [for (i = 0; i * BIT_SIZE < PAGE_SIZE; i += leap)]: the offset of the first
    free slot, which is marked. *)
Definition get_space (status : list Z) (sz : Z) : res (Z * list Z) :=
  let leap := sz / BIT_SIZE in
  loop 257 (λ i,
    if i * BIT_SIZE <? PAGE_SIZE then
      b ← bit status i;
      if b =? 0 then status ← setbit status i; Ok (inr (BIT_SIZE * i, status))
      else Ok (inl (i + leap))
    else Ok (inr (BIT_SIZE * i, status))) 0.

Definition free_space (status : list Z) (pos : Z) : res (list Z) :=
  b ← bit status pos;
  if negb (b =? 0) then setbit status pos else Ok status.

(** [for (ii = SIZE_NUM - 1; ii >= 0; --ii) if (fri_size[ii] >= size) break;]
    followed by [size = fri_size[ii]]. *)
Definition class_of (size : Z) : res Z :=
  ii ← loop 10 (λ ii,
    if 0 <=? ii then s ← rd fri_size ii; if size <=? s then Ok (inr ii) else Ok (inl (ii - 1))
    else Ok (inr ii)) (SIZE_NUM - 1);
  rd fri_size ii.

(** ** Accesses to the page descriptors *)
Definition apg (w : world) (p : Z) : res alloced_page := of_option BadPtr (ap_pages (sl w) !! p).
Definition with_apg (p : Z) (a : alloced_page) (w : world) : world :=
  upd_sl (λ s, Slab (ap_links s) (<[p := a]> (ap_pages s)) (shead s) (stail s) (now_plain_page s) (offset s)) w.
Definition set_apg (p : Z) (a : alloced_page) (w : world) : res world :=
  match ap_pages (sl w) !! p with Some _ => Ok (with_apg p a w) | None => Err BadPtr end.
Definition on_slinks (f : links → res links) (w : world) : res world :=
  L ← f (ap_links (sl w));
  Ok (upd_sl (λ s, Slab L (ap_pages s) (shead s) (stail s) (now_plain_page s) (offset s)) w).
Definition set_plain (page off : Z) (w : world) : world :=
  upd_sl (λ s, Slab (ap_links s) (ap_pages s) (shead s) (stail s) page off) w.

(** [for (a = head->next; a != tail; a = a->next) if (test) break;] *)
Definition find_page (test : alloced_page → bool) (w : world) : res Z :=
  let L := ap_links (sl w) in
  n ← get_next L (shead (sl w));
  walk get_next L (λ a, d ← apg w a; Ok (test d)) (stail (sl w)) n.

Section ops.
Context {K : Kmem}.

Definition new_plain_page (w : world) : res (Z * world) :=
  '(paddr, w) ← pgalloc w;
  let w := set_plain (now_plain_page (sl w)) 0 w in
  if paddr =? w64 (-1) then Ok (NULL, w) else Ok (w32 (pa2kva paddr), w).

Definition get_plain_object (size : Z) (w : world) : res (Z * world) :=
  if PAGE_SIZE <? size then Err Panicked
  else if offset (sl w) + size <=? PAGE_SIZE then
    Ok (w32 (now_plain_page (sl w) + offset (sl w)),
        set_plain (now_plain_page (sl w)) (offset (sl w) + size) w)
  else
    '(page, w) ← new_plain_page w;
    let w := set_plain page (offset (sl w)) w in
    if now_plain_page (sl w) =? NULL then Err Panicked
    else Ok (now_plain_page (sl w), w).

(** The descriptor comes into existence; all its fields are written next. *)
Definition enter_apg (p : Z) (w : world) : world :=
  upd_sl (λ s, Slab (<[p := Link NULL NULL]> (ap_links s)) (<[p := APage 0 0 0 []]> (ap_pages s))
                 (shead s) (stail s) (now_plain_page s) (offset s)) w.

(** [a->prev = head; a->next = head->next; head->next->prev = a; head->next = a;] *)
Definition push_page (a : Z) (w : world) : res world :=
  let head := shead (sl w) in
  w ← on_slinks (set_prev a head) w;
  w ← on_slinks (λ L, n ← get_next L head; set_next a n L) w;
  w ← on_slinks (λ L, n ← get_next L head; set_prev n a L) w;
  on_slinks (set_next head a) w.

(** [static inline void *alloc(size_t size, gfp_t flags)] *)
Definition slab_alloc (size : Z) (flags : Z) (w : world) : res (Z * world) :=
  if (size =? 0) || (PAGE_SIZE <? size) then Ok (NULL, w)
  else
    size ← class_of size;
    a ← find_page (λ d, (size =? ap_size d) && (w32 (w32 (ap_num d) * ap_size d) <? PAGE_SIZE)) w;
    a ← (if a =? stail (sl w) then find_page (λ d, ap_size d =? PG_EMPTY) w else Ok a);
    d ← apg w a;
    r ← (if (ap_size d =? PG_EMPTY) || (a =? stail (sl w)) then
           '(p, w) ← pgalloc w;
           let new_page := w32 (pa2kva p) in
           if new_page =? NULL then Ok (None, w)
           else
             '(a, w) ← (if a =? stail (sl w) then
                          '(a, w) ← get_plain_object SIZEOF_ALLOCED_PAGE w;
                          w ← push_page a (enter_apg a w);
                          Ok (a, w)
                        else Ok (a, w));
             w ← set_apg a (APage new_page size 0 (replicate 32 0)) w;
             Ok (Some a, w)
         else Ok (Some a, w));
    match r with
    | (None, w) => Ok (NULL, w)
    | (Some a, w) =>
      d ← apg w a;
      '(off, st) ← get_space (ap_status d) size;
      w ← set_apg a (APage (ap_paddr d) (ap_size d) (ap_num d) st) w;
      d ← apg w a;
      w ← set_apg a (APage (ap_paddr d) (ap_size d) (ap_num d + 1) (ap_status d)) w;
      d ← apg w a;
      Ok (w32 (ap_paddr d + off), w)
    end.

(** The test of [free] and [size]: the object lies in the page of [d]. *)
Definition in_page (obj : Z) (d : alloced_page) : bool :=
  (ap_paddr d <=? obj) && (obj <? w32 (ap_paddr d + PAGE_SIZE)).

(** [static inline void free(void *obj)] *)
Definition slab_free (obj : Z) (w : world) : res world :=
  if obj =? NULL then Ok w
  else
    a ← find_page (in_page obj) w;
    if a =? stail (sl w) then Err Panicked
    else
      d ← apg w a;
      let pos := (obj - ap_paddr d) / BIT_SIZE in
      st ← free_space (ap_status d) pos;
      w ← set_apg a (APage (ap_paddr d) (ap_size d) (ap_num d) st) w;
      d ← apg w a;
      w ← set_apg a (APage (ap_paddr d) (ap_size d) (ap_num d - 1) (ap_status d)) w;
      d ← apg w a;
      if ap_num d =? 0 then
        w ← set_apg a (APage (ap_paddr d) PG_EMPTY (ap_num d) (ap_status d)) w;
        d ← apg w a;
        pgfree (w32 (kva2pa (ap_paddr d))) w
      else Ok w.

(** [static inline size_t size(void *obj)] *)
Definition slab_size (obj : Z) (w : world) : res Z :=
  a ← find_page (in_page obj) w;
  if a =? stail (sl w) then Ok 0 else d ← apg w a; Ok (ap_size d).

(** [simple_allocator_init], with [&h] and [&t] as arguments. *)
Definition simple_allocator_init (h t : Z) (w : world) : res (Z * world) :=
  let w := upd_sl (λ s, Slab (ap_links s) (ap_pages s) h t (now_plain_page s) (offset s)) w in
  w ← on_slinks (set_next (stail (sl w)) NULL) w;
  w ← on_slinks (set_prev (shead (sl w)) NULL) w;
  w ← on_slinks (set_next (shead (sl w)) (stail (sl w))) w;
  w ← on_slinks (set_prev (stail (sl w)) (shead (sl w))) w;
  '(page, w) ← new_plain_page w;
  let w := set_plain page (offset (sl w)) w in
  Ok (0, set_simple_cur SlabSimple w).

End ops.

(** ** Slot bits *)
Definition sbit (st : list Z) (i : Z) : bool := Z.testbit (at_ st (i / 8)) (i mod 8).
Definition status_ok (st : list Z) : Prop := length st = 32%nat ∧ Forall (fits 8) st.

Lemma land7 i : Z.land i 7 = i mod 8.
Proof. change 7 with (Z.ones 3). by rewrite Z.land_ones by lia. Qed.
Lemma shr3 i : Z.shiftr i 3 = i / 8.
Proof. by rewrite Z.shiftr_div_pow2 by lia. Qed.
Lemma slot_byte i : 0 ≤ i < 256 → 0 ≤ i / 8 < 32 ∧ 0 ≤ i mod 8 < 8 ∧ i = 8 * (i / 8) + i mod 8.
Proof. intros Hi. Z.to_euclidean_division_equations. lia. Qed.

Lemma bit_ok st i : status_ok st → 0 ≤ i < 256 → bit st i = Ok (Z.b2z (sbit st i)).
Proof.
  intros [Hl Hf] Hi. destruct (slot_byte i Hi) as (Hb & Hm & _).
  unfold bit. rewrite shr3, land7, rd_ok by lia. simpl. f_equal. unfold sbit.
  change 1 with (Z.ones 1). rewrite Z.land_ones by lia. change (2 ^ 1) with 2.
  rewrite <- Z.bit0_mod, Z.shiftr_spec by lia. done.
Qed.

Lemma setbit_ok st i : status_ok st → 0 ≤ i < 256 → ∃ st', setbit st i = Ok st' ∧ status_ok st' ∧
  ∀ j, 0 ≤ j < 256 → sbit st' j = if j =? i then negb (sbit st i) else sbit st j.
Proof.
  intros [Hl Hf] Hi. destruct (slot_byte i Hi) as (Hb & Hm & Ei).
  unfold setbit. rewrite shr3, land7, rd_ok by lia. simpl. rewrite wr_ok by lia.
  assert (fits 8 (at_ st (i / 8))) as Hv by (apply at_fits; [lia|done]).
  assert (w8 (Z.shiftl 1 (i mod 8)) = 2 ^ (i mod 8)) as ->.
  { rewrite Z.shiftl_1_l. apply wrap_small. split; [apply Z.pow_nonneg; lia|apply Z.pow_lt_mono_r; lia]. }
  assert (fits 8 (2 ^ (i mod 8))) as Hp.
  { split; [apply Z.pow_nonneg; lia|apply Z.pow_lt_mono_r; lia]. }
  eexists. split; [done|]. split; [split|].
  - by rewrite length_insert.
  - apply Forall_insert; [done|]. apply fits_lxor; [lia|done|done].
  - intros j Hj. destruct (slot_byte j Hj) as (Hjb & Hjm & Ej). unfold sbit at 1.
    rewrite at_insert by lia. destruct (Z.eqb_spec (j / 8) (i / 8)) as [E|E].
    + rewrite Z.lxor_spec, Z.pow2_bits_eqb by lia. destruct (Z.eqb_spec j i) as [->|Hne].
      * rewrite Z.eqb_refl, xorb_true_r. done.
      * destruct (Z.eqb_spec (i mod 8) (j mod 8)); [lia|]. rewrite xorb_false_r. unfold sbit. by rewrite E.
    + destruct (Z.eqb_spec j i) as [->|]; [done|]. done.
Qed.

(** The slots of a page of objects of [16 * leap] bytes. *)
Definition slot (leap i : Z) : Prop := 0 ≤ i < 256 ∧ (leap | i).

Lemma get_space_ok st leap : status_ok st → 0 < leap → (leap | 256) →
  wp (get_space st (BIT_SIZE * leap)) (λ '(off, st'), status_ok st' ∧
    ((∃ i, off = BIT_SIZE * i ∧ slot leap i ∧ sbit st i = false ∧
        (∀ j, slot leap j → j < i → sbit st j = true) ∧
        (∀ j, 0 ≤ j < 256 → sbit st' j = if j =? i then true else sbit st j)) ∨
     (off = PAGE_SIZE ∧ st' = st ∧ ∀ j, slot leap j → sbit st j = true))).
Proof.
  intros Hst Hleap [m Hm]. unfold get_space, BIT_SIZE, PAGE_SIZE.
  replace (16 * leap / 16) with leap by (rewrite Z.mul_comm, Z.div_mul; lia).
  apply (wp_loop _ (λ i, ∃ k, i = leap * k ∧ 0 ≤ k ≤ m ∧ ∀ j, slot leap j → j < i → sbit st j = true)
    (λ i, Z.to_nat (256 - i))).
  - intros i (k & -> & Hk & Hall). destruct (Z.ltb_spec (leap * k * 16) 4096).
    + assert (0 ≤ leap * k < 256) as Hr by lia. rewrite bit_ok by done. wsimpl.
      destruct (sbit st (leap * k)) eqn:Eb; simpl.
      * split; [|lia]. exists (k + 1). assert (k < m) by nia. split_and!; [lia|lia|lia|].
        intros j [Hj [d ->]] Hlt. destruct (decide (d * leap < leap * k)); [apply Hall; [split; [done|by exists d]|done]|].
        assert (k ≤ d) by (apply (Z.mul_le_mono_pos_l k d leap); lia).
        assert (d < k + 1) by (apply (Z.mul_lt_mono_pos_l leap d (k + 1)); lia).
        by replace (d * leap) with (leap * k) by (replace d with k by lia; lia).
      * destruct (setbit_ok st (leap * k) Hst Hr) as (st' & -> & Hst' & Hb). wsimpl. split; [done|]. left.
        exists (leap * k). rewrite Eb in Hb. split_and!; try done; try lia. split; [done|]. exists k. lia.
    + apply wp_ok. split; [done|]. right. assert (leap * k = 256) as E by nia.
      split_and!; [lia|done|]. intros j Hj. apply Hall; [done|]. destruct Hj. lia.
  - exists 0. split_and!; try lia. intros j [Hj _] Hlt. lia.
  - lia.
Qed.

Lemma free_space_ok st i : status_ok st → 0 ≤ i < 256 →
  wp (free_space st i) (λ st', status_ok st' ∧
    ∀ j, 0 ≤ j < 256 → sbit st' j = if j =? i then false else sbit st j).
Proof.
  intros Hst Hi. unfold free_space. rewrite bit_ok by done. wsimpl. destruct (sbit st i) eqn:E; simpl.
  - destruct (setbit_ok st i Hst Hi) as (st' & -> & Hst' & Hb). rewrite E in Hb. done.
  - split; [done|]. intros j Hj. destruct (Z.eqb_spec j i); by subst.
Qed.

(** ** Size classes *)
Lemma class_of_ok size : 0 < size ≤ PAGE_SIZE →
  wp (class_of size) (λ s, s ∈ fri_size ∧ size ≤ s ∧ ∀ s', s' ∈ fri_size → size ≤ s' → s ≤ s').
Proof.
  intros Hs. unfold class_of, PAGE_SIZE, SIZE_NUM in *. apply wp_bind.
  apply (wp_loop _ (λ ii, 0 ≤ ii ≤ 8 ∧ ∀ j, ii < j ≤ 8 → at_ fri_size j < size) (λ ii, Z.to_nat (ii + 1))).
  - intros ii [Hii Hall]. rewrite (proj2 (Z.leb_le _ _)) by lia. rewrite rd_ok by (simpl; lia). wsimpl.
    destruct (Z.leb_spec size (at_ fri_size ii)) as [Hle|Hgt].
    + apply wp_ok. rewrite rd_ok by (simpl; lia). apply wp_ok. split_and!; [|done|].
      * unfold at_. rewrite (proj2 (Z.leb_le _ _)) by lia.
        destruct (fri_size !! Z.to_nat ii) eqn:E; [by eapply list_elem_of_lookup_2|].
        apply lookup_ge_None in E. simpl in E. lia.
      * intros s' [j Hj]%list_elem_of_lookup Hle'.
        assert (at_ fri_size (Z.of_nat j) = s') as Hat.
        { unfold at_. rewrite (proj2 (Z.leb_le _ _)), Nat2Z.id, Hj by lia. done. }
        assert ((j < 9)%nat) by (apply lookup_lt_Some in Hj; simpl in Hj; lia).
        destruct (decide (Z.of_nat j ≤ ii)) as [Hji|Hji]; [|assert (at_ fri_size (Z.of_nat j) < size) by (apply Hall; lia); lia].
        rewrite <- Hat. clear -Hii Hji H. 
        assert (∀ a b, 0 ≤ a ≤ b → b ≤ 8 → at_ fri_size b ≤ at_ fri_size a) as Hmono; [|apply Hmono; lia].
        intros a b Hab Hb. assert (∃ x y, a = Z.of_nat x ∧ b = Z.of_nat y ∧ (x ≤ y ≤ 8)%nat) as (x & y & -> & -> & Hxy).
        { exists (Z.to_nat a), (Z.to_nat b). lia. }
        do 9 (destruct x as [|x]; [do 9 (destruct y as [|y]; [first [done|lia]|]); lia|]). lia.
    + apply wp_ok. assert (ii ≠ 0) by (intros ->; unfold at_ in Hgt; simpl in Hgt; lia).
      split; [|lia]. split; [lia|]. intros j Hj. destruct (decide (j = ii)) as [->|]; [done|apply Hall; lia].
  - split; [lia|]. intros; lia.
  - lia.
Qed.

(** ** The invariant of a page descriptor *)
Fixpoint cnt (f : Z → bool) (l : list Z) : Z :=
  match l with [] => 0 | x :: r => Z.b2z (f x) + cnt f r end.

Lemma cnt_ext f g l : (∀ x, x ∈ l → f x = g x) → cnt f l = cnt g l.
Proof.
  induction l as [|x l IH]; simpl; intros H; [done|]. rewrite H by left.
  rewrite IH; [done|]. intros y Hy. apply H. by right.
Qed.

Lemma cnt_upd f g l i b : NoDup l → i ∈ l → (∀ j, j ∈ l → g j = if j =? i then b else f j) →
  cnt g l = cnt f l + Z.b2z b - Z.b2z (f i).
Proof.
  induction l as [|x l IH]; intros Hnd Hi Hg; [by apply elem_of_nil in Hi|].
  apply NoDup_cons in Hnd as [Hx Hnd]. simpl. rewrite (Hg x) by left.
  apply elem_of_cons in Hi as [->|Hi].
  - rewrite Z.eqb_refl. rewrite (cnt_ext g f); [lia|]. intros y Hy. rewrite Hg by by right.
    by rewrite (proj2 (Z.eqb_neq _ _)) by (intros ->; done).
  - rewrite (proj2 (Z.eqb_neq _ _)) by (intros ->; done). rewrite IH; [lia|done|done|].
    intros j Hj. apply Hg. by right.
Qed.

Lemma cnt_full f l : (∀ x, x ∈ l → f x = true) → cnt f l = Z.of_nat (length l).
Proof.
  induction l as [|x l IH]; simpl; intros H; [done|]. rewrite H by left.
  rewrite IH; [simpl; lia|]. intros y Hy. apply H. by right.
Qed.

Definition slots (leap : Z) : list Z := (λ k, leap * k) <$> seqZ 0 (256 / leap).

Lemma elem_of_slots leap i : 0 < leap → (leap | 256) → i ∈ slots leap ↔ slot leap i.
Proof.
  intros Hl [m Hm]. unfold slots, slot. rewrite list_elem_of_fmap.
  replace (256 / leap) with m by (rewrite Hm, Z.div_mul; lia). split.
  - intros (k & -> & Hk%elem_of_seqZ). split; [nia|]. exists k. lia.
  - intros [Hi [k ->]]. exists k. split; [lia|]. apply elem_of_seqZ. nia.
Qed.

Lemma NoDup_slots leap : 0 < leap → NoDup (slots leap).
Proof. intros Hl. apply NoDup_fmap_2; [intros x y H; nia|apply NoDup_seqZ]. Qed.

(** A page in use: its status bits count its objects. *)
Record page_ok (d : alloced_page) : Prop := PageOk {
  po_status : status_ok (ap_status d);
  po_addr : 0 < ap_paddr d ∧ ap_paddr d + PAGE_SIZE < 2 ^ 32;
  po_size : ap_size d ∈ fri_size;
  po_num : ap_num d = cnt (sbit (ap_status d)) (slots (ap_size d / BIT_SIZE)) }.

(** The objects that are allocated in a page. *)
Definition holds (d : alloced_page) (obj : Z) : Prop :=
  ∃ i, slot (ap_size d / BIT_SIZE) i ∧ sbit (ap_status d) i = true ∧ obj = ap_paddr d + BIT_SIZE * i.

Lemma class_leap s : s ∈ fri_size → ∃ leap, s = BIT_SIZE * leap ∧ s / BIT_SIZE = leap ∧
  0 < leap ∧ (leap | 256) ∧ 0 < s ≤ PAGE_SIZE ∧ s ≠ PG_EMPTY.
Proof.
  intros Hs. exists (s / BIT_SIZE). revert Hs.
  unfold fri_size. rewrite !elem_of_cons, elem_of_nil. unfold BIT_SIZE, PAGE_SIZE, PG_EMPTY.
  intros [->|[->|[->|[->|[->|[->|[->|[->|[->|[]]]]]]]]]]; split_and!; try done; by apply Z.mod_divide.
Qed.

(** The nodes of the descriptor list. *)
Record srep (s : slab) (l : list (Z * alloced_page)) : Prop := SRep {
  sr_chain : chain (ap_links s) (shead s :: l.*1 ++ [stail s]);
  sr_nodup : NoDup (shead s :: l.*1 ++ [stail s]);
  sr_page n d : (n, d) ∈ l → ap_pages s !! n = Some d;
  sr_tail : is_Some (ap_pages s !! stail s) }.

Lemma find_page_ok w l T : srep (sl w) l →
  ∃ l1 l2, l = l1 ++ l2 ∧ Forall (λ nd, T nd.2 = false) l1 ∧
    (∀ nd l', l2 = nd :: l' → T nd.2 = true) ∧ find_page T w = Ok (hd (stail (sl w)) l2.*1).
Proof.
  intros [Hc Hnd Hp _]. unfold find_page.
  assert (get_next (ap_links (sl w)) (shead (sl w)) = Ok (hd (stail (sl w)) l.*1)) as ->
    by (destruct l; simpl in *; tauto).
  wsimpl. apply (walk_tagged _ (shead (sl w))); [done|done|].
  intros n d Hin. unfold apg. rewrite (Hp n d Hin). done.
Qed.

(** The first page of the list that satisfies the test. *)
Lemma find_page_at w l1 a d l2 T : srep (sl w) (l1 ++ (a, d) :: l2) →
  Forall (λ nd, T nd.2 = false) l1 → T d = true → find_page T w = Ok a ∧ a ≠ stail (sl w).
Proof.
  intros Hr H1 Hd. destruct (find_page_ok w _ T Hr) as (k1 & k2 & E & Hk1 & Hk2 & ->).
  assert (a ≠ stail (sl w)) as Hne.
  { destruct Hr as [_ Hnd _ _]. intros ->. apply NoDup_cons in Hnd as [_ Hnd].
    apply NoDup_app in Hnd as (_ & Hnd & _). apply (Hnd (stail (sl w))); [|left].
    rewrite fmap_app. set_solver. }
  split; [|done]. f_equal.
  assert (length k1 = length l1) as Hlen.
  { destruct (Nat.lt_trichotomy (length k1) (length l1)) as [Hlt|[?|Hlt]]; [|done|].
    - assert (∃ nd k', k2 = nd :: k' ∧ nd ∈ l1) as (nd & k' & -> & Hin).
      { apply (f_equal (λ l, l !! length k1)) in E.
        rewrite lookup_app_l in E by done. rewrite lookup_app_r, Nat.sub_diag in E by lia.
        destruct k2 as [|nd k']; simpl in E.
        - apply lookup_ge_None in E. lia.
        - exists nd, k'. split; [done|]. by eapply list_elem_of_lookup_2. }
      rewrite Forall_forall in H1. specialize (H1 _ Hin). rewrite (Hk2 _ _ eq_refl) in H1. done.
    - apply (f_equal (λ l, l !! length l1)) in E.
      rewrite (lookup_app_l k1) in E by done. rewrite lookup_app_r, Nat.sub_diag in E by lia. simpl in E.
      rewrite Forall_forall in Hk1. specialize (Hk1 (a, d)). simpl in Hk1. rewrite Hk1 in Hd; [done|].
      by eapply list_elem_of_lookup_2. }
  apply app_inj_1 in E as [_ <-]; done.
Qed.

Lemma srep_with_apg w l1 a d d' l2 : srep (sl w) (l1 ++ (a, d) :: l2) →
  srep (sl (with_apg a d' w)) (l1 ++ (a, d') :: l2).
Proof.
  intros [Hc Hnd Hp Ht].
  assert ((l1 ++ (a, d') :: l2).*1 = (l1 ++ (a, d) :: l2).*1) as E by by rewrite !fmap_app.
  assert (NoDup (l1 ++ (a, d) :: l2).*1) as Hnd1.
  { apply NoDup_cons in Hnd as [_ Hnd]. by apply NoDup_app in Hnd as (? & _ & _). }
  rewrite fmap_app, fmap_cons, <- Permutation_middle, NoDup_cons in Hnd1. simpl in Hnd1.
  split; unfold with_apg; cbn [sl upd_sl ap_links ap_pages shead stail]; rewrite ?E; [done|done| |].
  - intros n x Hin. rewrite elem_of_app, elem_of_cons in Hin. destruct Hin as [Hin|[[= -> ->]|Hin]].
    + rewrite lookup_insert_ne; [apply Hp; set_solver|]. intros <-.
      apply (list_elem_of_fmap_2 fst) in Hin. simpl in Hin. set_solver.
    + apply lookup_insert_eq.
    + rewrite lookup_insert_ne; [apply Hp; set_solver|]. intros <-.
      apply (list_elem_of_fmap_2 fst) in Hin. simpl in Hin. set_solver.
  - rewrite lookup_insert. case_decide; eauto.
Qed.

Lemma set_apg_ok w a d d' : ap_pages (sl w) !! a = Some d → set_apg a d' w = Ok (with_apg a d' w).
Proof. intros H. unfold set_apg. by rewrite H. Qed.
Lemma apg_ok w a d : ap_pages (sl w) !! a = Some d → apg w a = Ok d.
Proof. intros H. unfold apg. by rewrite H. Qed.
Lemma with_apg_lookup w a d : ap_pages (sl (with_apg a d w)) !! a = Some d.
Proof. apply lookup_insert_eq. Qed.
Lemma with_apg_twice w a d d' : with_apg a d (with_apg a d' w) = with_apg a d w.
Proof. unfold with_apg, upd_sl. simpl. by rewrite insert_insert_eq. Qed.

(** The test of the first loop of [alloc]. *)
Definition suits (s : Z) (d : alloced_page) : bool :=
  (s =? ap_size d) && (w32 (w32 (ap_num d) * ap_size d) <? PAGE_SIZE).

Lemma page_num_bounds d leap : page_ok d → ap_size d = BIT_SIZE * leap → 0 < leap → (leap | 256) →
  0 ≤ ap_num d ≤ 256 / leap.
Proof.
  intros [_ _ _ Hn] Hs Hl Hd. rewrite Hn, Hs. unfold BIT_SIZE. rewrite (Z.mul_comm 16), Z.div_mul by lia.
  assert (∀ f l, 0 ≤ cnt f l ≤ Z.of_nat (length l)) as Hb.
  { intros f l. induction l as [|x l IH]; simpl; [lia|]. destruct (f x); simpl; lia. }
  specialize (Hb (sbit (ap_status d)) (slots leap)). unfold slots in *.
  rewrite length_fmap, length_seqZ in Hb. assert (0 ≤ 256 / leap) by (apply Z.div_pos; lia). lia.
Qed.

(** Marking or clearing one slot keeps the count right. *)
Lemma page_ok_upd d i b st' leap : page_ok d → ap_size d / BIT_SIZE = leap → 0 < leap → (leap | 256) →
  slot leap i → sbit (ap_status d) i = negb b → status_ok st' →
  (∀ j, 0 ≤ j < 256 → sbit st' j = if j =? i then b else sbit (ap_status d) j) →
  page_ok (APage (ap_paddr d) (ap_size d) (ap_num d + (Z.b2z b - Z.b2z (negb b))) st') ∧
  (∀ o, holds (APage (ap_paddr d) (ap_size d) (ap_num d + (Z.b2z b - Z.b2z (negb b))) st') o ↔
     if b then holds d o ∨ o = ap_paddr d + BIT_SIZE * i else holds d o ∧ o ≠ ap_paddr d + BIT_SIZE * i).
Proof.
  intros [H1 H2 H3 H4] Hl Hl0 Hd Hi Hb Hst' Hupd. split.
  - split; cbn [ap_status ap_paddr ap_size ap_num]; try done. rewrite Hl in *.
    rewrite (cnt_upd (sbit (ap_status d)) (sbit st') _ i b); [rewrite Hb; lia|by apply NoDup_slots| |].
    + by apply elem_of_slots.
    + intros j Hj%elem_of_slots; [|done..]. apply Hupd. by destruct Hj.
  - intros o. unfold holds. cbn [ap_status ap_paddr ap_size]. rewrite Hl. unfold BIT_SIZE. split.
    + intros (j & Hj & Hs & ->). rewrite Hupd in Hs by by destruct Hj.
      destruct (Z.eqb_spec j i) as [->|Hne]; [rewrite Hs; by right|].
      assert (∃ i0, slot leap i0 ∧ sbit (ap_status d) i0 = true ∧ ap_paddr d + 16 * j = ap_paddr d + 16 * i0)
        as Hex by by exists j.
      destruct b; [by left|]. split; [done|lia].
    + destruct b.
      * intros [(j & Hj & Hs & ->)| ->].
        -- exists j. split_and!; try done. rewrite Hupd by by destruct Hj. destruct (Z.eqb_spec j i); done.
        -- exists i. split_and!; try done. rewrite Hupd by by destruct Hi. by rewrite Z.eqb_refl.
      * intros [(j & Hj & Hs & ->) Hne]. exists j. split_and!; try done. rewrite Hupd by by destruct Hj.
        destruct (Z.eqb_spec j i) as [->|]; done.
Qed.

Lemma slot_in_page leap i : 0 < leap → (leap | 256) → slot leap i → BIT_SIZE * i + BIT_SIZE * leap ≤ PAGE_SIZE.
Proof.
  intros Hl [m Hm] [Hi [k ->]]. unfold BIT_SIZE, PAGE_SIZE.
  assert (k < m) by (apply (Z.mul_lt_mono_pos_r leap k m); lia). nia.
Qed.

(** Allocation from a page that has room. *)
Lemma slab_alloc_ok {K : Kmem} w l1 a d l2 size flags s :
  srep (sl w) (l1 ++ (a, d) :: l2) → page_ok d → 0 < size ≤ PAGE_SIZE → class_of size = Ok s →
  Forall (λ nd, suits s nd.2 = false) l1 → suits s d = true →
  wp (slab_alloc size flags w) (λ '(obj, w'), ∃ d',
    w' = with_apg a d' w ∧ srep (sl w') (l1 ++ (a, d') :: l2) ∧ page_ok d' ∧ ap_paddr d' = ap_paddr d ∧ ap_size d' = ap_size d ∧ ap_num d' = ap_num d + 1 ∧
    size ≤ s ∧ ap_paddr d ≤ obj ∧ obj + s ≤ ap_paddr d + PAGE_SIZE ∧ (s | obj - ap_paddr d) ∧
    ¬ holds d obj ∧ (∀ o, holds d' o ↔ holds d o ∨ o = obj)).
Proof.
  intros Hr Hd Hsz Hcl Hl1 Hsuit. unfold slab_alloc.
  rewrite (proj2 (Z.eqb_neq _ _)), (proj2 (Z.ltb_ge _ _)) by lia. cbn [orb].
  pose proof (class_of_ok size Hsz) as Hcl'. rewrite Hcl in Hcl' |- *. simpl in Hcl'. wsimpl.
  destruct Hcl' as (Hcls & Hle & _). destruct (class_leap s Hcls) as (leap & Es & El & Hl0 & Hld & Hs & Hse).
  destruct (find_page_at w l1 a d l2 (suits s) Hr Hl1 Hsuit) as [Hfind Hne]. unfold suits in Hfind.
  rewrite Hfind. wsimpl. rewrite (proj2 (Z.eqb_neq _ _) Hne). wsimpl.
  assert (ap_pages (sl w) !! a = Some d) as Hlk by (eapply sr_page; [exact Hr|set_solver]).
  rewrite (apg_ok _ _ _ Hlk). wsimpl. unfold suits in Hsuit.
  apply andb_true_iff in Hsuit as [Hsize%Z.eqb_eq Hroom%Z.ltb_lt].
  rewrite (proj2 (Z.eqb_neq (ap_size d) PG_EMPTY)) by congruence. cbn [orb].
  rewrite (proj2 (Z.eqb_neq _ _) Hne). wsimpl.
  rewrite (apg_ok _ _ _ Hlk). wsimpl.
  destruct (wp_inv _ _ (get_space_ok (ap_status d) leap (po_status d Hd) Hl0 Hld)) as ([off st'] & Hgs & Hst' & Hcase).
  rewrite <- Es in Hgs. rewrite Hgs. wsimpl. clear Hgs.
  rewrite (set_apg_ok _ _ _ _ Hlk). wsimpl. rewrite (apg_ok _ _ _ (with_apg_lookup _ _ _)). wsimpl.
  rewrite (set_apg_ok _ _ _ _ (with_apg_lookup _ _ _)). wsimpl. rewrite with_apg_twice.
  rewrite (apg_ok _ _ _ (with_apg_lookup _ _ _)). wsimpl. cbn [ap_paddr ap_size ap_num ap_status].
  rewrite Hsize in El.
  destruct Hcase as [(i & -> & Hi & Hfree & _ & Hupd)|(_ & _ & Hfull)].
  - destruct (page_ok_upd d i true st' leap Hd El Hl0 Hld Hi Hfree Hst' Hupd) as [Hd' Hh].
    cbn [Z.b2z negb] in Hd', Hh. change (1 - 0) with 1 in *.
    pose proof (po_addr d Hd) as Hpa. pose proof (slot_in_page leap i Hl0 Hld Hi) as Hin.
    assert (0 ≤ i) by (destruct Hi; lia).
    unfold BIT_SIZE, PAGE_SIZE in *. rewrite wrap_small by (unfold fits; lia). apply wp_ok.
    eexists. split; [done|]. split; [by eapply srep_with_apg|]. split; [done|]. do 3 (split; [done|]).
    split_and!; try lia.
    + replace (ap_paddr d + 16 * i - ap_paddr d) with (16 * i) by lia. rewrite Es.
      apply Z.mul_divide_mono_l. by destruct Hi.
    + intros (j & Hj & Hs' & E'). assert (j = i) as -> by (unfold BIT_SIZE in E'; lia). congruence.
    + exact Hh.
  - exfalso. destruct (page_num_bounds d leap Hd ltac:(congruence) Hl0 Hld) as [Hn0 Hn1].
    assert (ap_num d = 256 / leap) as Hn.
    { rewrite (po_num d Hd), El, cnt_full.
      - unfold slots. rewrite length_fmap, length_seqZ. assert (0 ≤ 256 / leap) by (apply Z.div_pos; lia). lia.
      - intros x Hx%elem_of_slots; [by apply Hfull|done..]. }
    rewrite Hn, <- Hsize, Es in Hroom. destruct Hld as [m Hm]. rewrite Hm, Z.div_mul in Hroom by lia.
    unfold BIT_SIZE, PAGE_SIZE in *. assert (0 < m ≤ 256) by nia.
    rewrite (wrap_small 32 m) in Hroom by (unfold fits; lia).
    replace (m * (16 * leap)) with 4096 in Hroom by lia. by vm_compute in Hroom.
Qed.

(** C36. Object allocation from a page that has room ([alloc] of simple.c): for a
    request of [1..4096] bytes whose size class [s] has a page with a free slot,
    the first such page of the list serves it without asking for memory.  The
    object lies inside that page at a multiple of [s], is at least as large as
    the request, was not allocated before, is allocated afterwards, and no other
    object or descriptor changes. *)
Theorem slab_alloc_correct {K : Kmem} w l1 a d l2 size flags s :
  srep (sl w) (l1 ++ (a, d) :: l2) → page_ok d → 0 < size ≤ PAGE_SIZE → class_of size = Ok s →
  Forall (λ nd, suits s nd.2 = false) l1 → suits s d = true →
  wp (slab_alloc size flags w) (λ '(obj, w'), ∃ d',
    w' = with_apg a d' w ∧ srep (sl w') (l1 ++ (a, d') :: l2) ∧ page_ok d' ∧
    size ≤ s ∧ ap_paddr d ≤ obj ∧ obj + s ≤ ap_paddr d + PAGE_SIZE ∧ (s | obj - ap_paddr d) ∧
    ¬ holds d obj ∧ (∀ o, holds d' o ↔ holds d o ∨ o = obj)).
Proof.
  intros. eapply wp_mono; [by apply (slab_alloc_ok w l1 a d l2 size flags s)|]. intros [obj w'] (d' & ? & ? & ? & _ & _ & _ & ?). by exists d'.
Qed.

(** Freeing an object that is not the last one of its page. *)
Lemma slab_free_ok {K : Kmem} w l1 a d l2 obj :
  srep (sl w) (l1 ++ (a, d) :: l2) → page_ok d → holds d obj → ap_num d ≠ 1 →
  Forall (λ nd, in_page obj nd.2 = false) l1 →
  wp (slab_free obj w) (λ w', ∃ d',
    w' = with_apg a d' w ∧ srep (sl w') (l1 ++ (a, d') :: l2) ∧ page_ok d' ∧ ap_paddr d' = ap_paddr d ∧ ap_size d' = ap_size d ∧ ap_num d' = ap_num d - 1 ∧
    (∀ o, holds d' o ↔ holds d o ∧ o ≠ obj)).
Proof.
  intros Hr Hd (i & Hi & Hbit & ->) Hn1 Hl1.
  destruct (class_leap _ (po_size d Hd)) as (leap & Es & El & Hl0 & Hld & Hs & Hse).
  rewrite El in Hi. pose proof (po_addr d Hd) as Hpa. pose proof Hi as [Hi0 _]. unfold BIT_SIZE, PAGE_SIZE in *.
  assert (in_page (ap_paddr d + 16 * i) d = true) as Hinp.
  { unfold in_page, PAGE_SIZE. rewrite wrap_small by (unfold fits; lia).
    apply andb_true_iff. split; [apply Z.leb_le|apply Z.ltb_lt]; lia. }
  unfold slab_free. rewrite (proj2 (Z.eqb_neq _ _)) by (unfold NULL; lia).
  destruct (find_page_at w l1 a d l2 _ Hr Hl1 Hinp) as [-> Hne]. wsimpl.
  rewrite (proj2 (Z.eqb_neq _ _) Hne).
  assert (ap_pages (sl w) !! a = Some d) as Hlk by (eapply sr_page; [exact Hr|set_solver]).
  rewrite (apg_ok _ _ _ Hlk). wsimpl. unfold BIT_SIZE.
  replace ((ap_paddr d + 16 * i - ap_paddr d) / 16) with i
    by (replace (ap_paddr d + 16 * i - ap_paddr d) with (i * 16) by lia; by rewrite Z.div_mul).
  destruct (wp_inv _ _ (free_space_ok (ap_status d) i (po_status d Hd) Hi0)) as (st' & -> & Hst' & Hupd). wsimpl.
  rewrite (set_apg_ok _ _ _ _ Hlk). wsimpl. rewrite (apg_ok _ _ _ (with_apg_lookup _ _ _)). wsimpl.
  rewrite (set_apg_ok _ _ _ _ (with_apg_lookup _ _ _)). wsimpl. rewrite with_apg_twice.
  rewrite (apg_ok _ _ _ (with_apg_lookup _ _ _)). wsimpl. cbn [ap_paddr ap_size ap_num ap_status].
  rewrite (proj2 (Z.eqb_neq _ _)) by lia. apply wp_ok.
  destruct (page_ok_upd d i false st' leap Hd El Hl0 Hld Hi Hbit Hst' Hupd) as [Hd' Hh].
  cbn [Z.b2z negb] in Hd', Hh. change (ap_num d + (0 - 1)) with (ap_num d - 1) in *.
  eexists. split; [done|]. split; [by eapply srep_with_apg|]. split; [done|]. do 3 (split; [done|]). exact Hh.
Qed.

(** C37. Freeing an object ([free] of simple.c) that is not the last one of its
    page: when the first descriptor whose page contains the address is that of the
    object's page, exactly this object is no longer allocated and the page stays
    in use. *)
Theorem slab_free_correct {K : Kmem} w l1 a d l2 obj :
  srep (sl w) (l1 ++ (a, d) :: l2) → page_ok d → holds d obj → ap_num d ≠ 1 →
  Forall (λ nd, in_page obj nd.2 = false) l1 →
  wp (slab_free obj w) (λ w', ∃ d',
    w' = with_apg a d' w ∧ srep (sl w') (l1 ++ (a, d') :: l2) ∧ page_ok d' ∧
    (∀ o, holds d' o ↔ holds d o ∧ o ≠ obj)).
Proof.
  intros. eapply wp_mono; [by apply (slab_free_ok w l1 a d l2 obj)|]. intros w' (d' & ? & ? & ? & _ & _ & _ & ?). by exists d'.
Qed.
