(* ===== verification/Vmm.v ===== *)
(** * Object allocation interface

    kern/mm/vmm/vmm.c and include/aim/vmm.h: [kmalloc], [kfree], [ksize] and the
    caching allocator's entry points.  The page allocator calls [kmalloc] and
    [kfree], and the slab allocator behind them calls [pgalloc] and [pgfree]:
    [kmem n] ties this knot with at most [n] nested calls.  With the bootstrap
    allocator there is no nesting, and [kmem] satisfies the laws that palloc.c is
    verified against ([bootstrap_laws]). *)
From S2P Require Import Prelude Util DList MmState Palloc Pmm Simple.

Section ops.
Context {K : Kmem}.

(** The functions of the registered [struct simple_allocator]; the dummies of
    vmm.c return NULL, do nothing and return 0. *)
Definition simple_allocator_alloc (size flags : Z) (w : world) : res (Z * world) :=
  match simple_cur w with
  | DummySimple => Ok (NULL, w)
  | BootstrapSimple => simple_alloc size flags w
  | SlabSimple => slab_alloc size flags w
  end.
Definition impl_free (i : simple_impl) (obj : Z) (w : world) : res world :=
  match i with
  | DummySimple => Ok w
  | BootstrapSimple => simple_free obj w
  | SlabSimple => slab_free obj w
  end.
Definition simple_allocator_size (obj : Z) (w : world) : res Z :=
  match simple_cur w with
  | DummySimple => Ok 0
  | BootstrapSimple => simple_size obj w
  | SlabSimple => slab_size obj w
  end.

Definition kmalloc (size flags : Z) (w : world) : res (Z * world) :=
  if PAGE_SIZE / 2 <? size then Err Panicked
  else
    '(result, w) ← simple_allocator_alloc size flags w;
    let w := if negb (Z.land flags GFP_ZERO =? 0) then upd_bytes (fill result 0 size) w else w in
    Ok (result, w).

Definition kcalloc (nmemb size flags : Z) (w : world) : res (Z * world) :=
  '(result, w) ← kmalloc (w32 (nmemb * size)) flags w;
  Ok (result, upd_bytes (fill result 0 (w32 (nmemb * size))) w).

Definition kfree (obj : Z) (w : world) : res world :=
  if negb (obj =? NULL) then impl_free (simple_cur w) obj w else Ok w.

Definition ksize (obj : Z) (w : world) : res Z :=
  if negb (obj =? NULL) then simple_allocator_size (premap_addr obj) w else Ok 0.

Definition set_simple_allocator (i : option simple_impl) (w : world) : world :=
  match i with None => w | Some i => set_simple_cur i w end.
Definition get_simple_allocator (w : world) : simple_impl := simple_cur w.

End ops.

(** The knot: [n] bounds the depth of the nesting of object and page requests;
    [junk] is what a new object's memory holds. *)
Fixpoint kmem (junk : Z → world → link * pages) (n : nat) : Kmem :=
  match n with
  | O => {| kmalloc_ _ _ _ := Err OutOfFuel; kfree_ _ _ := Err OutOfFuel; junk_ := junk |}
  | S n => {| kmalloc_ := kmalloc (K := kmem junk n); kfree_ := kfree (K := kmem junk n); junk_ := junk |}
  end.

(** ** The caching allocator's entry points

    [struct caching_allocator] is a table of functions; only the dummies of vmm.c
    are ever installed, and [set_caching_allocator] would replace the table. *)
Record allocator_cache := Cache { c_head : Z; c_size : Z; c_align : Z; c_flags : Z }.

Record caching_allocator := CachingAllocator {
  ca_create : allocator_cache → world → res (Z * world);
  ca_destroy : allocator_cache → world → res (Z * world);
  ca_alloc : allocator_cache → world → res (Z * world);
  ca_free : allocator_cache → Z → world → res (Z * world);
  ca_trim : allocator_cache → world → res world }.

Definition dummy_caching : caching_allocator := {|
  ca_create _ w := Ok (EOF_, w);
  ca_destroy _ w := Ok (EOF_, w);
  ca_alloc _ w := Ok (NULL, w);
  ca_free _ _ w := Ok (EOF_, w);
  ca_trim _ w := Ok w |}.

Section caching.
Context (C : caching_allocator).

Definition cache_create (c : option allocator_cache) (w : world) : res (Z * world) :=
  match c with None => Ok (EOF_, w) | Some c => ca_create C c w end.
Definition cache_destroy (c : option allocator_cache) (w : world) : res (Z * world) :=
  match c with None => Ok (EOF_, w) | Some c => ca_destroy C c w end.
Definition cache_alloc (c : option allocator_cache) (w : world) : res (Z * world) :=
  match c with
  | None => Ok (NULL, w)
  | Some c =>
    '(retval, w) ← ca_alloc C c w;
    let w := if negb (Z.land (c_flags c) GFP_ZERO =? 0) then upd_bytes (fill retval 0 (c_size c)) w else w in
    Ok (retval, w)
  end.
Definition cache_free (c : option allocator_cache) (obj : Z) (w : world) : res (Z * world) :=
  match c with
  | None => Ok (EOF_, w)
  | Some c =>
    let w := if Z.land (c_flags c) GFP_UNSAFE =? 0 then upd_bytes (fill obj JUNKBYTE (c_size c)) w else w in
    ca_free C c obj w
  end.
Definition cache_trim (c : option allocator_cache) (w : world) : res world :=
  match c with None => Ok w | Some c => ca_trim C c w end.
End caching.

(** ** The bootstrap allocator satisfies the laws of the interface *)
Record boot_J (w : world) : Prop := BootJ {
  bj_cur : simple_cur w = BootstrapSimple;
  bj_bottom : 0 < bottom (bp w) ≤ top (bp w);
  bj_top : top (bp w) ≤ bottom (bp w) + ssize (bp w);
  bj_end : bottom (bp w) + ssize (bp w) + SIZEOF_MEM_BLOCK < 2 ^ 32;
  bj_live p : p ∈ live w → ¬ (top (bp w) ≤ p < bottom (bp w) + ssize (bp w)) }.

#[global] Instance bootstrap_laws junk n : KmemLaws (kmem junk (S n)) boot_J.
Proof.
  split; [split|].
  - intros p w k b Hp _ _ [Hc Hb Ht He Hl]. cbn [kmem kfree_]. unfold kfree.
    assert (boot_J w) as HJ.
    { split; try done. intros q Hq. apply Hl. unfold live. wsimpl. rewrite dom_insert_L. set_solver. }
    change (simple_cur w = BootstrapSimple) in Hc. rewrite Hc.
    by destruct (negb (p =? NULL)); simpl; split.
  - intros w w' [Hc Hb Ht He Hl] H1 _ _ H2 H3 H4. split; rewrite ?H1, ?H2, ?H4; done.
  - intros w [Hc Hb Ht He Hl]. unfold SIZEOF_MEM_BLOCK in *. cbn [kmem kmalloc_]. unfold kmalloc, simple_allocator_alloc.
    change (PAGE_SIZE / 2 <? 32) with false. change (negb (Z.land 0 GFP_ZERO =? 0)) with false. cbv iota. rewrite Hc. unfold simple_alloc.
    rewrite !wrap_small by (unfold fits; lia).
    destruct (Z.ltb_spec (bottom (bp w) + ssize (bp w)) (top (bp w) + 32)); msimpl; [by left|right].
    split; [unfold NULL; lia|]. split; [intros Hin; apply (Hl _ Hin); lia|]. split; [done|].
    intros k b. unfold SIZEOF_MEM_BLOCK in *.
    split; wsimpl; cbn [top bottom ssize]; unfold SIZEOF_MEM_BLOCK; rewrite ?(wrap_small 32 (top (bp w) + 32)) by (unfold fits; lia);
      try done; try lia.
    intros p. unfold live. wsimpl. rewrite dom_insert_L.
    intros [->%elem_of_singleton|Hin]%elem_of_union; [lia|]. apply Hl in Hin. lia.
Qed.
