(* ===== verification/Init.v ===== *)
(** * Bringing up memory management

    kern/init/init.c ([do_early_initcalls], [do_initcalls], [allocator_init],
    [test_allocator]) and [init_free_pages] of kern/arch/mips/arch_mmu.c.  The
    addresses that the linker chooses are the fields of [layout]. *)
From S2P Require Import Prelude Util DList MmState Palloc Pmm Simple Vmm.

Record layout := Layout {
  simple1_start : Z;           (* the bootstrap heap *)
  kern_end : Z;                (* end of the kernel image *)
  palloc_h : Z; palloc_t : Z;  (* [h] and [t] of palloc.c *)
  simple_h : Z; simple_t : Z   (* [h] and [t] of simple.c *) }.

Definition LOWRAM_TOP : Z := 0x10000000.
Definition SIZEOF_PAGES : Z := 24.

Section init.
Context (junk : Z → world → link * pages) (depth : nat) (ly : layout).

#[local] Instance K : Kmem := kmem junk depth.

Definition init_free_pages (w : world) : res world :=
  let kend := ALIGN_ABOVE 32 (kva2pa (kern_end ly)) PAGE_SIZE in
  '(p, w) ← kmalloc SIZEOF_PAGES 0 w;
  if p =? NULL then Err BadPtr
  else free_pages (Pages kend (w64 (w32 (LOWRAM_TOP - kend))) GFP_UNSAFE) w.

(** The first half of [allocator_init]: the bootstrap heap and the free pages. *)
Definition boot_pages (w : world) : res world :=
  '(_, w) ← simple_allocator_bootstrap (simple1_start ly) 0x8000 w;
  '(_, w) ← page_allocator_init (palloc_h ly) (palloc_t ly) w;
  init_free_pages w.

Definition allocator_init (w : world) : res world :=
  w ← boot_pages w;
  let old := get_simple_allocator w in
  '(_, w) ← simple_allocator_init (simple_h ly) (simple_t ly) w;
  '(_, w) ← page_allocator_move (impl_free old) w;
  Ok w.

(** [test_allocator()], with the addresses it prints. *)
Definition test_allocator (w : world) : res (list Z * world) :=
  '(page1, w) ← pgalloc w; '(page2, w) ← pgalloc w;
  w ← pgfree (w32 page1) w;
  '(page3, w) ← pgalloc w;
  w ← pgfree (w32 page2) w; w ← pgfree (w32 page3) w;
  '(a32, w) ← kmalloc 32 0 w; '(b32, w) ← kmalloc 32 0 w;
  w ← kfree a32 w;
  '(c32, w) ← kmalloc 32 0 w;
  '(a16, w) ← kmalloc 16 0 w; '(b16, w) ← kmalloc 16 0 w;
  w ← kfree b32 w; w ← kfree c32 w; w ← kfree a16 w; w ← kfree b16 w;
  '(a64, w) ← kmalloc 64 0 w;
  w ← kfree a64 w;
  Ok ([page1; page2; page3; a32; b32; c32; a16; b16; a64], w).
End init.

(** The static variables before [allocator_init]. *)
Definition start_world (ly : layout) : world :=
  World (Palloc (<[palloc_h ly := Link 0 0]> {[palloc_t ly := Link 0 0]})
           (<[palloc_h ly := Pages 0 0 0]> {[palloc_t ly := Pages 0 0 0]}) 0 0 0)
    DummyPages (Bump 0 0 0)
    (Slab (<[simple_h ly := Link 0 0]> {[simple_t ly := Link 0 0]})
       (<[simple_h ly := APage 0 0 0 []]> {[simple_t ly := APage 0 0 0 []]}) 0 0 0 0)
    DummySimple (λ _, 0).

(** ** Initialisation calls

    [do_early_initcalls] and [do_initcalls] run every function of their linker
    section; the result is -1 if the bitwise or of the results is negative. *)
Definition run_initcalls {S} (calls : list (S → res (Z * S))) (s : S) : res (Z * S) :=
  '(result, s) ← foldl (λ acc call,
    '(result, s) ← acc; '(ret, s) ← call s; Ok (Z.lor result ret, s)) (Ok (0, s)) calls;
  Ok (if result <? 0 then -1 else 0, s).
Definition do_early_initcalls {S} := @run_initcalls S.
Definition do_initcalls {S} := @run_initcalls S.

(** ** Booting *)
Definition kend (ly : layout) : Z := ALIGN_ABOVE 32 (kva2pa (kern_end ly)) PAGE_SIZE.

Record layout_ok (ly : layout) : Prop := LayoutOk {
  lo_heap : 0 < simple1_start ly ∧ simple1_start ly + 0x8000 + SIZEOF_MEM_BLOCK < 2 ^ 32;
  lo_ends : palloc_h ly ≠ palloc_t ly;
  lo_h : ¬ (simple1_start ly ≤ palloc_h ly < simple1_start ly + 0x8000);
  lo_t : ¬ (simple1_start ly ≤ palloc_t ly < simple1_start ly + 0x8000);
  lo_kend : KERN_BASE ≤ kern_end ly < KERN_BASE + LOWRAM_TOP - PAGE_SIZE }.

Lemma kend_ok ly : layout_ok ly → 0 ≤ kend ly < LOWRAM_TOP ∧ kend ly mod PAGE_SIZE = 0.
Proof.
  intros [_ _ _ _ Hk]. unfold kend, kva2pa, KERN_BASE, LOWRAM_TOP, PAGE_SIZE in *.
  rewrite wrap_small by (unfold fits; lia). change 4096 with (2 ^ 12).
  rewrite (ALIGN_ABOVE_no_wrap 32 12) by (unfold fits; lia).
  pose proof (ceil_bounds 32 12 ltac:(lia) (kern_end ly - 2147483648)).
  split; [lia|]. rewrite Z.mul_comm. apply Z_mod_mult.
Qed.

(** C25. Booting the page allocator: for every link layout in which the static
    nodes lie outside the bootstrap heap and the kernel image ends below the top
    of low memory, setting up the bootstrap heap, initialising the page allocator
    and freeing the memory above the image succeeds without a panic, and leaves
    exactly one free block, from the first page after the image to the top of low
    memory, in a heap that satisfies the allocator's invariants. *)
Theorem boot_pages_correct junk n ly :
  layout_ok ly →
  wp (boot_pages junk (S n) ly (start_world ly)) (λ w,
    boot_J w ∧ pm_inv w [(kend ly, LOWRAM_TOP - kend ly)]).
Proof.
  intros Hly. destruct (kend_ok ly Hly) as [Hk Hm]. destruct Hly as [[Hh0 Hh1] Hne Hh Ht _].
  unfold SIZEOF_MEM_BLOCK in Hh1.
  unfold boot_pages, simple_allocator_bootstrap. msimpl.
  set (w0 := set_simple_cur _ _).
  assert (live w0 = {[palloc_h ly; palloc_t ly]}) as Hlive.
  { unfold live, w0, start_world. wsimpl. rewrite dom_insert_L, dom_singleton_L. done. }
  destruct (wp_inv _ _ (page_allocator_init_ok (palloc_h ly) (palloc_t ly) w0 Hne
    ltac:(rewrite Hlive; set_solver) ltac:(rewrite Hlive; set_solver)))
    as ([r w1] & -> & -> & Hi1 & Hc1 & Hl1 & Hb1 & _ & Hs1 & _). msimpl.
  unfold init_free_pages, kmalloc, simple_allocator_alloc.
  change (PAGE_SIZE / 2 <? SIZEOF_PAGES) with false. change (negb (Z.land 0 GFP_ZERO =? 0)) with false.
  cbv iota. rewrite Hs1. unfold w0 at 1. wsimpl. unfold simple_alloc. rewrite Hb1. unfold w0. wsimpl.
  cbn [top bottom ssize]. unfold SIZEOF_PAGES.
  rewrite (wrap_small 32 (simple1_start ly + 0x8000)), (wrap_small 32 (simple1_start ly + 24)) by (unfold fits; lia).
  rewrite (proj2 (Z.ltb_ge _ _)) by lia. msimpl. rewrite (proj2 (Z.eqb_neq _ _)) by (unfold NULL; lia).
  set (w2 := upd_bp _ w1).
  assert (boot_J w2) as HJ.
  { split; unfold w2; wsimpl; rewrite ?Hb1, ?Hs1; unfold w0; wsimpl; cbn [top bottom ssize];
      rewrite ?wrap_small by (unfold fits; lia); unfold SIZEOF_MEM_BLOCK; try done; try lia.
    intros p. unfold live. wsimpl. fold (live w1). rewrite Hl1, Hlive. set_solver by lia. }
  fold (kend ly). rewrite (wrap_small 32 (LOWRAM_TOP - kend ly)), wrap_small
    by (unfold fits, LOWRAM_TOP in *; lia).
  unfold free_pages. cbn [pflags]. change (Z.land GFP_UNSAFE GFP_UNSAFE =? 0) with false. cbv iota. msimpl.
  unfold allocator_free. change (page_cur w2) with (page_cur w1). rewrite Hc1.
  assert (freed_ok (Pages (kend ly) (LOWRAM_TOP - kend ly) GFP_UNSAFE) []) as Hf.
  { unfold freed_ok. msimpl. unfold LOWRAM_TOP in *. split_and!; try done; try lia. intros x _. apply avail_nil. }
  assert ((LOWRAM_TOP - kend ly) mod PAGE_SIZE = 0) as Hsm by (rewrite Zminus_mod, Hm; done).
  destruct (free_refines (K := kmem junk (S n)) (J := boot_J) (Pages (kend ly) (LOWRAM_TOP - kend ly) GFP_UNSAFE)
    w2 [] HJ Hi1 Hsm Hf) as [(w' & Hno & _)|Hw].
  - exfalso. cbn [kmem kmalloc_] in Hno. revert Hno. unfold kmalloc, simple_allocator_alloc.
    change (PAGE_SIZE / 2 <? SIZEOF_MEM_BLOCK) with false. change (negb (Z.land 0 GFP_ZERO =? 0)) with false.
    cbv iota. rewrite (bj_cur w2 HJ). unfold simple_alloc, w2, SIZEOF_MEM_BLOCK. wsimpl. rewrite Hb1. unfold w0.
    wsimpl. cbn [top bottom ssize]. rewrite ?wrap_small by (unfold fits; rewrite ?wrap_small by (unfold fits; lia); lia).
    rewrite (proj2 (Z.ltb_ge _ _)) by lia. msimpl. intros [= Hx _]. unfold NULL in Hx. lia.
  - eapply wp_mono; [exact Hw|]. msimpl. intros w' (HJ' & _ & Hc' & Hi'). split; [done|].
    split_and!; [by rewrite Hc'|done|]. intros x [Hx|Hx]%avail_cons; [|by apply avail_nil in Hx].
    unfold LOWRAM_TOP, KERN_BASE in *. lia.
Qed.

(** ** A concrete boot *)
Definition demo_layout : layout :=
  Layout 0x80200000 0x80210000 0x80100000 0x80100020 0x80100040 0x80100080.
Definition demo_junk : Z → world → link * pages := λ _ _, (Link 7 7, Pages 7 7 7).

Lemma demo_layout_ok : layout_ok demo_layout.
Proof. split; vm_compute; intuition congruence. Qed.

Lemma boot_pages_correct_witness :
  wp (boot_pages demo_junk 1 demo_layout (start_world demo_layout)) (λ w,
    pm_inv w [(0x210000, 0xfdf0000)]).
Proof.
  eapply wp_mono; [apply (boot_pages_correct demo_junk 0 demo_layout demo_layout_ok)|].
  intros w [_ H]. exact H.
Defined.

(** What the bring-up followed by [test_allocator] shows: the addresses that are
    printed, the free memory before and after the test, the object allocator in
    use, and whether the test left the list of free blocks as it was. *)
Definition boot_report : res (list Z * (Z * Z) * simple_impl * bool) :=
  w ← allocator_init demo_junk 4 demo_layout (start_world demo_layout);
  '(seen, w') ← test_allocator demo_junk 4 w;
  Ok (seen, (get_free w, get_free w'), simple_cur w',
      bool_decide (map_to_list (mb_pages (pa w')) = map_to_list (mb_pages (pa w)))).

Lemma boot_report_eq : boot_report =
  Ok ([0x212000; 0x213000; 0x212000; 0x80211020; 0x80211040; 0x80211020; 0x80212000; 0x80212010; 0x80212000],
      (0xfdee000, 0xfdee000), SlabSimple, true).
Proof. by vm_compute. Qed.

(** The whole bring-up on a concrete layout, with the object and page
    allocators calling each other: [allocator_init] succeeds, the slab allocator
    is installed, and [test_allocator] then observes that a freed page and a freed
    object are reused ([page3 = page1], [c32 = a32]), that live pages and objects
    are distinct, and that everything it allocated is given back. *)
Theorem allocator_boot_test :
  wp boot_report (λ '(seen, (before, after), cur, same), ∃ page1 page2 a32 b32 a16 b16,
      seen = [page1; page2; page1; a32; b32; a32; a16; b16; a16] ∧
      NoDup [page1; page2] ∧ NoDup [a32; b32; a16; b16] ∧
      before = after ∧ cur = SlabSimple ∧ same = true).
Proof.
  rewrite boot_report_eq. simpl. do 6 eexists. split; [reflexivity|].
  split_and!; try reflexivity; apply (bool_decide_unpack _); by vm_compute.
Qed.

(** ** The state that the witnesses of the allocators' theorems start from *)
Definition boot_w : world :=
  World (Palloc (<[0x80100000 := Link 0x80200018 0]> (<[0x80200018 := Link 0x80100020 0x80100000]>
                   {[0x80100020 := Link 0 0x80200018]}))
           (<[0x80100000 := Pages 0 0 0]> (<[0x80200018 := Pages 0x210000 0xfdf0000 7]>
              {[0x80100020 := Pages 0 0 0]}))
           0x80100000 0x80100020 0xfdf0000)
    PallocPages (Bump 0x80200038 0x80200000 0x8000)
    (sl (start_world demo_layout)) BootstrapSimple (λ _, 0).

Lemma boot_w_reached : boot_pages demo_junk 1 demo_layout (start_world demo_layout) = Ok boot_w.
Proof. by vm_compute. Qed.

Lemma boot_w_J : boot_J boot_w.
Proof.
  split; [done|done|done|done|].
  intros p. unfold live, boot_w. wsimpl. cbn [top bottom ssize].
  rewrite !dom_insert_L, dom_singleton_L, !elem_of_union, !elem_of_singleton. lia.
Qed.

Lemma boot_w_inv : pm_inv boot_w [(0x210000, 0xfdf0000)].
Proof.
  split_and!; [done| |].
  - exists [(0x80200018, (0x210000, 0xfdf0000))]. split; [split|].
    + by vm_compute.
    + apply (bool_decide_unpack _). by vm_compute.
    + intros n p z Hin. apply list_elem_of_singleton in Hin as [= -> -> ->].
      exists 7. by vm_compute.
    + by vm_compute.
  - intros x [Hx|Hx]%avail_cons; [unfold KERN_BASE; lia|by apply avail_nil in Hx].
Qed.

Lemma palloc_alloc_correct_witness :
  wp (alloc (K := kmem demo_junk 1) (Pages 0 0x2000 0) boot_w) (λ '(r, pg, w), boot_J w ∧ (r = 0 ∨ r = -1)).
Proof.
  eapply wp_mono.
  - apply (palloc_alloc_correct (K := kmem demo_junk 1) (J := boot_J) (Pages 0 0x2000 0) boot_w [(0x210000, 0xfdf0000)]).
    + apply boot_w_J.
    + apply boot_w_inv.
    + done.
  - intros [[r pg] w] (HJ & _ & [[-> _]|[-> _]]); split; [done|by left|done|by right].
Defined.

(** The bootstrap heap still has an object after the allocation. *)
Lemma demo_alloc_room :
  match alloc (K := kmem demo_junk 1) (Pages 0 0x2000 0) boot_w with
  | Ok (r, _, w) => r = 0 ∧ match kmalloc_ (Kmem := kmem demo_junk 1) SIZEOF_MEM_BLOCK 0 w with Ok (p, _) => p =? NULL | Err _ => true end = false
  | Err _ => False
  end.
Proof. vm_compute. by split. Qed.

Lemma palloc_roundtrip_witness :
  wp (alloc (K := kmem demo_junk 1) (Pages 0 0x2000 0) boot_w) (λ '(r, pg, w), r = 0 ∧
    wp (free (K := kmem demo_junk 1) pg w) (λ w', pa_inv w' [(0x210000, 0xfdf0000)])).
Proof.
  pose proof (palloc_roundtrip (K := kmem demo_junk 1) (J := boot_J) (Pages 0 0x2000 0) boot_w [(0x210000, 0xfdf0000)]
    boot_w_J (proj1 (proj2 boot_w_inv)) eq_refl eq_refl) as H. pose proof demo_alloc_room as Hr.
  destruct (alloc _ _) as [[[r pg] w]|]; [|done]. cbn [wp] in *. destruct Hr as [-> Hk]. split; [done|].
  destruct (H eq_refl) as [[_ [w1 E]]|Hw]; [by rewrite E in Hk|]. eapply wp_mono; [exact Hw|]. by intros w' [? _].
Defined.

Lemma demo_freed_ok : freed_ok (Pages 0x100000 0x3000 1) [(0x210000, 0xfdf0000)].
Proof.
  unfold freed_ok. msimpl. split_and!; try done. intros x Hx [Hy|Hy]%avail_cons; [lia|by apply avail_nil in Hy].
Qed.

Lemma palloc_free_correct_witness :
  wpp (free (K := kmem demo_junk 1) (Pages 0x100000 0x3000 1) boot_w) (λ w, get_free w = 0xfdf3000).
Proof.
  destruct (palloc_free_correct (K := kmem demo_junk 1) (J := boot_J) (Pages 0x100000 0x3000 1) boot_w
    [(0x210000, 0xfdf0000)] boot_w_J (proj1 (proj2 boot_w_inv)) eq_refl demo_freed_ok) as [[H _]|H].
  - by left.
  - right. eapply wp_mono; [exact H|]. intros w (_ & _ & bs & _ & Hf & _). exact Hf.
Defined.

Lemma page_fill_correct_witness :
  wp (alloc_pages (K := kmem demo_junk 1) (Some (Pages 0 0x1000 2)) boot_w) (λ '(r, pg, w),
    r = 0 ∧ filled 0x210000 0 0x1000 (bytes boot_w) (bytes w)).
Proof.
  eapply wp_mono.
  - apply (page_fill_correct (K := kmem demo_junk 1) (J := boot_J) (Pages 0 0x1000 2) boot_w
      [(0x210000, 0xfdf0000)] 0x210000 [(0x211000, 0xfdef000)] boot_w_J boot_w_inv); done.
  - by intros [[r pg] w] (H1 & H2 & _).
Defined.

Lemma pgalloc_pgfree_witness :
  wp (pgalloc (K := kmem demo_junk 1) boot_w) (λ '(r, w), r = 0x210000).
Proof.
  eapply wp_mono.
  - apply (pgalloc_pgfree (K := kmem demo_junk 1) (J := boot_J) boot_w [(0x210000, 0xfdf0000)] boot_w_J boot_w_inv).
  - intros [r w] (H & _). exact H.
Defined.

(** A slab allocator with one page of 32-byte objects, two of them in use. *)
Definition demo_page : alloced_page := APage 0x80211000 32 2 (5 :: replicate 31 0).
Definition slab_w : world :=
  World (pa boot_w) PallocPages (bp boot_w)
    (Slab (<[0x80100040 := Link 0x80210000 0]> (<[0x80210000 := Link 0x80100080 0x80100040]>
             {[0x80100080 := Link 0 0x80210000]}))
          (<[0x80100040 := APage 0 0 0 []]> (<[0x80210000 := demo_page]> {[0x80100080 := APage 0 0 0 []]}))
          0x80100040 0x80100080 0x80210000 52)
    SlabSimple (λ _, 0).

Lemma slab_w_rep : srep (sl slab_w) ([] ++ (0x80210000, demo_page) :: []).
Proof.
  split.
  - by vm_compute.
  - apply (bool_decide_unpack _). by vm_compute.
  - intros n d Hin. apply list_elem_of_singleton in Hin as [= -> ->]. by vm_compute.
  - eexists. by vm_compute.
Qed.

Lemma demo_page_ok : page_ok demo_page.
Proof.
  split; [split; [done|]| | |].
  - apply (bool_decide_unpack _). by vm_compute.
  - by vm_compute.
  - unfold fri_size. set_solver.
  - by vm_compute.
Qed.

Lemma slab_alloc_correct_witness :
  wp (slab_alloc (K := kmem demo_junk 1) 20 0 slab_w) (λ '(obj, w), ¬ holds demo_page obj).
Proof.
  eapply wp_mono.
  - apply (slab_alloc_correct (K := kmem demo_junk 1) slab_w [] 0x80210000 demo_page [] 20 0 32 slab_w_rep demo_page_ok).
    + done.
    + by vm_compute.
    + done.
    + by vm_compute.
  - intros [obj w] (d' & _ & _ & _ & _ & _ & _ & _ & H & _). exact H.
Defined.

Lemma slab_free_correct_witness :
  wp (slab_free (K := kmem demo_junk 1) 0x80211020 slab_w) (λ w, ∃ d', w = with_apg 0x80210000 d' slab_w ∧ page_ok d').
Proof.
  eapply wp_mono.
  - apply (slab_free_correct (K := kmem demo_junk 1) slab_w [] 0x80210000 demo_page [] 0x80211020 slab_w_rep demo_page_ok).
    + exists 2. split; [|done]. split; [done|]. exists 1. done.
    + done.
    + done.
  - intros w (d' & Hw & _ & Hd & _). by exists d'.
Defined.
