(* ===== verification/Cp0.v ===== *)
(** * The translation buffer of a MIPS processor

    The registers of coprocessor 0 that kern/arch/mips/arch_mmu.c and tlbex.S use
    (include/arch/mips/mipsregs.h, tlb.h, cp0regdef.h), the entries behind them, and
    [tlb_flush].  [tlbwi], [tlbwr] and the lookup are the instructions and the
    address translation of the MIPS32 architecture. *)
From S2P Require Import Prelude Util.

(** An entry: page mask, the upper part of the virtual address of a pair of pages,
    address space number, the common global bit, and the two halves. *)
Record tlb_entry := TlbEntry { e_mask : Z; e_vpn2 : Z; e_asid : Z; e_global : bool; e_lo0 : Z; e_lo1 : Z }.

Record cp0 := Cp0 {
  c0_index : Z; c0_entrylo0 : Z; c0_entrylo1 : Z; c0_pagemask : Z; c0_badvaddr : Z; c0_entryhi : Z; c0_config1 : Z;
  tlb : list tlb_entry }.

Definition write_c0_index v (c : cp0) := Cp0 v (c0_entrylo0 c) (c0_entrylo1 c) (c0_pagemask c) (c0_badvaddr c) (c0_entryhi c) (c0_config1 c) (tlb c).
Definition write_c0_entrylo0 v (c : cp0) := Cp0 (c0_index c) v (c0_entrylo1 c) (c0_pagemask c) (c0_badvaddr c) (c0_entryhi c) (c0_config1 c) (tlb c).
Definition write_c0_entrylo1 v (c : cp0) := Cp0 (c0_index c) (c0_entrylo0 c) v (c0_pagemask c) (c0_badvaddr c) (c0_entryhi c) (c0_config1 c) (tlb c).
Definition write_c0_pagemask v (c : cp0) := Cp0 (c0_index c) (c0_entrylo0 c) (c0_entrylo1 c) v (c0_badvaddr c) (c0_entryhi c) (c0_config1 c) (tlb c).
Definition set_badvaddr v (c : cp0) := Cp0 (c0_index c) (c0_entrylo0 c) (c0_entrylo1 c) (c0_pagemask c) v (c0_entryhi c) (c0_config1 c) (tlb c).
Definition write_c0_entryhi v (c : cp0) := Cp0 (c0_index c) (c0_entrylo0 c) (c0_entrylo1 c) (c0_pagemask c) (c0_badvaddr c) v (c0_config1 c) (tlb c).
Definition set_tlb t (c : cp0) := Cp0 (c0_index c) (c0_entrylo0 c) (c0_entrylo1 c) (c0_pagemask c) (c0_badvaddr c) (c0_entryhi c) (c0_config1 c) t.

(** ** The instructions *)

(** The entry that the registers describe. *)
Definition entry_of (c : cp0) : tlb_entry :=
  TlbEntry (c0_pagemask c) (Z.shiftr (c0_entryhi c) 13) (Z.land (c0_entryhi c) 0xff)
    (Z.testbit (c0_entrylo0 c) 0 && Z.testbit (c0_entrylo1 c) 0) (c0_entrylo0 c) (c0_entrylo1 c).

(** The entry number [k] is written; a number beyond the buffer is undefined. *)
Definition tlb_write (k : Z) (c : cp0) : res cp0 := t ← wr (tlb c) k (entry_of c); Ok (set_tlb t c).
Definition tlbwi (c : cp0) : res cp0 := tlb_write (c0_index c) c.

(** The bits of an entry's half. *)
Definition lo_valid (lo : Z) : bool := Z.testbit lo 1.
Definition lo_dirty (lo : Z) : bool := Z.testbit lo 2.
Definition lo_pfn (lo : Z) : Z := Z.land (Z.shiftr lo 6) 0xffffff.

(** The bit of the address that selects the half: 12 for pages of 4 KB. *)
Definition half_bit (mask : Z) : Z := Z.log2 (Z.lor mask 0x1fff).

(** Whether an entry translates [va] for the address space [asid]. *)
Definition matches (va asid : Z) (e : tlb_entry) : bool :=
  (Z.shiftr va (half_bit (e_mask e) + 1) =? Z.shiftr (e_vpn2 e) (half_bit (e_mask e) - 12)) && (e_global e || (e_asid e =? asid)).

(** The codes of the exceptions in the register Cause. *)
Definition EXC_MOD : Z := 1.
Definition EXC_TLBL : Z := 2.
Definition EXC_TLBS : Z := 3.
Definition exc_code (store : bool) : Z := if store then EXC_TLBS else EXC_TLBL.

(** A physical address; no entry, which enters the refill handler; or another
    exception, which enters the general one. *)
Inductive translation := Phys (pa : Z) | TlbRefill | TlbTrap (code : Z).

Definition entry_translate (store : bool) (va : Z) (e : tlb_entry) : translation :=
  let k := half_bit (e_mask e) in
  let lo := if Z.testbit va k then e_lo1 e else e_lo0 e in
  if negb (lo_valid lo) then TlbTrap (exc_code store)
  else if store && negb (lo_dirty lo) then TlbTrap EXC_MOD
  else Phys (Z.lor (Z.shiftl (Z.shiftr (Z.shiftl (lo_pfn lo) 12) k) k) (va mod 2 ^ k)).

(** A processor does not allow two entries for one address. *)
Definition tlb_lookup (store : bool) (va : Z) (c : cp0) : res translation :=
  match filter (λ e, matches va (Z.land (c0_entryhi c) 0xff) e = true) (tlb c) with
  | [] => Ok TlbRefill
  | [e] => Ok (entry_translate store va e)
  | _ => Err BadPtr
  end.

(** What the processor stores when a translation fails: the address, and its
    upper part in EntryHi. *)
Definition tlb_exception (va : Z) (c : cp0) : cp0 :=
  set_badvaddr va (write_c0_entryhi (Z.lor (Z.shiftl (Z.shiftr va 13) 13) (Z.land (c0_entryhi c) 0xff)) c).

(** ** The functions of the kernel *)
Definition ASID_INVALID : Z := 0xff.
Definition ENTRYHI_DUMMY (idx : Z) : Z := Z.lor (Z.shiftl idx (PAGE_SHIFT + 1)) ASID_INVALID.
Definition PM_4K : Z := 0.
Definition PAGEMASK_VALUE : Z := PM_4K.

Definition get_tlb_entries (c : cp0) : Z := Z.land (Z.shiftr (c0_config1 c) 25) 0x3f + 1.

Definition tlb_flush (c : cp0) : res cp0 :=
  let nr_entries := get_tlb_entries c in
  c ← loop 66 (λ '(i, c),
    if i <? nr_entries then
      let c := write_c0_index i c in
      let c := write_c0_entryhi (ENTRYHI_DUMMY i) c in
      let c := write_c0_entrylo0 0 c in
      let c := write_c0_entrylo1 0 c in
      let c := write_c0_pagemask PAGEMASK_VALUE c in
      c ← tlbwi c;
      Ok (inl (i + 1, c))
    else Ok (inr c)) (0, c);
  Ok (write_c0_entryhi 0 c).

(** [mmu_init] *)
Definition mmu_init (boot_page_index : Z) (c : cp0) : res cp0 := tlb_flush c.

(** [arch_mm_init] of kern/arch/mips/arch_early_init.c *)
Definition arch_mm_init (pgindex : Z) (c : cp0) : res cp0 := mmu_init pgindex c.

(** ** Flushing *)

(** The buffer has the size that Config1 tells. *)
Definition cp0_ok (c : cp0) : Prop := Z.of_nat (length (tlb c)) = get_tlb_entries c.

Definition dummy_entry (i : Z) : tlb_entry := TlbEntry PM_4K i ASID_INVALID false 0 0.

Lemma tlb_entries_bounds c : 1 ≤ get_tlb_entries c ≤ 64.
Proof.
  unfold get_tlb_entries. change 0x3f with (Z.ones 6). rewrite Z.land_ones by lia.
  pose proof (Z.mod_pos_bound (Z.shiftr (c0_config1 c) 25) (2 ^ 6)). change (2 ^ 6) with 64 in *. lia.
Qed.

Lemma entry_of_dummy i : 0 ≤ i →
  (Z.shiftr (ENTRYHI_DUMMY i) 13 = i) ∧ Z.land (ENTRYHI_DUMMY i) 0xff = ASID_INVALID.
Proof.
  intros Hi. unfold ENTRYHI_DUMMY, ASID_INVALID. change (PAGE_SHIFT + 1) with 13. split.
  - rewrite Z.shiftr_lor. change (Z.shiftr 0xff 13) with 0. rewrite Z.lor_0_r, Z.shiftr_shiftl_l by lia.
    by rewrite Z.sub_diag, Z.shiftl_0_r.
  - change 0xff with (Z.ones 8). bitwise. zcases; simpl; [|by rewrite andb_false_r].
    rewrite orb_true_r. done.
Qed.

(** After [tlb_flush] every entry is a dummy, of its own pair of pages and of an
    address space that is not in use, and the current address space is 0. *)
Record flushed (c : cp0) : Prop := Flushed {
  fl_mask : c0_pagemask c = PM_4K;
  fl_hi : c0_entryhi c = 0;
  fl_tlb : tlb c = dummy_entry <$> seqZ 0 (get_tlb_entries c) }.

Lemma flushed_size c : flushed c → cp0_ok c.
Proof. intros [_ _ E]. unfold cp0_ok. rewrite E, length_fmap, length_seqZ. pose proof (tlb_entries_bounds c). lia. Qed.

Lemma tlb_flush_ok c : cp0_ok c → wp (tlb_flush c) (λ c', flushed c' ∧ c0_config1 c' = c0_config1 c).
Proof.
  intros Hc. pose proof (tlb_entries_bounds c) as Hn. unfold tlb_flush. apply wp_bind.
  eapply (wp_loop _ (λ '(i, d), 0 ≤ i ≤ get_tlb_entries c ∧ length (tlb d) = length (tlb c) ∧ c0_config1 d = c0_config1 c ∧ (0 < i → c0_pagemask d = PM_4K) ∧ ∀ j, 0 ≤ j < i → tlb d !! Z.to_nat j = Some (dummy_entry j))
    (λ '(i, _), Z.to_nat (get_tlb_entries c - i))).
  - intros [i d] (Hi & Hl & Hc1 & Hm & Hd). destruct (Z.ltb_spec i (get_tlb_entries c)).
    + unfold tlbwi, tlb_write. cbn [write_c0_pagemask write_c0_entrylo1 write_c0_entrylo0 write_c0_entryhi write_c0_index tlb c0_index].
      unfold cp0_ok in Hc. rewrite wr_ok by lia. cbn [mbind res_bind wp].
      cbn [set_tlb tlb c0_config1 c0_pagemask]. split; [|lia]. split_and!; [lia|lia|by rewrite length_insert|done|done|].
      intros j Hj. unfold entry_of. cbn [c0_pagemask c0_entryhi c0_entrylo0 c0_entrylo1 write_c0_pagemask write_c0_entrylo1 write_c0_entrylo0 write_c0_entryhi write_c0_index].
      destruct (entry_of_dummy i) as [-> ->]; [lia|]. destruct (decide (j = i)) as [->|].
      * rewrite list_lookup_insert_eq by lia. done.
      * rewrite list_lookup_insert_ne by lia. apply Hd. lia.
    + cbn [wp]. assert (i = get_tlb_entries c) as -> by lia. apply wp_ok.
      cbn [write_c0_entryhi c0_pagemask c0_entryhi c0_config1 tlb]. unfold cp0_ok, get_tlb_entries in *. cbn [tlb c0_config1 write_c0_entryhi].
      split; [split|done]; [apply Hm; lia|done|]. unfold get_tlb_entries. cbn [tlb c0_config1 write_c0_entryhi]. rewrite Hc1.
      apply list_eq. intros k. rewrite list_lookup_fmap. destruct (decide (k < length (tlb d))%nat) as [Hk|Hk].
      * specialize (Hd (Z.of_nat k)). rewrite Nat2Z.id in Hd. rewrite Hd by lia. by rewrite lookup_seqZ_lt by lia.
      * by rewrite lookup_ge_None_2, lookup_seqZ_ge by lia.
  - split_and!; try lia; try done.
  - lia.
Qed.

(** A processor with two entries. *)
Definition demo_cp0 : cp0 := Cp0 0 0 0 0 0 0 (Z.shiftl 1 25) [TlbEntry 0 0 0 false 0 0; TlbEntry 0 0 0 false 0 0].
