(* ===== verification/Pgtable.v ===== *)
(** * Page tables

    kern/arch/mips/pgtable.c and include/arch/mips/pgtable.h: a page index is a
    page of 1024 page directory entries, each 0 or the kernel address of a page
    of 1024 page table entries.  Tables are read and written as 32-bit
    little-endian words of the kernel memory [bytes], and their pages come from
    the page allocator, which fills freed pages with junk in the same memory. *)
From S2P Require Import Prelude Util DList MmState Palloc Pmm Simple Vmm Init Cp0.

Definition PTE_LOWMASK : Z := 0xfff.
Definition PTE_CACHEABLE : Z := 0x600.
Definition PTE_DIRTY : Z := 0x100.
Definition PTE_VALID : Z := 0x080.
Definition PTE_GLOBAL : Z := 0x040.
Definition PTXMASK : Z := Z.shiftl 1 (PAGE_SHIFT - WORD_SHIFT) - 1.
Definition NR_PTENTRIES : Z := Z.shiftl 1 (PAGE_SHIFT - WORD_SHIFT).
Definition PTXSHIFT : Z := PAGE_SHIFT.
Definition PDXSHIFT : Z := PTXSHIFT + PAGE_SHIFT - WORD_SHIFT.
Definition VMA_EXEC : Z := 0x01.
Definition VMA_WRITE : Z := 0x02.
Definition VMA_READ : Z := 0x04.

Definition PTE_PADDR (pte : Z) : Z := Z.land pte (w32 (Z.lnot PTE_LOWMASK)).
Definition PTE_FLAGS (pte : Z) : Z := Z.land pte PTE_LOWMASK.
Definition PDX (va : Z) : Z := Z.land (Z.shiftr va PDXSHIFT) PTXMASK.
Definition PTX (va : Z) : Z := Z.land (Z.shiftr va PTXSHIFT) PTXMASK.

(** ** Words in memory *)
Definition ld32 (m : Z → Z) (a : Z) : Z :=
  m a + 2 ^ 8 * m (a + 1) + 2 ^ 16 * m (a + 2) + 2 ^ 24 * m (a + 3).
Definition st32 (a v : Z) (m : Z → Z) : Z → Z :=
  λ x, if (a <=? x) && (x <? a + 4) then (v / 2 ^ (8 * (x - a))) mod 2 ^ 8 else m x.

(** [t[i]] of an array of words at [t]. *)
Definition ent (m : Z → Z) (t i : Z) : Z := ld32 m (t + 4 * i).
Definition set_ent (t i v : Z) (w : world) : world := upd_bytes (st32 (t + 4 * i) v) w.

(** [struct pagedesc] *)
Record pagedesc := PageDesc { pdev : Z; ptev : Z; pdx : Z; ptx : Z }.

Section ops.
Context {K : Kmem}.

(** [__getpagedesc]: the result and, when it is 0, the descriptor. *)
Definition getpagedesc (pgindex addr : Z) (create : bool) (w : world) : res (Z * pagedesc * world) :=
  let pde := ent (bytes w) pgindex (PDX addr) in
  let pd p := PageDesc pgindex p (PDX addr) (PTX addr) in
  if negb (pde =? 0) then Ok (0, pd pde, w)
  else if negb create then Ok (- ENOENT, pd 0, w)
  else
    '(paddr, w) ← pgalloc w;
    if paddr =? w64 (-1) then Ok (- ENOMEM, pd 0, w)
    else
      let p := w32 (pa2kva paddr) in
      let w := upd_bytes (fill p 0 PAGE_SIZE) w in
      let w := set_ent pgindex (PDX addr) p w in
      Ok (0, pd p, w).

(** [__free_intermediate_pgtable] *)
Definition free_intermediate_pgtable (pgindex vaddr size : Z) (w : world) : res world :=
  let pdx_end := PDX (w32 (w32 (vaddr + size) - PAGE_SIZE)) in
  loop 1026 (λ '(pdx, w),
    if pdx <=? pdx_end then
      let pte := ent (bytes w) pgindex pdx in
      used ← loop 1026 (λ i,
        if i <? NR_PTENTRIES then
          if negb (ent (bytes w) pte i =? 0) then Ok (inr true) else Ok (inl (i + 1))
        else Ok (inr false)) 0;
      if (used : bool) then Ok (inl (pdx + 1, w))
      else
        w ← pgfree (kva2pa (ent (bytes w) pgindex pdx)) w;
        Ok (inl (pdx + 1, set_ent pgindex pdx 0 w))
    else Ok (inr w)) (PDX vaddr, w).

Definition init_pgindex (w : world) : res (Z * world) :=
  '(paddr, w) ← pgalloc w;
  if paddr =? w64 (-1) then Ok (NULL, w)
  else w ← pmemset paddr 0 PAGE_SIZE w; Ok (pa2kva paddr, w).

Definition destroy_pgindex (pgindex : Z) (w : world) : res world := pgfree (kva2pa pgindex) w.

(** [__pgtable_perm] *)
Definition pgtable_perm (vma_flags : Z) : Z :=
  Z.lor (Z.lor (Z.lor PTE_VALID PTE_GLOBAL) PTE_CACHEABLE)
    (if negb (Z.land vma_flags VMA_WRITE =? 0) then PTE_DIRTY else 0).

(** The two passes of [map_pages].  The first delivers the error and the address
    it happened at, or [None]. *)
Definition map_check (pgindex pend : Z) (fuel : nat) (pcur vcur : Z) (w : world) : res (option (Z * Z) * world) :=
  loop fuel (λ '(pcur, vcur, w),
    if pcur <? pend then
      '(retcode, pd, w) ← getpagedesc pgindex vcur true w;
      if retcode =? - ENOMEM then Ok (inr (Some (retcode, vcur), w))
      else if negb (ent (bytes w) (ptev pd) (ptx pd) =? 0) then Ok (inr (Some (- EEXIST, vcur), w))
      else Ok (inl (w64 (pcur + PAGE_SIZE), w32 (vcur + PAGE_SIZE), w))
    else Ok (inr (None, w))) (pcur, vcur, w).

Definition map_fill (pgindex pend flags : Z) (fuel : nat) (pcur vcur : Z) (w : world) : res world :=
  loop fuel (λ '(pcur, vcur, w),
    if pcur <? pend then
      '(_, pd, w) ← getpagedesc pgindex vcur false w;
      let w := set_ent (ptev pd) (ptx pd) (Z.lor (w32 pcur) (pgtable_perm flags)) w in
      Ok (inl (w64 (pcur + PAGE_SIZE), w32 (vcur + PAGE_SIZE), w))
    else Ok (inr w)) (pcur, vcur, w).

Definition map_pages (pgindex vaddr paddr size flags : Z) (w : world) : res (Z * world) :=
  let pend := w64 (paddr + size) in
  if negb (IS_ALIGNED 64 paddr PAGE_SIZE) || negb (IS_ALIGNED 32 size PAGE_SIZE)
     || negb (IS_ALIGNED 32 vaddr PAGE_SIZE) then Ok (- EINVAL, w)
  else
    let fuel := S (S (Z.to_nat (size / PAGE_SIZE))) in
    '(failed, w) ← map_check pgindex pend fuel paddr vaddr w;
    match failed with
    | None => w ← map_fill pgindex pend flags fuel paddr vaddr w; Ok (0, w)
    | Some (retcode, vcur) =>
      w ← free_intermediate_pgtable pgindex vaddr (w32 (vcur - vaddr)) w;
      Ok (retcode, w)
    end.

(** [unmap_pages]: the number of bytes, the physical address stored through a
    non-NULL [paddr] ([None] when no page was unmapped), and the new state. *)
Definition unmap_loop (pgindex vend : Z) (fuel : nat) : Z * Z * Z * option Z * world → res (Z * option Z * world) :=
  loop fuel (λ '(vcur, unmapped, pcur, first, w),
    if vcur <? vend then
      '(r, pd, w) ← getpagedesc pgindex vcur false w;
      if r <? 0 then Err Panicked
      else
        let e := ent (bytes w) (ptev pd) (ptx pd) in
        if unmapped =? 0 then
          let pcur := PTE_PADDR e in
          let w := set_ent (ptev pd) (ptx pd) 0 w in
          Ok (inl (w32 (vcur + PAGE_SIZE), unmapped + PAGE_SIZE, w64 (pcur + PAGE_SIZE), Some pcur, w))
        else if negb (e =? pcur) then Ok (inr (unmapped, first, w))
        else
          let w := set_ent (ptev pd) (ptx pd) 0 w in
          Ok (inl (w32 (vcur + PAGE_SIZE), unmapped + PAGE_SIZE, w64 (pcur + PAGE_SIZE), first, w))
    else Ok (inr (unmapped, first, w))).

Definition unmap_pages (pgindex vaddr size : Z) (w : world) : res (Z * option Z * world) :=
  let vend := w32 (vaddr + size) in
  '(unmapped, first, w) ← unmap_loop pgindex vend (S (S (Z.to_nat (size / PAGE_SIZE)))) (vaddr, 0, 0, None, w);
  w ← free_intermediate_pgtable pgindex vaddr (w32 unmapped) w;
  Ok (unmapped, first, w).

Definition set_pages_perm (pgindex addr len flags : Z) (w : world) : res (Z * world) :=
  w ← loop (S (S (Z.to_nat (len / PAGE_SIZE)))) (λ '(i, addr, w),
    if i <? len then
      '(r, pd, w) ← getpagedesc pgindex addr false w;
      if r <? 0 then Err Panicked
      else
        let e := ent (bytes w) (ptev pd) (ptx pd) in
        let w := set_ent (ptev pd) (ptx pd) (Z.land e (w32 (Z.lnot PTE_LOWMASK))) w in
        let e := ent (bytes w) (ptev pd) (ptx pd) in
        let w := set_ent (ptev pd) (ptx pd) (Z.lor e (pgtable_perm flags)) w in
        Ok (inl (w32 (i + PAGE_SIZE), w32 (addr + PAGE_SIZE), w))
    else Ok (inr w)) (0, addr, w);
  Ok (0, w).

Definition uva2kva (pgindex uaddr : Z) (w : world) : res Z :=
  '(r, pd, w) ← getpagedesc pgindex uaddr false w;
  if r <? 0 then Ok NULL
  else Ok (pa2kva (Z.lor (PTE_PADDR (ent (bytes w) (ptev pd) (ptx pd))) (PAGE_OFFSET uaddr))).

End ops.

(** [switch_pgindex] and [get_pgindex]: the slot of the current processor, and
    its translation buffer. *)
Record cpu_mmu := CpuMmu { pgdir_slots : list Z; cp0s : list cp0 }.
Definition switch_pgindex (cpu pgindex : Z) (c : cpu_mmu) : res (Z * cpu_mmu) :=
  slots ← wr (pgdir_slots c) cpu pgindex;
  h ← rd (cp0s c) cpu; h ← tlb_flush h; hs ← wr (cp0s c) cpu h;
  Ok (0, CpuMmu slots hs).
Definition get_pgindex (cpu : Z) (c : cpu_mmu) : res Z := rd (pgdir_slots c) cpu.

(** There are [n] processors. *)
Record mmu_ok (n : nat) (c : cpu_mmu) : Prop := MmuOk {
  mo_slots : length (pgdir_slots c) = n;
  mo_cp0s : length (cp0s c) = n;
  mo_ok : Forall cp0_ok (cp0s c) }.

(** The processor's page index is [pg] and its translation buffer is empty. *)
Definition switched_to (cpu pg : Z) (c : cpu_mmu) : Prop :=
  get_pgindex cpu c = Ok pg ∧ ∃ h, rd (cp0s c) cpu = Ok h ∧ flushed h.

Lemma switch_pgindex_ok n cpu pg c : mmu_ok n c → 0 ≤ cpu < Z.of_nat n →
  wp (switch_pgindex cpu pg c) (λ '(r, c'), r = 0 ∧ mmu_ok n c' ∧ switched_to cpu pg c').
Proof.
  intros [Hs Hh Hok] Hc. unfold switch_pgindex. rewrite wr_ok by lia. cbn [mbind res_bind].
  destruct (lookup_lt_is_Some_2 (cp0s c) (Z.to_nat cpu)) as [h Hlk]; [lia|].
  rewrite (rd_lookup _ _ h) by (done || lia). cbn [mbind res_bind].
  apply wp_bind. eapply wp_mono; [apply tlb_flush_ok; by eapply Forall_lookup_1|]. intros h' [Hf _].
  rewrite wr_ok by lia. cbn [mbind res_bind]. apply wp_ok. split_and!; [done| |].
  - split; cbn [pgdir_slots cp0s]; [by rewrite length_insert..|]. apply Forall_insert; [done|by apply flushed_size].
  - unfold switched_to, get_pgindex. cbn [pgdir_slots cp0s]. split; [|exists h'; split; [|done]]; (apply rd_lookup; [lia|]); apply list_lookup_insert_eq; lia.
Qed.

(** ** Words *)
Lemma ld32_ext m m' a : (∀ x, a ≤ x < a + 4 → m' x = m x) → ld32 m' a = ld32 m a.
Proof. intros H. unfold ld32. by rewrite !H by lia. Qed.

Lemma ld32_st32_eq a v m : fits 32 v → ld32 (st32 a v m) a = v.
Proof.
  intros [H0 H1]. unfold ld32, st32.
  rewrite !(proj2 (Z.leb_le _ _)), !(proj2 (Z.ltb_lt _ _)) by lia. cbn [andb].
  replace (8 * (a - a)) with 0 by lia. replace (8 * (a + 1 - a)) with 8 by lia.
  replace (8 * (a + 2 - a)) with 16 by lia. replace (8 * (a + 3 - a)) with 24 by lia.
  change (2 ^ 0) with 1. change (2 ^ 8) with 256. change (2 ^ 16) with 65536. change (2 ^ 24) with 16777216.
  change (2 ^ 32) with 4294967296 in H1. Z.to_euclidean_division_equations. lia.
Qed.

Lemma ld32_st32_ne a v m b : b + 4 ≤ a ∨ a + 4 ≤ b → ld32 (st32 a v m) b = ld32 m b.
Proof.
  intros H. apply ld32_ext. intros x Hx. unfold st32. zcases; simpl; try done; lia.
Qed.

Lemma st32_out a v (m : Z → Z) x : ¬ (a ≤ x < a + 4) → st32 a v m x = m x.
Proof. intros Hx. unfold st32. zcases; simpl; try done; lia. Qed.

Lemma ld32_fill_0 p n m a : p ≤ a → a + 4 ≤ p + n → ld32 (fill p 0 n m) a = 0.
Proof. intros H1 H2. unfold ld32. by rewrite !fill_in by lia. Qed.

Lemma ld32_fill_ne p c n m a : a + 4 ≤ p ∨ p + n ≤ a → ld32 (fill p c n m) a = ld32 m a.
Proof. intros H. apply ld32_ext. intros x Hx. apply fill_out. lia. Qed.

(** ** The mapping that a page index represents *)
Definition pte_of (m : Z → Z) (pg va : Z) : Z :=
  let e := ent m pg (PDX va) in if e =? 0 then 0 else ent m e (PTX va).

(** An access to a user address through the page tables: the physical address, or
    the code of the exception. *)
Definition walk_access (m : Z → Z) (pg : Z) (store : bool) (va : Z) : Z + Z :=
  let pte := pte_of m pg va in
  if Z.land pte PTE_VALID =? 0 then inr (exc_code store)
  else if store && (Z.land pte PTE_DIRTY =? 0) then inr EXC_MOD
  else inl (Z.lor (PTE_PADDR pte) (PAGE_OFFSET va)).

Lemma land_PTXMASK x : Z.land x PTXMASK = x mod 1024.
Proof. change PTXMASK with (Z.ones 10). by rewrite Z.land_ones. Qed.
Lemma PDX_bounds va : 0 ≤ PDX va < 1024.
Proof. unfold PDX. rewrite land_PTXMASK. apply Z.mod_pos_bound. lia. Qed.
Lemma PTX_bounds va : 0 ≤ PTX va < 1024.
Proof. unfold PTX. rewrite land_PTXMASK. apply Z.mod_pos_bound. lia. Qed.

(** The indices of an address are the digits of its page number. *)
Lemma page_of_indices va : fits 32 va → va / 4096 = PDX va * 1024 + PTX va.
Proof.
  intros Hva. unfold PDX, PTX. rewrite !land_PTXMASK, !Z.shiftr_div_pow2 by (by vm_compute).
  change (2 ^ PDXSHIFT) with 4194304. change (2 ^ PTXSHIFT) with 4096.
  unfold fits in Hva. change (2 ^ 32) with 4294967296 in Hva. Z.to_euclidean_division_equations. lia.
Qed.

Lemma same_indices va va' : fits 32 va → fits 32 va' →
  PDX va = PDX va' → PTX va = PTX va' → va / 4096 = va' / 4096.
Proof. intros H1 H2 H3 H4. rewrite !page_of_indices by done. congruence. Qed.

(** A page of kernel memory that is not free. *)
Definition is_page (p : Z) (bs : blocks) : Prop :=
  p mod 4096 = 0 ∧ KERN_BASE ≤ p ∧ p + 4096 ≤ 2 ^ 32 ∧
  ∀ x, p - KERN_BASE ≤ x < p - KERN_BASE + 4096 → ¬ avail bs x.

(** The tables of a page index are distinct pages that are not free. *)
Record tables (m : Z → Z) (pg : Z) (bs : blocks) : Prop := Tables {
  tb_page : is_page pg bs;
  tb_ent i : 0 ≤ i < 1024 → ent m pg i ≠ 0 → is_page (ent m pg i) bs ∧ ent m pg i ≠ pg;
  tb_inj i j : 0 ≤ i < 1024 → 0 ≤ j < 1024 → ent m pg i ≠ 0 → ent m pg i = ent m pg j → i = j }.

(** Distinct pages do not share a word. *)
Lemma pages_apart p q i j bs : is_page p bs → is_page q bs → p ≠ q → 0 ≤ i < 1024 → 0 ≤ j < 1024 →
  p + 4 * i + 4 ≤ q + 4 * j ∨ q + 4 * j + 4 ≤ p + 4 * i.
Proof. intros (Hp & _) (Hq & _) Hne Hi Hj. Z.to_euclidean_division_equations. lia. Qed.

Lemma ent_same t i j v m : fits 32 v → 0 ≤ i < 1024 → 0 ≤ j < 1024 →
  ent (st32 (t + 4 * i) v m) t j = if j =? i then v else ent m t j.
Proof.
  intros Hv Hi Hj. unfold ent. destruct (Z.eqb_spec j i) as [->|]; [by apply ld32_st32_eq|].
  apply ld32_st32_ne. lia.
Qed.

Lemma ent_other t t' i j v m bs : is_page t bs → is_page t' bs → t ≠ t' → 0 ≤ i < 1024 → 0 ≤ j < 1024 →
  ent (st32 (t + 4 * i) v m) t' j = ent m t' j.
Proof. intros Ht Ht' Hne Hi Hj. apply ld32_st32_ne. destruct (pages_apart t t' i j bs); try done; lia. Qed.

(** Writing a page table entry changes the mapping of that page only. *)
Lemma set_pte_ok m pg bs va v : tables m pg bs → fits 32 va → fits 32 v → ent m pg (PDX va) ≠ 0 →
  let m' := st32 (ent m pg (PDX va) + 4 * PTX va) v m in
  tables m' pg bs ∧ (∀ i, 0 ≤ i < 1024 → ent m' pg i = ent m pg i) ∧
  (∀ va', fits 32 va' → pte_of m' pg va' = if va' / 4096 =? va / 4096 then v else pte_of m pg va').
Proof.
  intros Ht Hva Hv He m'. pose proof (PDX_bounds va) as Hpd. pose proof (PTX_bounds va) as Hpt.
  destruct (tb_ent _ _ _ Ht _ Hpd He) as [Hpage Hne].
  assert (∀ i, 0 ≤ i < 1024 → ent m' pg i = ent m pg i) as Hpg.
  { intros i Hi. apply (ent_other _ _ _ _ _ _ bs); try done. apply Ht. }
  split_and!; [|done|].
  - destruct Ht as [H1 H2 H3]. split; [done| |].
    + intros i Hi. rewrite Hpg by done. by apply H2.
    + intros i j Hi Hj. rewrite !Hpg by done. by apply H3.
  - intros va' Hva'. unfold pte_of. pose proof (PDX_bounds va') as Hpd'. pose proof (PTX_bounds va') as Hpt'.
    rewrite Hpg by done. destruct (Z.eqb_spec (ent m pg (PDX va')) 0) as [E|E].
    + destruct (Z.eqb_spec (va' / 4096) (va / 4096)) as [Ep|]; [|done].
      exfalso. apply He. rewrite !page_of_indices in Ep by done. assert (PDX va = PDX va') by lia. congruence.
    + destruct (decide (PDX va' = PDX va)) as [Ed|Ed].
      * rewrite Ed. unfold m'. rewrite ent_same by done. rewrite !page_of_indices, Ed by done.
        destruct (Z.eqb_spec (PTX va') (PTX va)), (Z.eqb_spec (PDX va * 1024 + PTX va') (PDX va * 1024 + PTX va));
          try done; lia.
      * destruct (Z.eqb_spec (va' / 4096) (va / 4096)) as [Ep|].
        { exfalso. apply Ed. rewrite !page_of_indices in Ep by done. lia. }
        unfold m'. apply (ent_other _ _ _ _ _ _ bs); try done.
        -- by destruct (tb_ent _ _ _ Ht _ Hpd' E).
        -- intros Eq. apply Ed. symmetry. by apply (tb_inj _ _ _ Ht).
Qed.

Lemma is_page_taken p q bs bs' : taken q 4096 bs bs' → is_page p bs → is_page p bs'.
Proof. intros [Ha _] (H1 & H2 & H3 & H4). split_and!; try done. intros x Hx Hav. apply (H4 x Hx), Ha. by left. Qed.

Lemma is_page_fresh p q bs bs' : taken q 4096 bs bs' → 0 ≤ q → is_page p bs → p ≠ q + KERN_BASE.
Proof.
  intros [Ha _] Hq (H1 & H2 & H3 & H4) ->. apply (H4 q); [lia|]. apply Ha. right. lia.
Qed.

(** A new, empty table changes no mapping. *)
Lemma new_table_ok m pg bs bs' va q : tables m pg bs → fits 32 va → ent m pg (PDX va) = 0 →
  taken q 4096 bs bs' → 0 ≤ q → q mod 4096 = 0 → q + 4096 ≤ KERN_BASE →
  let p := q + KERN_BASE in
  let m' := st32 (pg + 4 * PDX va) p (fill p 0 4096 m) in
  tables m' pg bs' ∧ (∀ i, 0 ≤ i < 1024 → ent m' pg i = if i =? PDX va then p else ent m pg i) ∧
  (∀ va', fits 32 va' → pte_of m' pg va' = pte_of m pg va').
Proof.
  intros Ht Hva He Hq Hq0 Hqm Hqb p m'. pose proof (PDX_bounds va) as Hpd.
  assert (p ≠ 0 ∧ fits 32 p) as [Hp0 Hp32] by (unfold p, fits, KERN_BASE in *; lia).
  assert (is_page p bs') as Hp.
  { unfold is_page, p, KERN_BASE in *. destruct Hq as [_ Hd]. split_and!; try lia.
    - rewrite Z.add_mod, Hqm by lia. done.
    - intros x Hx. apply Hd. lia. }
  assert (pg ≠ p) as Hpgp by (eapply is_page_fresh; [done|done|apply Ht]).
  assert (∀ t i, is_page t bs → 0 ≤ i < 1024 → ent (fill p 0 4096 m) t i = ent m t i) as Hfill.
  { intros t i Htp Hi. assert (t ≠ p) as Hne by by eapply is_page_fresh.
    apply ld32_fill_ne. destruct (is_page_taken _ _ _ _ Hq Htp) as (Hm & _), Hp as (Hm' & _).
    Z.to_euclidean_division_equations. lia. }
  assert (∀ i, 0 ≤ i < 1024 → ent m' pg i = if i =? PDX va then p else ent m pg i) as Hpg.
  { intros i Hi. unfold m'. rewrite ent_same by done. destruct (i =? PDX va); [done|]. apply Hfill; [apply Ht|done]. }
  assert (∀ i, 0 ≤ i < 1024 → ent m pg i ≠ 0 → ent m pg i ≠ p) as Hfresh.
  { intros i Hi Hi0. eapply is_page_fresh; [done|done|]. by apply (tb_ent _ _ _ Ht). }
  split_and!; [|done|].
  - split.
    + eapply is_page_taken; [done|apply Ht].
    + intros i Hi. rewrite Hpg by done. destruct (Z.eqb_spec i (PDX va)) as [->|]; [done|].
      intros Hi0. destruct (tb_ent _ _ _ Ht i Hi Hi0). split; [by eapply is_page_taken|done].
    + intros i j Hi Hj. rewrite !Hpg by done.
      destruct (Z.eqb_spec i (PDX va)) as [->|], (Z.eqb_spec j (PDX va)) as [->|]; try done.
      * intros _ Hx. exfalso. apply (Hfresh j Hj); congruence.
      * intros Hi0 Hx. exfalso. by apply (Hfresh i Hi).
      * by apply (tb_inj _ _ _ Ht).
  - intros va' Hva'. unfold pte_of. pose proof (PDX_bounds va') as Hpd'. pose proof (PTX_bounds va') as Hpt'.
    rewrite Hpg by done. destruct (Z.eqb_spec (PDX va') (PDX va)) as [Ed|Ed].
    + rewrite (proj2 (Z.eqb_neq _ _) Hp0), Ed, He. cbn [Z.eqb]. unfold m'.
      rewrite (ent_other _ _ _ _ _ _ bs'); try done; [|eapply is_page_taken; [done|apply Ht]].
      apply ld32_fill_0; lia.
    + destruct (Z.eqb_spec (ent m pg (PDX va')) 0) as [|E]; [done|].
      destruct (tb_ent _ _ _ Ht _ Hpd' E) as [Hpe Hne]. unfold m'.
      rewrite (ent_other _ _ _ _ _ _ bs'); try done; [by apply Hfill| |].
      * eapply is_page_taken; [done|apply Ht].
      * by eapply is_page_taken.
Qed.

(** The memory that the tables occupy. *)
Definition in_page (p a : Z) : Prop := p ≤ a < p + 4096.
Definition table_byte (m : Z → Z) (pg a : Z) : Prop :=
  in_page pg a ∨ ∃ i, 0 ≤ i < 1024 ∧ ent m pg i ≠ 0 ∧ in_page (ent m pg i) a.

(** Tables were only added, and nothing but tables was written. *)
Record grown (m m' : Z → Z) (pg : Z) : Prop := Grown {
  gr_keep i : 0 ≤ i < 1024 → ent m pg i ≠ 0 → ent m' pg i = ent m pg i;
  gr_bytes a : ¬ table_byte m' pg a → m' a = m a }.

(** The physical address [x] belongs to a table of [m] that [m'] does not have. *)
Definition dropped (m m' : Z → Z) (pg x : Z) : Prop :=
  ∃ i, 0 ≤ i < 1024 ∧ ent m pg i ≠ 0 ∧ ent m' pg i = 0 ∧ in_page (ent m pg i) (x + KERN_BASE).

(** The memory that was free is free, or new tables use it. *)
Definition tables_from (m m' : Z → Z) (pg : Z) (bs bs' : blocks) : Prop :=
  ∀ x, avail bs x ↔ avail bs' x ∨ dropped m' m pg x.

Lemma dropped_trans m1 m2 m3 pg x : (∀ i, 0 ≤ i < 1024 → ent m2 pg i = ent m1 pg i ∨ ent m2 pg i = 0) →
  (∀ i, 0 ≤ i < 1024 → ent m3 pg i = ent m2 pg i ∨ ent m3 pg i = 0) → dropped m1 m3 pg x ↔ dropped m1 m2 pg x ∨ dropped m2 m3 pg x.
Proof.
  intros K1 K2. split.
  - intros (i & Hi & E1 & E3 & Hx). destruct (decide (ent m2 pg i = 0)) as [E2|E2]; [left; by exists i|right]. exists i.
    destruct (K1 i Hi) as [E|E]; [|done]. by rewrite E in *.
  - intros [(i & Hi & E1 & E2 & Hx)|(i & Hi & E2 & E3 & Hx)]; exists i.
    + destruct (K2 i Hi) as [E|E]; by rewrite E.
    + destruct (K1 i Hi) as [E|E]; [|done]. by rewrite <-E.
Qed.

Lemma dropped_refl m pg x : ¬ dropped m m pg x.
Proof. by intros (i & _ & E1 & E2 & _). Qed.

Lemma grown_back m m' pg i : grown m m' pg → 0 ≤ i < 1024 → ent m pg i = ent m' pg i ∨ ent m pg i = 0.
Proof. intros [K _] Hi. destruct (decide (ent m pg i = 0)) as [|E]; [by right|left]. by rewrite K. Qed.

Lemma grown_refl m pg : grown m m pg.
Proof. by split. Qed.
Lemma tables_from_refl m pg bs : tables_from m m pg bs bs.
Proof. intros x. split; [by left|]. intros [|Hd]; [done|by apply dropped_refl in Hd]. Qed.

Lemma grown_trans m1 m2 m3 pg : grown m1 m2 pg → grown m2 m3 pg → grown m1 m3 pg.
Proof.
  intros [K1 B1] [K2 B2]. split.
  - intros i Hi Hne. rewrite <-(K1 i Hi Hne) in Hne |- *. by apply K2.
  - intros a Ha. rewrite B2 by done. apply B1. intros [Hp|(i & Hi & Hne & Hp)]; apply Ha; [by left|right].
    exists i. by rewrite (K2 i Hi Hne).
Qed.
Lemma tables_from_trans m1 m2 m3 pg bs1 bs2 bs3 : grown m1 m2 pg → grown m2 m3 pg →
  tables_from m1 m2 pg bs1 bs2 → tables_from m2 m3 pg bs2 bs3 → tables_from m1 m3 pg bs1 bs3.
Proof.
  intros G1 G2 F1 F2 x. rewrite (F1 x), (F2 x), (dropped_trans m3 m2 m1).
  - tauto.
  - intros i Hi. by apply grown_back.
  - intros i Hi. by apply grown_back.
Qed.

(** No table is empty. *)
Definition lean (m : Z → Z) (pg : Z) : Prop :=
  ∀ i, 0 ≤ i < 1024 → ent m pg i ≠ 0 → ∃ va, fits 32 va ∧ PDX va = i ∧ pte_of m pg va ≠ 0.

(** ** Memory that the tables do not use *)
Lemma ent_kept (m m' : Z → Z) t i : (∀ a, in_page t a → m' a = m a) → 0 ≤ i < 1024 → ent m' t i = ent m t i.
Proof. intros Hm Hi. apply ld32_ext. intros x Hx. apply Hm. unfold in_page. lia. Qed.

Lemma tables_busy (m : Z → Z) pg bs a : tables m pg bs → table_byte m pg a → ¬ avail bs (a - KERN_BASE).
Proof.
  intros Ht [Ha|(i & Hi & Hne & Ha)]; [destruct (tb_page _ _ _ Ht) as (_ & _ & _ & P)|destruct (tb_ent _ _ _ Ht i Hi Hne) as [(_ & _ & _ & P) _]];
    apply P; unfold in_page in Ha; lia.
Qed.

Section kept.
Context (m m' : Z → Z) (pg : Z) (Hm : ∀ a, table_byte m pg a → m' a = m a).

Lemma kept_ent i : 0 ≤ i < 1024 → ent m' pg i = ent m pg i.
Proof. intros Hi. apply ent_kept; [|done]. intros a Ha. apply Hm. by left. Qed.
Lemma kept_pte va : pte_of m' pg va = pte_of m pg va.
Proof.
  unfold pte_of. pose proof (PDX_bounds va). pose proof (PTX_bounds va). rewrite kept_ent by done.
  destruct (Z.eqb_spec (ent m pg (PDX va)) 0) as [|Hne]; [done|]. apply ent_kept; [|done]. intros a Ha. apply Hm. right. by exists (PDX va).
Qed.
Lemma kept_tables bs bs' : (∀ a, table_byte m pg a → ¬ avail bs' (a - KERN_BASE)) → tables m pg bs → tables m' pg bs'.
Proof.
  intros Hav [H1 H2 H3]. assert (∀ p, is_page p bs → (∀ a, in_page p a → table_byte m pg a) → is_page p bs') as Hp.
  { intros p (P1 & P2 & P3 & _) Hin. split_and!; try done. intros x Hx. replace x with (x + KERN_BASE - KERN_BASE) by lia. apply Hav, Hin. unfold in_page. lia. }
  split; [apply Hp; [done|by left]| |].
  - intros i Hi. rewrite kept_ent by done. intros Hne. destruct (H2 i Hi Hne). split; [|done]. apply Hp; [done|]. intros a Ha. right. by exists i.
  - intros i j Hi Hj. rewrite !kept_ent by done. by apply H3.
Qed.
Lemma kept_lean : lean m pg → lean m' pg.
Proof. intros Hl i Hi. rewrite kept_ent by done. intros Hne. destruct (Hl i Hi Hne) as (va & V1 & V2 & V3). exists va. by rewrite kept_pte. Qed.
Lemma kept_table_byte a : table_byte m' pg a ↔ table_byte m pg a.
Proof. unfold table_byte. f_equiv. split; intros (i & Hi & R); exists i; [rewrite kept_ent in R by done|rewrite kept_ent by done]; done. Qed.
End kept.

(** An address with given indices. *)
Lemma va_of_indices i j : 0 ≤ i < 1024 → 0 ≤ j < 1024 →
  fits 32 (i * 4194304 + j * 4096) ∧ PDX (i * 4194304 + j * 4096) = i ∧ PTX (i * 4194304 + j * 4096) = j.
Proof.
  intros Hi Hj. assert (fits 32 (i * 4194304 + j * 4096)) as Hf by (unfold fits; lia). split; [done|].
  pose proof (page_of_indices _ Hf) as E. pose proof (PDX_bounds (i * 4194304 + j * 4096)). pose proof (PTX_bounds (i * 4194304 + j * 4096)).
  replace ((i * 4194304 + j * 4096) / 4096) with (i * 1024 + j) in E by (Z.to_euclidean_division_equations; lia). lia.
Qed.

(** Writing an entry of an existing table. *)
Lemma grown_set m pg bs va v : tables m pg bs → fits 32 va → fits 32 v → ent m pg (PDX va) ≠ 0 →
  grown m (st32 (ent m pg (PDX va) + 4 * PTX va) v m) pg.
Proof.
  intros Ht Hva Hv He. destruct (set_pte_ok m pg bs va v Ht Hva Hv He) as (_ & Hent & _).
  pose proof (PDX_bounds va). pose proof (PTX_bounds va). split.
  - intros i Hi _. by apply Hent.
  - intros a Ha. unfold st32. zcases; simpl; try done. exfalso. apply Ha. right. exists (PDX va).
    rewrite Hent by done. unfold in_page. split_and!; (done || lia).
Qed.

Lemma new_table_grown m pg bs bs' va q : ent m pg (PDX va) = 0 → taken q 4096 bs bs' → 0 ≤ q →
  let p := q + KERN_BASE in
  let m' := st32 (pg + 4 * PDX va) p (fill p 0 4096 m) in
  (∀ i, 0 ≤ i < 1024 → ent m' pg i = if i =? PDX va then p else ent m pg i) →
  grown m m' pg ∧ tables_from m m' pg bs bs'.
Proof.
  intros He Htk Hq p m' Hent. pose proof (PDX_bounds va) as Hpd. assert (p ≠ 0) as Hp0 by (unfold p, KERN_BASE; lia).
  assert (ent m' pg (PDX va) = p) as Ep by (rewrite Hent, Z.eqb_refl by done; done). split; [split|].
  - intros i Hi Hne. rewrite Hent by done. destruct (Z.eqb_spec i (PDX va)) as [->|]; done.
  - intros a Ha. unfold m', st32. zcases; simpl; [exfalso; apply Ha; left; unfold in_page; lia|..];
      (apply fill_out; intros Hp; apply Ha; right; exists (PDX va); rewrite Ep; unfold in_page; lia).
  - intros x. rewrite (proj1 Htk x). f_equiv. unfold dropped, in_page. split.
    + intros Hx. exists (PDX va). rewrite Ep. unfold p. split_and!; (done || lia).
    + intros (i & Hi & E1 & E2 & Hx). rewrite Hent in E1, Hx by done. destruct (i =? PDX va); [unfold p in Hx; lia|done].
Qed.

(** Blocks of whole pages: one page can be taken unless there is none. *)
Lemma first_fit_page lo bs : wf lo bs → 0 < total bs → ∃ q bs', first_fit PAGE_SIZE bs = Some (q, bs').
Proof.
  destruct bs as [|[p s] r]; simpl; [lia|]. intros (_ & Hs & _ & Hm & _) _.
  assert (PAGE_SIZE ≤ s) by (unfold PAGE_SIZE in *; Z.to_euclidean_division_equations; lia).
  rewrite (proj2 (Z.leb_le _ _)) by done. eauto.
Qed.

Section laws.
Context {K : Kmem} {J : world → Prop} `{!KfreeLaws K J}.

(** The state in which [pg] is a page index: the page allocator's invariant and
    the tables' together. *)
Definition pt_inv (w : world) (pg : Z) (bs : blocks) : Prop :=
  J w ∧ pm_inv w bs ∧ tables (bytes w) pg bs.

Lemma getpagedesc_found w pg va c : ent (bytes w) pg (PDX va) ≠ 0 →
  getpagedesc pg va c w = Ok (0, PageDesc pg (ent (bytes w) pg (PDX va)) (PDX va) (PTX va), w).
Proof. intros H. unfold getpagedesc. by rewrite (proj2 (Z.eqb_neq _ _) H). Qed.

Lemma getpagedesc_create w pg bs va : pt_inv w pg bs → fits 32 va → 0 < total bs →
  wp (getpagedesc pg va true w) (λ '(r, pd, w'), r = 0 ∧ ptx pd = PTX va ∧
    ptev pd = ent (bytes w') pg (PDX va) ∧ ent (bytes w') pg (PDX va) ≠ 0 ∧
    (∃ bs', pt_inv w' pg bs' ∧ total bs - PAGE_SIZE ≤ total bs' ∧ tables_from (bytes w) (bytes w') pg bs bs') ∧
    grown (bytes w) (bytes w') pg ∧ (∀ i, 0 ≤ i < 1024 → i ≠ PDX va → ent (bytes w') pg i = ent (bytes w) pg i) ∧
    (∀ va', fits 32 va' → pte_of (bytes w') pg va' = pte_of (bytes w) pg va')).
Proof.
  intros (HJ & Hi & Ht) Hva Htot. destruct (decide (ent (bytes w) pg (PDX va) = 0)) as [E|E].
  2:{ rewrite getpagedesc_found by done. apply wp_ok. split_and!; try done.
      exists bs. split; [done|]. unfold PAGE_SIZE. split; [lia|apply tables_from_refl]. }
  unfold getpagedesc. rewrite E. cbn [Z.eqb negb].
  pose proof Hi as (_ & (l & _ & _ & Hwf & _) & _).
  destruct (first_fit_page _ _ Hwf Htot) as (q & bs' & Eff).
  pose proof (pgalloc_ok w bs HJ Hi) as Ha. rewrite Eff in Ha.
  destruct (wp_inv _ _ Ha) as ([r w1] & -> & -> & HJ1 & Hi1 & Hby & Hq0 & Hqm & Hqb & Htk). msimpl.
  destruct (first_fit_wf PAGE_SIZE (-1) bs q bs' Hwf ltac:(done) ltac:(done) Eff) as (_ & Htt & _).
  rewrite (proj2 (Z.eqb_neq _ _)) by (change (w64 (-1)) with (2 ^ 64 - 1); unfold PAGE_SIZE, KERN_BASE in *; lia).
  rewrite pa2kva_eq by (unfold PAGE_SIZE in *; lia).
  rewrite wrap_small by (unfold fits, PAGE_SIZE, KERN_BASE in *; lia).
  destruct (new_table_ok (bytes w) pg bs bs' va q Ht Hva E Htk Hq0 Hqm Hqb) as (Ht' & Hent & Hpte).
  apply wp_ok. unfold set_ent, PAGE_SIZE. cbn [bytes upd_bytes pdev ptev ptx]. rewrite Hby.
  pose proof (PDX_bounds va) as Hpd.
  assert (ent (st32 (pg + 4 * PDX va) (q + KERN_BASE) (fill (q + KERN_BASE) 0 4096 (bytes w))) pg (PDX va) = q + KERN_BASE) as Enew.
  { rewrite (Hent (PDX va) Hpd). by rewrite Z.eqb_refl. }
  destruct (new_table_grown (bytes w) pg bs bs' va q E Htk Hq0 Hent) as [Hgr Hfrom].
  split_and!; try done; [rewrite Enew; unfold KERN_BASE; lia| |].
  - exists bs'. split; [|split; [unfold PAGE_SIZE in *; lia|done]].
    split_and!; [by eapply km_frame|done|]. unfold upd_bytes. cbn [bytes]. by rewrite Hby.
  - intros i Hi' Hn. rewrite Hent by done. by rewrite (proj2 (Z.eqb_neq _ _)).
Qed.

(** The pages of a range of virtual addresses. *)
Definition page_in (vaddr n va : Z) : Prop := vaddr ≤ va < vaddr + PAGE_SIZE * n.

Lemma same_page vaddr k va : vaddr mod PAGE_SIZE = 0 →
  va / 4096 = (vaddr + PAGE_SIZE * k) / 4096 ↔ vaddr + PAGE_SIZE * k ≤ va < vaddr + PAGE_SIZE * (k + 1).
Proof. unfold PAGE_SIZE. intros Hv. Z.to_euclidean_division_equations. lia. Qed.

(** First pass: the tables exist afterwards and no mapping has changed. *)
Lemma map_check_ok w pg bs vaddr paddr n fuel :
  pt_inv w pg bs → vaddr mod PAGE_SIZE = 0 → 0 ≤ vaddr → 0 ≤ n → vaddr + PAGE_SIZE * n < 2 ^ 32 →
  0 ≤ paddr → paddr + PAGE_SIZE * n < 2 ^ 64 - PAGE_SIZE → PAGE_SIZE * n ≤ total bs →
  (∀ va, page_in vaddr n va → pte_of (bytes w) pg va = 0) → n < Z.of_nat fuel →
  wp (map_check pg (paddr + PAGE_SIZE * n) fuel paddr vaddr w) (λ '(e, w'), e = None ∧
    (∃ bs', pt_inv w' pg bs' ∧ total bs - PAGE_SIZE * n ≤ total bs' ∧ tables_from (bytes w) (bytes w') pg bs bs') ∧
    grown (bytes w) (bytes w') pg ∧
    (∀ i, 0 ≤ i < 1024 → ent (bytes w') pg i ≠ ent (bytes w) pg i → ∃ va, page_in vaddr n va ∧ PDX va = i) ∧
    (∀ va, page_in vaddr n va → ent (bytes w') pg (PDX va) ≠ 0) ∧
    (∀ va, fits 32 va → pte_of (bytes w') pg va = pte_of (bytes w) pg va)).
Proof.
  intros Hi Hvm Hv0 Hn Hvb Hp0 Hpb Htot Hzero Hf. unfold map_check, page_in, PAGE_SIZE in *.
  apply (wp_loop _ (λ '(pcur, vcur, w'), ∃ k bs', 0 ≤ k ≤ n ∧ pcur = paddr + 4096 * k ∧ vcur = vaddr + 4096 * k ∧
      pt_inv w' pg bs' ∧ total bs - 4096 * k ≤ total bs' ∧ (tables_from (bytes w) (bytes w') pg bs bs' ∧ grown (bytes w) (bytes w') pg) ∧
      (∀ i, 0 ≤ i < 1024 → ent (bytes w') pg i ≠ ent (bytes w) pg i → ∃ va, vaddr ≤ va < vaddr + 4096 * n ∧ PDX va = i) ∧
      (∀ va, vaddr ≤ va < vaddr + 4096 * k → ent (bytes w') pg (PDX va) ≠ 0) ∧
      (∀ va, fits 32 va → pte_of (bytes w') pg va = pte_of (bytes w) pg va))
    (λ '(pcur, _, _), Z.to_nat ((paddr + 4096 * n - pcur) / 4096))).
  - intros [[pcur vcur] w'] (k & bs' & Hk & -> & -> & Hi' & Htot' & [Hfr Hgr] & Hnew & Hpde & Hsame).
    destruct (Z.ltb_spec (paddr + 4096 * k) (paddr + 4096 * n)) as [Hlt|Hge].
    + assert (fits 32 (vaddr + 4096 * k)) as Hva by (unfold fits; lia).
      apply wp_bind. eapply wp_mono; [apply (getpagedesc_create w' pg bs'); try done; lia|].
      intros [[r pd] w2] (-> & Hptx & Hptev & Hne & (bs2 & Hi2 & Htot2 & Hfr2) & Hgr2 & Hoth2 & Hsame2).
      unfold PAGE_SIZE in Htot2. change (0 =? - ENOMEM) with false. cbv iota.
      assert (ent (bytes w2) (ptev pd) (ptx pd) = 0) as Hz.
      { assert (pte_of (bytes w2) pg (vaddr + 4096 * k) = 0) as Hpz by (rewrite Hsame2, Hsame by done; apply Hzero; lia).
        unfold pte_of in Hpz. rewrite (proj2 (Z.eqb_neq _ _) Hne) in Hpz. congruence. }
      rewrite Hz. cbn [Z.eqb negb]. apply wp_ok. rewrite !wrap_small by (unfold fits; lia). split.
      * exists (k + 1), bs2. split_and!; try lia; try done; [by eapply tables_from_trans|by eapply grown_trans| | |].
        -- intros i Hii Hch. destruct (decide (i = PDX (vaddr + 4096 * k))) as [->|Hni]; [exists (vaddr + 4096 * k); split; [lia|done]|].
           apply Hnew; [done|]. by rewrite Hoth2 in Hch.
        -- intros va Hr. destruct (decide (va < vaddr + 4096 * k)) as [Hlo|Hhi];
             [rewrite (gr_keep _ _ _ Hgr2 _ (PDX_bounds va)); apply Hpde; lia|].
           assert (va / 4096 = (vaddr + 4096 * k) / 4096) as Ep by (Z.to_euclidean_division_equations; lia).
           rewrite !page_of_indices in Ep by (unfold fits in *; lia). pose proof (PTX_bounds va). pose proof (PTX_bounds (vaddr + 4096 * k)).
           by replace (PDX va) with (PDX (vaddr + 4096 * k)) by lia.
        -- intros va Hr. by rewrite Hsame2, Hsame.
      * replace (paddr + 4096 * n - (paddr + 4096 * k + 4096)) with ((n - k - 1) * 4096) by lia.
        replace (paddr + 4096 * n - (paddr + 4096 * k)) with ((n - k) * 4096) by lia. rewrite !Z.div_mul by lia. lia.
    + apply wp_ok. assert (k = n) as -> by lia. split_and!; try done. exists bs'. by split_and!.
  - exists 0, bs. split_and!; try lia; try done. apply tables_from_refl.
  - replace (paddr + 4096 * n - paddr) with (n * 4096) by lia. rewrite Z.div_mul by lia. lia.
Qed.

(** Second pass: every page of the range gets its entry. *)
Lemma map_fill_ok w pg bs vaddr paddr n fl fuel :
  pt_inv w pg bs → vaddr mod PAGE_SIZE = 0 → 0 ≤ vaddr → 0 ≤ n → vaddr + PAGE_SIZE * n < 2 ^ 32 →
  0 ≤ paddr → paddr + PAGE_SIZE * n < 2 ^ 64 - PAGE_SIZE →
  (∀ va, page_in vaddr n va → ent (bytes w) pg (PDX va) ≠ 0) → n < Z.of_nat fuel →
  wp (map_fill pg (paddr + PAGE_SIZE * n) fl fuel paddr vaddr w) (λ w',
    pt_inv w' pg bs ∧ grown (bytes w) (bytes w') pg ∧ (∀ i, 0 ≤ i < 1024 → ent (bytes w') pg i = ent (bytes w) pg i) ∧
    (∀ va, fits 32 va → pte_of (bytes w') pg va =
      if (vaddr <=? va) && (va <? vaddr + PAGE_SIZE * n)
      then Z.lor (w32 (paddr + PAGE_SIZE * ((va - vaddr) / PAGE_SIZE))) (pgtable_perm fl)
      else pte_of (bytes w) pg va)).
Proof.
  intros Hi Hvm Hv0 Hn Hvb Hp0 Hpb Hpde Hf. unfold map_fill, page_in, PAGE_SIZE in *.
  apply (wp_loop _ (λ '(pcur, vcur, w'), ∃ k, 0 ≤ k ≤ n ∧ pcur = paddr + 4096 * k ∧ vcur = vaddr + 4096 * k ∧
      pt_inv w' pg bs ∧ grown (bytes w) (bytes w') pg ∧ (∀ i, 0 ≤ i < 1024 → ent (bytes w') pg i = ent (bytes w) pg i) ∧
      (∀ va, fits 32 va → pte_of (bytes w') pg va =
         if (vaddr <=? va) && (va <? vaddr + 4096 * k)
         then Z.lor (w32 (paddr + 4096 * ((va - vaddr) / 4096))) (pgtable_perm fl)
         else pte_of (bytes w) pg va))
    (λ '(pcur, _, _), Z.to_nat ((paddr + 4096 * n - pcur) / 4096))).
  - intros [[pcur vcur] w'] (k & Hk & -> & -> & Hi' & Hgr & Hent & Hpte).
    destruct (Z.ltb_spec (paddr + 4096 * k) (paddr + 4096 * n)) as [Hlt|Hge].
    + assert (fits 32 (vaddr + 4096 * k)) as Hva by (unfold fits; lia).
      assert (ent (bytes w') pg (PDX (vaddr + 4096 * k)) ≠ 0) as Hne.
      { rewrite Hent by apply PDX_bounds. apply Hpde. lia. }
      rewrite getpagedesc_found by done. msimpl. cbn [ptev ptx]. apply wp_ok.
      rewrite (wrap_small 64), (wrap_small 32 (vaddr + 4096 * k + 4096)) by (unfold fits; lia).
      destruct Hi' as (HJ' & Hpm' & Ht').
      assert (fits 32 (Z.lor (w32 (paddr + 4096 * k)) (pgtable_perm fl))) as Hv.
      { apply fits_lor; [lia|by apply wrap_fits|]. unfold pgtable_perm. by destruct (negb _). }
      destruct (set_pte_ok (bytes w') pg bs (vaddr + 4096 * k) _ Ht' Hva Hv Hne) as (Ht2 & He2 & Hp2).
      split.
      * exists (k + 1). split_and!; try lia; try done.
        -- split; [by eapply km_frame|]. split; [done|exact Ht2].
        -- eapply grown_trans; [exact Hgr|]. by apply (grown_set _ _ bs).
        -- intros i Hii. unfold set_ent, upd_bytes. cbn [bytes]. rewrite He2 by done. by apply Hent.
        -- intros va Hr. unfold set_ent, upd_bytes. cbn [bytes]. rewrite Hp2, Hpte by done.
           destruct (Z.eqb_spec (va / 4096) ((vaddr + 4096 * k) / 4096)) as [Ep|Ep].
           ++ apply (same_page vaddr k va Hvm) in Ep. unfold PAGE_SIZE in Ep.
              rewrite (proj2 (Z.leb_le _ _)), (proj2 (Z.ltb_lt _ _)) by lia. cbn [andb].
              replace ((va - vaddr) / 4096) with k; [done|]. Z.to_euclidean_division_equations. lia.
           ++ assert (¬ (vaddr + 4096 * k ≤ va < vaddr + 4096 * (k + 1))).
              { intros Hx. apply Ep. by apply (same_page vaddr k va Hvm). }
              zcases; simpl; try done; lia.
      * replace (paddr + 4096 * n - (paddr + 4096 * k + 4096)) with ((n - k - 1) * 4096) by lia.
        replace (paddr + 4096 * n - (paddr + 4096 * k)) with ((n - k) * 4096) by lia. rewrite !Z.div_mul by lia. lia.
    + apply wp_ok. assert (k = n) as -> by lia. done.
  - exists 0. split_and!; try lia; try done.  intros va Hr. zcases; simpl; try done; lia.
  - replace (paddr + 4096 * n - paddr) with (n * 4096) by lia. rewrite Z.div_mul by lia. lia.
Qed.
(** Scanning a table for an entry in use. *)
Lemma scan_used m t j : 0 ≤ j < 1024 → ent m t j ≠ 0 →
  loop 1026 (λ i, if i <? NR_PTENTRIES then
      if negb (ent m t i =? 0) then Ok (inr true) else Ok (inl (i + 1))
    else Ok (inr false)) 0 = Ok true.
Proof.
  intros Hj Hne. apply wp_eq. change NR_PTENTRIES with 1024.
  apply (wp_loop _ (λ i, 0 ≤ i ≤ j) (λ i, Z.to_nat (j - i))); [|lia|lia].
  intros i Hi. rewrite (proj2 (Z.ltb_lt _ _)) by lia.
  destruct (Z.eqb_spec (ent m t i) 0) as [E|E]; cbn [negb]; apply wp_ok; [|done].
  assert (i ≠ j) by congruence. lia.
Qed.

(** A table that is still in use is not freed. *)
Lemma free_intermediate_keep pg va w j : fits 32 va → va mod PAGE_SIZE = 0 → va + PAGE_SIZE < 2 ^ 32 →
  0 ≤ j < 1024 → ent (bytes w) (ent (bytes w) pg (PDX va)) j ≠ 0 →
  free_intermediate_pgtable pg va PAGE_SIZE w = Ok w.
Proof.
  intros Hva Hm Hb Hj Hne. unfold free_intermediate_pgtable.
  replace (w32 (w32 (va + PAGE_SIZE) - PAGE_SIZE)) with va
    by (unfold PAGE_SIZE, fits in *; rewrite (wrap_small 32 (va + 4096)) by (unfold fits; lia); rewrite wrap_small by (unfold fits; lia); lia).
  apply wp_eq. apply (wp_loop _ (λ '(k, w'), PDX va ≤ k ≤ PDX va + 1 ∧ w' = w) (λ '(k, _), Z.to_nat (PDX va + 1 - k)));
    [|split; [lia|done]|lia].
  intros [k w'] [Hk ->]. destruct (Z.leb_spec k (PDX va)); [|by apply wp_ok].
  replace k with (PDX va) by lia. rewrite (scan_used _ _ j Hj Hne). msimpl. split; [split; [lia|done]|lia].
Qed.

Lemma perm_bounds fl : 0 < pgtable_perm fl < 4096.
Proof. unfold pgtable_perm. destruct (negb _); by vm_compute. Qed.

Lemma low_bits_apart a b : a mod 4096 = 0 → 0 ≤ b < 4096 → Z.land a b = 0.
Proof.
  intros Ha Hb. apply Z.bits_inj'. intros i Hi. rewrite Z.land_spec, Z.bits_0.
  destruct (decide (i < 12)) as [Hlt|Hge].
  - replace a with (Z.shiftl (a / 4096) 12) by (rewrite Z.shiftl_mul_pow2 by lia; Z.to_euclidean_division_equations; lia).
    rewrite Z.shiftl_spec, Z.testbit_neg_r by lia. done.
  - rewrite (fits_testbit_high 12 b), andb_false_r by (unfold fits; lia). done.
Qed.

Lemma lor_low a b : a mod 4096 = 0 → 0 ≤ b < 4096 → Z.lor a b = a + b.
Proof.
  intros Ha Hb. pose proof (low_bits_apart a b Ha Hb). rewrite Z.add_nocarry_lxor, Z.lxor_lor by done. done.
Qed.

(** The frame of an entry made of a frame address and flags. *)
Lemma PTE_PADDR_lor a b : a mod 4096 = 0 → fits 32 a → 0 ≤ b < 4096 → PTE_PADDR (Z.lor a b) = a.
Proof.
  intros Ha Hf Hb. rewrite lor_low by done. unfold PTE_PADDR. change (w32 (Z.lnot PTE_LOWMASK)) with 4294963200.
  change 4294963200 with (ALIGN_BELOW 32 4294967295 4096).
  assert (∀ x, fits 32 x → Z.land x 4294963200 = 4096 * (x / 4096)) as Hx.
  { intros x Hx. pose proof (ALIGN_BELOW_pow2 32 12 ltac:(lia) x Hx) as E. exact E. }
  change (ALIGN_BELOW 32 4294967295 4096) with 4294963200.
  rewrite Hx; [Z.to_euclidean_division_equations; lia|].
  unfold fits in *. change (2 ^ 32) with 4294967296 in *. Z.to_euclidean_division_equations. lia.
Qed.

Lemma PTE_PADDR_aligned x : PTE_PADDR x mod 4096 = 0.
Proof.
  change 4096 with (2 ^ 12). rewrite <- Z.land_ones by lia. unfold PTE_PADDR. rewrite <- Z.land_assoc.
  change (Z.land (w32 (Z.lnot PTE_LOWMASK)) (Z.ones 12)) with 0. apply Z.land_0_r.
Qed.

Lemma PTE_FLAGS_w64 y : PTE_FLAGS (w64 y) = y mod 4096.
Proof.
  change 4096 with (2 ^ 12). rewrite <- Z.land_ones by lia. unfold PTE_FLAGS. change PTE_LOWMASK with (Z.ones 12).
  bitwise. zcases; simpl; try done; try lia.
Qed.

Lemma IS_ALIGNED_page n x : 12 < n → x mod PAGE_SIZE = 0 → IS_ALIGNED n x PAGE_SIZE = true.
Proof. intros Hn Hx. change PAGE_SIZE with (2 ^ 12) in *. rewrite IS_ALIGNED_pow2 by lia. by apply Z.eqb_eq. Qed.

Lemma perm_nonzero x fl : Z.lor x (pgtable_perm fl) ≠ 0.
Proof. intros [_ E]%Z.lor_eq_0_iff. pose proof (perm_bounds fl). lia. Qed.

(** What the kernel finds behind a user address whose entry is a frame. *)
Lemma uva2kva_entry pg va w f fl : pte_of (bytes w) pg va = Z.lor f (pgtable_perm fl) →
  0 ≤ f → f + 4096 ≤ KERN_BASE → f mod 4096 = 0 → uva2kva pg va w = Ok (pa2kva (f + va mod 4096)).
Proof.
  intros He Hf0 Hf1 Hf2. pose proof (perm_bounds fl). unfold pte_of in He. unfold uva2kva, getpagedesc. unfold KERN_BASE in *.
  destruct (Z.eqb_spec (ent (bytes w) pg (PDX va)) 0) as [Ez|Ez]; cbn [negb].
  { exfalso. rewrite lor_low in He by (try done; lia). lia. }
  msimpl. cbn [ptev ptx]. change (0 <? 0) with false. cbv iota. rewrite He.
  rewrite PTE_PADDR_lor by (try done; try lia; unfold fits; lia).
  unfold PAGE_OFFSET. change PAGE_MASK with (Z.ones 12). rewrite Z.land_ones by lia. change (2 ^ 12) with 4096.
  rewrite lor_low by (try done; apply Z.mod_pos_bound; lia). done.
Qed.

Lemma map_pages_ok w pg bs vaddr paddr n fl :
  pt_inv w pg bs → vaddr mod PAGE_SIZE = 0 → 0 ≤ vaddr → 0 < n → vaddr + PAGE_SIZE * n < 2 ^ 32 →
  paddr mod PAGE_SIZE = 0 → 0 ≤ paddr → paddr + PAGE_SIZE * n ≤ KERN_BASE → PAGE_SIZE * n ≤ total bs →
  (∀ va, page_in vaddr n va → pte_of (bytes w) pg va = 0) →
  wp (map_pages pg vaddr paddr (PAGE_SIZE * n) fl w) (λ '(r, w'), r = 0 ∧
    (∃ bs', pt_inv w' pg bs' ∧ total bs - PAGE_SIZE * n ≤ total bs' ∧ tables_from (bytes w) (bytes w') pg bs bs') ∧
    (grown (bytes w) (bytes w') pg ∧ (lean (bytes w) pg → lean (bytes w') pg)) ∧
    (∀ va, fits 32 va → ¬ page_in vaddr n va → pte_of (bytes w') pg va = pte_of (bytes w) pg va) ∧
    (∀ va, page_in vaddr n va →
      pte_of (bytes w') pg va = Z.lor (paddr + PAGE_SIZE * ((va - vaddr) / PAGE_SIZE)) (pgtable_perm fl) ∧
      uva2kva pg va w' = Ok (pa2kva (paddr + (va - vaddr))))).
Proof.
  intros Hi Hvm Hv0 Hn Hvb Hpm Hp0 Hpb Htot Hzero. unfold map_pages.
  rewrite (IS_ALIGNED_page 64 paddr), (IS_ALIGNED_page 32 vaddr), (IS_ALIGNED_page 32 (PAGE_SIZE * n))
    by (try done; rewrite Z.mul_comm; apply Z_mod_mult). cbn [negb orb].
  unfold KERN_BASE, PAGE_SIZE in *. rewrite (wrap_small 64) by (unfold fits; lia).
  replace (4096 * n / 4096) with n by (rewrite Z.mul_comm, Z.div_mul; lia).
  apply wp_bind. eapply wp_mono; [apply (map_check_ok w pg bs vaddr paddr n); unfold PAGE_SIZE; try done; lia|].
  intros [e w1] (-> & (bs1 & Hi1 & Htot1 & Hfr1) & Hgr1 & Hnew1 & Hpde & Hsame).
  apply wp_bind. eapply wp_mono; [apply (map_fill_ok w1 pg bs1 vaddr paddr n fl); unfold PAGE_SIZE; try done; lia|].
  intros w2 (Hi2 & Hgr2 & Hent2 & Hpte). unfold PAGE_SIZE in *. apply wp_ok. split; [done|].
  split; [exists bs1; split_and!; [done|done|]|].
  { eapply tables_from_trans; [exact Hgr1|exact Hgr2|exact Hfr1|]. intros x. split; [by left|]. intros [|(i & Hii & E1 & E2 & _)]; [done|].
    by rewrite Hent2 in E1. }
  split; [split; [by eapply grown_trans|]|].
  { intros Hlean i Hii Hne. rewrite Hent2 in Hne by done. destruct (decide (ent (bytes w1) pg i = ent (bytes w) pg i)) as [E|E].
    - rewrite E in Hne. destruct (Hlean i Hii Hne) as (va & Hva & Hpd & Hnz). exists va. split_and!; [done|done|]. rewrite Hpte by done.
      destruct (_ && _); [apply perm_nonzero|by rewrite Hsame].
    - destruct (Hnew1 i Hii E) as (va & Hin & Hpd). unfold page_in, PAGE_SIZE in Hin. assert (fits 32 va) as Hva by (unfold fits; lia).
      exists va. split_and!; [done|done|]. rewrite Hpte by done. rewrite (proj2 (Z.leb_le _ _)), (proj2 (Z.ltb_lt _ _)) by lia. apply perm_nonzero. }
  split.
  - intros va Hva Hout. unfold page_in, PAGE_SIZE in *. rewrite Hpte, Hsame by done. zcases; simpl; try done. lia.
  - intros va Hin. unfold page_in, PAGE_SIZE in *. assert (fits 32 va) as Hva by (unfold fits; lia).
    set (f := paddr + 4096 * ((va - vaddr) / 4096)).
    assert (0 ≤ f ∧ f + 4096 ≤ 2147483648 ∧ f mod 4096 = 0 ∧ f + va mod 4096 = paddr + (va - vaddr)) as (Hf0 & Hf1 & Hf2 & Hf3).
    { unfold f. Z.to_euclidean_division_equations. lia. }
    assert (pte_of (bytes w2) pg va = Z.lor f (pgtable_perm fl)) as He.
    { rewrite Hpte by done. rewrite (proj2 (Z.leb_le _ _)), (proj2 (Z.ltb_lt _ _)) by lia. cbn [andb].
      by rewrite wrap_small by (unfold fits; lia). }
    split; [done|]. rewrite (uva2kva_entry pg va w2 f fl) by (done || lia). by rewrite Hf3.
Qed.

(** C3. Mapping a range of pages ([map_pages]): for page-aligned arguments, a
    range below the top of the address space none of whose pages is mapped, and
    enough free memory for the tables, the call returns 0; afterwards every page of
    the range translates to its frame with the requested permissions, [uva2kva]
    delivers the kernel address of the corresponding byte, every other address
    translates as before, and the tables are still separate pages outside the free
    memory. *)
Theorem map_pages_correct w pg bs vaddr paddr n fl :
  pt_inv w pg bs → vaddr mod PAGE_SIZE = 0 → 0 ≤ vaddr → 0 < n → vaddr + PAGE_SIZE * n < 2 ^ 32 →
  paddr mod PAGE_SIZE = 0 → 0 ≤ paddr → paddr + PAGE_SIZE * n ≤ KERN_BASE → PAGE_SIZE * n ≤ total bs →
  (∀ va, page_in vaddr n va → pte_of (bytes w) pg va = 0) →
  wp (map_pages pg vaddr paddr (PAGE_SIZE * n) fl w) (λ '(r, w'), r = 0 ∧ (∃ bs', pt_inv w' pg bs') ∧
    (∀ va, fits 32 va → ¬ page_in vaddr n va → pte_of (bytes w') pg va = pte_of (bytes w) pg va) ∧
    (∀ va, page_in vaddr n va →
      pte_of (bytes w') pg va = Z.lor (paddr + PAGE_SIZE * ((va - vaddr) / PAGE_SIZE)) (pgtable_perm fl) ∧
      uva2kva pg va w' = Ok (pa2kva (paddr + (va - vaddr))))).
Proof.
  intros. eapply wp_mono; [by apply (map_pages_ok w pg bs)|]. intros [r w'] (-> & (bs' & Hinv' & _) & _ & Hsame & Hmap).
  split_and!; try done. by exists bs'.
Qed.

(** ** Unmapping *)

(** The loop of [unmap_pages] clears the first entry and stops. *)
Lemma unmap_loop_first w pg bs vaddr n : pt_inv w pg bs → vaddr mod PAGE_SIZE = 0 → 0 ≤ vaddr → 0 < n →
  vaddr + PAGE_SIZE * n < 2 ^ 32 → ent (bytes w) pg (PDX vaddr) ≠ 0 →
  (n = 1 ∨ ent (bytes w) pg (PDX (vaddr + PAGE_SIZE)) ≠ 0 ∧ PTE_FLAGS (pte_of (bytes w) pg (vaddr + PAGE_SIZE)) ≠ 0) →
  unmap_loop pg (vaddr + PAGE_SIZE * n) (S (S (Z.to_nat n))) (vaddr, 0, 0, None, w) =
    Ok (PAGE_SIZE, Some (PTE_PADDR (pte_of (bytes w) pg vaddr)), set_ent (ent (bytes w) pg (PDX vaddr)) (PTX vaddr) 0 w).
Proof.
  intros (HJ & Hpm & Ht) Hvm Hv0 Hn Hvb Hne Hnext.
  assert (fits 32 vaddr) as Hva by (unfold fits, PAGE_SIZE in *; lia).
  destruct (set_pte_ok (bytes w) pg bs vaddr 0 Ht Hva ltac:(done) Hne) as (_ & He2 & Hp2).
  set (w2 := set_ent (ent (bytes w) pg (PDX vaddr)) (PTX vaddr) 0 w).
  assert (pte_of (bytes w) pg vaddr = ent (bytes w) (ent (bytes w) pg (PDX vaddr)) (PTX vaddr)) as Epte
    by (unfold pte_of; by rewrite (proj2 (Z.eqb_neq _ _) Hne)).
  set (fr := PTE_PADDR (pte_of (bytes w) pg vaddr)).
  pose proof (PTE_PADDR_aligned (pte_of (bytes w) pg vaddr)) as Hfr. fold fr in Hfr.
  unfold unmap_loop, PAGE_SIZE in *. cbn [loop]. rewrite (proj2 (Z.ltb_lt _ _)) by lia. rewrite getpagedesc_found by done. msimpl. cbn [ptev ptx].
  change (0 <? 0) with false. change (0 =? 0) with true. cbv iota. msimpl. rewrite <- Epte. fold fr w2. cbn [loop].
  rewrite (wrap_small 32) by (unfold fits; lia).
  destruct (Z.ltb_spec (vaddr + 4096) (vaddr + 4096 * n)) as [Hlt|Hge]; [|done].
  destruct Hnext as [->|[Hne2 Hfl]]; [lia|].
  assert (ent (bytes w2) pg (PDX (vaddr + 4096)) ≠ 0) as Hne3.
  { unfold w2, set_ent, upd_bytes. cbn [bytes]. rewrite He2 by apply PDX_bounds. done. }
  rewrite getpagedesc_found by done. msimpl. cbn [ptev ptx].
  change (0 <? 0) with false. change (0 + 4096 =? 0) with false. cbv iota.
  assert (pte_of (bytes w2) pg (vaddr + 4096) = pte_of (bytes w) pg (vaddr + 4096)) as Ep2.
  { unfold w2, set_ent, upd_bytes. cbn [bytes]. rewrite Hp2 by (unfold fits; lia).
    rewrite (proj2 (Z.eqb_neq _ _)); [done|]. Z.to_euclidean_division_equations. lia. }
  assert (ent (bytes w2) (ent (bytes w2) pg (PDX (vaddr + 4096))) (PTX (vaddr + 4096)) =
    pte_of (bytes w2) pg (vaddr + 4096)) as -> by (unfold pte_of; by rewrite (proj2 (Z.eqb_neq _ _) Hne3)).
  rewrite Ep2. rewrite (proj2 (Z.eqb_neq _ _)); [done|]. intros Heq. apply Hfl. rewrite Heq, PTE_FLAGS_w64, Z.add_mod, Hfr by lia. done.
Qed.

(** The tables without one that was empty and whose page was given back. *)
Lemma is_page_given p e bs bs' : is_page p bs → e mod 4096 = 0 → p ≠ e →
  (∀ x, avail bs' x ↔ in_page e (x + KERN_BASE) ∨ avail bs x) → is_page p bs'.
Proof.
  intros (P1 & P2 & P3 & P4) E1 Hne Hav. split_and!; try done. intros x Hx [Hi|Ha]%Hav; [|by apply (P4 x)].
  unfold in_page, KERN_BASE in *. Z.to_euclidean_division_equations. lia.
Qed.

Lemma drop_table_ok m m1 pg bs bs' i : tables m pg bs → 0 ≤ i < 1024 → ent m pg i ≠ 0 →
  (∀ j, 0 ≤ j < 1024 → ent m (ent m pg i) j = 0) → (∀ a, ¬ in_page (ent m pg i) a → m1 a = m a) →
  (∀ x, avail bs' x ↔ in_page (ent m pg i) (x + KERN_BASE) ∨ avail bs x) →
  let m' := st32 (pg + 4 * i) 0 m1 in
  tables m' pg bs' ∧ (∀ j, 0 ≤ j < 1024 → ent m' pg j = if j =? i then 0 else ent m pg j) ∧
  (∀ va, fits 32 va → pte_of m' pg va = pte_of m pg va).
Proof.
  intros Ht Hi Hne Hz Hm1 Hav m'. destruct (tb_ent _ _ _ Ht i Hi Hne) as [Hp Hpg]. set (e := ent m pg i) in *.
  assert (∀ t j, is_page t bs → t ≠ e → 0 ≤ j < 1024 → ent m1 t j = ent m t j) as Hkeep.
  { intros t j (T1 & _) Hte Hj. apply ld32_ext. intros x Hx. apply Hm1. destruct Hp as (E1 & _). unfold in_page.
    Z.to_euclidean_division_equations. lia. }
  assert (∀ j, 0 ≤ j < 1024 → ent m' pg j = if j =? i then 0 else ent m pg j) as Hent.
  { intros j Hj. unfold m'. rewrite ent_same by done. destruct (j =? i); [done|]. apply Hkeep; [apply Ht|congruence|done]. }
  split_and!; [|done|].
  - split.
    + apply (is_page_given pg e bs); [apply Ht|apply Hp|congruence|done].
    + intros j Hj. rewrite Hent by done. destruct (Z.eqb_spec j i) as [->|Hji]; [done|]. intros Hj0.
      destruct (tb_ent _ _ _ Ht j Hj Hj0) as [Hpj Hjg]. split; [|done]. apply (is_page_given _ e bs); [done|apply Hp| |done].
      intros E. apply Hji. by apply (tb_inj _ _ _ Ht).
    + intros j k Hj Hk. rewrite !Hent by done. destruct (j =? i), (Z.eqb_spec k i) as [->|]; try done.
      by apply (tb_inj _ _ _ Ht).
  - intros va Hva. unfold pte_of. pose proof (PDX_bounds va) as Hpd. pose proof (PTX_bounds va) as Hpt. rewrite Hent by done.
    destruct (Z.eqb_spec (PDX va) i) as [E|Hni].
    + cbn [Z.eqb]. rewrite E. fold e. rewrite Hz by done. by destruct (e =? 0).
    + destruct (Z.eqb_spec (ent m pg (PDX va)) 0) as [|H0]; [done|]. destruct (tb_ent _ _ _ Ht _ Hpd H0) as [Hpv Hvg].
      assert (ent m pg (PDX va) ≠ e) as Hve by (intros E; apply Hni; by apply (tb_inj _ _ _ Ht)).
      unfold m'. rewrite (ent_other pg _ i _ 0 m1 bs); try done; [|apply Ht]. by apply Hkeep.
Qed.

(** Writing to a page that is no table, and giving it back. *)
Lemma tables_fill m m' pg bs bs' e : tables m pg bs → e mod 4096 = 0 → pg ≠ e → (∀ i, 0 ≤ i < 1024 → ent m pg i ≠ e) →
  (∀ a, ¬ in_page e a → m' a = m a) → (∀ x, avail bs' x ↔ in_page e (x + KERN_BASE) ∨ avail bs x) →
  tables m' pg bs' ∧ (∀ i, 0 ≤ i < 1024 → ent m' pg i = ent m pg i) ∧ (∀ va, fits 32 va → pte_of m' pg va = pte_of m pg va).
Proof.
  intros Ht He Hpg Hte Hm Hav.
  assert (∀ t j, is_page t bs → t ≠ e → 0 ≤ j < 1024 → ent m' t j = ent m t j) as Hkeep.
  { intros t j (T1 & _) Hn Hj. apply ld32_ext. intros x Hx. apply Hm. unfold in_page. Z.to_euclidean_division_equations. lia. }
  assert (∀ i, 0 ≤ i < 1024 → ent m' pg i = ent m pg i) as Hent by (intros; apply Hkeep; [apply Ht|done|done]).
  split_and!; [|done|].
  - split.
    + apply (is_page_given pg e bs); [apply Ht|done..].
    + intros j Hj. rewrite Hent by done. intros H0. destruct (tb_ent _ _ _ Ht j Hj H0) as [Hp Hn].
      split; [|done]. apply (is_page_given _ e bs); try done. by apply Hte.
    + intros i j Hi Hj. rewrite !Hent by done. by apply (tb_inj _ _ _ Ht).
  - intros va Hva. unfold pte_of. pose proof (PDX_bounds va). pose proof (PTX_bounds va). rewrite Hent by done.
    destruct (Z.eqb_spec (ent m pg (PDX va)) 0) as [|Hz]; [done|]. destruct (tb_ent _ _ _ Ht (PDX va)) as [Hp Hn]; try done.
    apply Hkeep; [done| |done]. by apply Hte.
Qed.

(** Tables were only removed, their memory became free, and nothing but tables was
    written. *)
Record shrunk (m m' : Z → Z) (pg : Z) (bs bs' : blocks) : Prop := Shrunk {
  sk_keep i : 0 ≤ i < 1024 → ent m' pg i = ent m pg i ∨ ent m' pg i = 0;
  sk_bytes a : ¬ table_byte m pg a → m' a = m a;
  sk_avail x : avail bs' x ↔ avail bs x ∨ dropped m m' pg x }.

Lemma scan_empty m t : (∀ j, 0 ≤ j < 1024 → ent m t j = 0) →
  loop 1026 (λ i, if i <? NR_PTENTRIES then
      if negb (ent m t i =? 0) then Ok (inr true) else Ok (inl (i + 1))
    else Ok (inr false)) 0 = Ok false.
Proof.
  intros Hz. apply wp_eq. change NR_PTENTRIES with 1024.
  apply (wp_loop _ (λ i, 0 ≤ i ≤ 1024) (λ i, Z.to_nat (1024 - i))); [|lia|lia].
  intros i Hi. destruct (Z.ltb_spec i 1024); [|by apply wp_ok]. rewrite Hz by lia. apply wp_ok. lia.
Qed.

(** Unmapping a page leaves no empty table, if its own is not empty. *)
Lemma lean_unmapped m m' pg va : fits 32 va → (∀ i, 0 ≤ i < 1024 → ent m' pg i = ent m pg i ∨ ent m' pg i = 0) →
  (ent m pg (PDX va) ≠ 0 → ent m' pg (PDX va) ≠ 0 → ∃ va', fits 32 va' ∧ PDX va' = PDX va ∧ pte_of m' pg va' ≠ 0) →
  (∀ va', fits 32 va' → pte_of m' pg va' = if va' / 4096 =? va / 4096 then 0 else pte_of m pg va') → lean m pg → lean m' pg.
Proof.
  intros Hva Hk Hown Hpte Hl i Hi Hne. destruct (Hk i Hi) as [E|E]; [|done]. assert (ent m pg i ≠ 0) as Hne0 by congruence.
  destruct (decide (i = PDX va)) as [->|Hn]; [by apply Hown|].
  destruct (Hl i Hi Hne0) as (va' & Hf & Hpd & Hnz). exists va'. split_and!; [done|done|]. rewrite Hpte by done.
  rewrite (proj2 (Z.eqb_neq _ _)); [done|]. intros Ep. rewrite !page_of_indices in Ep by done. pose proof (PTX_bounds va). pose proof (PTX_bounds va'). lia.
Qed.

(** Unmapping ([unmap_pages]) clears the mapping of the first page of the
    range and delivers its frame.  It clears no other: the comparison of the next
    entry with the expected frame address does not mask the flags, so that a
    valid entry never matches, and the call reports one page whatever the size
    of the range.  Here [j] is another entry in use of the same table, so that
    the table is kept. *)
Theorem unmap_pages_first w pg bs vaddr n j :
  pt_inv w pg bs → vaddr mod PAGE_SIZE = 0 → 0 ≤ vaddr → 0 < n → vaddr + PAGE_SIZE * n < 2 ^ 32 →
  ent (bytes w) pg (PDX vaddr) ≠ 0 → 0 ≤ j < 1024 → j ≠ PTX vaddr →
  ent (bytes w) (ent (bytes w) pg (PDX vaddr)) j ≠ 0 →
  (n = 1 ∨ ent (bytes w) pg (PDX (vaddr + PAGE_SIZE)) ≠ 0 ∧ PTE_FLAGS (pte_of (bytes w) pg (vaddr + PAGE_SIZE)) ≠ 0) →
  wp (unmap_pages pg vaddr (PAGE_SIZE * n) w) (λ '(u, first, w'),
    u = PAGE_SIZE ∧ first = Some (PTE_PADDR (pte_of (bytes w) pg vaddr)) ∧ pt_inv w' pg bs ∧
    ∀ va, fits 32 va → pte_of (bytes w') pg va = if va / PAGE_SIZE =? vaddr / PAGE_SIZE then 0 else pte_of (bytes w) pg va).
Proof.
  intros Hi Hvm Hv0 Hn Hvb Hne Hj Hjp Hje Hnext. unfold unmap_pages.
  assert (fits 32 vaddr) as Hva by (unfold fits, PAGE_SIZE in *; lia).
  unfold PAGE_SIZE in *. rewrite (wrap_small 32) by (unfold fits; lia).
  replace (4096 * n / 4096) with n by (rewrite Z.mul_comm, Z.div_mul; lia).
  pose proof Hi as (HJ & Hpm & Ht).
  destruct (set_pte_ok (bytes w) pg bs vaddr 0 Ht Hva ltac:(done) Hne) as (Ht2 & He2 & Hp2).
  set (w2 := set_ent (ent (bytes w) pg (PDX vaddr)) (PTX vaddr) 0 w).
  assert (pt_inv w2 pg bs) as Hi2 by (split; [by eapply km_frame|]; split; [done|exact Ht2]).
  pose proof (unmap_loop_first w pg bs vaddr n) as Hloop. unfold PAGE_SIZE in Hloop. rewrite Hloop by done. msimpl. fold w2. change (w32 4096) with PAGE_SIZE.
  rewrite (free_intermediate_keep pg vaddr w2 j); try done.
  - unfold PAGE_SIZE. lia.
  - unfold w2, set_ent, upd_bytes. cbn [bytes]. rewrite He2 by apply PDX_bounds.
    rewrite ent_same by (try done; apply PTX_bounds). by rewrite (proj2 (Z.eqb_neq _ _) Hjp).
Qed.

End laws.

(** Giving tables back, with room for the block structure. *)
Section room.
Context {K : Kmem} {J : nat → world → Prop} `{!KmemRoom K J}.

(** An empty table is given back. *)
Lemma free_intermediate_drop r pg bs va w : pt_inv (J := J (S r)) w pg bs → fits 32 va → va mod PAGE_SIZE = 0 → va + PAGE_SIZE < 2 ^ 32 →
  ent (bytes w) pg (PDX va) ≠ 0 → (∀ j, 0 ≤ j < 1024 → ent (bytes w) (ent (bytes w) pg (PDX va)) j = 0) →
  wp (free_intermediate_pgtable pg va PAGE_SIZE w) (λ w', ∃ bs', pt_inv (J := J r) w' pg bs' ∧
    shrunk (bytes w) (bytes w') pg bs bs' ∧ ent (bytes w') pg (PDX va) = 0 ∧
    ∀ va', fits 32 va' → pte_of (bytes w') pg va' = pte_of (bytes w) pg va').
Proof.
  intros (HJ & Hpm & Ht) Hva Hm Hb Hne Hz. unfold free_intermediate_pgtable. pose proof (PDX_bounds va) as Hpd.
  replace (w32 (w32 (va + PAGE_SIZE) - PAGE_SIZE)) with va
    by (unfold PAGE_SIZE, fits in *; rewrite (wrap_small 32 (va + 4096)) by (unfold fits; lia); rewrite wrap_small by (unfold fits; lia); lia).
  destruct (tb_ent _ _ _ Ht _ Hpd Hne) as [(E1 & E2 & E3 & E4) Hpg]. set (e := ent (bytes w) pg (PDX va)) in *.
  assert (∃ f, 1026%nat = S (S f)) as [f Ef] by by exists 1024%nat. rewrite Ef at 1. clear Ef.
  rewrite loop_S, (proj2 (Z.leb_le (PDX va) (PDX va))) by lia.
  fold e. rewrite (scan_empty _ _ Hz). cbn [mbind res_bind].
  assert (kva2pa e = e - KERN_BASE) as -> by (unfold kva2pa; apply wrap_small; unfold fits, KERN_BASE in *; lia).
  pose proof (pgfree_room r (e - KERN_BASE) w bs HJ Hpm) as Hf. unfold PAGE_SIZE, KERN_BASE in *.
  apply wp_inv in Hf as (w1 & -> & HJ1 & Hpm1 & Hfill); try lia; [|Z.to_euclidean_division_equations; lia|exact E4]. cbn [mbind res_bind].
  rewrite loop_S, (proj2 (Z.leb_gt (PDX va + 1) (PDX va))) by lia. cbn [mbind res_bind wp].
  assert (∀ x, avail (put_block (e - 0x80000000) 4096 bs) x ↔ in_page e (x + KERN_BASE) ∨ avail bs x) as Hav.
  { intros x. destruct Hpm as (_ & (l & _ & _ & Hwf & _) & _).
    destruct (put_block_wf (-1) (e - 0x80000000) 4096 bs Hwf) as (_ & _ & Ha); try done; try lia;
      [unfold PAGE_SIZE; Z.to_euclidean_division_equations; lia|]. rewrite Ha. unfold in_page, KERN_BASE. split_lia. }
  assert (∀ a, ¬ in_page e a → bytes w1 a = bytes w a) as Hb1.
  { intros a Ha. rewrite (Hfill a). rewrite pa2kva_eq by (unfold KERN_BASE; lia). unfold in_page, KERN_BASE in *.
    zcases; simpl; try done; lia. }
  destruct (drop_table_ok (bytes w) (bytes w1) pg bs _ (PDX va) Ht Hpd Hne Hz Hb1 Hav) as (Ht' & Hent & Hpte). fold e in Hent.
  exists (put_block (e - 0x80000000) 4096 bs). split_and!; [|split| |done].
  - split; [by eapply km_frame|]. split; [done|exact Ht'].
  - intros i Hi. unfold set_ent, upd_bytes. cbn [bytes]. rewrite Hent by done. destruct (i =? PDX va); [by right|by left].
  - intros a Ha. unfold set_ent, upd_bytes. cbn [bytes]. unfold st32.
    zcases; simpl; [exfalso; apply Ha; left; unfold in_page; lia|..];
      (apply Hb1; intros Hi; apply Ha; right; by exists (PDX va)).
  - intros x. rewrite Hav. split.
    + intros [Hx|Hx]; [right|by left]. exists (PDX va). unfold set_ent, upd_bytes. cbn [bytes]. rewrite Hent, Z.eqb_refl by done. done.
    + intros [Hx|(i & Hi & N1 & N2 & Hx)]; [by right|left]. unfold set_ent, upd_bytes in N2. cbn [bytes] in N2. rewrite Hent in N2 by done.
      destruct (Z.eqb_spec i (PDX va)) as [->|]; [done|by destruct N1].
  - unfold set_ent, upd_bytes. cbn [bytes]. by rewrite Hent, Z.eqb_refl.
Qed.

(** Unmapping one page. *)
Lemma unmap_page_ok r w pg bs va : pt_inv (J := J (S r)) w pg bs → va mod PAGE_SIZE = 0 → 0 ≤ va → va + PAGE_SIZE < 2 ^ 32 →
  ent (bytes w) pg (PDX va) ≠ 0 →
  wp (unmap_pages pg va PAGE_SIZE w) (λ '(n, first, w'), n = PAGE_SIZE ∧
    first = Some (PTE_PADDR (pte_of (bytes w) pg va)) ∧ ∃ bs', pt_inv (J := J r) w' pg bs' ∧ shrunk (bytes w) (bytes w') pg bs bs' ∧
    (lean (bytes w) pg → lean (bytes w') pg) ∧
    ∀ va', fits 32 va' → pte_of (bytes w') pg va' = if va' / 4096 =? va / 4096 then 0 else pte_of (bytes w) pg va').
Proof.
  intros Hi Hm H0 Hb Hne. unfold unmap_pages. rewrite (wrap_small 32 (va + PAGE_SIZE)) by (unfold fits, PAGE_SIZE in *; lia).
  change (Z.to_nat (PAGE_SIZE / PAGE_SIZE)) with (Z.to_nat 1). replace (va + PAGE_SIZE) with (va + PAGE_SIZE * 1) by lia.
  rewrite (unmap_loop_first (K := K) (J := J (S r)) w pg bs va 1 Hi Hm H0 ltac:(lia) ltac:(lia) Hne (or_introl eq_refl)). msimpl.
  assert (fits 32 va) as Hva by (unfold fits, PAGE_SIZE in *; lia). pose proof Hi as (HJ & Hpm & Ht).
  destruct (set_pte_ok (bytes w) pg bs va 0 Ht Hva ltac:(done) Hne) as (Ht2 & He2 & Hp2).
  pose proof (grown_set (bytes w) pg bs va 0 Ht Hva ltac:(done) Hne) as [_ Hby2].
  set (w2 := set_ent (ent (bytes w) pg (PDX va)) (PTX va) 0 w) in *.
  change (st32 (ent (bytes w) pg (PDX va) + 4 * PTX va) 0 (bytes w)) with (bytes w2) in *.
  assert (pt_inv (J := J (S r)) w2 pg bs) as Hi2 by (split; [by eapply km_frame|]; split; [done|exact Ht2]).
  assert (∀ a, table_byte (bytes w2) pg a ↔ table_byte (bytes w) pg a) as Htb.
  { intros a. unfold table_byte. f_equiv. split; intros (i & Hii & H1 & H2); exists i; rewrite He2 in * by done; done. }
  change (w32 PAGE_SIZE) with PAGE_SIZE.
  destruct (decide (Forall (λ j, ent (bytes w2) (ent (bytes w2) pg (PDX va)) j = 0) (seqZ 0 1024))) as [Hz|Hnz].
  - apply wp_bind. eapply wp_mono; [apply (free_intermediate_drop r pg bs va w2); try done|].
    + rewrite He2 by apply PDX_bounds. done.
    + intros j Hj. rewrite Forall_forall in Hz. apply Hz, elem_of_seqZ. lia.
    + intros w3 (bs' & Hi3 & [K3 B3 A3] & Hz3 & Hp3). apply wp_ok. split_and!; [done|done|]. exists bs'.
      assert (∀ va', fits 32 va' → pte_of (bytes w3) pg va' = if va' / 4096 =? va / 4096 then 0 else pte_of (bytes w) pg va') as Hpte
        by (intros va' Hva'; rewrite Hp3 by done; by apply Hp2).
      split_and!; [done| | |done].
      * split; [|intros a Ha|intros x].
        -- intros i Hii. rewrite <-(He2 i Hii). by apply K3.
        -- rewrite B3 by by rewrite Htb. apply Hby2. by rewrite Htb.
        -- rewrite A3. f_equiv. unfold dropped. f_equiv. intros i. split; intros (Hii & R); rewrite He2 in * by done; done.
      * apply (lean_unmapped (bytes w) _ pg va Hva); [|intros _|done].
        -- intros i Hii. rewrite <-(He2 i Hii). by apply K3.
        -- intros Hn. by rewrite Hz3 in Hn.
  - assert (∃ j, 0 ≤ j < 1024 ∧ ent (bytes w2) (ent (bytes w2) pg (PDX va)) j ≠ 0) as (j & Hj & Hjn).
    { apply not_Forall_Exists in Hnz; [|intros ?; apply _]. apply Exists_exists in Hnz as (j & Hj%elem_of_seqZ & Hjn). exists j. split; [lia|done]. }
    rewrite (free_intermediate_keep pg va w2 j) by done. apply wp_ok. split_and!; [done|done|]. exists bs. split_and!; [split; [by apply kr_less, Hi2|apply Hi2]| | |done].
    + split; [|intros a Ha|intros x].
      * intros i Hii. left. by apply He2.
      * apply Hby2. by rewrite Htb.
      * split; [by left|]. intros [|(i & Hii & N1 & N2 & _)]; [done|]. by rewrite He2 in N2.
    + apply (lean_unmapped (bytes w) _ pg va Hva); [|intros _ Hn|done]; [intros i Hii; left; by apply He2|].
      destruct (va_of_indices (PDX va) j (PDX_bounds va) Hj) as (F1 & F2 & F3). eexists. split_and!; [exact F1|exact F2|].
      unfold pte_of. rewrite F2, F3. by rewrite (proj2 (Z.eqb_neq _ _) Hn).
Qed.
End room.

(** ** Witnesses *)
Definition demo_bs : blocks := [(0x210000, 0xfdf0000)].

(** An empty page index at 0x80101000. *)
Lemma demo_page_free p : p mod 4096 = 0 → 0x80100000 ≤ p < 0x80200000 → is_page p demo_bs.
Proof.
  intros Hp Hr. unfold is_page, KERN_BASE. split_and!; try lia.
  intros x Hx [Hy|Hy]%avail_cons; [lia|by apply avail_nil in Hy].
Qed.

Lemma demo_pt_inv : pt_inv (J := boot_J) boot_w 0x80101000 demo_bs.
Proof.
  split; [apply boot_w_J|]. split; [apply boot_w_inv|].
  split; [by apply demo_page_free| |].
  - intros i _ H. by destruct H.
  - intros i j _ _ H. by destruct H.
Qed.

Lemma map_pages_correct_witness :
  wp (map_pages (K := kmem demo_junk 1) 0x80101000 0x400000 0x300000 (PAGE_SIZE * 2) VMA_WRITE boot_w)
    (λ '(r, w'), r = 0 ∧ uva2kva (K := kmem demo_junk 1) 0x80101000 0x401234 w' = Ok (pa2kva 0x301234)).
Proof.
  eapply wp_mono.
  - apply (map_pages_correct (K := kmem demo_junk 1) (J := boot_J) boot_w 0x80101000 demo_bs 0x400000 0x300000 2
      VMA_WRITE demo_pt_inv); try done.
  - intros [r w'] (Hr & _ & _ & H). split; [exact Hr|]. apply (H 0x401234). by vm_compute.
Defined.

(** A page index with one table, at 0x80102000, that maps three pages. *)
Definition mapped_w : world :=
  set_ent 0x80102000 2 0x3027c0 (set_ent 0x80102000 1 0x3017c0 (set_ent 0x80102000 0 0x3007c0
    (set_ent 0x80101000 1 0x80102000 boot_w))).

Lemma mapped_ent i : 0 ≤ i < 1024 → ent (bytes mapped_w) 0x80101000 i = if i =? 1 then 0x80102000 else 0.
Proof.
  intros Hi. unfold mapped_w, set_ent, upd_bytes. cbn [bytes].
  rewrite !(ent_other 0x80102000 0x80101000 _ i _ _ demo_bs) by (try done; by apply demo_page_free).
  rewrite ent_same by done. by destruct (i =? 1).
Qed.

Lemma mapped_pt_inv : pt_inv (J := boot_J) mapped_w 0x80101000 demo_bs.
Proof.
  split; [|split; [apply boot_w_inv|]].
  { destruct boot_w_J as [H1 H2 H3 H4 H5]. by split. }
  split; [by apply demo_page_free| |].
  - intros i Hi. rewrite mapped_ent by done. destruct (i =? 1); [|done]. intros _. split; [by apply demo_page_free|done].
  - intros i j Hi Hj. rewrite !mapped_ent by done.
    destruct (Z.eqb_spec i 1) as [->|], (Z.eqb_spec j 1) as [->|]; done.
Qed.

Lemma unmap_pages_first_witness :
  wp (unmap_pages (K := kmem demo_junk 1) 0x80101000 0x400000 (PAGE_SIZE * 2) mapped_w)
    (λ '(u, first, w'), u = PAGE_SIZE).
Proof.
  eapply wp_mono.
  - apply (unmap_pages_first (K := kmem demo_junk 1) (J := boot_J) mapped_w 0x80101000 demo_bs 0x400000 2 2
      mapped_pt_inv eq_refl).
    + by vm_compute.
    + lia.
    + by vm_compute.
    + by vm_compute.
    + lia.
    + by vm_compute.
    + by vm_compute.
    + right. split; by vm_compute.
  - intros [[u first] w'] (H & _). exact H.
Defined.
