(* ===== verification/Sync.v ===== *)
(** * Locks

    include/arch/mips/arch-sync.h (ticket spinlock, semaphore),
    include/aim/sync.h (recursive lock), include/arch/mips/arch-irq.h (interrupt
    masking) and include/arch/mips/atomic.h (counters).

    The spinlock is a concurrent step relation: any number of processors run
    [spin_lock] and [spin_unlock] on one lock word, interleaved at the level of
    the atomic accesses of the source (the ll/sc pair, each load of [head], the
    load and the store of [spin_unlock]).  The specification is a FIFO queue of
    processors whose first element holds the lock; executions without end state
    the order of the grants and that every waiting processor is served.  The semaphore and the
    recursive lock are given as the effect of a call that obtains the inner lock
    at once; [None] is a call that has to wait. *)
From S2P Require Import Prelude Util.

(** ** The lock word: [head] in the low half, [tail] in the high half *)
Definition lock_head (lk : Z) : Z := Z.land lk 0xffff.
Definition lock_tail (lk : Z) : Z := Z.shiftr lk 16.
Definition EMPTY_LOCK : Z := 0.
Definition spinlock_init (lk : Z) : Z := 0.

(** The local state of a processor that uses the lock: outside; in the loop at
    label 2 of [spin_lock] with its ticket [my_tail]; between [spin_lock] and
    [spin_unlock]; in [spin_unlock], with the value of [head] computed. *)
Inductive pc := Idle | Spin (my_tail : Z) | Crit | Unlocking (head : Z).

(** The ll/addu/sc sequence, when the store succeeds, with the branch after it. *)
Definition take_ticket (lk : Z) : Z * pc :=
  let my_tail := Z.shiftr lk 16 in
  let head := Z.land lk 0xffff in
  (w32 (lk + 0x10000), if head =? my_tail then Crit else Spin my_tail).
(** [lhu head; bne head, my_tail, 2b] *)
Definition poll (lk my_tail : Z) : pc := if lock_head lk =? my_tail then Crit else Spin my_tail.
(** [head = lock->head + 1U], then [lock->head = (uint16_t)head]. *)
Definition unlock_read (lk : Z) : pc := Unlocking (w32 (lock_head lk + 1)).
Definition unlock_write (lk head : Z) : Z := Z.lor (Z.shiftl (lock_tail lk) 16) (w16 head).

Definition spin_is_locked (lk : Z) : bool := negb (lk =? 0).

Record lock_state := LockState { lk : Z; pcs : list pc }.

(** A step of processor [i]. *)
Inductive step (i : nat) : lock_state → lock_state → Prop :=
| step_sc_fails l ps :
    ps !! i = Some Idle → step i (LockState l ps) (LockState l ps)
| step_take l ps l' p' :
    ps !! i = Some Idle → take_ticket l = (l', p') →
    step i (LockState l ps) (LockState l' (<[i := p']> ps))
| step_poll l ps t :
    ps !! i = Some (Spin t) →
    step i (LockState l ps) (LockState l (<[i := poll l t]> ps))
| step_unlock_read l ps :
    ps !! i = Some Crit →
    step i (LockState l ps) (LockState l (<[i := unlock_read l]> ps))
| step_unlock_write l ps h :
    ps !! i = Some (Unlocking h) →
    step i (LockState l ps) (LockState (unlock_write l h) (<[i := Idle]> ps)).

Definition initial (n : nat) : lock_state := LockState (spinlock_init 0) (replicate n Idle).
Definition reachable (n : nat) (s : lock_state) : Prop := rtc (λ s s', ∃ i, step i s s') (initial n) s.

(** An execution without end: the states, and the processor that makes each step. *)
Record execution (n : nat) (σ : nat → lock_state) (π : nat → nat) : Prop := Execution {
  ex_start : σ 0%nat = initial n;
  ex_step k : step (π k) (σ k) (σ (S k)) }.

(** The processor is between its acquisition and its release of the lock. *)
Definition holds_lock (p : pc) : bool :=
  match p with Crit | Unlocking _ => true | _ => false end.

(** ** The queue that the lock word represents *)

(** [H] is the number of releases so far; the tickets from [H] on belong to the
    processors of [q], in order. *)
Definition B : Z := 65536.

Definition pc_ok (H : Z) (q : list nat) (i : nat) (p : pc) : Prop :=
  match p with
  | Idle => i ∉ q
  | Spin t => ∃ k, q !! k = Some i ∧ t = (H + Z.of_nat k) mod B
  | Crit => q !! 0%nat = Some i
  | Unlocking h => q !! 0%nat = Some i ∧ h = H mod B + 1
  end.

Record queue_ok (s : lock_state) (H : Z) (q : list nat) : Prop := QueueOk {
  qk_nodup : NoDup q;
  qk_cpus i : i ∈ q → (i < length (pcs s))%nat;
  qk_word : lk s = H mod B + B * ((H + Z.of_nat (length q)) mod B);
  qk_pc i p : pcs s !! i = Some p → pc_ok H q i p }.

Lemma word_head a b : 0 ≤ a < B → 0 ≤ b < B → lock_head (a + B * b) = a.
Proof.
  intros Ha Hb. unfold lock_head, B in *. change 0xffff with (Z.ones 16). rewrite Z.land_ones by lia.
  change (2 ^ 16) with 65536. rewrite Z.mul_comm, Z_mod_plus_full. apply Z.mod_small. lia.
Qed.
Lemma word_tail a b : 0 ≤ a < B → 0 ≤ b < B → lock_tail (a + B * b) = b.
Proof.
  intros Ha Hb. unfold lock_tail, B in *. rewrite Z.shiftr_div_pow2 by lia. change (2 ^ 16) with 65536.
  rewrite Z.mul_comm, Z.div_add, Z.div_small by lia. lia.
Qed.
Lemma mod_B x : 0 ≤ x mod B < B.
Proof. apply Z.mod_pos_bound. by vm_compute. Qed.

Lemma word_take a b : 0 ≤ a < B → w32 (a + B * (b mod B) + 0x10000) = a + B * ((b + 1) mod B).
Proof.
  intros Ha. pose proof (mod_B b). unfold wrap, B in *. change (2 ^ 32) with 4294967296.
  Z.to_euclidean_division_equations. lia.
Qed.
Lemma word_release a b : 0 ≤ a < B → 0 ≤ b < B →
  unlock_write (a + B * b) (a + 1) = (a + 1) mod B + B * b.
Proof.
  intros Ha Hb. unfold unlock_write. rewrite word_tail by done. unfold wrap, B in *.
  change (2 ^ 16) with 65536. rewrite Z.shiftl_mul_pow2 by lia. change (2 ^ 16) with 65536.
  assert (Z.land (b * 65536) ((a + 1) mod 65536) = 0) as Hz.
  { pose proof (Z.mod_pos_bound (a + 1) 65536 ltac:(lia)).
    apply Z.bits_inj'. intros i Hi. rewrite Z.land_spec, Z.bits_0. destruct (decide (i < 16)) as [Hlt|Hge].
    - replace (b * 65536) with (Z.shiftl b 16) by by rewrite Z.shiftl_mul_pow2.
      rewrite Z.shiftl_spec, Z.testbit_neg_r by lia. done.
    - rewrite (fits_testbit_high 16 ((a + 1) mod 65536)), andb_false_r by (unfold fits; lia). done. }
  rewrite <- (Z.lxor_lor _ _ Hz), <- (Z.add_nocarry_lxor _ _ Hz). lia.
Qed.

(** Equal tickets that are less than [B] apart are the same ticket. *)
Lemma mod_B_inj x k : 0 ≤ k < B → (x + k) mod B = x mod B → k = 0.
Proof. unfold B. intros Hk He. Z.to_euclidean_division_equations. lia. Qed.

Section inv.
Context (n : nat) (Hn : Z.of_nat n < B).

Definition inv (s : lock_state) : Prop := length (pcs s) = n ∧ ∃ H q, queue_ok s H q.

Lemma queue_length s H q : length (pcs s) = n → queue_ok s H q → Z.of_nat (length q) < B.
Proof.
  intros Hl Hq. assert (length q ≤ n)%nat; [|lia].
  rewrite <- (length_seq n 0). apply NoDup_incl_length; [apply NoDup_ListNoDup, Hq|].
  intros i Hi. apply list_elem_of_In in Hi. apply (qk_cpus _ _ _ Hq) in Hi. apply list_elem_of_In, elem_of_seq. lia.
Qed.

(** The state of another processor survives the changes of a step. *)
Lemma pcs_insert_ok s H q i p' l' H' q' p :
  queue_ok s H q → pcs s !! i = Some p →
  NoDup q' → (∀ j, j ∈ q' → (j < length (pcs s))%nat) →
  l' = H' mod B + B * ((H' + Z.of_nat (length q')) mod B) →
  pc_ok H' q' i p' →
  (∀ j pj, j ≠ i → pc_ok H q j pj → pc_ok H' q' j pj) →
  queue_ok (LockState l' (<[i := p']> (pcs s))) H' q'.
Proof.
  intros Hq Hi Hnd Hc Hw Hp Hother. split; simpl; [done| |done|].
  - intros j Hj. rewrite length_insert. by apply Hc.
  - intros j pj Hj. destruct (decide (j = i)) as [->|Hne].
    + rewrite list_lookup_insert_eq in Hj by (by eapply lookup_lt_Some). by simplify_eq.
    + rewrite list_lookup_insert_ne in Hj by done. apply Hother; [done|]. by apply (qk_pc _ _ _ Hq).
Qed.

Lemma take_ok s H q i : length (pcs s) = n → queue_ok s H q → pcs s !! i = Some Idle →
  queue_ok (LockState (take_ticket (lk s)).1 (<[i := (take_ticket (lk s)).2]> (pcs s))) H (q ++ [i]).
Proof.
  intros Hl Hq Hi. pose proof (queue_length s H q Hl Hq) as Hlen. pose proof (mod_B H) as HmH.
  pose proof (mod_B (H + Z.of_nat (length q))) as HmT.
  assert (i ∉ q) as Hiq by apply (qk_pc _ _ _ Hq _ _ Hi).
  unfold take_ticket. fold (lock_tail (lk s)). fold (lock_head (lk s)). cbn [fst snd].
  rewrite (qk_word _ _ _ Hq), word_head, word_tail, word_take by done.
  eapply pcs_insert_ok; [done|done| | | | |].
  - apply NoDup_app. split; [apply Hq|]. split; [set_solver|apply NoDup_singleton].
  - intros j [Hj|Hj%list_elem_of_singleton]%elem_of_app; [by apply (qk_cpus _ _ _ Hq)|subst].
    by eapply lookup_lt_Some.
  - rewrite length_app. cbn [length]. f_equal. f_equal. f_equal. lia.
  - destruct (Z.eqb_spec (H mod B) ((H + Z.of_nat (length q)) mod B)) as [E|E].
    + symmetry in E. apply mod_B_inj in E; [|lia]. destruct q; [done|simpl in E; lia].
    + exists (length q). split; [|done]. rewrite lookup_app_r by lia. by rewrite Nat.sub_diag.
  - intros j pj Hj. destruct pj as [|t| |h]; cbn [pc_ok].
    + set_solver.
    + intros (k & Hk & ->). exists k. split; [by apply lookup_app_l_Some|done].
    + intros Hk. by apply lookup_app_l_Some.
    + intros [Hk ->]. split; [by apply lookup_app_l_Some|done].
Qed.

Lemma poll_ok s H q i t : length (pcs s) = n → queue_ok s H q → pcs s !! i = Some (Spin t) →
  queue_ok (LockState (lk s) (<[i := poll (lk s) t]> (pcs s))) H q.
Proof.
  intros Hl Hq Hi. pose proof (queue_length s H q Hl Hq) as Hlen.
  destruct (qk_pc _ _ _ Hq _ _ Hi) as (k & Hk & ->).
  eapply pcs_insert_ok; [done|done|apply Hq|apply Hq|apply Hq| |done].
  unfold poll. rewrite (qk_word _ _ _ Hq), word_head by apply mod_B.
  destruct (Z.eqb_spec (H mod B) ((H + Z.of_nat k) mod B)) as [E|E]; [|by exists k].
  symmetry in E. apply mod_B_inj in E; [|apply lookup_lt_Some in Hk; lia].
  by replace k with 0%nat in Hk by lia.
Qed.

Lemma release_ok s H q i h : queue_ok s H q → pcs s !! i = Some (Unlocking h) →
  queue_ok (LockState (unlock_write (lk s) h) (<[i := Idle]> (pcs s))) (H + 1) (tail q).
Proof.
  intros Hq Hi. destruct (qk_pc _ _ _ Hq _ _ Hi) as [Hk ->]. destruct q as [|i' q]; [done|].
  simpl in Hk. injection Hk as ->. pose proof (qk_nodup _ _ _ Hq) as Hnd. apply NoDup_cons in Hnd as [Hiq Hnd].
  cbn [tail]. eapply pcs_insert_ok; [done|done|done| | |done|].
  - intros j Hj. apply (qk_cpus _ _ _ Hq). by right.
  - rewrite (qk_word _ _ _ Hq), word_release by apply mod_B. cbn [length].
    replace (H + 1 + Z.of_nat (length q)) with (H + Z.of_nat (S (length q))) by lia.
    f_equal. rewrite Z.add_mod_idemp_l by done. done.
  - intros j pj Hj. destruct pj as [|t| |h']; cbn [pc_ok].
    + set_solver.
    + intros (k & Hk & ->). destruct k as [|k]; [simpl in Hk; congruence|].
      exists k. split; [done|]. f_equal. lia.
    + intros Hk. simpl in Hk. congruence.
    + intros [Hk _]. simpl in Hk. congruence.
Qed.

Lemma unlock_read_ok s H q i : queue_ok s H q → pcs s !! i = Some Crit → queue_ok (LockState (lk s) (<[i := unlock_read (lk s)]> (pcs s))) H q.
Proof.
  intros Hq Hi. eapply pcs_insert_ok; [done|done|apply Hq|apply Hq|apply Hq| |done].
  unfold unlock_read. split; [apply (qk_pc _ _ _ Hq _ _ Hi)|].
  rewrite (qk_word _ _ _ Hq), word_head by apply mod_B. pose proof (mod_B H). apply wrap_small. unfold fits, B in *. lia.
Qed.

(** What a step does to the queue: the processor joins at the end, leaves at the
    front, or the queue stays. *)
Inductive moves (i : nat) (s s' : lock_state) (H : Z) (q : list nat) : Z → list nat → Prop :=
| mv_join : pcs s !! i = Some Idle → pcs s' !! i = Some (if decide (q = []) then Crit else Spin ((H + Z.of_nat (length q)) mod B)) → moves i s s' H q H (q ++ [i])
| mv_leave h : pcs s !! i = Some (Unlocking h) → pcs s' !! i = Some Idle → head q = Some i → moves i s s' H q (H + 1) (tail q)
| mv_try : pcs s !! i = Some Idle → pcs s' !! i = Some Idle → moves i s s' H q H q
| mv_poll t : pcs s !! i = Some (Spin t) → pcs s' !! i = Some (if decide (head q = Some i) then Crit else Spin t) → moves i s s' H q H q
| mv_read h : pcs s !! i = Some Crit → pcs s' !! i = Some (Unlocking h) → head q = Some i → moves i s s' H q H q.

Lemma step_moves i s s' H q : length (pcs s) = n → queue_ok s H q → step i s s' →
  length (pcs s') = n ∧ (∀ j, j ≠ i → pcs s' !! j = pcs s !! j) ∧ ∃ H' q', queue_ok s' H' q' ∧ moves i s s' H q H' q'.
Proof.
  intros Hl Hq Hstep. pose proof (queue_length s H q Hl Hq) as Hlen.
  assert (∀ (ps : list pc) p p', ps !! i = Some p → <[i := p']> ps !! i = Some p') as Hins
    by (intros ps p p' Hp; apply list_lookup_insert_eq; by eapply lookup_lt_Some).
  destruct Hstep as [l ps Hi|l ps l' p' Hi Ht|l ps t Hi|l ps Hi|l ps h Hi]; cbn [pcs] in *.
  - split_and!; [done|done|]. exists H, q. split; [done|]. by apply mv_try.
  - split_and!; [by rewrite length_insert|by intros j Hj; rewrite list_lookup_insert_ne|]. pose proof (take_ok (LockState l ps) _ _ _ Hl Hq Hi) as Hx. cbn [lk pcs] in Hx.
    rewrite Ht in Hx. exists H, (q ++ [i]). split; [exact Hx|]. apply mv_join; [done|]. cbn [pcs]. rewrite (Hins _ _ _ Hi). f_equal.
    unfold take_ticket in Ht. injection Ht as _ <-. fold (lock_tail l) (lock_head l). pose proof (qk_word _ _ _ Hq) as Hw. cbn [lk] in Hw.
    rewrite Hw, word_head, word_tail by apply mod_B. destruct (Z.eqb_spec (H mod B) ((H + Z.of_nat (length q)) mod B)) as [E|E], (decide (q = [])) as [->|Hne]; try done.
    + symmetry in E. apply mod_B_inj in E; [|lia]. by destruct q.
    + by rewrite Z.add_0_r in E.
  - split_and!; [by rewrite length_insert|by intros j Hj; rewrite list_lookup_insert_ne|]. exists H, q. pose proof (poll_ok (LockState l ps) _ _ _ _ Hl Hq Hi) as Hx. split; [exact Hx|].
    apply (mv_poll _ _ _ _ _ t); [done|]. cbn [pcs]. rewrite (Hins _ _ _ Hi). f_equal. cbn [lk pcs] in Hx. unfold poll.
    destruct (qk_pc _ _ _ Hq _ _ Hi) as (k & Hk & ->). pose proof (qk_word _ _ _ Hq) as Hw. cbn [lk] in Hw. rewrite Hw, word_head by apply mod_B.
    pose proof (lookup_lt_Some _ _ _ Hk) as Hkl. rewrite head_lookup.
    destruct (Z.eqb_spec (H mod B) ((H + Z.of_nat k) mod B)) as [E|E]; case_decide as Hd; try done.
    + symmetry in E. apply mod_B_inj in E; [|lia]. by replace k with 0%nat in Hk by lia.
    + replace k with 0%nat in E; [by rewrite Z.add_0_r in E|]. symmetry. by eapply (NoDup_lookup q); [apply Hq| |].
  - split_and!; [by rewrite length_insert|by intros j Hj; rewrite list_lookup_insert_ne|]. exists H, q. split; [by apply (unlock_read_ok (LockState l ps) _ _ _ Hq)|].
    eapply mv_read; [done|by apply (Hins _ _ _ Hi)|]. rewrite head_lookup. apply (qk_pc _ _ _ Hq _ _ Hi).
  - split_and!; [by rewrite length_insert|by intros j Hj; rewrite list_lookup_insert_ne|]. exists (H + 1), (tail q). split; [by apply (release_ok (LockState l ps) _ _ _ _ Hq)|].
    apply (mv_leave _ _ _ _ _ h); [done|by apply (Hins _ _ _ Hi)|]. rewrite head_lookup. apply (qk_pc _ _ _ Hq _ _ Hi).
Qed.

Lemma inv_step i s s' : inv s → step i s s' → inv s'.
Proof. intros [Hl (H & q & Hq)] Hstep. destruct (step_moves i s s' H q Hl Hq Hstep) as (Hl' & _ & H' & q' & Hq' & _). split; [done|by exists H', q']. Qed.

Lemma inv_initial : queue_ok (initial n) 0 [].
Proof. split; simpl; [constructor|set_solver|done|]. intros i p Hp. apply lookup_replicate in Hp as [-> _]. simpl. set_solver. Qed.

Lemma inv_reachable s : reachable n s → inv s.
Proof.
  intros Hr. unfold reachable in Hr.
  assert (inv (initial n)) as H0.
  { split; [apply length_replicate|]. exists 0, []. apply inv_initial. }
  revert H0. induction Hr as [s|s s1 s2 [i Hst] _ IH]; [done|]. intros Hinv. by apply IH, (inv_step i s).
Qed.
End inv.

(** C4. Mutual exclusion of the ticket spinlock: in every state that any number
    (below 65536) of processors can reach by running [spin_lock] and
    [spin_unlock] on one lock, in any interleaving of their memory accesses and
    with the 16-bit tickets wrapping around, at most one of them is between the
    acquisition and the release of the lock. *)
Theorem spinlock_mutual_exclusion n s i j p p' :
  Z.of_nat n < B → reachable n s →
  pcs s !! i = Some p → pcs s !! j = Some p' → holds_lock p = true → holds_lock p' = true → i = j.
Proof.
  intros Hn Hr Hi Hj Hp Hp'. destruct (inv_reachable n Hn s Hr) as [_ (H & q & Hq)].
  pose proof (qk_pc _ _ _ Hq _ _ Hi) as H1. pose proof (qk_pc _ _ _ Hq _ _ Hj) as H2.
  destruct p, p'; try done; simpl in H1, H2; intuition congruence.
Qed.

(** ** Order of arrival *)
Definition holder (s : lock_state) (i : nat) : bool := match pcs s !! i with Some p => holds_lock p | None => false end.
Definition inside (s : lock_state) (i : nat) : bool := match pcs s !! i with Some Idle | None => false | _ => true end.
Definition waits (s : lock_state) (i : nat) : Prop := ∃ t, pcs s !! i = Some (Spin t).

Section executions.
Context (σ : nat → lock_state) (π : nat → nat).

(** The processors in the order in which they took their tickets, and in the order
    in which they got the lock, up to the state [k]. *)
Fixpoint arrivals (k : nat) : list nat :=
  match k with
  | O => []
  | S k => arrivals k ++ (if negb (inside (σ k) (π k)) && inside (σ (S k)) (π k) then [π k] else [])
  end.
Fixpoint grants (k : nat) : list nat :=
  match k with
  | O => []
  | S k => grants k ++ (if negb (holder (σ k) (π k)) && holder (σ (S k)) (π k) then [π k] else [])
  end.

(** A processor that is not idle always moves again. *)
Definition fair : Prop := ∀ k i, inside (σ k) i = true → ∃ k', (k ≤ k')%nat ∧ π k' = i.
End executions.

(** The queue without the processor that holds the lock. *)
Definition waiting (s : lock_state) (q : list nat) : list nat :=
  match q with i :: q' => if holder s i then q' else q | [] => [] end.

Lemma holder_head s H q i : queue_ok s H q → holder s i = true → head q = Some i.
Proof.
  intros Hq. unfold holder. destruct (pcs s !! i) as [p|] eqn:Hp; [|done]. intros Hh. apply (qk_pc _ _ _ Hq) in Hp. rewrite head_lookup.
  destruct p; try done; by destruct Hp.
Qed.

Lemma elem_of_waiting s H q i : queue_ok s H q → i ∈ waiting s q ↔ waits s i.
Proof.
  intros Hq. pose proof (qk_nodup _ _ _ Hq) as Hnd.
  assert (i ∈ waiting s q ↔ i ∈ q ∧ holder s i = false) as ->.
  { destruct q as [|f q]; cbn [waiting]; [set_solver|]. apply NoDup_cons in Hnd as [Hf _].
    assert (∀ j, holder s j = true → j = f) as Hu by (intros j Hj; by injection (holder_head _ _ _ _ Hq Hj)).
    destruct (holder s f) eqn:Ef; split.
    - intros Hi. split; [set_solver|]. destruct (holder s i) eqn:E; [|done]. by rewrite (Hu i E) in Hi.
    - intros [[->|Hi]%elem_of_cons E]; [congruence|done].
    - intros Hi. split; [done|]. destruct (holder s i) eqn:E; [|done]. by rewrite (Hu i E), Ef in E.
    - by intros [Hi _]. }
  unfold waits, holder. split.
  - intros [Hi E]. destruct (lookup_lt_is_Some_2 (pcs s) i) as [p Hp]; [by apply (qk_cpus _ _ _ Hq)|]. rewrite Hp in E |- *.
    destruct p as [|t| |]; try done; [|by exists t]. by apply (qk_pc _ _ _ Hq) in Hp.
  - intros [t Ht]. rewrite Ht. split; [|done]. apply (qk_pc _ _ _ Hq) in Ht as (k & Hk & _). by eapply list_elem_of_lookup_2.
Qed.

(** How a step changes the queue of waiting processors. *)
Lemma step_waiting i s s' H q H' q' : queue_ok s H q → queue_ok s' H' q' → moves i s s' H q H' q' → (∀ j, j ≠ i → pcs s' !! j = pcs s !! j) →
  waiting s q ++ (if negb (inside s i) && inside s' i then [i] else []) = (if negb (holder s i) && holder s' i then [i] else []) ++ waiting s' q'.
Proof.
  intros Hq Hq' Hm Hother. assert (∀ j, j ≠ i → holder s' j = holder s j) as Hh by (intros j Hj; unfold holder; by rewrite Hother).
  destruct Hm as [Hi Hi'|h Hi Hi' Hhd|Hi Hi'|t Hi Hi'|h Hi Hi' Hhd]; unfold inside at 1 2, holder at 1 2; rewrite Hi, Hi'.
  - pose proof (qk_pc _ _ _ Hq _ _ Hi) as Hni. cbn in Hni. destruct (decide (q = [])) as [->|Hne]; cbn [holds_lock negb andb app waiting].
    + unfold holder. by rewrite Hi'.
    + destruct q as [|f q]; [done|]. cbn [waiting app]. rewrite Hh by set_solver. by destruct (holder s f).
  - destruct q as [|f q]; [done|]. injection Hhd as ->. cbn [holds_lock negb andb app waiting tail]. rewrite app_nil_r.
    assert (holder s i = true) as -> by (unfold holder; by rewrite Hi). pose proof (qk_nodup _ _ _ Hq) as [Hni Hnd]%NoDup_cons.
    destruct q as [|g q]; [done|]. cbn [waiting]. rewrite Hh by set_solver. destruct (holder s g) eqn:E; [|done].
    apply (holder_head _ _ _ _ Hq) in E. injection E as ->. set_solver.
  - cbn [holds_lock negb andb app]. rewrite app_nil_r. destruct q as [|f q]; [done|]. cbn [waiting].
    rewrite Hh; [done|]. intros ->. apply (qk_pc _ _ _ Hq) in Hi. cbn in Hi. set_solver.
  - cbn [negb andb]. rewrite app_nil_r. pose proof (qk_pc _ _ _ Hq _ _ Hi) as (k & Hk & _). destruct q as [|f q]; [done|]. cbn [head waiting].
    destruct (decide (f = i)) as [->|Hne].
    + rewrite decide_True in * by done. cbn [holds_lock negb andb app]. unfold holder. by rewrite Hi, Hi'.
    + rewrite decide_False in * by congruence. cbn [holds_lock negb andb app]. by rewrite Hh.
  - destruct q as [|f q]; [done|]. injection Hhd as ->. cbn [holds_lock negb andb app waiting]. rewrite app_nil_r. unfold holder. by rewrite Hi, Hi'.
Qed.
Section run.
Context (n : nat) (σ : nat → lock_state) (π : nat → nat) (Hn : Z.of_nat n < B) (He : execution n σ π).

Lemma run_queue k : length (pcs (σ k)) = n ∧ ∃ H q, queue_ok (σ k) H q ∧ arrivals σ π k = grants σ π k ++ waiting (σ k) q.
Proof.
  induction k as [|k [Hl (H & q & Hq & Hw)]].
  - rewrite (ex_start _ _ _ He). split; [apply length_replicate|]. exists 0, []. split; [by apply inv_initial|done].
  - destruct (step_moves n Hn (π k) (σ k) (σ (S k)) H q Hl Hq (ex_step _ _ _ He k)) as (Hl' & Hother & H' & q' & Hq' & Hm).
    split; [done|]. exists H', q'. split; [done|]. cbn [arrivals grants]. rewrite Hw, <-!app_assoc. f_equal. by eapply step_waiting.
Qed.

(** Until the first of the queue moves, the others can only join. *)
Lemma until_first f d : ∀ k H q, queue_ok (σ k) H q → head q = Some f → π (k + d)%nat = f →
  ∃ k' q', (k ≤ k')%nat ∧ π k' = f ∧ queue_ok (σ k') H (q ++ q') ∧ pcs (σ k') !! f = pcs (σ k) !! f.
Proof.
  induction d as [|d IH]; intros k H q Hq Hf Hd; destruct (decide (π k = f)) as [E|E];
    try (exists k, []; rewrite app_nil_r; done); [by rewrite Nat.add_0_r in Hd|].
  destruct (step_moves n Hn (π k) (σ k) (σ (S k)) H q (proj1 (run_queue k)) Hq (ex_step _ _ _ He k)) as (_ & Hother & H' & q' & Hq' & Hm).
  assert (H' = H ∧ ∃ e, q' = q ++ e) as [-> [e ->]].
  { destruct Hm as [Hi Hi'|h Hi Hi' Hhd|Hi Hi'|t Hi Hi'|h Hi Hi' Hhd]; try (split; [done|]; exists []; by rewrite app_nil_r); [by eauto|congruence]. }
  destruct (IH (S k) H (q ++ e)) as (k' & q' & Hk & Hp & Hq2 & Hs); [done|by destruct q|by rewrite Nat.add_succ_comm|].
  exists k', (e ++ q'). rewrite app_assoc. split_and!; [lia|done|done|]. rewrite Hs. by apply Hother.
Qed.

Context (Hfair : fair σ π).

(** The next step of the first of the queue. *)
Lemma first_moves f k H q : queue_ok (σ k) H q → head q = Some f →
  ∃ k' e H' q', (k ≤ k')%nat ∧ queue_ok (σ k') H (q ++ e) ∧ pcs (σ k') !! f = pcs (σ k) !! f ∧
    (∀ j, j ≠ f → pcs (σ (S k')) !! j = pcs (σ k') !! j) ∧ queue_ok (σ (S k')) H' q' ∧ moves f (σ k') (σ (S k')) H (q ++ e) H' q'.
Proof.
  intros Hq Hf. assert (inside (σ k) f = true) as Hin.
  { assert (f ∈ q) as Hfq by (rewrite head_lookup in Hf; by eapply list_elem_of_lookup_2).
    destruct (lookup_lt_is_Some_2 (pcs (σ k)) f) as [p Hp]; [by apply (qk_cpus _ _ _ Hq)|]. unfold inside. rewrite Hp.
    destruct p; try done. by apply (qk_pc _ _ _ Hq) in Hp. }
  destruct (Hfair k f Hin) as (k1 & Hk1 & Hp1).
  destruct (until_first f (k1 - k) k H q Hq Hf) as (k' & e & Hk & Hp & Hq' & Hs); [by replace (k + (k1 - k))%nat with k1 by lia|].
  destruct (step_moves n Hn (π k') (σ k') (σ (S k')) H (q ++ e) (proj1 (run_queue k')) Hq' (ex_step _ _ _ He k')) as (_ & Hother & H' & q' & Hq2 & Hm).
  rewrite Hp in *. by exists k', e, H', q'.
Qed.

(** The steps that are left until the processor releases the lock. *)
Definition steps_left (p : pc) : nat := match p with Spin _ => 3 | Crit => 2 | Unlocking _ => 1 | Idle => 0 end.

(** The first of the queue leaves it. *)
Lemma first_leaves f q0 r : ∀ k H e p, queue_ok (σ k) H (f :: q0 ++ e) → pcs (σ k) !! f = Some p → (steps_left p ≤ r)%nat →
  ∃ k' e', (k ≤ k')%nat ∧ queue_ok (σ k') (H + 1) (q0 ++ e') ∧ ∀ j, j ∈ q0 → waits (σ k') j.
Proof.
  induction r as [|r IH]; intros k H e p Hq Hp Hr.
  { destruct p; cbn in Hr; try lia. apply (qk_pc _ _ _ Hq) in Hp. cbn in Hp. set_solver. }
  destruct (first_moves f k H (f :: q0 ++ e) Hq eq_refl) as (k' & e1 & H' & q' & Hk & Hq1 & Hs & Hother & Hq2 & Hm).
  rewrite Hp in Hs. cbn [app] in Hq1, Hm. rewrite <-app_assoc in Hq1, Hm.
  destruct Hm as [Hi Hi'|h Hi Hi' Hhd|Hi Hi'|t Hi Hi'|h Hi Hi' Hhd].
  - apply (qk_pc _ _ _ Hq1) in Hi. cbn in Hi. set_solver.
  - exists (S k'), (e ++ e1). split_and!; [lia|exact Hq2|]. intros j Hj. pose proof (qk_nodup _ _ _ Hq1) as [Hnf _]%NoDup_cons.
    assert (j ≠ f) as Hjf by set_solver. unfold waits. rewrite Hother by done. change (waits (σ k') j). apply (elem_of_waiting _ _ _ _ Hq1).
    cbn [waiting]. unfold holder. rewrite Hi. cbn [holds_lock]. set_solver.
  - apply (qk_pc _ _ _ Hq1) in Hi. cbn in Hi. set_solver.
  - rewrite decide_True in Hi' by done. rewrite Hi in Hs. injection Hs as <-.
    destruct (IH (S k') H (e ++ e1) Crit Hq2 Hi') as (k2 & e2 & ? & ? & ?); [cbn in *; lia|]. exists k2, e2. split_and!; [lia|done|done].
  - rewrite Hi in Hs. injection Hs as <-.
    destruct (IH (S k') H (e ++ e1) (Unlocking h) Hq2 Hi') as (k2 & e2 & ? & ? & ?); [cbn in *; lia|]. exists k2, e2. split_and!; [lia|done|done].
Qed.

(** A waiting processor at any place of the queue. *)
Lemma served m : ∀ k H q i, queue_ok (σ k) H q → q !! m = Some i → waits (σ k) i → ∃ k', (k ≤ k')%nat ∧ holder (σ k') i = true.
Proof.
  induction m as [|m IH]; intros k H q i Hq Hm [t Ht].
  - rewrite <-head_lookup in Hm. destruct (first_moves i k H q Hq Hm) as (k' & e & H' & q' & Hk & Hq1 & Hs & _ & Hq2 & Hmv).
    rewrite Ht in Hs. destruct Hmv as [Hi Hi'|h Hi Hi' Hhd|Hi Hi'|t' Hi Hi'|h Hi Hi' Hhd]; try congruence.
    exists (S k'). split; [lia|]. unfold holder. rewrite Hi', decide_True; [done|]. by destruct q.
  - destruct q as [|f q]; [done|]. cbn in Hm. destruct (lookup_lt_is_Some_2 (pcs (σ k)) f) as [p Hp]; [apply (qk_cpus _ _ _ Hq); left|].
    destruct (first_leaves f q (steps_left p) k H [] p) as (k1 & e & Hk & Hq1 & Hw); [by rewrite app_nil_r|done|done|].
    destruct (IH k1 (H + 1) (q ++ e) i Hq1) as (k2 & Hk2 & Hh); [by apply lookup_app_l_Some|by apply Hw; eapply list_elem_of_lookup_2|].
    exists k2. split; [lia|done].
Qed.
End run.

(** C22. The ticket spinlock is granted in order of arrival and nobody waits for
    ever.  In every execution by fewer than 65536 processors the sequence of the
    processors that got the lock is, in every state, a prefix of the sequence in
    which they took their tickets, and the rest of that sequence are the
    processors that wait now.  If the scheduling is fair (a processor that is
    waiting for the lock or holds it always makes a further step), every processor
    that waits gets the lock. *)
Theorem spinlock_fifo_progress n σ π : Z.of_nat n < B → execution n σ π →
  (∀ k, ∃ ws, arrivals σ π k = grants σ π k ++ ws ∧ NoDup ws ∧ ∀ i, i ∈ ws ↔ waits (σ k) i) ∧
  (fair σ π → ∀ k i, waits (σ k) i → ∃ k', (k ≤ k')%nat ∧ holder (σ k') i = true).
Proof.
  intros Hn He. split.
  - intros k. destruct (run_queue n σ π Hn He k) as [_ (H & q & Hq & E)]. exists (waiting (σ k) q). split_and!; [done| |].
    + pose proof (qk_nodup _ _ _ Hq) as Hnd. destruct q as [|f q]; [constructor|]. cbn [waiting]. destruct (holder (σ k) f); [|done]. by apply NoDup_cons in Hnd as [_ ?].
    + intros i. by eapply elem_of_waiting.
  - intros Hf k i Hi. destruct (run_queue n σ π Hn He k) as [_ (H & q & Hq & _)].
    pose proof Hi as [t Ht]. destruct (qk_pc _ _ _ Hq _ _ Ht) as (m & Hm & _). by eapply served.
Qed.

(** Two processors: the first takes the lock, the second waits. *)
Definition demo_run : list lock_state :=
  [initial 2; LockState 0x10000 [Crit; Idle]; LockState 0x20000 [Crit; Spin 1];
   LockState 0x20000 [Unlocking 1; Spin 1]; LockState 0x20001 [Idle; Spin 1]].

Lemma demo_reached : reachable 2 (LockState 0x20000 [Crit; Spin 1]) ∧ reachable 2 (LockState 0x20001 [Idle; Spin 1]).
Proof.
  assert (reachable 2 (LockState 0x20000 [Crit; Spin 1])) as H1.
  { eapply rtc_l; [exists 0%nat; by apply (step_take 0 _ _ 0x10000 Crit)|].
    eapply rtc_l; [exists 1%nat; by apply (step_take 1 _ _ 0x20000 (Spin 1))|]. apply rtc_refl. }
  split; [done|]. unfold reachable. etrans; [exact H1|].
  eapply rtc_l; [exists 0%nat; by apply (step_unlock_read 0)|].
  eapply rtc_l; [exists 0%nat; by apply (step_unlock_write 0 _ _ 1)|]. apply rtc_refl.
Qed.

Lemma spinlock_mutual_exclusion_witness :
  reachable 2 (LockState 0x20000 [Crit; Spin 1]) ∧
  (∀ j p', [Crit; Spin 1] !! j = Some p' → holds_lock p' = true → 0%nat = j).
Proof.
  split; [apply demo_reached|]. intros j p' Hj Hp'.
  apply (spinlock_mutual_exclusion 2 (LockState 0x20000 [Crit; Spin 1]) 0 j Crit p'); try done.
  apply demo_reached.
Defined.

(** Two processors take turns, and each always makes its next step. *)
Definition next_step (i : nat) (s : lock_state) : lock_state :=
  match pcs s !! i with
  | Some Idle => let '(l, p) := take_ticket (lk s) in LockState l (<[i := p]> (pcs s))
  | Some (Spin t) => LockState (lk s) (<[i := poll (lk s) t]> (pcs s))
  | Some Crit => LockState (lk s) (<[i := unlock_read (lk s)]> (pcs s))
  | Some (Unlocking h) => LockState (unlock_write (lk s) h) (<[i := Idle]> (pcs s))
  | None => s
  end.
Definition turn (k : nat) : nat := if Nat.even k then 0 else 1.
Fixpoint turns (k : nat) : lock_state := match k with O => initial 2 | S k => next_step (turn k) (turns k) end.

Lemma turns_execution : execution 2 turns turn ∧ fair turns turn.
Proof.
  assert (∀ k, length (pcs (turns k)) = 2%nat) as Hl.
  { induction k as [|k IH]; [done|]. cbn [turns]. unfold next_step. destruct (take_ticket (lk (turns k))), (pcs (turns k) !! turn k) as [[]|]; try done; cbn [pcs]; by rewrite length_insert. }
  split; [split; [done|]|].
  - intros k. cbn [turns]. unfold next_step. destruct (lookup_lt_is_Some_2 (pcs (turns k)) (turn k)) as [p Hp];
      [rewrite Hl; unfold turn; destruct (Nat.even k); lia|]. rewrite Hp. destruct (turns k) as [l ps]. cbn [pcs lk] in *. destruct p as [|t| |h].
    + destruct (take_ticket l) as [l' p'] eqn:E. by apply step_take.
    + by apply step_poll.
    + by apply step_unlock_read.
    + by apply step_unlock_write.
  - intros k i Hi. assert (i < 2)%nat as Hi2.
    { unfold inside in Hi. destruct (pcs (turns k) !! i) eqn:E; [|done]. apply lookup_lt_Some in E. by rewrite Hl in E. }
    assert (turn (S k) = 1 - turn k)%nat as Hs by (unfold turn; rewrite Nat.even_succ, <-Nat.negb_even; by destruct (Nat.even k)).
    destruct (decide (turn k = i)) as [E|E]; [by exists k|]. exists (S k). split; [lia|]. rewrite Hs. unfold turn in *. destruct (Nat.even k); lia.
Qed.

Lemma spinlock_fifo_progress_witness :
  arrivals turns turn 13 = [0; 1; 0; 1]%nat ∧ grants turns turn 13 = [0; 1; 0]%nat ∧ waits (turns 13) 1 ∧ ∃ k, (13 ≤ k)%nat ∧ holder (turns k) 1 = true.
Proof.
  destruct turns_execution as [He Hf]. destruct (spinlock_fifo_progress 2 turns turn ltac:(done) He) as [_ H2].
  assert (waits (turns 13) 1) as Hw by (eexists; by vm_compute). split_and!; [by vm_compute|by vm_compute|done|by apply H2].
Defined.

(** ** Semaphores *)
Record semaphore_t := Sem { sem_val : Z; sem_limit : Z; sem_lock : Z }.

Definition semaphore_init (sem : semaphore_t) (val : Z) : semaphore_t := Sem val val (spinlock_init (sem_lock sem)).

(** [spin_lock] on a lock that is free, and the [spin_unlock] that follows. *)
Definition try_lock (lk : Z) : option Z :=
  match take_ticket lk with (lk', Crit) => Some lk' | _ => None end.
Definition unlock (lk : Z) : Z :=
  match unlock_read lk with Unlocking h => unlock_write lk h | _ => lk end.

Definition semaphore_dec (sem : semaphore_t) : option semaphore_t :=
  if sem_val sem <=? 0 then None
  else l ← try_lock (sem_lock sem);
       if 0 <? sem_val sem then Some (Sem (sem_val sem - 1) (sem_limit sem) (unlock l)) else None.
Definition semaphore_inc (sem : semaphore_t) : option semaphore_t :=
  if sem_limit sem <=? sem_val sem then None
  else l ← try_lock (sem_lock sem);
       if sem_val sem <? sem_limit sem then Some (Sem (sem_val sem + 1) (sem_limit sem) (unlock l)) else None.
Definition semaphore_pass (sem : semaphore_t) : option semaphore_t :=
  sem ← semaphore_dec sem; semaphore_inc sem.

(** A free lock: as many releases as tickets. *)
Definition free_lock (lk : Z) : Prop := ∃ a, 0 ≤ a < B ∧ lk = a + B * a.

Lemma lock_unlock lk : free_lock lk → ∃ lk', try_lock lk = Some lk' ∧ free_lock (unlock lk') ∧ ¬ free_lock lk'.
Proof.
  intros (a & Ha & ->). unfold try_lock, take_ticket. fold (lock_tail (a + B * a)). fold (lock_head (a + B * a)).
  rewrite word_head, word_tail, Z.eqb_refl by done. eexists. split; [done|].
  replace (a + B * a + 65536) with (a + B * (a mod B) + 0x10000) by (rewrite (Z.mod_small a) by done; done).
  rewrite word_take by done. pose proof (mod_B (a + 1)). split.
  - unfold unlock, unlock_read. rewrite word_head by done. rewrite wrap_small by (unfold fits, B in *; lia).
    rewrite word_release by done. exists ((a + 1) mod B). done.
  - intros (b & Hb & E). unfold B in *. Z.to_euclidean_division_equations. lia.
Qed.

Lemma try_lock_word lk lk' : free_lock lk → try_lock lk = Some lk' → ∃ a b, 0 ≤ a < B ∧ 0 ≤ b < B ∧ lk' = a + B * b.
Proof.
  intros (a & Ha & ->). unfold try_lock, take_ticket. fold (lock_tail (a + B * a)). fold (lock_head (a + B * a)).
  rewrite word_head, word_tail, Z.eqb_refl by done. intros [= <-].
  replace (a + B * a + 65536) with (a + B * (a mod B) + 0x10000) by (rewrite (Z.mod_small a) by done; done).
  rewrite word_take by done. pose proof (mod_B (a + 1)). by exists a, ((a + 1) mod B).
Qed.

Lemma free_not_free lk : ¬ free_lock lk → (∃ a b, 0 ≤ a < B ∧ 0 ≤ b < B ∧ lk = a + B * b) → try_lock lk = None.
Proof.
  intros Hnf (a & b & Ha & Hb & ->). unfold try_lock, take_ticket.
  fold (lock_tail (a + B * b)). fold (lock_head (a + B * b)). rewrite word_head, word_tail by done.
  destruct (Z.eqb_spec a b) as [->|]; [|done]. exfalso. apply Hnf. by exists b.
Qed.

(** The counter stays between 0 and the limit, and a [dec]/[inc] pair restores it. *)
Lemma semaphore_bounds sem : free_lock (sem_lock sem) → 0 ≤ sem_val sem ≤ sem_limit sem →
  (∀ sem', semaphore_dec sem = Some sem' ∨ semaphore_inc sem = Some sem' →
     0 ≤ sem_val sem' ≤ sem_limit sem' ∧ free_lock (sem_lock sem')) ∧
  (0 < sem_val sem → ∃ sem', semaphore_pass sem = Some sem' ∧ sem_val sem' = sem_val sem ∧ sem_limit sem' = sem_limit sem).
Proof.
  intros Hfree Hb. destruct (lock_unlock _ Hfree) as (l1 & E1 & Hf1 & _).
  split.
  - intros sem' [Hs|Hs]; [unfold semaphore_dec in Hs|unfold semaphore_inc in Hs].
    + destruct (Z.leb_spec (sem_val sem) 0); [done|]. rewrite E1 in Hs. simpl in Hs.
      rewrite (proj2 (Z.ltb_lt _ _)) in Hs by lia. injection Hs as <-. simpl. split; [lia|done].
    + destruct (Z.leb_spec (sem_limit sem) (sem_val sem)); [done|]. rewrite E1 in Hs. simpl in Hs.
      rewrite (proj2 (Z.ltb_lt _ _)) in Hs by lia. injection Hs as <-. simpl. split; [lia|done].
  - intros Hpos. unfold semaphore_pass, semaphore_dec. rewrite (proj2 (Z.leb_gt _ _)) by lia. rewrite E1. simpl.
    rewrite (proj2 (Z.ltb_lt _ _)) by lia. simpl. unfold semaphore_inc. simpl.
    rewrite (proj2 (Z.leb_gt _ _)) by lia. destruct (lock_unlock _ Hf1) as (l2 & -> & _). simpl.
    rewrite (proj2 (Z.ltb_lt _ _)) by lia. eexists. split; [done|]. simpl. lia.
Qed.

(** ** Recursive locks *)
Record rlock_t := RLock { rl_lock : Z; rl_holder : Z; rl_depth : Z }.
Definition EMPTY_RLOCK : rlock_t := RLock EMPTY_LOCK (-1) 0.

(** [None]: the processor spins on the inner lock. *)
Definition recursive_lock (cpuid : Z) (l : rlock_t) : option rlock_t :=
  l ← (if negb (rl_holder l =? cpuid) then k ← try_lock (rl_lock l); Some (RLock k cpuid (rl_depth l)) else Some l);
  Some (RLock (rl_lock l) (rl_holder l) (rl_depth l + 1)).

Definition recursive_unlock (cpuid : Z) (l : rlock_t) : res rlock_t :=
  _ ← assert_ (cpuid =? rl_holder l);
  _ ← assert_ (0 <? rl_depth l);
  let l := RLock (rl_lock l) (rl_holder l) (rl_depth l - 1) in
  if rl_depth l =? 0 then Ok (RLock (unlock (rl_lock l)) (-1) (rl_depth l)) else Ok l.

Definition held_by (cpu depth : Z) (l : rlock_t) : Prop :=
  rl_holder l = cpu ∧ rl_depth l = depth ∧ 0 < depth ∧
  ∃ a, 0 ≤ a < B ∧ rl_lock l = a + B * ((a + 1) mod B).
Definition unheld (l : rlock_t) : Prop := rl_holder l = -1 ∧ rl_depth l = 0 ∧ free_lock (rl_lock l).

Lemma held_not_free cpu d l : held_by cpu d l → try_lock (rl_lock l) = None.
Proof.
  intros (_ & _ & _ & a & Ha & E). pose proof (mod_B (a + 1)). apply free_not_free; [|by exists a, ((a + 1) mod B)].
  intros (b & Hb & E'). rewrite E in E'. unfold B in *. Z.to_euclidean_division_equations. lia.
Qed.

(** The recursive lock: a processor that finds it free gets it at depth 1;
    the holder may lock it again, any number of times, and every lock is undone
    by one unlock, the last of which frees it; another processor waits as long as
    it is held, and an unlock by a processor that does not hold it panics. *)
Theorem recursive_lock_correct cpu other l d :
  0 ≤ cpu → 0 ≤ other → other ≠ cpu →
  (unheld l → ∃ l', recursive_lock cpu l = Some l' ∧ held_by cpu 1 l' ∧
     ∃ l'', recursive_unlock cpu l' = Ok l'' ∧ unheld l'') ∧
  (held_by cpu d l →
     recursive_lock other l = None ∧ recursive_unlock other l = Err Panicked ∧
     ∃ l', recursive_lock cpu l = Some l' ∧ held_by cpu (d + 1) l' ∧ recursive_unlock cpu l' = Ok l).
Proof.
  intros Hc Ho Hne. split.
  - intros (Hh & Hd & Hfree). unfold recursive_lock. rewrite Hh, Hd.
    rewrite (proj2 (Z.eqb_neq _ _)) by lia. cbn [negb].
    pose proof Hfree as (a & Ha & Ea). destruct (lock_unlock _ Hfree) as (l1 & E1 & Hf1 & _). rewrite E1. simpl.
    eexists. split; [done|]. split.
    + split_and!; try done. exists a. split; [done|]. cbn [rl_lock]. revert E1. rewrite Ea.
      unfold try_lock, take_ticket. fold (lock_tail (a + B * a)). fold (lock_head (a + B * a)).
      rewrite word_head, word_tail, Z.eqb_refl by done. intros [= <-].
      rewrite <- word_take by done. by rewrite (Z.mod_small a) by done.
    + unfold recursive_unlock. cbn [rl_holder rl_depth rl_lock]. rewrite (Z.eqb_refl cpu). simpl.
      eexists. split; [done|]. by split_and!.
  - intros Hheld. pose proof Hheld as (Hh & Hd & Hd0 & a & Ha & Ea). split_and!.
    + unfold recursive_lock. rewrite Hh, (proj2 (Z.eqb_neq _ _)) by lia. cbn [negb].
      by rewrite (held_not_free _ _ _ Hheld).
    + unfold recursive_unlock. by rewrite Hh, (proj2 (Z.eqb_neq other cpu)) by done.
    + unfold recursive_lock. rewrite Hh, Z.eqb_refl. cbn [negb]. simpl. eexists. split; [done|]. split.
      * split_and!; cbn [rl_holder rl_depth rl_lock]; [done|lia|lia|by exists a].
      * unfold recursive_unlock. cbn [rl_holder rl_depth rl_lock]. rewrite Hh, (Z.eqb_refl cpu). simpl.
        rewrite (proj2 (Z.ltb_lt _ _)) by lia. simpl. replace (rl_depth l + 1 - 1) with (rl_depth l) by lia.
        rewrite (proj2 (Z.eqb_neq _ _)) by lia. f_equal. destruct l; simpl in *. by subst.
Qed.

Lemma recursive_lock_correct_witness : ∃ l', recursive_lock 0 EMPTY_RLOCK = Some l' ∧ held_by 0 1 l'.
Proof.
  destruct (recursive_lock_correct 0 1 EMPTY_RLOCK 1) as [H _]; [lia|lia|lia|].
  destruct H as (l' & H1 & H2 & _).
  - split_and!; [done|done|]. exists 0. done.
  - by exists l'.
Defined.

(** ** Interrupt masking: coprocessor 0 register 12 (status) *)
Definition local_irq_enable (status : Z) : Z := Z.lor status 1.
Definition local_irq_disable (status : Z) : Z := Z.lxor (Z.lor status 1) 1.
Definition local_irq_save (status : Z) : Z * Z := (status, Z.lxor (Z.lor status 0x1f) 0x1f).
Definition local_irq_restore (flags status : Z) : Z :=
  Z.lor (Z.land flags 1) (Z.lxor (Z.lor status 0x1f) 0x1f).

(** Interrupts are off between a save and the matching restore, and the restore
    brings back the interrupt enable bit, whatever happened to it in between. *)
Lemma irq_save_restore status status' :
  Z.testbit (local_irq_save status).2 0 = false ∧
  Z.testbit (local_irq_restore (local_irq_save status).1 status') 0 = Z.testbit status 0 ∧
  Z.testbit (local_irq_disable status) 0 = false ∧ Z.testbit (local_irq_enable status) 0 = true.
Proof.
  unfold local_irq_restore, local_irq_save, local_irq_disable, local_irq_enable. cbn [fst snd].
  rewrite !Z.lor_spec, !Z.lxor_spec, !Z.lor_spec, !Z.land_spec.
  change (Z.testbit 31 0) with true. change (Z.testbit 1 0) with true.
  by destruct (Z.testbit status 0), (Z.testbit status' 0).
Qed.

(** ** Counters: [atomic_add] and [atomic_sub] are empty functions *)
Definition atomic_add (counter val : Z) : Z := counter.
Definition atomic_sub (counter val : Z) : Z := counter.
Definition atomic_inc (counter : Z) : Z := w32 (counter + 1).
Definition atomic_dec (counter : Z) : Z := w32 (counter + -1).

Lemma atomic_dec_inc c : fits 32 c → atomic_dec (atomic_inc c) = c ∧ atomic_inc (atomic_dec c) = c.
Proof.
  unfold fits, atomic_dec, atomic_inc, wrap. change (2 ^ 32) with 4294967296. intros Hc.
  Z.to_euclidean_division_equations. lia.
Qed.
