(* ===== verification/Uvm.v ===== *)
(** * User address spaces

    kern/mm/uvm.c and include/aim/uvm.h.  A [struct mm] has a page index and a
    sorted list of [struct vma]; each vma refers to a counted [struct upages].
    The three structures are kept in typed stores indexed by their address, the
    [struct list_head] fields inside them in one heap of links, so that a vma is
    the node [vma + 20] of its address space's list and [vma + 28] of its pages'
    list.  The fields [ref_count] and [lock] of [struct mm] are never accessed. *)
From stdpp Require Import sorting.
From S2P Require Import Prelude Util DList MmState Libc Palloc Pmm Simple Vmm Init Cp0 Pgtable Sync.

Record mm := Mm { vma_count : Z; pgindex : Z }.
Record upages := UPages { u_pages : pages; refs : Z }.
Record vma := Vma { v_start : Z; v_size : Z; v_flags : Z; v_mm : Z; v_pages : Z }.

(** Offsets and sizes of the structures (32-bit pointers, 64-bit [addr_t]). *)
Definition NODE : Z := 20.
Definition SHARE_NODE : Z := 28.
Definition UPAGES_HEAD : Z := 28.
Definition SIZEOF_MM : Z := 24.
Definition SIZEOF_VMA : Z := 36.
Definition SIZEOF_UPAGES : Z := 40.

(** [current_mm] is [current_proc->mm], [None] while [current_proc] is NULL. *)
Record uvm := UvmState {
  mms : gmap Z mm; vmas : gmap Z vma; upgs : gmap Z upages; ul : links;
  kernel_mm : Z; current_mm : option Z; mmu : cpu_mmu; this_cpu : Z; mw : world }.

Definition set_mms f (u : uvm) := UvmState (f (mms u)) (vmas u) (upgs u) (ul u) (kernel_mm u) (current_mm u) (mmu u) (this_cpu u) (mw u).
Definition set_vmas f (u : uvm) := UvmState (mms u) (f (vmas u)) (upgs u) (ul u) (kernel_mm u) (current_mm u) (mmu u) (this_cpu u) (mw u).
Definition set_upgs f (u : uvm) := UvmState (mms u) (vmas u) (f (upgs u)) (ul u) (kernel_mm u) (current_mm u) (mmu u) (this_cpu u) (mw u).
Definition set_ul f (u : uvm) := UvmState (mms u) (vmas u) (upgs u) (f (ul u)) (kernel_mm u) (current_mm u) (mmu u) (this_cpu u) (mw u).
Definition set_mw w (u : uvm) := UvmState (mms u) (vmas u) (upgs u) (ul u) (kernel_mm u) (current_mm u) (mmu u) (this_cpu u) w.

Definition get_mm (u : uvm) (p : Z) : res mm := of_option BadPtr (mms u !! p).
Definition get_vma (u : uvm) (p : Z) : res vma := of_option BadPtr (vmas u !! p).
Definition get_upages (u : uvm) (p : Z) : res upages := of_option BadPtr (upgs u !! p).

(** An operation of the allocators or page tables on the memory part. *)
Definition on_mw {A} (f : world → res (A * world)) (u : uvm) : res (A * uvm) :=
  '(a, w) ← f (mw u); Ok (a, set_mw w u).
Definition on_mw_ (f : world → res world) (u : uvm) : res uvm := w ← f (mw u); Ok (set_mw w u).
Definition on_ul (f : links → res links) (u : uvm) : res uvm := L ← f (ul u); Ok (set_ul (λ _, L) u).

(** [list_init] of a field of an object that was just allocated. *)
Definition list_init_new (a : Z) (u : uvm) : uvm := set_ul <[a := Link a a]> u.

Section ops.
Context {K : Kmem}.

Definition mm_new (u : uvm) : res (Z * uvm) :=
  '(m, u) ← on_mw (kmalloc SIZEOF_MM 0) u;
  if negb (m =? NULL) then
    let u := list_init_new m u in
    '(pg, u) ← on_mw init_pgindex u;
    if pg =? NULL then
      u ← on_mw_ (kfree m) (set_ul (delete m) u);
      Ok (NULL, u)
    else Ok (m, set_mms <[m := Mm 0 pg]> u)
  else Ok (m, u).

(** [__clean_vma]; the local [pa] is only set when a page was unmapped. *)
Definition clean_vma (m v : Z) (u : uvm) : res uvm :=
  vm ← get_vma u v; p ← get_upages u (v_pages vm); mm ← get_mm u m;
  assert_ (v_size vm =? psize (u_pages p));;
  '(unmapped, pa, u) ← on_mw (unmap_pages (pgindex mm) (v_start vm) (v_size vm)) u;
  pa ← of_option BadPtr pa;
  assert_ (pa =? paddr (u_pages p));;
  assert_ (unmapped =? sgn 32 (v_size vm));;
  Ok u.

Definition ref_upages (p : Z) (u : uvm) : res uvm :=
  up ← get_upages u p; Ok (set_upgs <[p := UPages (u_pages up) (atomic_inc (refs up))]> u).

(** [__unref_and_free_upages]: [true] is [__PAGES_FREED]. *)
Definition unref_and_free_upages (p : Z) (u : uvm) : res (bool * uvm) :=
  up ← get_upages u p;
  let up := UPages (u_pages up) (atomic_dec (refs up)) in
  let u := set_upgs <[p := up]> u in
  if refs up =? 0 then u ← on_mw_ (free_pages (u_pages up)) u; Ok (true, u)
  else Ok (false, u).

(** [kfree] of a [struct upages] and of a [struct vma]: the object and the link
    fields inside it leave the stores. *)
Definition free_upages (p : Z) (u : uvm) : res uvm :=
  on_mw_ (kfree p) (set_ul (delete (p + UPAGES_HEAD)) (set_upgs (delete p) u)).
Definition free_vma (v : Z) (u : uvm) : res uvm :=
  on_mw_ (kfree v) (set_ul (λ L, delete (v + SHARE_NODE) (delete (v + NODE) L)) (set_vmas (delete v) u)).

(** What [mm_destroy] and [__unmap_and_free_vma] do after the unmapping. *)
Definition release_vma (v p : Z) (u : uvm) : res uvm :=
  '(freed, u) ← unref_and_free_upages p u;
  u ← (if (freed : bool) then free_upages p u else Ok u);
  free_vma v u.

Definition mm_destroy (m : Z) (u : uvm) : res uvm :=
  if (m =? NULL) || (m =? kernel_mm u) then Ok u
  else
    first ← get_next (ul u) m;
    second ← get_next (ul u) first;
    u ← loop (S (size (ul u))) (λ '(n, n', u),
      if n =? m then Ok (inr u)
      else
        let v := n - NODE in
        u ← clean_vma m v u;
        vm ← get_vma u v;
        u ← release_vma v (v_pages vm) u;
        n'' ← get_next (ul u) n';
        Ok (inl (n', n'', u))) (first, second, u);
    mm ← get_mm u m;
    u ← on_mw_ (destroy_pgindex (pgindex mm)) u;
    on_mw_ (kfree m) (set_ul (delete m) (set_mms (delete m) u)).

(** [__find_vma_before] and [__find_continuous_vma]: the address of a vma,
    possibly that of the sentry taken as one, or NULL. *)
Definition find_vma_before (m addr sz : Z) (u : uvm) : res Z :=
  e ← list_empty m (ul u);
  if (e : bool) then Ok (m - NODE)
  else
    n ← for_each (ul u) m (λ n, vm ← get_vma u (n - NODE); Ok (w32 (addr + sz) <=? v_start vm));
    p ← get_prev (ul u) n;
    vm ← get_vma u (p - NODE);
    if addr <? w32 (v_start vm + v_size vm) then Ok NULL else Ok (p - NODE).

Definition find_continuous_vma (m addr len : Z) (u : uvm) : res Z :=
  assert_ (IS_ALIGNED 32 addr PAGE_SIZE);;
  assert_ (IS_ALIGNED 32 len PAGE_SIZE);;
  n ← for_each (ul u) m (λ n, vm ← get_vma u (n - NODE); Ok (v_start vm =? addr));
  if n =? m then Ok NULL
  else
    loop (S (Z.to_nat (len / PAGE_SIZE))) (λ '(i, k),
      if i <? len then
        k ← get_next (ul u) k;
        vm ← get_vma u (k - NODE);
        if negb (v_start vm =? w32 (addr + i)) then Ok (inr NULL)
        else Ok (inl (w32 (i + PAGE_SIZE), k))
      else Ok (inr (n - NODE))) (PAGE_SIZE, n).

(** [__unmap_and_free_vma]: the removal of one vma, with its size, and the loop. *)
Definition remove_vma (m v : Z) (u : uvm) : res (Z * uvm) :=
  vm ← get_vma u v;
  let vma_size := v_size vm in
  u ← on_ul (list_del (v + NODE)) u;
  u ← on_ul (list_del (v + SHARE_NODE)) u;
  mm ← get_mm u m;
  '(unmapped, _, u) ← on_mw (unmap_pages (pgindex mm) (v_start vm) (v_size vm)) u;
  assert_ (unmapped =? sgn 32 vma_size);;
  u ← release_vma v (v_pages vm) u;
  Ok (vma_size, u).

Definition unmap_and_free_vma (m vma_start sz : Z) (u : uvm) : res uvm :=
  loop (S (S (size (ul u)))) (λ '(i, cur, u),
    if i <? sz then
      let v := cur in
      n ← get_next (ul u) (cur + NODE);
      let cur := n - NODE in
      '(vma_size, u) ← remove_vma m v u;
      Ok (inl (w32 (i + vma_size), cur, u))
    else Ok (inr u)) (0, vma_start, u).

Definition vma_new (m addr sz flags : Z) (u : uvm) : res (Z * uvm) :=
  '(v, u) ← on_mw (kmalloc SIZEOF_VMA 0) u;
  if negb (v =? NULL) then
    let u := set_vmas <[v := Vma addr sz flags m NULL]> u in
    Ok (v, list_init_new (v + SHARE_NODE) (list_init_new (v + NODE) u))
  else Ok (v, u).

Definition upages_new (sz flags : Z) (u : uvm) : res (Z * uvm) :=
  '(p, u) ← on_mw (kmalloc SIZEOF_UPAGES 0) u;
  if negb (p =? NULL) then
    let u := set_upgs <[p := UPages (Pages 0 sz flags) 0]> u in
    Ok (p, list_init_new (p + UPAGES_HEAD) u)
  else Ok (p, u).

(** [alloc_pages(p)] of a [struct upages]: the allocator stores into it. *)
Definition alloc_upages (p : Z) (u : uvm) : res (Z * uvm) :=
  up ← get_upages u p;
  '(r, pg, u) ← on_mw (alloc_pages (Some (u_pages up))) u;
  pg ← of_option BadPtr pg;
  Ok (r, set_upgs <[p := UPages pg (refs up)]> u).

(** The body that [create_uvm] and [mm_clone] share: a new vma with new pages of
    its own, mapped and linked behind [cur]; [prepare] runs between the mapping
    and the linking.  The result is the error code and the vma, with everything
    this call allocated given back when the code is negative. *)
Definition add_vma (m addr sz vflags psz pflags cur : Z) (prepare : Z → uvm → res uvm) (u : uvm) : res (Z * Z * uvm) :=
  '(v, u) ← vma_new m addr sz vflags u;
  if v =? NULL then Ok (- ENOMEM, v, u)
  else
    '(p, u) ← upages_new psz pflags u;
    if p =? NULL then u ← free_vma v u; Ok (- ENOMEM, v, u)
    else
      '(r, u) ← alloc_upages p u;
      if r <? 0 then u ← free_upages p u; u ← free_vma v u; Ok (- ENOMEM, v, u)
      else
        up ← get_upages u p;
        mm ← get_mm u m;
        '(retcode, u) ← on_mw (map_pages (pgindex mm) addr (paddr (u_pages up)) sz vflags) u;
        if retcode <? 0 then
          u ← on_mw_ (free_pages (u_pages up)) u;
          u ← free_upages p u; u ← free_vma v u; Ok (retcode, v, u)
        else
          u ← prepare p u;
          vm ← get_vma u v;
          let u := set_vmas <[v := Vma (v_start vm) (v_size vm) (v_flags vm) (v_mm vm) p]> u in
          u ← ref_upages p u;
          u ← on_ul (list_add_after (v + NODE) (cur + NODE)) u;
          u ← on_ul (list_add_after (v + SHARE_NODE) (p + UPAGES_HEAD)) u;
          Ok (0, v, u).

Definition create_uvm (m addr len flags : Z) (u : uvm) : res (Z * uvm) :=
  if negb (IS_ALIGNED 32 len PAGE_SIZE) || (m =? NULL) || negb (IS_ALIGNED 32 addr PAGE_SIZE) then Ok (- EINVAL, u)
  else if len =? 0 then Ok (0, u)
  else
    vma_start ← find_vma_before m addr len u;
    if vma_start =? NULL then Ok (- EFAULT, u)
    else
      '(retcode, mapped, u) ← loop (S (Z.to_nat (len / PAGE_SIZE))) (λ '(mapped, vcur, cur, u),
        if mapped <? len then
          '(retcode, v, u) ← add_vma m vcur PAGE_SIZE flags PAGE_SIZE 0 cur (λ _ u, Ok u) u;
          if retcode <? 0 then Ok (inr (retcode, mapped, u))
          else Ok (inl (w32 (mapped + PAGE_SIZE), w32 (vcur + PAGE_SIZE), v, u))
        else Ok (inr (0, mapped, u))) (0, addr, vma_start, u);
      if retcode <? 0 then
        n ← get_next (ul u) (vma_start + NODE);
        u ← unmap_and_free_vma m (n - NODE) mapped u;
        Ok (retcode, u)
      else Ok (retcode, u).

Definition destroy_uvm (m addr len : Z) (u : uvm) : res (Z * uvm) :=
  if negb (IS_ALIGNED 32 len PAGE_SIZE) || (m =? NULL) || negb (IS_ALIGNED 32 addr PAGE_SIZE) then Ok (- EINVAL, u)
  else
    v ← find_continuous_vma m addr len u;
    if v =? NULL then Ok (- EFAULT, u)
    else u ← unmap_and_free_vma m v len u; Ok (0, u).

Definition set_uvm_perm (m addr len flags : Z) (u : uvm) : res (Z * uvm) :=
  if negb (IS_ALIGNED 32 len PAGE_SIZE) || (m =? NULL) || negb (IS_ALIGNED 32 addr PAGE_SIZE) then Ok (- EINVAL, u)
  else
    v ← find_continuous_vma m addr len u;
    if v =? NULL then Ok (- EFAULT, u)
    else
      loop (S (Z.to_nat (len / PAGE_SIZE))) (λ '(i, addr, u),
        if i <? len then
          vm ← get_vma u v; mm ← get_mm u m;
          let u := set_vmas <[v := Vma (v_start vm) (v_size vm) flags (v_mm vm) (v_pages vm)]> u in
          '(r, u) ← on_mw (set_pages_perm (pgindex mm) addr PAGE_SIZE flags) u;
          if negb (r =? 0) then Ok (inr (- ENOENT, u))
          else Ok (inl (w32 (i + PAGE_SIZE), w32 (addr + PAGE_SIZE), u))
        else Ok (inr (0, u))) (0, addr, u).

(** [memmove] and [memset] on the kernel memory. *)
Definition memmove_w (dst src n : Z) (u : uvm) : res uvm :=
  '(_, m) ← memmove dst src n (bytes (mw u)); Ok (set_mw (upd_bytes (λ _, m) (mw u)) u).
Definition memset_w (dst c n : Z) (u : uvm) : res uvm :=
  '(_, m) ← memset dst c n (bytes (mw u)); Ok (set_mw (upd_bytes (λ _, m) (mw u)) u).

Definition mm_clone (dst src : Z) (u : uvm) : res (Z * uvm) :=
  let vma_start := dst - NODE in
  first ← get_next (ul u) src;
  '(retcode, cloned, u) ← loop (S (size (ul u))) (λ '(n, cur, cloned, u),
    if n =? src then Ok (inr (0, cloned, u))
    else
      vm ← get_vma u (n - NODE);
      up ← get_upages u (v_pages vm);
      '(retcode, v, u) ← add_vma dst (v_start vm) (v_size vm) (v_flags vm)
        (w32 (psize (u_pages up))) (pflags (u_pages up)) cur
        (λ p u, np ← get_upages u p;
                memmove_w (pa2kva (paddr (u_pages np))) (pa2kva (paddr (u_pages up))) (v_size vm) u) u;
      if retcode <? 0 then Ok (inr (retcode, cloned, u))
      else
        n ← get_next (ul u) n;
        Ok (inl (n, v, w32 (cloned + v_size vm), u))) (first, vma_start, 0, u);
  if retcode <? 0 then
    n ← get_next (ul u) (vma_start + NODE);
    u ← unmap_and_free_vma dst (n - NODE) cloned u;
    Ok (retcode, u)
  else Ok (retcode, u).

(** [__copy_fill_uvm]: one transfer of [l] bytes between the (possibly
    translated) user address and the kernel address. *)
Definition transfer (fill touser : bool) (uaddr vaddr c l : Z) (u : uvm) : res uvm :=
  if fill then memset_w uaddr c l u
  else if negb touser then memmove_w vaddr uaddr l u
  else memmove_w uaddr vaddr l u.

(** The same transfer on the virtual addresses of the loaded page index: every
    load and store below [KERN_BASE] is translated by it (the translation buffer
    has nothing else: [cp0_access_ok] of the refill), and an access to a page that is not
    valid or a store to one that is not dirty is an exception in the kernel, for
    which the handler panics. *)
Definition mmu_addr (store : bool) (pg a : Z) (w : world) : res Z :=
  if a <? KERN_BASE then
    match walk_access (bytes w) pg store a with inl pa => Ok (pa2kva pa) | inr _ => Err Panicked end
  else Ok a.

Fixpoint store_all (ws : list (Z * Z)) (m : mem) : mem :=
  match ws with [] => m | (a, v) :: ws => store_all ws (store a v m) end.

Definition virtual_transfer (fill touser : bool) (pg uaddr vaddr c l : Z) (u : uvm) : res uvm :=
  let dst := if fill || touser then uaddr else vaddr in
  let src := if touser then vaddr else uaddr in
  ws ← mapM (λ j,
    d ← mmu_addr true pg (w32 (dst + j)) (mw u);
    v ← (if fill then Ok (w8 c) else s ← mmu_addr false pg (w32 (src + j)) (mw u); Ok (bytes (mw u) s));
    Ok (d, v)) (seqZ 0 l);
  Ok (set_mw (upd_bytes (store_all ws) (mw u)) u).

Definition copy_fill_uvm (m uvaddr vaddr c len : Z) (fill touser : bool) (u : uvm) : res (Z * uvm) :=
  let end_ := w32 (uvaddr + len) in
  let start_page := ALIGN_BELOW 32 uvaddr PAGE_SIZE in
  let end_page := ALIGN_ABOVE 32 end_ PAGE_SIZE in
  v ← find_continuous_vma m start_page (w32 (end_page - start_page)) u;
  if v =? NULL then Ok (- EFAULT, u)
  else
    mm ← get_mm u m;
    if bool_decide (current_mm u = Some m) then
      pg ← get_pgindex (this_cpu u) (mmu u);
      assert_ (pgindex mm =? pg);;
      u ← virtual_transfer fill touser pg uvaddr vaddr c len u;
      Ok (0, u)
    else
      loop (S (S (S (Z.to_nat (len / PAGE_SIZE))))) (λ '(start, vaddr, u),
        if start <? end_ then
          kuvaddr ← uva2kva (pgindex mm) start (mw u);
          let next := ALIGN_NEXT 32 start PAGE_SIZE in
          let l := w32 (Z.min next end_ - start) in
          if kuvaddr =? NULL then Ok (inr (- EACCES, u))
          else
            u ← transfer fill touser kuvaddr vaddr c l u;
            Ok (inl (next, w32 (vaddr + l), u))
        else Ok (inr (0, u))) (uvaddr, vaddr, u).

Definition copy_to_uvm (m uvaddr vaddr len : Z) := copy_fill_uvm m uvaddr vaddr 0 len false true.
Definition copy_from_uvm (m uvaddr vaddr len : Z) := copy_fill_uvm m uvaddr vaddr 0 len false false.
Definition fill_uvm (m uvaddr c len : Z) := copy_fill_uvm m uvaddr NULL c len true true.

Definition mm_init (u : uvm) : res uvm :=
  '(k, u) ← mm_new u;
  mm ← get_mm u k;
  '(_, c) ← switch_pgindex (this_cpu u) (pgindex mm) (mmu u);
  Ok (UvmState (mms u) (vmas u) (upgs u) (ul u) k (current_mm u) c (this_cpu u) (mw u)).

End ops.

(** ** The list of areas *)
Definition nodes (l : list (Z * vma)) : list (Z * vma) := (λ x, (x.1 + NODE, x.2)) <$> l.

(** The address space [m] has the areas [l], in this order. *)
Record vlist (u : uvm) (m : Z) (l : list (Z * vma)) : Prop := VList {
  vl_list : dlist (ul u) m (nodes l).*1;
  vl_store : Forall (λ x, vmas u !! x.1 = Some x.2) l;
  vl_head : vmas u !! (m - NODE) = None }.

Definition v_end (v : vma) : Z := v_start v + v_size v.
Definition area_ok (v : vma) : Prop := 0 ≤ v_start v ∧ 0 < v_size v ∧ v_end v < 2 ^ 32.

(** The three requirements of include/aim/uvm.h that concern addresses: ascending
    order, no overlap, and areas inside the address space. *)
Definition areas_ok (l : list (Z * vma)) : Prop :=
  Forall (λ x, area_ok x.2) l ∧ StronglySorted (λ x y, v_end x.2 ≤ v_start y.2) l.

Lemma area_nodes_app l1 l2 : nodes (l1 ++ l2) = nodes l1 ++ nodes l2.
Proof. apply fmap_app. Qed.
Lemma area_nodes_last l h : default h (last (nodes l).*1) - NODE = default (h - NODE) (last l.*1).
Proof.
  destruct l as [|x l] using rev_ind; [done|].
  rewrite area_nodes_app, !fmap_app, !last_app. simpl. lia.
Qed.

Lemma get_vma_area u m l x : vlist u m l → x ∈ l → get_vma u x.1 = Ok x.2.
Proof.
  intros [_ Hs _] Hx. rewrite Forall_forall in Hs. unfold get_vma. by rewrite (Hs x Hx).
Qed.

Lemma get_vma_node u m l n v : vlist u m l → (n, v) ∈ nodes l → get_vma u (n - NODE) = Ok v.
Proof.
  intros Hv [[a v'] [[= -> ->] Hin]]%list_elem_of_fmap. cbn [fst snd].
  replace (a + NODE - NODE) with a by lia. by apply (get_vma_area u m l (a, v')).
Qed.

Lemma list_empty_vlist u m l : vlist u m l → list_empty m (ul u) = Ok (bool_decide (l = [])).
Proof.
  intros [Hl _ _]. unfold list_empty. rewrite (dlist_next _ _ _ Hl). cbn [mbind res_bind].
  destruct l as [|x l]; [by rewrite bool_decide_true, Z.eqb_refl|].
  rewrite bool_decide_false by done. f_equal. cbn [hd nodes fmap list_fmap fst]. apply Z.eqb_neq. destruct Hl as [_ Hnd]. apply NoDup_cons in Hnd as [Hh _].
  intros <-. apply Hh. simpl. left.
Qed.

(** Walking to the first area that satisfies a test. *)
Lemma for_each_area u m l (T : vma → bool) : vlist u m l →
  ∃ l1 l2, l = l1 ++ l2 ∧ Forall (λ x, T x.2 = false) l1 ∧ (∀ x l', l2 = x :: l' → T x.2 = true) ∧
    for_each (ul u) m (λ n, vm ← get_vma u (n - NODE); Ok (T vm)) = Ok (hd m (nodes l2).*1).
Proof.
  intros Hv. destruct (for_each_tagged (ul u) m (nodes l) (λ n, vm ← get_vma u (n - NODE); Ok (T vm)) T) as (k1 & k2 & E & H1 & H2 & H3).
  - apply Hv.
  - intros n v Hin. by rewrite (get_vma_node u m l n v).
  - apply fmap_app_inv in E as (l1 & l2 & -> & -> & ->). exists l1, l2. split_and!; [done| | |done].
    + by apply Forall_fmap in H1.
    + intros x l' ->. by apply (H2 (x.1 + NODE, x.2) (nodes l')).
Qed.

Lemma sorted_last l1 x l2 y : areas_ok (l1 ++ x :: l2) → y ∈ l1 → v_end y.2 ≤ v_start x.2.
Proof.
  intros [_ Hs] Hy. induction l1 as [|z l1 IH]; [set_solver|]. simpl in Hs.
  apply StronglySorted_inv in Hs as [Hs Hf]. rewrite Forall_forall in Hf.
  apply elem_of_cons in Hy as [->|Hy]; [|by apply IH]. apply Hf. set_solver.
Qed.

Lemma sorted_insert l1 l2 x : areas_ok (l1 ++ l2) → area_ok x.2 →
  (∀ y, y ∈ l1 → v_end y.2 ≤ v_start x.2) → (∀ y, y ∈ l2 → v_end x.2 ≤ v_start y.2) →
  areas_ok (l1 ++ x :: l2).
Proof.
  intros [Ho Hs] Hx H1 H2. apply Forall_app in Ho as [Ho1 Ho2].
  split; [apply Forall_app; split; [done|by constructor]|]. clear Ho1 Ho2.
  induction l1 as [|z l1 IH]; simpl in *.
  - constructor; [done|]. rewrite Forall_forall. apply H2.
  - apply StronglySorted_inv in Hs as [Hs Hf]. constructor; [apply IH; set_solver|].
    rewrite Forall_forall in *. intros y Hy. apply elem_of_app in Hy as [Hy|[->|Hy]%elem_of_cons].
    + apply Hf. set_solver.
    + apply H1. set_solver.
    + apply Hf. set_solver.
Qed.

Lemma find_vma_before_ok u m l addr sz :
  vlist u m l → areas_ok l → 0 ≤ addr → 0 < sz → addr + sz < 2 ^ 32 →
  (∀ x l', l = x :: l' → v_start x.2 < addr + sz) →
  wp (find_vma_before m addr sz u) (λ r,
    (r = NULL ∧ ∃ x, x ∈ l ∧ v_start x.2 < addr + sz ∧ addr < v_end x.2) ∨
    (∃ l1 l2, l = l1 ++ l2 ∧ r = default (m - NODE) (last l1.*1) ∧
      ∀ b v, v_start v = addr → v_size v = sz → areas_ok (l1 ++ (b, v) :: l2))).
Proof.
  intros Hv Hs Ha Hz Hb Hfirst. unfold find_vma_before. rewrite (list_empty_vlist u m l Hv).
  cbn [mbind res_bind]. case_bool_decide as El.
  { subst l. right. exists [], []. split_and!; [done|done|]. intros b v Hv1 Hv2.
    apply (sorted_insert [] [] (b, v)); [done| |set_solver|set_solver]. unfold area_ok, v_end. simpl. lia. }
  rewrite (wrap_small 32) by (unfold fits; lia).
  destruct (for_each_area u m l (λ vm, addr + sz <=? v_start vm) Hv) as (l1 & l2 & -> & H1 & H2 & ->).
  cbn [mbind res_bind]. pose proof (vl_list _ _ _ Hv) as Hd. rewrite area_nodes_app, fmap_app in Hd.
  rewrite (dlist_before _ _ _ _ Hd). cbn [mbind res_bind]. rewrite area_nodes_last.
  destruct l1 as [|y l1 _] using rev_ind.
  { exfalso. destruct l2 as [|x l2]; [done|]. specialize (H2 x l2 eq_refl). specialize (Hfirst x l2 eq_refl). lia. }
  rewrite fmap_app, last_app. simpl. rewrite (get_vma_area u m _ y Hv) by set_solver. cbn [mbind res_bind].
  assert (area_ok y.2) as Hy. { destruct Hs as [Hs _]. rewrite Forall_forall in Hs. apply Hs. set_solver. }
  assert (v_start y.2 < addr + sz) as Hys.
  { rewrite Forall_forall in H1. specialize (H1 y ltac:(set_solver)). simpl in H1. lia. }
  assert (v_start y.2 + v_size y.2 = v_end y.2) as -> by done.
  rewrite (wrap_small 32) by (unfold fits, area_ok, v_end in *; lia).
  destruct (Z.ltb_spec addr (v_end y.2)).
  - left. split; [done|]. exists y. split; [set_solver|lia].
  - right. exists (l1 ++ [y]), l2. split; [done|]. split; [rewrite fmap_app, last_app; done|].
    intros b v Hv1 Hv2. apply sorted_insert; [done| | |].
    + unfold area_ok, v_end. simpl. lia.
    + intros z [Hz'|Hz']%elem_of_app; [|apply list_elem_of_singleton in Hz' as ->; simpl; lia].
      rewrite <- app_assoc in Hs. pose proof (sorted_last l1 y l2 z Hs Hz').
      unfold area_ok, v_end in *. simpl. lia.
    + intros z Hz'. destruct l2 as [|x l2]; [set_solver|]. specialize (H2 x l2 eq_refl).
      apply elem_of_cons in Hz' as [->|Hz']; [unfold v_end; simpl; lia|].
      destruct Hs as [Hs0 Hs]. rewrite Forall_forall in Hs0. pose proof (Hs0 x ltac:(set_solver)) as Hx.
      apply StronglySorted_app_1_r in Hs. apply StronglySorted_inv in Hs as [_ Hs].
      rewrite Forall_forall in Hs. specialize (Hs z Hz'). unfold area_ok, v_end in *. simpl in *. lia.
Qed.

(** Finding the place of a new area ([__find_vma_before]): in an address space
    whose areas are sorted and disjoint, for a range that the first area does not
    start above, the result is NULL exactly when some area overlaps the range;
    otherwise it is the area (or the sentry) after which an area with this range
    must be linked for the list to stay sorted and disjoint. *)
Theorem find_vma_before_correct u m l addr sz :
  vlist u m l → areas_ok l → 0 ≤ addr → 0 < sz → addr + sz < 2 ^ 32 →
  (∀ x l', l = x :: l' → v_start x.2 < addr + sz) →
  wp (find_vma_before m addr sz u) (λ r,
    (r = NULL ∧ ∃ x, x ∈ l ∧ v_start x.2 < addr + sz ∧ addr < v_end x.2) ∨
    (∃ l1 l2, l = l1 ++ l2 ∧ r = default (m - NODE) (last l1.*1) ∧
      ∀ b v, v_start v = addr → v_size v = sz → areas_ok (l1 ++ (b, v) :: l2))).
Proof. apply find_vma_before_ok. Qed.

(** When every area lies above the range, [prev_entry] of the first area is the
    sentry, and the code reads the fields of a vma around it. *)
Theorem find_vma_before_head u m x l addr sz :
  vlist u m (x :: l) → addr + sz ≤ v_start x.2 → 0 ≤ addr → 0 < sz → addr + sz < 2 ^ 32 →
  find_vma_before m addr sz u = Err BadPtr.
Proof.
  intros Hv Hx Ha Hz Hb. unfold find_vma_before. rewrite (list_empty_vlist u m _ Hv). cbn [mbind res_bind].
  rewrite bool_decide_false by done. rewrite (wrap_small 32) by (unfold fits; lia).
  destruct (for_each_area u m _ (λ vm, addr + sz <=? v_start vm) Hv) as (l1 & l2 & E & H1 & H2 & ->).
  destruct l1 as [|y l1].
  - cbn [mbind res_bind]. simpl in E. subst l2. pose proof (vl_list _ _ _ Hv) as Hd.
    rewrite (dlist_before _ _ [] _ Hd). cbn [mbind res_bind]. simpl. unfold get_vma. by rewrite (vl_head _ _ _ Hv).
  - exfalso. injection E as -> ->. apply Forall_cons in H1 as [H1 _]. simpl in H1. lia.
Qed.

(** ** Runs of consecutive pages *)

(** The areas of [run] start at [addr], [addr + PAGE_SIZE], ... *)
Definition run_at (addr : Z) (run : list (Z * vma)) : Prop :=
  ∀ k x, run !! k = Some x → v_start x.2 = addr + PAGE_SIZE * Z.of_nat k.

Lemma run_at_cons addr x run : run_at addr (x :: run) → v_start x.2 = addr ∧ run_at (addr + PAGE_SIZE) run.
Proof.
  intros H. split; [rewrite (H 0%nat x) by done; lia|]. intros k y Hk. rewrite (H (S k) y Hk). lia.
Qed.

Definition cont_body (u : uvm) (addr len n : Z) (st : Z * Z) : res (Z * Z + Z) :=
  let '(i, k) := st in
  if i <? len then
    k ← get_next (ul u) k;
    vm ← get_vma u (k - NODE);
    if negb (v_start vm =? w32 (addr + i)) then Ok (inr NULL)
    else Ok (inl (w32 (i + PAGE_SIZE), k))
  else Ok (inr (n - NODE)).

(** What the loop of [__find_continuous_vma] delivers after the area [c], when the
    areas [rs] that follow continue the run and [l2] does not. *)
Definition cont_result (n len reach : Z) (l2 : list (Z * vma)) : res Z :=
  if len <=? reach then Ok (n - NODE) else match l2 with [] => Err BadPtr | _ => Ok NULL end.

Lemma cont_loop u m n addr len l2 rs l1 c i fuel :
  vlist u m (l1 ++ c :: rs ++ l2) → 0 ≤ addr → 0 ≤ i → addr + i + PAGE_SIZE * Z.of_nat (length rs) < 2 ^ 32 →
  run_at (addr + i) rs → (∀ x l', l2 = x :: l' → v_start x.2 ≠ addr + i + PAGE_SIZE * Z.of_nat (length rs)) →
  addr + len < 2 ^ 32 → (len - i) mod PAGE_SIZE = 0 → i ≤ len →
  (len - i) / PAGE_SIZE < Z.of_nat fuel →
  loop fuel (cont_body u addr len n) (i, c.1 + NODE) = cont_result n len (i + PAGE_SIZE * Z.of_nat (length rs)) l2.
Proof.
  revert l1 c i fuel. induction rs as [|y rs IH]; intros l1 c i fuel Hv Ha Hi Hb Hrun Hl2 Hlen Hmod Hle Hf;
    (destruct fuel as [|fuel]; [unfold PAGE_SIZE in *; Z.to_euclidean_division_equations; lia|]); cbn [loop]; unfold cont_body at 2, cont_result.
  - cbn [length] in *. replace (i + PAGE_SIZE * Z.of_nat 0) with i in * by lia. pose proof (vl_list _ _ _ Hv) as Hd.
    rewrite area_nodes_app, fmap_app in Hd. cbn [nodes fmap list_fmap app fst] in Hd. apply dlist_split in Hd as [_ Hn].
    destruct (Z.ltb_spec i len); destruct (Z.leb_spec len i); try lia; [|done].
    rewrite Hn. cbn [mbind res_bind]. destruct l2 as [|x l2].
    + simpl. unfold get_vma. by rewrite (vl_head _ _ _ Hv).
    + cbn [hd fmap list_fmap fst]. replace (x.1 + NODE - NODE) with x.1 by lia.
      rewrite (get_vma_area u m _ x Hv) by set_solver. cbn [mbind res_bind]. specialize (Hl2 x l2 eq_refl).
      rewrite (wrap_small 32) by (unfold fits; lia). rewrite (proj2 (Z.eqb_neq _ _)) by lia. done.
  - cbn [length] in *. pose proof (vl_list _ _ _ Hv) as Hd. rewrite area_nodes_app, fmap_app in Hd.
    cbn [nodes fmap list_fmap app fst] in Hd. apply dlist_split in Hd as [_ Hn]. cbn [hd] in Hn.
    apply run_at_cons in Hrun as [Hy Hrun].
    destruct (Z.ltb_spec i len).
    + rewrite Hn. cbn [mbind res_bind]. replace (y.1 + NODE - NODE) with y.1 by lia.
      rewrite (get_vma_area u m _ y Hv) by set_solver. cbn [mbind res_bind].
      assert (i + PAGE_SIZE ≤ len) by (unfold PAGE_SIZE in *; Z.to_euclidean_division_equations; lia).
      rewrite !(wrap_small 32) by (unfold fits, PAGE_SIZE in *; lia). rewrite Hy, Z.eqb_refl. cbn [negb mbind res_bind].
      rewrite (IH (l1 ++ [c])).
      * unfold cont_result. replace (i + PAGE_SIZE + PAGE_SIZE * Z.of_nat (length rs)) with (i + PAGE_SIZE * Z.of_nat (S (length rs))) by lia. done.
      * by rewrite <- app_assoc.
      * lia.
      * unfold PAGE_SIZE. lia.
      * unfold PAGE_SIZE in *. lia.
      * by rewrite Z.add_assoc.
      * intros x l' E. specialize (Hl2 x l' E). unfold PAGE_SIZE in *. lia.
      * done.
      * unfold PAGE_SIZE in *. Z.to_euclidean_division_equations. lia.
      * done.
      * unfold PAGE_SIZE in *. Z.to_euclidean_division_equations. lia.
    + rewrite (proj2 (Z.leb_le _ _)) by (unfold PAGE_SIZE in *; lia). done.
Qed.

Lemma first_split {A} (T : A → bool) l1 x r k1 k2 : l1 ++ x :: r = k1 ++ k2 →
  Forall (λ y, T y = false) l1 → T x = true → Forall (λ y, T y = false) k1 →
  (∀ y k, k2 = y :: k → T y = true) → k1 = l1 ∧ k2 = x :: r.
Proof.
  intros E Hl Hx Hk H2. revert k1 E Hk. induction Hl as [|y l1 Hy Hl IH]; intros [|z k1] E Hk; cbn [app] in E.
  - done.
  - injection E as <- E. apply Forall_cons in Hk as [Hk _]. congruence.
  - specialize (H2 y _ (eq_sym E)). congruence.
  - injection E as <- E. apply Forall_cons in Hk as [_ Hk]. by destruct (IH k1 E Hk) as [-> ->].
Qed.

Lemma find_continuous_ok u m l1 run l2 addr len :
  vlist u m (l1 ++ run ++ l2) → 0 ≤ addr → 0 ≤ len → addr mod PAGE_SIZE = 0 → len mod PAGE_SIZE = 0 →
  addr + len < 2 ^ 32 → addr + PAGE_SIZE * Z.of_nat (length run) < 2 ^ 32 →
  Forall (λ x, v_start x.2 ≠ addr) l1 → run_at addr run →
  (∀ x l', l2 = x :: l' → v_start x.2 ≠ addr + PAGE_SIZE * Z.of_nat (length run)) →
  (run = [] → Forall (λ x, v_start x.2 ≠ addr) l2) →
  find_continuous_vma m addr len u =
    match run with
    | [] => Ok NULL
    | x :: _ => if len <=? PAGE_SIZE * Z.of_nat (length run) then Ok x.1
                else match l2 with [] => Err BadPtr | _ => Ok NULL end
    end.
Proof.
  intros Hv Ha Hlen0 Hma Hml Hb Hr Hl1 Hrun Hl2 Hnil. unfold find_continuous_vma.
  rewrite !IS_ALIGNED_page by (try done; lia). cbn [assert_ mbind res_bind].
  destruct (for_each_area u m _ (λ vm, v_start vm =? addr) Hv) as (k1 & k2 & E & H1 & H2 & ->). cbn [mbind res_bind].
  destruct run as [|x run].
  - assert (k2 = []) as ->; [|by rewrite Z.eqb_refl]. destruct k2 as [|y k2]; [done|]. exfalso.
    specialize (H2 y k2 eq_refl). apply Z.eqb_eq in H2. assert (y ∈ l1 ++ l2) as Hy by (simpl in E; rewrite E; set_solver).
    specialize (Hnil eq_refl). rewrite Forall_forall in Hl1, Hnil. apply elem_of_app in Hy as [Hy|Hy].
    + by apply (Hl1 y Hy).
    + by apply (Hnil y Hy).
  - apply run_at_cons in Hrun as [Hx Hrun].
    assert (k1 = l1 ∧ k2 = x :: run ++ l2) as [-> ->].
    { apply (first_split (λ x, v_start x.2 =? addr)); try done.
      - eapply Forall_impl; [done|]. intros y Hy. by apply Z.eqb_neq.
      - by apply Z.eqb_eq. }
    clear E H1 H2. cbn [nodes fmap list_fmap fst hd length] in *.
    pose proof (vl_list _ _ _ Hv) as Hd. rewrite (proj2 (Z.eqb_neq (x.1 + NODE) m)).
    2: { destruct Hd as [_ Hnd]. apply NoDup_cons in Hnd as [Hh _]. intros Hm. apply Hh. rewrite <- Hm.
         rewrite area_nodes_app, fmap_app. set_solver. }
    destruct (Z.eqb_spec len 0) as [->|Hlen]; [rewrite (proj2 (Z.leb_le _ _)) by (unfold PAGE_SIZE; lia); simpl; f_equal; lia|].
    assert (PAGE_SIZE ≤ len) by (unfold PAGE_SIZE in *; Z.to_euclidean_division_equations; lia).
    pose proof (cont_loop u m (x.1 + NODE) addr len l2 run l1 x PAGE_SIZE (S (Z.to_nat (len / PAGE_SIZE)))) as Hloop.
    unfold cont_result in Hloop. replace (PAGE_SIZE * Z.of_nat (S (length run))) with (PAGE_SIZE + PAGE_SIZE * Z.of_nat (length run)) by lia.
    replace (x.1 + NODE - NODE) with x.1 in Hloop by lia. apply Hloop; try done; try (unfold PAGE_SIZE in *; lia).
    + intros y l' Ey. specialize (Hl2 y l' Ey). unfold PAGE_SIZE in *. lia.
    + unfold PAGE_SIZE in *. Z.to_euclidean_division_equations. lia.
    + unfold PAGE_SIZE in *. Z.to_euclidean_division_equations. lia.
Qed.

(** Finding consecutive mapped pages ([__find_continuous_vma]), for a
    page-aligned range: NULL when no area starts at the address; otherwise, with
    the longest run of areas that start at the consecutive page addresses, the
    first area when the run is as long as the range, and NULL when a later area
    breaks the run too early.  When the run ends with the list instead, the code
    takes the sentry for an area. *)
Theorem find_continuous_correct u m l1 run l2 addr len :
  vlist u m (l1 ++ run ++ l2) → 0 ≤ addr → 0 ≤ len → addr mod PAGE_SIZE = 0 → len mod PAGE_SIZE = 0 →
  addr + len < 2 ^ 32 → addr + PAGE_SIZE * Z.of_nat (length run) < 2 ^ 32 →
  Forall (λ x, v_start x.2 ≠ addr) l1 → run_at addr run →
  (∀ x l', l2 = x :: l' → v_start x.2 ≠ addr + PAGE_SIZE * Z.of_nat (length run)) →
  (run = [] → Forall (λ x, v_start x.2 ≠ addr) l2) →
  find_continuous_vma m addr len u =
    match run with
    | [] => Ok NULL
    | x :: _ => if len <=? PAGE_SIZE * Z.of_nat (length run) then Ok x.1
                else match l2 with [] => Err BadPtr | _ => Ok NULL end
    end.
Proof. apply find_continuous_ok. Qed.

(** ** Transfers between kernel and user memory *)

(** The kernel address of the byte at the user address [va]. *)
Definition frame_of (m : mem) (pg va : Z) : Z := PTE_PADDR (pte_of m pg va).
Definition user_addr (m : mem) (pg va : Z) : Z := pa2kva (frame_of m pg va + va mod PAGE_SIZE).

Lemma frame_of_page m pg va va' : fits 32 va → fits 32 va' → va / PAGE_SIZE = va' / PAGE_SIZE →
  frame_of m pg va = frame_of m pg va' ∧ PDX va = PDX va'.
Proof.
  intros Hva Hva' E. unfold PAGE_SIZE in *. rewrite !page_of_indices in E by done.
  pose proof (PTX_bounds va). pose proof (PTX_bounds va').
  assert (PDX va = PDX va') as Ed by lia. assert (PTX va = PTX va') as Et by lia.
  unfold frame_of, pte_of. by rewrite Ed, Et.
Qed.

(** The writes of a transfer, as a relation between memories: [val j] at [dst j]
    for the first [k] bytes and nothing else. *)
Definition written (dst val : Z → Z) (k : Z) (m m' : mem) : Prop :=
  (∀ j, 0 ≤ j < k → m' (dst j) = val j) ∧ (∀ a, (∀ j, 0 ≤ j < k → a ≠ dst j) → m' a = m a).

(** A further chunk of [l] bytes at consecutive addresses. *)
Lemma written_chunk dst val k l m m1 m2 : 0 ≤ k → 0 ≤ l →
  (∀ i j, 0 ≤ i < k + l → 0 ≤ j < k + l → dst i = dst j → i = j) →
  (∀ i, 0 ≤ i < l → dst (k + i) = dst k + i) →
  written dst val k m m1 →
  (∀ a, m2 a = if (dst k <=? a) && (a <? dst k + l) then val (k + (a - dst k)) else m1 a) →
  written dst val (k + l) m m2.
Proof.
  intros Hk Hl Hinj Hlin [Hw1 Hw2] Hm2. split.
  - intros j Hj. rewrite Hm2. destruct (decide (j < k)) as [Hlt|Hge].
    + destruct (Z.leb_spec (dst k) (dst j)), (Z.ltb_spec (dst j) (dst k + l)); simpl; try (apply Hw1; lia).
      exfalso. assert (j = k + (dst j - dst k)); [|lia]. apply Hinj; [lia|lia|]. rewrite Hlin by lia. lia.
    + pose proof (Hlin (j - k)) as E. replace (k + (j - k)) with j in E by lia.
      rewrite E, (proj2 (Z.leb_le _ _)), (proj2 (Z.ltb_lt _ _)) by lia. simpl. f_equal. lia.
  - intros a Ha. rewrite Hm2. destruct (Z.leb_spec (dst k) a), (Z.ltb_spec a (dst k + l)); simpl;
      try (apply Hw2; intros j Hj; apply Ha; lia).
    exfalso. apply (Ha (k + (a - dst k))); [lia|]. rewrite Hlin by lia. lia.
Qed.

Lemma upd_bytes_id w : upd_bytes (λ _, bytes w) w = w.
Proof. by destruct w. Qed.
Lemma set_mw_id u : set_mw (upd_bytes (λ _, bytes (mw u)) (mw u)) u = u.
Proof. rewrite upd_bytes_id. by destruct u. Qed.

Section transfer.
Context {K : Kmem} (u : uvm) (pg ua va c len : Z) (fl tu : bool).

Let m := bytes (mw u).
Definition t_dst (j : Z) : Z := if fl || tu then user_addr m pg (ua + j) else va + j.
Definition t_src (j : Z) : Z := if tu then va + j else user_addr m pg (ua + j).
Definition t_val (j : Z) : Z := if fl then w8 c else m (t_src j).

(** What a transfer needs: every page of the range has a valid entry with a frame
    of low memory; the bytes written are distinct, hold neither what is still to be
    read nor the page table entries of the range. *)
Record transfer_ok : Prop := TransferOk {
  to_range : 0 ≤ ua ∧ 0 < len ∧ ua + len + PAGE_SIZE ≤ KERN_BASE;
  to_kernel : fl = false → KERN_BASE ≤ va ∧ va + len < 2 ^ 32;
  to_mapped j : 0 ≤ j < len → Z.land (pte_of m pg (ua + j)) PTE_VALID ≠ 0;
  to_frame j : 0 ≤ j < len → frame_of m pg (ua + j) + PAGE_SIZE < KERN_BASE;
  to_inj i j : 0 ≤ i < len → 0 ≤ j < len → t_dst i = t_dst j → i = j;
  to_apart i j : fl = false → 0 ≤ i < len → 0 ≤ j < len → t_src i ≠ t_dst j;
  to_pde i j x : 0 ≤ i < len → 0 ≤ j < len → 0 ≤ x < 4 → pg + 4 * PDX (ua + i) + x ≠ t_dst j;
  to_pte i j x : 0 ≤ i < len → 0 ≤ j < len → 0 ≤ x < 4 →
    ent m pg (PDX (ua + i)) + 4 * PTX (ua + i) + x ≠ t_dst j }.

(** The loaded page index also checks that a page that is written is writable. *)
Definition writable : Prop := fl || tu = true → ∀ j, 0 ≤ j < len → Z.land (pte_of m pg (ua + j)) PTE_DIRTY ≠ 0.

Context (Hok : transfer_ok).

Lemma to_dir j : 0 ≤ j < len → ent m pg (PDX (ua + j)) ≠ 0.
Proof. intros Hj E. pose proof (to_mapped Hok j Hj) as Hv. unfold pte_of in Hv. by rewrite E in Hv. Qed.

Lemma user_addr_eq j : 0 ≤ j < len →
  user_addr m pg (ua + j) = frame_of m pg (ua + j) + (ua + j) mod PAGE_SIZE + KERN_BASE ∧
  0 ≤ frame_of m pg (ua + j).
Proof.
  intros Hj. pose proof (to_frame Hok j Hj) as Hf.
  assert (0 ≤ frame_of m pg (ua + j)) by (unfold frame_of, PTE_PADDR; apply Z.land_nonneg; by right).
  split; [|done]. pose proof (Z.mod_pos_bound (ua + j) PAGE_SIZE ltac:(done)). unfold user_addr.
  apply pa2kva_eq. lia.
Qed.

(** Bytes of one page are at consecutive addresses. *)
Lemma user_addr_lin k i : 0 ≤ k → 0 ≤ i → k + i < len → (ua + k) / PAGE_SIZE = (ua + (k + i)) / PAGE_SIZE →
  user_addr m pg (ua + (k + i)) = user_addr m pg (ua + k) + i.
Proof.
  intros Hk Hi Hl E. pose proof (to_range Hok). unfold KERN_BASE in *.
  destruct (user_addr_eq k ltac:(lia)) as [-> _]. destruct (user_addr_eq (k + i) ltac:(lia)) as [-> _].
  destruct (frame_of_page m pg (ua + (k + i)) (ua + k)) as [-> _]; [unfold fits, PAGE_SIZE in *; lia..|done|].
  unfold PAGE_SIZE in *. Z.to_euclidean_division_equations. lia.
Qed.

(** Translation is not affected by what was written so far. *)
Lemma uva2kva_written j k m1 : 0 ≤ j < len → k ≤ len → written t_dst t_val k m m1 →
  uva2kva pg (ua + j) (upd_bytes (λ _, m1) (mw u)) = Ok (user_addr m pg (ua + j)).
Proof.
  intros Hj Hk [_ Hw]. pose proof (to_dir j Hj) as Hpde.
  assert (ent m1 pg (PDX (ua + j)) = ent m pg (PDX (ua + j))) as E1.
  { apply ld32_ext. intros x Hx. apply Hw. intros i Hi.
    replace x with (pg + 4 * PDX (ua + j) + (x - (pg + 4 * PDX (ua + j)))) by lia. apply (to_pde Hok); lia. }
  assert (ent m1 (ent m pg (PDX (ua + j))) (PTX (ua + j)) = pte_of m pg (ua + j)) as E2.
  { unfold pte_of. rewrite (proj2 (Z.eqb_neq _ 0) Hpde). apply ld32_ext. intros x Hx. apply Hw. intros i Hi.
    set (b := ent m pg (PDX (ua + j)) + 4 * PTX (ua + j)) in *.
    replace x with (b + (x - b)) by lia. apply (to_pte Hok); lia. }
  unfold uva2kva, getpagedesc. cbn [upd_bytes bytes]. rewrite E1, (proj2 (Z.eqb_neq _ 0) Hpde). cbn [negb].
  msimpl. cbn [ptev ptx upd_bytes bytes]. change (0 <? 0) with false. cbv iota. rewrite E2. unfold user_addr. f_equal. f_equal.
  unfold PAGE_OFFSET. change PAGE_MASK with (Z.ones 12). rewrite Z.land_ones by lia.
  apply lor_low; [apply PTE_PADDR_aligned|]. apply Z.mod_pos_bound. lia.
Qed.

(** One chunk. *)
Lemma transfer_chunk k l m1 : 0 ≤ k → 0 < l → k + l ≤ len → (ua + k) / PAGE_SIZE = (ua + (k + l) - 1) / PAGE_SIZE →
  written t_dst t_val k m m1 →
  wp (transfer fl tu (user_addr m pg (ua + k)) (va + k) c l (set_mw (upd_bytes (λ _, m1) (mw u)) u)) (λ u', ∃ m2,
    u' = set_mw (upd_bytes (λ _, m2) (mw u)) u ∧ written t_dst t_val (k + l) m m2).
Proof.
  intros Hk Hl Hkl Hpage Hw.
  destruct (user_addr_eq k ltac:(lia)) as [Hua Hf0]. pose proof (to_frame Hok k ltac:(lia)) as Hf1.
  assert (∀ i, 0 ≤ i < l → user_addr m pg (ua + (k + i)) = user_addr m pg (ua + k) + i) as Hlin.
  { intros i Hi. apply user_addr_lin; try lia. unfold PAGE_SIZE in *. Z.to_euclidean_division_equations. lia. }
  assert (0 ≤ user_addr m pg (ua + k) ∧ user_addr m pg (ua + k) + l < 2 ^ 32) as [Hu0 Hu1].
  { pose proof (to_range Hok). unfold KERN_BASE, PAGE_SIZE in *. Z.to_euclidean_division_equations. lia. }
  assert (∀ m2, (∀ a, m2 a = if (t_dst k <=? a) && (a <? t_dst k + l) then t_val (k + (a - t_dst k)) else m1 a) →
    written t_dst t_val (k + l) m m2) as Hchunk.
  { intros m2 Hm2. apply (written_chunk t_dst t_val k l m m1 m2); try done; try lia.
    - intros i j Hi Hj. apply (to_inj Hok); lia.
    - intros i Hi. unfold t_dst. destruct (fl || tu); [by apply Hlin|lia]. }
  assert (∀ i, fl = false → 0 ≤ i < l → m1 (t_src (k + i)) = t_val (k + i)) as Hsrc.
  { intros i Hfl Hi. unfold t_val. rewrite Hfl. destruct Hw as [_ Hw]. apply Hw. intros j Hj. apply (to_apart Hok); try done; lia. }
  unfold transfer. destruct fl eqn:Efl.
  - unfold memset_w. cbn [set_mw mw upd_bytes bytes]. apply wp_bind.
    eapply wp_mono; [apply memset_ok; lia|]. intros [r m2] [_ Hm2]. apply wp_ok. exists m2. split; [done|].
    apply Hchunk. intros a. unfold t_dst, t_val. rewrite Efl. simpl. rewrite Hm2. unfold fill. done.
  - destruct (to_kernel Hok Efl) as [Hva Hvb]. unfold KERN_BASE in Hva.
    assert (in_range (user_addr m pg (ua + k)) (va + k) l ∧ in_range (va + k) (user_addr m pg (ua + k)) l) as [Hr1 Hr2].
    { unfold in_range. lia. }
    assert (∀ d s, d = t_dst k → s = t_src k → (∀ i, 0 ≤ i < l → t_src (k + i) = t_src k + i) → in_range d s l →
      wp (memmove_w d s l (set_mw (upd_bytes (λ _, m1) (mw u)) u)) (λ u', ∃ m2,
        u' = set_mw (upd_bytes (λ _, m2) (mw u)) u ∧ written t_dst t_val (k + l) m m2)) as Hmove.
    { intros d s -> -> Hs Hr. unfold memmove_w. cbn [set_mw mw upd_bytes bytes]. apply wp_bind.
      eapply wp_mono; [apply memmove_ok; [done|lia]|]. intros [r m2] [_ Hm2]. apply wp_ok. exists m2. split; [done|].
      apply Hchunk. intros a. rewrite Hm2. unfold blit. zcases; cbn [andb]; try done.
      rewrite <- Hsrc by (try done; lia). by rewrite Hs by lia. }
    destruct tu eqn:Etu; cbn [negb].
    + apply Hmove; [unfold t_dst; by rewrite Etu, orb_true_r|unfold t_src; by rewrite Etu| |done].
      intros i Hi. unfold t_src. rewrite Etu. lia.
    + apply Hmove; [unfold t_dst; by rewrite Etu, Efl|unfold t_src; by rewrite Etu| |done].
      intros i Hi. unfold t_src. rewrite Etu. by apply Hlin.
Qed.

Lemma ALIGN_NEXT_page x : 0 ≤ x → x + 2 * PAGE_SIZE < 2 ^ 32 → ALIGN_NEXT 32 x PAGE_SIZE = PAGE_SIZE * (x / PAGE_SIZE + 1).
Proof.
  intros H0 H1. unfold ALIGN_NEXT. change PAGE_SIZE with (2 ^ 12) in *. rewrite (wrap_small 32) by (unfold fits; lia).
  rewrite (ALIGN_ABOVE_no_wrap 32 12) by (unfold fits; lia). f_equal.
  replace (x + 1 + 2 ^ 12 - 1) with (x + 1 * 2 ^ 12) by lia. by rewrite Z.div_add by lia.
Qed.

Definition copy_body (st : Z * Z * uvm) : res (Z * Z * uvm + Z * uvm) :=
  let '(start, vaddr, u) := st in
  if start <? ua + len then
    kuvaddr ← uva2kva pg start (mw u);
    let next := ALIGN_NEXT 32 start PAGE_SIZE in
    let l := w32 (Z.min next (ua + len) - start) in
    if kuvaddr =? NULL then Ok (inr (- EACCES, u))
    else
      u ← transfer fl tu kuvaddr vaddr c l u;
      Ok (inl (next, w32 (vaddr + l), u))
  else Ok (inr (0, u)).

(** The state of the loop after [k] bytes. *)
Definition copy_inv (st : Z * Z * uvm) : Prop :=
  let '(start, vaddr, u1) := st in
  ∃ k m1, 0 ≤ k ≤ len ∧ (start = ua + k ∧ k < len ∨ ua + len ≤ start ∧ k = len) ∧
    (fl = false → vaddr = va + k) ∧ u1 = set_mw (upd_bytes (λ _, m1) (mw u)) u ∧ written t_dst t_val k m m1.

Definition pages_left (start : Z) : nat :=
  if start <? ua + len then Z.to_nat ((ua + len - 1) / PAGE_SIZE - start / PAGE_SIZE + 1) else 0%nat.

Lemma copy_step start vaddr u1 : copy_inv (start, vaddr, u1) →
  wp (copy_body (start, vaddr, u1)) (λ r, match r with
    | inl st => copy_inv st ∧ (pages_left st.1.1 < pages_left start)%nat
    | inr (r, u') => r = 0 ∧ ∃ m2, u' = set_mw (upd_bytes (λ _, m2) (mw u)) u ∧ written t_dst t_val len m m2 end).
Proof.
  intros (k & m1 & Hk & Hst & Hva & -> & Hw). pose proof (to_range Hok) as (Hu0 & Hl0 & Hub).
  cbn [copy_body]. destruct Hst as [[-> Hlt]|[Hge ->]].
  2: { rewrite (proj2 (Z.ltb_ge _ _)) by done. apply wp_ok. split; [done|]. by exists m1. }
  rewrite (proj2 (Z.ltb_lt _ _)) by lia. cbn [set_mw mw]. rewrite (uva2kva_written k k) by (try done; lia).
  cbn [mbind res_bind]. destruct (user_addr_eq k ltac:(lia)) as [Hua Hf0].
  pose proof (Z.mod_pos_bound (ua + k) PAGE_SIZE ltac:(done)).
  rewrite (proj2 (Z.eqb_neq (user_addr m pg (ua + k)) NULL)) by (unfold NULL, KERN_BASE in *; lia).
  rewrite ALIGN_NEXT_page by (unfold KERN_BASE, PAGE_SIZE in *; lia).
  set (next := PAGE_SIZE * ((ua + k) / PAGE_SIZE + 1)) in *.
  assert (ua + k < next ∧ next ≤ ua + k + PAGE_SIZE) as [Hn0 Hn1]
    by (unfold next, PAGE_SIZE; Z.to_euclidean_division_equations; lia).
  rewrite (wrap_small 32 (Z.min next (ua + len) - (ua + k))) by (unfold fits, PAGE_SIZE in *; lia).
  set (l := Z.min next (ua + len) - (ua + k)) in *.
  apply wp_bind. eapply wp_mono.
  { assert (transfer fl tu (user_addr m pg (ua + k)) vaddr c l (set_mw (upd_bytes (λ _, m1) (mw u)) u) =
      transfer fl tu (user_addr m pg (ua + k)) (va + k) c l (set_mw (upd_bytes (λ _, m1) (mw u)) u)) as ->.
    { unfold transfer. destruct fl eqn:E; [done|]. by rewrite (Hva eq_refl). }
    apply transfer_chunk; try done; try (unfold l; lia).
    unfold l, next, PAGE_SIZE in *. Z.to_euclidean_division_equations. lia. }
  intros u' (m2 & -> & Hw2). apply wp_ok. split.
  - exists (k + l), m2. split_and!; [unfold l; lia|unfold l; lia| | |done|done].
    + unfold l in *. destruct (Z.min_spec next (ua + len)) as [[? ->]|[? ->]]; [left|right]; lia.
    + intros E. rewrite (Hva E). rewrite wrap_small; [lia|]. destruct (to_kernel Hok E). unfold fits, KERN_BASE, l in *. lia.
  - cbn [fst]. unfold pages_left. rewrite (proj2 (Z.ltb_lt (ua + k) _)) by lia.
    assert (next / PAGE_SIZE = (ua + k) / PAGE_SIZE + 1) as E by (unfold next; rewrite Z.mul_comm, Z.div_mul; done).
    assert ((ua + k) / PAGE_SIZE ≤ (ua + len - 1) / PAGE_SIZE) by (apply Z.div_le_mono; [done|lia]).
    destruct (Z.ltb_spec next (ua + len)); lia.
Qed.

Lemma copy_loop_ok fuel : (pages_left ua < fuel)%nat →
  wp (loop fuel copy_body (ua, va, u)) (λ '(r, u'), r = 0 ∧ ∃ m2,
    u' = set_mw (upd_bytes (λ _, m2) (mw u)) u ∧ written t_dst t_val len m m2).
Proof.
  intros Hf. pose proof (to_range Hok) as (Hu0 & Hl0 & Hub).
  apply (wp_loop _ copy_inv (λ st, pages_left st.1.1)).
  - intros [[start vaddr] u1] HI. eapply wp_mono; [by apply copy_step|]. by intros [st|[r u']].
  - exists 0, m. split_and!; [lia|lia|left; lia|intros; lia| |].
    + symmetry. apply set_mw_id.
    + split; [intros; lia|done].
  - done.
Qed.

Lemma pages_left_fuel : (pages_left ua < S (S (S (Z.to_nat (len / PAGE_SIZE)))))%nat.
Proof.
  pose proof (to_range Hok) as (Hu0 & Hl0 & Hub). unfold pages_left, PAGE_SIZE in *.
  rewrite (proj2 (Z.ltb_lt _ _)) by lia. Z.to_euclidean_division_equations. lia.
Qed.

(** ** The transfer through the loaded page index *)
Lemma store_all_ok k ws : ws = (λ j, (t_dst j, t_val j)) <$> seqZ k (len - k) → 0 ≤ k ≤ len →
  ∀ m1, written t_dst t_val k m m1 → written t_dst t_val len m (store_all ws m1).
Proof.
  revert k. induction ws as [|[d v] ws IH]; intros k E Hk m1 Hw.
  - assert (len - k = 0 ∨ 0 < len - k) as [El|El] by lia.
    + replace len with k by lia. done.
    + rewrite seqZ_cons in E by lia. done.
  - destruct (decide (0 < len - k)) as [Hlt|]; [|rewrite seqZ_nil in E by lia; done].
    rewrite seqZ_cons in E by lia. injection E as -> -> E. cbn [store_all].
    apply (IH (Z.succ k)); [rewrite E; do 2 f_equal; lia|lia|].
    apply (written_chunk t_dst t_val k 1 m m1); try done; try lia.
    + intros i j Hi Hj. apply (to_inj Hok); lia.
    + intros i Hi. replace i with 0 by lia. by rewrite !Z.add_0_r.
    + intros a. unfold store. zcases; cbn [andb]; try done; try lia. f_equal. lia.
Qed.

Lemma mmu_addr_user store j : 0 ≤ j < len → (store = true → Z.land (pte_of m pg (ua + j)) PTE_DIRTY ≠ 0) →
  mmu_addr store pg (w32 (ua + j)) (mw u) = Ok (user_addr m pg (ua + j)).
Proof.
  intros Hj Hd. pose proof (to_range Hok) as (Hu0 & Hl0 & Hub). unfold mmu_addr, walk_access.
  rewrite wrap_small by (unfold fits, KERN_BASE, PAGE_SIZE in *; lia). rewrite (proj2 (Z.ltb_lt _ _)) by (unfold PAGE_SIZE in *; lia).
  fold m. rewrite (proj2 (Z.eqb_neq _ 0) (to_mapped Hok j Hj)).
  assert (store && (Z.land (pte_of m pg (ua + j)) PTE_DIRTY =? 0) = false) as ->
    by (destruct store; [|done]; cbn [andb]; apply Z.eqb_neq; by apply Hd).
  unfold user_addr, frame_of, PAGE_OFFSET. change PAGE_MASK with (Z.ones 12). rewrite Z.land_ones by lia. f_equal. f_equal.
  apply lor_low; [apply PTE_PADDR_aligned|]. apply Z.mod_pos_bound. lia.
Qed.

Lemma virtual_transfer_ok : writable →
  wp (virtual_transfer fl tu pg ua va c len u) (λ u', ∃ m2,
    u' = set_mw (upd_bytes (λ _, m2) (mw u)) u ∧ written t_dst t_val len m m2).
Proof.
  intros Hrw. pose proof (to_range Hok) as (Hu0 & Hl0 & Hub). unfold virtual_transfer.
  assert (∀ st j, fl = false → 0 ≤ j < len → mmu_addr st pg (w32 (va + j)) (mw u) = Ok (va + j)) as Hv.
  { intros st j Hfl Hj. destruct (to_kernel Hok Hfl). unfold mmu_addr. rewrite wrap_small by (unfold fits, KERN_BASE in *; lia).
    by rewrite (proj2 (Z.ltb_ge _ _)) by lia. }
  match goal with |- context [mapM ?f ?l] => assert (mapM f l = Ok ((λ j, (t_dst j, t_val j)) <$> l)) as -> end.
  { assert (∀ j, j ∈ seqZ 0 len → 0 ≤ j < len) as Hin by (intros j Hj; apply elem_of_seqZ in Hj; lia).
    induction (seqZ 0 len) as [|j l IH]; [done|]. cbn [mapM fmap list_fmap].
    rewrite IH by (intros; apply Hin; by right). specialize (Hin j ltac:(left)). clear IH.
    unfold writable, t_dst, t_val, t_src in *. destruct fl eqn:Efl, tu eqn:Etu; cbn [orb] in *;
      rewrite ?mmu_addr_user, ?(Hv _ _ eq_refl) by (done || (intros; by apply Hrw)); cbn [mbind res_bind];
      rewrite ?mmu_addr_user, ?(Hv _ _ eq_refl) by (done || (intros; by apply Hrw)); done. }
  cbn [mbind res_bind]. apply wp_ok. exists (store_all ((λ j, (t_dst j, t_val j)) <$> seqZ 0 len) m). split; [done|].
  apply (store_all_ok 0); [by rewrite Z.sub_0_r|lia|]. split; [intros; lia|done].
Qed.
End transfer.

Lemma page_bounds ua len : 0 ≤ ua → 0 < len → ua + len + PAGE_SIZE ≤ KERN_BASE →
  ALIGN_BELOW 32 ua PAGE_SIZE = PAGE_SIZE * (ua / PAGE_SIZE) ∧
  w32 (ALIGN_ABOVE 32 (w32 (ua + len)) PAGE_SIZE - ALIGN_BELOW 32 ua PAGE_SIZE) =
    PAGE_SIZE * ((ua + len - 1) / PAGE_SIZE - ua / PAGE_SIZE + 1) ∧ w32 (ua + len) = ua + len.
Proof.
  intros H0 H1 H2. unfold KERN_BASE in *. change PAGE_SIZE with (2 ^ 12) in *.
  rewrite (ALIGN_BELOW_pow2 32 12) by (unfold fits; lia). rewrite (wrap_small 32 (ua + len)) by (unfold fits; lia).
  rewrite (ALIGN_ABOVE_no_wrap 32 12) by (unfold fits; lia). split_and!; [done| |done].
  replace (ua + len + 2 ^ 12 - 1) with (ua + len - 1 + 1 * 2 ^ 12) by lia. rewrite Z.div_add by lia.
  rewrite wrap_small; [lia|]. unfold fits. change (2 ^ 12) with 4096 in *. Z.to_euclidean_division_equations. lia.
Qed.

(** The areas that [__copy_fill_uvm] looks for: those of the pages of the range. *)
Definition range_vma `{K : Kmem} (m ua len : Z) (u : uvm) : res Z :=
  find_continuous_vma m (PAGE_SIZE * (ua / PAGE_SIZE)) (PAGE_SIZE * ((ua + len - 1) / PAGE_SIZE - ua / PAGE_SIZE + 1)) u.

Section copy_fill.
Context `{K : Kmem} (u : uvm) (m : Z) (mm : mm) (v ua va c len : Z) (fl tu : bool).
Context (Hmm : mms u !! m = Some mm) (Hr : 0 ≤ ua ∧ 0 < len ∧ ua + len + PAGE_SIZE ≤ KERN_BASE).

Lemma copy_fill_none : range_vma m ua len u = Ok NULL → copy_fill_uvm m ua va c len fl tu u = Ok (- EFAULT, u).
Proof.
  intros Hfind. destruct Hr as (H0 & H1 & H2). destruct (page_bounds ua len H0 H1 H2) as (E1 & E2 & E3).
  unfold copy_fill_uvm, range_vma in *. rewrite E2, E1, Hfind. done.
Qed.

Context (Hfind : range_vma m ua len u = Ok v) (Hv : v ≠ NULL).
Lemma copy_fill_loaded : current_mm u = Some m → get_pgindex (this_cpu u) (mmu u) = Ok (pgindex mm) →
  copy_fill_uvm m ua va c len fl tu u = u' ← virtual_transfer fl tu (pgindex mm) ua va c len u; Ok (0, u').
Proof.
  intros Hc Hcur. destruct Hr as (H0 & H1 & H2). destruct (page_bounds ua len H0 H1 H2) as (E1 & E2 & E3).
  unfold copy_fill_uvm, range_vma in *. rewrite E2, E1, Hfind. cbn [mbind res_bind]. rewrite (proj2 (Z.eqb_neq _ _) Hv).
  unfold get_mm. rewrite Hmm. cbn [mbind res_bind of_option]. rewrite bool_decide_true by done. rewrite Hcur. cbn [mbind res_bind].
  by rewrite Z.eqb_refl.
Qed.
Lemma copy_fill_paged : current_mm u ≠ Some m →
  copy_fill_uvm m ua va c len fl tu u = loop (S (S (S (Z.to_nat (len / PAGE_SIZE))))) (copy_body (pgindex mm) ua c len fl tu) (ua, va, u).
Proof.
  intros Hc. destruct Hr as (H0 & H1 & H2). destruct (page_bounds ua len H0 H1 H2) as (E1 & E2 & E3).
  unfold copy_fill_uvm, range_vma in *. rewrite E2, E1, Hfind, E3. cbn [mbind res_bind]. rewrite (proj2 (Z.eqb_neq _ _) Hv).
  unfold get_mm. rewrite Hmm. cbn [mbind res_bind of_option]. by rewrite bool_decide_false by done.
Qed.

(** The transfer, through the loaded page index or page by page. *)
Lemma copy_fill_ok : transfer_ok u (pgindex mm) ua va len fl tu →
  (current_mm u = Some m → get_pgindex (this_cpu u) (mmu u) = Ok (pgindex mm) ∧ writable u (pgindex mm) ua len fl tu) →
  wp (copy_fill_uvm m ua va c len fl tu u) (λ '(r, u'), r = 0 ∧ ∃ m2,
    u' = set_mw (upd_bytes (λ _, m2) (mw u)) u ∧
    written (t_dst u (pgindex mm) ua va fl tu) (t_val u (pgindex mm) ua va c fl tu) len (bytes (mw u)) m2).
Proof.
  intros Hok Hcur. destruct (decide (current_mm u = Some m)) as [Hc|Hc].
  - destruct (Hcur Hc) as [Hg Hw]. rewrite copy_fill_loaded by done. apply wp_bind.
    eapply wp_mono; [by apply (virtual_transfer_ok u (pgindex mm) ua va c len fl tu)|]. intros u' Hu'. by apply wp_ok.
  - rewrite copy_fill_paged by done. apply (copy_loop_ok u (pgindex mm) ua va c len fl tu Hok). by eapply pages_left_fuel.
Qed.

(** A byte of the range that the processor may not access. *)
Lemma virtual_transfer_trap j : 0 ≤ j < len →
  (∃ e, walk_access (bytes (mw u)) (pgindex mm) (fl || tu) (ua + j) = inr e) → virtual_transfer fl tu (pgindex mm) ua va c len u = Err Panicked.
Proof.
  intros Hj [e He]. unfold virtual_transfer.
  match goal with |- context [mapM ?f _] => set (g := f) end.
  assert (∀ st a, mmu_addr st (pgindex mm) a (mw u) = Err Panicked ∨ ∃ k, mmu_addr st (pgindex mm) a (mw u) = Ok k) as Ha.
  { intros st a. unfold mmu_addr. destruct (a <? KERN_BASE); [destruct (walk_access (bytes (mw u)) (pgindex mm) st a)|]; [right; by eexists|by left|right; by eexists]. }
  assert (∀ st, walk_access (bytes (mw u)) (pgindex mm) st (ua + j) = inr e → mmu_addr st (pgindex mm) (w32 (ua + j)) (mw u) = Err Panicked) as Hb.
  { intros st E. unfold mmu_addr. rewrite wrap_small by (unfold fits, KERN_BASE, PAGE_SIZE in *; lia).
    rewrite (proj2 (Z.ltb_lt _ _)) by (unfold PAGE_SIZE in *; lia). by rewrite E. }
  assert (∀ i, g i = Err Panicked ∨ ∃ x, g i = Ok x) as Hg.
  { intros i. unfold g. destruct (Ha true (w32 ((if fl || tu then ua else va) + i))) as [->|[d ->]]; [by left|]. cbn [mbind res_bind].
    destruct fl; [right; by eexists|]. destruct (Ha false (w32 ((if tu then va else ua) + i))) as [->|[k ->]]; [by left|right; by eexists]. }
  assert (g j = Err Panicked) as Hgj.
  { unfold g. destruct fl; cbn [orb] in *; [by rewrite Hb|]. destruct tu; [by rewrite Hb|].
    destruct (Ha true (w32 (va + j))) as [->|[d ->]]; [done|]. cbn [mbind res_bind]. by rewrite Hb. }
  assert (j ∈ seqZ 0 len) as Hin by (apply elem_of_seqZ; lia).
  assert (mapM g (seqZ 0 len) = Err Panicked) as ->; [|done].
  induction (seqZ 0 len) as [|i l IH]; [by apply elem_of_nil in Hin|]. cbn [mapM]. destruct (Hg i) as [->|[x Hx]]; [done|].
  rewrite Hx. cbn [mbind res_bind]. apply elem_of_cons in Hin as [->|Hin]; [congruence|]. by rewrite IH.
Qed.
End copy_fill.

(** C6. Copying to and from user memory and filling it ([__copy_fill_uvm], the
    body of [copy_to_uvm], [copy_from_uvm] and [fill_uvm]).  When the areas of the
    pages exist and every page of the range is valid, the call returns 0, byte [j]
    of the range receives (or delivers) byte [j] of the kernel buffer or the fill
    byte, at the address the page tables translate it to, however the range is
    split into pages, and nothing else changes; this needs buffer and frames that
    do not overlap, frames that do not hold the page tables of the range, and, when
    the address space is the loaded one, pages that are writable if they are
    written.  If the areas are missing, it returns [-EFAULT]; if the address space
    is the loaded one and the processor may not access some byte (not valid, or a
    store to a page that is not writable), the exception panics; if it is not
    loaded and the first page has no page table, it returns [-EACCES]. *)
Theorem copy_fill_correct `{K : Kmem} u m mm v ua va c len fl tu :
  mms u !! m = Some mm → 0 ≤ ua ∧ 0 < len ∧ ua + len + PAGE_SIZE ≤ KERN_BASE → range_vma m ua len u = Ok v →
  (v = NULL → copy_fill_uvm m ua va c len fl tu u = Ok (- EFAULT, u)) ∧
  (v ≠ NULL → current_mm u = Some m → get_pgindex (this_cpu u) (mmu u) = Ok (pgindex mm) →
    (∃ j e, 0 ≤ j < len ∧ walk_access (bytes (mw u)) (pgindex mm) (fl || tu) (ua + j) = inr e) → copy_fill_uvm m ua va c len fl tu u = Err Panicked) ∧
  (v ≠ NULL → current_mm u ≠ Some m → ent (bytes (mw u)) (pgindex mm) (PDX ua) = 0 → copy_fill_uvm m ua va c len fl tu u = Ok (- EACCES, u)) ∧
  (v ≠ NULL → transfer_ok u (pgindex mm) ua va len fl tu →
    (current_mm u = Some m → get_pgindex (this_cpu u) (mmu u) = Ok (pgindex mm) ∧ writable u (pgindex mm) ua len fl tu) →
    wp (copy_fill_uvm m ua va c len fl tu u) (λ '(r, u'), r = 0 ∧ ∃ m2,
      u' = set_mw (upd_bytes (λ _, m2) (mw u)) u ∧
      written (t_dst u (pgindex mm) ua va fl tu) (t_val u (pgindex mm) ua va c fl tu) len (bytes (mw u)) m2)).
Proof.
  intros Hmm Hr Hfind. split_and!.
  - intros ->. by apply copy_fill_none.
  - intros Hv Hc Hcur (j & e & Hj & He). rewrite (copy_fill_loaded u m mm v) by done. by rewrite (virtual_transfer_trap u mm ua va c len fl tu Hr j Hj (ex_intro _ e He)).
  - intros Hv Hc He. rewrite (copy_fill_paged u m mm v) by done. rewrite loop_S. unfold copy_body at 2. rewrite (proj2 (Z.ltb_lt _ _)) by lia.
    unfold uva2kva, getpagedesc. rewrite He. done.
  - intros Hv Hok Hcur. by apply (copy_fill_ok u m mm v).
Qed.

(** ** Witnesses: an address space at 0x80103000 with three pages at 0x400000 *)
Definition demo_vma (k : Z) : Z * vma :=
  (0x80104000 + 0x40 * k, Vma (0x400000 + PAGE_SIZE * k) PAGE_SIZE VMA_WRITE 0x80103000 (0x80105000 + 0x40 * k)).
Definition demo_areas : list (Z * vma) := [demo_vma 0; demo_vma 1; demo_vma 2].
Definition demo_u : uvm :=
  UvmState {[0x80103000 := Mm 0 0x80101000]} (list_to_map demo_areas) ∅
    (list_to_map [(0x80103000, Link 0x80104014 0x80104094); (0x80104014, Link 0x80104054 0x80103000);
                  (0x80104054, Link 0x80104094 0x80104014); (0x80104094, Link 0x80103000 0x80104054)])
    0x80103100 None (CpuMmu [0x80101000] [demo_cp0]) 0 mapped_w.

Lemma demo_vlist : vlist demo_u 0x80103000 demo_areas.
Proof.
  split.
  - split; [by vm_compute|]. apply (bool_decide_unpack _). by vm_compute.
  - by repeat constructor.
  - done.
Qed.

Lemma demo_areas_ok : areas_ok demo_areas.
Proof.
  split; [by repeat constructor|].
  repeat (apply SSorted_cons || apply SSorted_nil || apply Forall_cons || apply Forall_nil || split); by vm_compute.
Qed.

Lemma find_vma_before_correct_witness :
  wp (find_vma_before 0x80103000 0x402000 0x2000 demo_u) (λ r, r = NULL).
Proof.
  pose proof (find_vma_before_correct demo_u 0x80103000 demo_areas 0x402000 0x2000 demo_vlist demo_areas_ok
    ltac:(lia) ltac:(lia) ltac:(lia)) as H.
  eapply wp_mono; [apply H; by intros x l' [= <- _]|]. intros r [[Hr _]|(l1 & l2 & E & _ & Hs)]; [exact Hr|].
  exfalso. destruct (Hs 0 (Vma 0x402000 0x2000 0 0 0) eq_refl eq_refl) as [_ Hs'].
  assert (demo_vma 2 ∈ l1 ++ l2) as [Hin|Hin]%elem_of_app by (rewrite <- E; set_solver).
  - pose proof (StronglySorted_app_1_elem_of _ _ _ _ _ Hs' Hin ltac:(left)) as Hx. clear -Hx. vm_compute in Hx. by apply Hx.
  - apply StronglySorted_app_1_r in Hs'. apply StronglySorted_inv in Hs' as [_ Hs'].
    rewrite Forall_forall in Hs'. apply Hs' in Hin. clear -Hin. vm_compute in Hin. by apply Hin.
Defined.

Lemma find_continuous_correct_witness :
  find_continuous_vma 0x80103000 0x401000 0x2000 demo_u = Ok 0x80104040.
Proof.
  apply (find_continuous_correct demo_u 0x80103000 [demo_vma 0] [demo_vma 1; demo_vma 2] [] 0x401000 0x2000
    demo_vlist); try done.
  - repeat constructor; done.
  - intros [|[|k]] x [= <-]; done.
Defined.

(** The same address space as that of the running process, or not. *)
Definition demo_run (cur : option Z) : uvm :=
  UvmState (mms demo_u) (vmas demo_u) (upgs demo_u) (ul demo_u) (kernel_mm demo_u) cur (mmu demo_u) (this_cpu demo_u) (mw demo_u).

Lemma demo_transfer_ok cur : transfer_ok (demo_run cur) 0x80101000 0x400ffe NULL 4 true true.
Proof.
  assert (∀ j, 0 ≤ j < 4 → j = 0 ∨ j = 1 ∨ j = 2 ∨ j = 3) as Hj by lia.
  split; [by vm_compute|done| | | |done| |].
  - intros j [->|[->|[->| ->]]]%Hj; by vm_compute.
  - intros j [->|[->|[->| ->]]]%Hj; by vm_compute.
  - intros i j [->|[->|[->| ->]]]%Hj [->|[->|[->| ->]]]%Hj; vm_compute; congruence.
  - intros i j x [->|[->|[->| ->]]]%Hj [->|[->|[->| ->]]]%Hj [->|[->|[->| ->]]]%Hj; vm_compute; congruence.
  - intros i j x [->|[->|[->| ->]]]%Hj [->|[->|[->| ->]]]%Hj [->|[->|[->| ->]]]%Hj; vm_compute; congruence.
Qed.

Lemma copy_fill_correct_witness :
  wp (fill_uvm (K := kmem demo_junk 1) 0x80103000 0x400ffe 0x41 4 (demo_run None)) (λ '(r, u'), r = 0 ∧ bytes (mw u') 0x80301001 = 0x41) ∧
  wp (fill_uvm (K := kmem demo_junk 1) 0x80103000 0x400ffe 0x41 4 (demo_run (Some 0x80103000))) (λ '(r, u'), r = 0 ∧ bytes (mw u') 0x80301001 = 0x41).
Proof.
  split.
  - eapply wp_mono.
    + unfold fill_uvm.
      refine (proj2 (proj2 (proj2 (copy_fill_correct (K := kmem demo_junk 1) (demo_run None) 0x80103000 (Mm 0 0x80101000) 0x80104000 0x400ffe NULL 0x41 4 true true eq_refl _ _))) _ _ _);
        [unfold PAGE_SIZE, KERN_BASE; lia|by vm_compute|discriminate|exact (demo_transfer_ok _)|discriminate].
    + intros [r u'] [Hr (m2 & -> & Hw & _)]. split; [exact Hr|]. apply (Hw 3). lia.
  - eapply wp_mono.
    + unfold fill_uvm.
      refine (proj2 (proj2 (proj2 (copy_fill_correct (K := kmem demo_junk 1) (demo_run (Some 0x80103000)) 0x80103000 (Mm 0 0x80101000) 0x80104000 0x400ffe NULL 0x41 4 true true eq_refl _ _))) _ _ _);
        [unfold PAGE_SIZE, KERN_BASE; lia|by vm_compute|discriminate|exact (demo_transfer_ok _)|].
      intros _. split; [done|]. intros _ j Hj. assert (j = 0 ∨ j = 1 ∨ j = 2 ∨ j = 3) as [->|[->|[->| ->]]] by lia; by vm_compute.
    + intros [r u'] [Hr (m2 & -> & Hw & _)]. split; [exact Hr|]. apply (Hw 3). lia.
Defined.
