(* ===== verification/Areas.v ===== *)
(** * Creating user memory

    The composition behind [create_uvm] of kern/mm/uvm.c: object allocation, page
    allocation, page tables and the list of areas.  The object allocator enters
    through the interface [ObjLaws]; the bootstrap heap is an instance. *)
From stdpp Require Import sorting.
From S2P Require Import Prelude Util DList MmState Libc Palloc Pmm Simple Vmm Init Cp0 Pgtable Sync Uvm.

(** ** The interface *)

(** An object is an address and a size. *)
Definition inside (a : Z) (o : Z * Z) : Prop := o.1 ≤ a < o.1 + o.2.

(** [H O r w]: the objects in [O] are in use, and [r] more can be allocated. *)
Class ObjLaws (K : Kmem) (H : list (Z * Z) → nat → world → Prop) := {
  (** Taking pages, and giving them back, which asks for a block structure. *)
  ol_room O :: KmemRoom K (H O);
  ol_alloc O r sz w : sz ∈ [SIZEOF_MM; SIZEOF_VMA; SIZEOF_UPAGES] → H O (S r) w →
    wp (kmalloc (K := K) sz 0 w) (λ '(p, w'), KERN_BASE ≤ p ∧ (∀ a o, o ∈ O → inside a (p, sz) → ¬ inside a o) ∧
      same_but_heap w w' ∧ H ((p, sz) :: O) r w');
  ol_free O1 p sz O2 r w : H (O1 ++ (p, sz) :: O2) r w →
    wp (kfree (K := K) p w) (λ w', same_but_heap w w' ∧ H (O1 ++ O2) r w') }.

(** Everything that the structures of the address spaces occupy: the addresses of
    the structures and of the list nodes inside them. *)
Definition occupied (u : uvm) (a : Z) : Prop :=
  a ∈ dom (ul u) ∨ a ∈ dom (vmas u) ∨ a ∈ dom (upgs u).
Definition node_of (o : Z * Z) (a : Z) : Prop :=
  o.2 = SIZEOF_MM ∧ a = o.1 ∨
  o.2 = SIZEOF_VMA ∧ (a = o.1 + NODE ∨ a = o.1 + SHARE_NODE) ∨
  o.2 = SIZEOF_UPAGES ∧ a = o.1 + UPAGES_HEAD.
Record owned (O : list (Z * Z)) (u : uvm) : Prop := Owned {
  ow_nodes a : a ∈ dom (ul u) → ∃ o, o ∈ O ∧ node_of o a;
  ow_vmas v : v ∈ dom (vmas u) → (v, SIZEOF_VMA) ∈ O;
  ow_upgs p : p ∈ dom (upgs u) → (p, SIZEOF_UPAGES) ∈ O }.

Lemma owned_inside O u a : owned O u → occupied u a → ∃ o, o ∈ O ∧ inside a o.
Proof.
  unfold inside, SIZEOF_MM, SIZEOF_VMA, SIZEOF_UPAGES, NODE, SHARE_NODE, UPAGES_HEAD. intros [H1 H2 H3] [Ha|[Ha|Ha]].
  - destruct (H1 a Ha) as (o & Ho & Hn). exists o. split; [done|].
    unfold node_of, SIZEOF_MM, SIZEOF_VMA, SIZEOF_UPAGES, NODE, SHARE_NODE, UPAGES_HEAD in Hn. lia.
  - eexists. split; [by apply H2|]. cbn. unfold SIZEOF_VMA. lia.
  - eexists. split; [by apply H3|]. cbn. unfold SIZEOF_UPAGES. lia.
Qed.

Lemma pm_inv_same w w' bs : same_but_heap w w' → pm_inv w bs → pm_inv w' bs.
Proof. intros (E1 & E2 & _) (H1 & H2 & H3). unfold pm_inv, pa_inv in *. rewrite E1, E2. done. Qed.

Section create.
Context {K : Kmem} {H : list (Z * Z) → nat → world → Prop} {HO : ObjLaws K H}.
Implicit Types (u : uvm) (O : list (Z * Z)) (bs : blocks).

(** A new object for a structure of the address space. *)
Lemma new_object_ok O r sz u pg bs : sz ∈ [SIZEOF_MM; SIZEOF_VMA; SIZEOF_UPAGES] →
  pt_inv (J := H O (S r)) (mw u) pg bs → owned O u →
  wp (on_mw (kmalloc sz 0) u) (λ '(p, u'), 0 < p ∧ (∀ a, inside a (p, sz) → ¬ occupied u a) ∧
    ∃ w', u' = set_mw w' u ∧ bytes w' = bytes (mw u) ∧ pt_inv (J := H ((p, sz) :: O) r) w' pg bs).
Proof.
  intros Hsz (HJ & Hpm & Ht) Hown. unfold on_mw. apply wp_bind. eapply wp_mono; [by apply (ol_alloc O r)|].
  intros [p w'] (Hp & Hfresh & Hsame & HJ'). apply wp_ok. split_and!; [unfold KERN_BASE in *; lia| |].
  - intros a Ha Hocc. destruct (owned_inside _ _ _ Hown Hocc) as (o & Ho & Hin). by apply (Hfresh a o).
  - exists w'. split_and!; [done|apply Hsame|]. split_and!; [done|by eapply pm_inv_same|].
    destruct Hsame as (_ & _ & ->). done.
Qed.

(** The new vma and the new upages, with their list nodes. *)
Definition with_vma (v : Z) (vm : vma) (w : world) u : uvm :=
  list_init_new (v + SHARE_NODE) (list_init_new (v + NODE) (set_vmas <[v := vm]> (set_mw w u))).
Definition with_upages (p : Z) (up : upages) (w : world) u : uvm :=
  list_init_new (p + UPAGES_HEAD) (set_upgs <[p := up]> (set_mw w u)).

Lemma owned_vma O u v vm w : owned O u → owned ((v, SIZEOF_VMA) :: O) (with_vma v vm w u).
Proof.
  intros [H1 H2 H3]. split; cbn; rewrite ?dom_insert_L.
  - intros a [->%elem_of_singleton|[->%elem_of_singleton|Ha]%elem_of_union]%elem_of_union.
    + eexists. split; [left|]. right. left. split; [done|by right].
    + eexists. split; [left|]. right. left. split; [done|by left].
    + destruct (H1 a Ha) as (o & Ho & Hn). exists o. split; [by right|done].
  - intros a [->%elem_of_singleton|Ha]%elem_of_union; [left|right; by apply H2].
  - intros a Ha. right. by apply H3.
Qed.
Lemma owned_upages O u p up w : owned O u → owned ((p, SIZEOF_UPAGES) :: O) (with_upages p up w u).
Proof.
  intros [H1 H2 H3]. split; cbn; rewrite ?dom_insert_L.
  - intros a [->%elem_of_singleton|Ha]%elem_of_union.
    + eexists. split; [left|]. by do 2 right.
    + destruct (H1 a Ha) as (o & Ho & Hn). exists o. split; [by right|done].
  - intros a Ha. right. by apply H2.
  - intros a [->%elem_of_singleton|Ha]%elem_of_union; [left|right; by apply H3].
Qed.
(** Ownership depends on what is there only. *)
Lemma owned_dom O u u' : owned O u → dom (ul u') ⊆ dom (ul u) → dom (vmas u') ⊆ dom (vmas u) → dom (upgs u') ⊆ dom (upgs u) → owned O u'.
Proof. intros [H1 H2 H3] S1 S2 S3. split; auto. Qed.

Lemma vma_new_ok O r m addr sz fl u pg bs : pt_inv (J := H O (S r)) (mw u) pg bs → owned O u →
  wp (vma_new m addr sz fl u) (λ '(v, u'), 0 < v ∧ (∀ a, inside a (v, SIZEOF_VMA) → ¬ occupied u a) ∧
    ∃ w', u' = with_vma v (Vma addr sz fl m NULL) w' u ∧ bytes w' = bytes (mw u) ∧
      pt_inv (J := H ((v, SIZEOF_VMA) :: O) r) w' pg bs).
Proof.
  intros Hi Ho. unfold vma_new. apply wp_bind. eapply wp_mono; [apply (new_object_ok O r); [set_solver|done|done]|].
  intros [v u1] (Hv & Hf & w' & -> & Hb & Hi'). unfold NULL. rewrite (proj2 (Z.eqb_neq v 0)) by lia. apply wp_ok.
  split_and!; [done|done|]. by exists w'.
Qed.
Lemma upages_new_ok O r sz fl u pg bs : pt_inv (J := H O (S r)) (mw u) pg bs → owned O u →
  wp (upages_new sz fl u) (λ '(p, u'), 0 < p ∧ (∀ a, inside a (p, SIZEOF_UPAGES) → ¬ occupied u a) ∧
    ∃ w', u' = with_upages p (UPages (Pages 0 sz fl) 0) w' u ∧ bytes w' = bytes (mw u) ∧
      pt_inv (J := H ((p, SIZEOF_UPAGES) :: O) r) w' pg bs).
Proof.
  intros Hi Ho. unfold upages_new. apply wp_bind. eapply wp_mono; [apply (new_object_ok O r); [set_solver|done|done]|].
  intros [v u1] (Hv & Hf & w' & -> & Hb & Hi'). unfold NULL. rewrite (proj2 (Z.eqb_neq v 0)) by lia. apply wp_ok.
  split_and!; [done|done|]. by exists w'.
Qed.

Lemma tables_taken m pg q sz bs bs' : tables m pg bs → taken q sz bs bs' → tables m pg bs'.
Proof.
  intros [H1 H2 H3] Htk. assert (∀ p, is_page p bs → is_page p bs') as Hp.
  { intros p (P1 & P2 & P3 & P4). split_and!; try done. intros x Hx Ha. apply (P4 x Hx), Htk. by left. }
  split; [by apply Hp| |done]. intros i Hi Hne. destruct (H2 i Hi Hne). split; [by apply Hp|done].
Qed.

(** The frame of a page. *)
Definition frame (q : Z) (x : Z) : Prop := q ≤ x < q + PAGE_SIZE.

Lemma alloc_upages_ok O r p a0 c u pg bs : upgs u !! p = Some (UPages (Pages a0 PAGE_SIZE 0) c) →
  pt_inv (J := H O r) (mw u) pg bs → 0 < total bs →
  wp (alloc_upages p u) (λ '(rc, u'), rc = 0 ∧ ∃ q bs' w',
    u' = set_upgs <[p := UPages (Pages q PAGE_SIZE 0) c]> (set_mw w' u) ∧ bytes w' = bytes (mw u) ∧
    pt_inv (J := H O r) w' pg bs' ∧ total bs' = total bs - PAGE_SIZE ∧ taken q PAGE_SIZE bs bs' ∧
    0 ≤ q ∧ q mod PAGE_SIZE = 0 ∧ q + PAGE_SIZE ≤ KERN_BASE).
Proof.
  intros Hp (HJ & Hpm & Ht) Htot. unfold alloc_upages, get_upages. rewrite Hp. cbn [of_option mbind res_bind]. unfold on_mw.
  pose proof Hpm as (_ & (l & _ & _ & Hwf & _) & _). destruct (first_fit_page _ _ Hwf Htot) as (q & bs' & Eff).
  pose proof (alloc_pages_ok (K := K) (J := H O r) (Pages a0 PAGE_SIZE 0) (mw u) bs HJ Hpm ltac:(done) ltac:(done)) as Ha.
  cbn [psize pflags] in Ha. rewrite Eff in Ha.
  destruct (wp_inv _ _ Ha) as ([[rc b] w1] & E & -> & -> & HJ1 & Hi1 & Hby). cbn [u_pages]. rewrite E.
  cbn [mbind res_bind of_option wp refs]. split; [done|].
  destruct (first_fit_pm PAGE_SIZE bs q bs' (mw u) w1 Hpm ltac:(done) ltac:(done) Eff ltac:(apply Hi1) ltac:(apply Hi1))
    as (_ & Hq0 & Hqm & Hqb & Hav & Hdj).
  destruct (first_fit_wf PAGE_SIZE (-1) bs q bs' Hwf ltac:(done) ltac:(done) Eff) as (_ & Htt & _).
  assert (taken q PAGE_SIZE bs bs') as Htk by done. change (bytes w1 = bytes (mw u)) in Hby.
  exists q, bs', w1. split_and!; try done. split_and!; [done|done|]. rewrite Hby. by eapply tables_taken.
Qed.

Lemma map_page_ok O r w pg bs va q fl : pt_inv (J := H O r) w pg bs → va mod PAGE_SIZE = 0 → 0 ≤ va → va + PAGE_SIZE < 2 ^ 32 →
  q mod PAGE_SIZE = 0 → 0 ≤ q → q + PAGE_SIZE ≤ KERN_BASE → PAGE_SIZE ≤ total bs →
  (∀ x, page_in va 1 x → pte_of (bytes w) pg x = 0) →
  wp (map_pages (K := K) pg va q PAGE_SIZE fl w) (λ '(rc, w'), rc = 0 ∧
    (∃ bs', pt_inv (J := H O r) w' pg bs' ∧ total bs - PAGE_SIZE ≤ total bs' ∧ tables_from (bytes w) (bytes w') pg bs bs') ∧
    (grown (bytes w) (bytes w') pg ∧ (lean (bytes w) pg → lean (bytes w') pg)) ∧
    (∀ x, fits 32 x → pte_of (bytes w') pg x = if bool_decide (page_in va 1 x) then Z.lor q (pgtable_perm fl) else pte_of (bytes w) pg x)).
Proof.
  intros. eapply wp_mono.
  - change PAGE_SIZE with (PAGE_SIZE * 1) at 1. eapply (map_pages_ok (K := K) (J := H O r)); (done || by rewrite Z.mul_1_r).
  - intros [rc w'] (-> & Hbs & [Hgr Hlean] & Hout & Hin). rewrite Z.mul_1_r in Hbs. split_and!; [done|done|done|done|].
    intros x Hx. case_bool_decide as Hp; [|by apply Hout]. destruct (Hin x Hp) as [-> _]. f_equal.
    unfold page_in, PAGE_SIZE in *. replace ((x - va) / 4096) with 0; [lia|]. Z.div_mod_to_equations; lia.
Qed.

(** Linking the new area behind the areas [l1], and its pages to it. *)
Lemma link_ok L m l1 l2 v vm p :
  dlist L m (nodes (l1 ++ l2)).*1 → dlist L (p + UPAGES_HEAD) [] → v + NODE ∈ dom L → v + SHARE_NODE ∈ dom L →
  v + NODE ∉ m :: (nodes (l1 ++ l2)).*1 → v + SHARE_NODE ∉ m :: (nodes (l1 ++ l2)).*1 → p + UPAGES_HEAD ∉ m :: (nodes (l1 ++ l2)).*1 →
  v + NODE ≠ p + UPAGES_HEAD → v + SHARE_NODE ≠ p + UPAGES_HEAD →
  wp (L ← list_add_after (v + NODE) (default (m - NODE) (last l1.*1) + NODE) L; list_add_after (v + SHARE_NODE) (p + UPAGES_HEAD) L)
    (λ L', dom L' = dom L ∧ dlist L' m (nodes (l1 ++ (v, vm) :: l2)).*1 ∧ dlist L' (p + UPAGES_HEAD) [v + SHARE_NODE] ∧
      ∀ y, y ∉ m :: (nodes (l1 ++ l2)).*1 → y ∉ [v + NODE; v + SHARE_NODE; p + UPAGES_HEAD] → L' !! y = L !! y).
Proof.
  intros Hd Hp Hv1 Hv2 N1 N2 N3 N4 N5. rewrite area_nodes_app, fmap_app in *.
  replace (default (m - NODE) (last l1.*1) + NODE) with (default m (last (nodes l1).*1))
    by (pose proof (area_nodes_last l1 m) as E; lia).
  unfold list_add_after, list_add. rewrite (dlist_after _ _ _ _ Hd). cbn [mbind res_bind].
  destruct (dlist_insert_ok L m _ _ (v + NODE) Hd Hv1 N1) as (L1 & -> & Hdom1 & Hd1 & Hq1). cbn [mbind res_bind].
  assert (dlist L1 (p + UPAGES_HEAD) []) as Hp1.
  { eapply dlist_frame; [|exact Hp]. intros q Hq. apply list_elem_of_singleton in Hq as ->. apply Hq1.
    apply not_elem_of_cons in N3 as [? ?]. rewrite !not_elem_of_cons. auto. }
  rewrite (dlist_next _ _ _ Hp1). cbn [mbind res_bind hd].
  destruct (dlist_insert_ok L1 (p + UPAGES_HEAD) [] [] (v + SHARE_NODE) Hp1) as (L2 & E2 & Hdom2 & Hd2 & Hq2); [by rewrite Hdom1|by intros ?%list_elem_of_singleton|].
  cbn [last hd default app] in E2. rewrite E2. cbn [wp]. split_and!; [congruence| |exact Hd2|].
  2:{ intros y Hy Hy'. rewrite !not_elem_of_cons in Hy'. destruct Hy' as (Y1 & Y2 & Y3 & _).
      rewrite Hq2 by (rewrite !not_elem_of_cons; split_and!; [done|done|apply not_elem_of_nil]). apply Hq1.
      rewrite area_nodes_app, fmap_app in Hy. apply not_elem_of_cons in Hy as [Y4 Y5]. rewrite !not_elem_of_cons. by split_and!. }
  eapply dlist_frame; [|exact Hd1]. intros q Hq. apply Hq2.
  assert (v + NODE ≠ v + SHARE_NODE) as N6 by (unfold NODE, SHARE_NODE; lia).
  assert (∀ y, y ∉ m :: (nodes l1).*1 ++ (nodes l2).*1 → v + NODE ≠ y → q ≠ y) as Hne.
  { intros y Hy Hyv ->. apply Hy. apply elem_of_cons in Hq as [->|[Hq|[Hq|Hq]%elem_of_cons]%elem_of_app]; [left| |by destruct (Hyv (eq_sym Hq))|];
      right; apply elem_of_app; [by left|by right]. }
  rewrite !not_elem_of_cons. split_and!; [by apply Hne|by apply Hne|apply not_elem_of_nil].
Qed.

(** ** The invariant of an address space *)

(** The pages [p] hold the frame [q], which is mapped at [addr]. *)
Record backed u (pg addr fl p q : Z) : Prop := Backed {
  bk_pages : upgs u !! p = Some (UPages (Pages q PAGE_SIZE 0) 1);
  bk_pte va : page_in addr 1 va → pte_of (bytes (mw u)) pg va = Z.lor q (pgtable_perm fl);
  bk_frame : 0 ≤ q ∧ q mod PAGE_SIZE = 0 ∧ q + PAGE_SIZE ≤ KERN_BASE }.

(** An area of one page: its frame is neither free nor a table, and its pages are
    shared with no other area. *)
Record held O u (pg : Z) bs (x : Z * vma) (q : Z) : Prop := Held {
  hd_page : v_size x.2 = PAGE_SIZE ∧ v_start x.2 mod PAGE_SIZE = 0;
  hd_back : backed u pg (v_start x.2) (v_flags x.2) (v_pages x.2) q;
  hd_busy y : frame q y → ¬ avail bs y;
  hd_index : pg ≠ q + KERN_BASE;
  hd_table i : 0 ≤ i < 1024 → ent (bytes (mw u)) pg i ≠ q + KERN_BASE;
  hd_share : dlist (ul u) (v_pages x.2 + UPAGES_HEAD) [x.1 + SHARE_NODE];
  hd_vma : (x.1, SIZEOF_VMA) ∈ O;
  hd_upages : (v_pages x.2, SIZEOF_UPAGES) ∈ O }.

(** The list nodes of an area. *)
Definition parts (x : Z * vma) : list Z := [x.1 + NODE; x.1 + SHARE_NODE; v_pages x.2 + UPAGES_HEAD].

(** [m] is an address space with the page index [pg] and the areas [l]; every
    page that is mapped belongs to an area, the areas have frames of their own,
    and no table is empty. *)
Record mm_inv O (r : nat) u (m pg : Z) (l : list (Z * vma)) bs : Prop := MmInv {
  mi_mm : ∃ c, mms u !! m = Some (Mm c pg);
  mi_pt : pt_inv (J := H O r) (mw u) pg bs;
  mi_owned : owned O u;
  mi_list : vlist u m l;
  mi_areas : areas_ok l;
  mi_lean : lean (bytes (mw u)) pg;
  mi_cover va : fits 32 va → pte_of (bytes (mw u)) pg va ≠ 0 → ∃ x, x ∈ l ∧ v_start x.2 ≤ va < v_end x.2;
  mi_held x : x ∈ l → ∃ q, held O u pg bs x q;
  mi_nodes : NoDup (m :: l ≫= parts);
  mi_apart x y : x ∈ l → y ∈ l → x ≠ y → upgs u !! v_pages x.2 ≠ upgs u !! v_pages y.2;
  mi_self : (m, SIZEOF_MM) ∈ O ∧ kernel_mm u ≠ m;
  mi_kernel : kernel_mm u = NULL ∨ (kernel_mm u, SIZEOF_MM) ∈ O }.

(** An area is held as before when nothing of it has changed. *)
Lemma held_frame O O' u u' pg bs bs' x q : held O u pg bs x q → upgs u' !! v_pages x.2 = upgs u !! v_pages x.2 →
  (∀ va, page_in (v_start x.2) 1 va → pte_of (bytes (mw u')) pg va = pte_of (bytes (mw u)) pg va) →
  (∀ y, frame q y → ¬ avail bs' y) → (∀ i, 0 ≤ i < 1024 → ent (bytes (mw u')) pg i ≠ q + KERN_BASE) →
  (∀ y, y ∈ tail (parts x) → ul u' !! y = ul u !! y) → (x.1, SIZEOF_VMA) ∈ O' → (v_pages x.2, SIZEOF_UPAGES) ∈ O' → held O' u' pg bs' x q.
Proof.
  intros [H1 [B1 B2 B3] _ H4 _ H6 _ _] Eu Ep Hb Ht El O1 O2. split; try done.
  - split; [by rewrite Eu| |done]. intros va Hva. rewrite Ep by done. by apply B2.
  - eapply dlist_frame; [|exact H6]. intros y Hy. apply El. cbn. set_solver.
Qed.

(** The memory of a frame is not used by tables. *)
Lemma held_content O u pg bs x q a : held O u pg bs x q → tables (bytes (mw u)) pg bs → in_page (q + KERN_BASE) a → ¬ table_byte (bytes (mw u)) pg a.
Proof.
  intros [_ [_ _ (Q1 & Q2 & Q3)] _ Hi Ht _ _ _] T Ha Htb.
  assert (∀ t, t mod 4096 = 0 → in_page t a → t = q + KERN_BASE) as Heq.
  { intros t Htm Hta. unfold in_page, PAGE_SIZE, KERN_BASE in *. Z.to_euclidean_division_equations. lia. }
  destruct Htb as [Hp|(i & Hii & Hne & Hp)].
  - apply Hi, Heq; [apply T|done].
  - apply (Ht i Hii), Heq; [|done]. by destruct (tb_ent _ _ _ T i Hii Hne) as [[? _] _].
Qed.

(** An area that fits between [l1] and [l2] does not touch them. *)
Lemma gap_free l1 l2 b v x va : areas_ok (l1 ++ (b, v) :: l2) → x ∈ l1 ++ l2 → v_start v ≤ va < v_end v → ¬ (v_start x.2 ≤ va < v_end x.2).
Proof.
  intros Ha Hx Hv Hxv. apply elem_of_app in Hx as [Hx|Hx].
  - pose proof (sorted_last _ _ _ x Ha Hx) as Hs. cbn in Hs. lia.
  - destruct Ha as [_ Hs]. apply StronglySorted_app_1_r in Hs. apply StronglySorted_inv in Hs as [_ Hs].
    rewrite Forall_forall in Hs. specialize (Hs x Hx). cbn in Hs. lia.
Qed.

Lemma gap_unmapped O r u m pg l1 l2 bs addr b v : mm_inv O r u m pg (l1 ++ l2) bs → 0 ≤ addr → addr + PAGE_SIZE < 2 ^ 32 →
  areas_ok (l1 ++ (b, v) :: l2) → v_start v = addr → v_size v = PAGE_SIZE → ∀ x, page_in addr 1 x → pte_of (bytes (mw u)) pg x = 0.
Proof.
  intros Hi Ha0 Hab Hgap E1 E2 x Hx. destruct (decide (pte_of (bytes (mw u)) pg x = 0)) as [|Hne]; [done|]. exfalso.
  unfold page_in, PAGE_SIZE in *. destruct (mi_cover _ _ _ _ _ _ _ Hi x) as (y & Hy & Hr); [unfold fits; lia|done|].
  apply (gap_free l1 l2 b v y x Hgap Hy); [unfold v_end; lia|done].
Qed.

(** The nodes of one area and those of the others. *)
Lemma parts_split (k1 k2 : list (Z * vma)) x : (k1 ++ x :: k2) ≫= parts ≡ₚ parts x ++ (k1 ++ k2) ≫= parts.
Proof. rewrite bind_app, bind_cons, bind_app. by rewrite Permutation_app_swap_app. Qed.

Lemma elem_of_nodes l y : y ∈ (nodes l).*1 ↔ ∃ x, x ∈ l ∧ y = x.1 + NODE.
Proof. unfold nodes. rewrite <-list_fmap_compose, list_elem_of_fmap. naive_solver. Qed.

Lemma elem_of_parts (l : list (Z * vma)) x y : x ∈ l → y ∈ parts x → y ∈ l ≫= parts.
Proof. intros Hx Hy. apply list_elem_of_bind. by exists x. Qed.

(** The list of the area's pages is apart from the list of areas. *)
Lemma share_apart (m : Z) l x y : NoDup (m :: l ≫= parts) → x ∈ l → y ∈ tail (parts x) → y ∉ m :: (nodes l).*1.
Proof.
  intros Hnd Hx Hy. apply list_elem_of_split in Hx as (k1 & k2 & ->). rewrite parts_split in Hnd.
  apply NoDup_cons in Hnd as [Hm Hnd]. apply NoDup_app in Hnd as (Hp & Hd & _). rewrite not_elem_of_cons. split.
  - intros ->. apply Hm, elem_of_app. left. cbn in *. set_solver.
  - intros (z & Hz & Ez)%elem_of_nodes. assert (z = x ∨ z ∈ k1 ++ k2) as [->|Hz'] by set_solver.
    + cbn in Hp, Hy. apply NoDup_cons in Hp as [Hp _]. by rewrite <-Ez in Hp.
    + apply (Hd y); [cbn in *; set_solver|]. eapply elem_of_parts; [done|]. rewrite Ez. left.
Qed.

Lemma vlist_occupied u m l x : vlist u m l → x ∈ m :: (nodes l).*1 → occupied u x.
Proof. intros Hv Hx. left. eapply dlist_dom; [apply Hv|done]. Qed.

Lemma parts_dom O r u m pg l bs y : mm_inv O r u m pg l bs → y ∈ m :: l ≫= parts → y ∈ dom (ul u).
Proof.
  intros Hi Hy. pose proof (mi_list _ _ _ _ _ _ _ Hi) as Hl. apply elem_of_cons in Hy as [->|Hy]; [eapply dlist_dom; [apply Hl|left]|].
  apply list_elem_of_bind in Hy as (x & Hy & Hx). destruct (mi_held _ _ _ _ _ _ _ Hi x Hx) as [q Hq].
  pose proof (hd_share _ _ _ _ _ _ Hq) as Hs. unfold parts in Hy. rewrite !elem_of_cons in Hy.
  destruct Hy as [->|[->|[->|[]%elem_of_nil]]].
  - eapply dlist_dom; [apply Hl|right]. apply elem_of_nodes. by exists x.
  - eapply dlist_dom; [exact Hs|right; left].
  - eapply dlist_dom; [exact Hs|left].
Qed.
Lemma parts_occupied O r u m pg l bs y : mm_inv O r u m pg l bs → y ∈ m :: l ≫= parts → occupied u y.
Proof. intros Hi Hy. left. by eapply parts_dom. Qed.

(** The stores and links after the objects [v] and [p] have been entered. *)
Lemma fresh_nodes u m l v p vm up w1 w2 : vlist u m l → (∀ a, inside a (v, SIZEOF_VMA) → ¬ occupied u a) →
  (∀ a, inside a (p, SIZEOF_UPAGES) → ¬ occupied (with_vma v vm w1 u) a) →
  let L := ul (with_upages p up w2 (with_vma v vm w1 u)) in
  dlist L m (nodes l).*1 ∧ dlist L (p + UPAGES_HEAD) [] ∧ v + NODE ∈ dom L ∧ v + SHARE_NODE ∈ dom L ∧
  v + NODE ∉ m :: (nodes l).*1 ∧ v + SHARE_NODE ∉ m :: (nodes l).*1 ∧ p + UPAGES_HEAD ∉ m :: (nodes l).*1 ∧
  v + NODE ≠ p + UPAGES_HEAD ∧ v + SHARE_NODE ≠ p + UPAGES_HEAD ∧ vmas u !! v = None ∧ v ≠ m - NODE ∧ upgs u !! p = None ∧
  ∀ y, occupied u y → y ∉ [v + NODE; v + SHARE_NODE; p + UPAGES_HEAD].
Proof.
  intros Hl Hv Hp L. unfold SIZEOF_VMA, SIZEOF_UPAGES, NODE, SHARE_NODE, UPAGES_HEAD, inside in *. cbn [fst snd] in *.
  assert (∀ a, occupied u a → occupied (with_vma v vm w1 u) a) as Hmono.
  { intros a Ha. unfold occupied in *. cbn. rewrite !dom_insert_L. set_solver. }
  assert (∀ a, a = v + 20 ∨ a = v + 28 → occupied (with_vma v vm w1 u) a) as Hself.
  { intros a Ha. left. cbn. unfold NODE, SHARE_NODE. rewrite !dom_insert_L. set_solver. }
  assert (∀ x, x ∈ m :: (nodes l).*1 → occupied u x) as Hocc by (intros; by eapply vlist_occupied).
  assert (∀ a, v ≤ a < v + 36 → a ∉ m :: (nodes l).*1) as Nv by (intros a Ha Hin; by apply (Hv a Ha), Hocc).
  assert (∀ a, p ≤ a < p + 40 → a ∉ m :: (nodes l).*1) as Np by (intros a Ha Hin; by apply (Hp a Ha), Hmono, Hocc).
  split_and!.
  - subst L. cbn. unfold NODE, SHARE_NODE, UPAGES_HEAD. eapply dlist_frame; [|apply Hl]. intros q Hq.
    rewrite !lookup_insert_ne; [done|intros <-; by apply (Nv (v + 20)); [lia|]|intros <-; by apply (Nv (v + 28)); [lia|]|intros <-; by apply (Np (p + 28)); [lia|]].
  - subst L. cbn. unfold UPAGES_HEAD. split; [|apply NoDup_singleton]. cbn. unfold get_next, get_prev. by rewrite lookup_insert_eq.
  - subst L. cbn. unfold NODE, SHARE_NODE. rewrite !dom_insert_L. set_solver.
  - subst L. cbn. unfold NODE, SHARE_NODE. rewrite !dom_insert_L. set_solver.
  - apply Nv. lia.
  - apply Nv. lia.
  - apply Np. lia.
  - intros E. apply (Hp (v + 20)); [lia|]. apply Hself. by left.
  - intros E. apply (Hp (v + 28)); [lia|]. apply Hself. by right.
  - apply not_elem_of_dom. intros Hin. apply (Hv v); [lia|]. right. by left.
  - intros ->. apply (Hv m); [lia|]. apply Hocc. left.
  - apply not_elem_of_dom. intros Hin. apply (Hp p); [lia|]. apply Hmono. right. by right.
  - intros y Hy. rewrite !not_elem_of_cons. split_and!; [intros ->; apply (Hv (v + 20)); [lia|done]|intros ->; apply (Hv (v + 28)); [lia|done]| |apply not_elem_of_nil].
    intros ->. apply (Hp (p + 28)); [lia|]. by apply Hmono.
Qed.

(** What adding one area of a page at [addr] between [l1] and [l2] does. *)
Record added O (r : nat) u (m pg : Z) l1 l2 bs (addr fl v : Z) u' (p q : Z) bs' : Prop := Added {
  ad_v : 0 < v;
  ad_inv : ∃ O', O ⊆ O' ∧ mm_inv O' r u' m pg (l1 ++ (v, Vma addr PAGE_SIZE fl m p) :: l2) bs';
  ad_back : backed u' pg addr fl p q;
  ad_total : total bs - 2 * PAGE_SIZE ≤ total bs';
  ad_grown : grown (bytes (mw u)) (bytes (mw u')) pg;
  ad_avail x : avail bs x ↔ avail bs' x ∨ frame q x ∨ dropped (bytes (mw u')) (bytes (mw u)) pg x;
  ad_frame x : frame q x → avail bs x ∧ ¬ avail bs' x;
  ad_upgs p' : p' ∈ dom (upgs u) → p' ≠ p ∧ upgs u' !! p' = upgs u !! p';
  ad_pte va : fits 32 va → ¬ page_in addr 1 va → pte_of (bytes (mw u')) pg va = pte_of (bytes (mw u)) pg va;
  ad_new : vmas u !! v = None ∧ ∀ y, y ∈ dom (ul u) → y ∉ parts (v, Vma addr PAGE_SIZE fl m p);
  ad_vmas v' : v' ≠ v → vmas u' !! v' = vmas u !! v';
  ad_links y : y ∈ dom (ul u) → y ∉ m :: (nodes (l1 ++ l2)).*1 → ul u' !! y = ul u !! y;
  ad_mms : mms u' = mms u ∧ kernel_mm u' = kernel_mm u }.

(** The end of [add_vma]: the area gets its pages and is linked. *)
Lemma link_area_ok u m l1 l2 v p addr sz fl m' up :
  vmas u !! v = Some (Vma addr sz fl m' NULL) → upgs u !! p = Some up →
  dlist (ul u) m (nodes (l1 ++ l2)).*1 ∧ dlist (ul u) (p + UPAGES_HEAD) [] ∧ v + NODE ∈ dom (ul u) ∧ v + SHARE_NODE ∈ dom (ul u) ∧
  v + NODE ∉ m :: (nodes (l1 ++ l2)).*1 ∧ v + SHARE_NODE ∉ m :: (nodes (l1 ++ l2)).*1 ∧ p + UPAGES_HEAD ∉ m :: (nodes (l1 ++ l2)).*1 ∧
  v + NODE ≠ p + UPAGES_HEAD ∧ v + SHARE_NODE ≠ p + UPAGES_HEAD →
  wp (vm ← get_vma u v;
      u ← ref_upages p (set_vmas <[v := Vma (v_start vm) (v_size vm) (v_flags vm) (v_mm vm) p]> u);
      u ← on_ul (list_add_after (v + NODE) (default (m - NODE) (last l1.*1) + NODE)) u;
      u ← on_ul (list_add_after (v + SHARE_NODE) (p + UPAGES_HEAD)) u;
      Ok (0, v, u)) (λ '(rc, v', u'), rc = 0 ∧ v' = v ∧ ∃ L, dom L = dom (ul u) ∧
    dlist L m (nodes (l1 ++ (v, Vma addr sz fl m' p) :: l2)).*1 ∧ dlist L (p + UPAGES_HEAD) [v + SHARE_NODE] ∧
    (∀ y, y ∉ m :: (nodes (l1 ++ l2)).*1 → y ∉ [v + NODE; v + SHARE_NODE; p + UPAGES_HEAD] → L !! y = ul u !! y) ∧
    u' = set_ul (λ _, L) (set_upgs <[p := UPages (u_pages up) (atomic_inc (refs up))]> (set_vmas <[v := Vma addr sz fl m' p]> u))).
Proof.
  intros Hv Hp (H1 & H2 & H3 & H4 & H5 & H6 & H7 & H8 & H9). unfold get_vma. rewrite Hv. cbn [of_option mbind res_bind v_start v_size v_flags v_mm].
  unfold ref_upages, get_upages. cbn [upgs set_vmas]. rewrite Hp. cbn [of_option mbind res_bind].
  pose proof (link_ok (ul u) m l1 l2 v (Vma addr sz fl m' p) p H1 H2 H3 H4 H5 H6 H7 H8 H9) as Hl.
  apply wp_inv in Hl as (L2 & E & Hdom & Hd & Hd2 & Hq). unfold on_ul. cbn [ul set_upgs set_vmas].
  destruct (list_add_after (v + NODE) _ (ul u)) as [L1|]; [|done]. cbn [mbind res_bind ul set_ul] in E |- *.
  rewrite E. cbn [mbind res_bind wp]. split_and!; [done|done|]. by exists L2.
Qed.

(** The invariant survives a new area [x] in place of nothing. *)
Lemma area_inv_ok O r O' r' u u' m pg l1 l2 bs bs' x vm q : mm_inv O r u m pg (l1 ++ l2) bs →
  mms u' = mms u ∧ kernel_mm u' = kernel_mm u → vmas u' = <[x.1 := x.2]> (<[x.1 := vm]> (vmas u)) → vmas u !! x.1 = None → x.1 ≠ m - NODE →
  pt_inv (J := H O' r') (mw u') pg bs' → owned O' u' → dlist (ul u') m (nodes (l1 ++ x :: l2)).*1 →
  (∀ va, fits 32 va → pte_of (bytes (mw u')) pg va = pte_of (bytes (mw u)) pg va ∨ v_start x.2 ≤ va < v_end x.2) →
  areas_ok (l1 ++ x :: l2) →
  held O' u' pg bs' x q → (∀ y, avail bs y ↔ avail bs' y ∨ frame q y ∨ dropped (bytes (mw u')) (bytes (mw u)) pg y) →
  lean (bytes (mw u')) pg → (∀ p, p ∈ dom (upgs u) → upgs u' !! p = upgs u !! p) →
  grown (bytes (mw u)) (bytes (mw u')) pg → O ⊆ O' → (∀ y, occupied u y → y ∉ parts x) → NoDup (parts x) →
  (∀ y, y ∉ m :: (nodes (l1 ++ l2)).*1 → y ∉ parts x → ul u' !! y = ul u !! y) →
  mm_inv O' r' u' m pg (l1 ++ x :: l2) bs'.
Proof.
  intros Hinv [Em Ek] Ev Hvn Hvm Hpt Hown Hd Hpte Hs Hx Hav Hlean Hup Hgr HO' Hfresh Hndx Hlinks.
  pose proof Hinv as [Hmm (_ & _ & Ht) _ Hl Ha _ Hcov Hheld Hnd Hap [Hself Hkm] Hker]. pose proof Hpt as (_ & _ & Ht').
  assert (∀ y, y ∈ l1 ++ x :: l2 ↔ y = x ∨ y ∈ l1 ++ l2) as Hin by (intros y; rewrite !elem_of_app, elem_of_cons; tauto).
  assert (∀ y, y ∈ l1 ++ l2 → ∃ q', held O u pg bs y q' ∧ held O' u' pg bs' y q' ∧ q' ≠ q) as Hold.
  { intros y Hy. destruct (Hheld y Hy) as [q' Hq']. pose proof Hq' as [Hpg [Hu Hpt' (Q1 & Q2 & Q3)] Hbusy Hidx Htab Hsh Ov Op]. exists q'.
    assert (q' ≠ q) as Hne. { intros ->. apply (Hbusy q); [unfold frame, PAGE_SIZE; lia|]. apply Hav. right. left. unfold frame, PAGE_SIZE; lia. }
    split_and!; [done| |done]. eapply held_frame; [exact Hq'|..].
    - apply Hup. by eapply elem_of_dom_2.
    - intros va Hva. assert (area_ok y.2) as (Y1 & Y2 & Y3) by (destruct Ha as [Ha _]; rewrite Forall_forall in Ha; by apply Ha).
      destruct Hpg as [Hsz _]. unfold v_end, page_in in *. rewrite Hsz in *. destruct (Hpte va) as [E|Hr]; [unfold fits; lia|done|].
      exfalso. destruct x as [v vx]. apply (gap_free l1 l2 v vx y va Hs Hy); [done|]. unfold v_end. lia.
    - intros z Hz Hz'. apply (Hbusy z Hz), Hav. by left.
    - intros i Hi E. destruct (decide (ent (bytes (mw u)) pg i = 0)) as [E0|E0].
      + apply (Hbusy q'); [unfold frame, PAGE_SIZE; lia|]. apply Hav. do 2 right. exists i.
        rewrite E. unfold in_page, KERN_BASE in *. split_and!; (done || lia).
      + rewrite (gr_keep _ _ _ Hgr i Hi E0) in E. by apply (Htab i).
    - intros z Hz. apply Hlinks; [by eapply share_apart|]. apply Hfresh. eapply parts_occupied; [exact Hinv|]. right.
      eapply elem_of_parts; [done|]. cbn in Hz |- *. by right.
    - by apply HO'.
    - by apply HO'. }
  split; [by rewrite Em|done|done| |done|done|..].
  - split; [done| |by rewrite Ev, !lookup_insert_ne by done; apply Hl].
    apply Forall_forall. intros y [->|Hy]%Hin; [by rewrite Ev, lookup_insert_eq|].
    pose proof (proj1 (Forall_forall _ _) (vl_store _ _ _ Hl) y Hy) as Hst. cbn in Hst. by rewrite Ev, !lookup_insert_ne by congruence.
  - intros va Hva Hne. destruct (Hpte va Hva) as [E|Hr].
    + rewrite E in Hne. destruct (Hcov va Hva Hne) as (y & Hy & Hr). exists y. split; [apply Hin; by right|done].
    + exists x. split; [apply Hin; by left|done].
  - intros y [->|Hy]%Hin; [by exists q|]. destruct (Hold y Hy) as (q' & _ & Hq' & _). by exists q'.
  - rewrite parts_split. rewrite Permutation_middle. apply NoDup_app. split_and!; [done| |done].
    intros y Hy Hy'. apply (Hfresh y); [by eapply parts_occupied|done].
  - assert (∀ y, y ∈ l1 ++ l2 → upgs u' !! v_pages y.2 ≠ upgs u' !! v_pages x.2) as Hxy.
    { intros y Hy E. destruct (Hold y Hy) as (q' & _ & [_ [Hu _ _] _ _ _ _ _ _] & Hne). destruct Hx as [_ [Hux _ _] _ _ _ _ _ _].
      rewrite Hu, Hux in E. congruence. }
    intros y z [->|Hy]%Hin [->|Hz]%Hin Hyz; [done|by apply not_eq_sym, Hxy|by apply Hxy|].
    assert (∀ y, y ∈ l1 ++ l2 → upgs u' !! v_pages y.2 = upgs u !! v_pages y.2) as Hsame.
    { intros y' Hy'. apply Hup. destruct (Hheld y' Hy') as [q' [_ [Hu _ _] _ _ _ _ _ _]]. by eapply elem_of_dom_2. }
    rewrite !Hsame by done. by apply Hap.
  - rewrite Ek. split; [by apply HO'|done].
  - rewrite Ek. destruct Hker; [by left|right; by apply HO'].
Qed.

(** The frame [q] has been taken, and then tables were added: it is none of them. *)
Lemma frame_apart (m m' : mem) pg q bs bs1 bs2 : tables m pg bs → taken q PAGE_SIZE bs bs1 → tables_from m m' pg bs1 bs2 → grown m m' pg → 0 ≤ q →
  pg ≠ q + KERN_BASE ∧ (∀ i, 0 ≤ i < 1024 → ent m' pg i ≠ q + KERN_BASE) ∧ (∀ y, frame q y → avail bs y ∧ ¬ avail bs2 y) ∧
  (∀ y, avail bs y ↔ avail bs2 y ∨ frame q y ∨ dropped m' m pg y).
Proof.
  intros Ht [Hav Hno] Hfr Hgr Hq0. assert (∀ t, is_page t bs → t ≠ q + KERN_BASE) as Hp.
  { intros t (_ & _ & _ & Hna) ->. apply (Hna q); [unfold KERN_BASE; lia|]. apply Hav. right. unfold PAGE_SIZE. lia. }
  split_and!; [apply Hp, Ht| | |].
  - intros i Hi E. destruct (decide (ent m pg i = 0)) as [E0|E0].
    + apply (Hno q); [unfold PAGE_SIZE; lia|]. apply Hfr. right. exists i. rewrite E. unfold in_page, KERN_BASE in *. split_and!; (done || lia).
    + rewrite (gr_keep _ _ _ Hgr i Hi E0) in E. apply (Hp (ent m pg i)); [|done]. by apply (tb_ent _ _ _ Ht i Hi).
  - intros y Hy. split; [apply Hav; by right|]. intros Hy'. apply (Hno y Hy), Hfr. by left.
  - intros y. rewrite (Hav y), (Hfr y). unfold frame. tauto.
Qed.

Lemma add_vma_ok O r u m pg l1 l2 bs addr fl :
  mm_inv O (S (S r)) u m pg (l1 ++ l2) bs → addr mod PAGE_SIZE = 0 → 0 ≤ addr → addr + PAGE_SIZE < 2 ^ 32 →
  2 * PAGE_SIZE ≤ total bs → (∀ b v, v_start v = addr → v_size v = PAGE_SIZE → areas_ok (l1 ++ (b, v) :: l2)) →
  wp (add_vma m addr PAGE_SIZE fl PAGE_SIZE 0 (default (m - NODE) (last l1.*1)) (λ _ u, Ok u) u)
    (λ '(rc, v, u'), rc = 0 ∧ ∃ p q bs', added O r u m pg l1 l2 bs addr fl v u' p q bs').
Proof.
  intros Hinv Ham Ha0 Hab Htot Hgap. pose proof Hinv as [[c Hmm] Hpt Hown Hl Hs Hlean Hcov _ _ _ _].
  pose proof (gap_unmapped _ _ _ _ _ _ _ _ _ 0 (Vma addr PAGE_SIZE fl m 0) Hinv Ha0 Hab (Hgap 0 (Vma addr PAGE_SIZE fl m 0) eq_refl eq_refl) eq_refl eq_refl) as Hz.
  unfold add_vma. apply wp_bind. eapply wp_mono; [by apply (vma_new_ok O (S r))|].
  intros [v u1] (Hv0 & Hv & w1 & -> & Hb1 & Hpt1). unfold NULL. rewrite (proj2 (Z.eqb_neq v 0)) by lia.
  set (vm := Vma addr PAGE_SIZE fl m 0) in *.
  apply wp_bind. eapply wp_mono; [apply (upages_new_ok ((v, SIZEOF_VMA) :: O) r); [exact Hpt1|by apply owned_vma]|].
  intros [p u2] (Hp0 & Hp & w2 & -> & Hb2 & Hpt2). rewrite (proj2 (Z.eqb_neq p 0)) by lia.
  set (up := UPages (Pages 0 PAGE_SIZE 0) 0) in *. set (O2 := (p, SIZEOF_UPAGES) :: (v, SIZEOF_VMA) :: O) in *.
  pose proof (fresh_nodes u m (l1 ++ l2) v p vm up w1 w2 Hl Hv Hp) as Hfr. cbv zeta in Hfr.
  pose proof (owned_upages _ _ p up w2 (owned_vma O u v vm w1 Hown)) as Hown2.
  set (u2 := with_upages p up w2 (with_vma v vm w1 u)) in *.
  apply wp_bind. eapply wp_mono; [apply (alloc_upages_ok O2 r p 0 0 u2 pg bs); [by apply lookup_insert_eq|exact Hpt2|unfold PAGE_SIZE in *; lia]|].
  intros [rc u3] (-> & q & bs3 & w3 & -> & Hb3 & Hpt3 & Ht3 & Htk & Hq0 & Hqm & Hqb). change (0 <? 0) with false. cbv iota.
  unfold get_upages at 1. cbn [upgs set_upgs]. rewrite lookup_insert_eq. cbn [of_option mbind res_bind].
  unfold get_mm at 1. change (mms (set_upgs _ _)) with (mms u). rewrite Hmm. cbn [of_option mbind res_bind pgindex u_pages paddr].
  unfold on_mw at 1. cbn [mw set_upgs set_mw].
  assert (bytes w3 = bytes (mw u)) as Hb. { rewrite Hb3. cbn. by rewrite Hb2. }
  apply wp_bind, wp_bind. eapply wp_mono; [apply (map_page_ok O2 r w3 pg bs3 addr q fl Hpt3); try done; [lia|by rewrite Hb]|].
  intros [rc w4] (-> & (bs4 & Hpt4 & Ht4 & Hfr4) & [Hgr4 Hlean4] & Hpte). apply wp_ok. change (0 <? 0) with false. cbv iota. cbn [mbind res_bind].
  set (u4 := set_mw w4 _).
  eapply wp_mono; [apply (link_area_ok u4 m l1 l2 v p addr PAGE_SIZE fl m (UPages (Pages q PAGE_SIZE 0) 0));
    [by apply lookup_insert_eq|by apply lookup_insert_eq|by intuition]|].
  intros [[rc v'] u5] (-> & -> & L & Hdom & Hd & Hd2 & Hq & ->). split; [done|]. exists p, q, bs4.
  destruct Hfr as (_ & _ & _ & _ & _ & _ & _ & N1 & N2 & Hvn & Hvm & Hpn & Hfresh).
  rewrite Hb in Hgr4, Hpte, Hfr4, Hlean4.
  destruct (frame_apart (bytes (mw u)) (bytes w4) pg q bs bs3 bs4) as (Hq1 & Hq2 & Hq3 & Hav); [apply Hpt|done..|].
  assert (∀ p', p' ∈ dom (upgs u) → p' ≠ p) as Hpne by (intros p' [? ?]%elem_of_dom; congruence).
  set (u5 := set_ul _ _).
  assert (backed u5 pg addr fl p q) as Hback.
  { split; [by apply lookup_insert_eq| |done]. intros va Hva. cbn. rewrite Hpte by (unfold page_in, fits, PAGE_SIZE in *; lia).
    by rewrite bool_decide_true. }
  split; cbn [mw upgs set_ul set_upgs set_vmas set_mw u4].
  - done.
  - exists O2. split; [intros o Ho; by do 2 right|]. apply (area_inv_ok O (S (S r)) O2 r u _ m pg l1 l2 bs bs4 (v, Vma addr PAGE_SIZE fl m p) vm q Hinv); try done.
    + eapply owned_dom; [exact Hown2|..]; cbn; [by rewrite Hdom|rewrite ?dom_insert_L; set_solver..].
    + intros va Hva. cbn. rewrite Hpte by done. case_bool_decide as Hp1; [|by left]. right.
      unfold page_in, v_end in *. cbn. lia.
    + by apply Hgap.
    + split; try done; [by intros y Hy; apply Hq3|cbn; right; left|cbn; left].
    + by apply Hlean4.
    + intros p' Hp'. cbn. rewrite !lookup_insert_ne by (apply not_eq_sym; by apply Hpne). done.
    + intros o Ho. do 2 right. done.
    + cbn. repeat constructor; cbn; unfold NODE, SHARE_NODE in *; set_solver by lia.
    + intros y Hy Hy'. cbn. rewrite Hq by done. cbn. unfold parts in Hy'. rewrite !not_elem_of_cons in Hy'. destruct Hy' as (Y1 & Y2 & Y3 & _).
      by rewrite !lookup_insert_ne by done.
  - exact Hback.
  - lia.
  - exact Hgr4.
  - exact Hav.
  - exact Hq3.
  - intros p' Hp'. split; [by apply Hpne|]. cbn. by rewrite !lookup_insert_ne by (apply not_eq_sym; by apply Hpne).
  - intros va Hva Hno. rewrite Hpte by done. by rewrite bool_decide_false.
  - split; [done|]. intros y Hy. apply Hfresh. by left.
  - intros v' Hv'. cbn. by rewrite !lookup_insert_ne by done.
  - intros y Hy Hyn. cbn. assert (y ∉ [v + NODE; v + SHARE_NODE; p + UPAGES_HEAD]) as Hyf by by apply Hfresh; left.
    rewrite Hq by done. cbn. rewrite !not_elem_of_cons in Hyf. destruct Hyf as (Y1 & Y2 & Y3 & _). by rewrite !lookup_insert_ne by done.
  - done.
Qed.

(** ** Runs of pages

    What a call creates: per page the vma, its pages and their frame. *)
Definition areas (m addr fl : Z) (items : list (Z * Z * Z)) : list (Z * vma) :=
  imap (λ i '(v, p, _), (v, Vma (addr + PAGE_SIZE * Z.of_nat i) PAGE_SIZE fl m p)) items.

Record created (r : nat) u (m pg : Z) l1 l2 bs (addr fl : Z) (items : list (Z * Z * Z)) u' bs' : Prop := Created {
  cr_inv : ∃ O', mm_inv O' r u' m pg (l1 ++ areas m addr fl items ++ l2) bs';
  cr_back i v p q : items !! i = Some (v, p, q) → 0 < v ∧ backed u' pg (addr + PAGE_SIZE * Z.of_nat i) fl p q;
  cr_total : total bs - 2 * PAGE_SIZE * Z.of_nat (length items) ≤ total bs';
  cr_grown : grown (bytes (mw u)) (bytes (mw u')) pg;
  cr_avail x : avail bs x ↔ avail bs' x ∨ (∃ v p q, (v, p, q) ∈ items ∧ frame q x) ∨ dropped (bytes (mw u')) (bytes (mw u)) pg x;
  cr_frames i v p q x : items !! i = Some (v, p, q) → frame q x → avail bs x ∧ ¬ avail bs' x;
  cr_distinct i j v p q v' p' q' : items !! i = Some (v, p, q) → items !! j = Some (v', p', q') → q = q' → i = j;
  cr_upgs p' : p' ∈ dom (upgs u) → upgs u' !! p' = upgs u !! p';
  cr_pte va : fits 32 va → ¬ page_in addr (Z.of_nat (length items)) va → pte_of (bytes (mw u')) pg va = pte_of (bytes (mw u)) pg va }.

Lemma areas_snoc m addr fl items v p q : areas m addr fl (items ++ [(v, p, q)]) =
  areas m addr fl items ++ [(v, Vma (addr + PAGE_SIZE * Z.of_nat (length items)) PAGE_SIZE fl m p)].
Proof. unfold areas. rewrite imap_app. cbn. by rewrite Nat.add_0_r. Qed.

Lemma areas_elem m addr fl items x : x ∈ areas m addr fl items →
  ∃ i, (i < length items)%nat ∧ v_start x.2 = addr + PAGE_SIZE * Z.of_nat i ∧ v_size x.2 = PAGE_SIZE.
Proof.
  intros (i & Hi)%list_elem_of_lookup. unfold areas in Hi. rewrite list_lookup_imap in Hi.
  destruct (items !! i) as [[[v p] q]|] eqn:E; [|done]. injection Hi as <-. exists i. split; [by eapply lookup_lt_Some|done].
Qed.

Lemma snoc_inv {A} (l : list A) (x y : A) i : (l ++ [x]) !! i = Some y → l !! i = Some y ∨ i = length l ∧ x = y.
Proof.
  intros Hi. apply lookup_app_Some in Hi as [Hi|[Hge Hi]]; [by left|right].
  apply list_lookup_singleton_Some in Hi as [Hi ->]. split; [lia|done].
Qed.

Lemma created_step O r u m pg l1 l2 bs addr fl items u1 bs1 v u2 p q bs2 :
  0 ≤ addr → addr + PAGE_SIZE * Z.of_nat (S (length items)) < 2 ^ 32 →
  created (S (S r)) u m pg l1 l2 bs addr fl items u1 bs1 →
  added O r u1 m pg (l1 ++ areas m addr fl items) l2 bs1 (addr + PAGE_SIZE * Z.of_nat (length items)) fl v u2 p q bs2 →
  created r u m pg l1 l2 bs addr fl (items ++ [(v, p, q)]) u2 bs2.
Proof.
  intros Ha0 Hab [Ci Cb Ct Cg Cx Cf Cd Cu Cp] [Av Ai Ab At Ag Ax Af Au Ap _ _ _ _].
  assert (∀ x, avail bs1 x → avail bs x) as Ca by (intros x Hx; apply Cx; by left).
  assert (∀ x, avail bs2 x → avail bs1 x) as Aa by (intros x Hx; apply Ax; by left).
  assert (∀ i v p q, items !! i = Some (v, p, q) → p ∈ dom (upgs u1)) as Hpd.
  { intros i v0 p0 q0 Hi. destruct (Cb i v0 p0 q0 Hi) as [_ [Hu _ _]]. by apply elem_of_dom_2 in Hu. }
  split.
  - destruct Ai as (O' & _ & Ai). exists O'. rewrite areas_snoc. by rewrite <-!app_assoc in *.
  - intros i v0 p0 q0 [Hi|[-> [= <- <- <-]]]%snoc_inv; [|done]. pose proof (lookup_lt_Some _ _ _ Hi) as Hlt.
    destruct (Cb i v0 p0 q0 Hi) as [Hv [Hu Hpte Hfr]]. split; [done|]. split; [|intros va Hva|done].
    + destruct (Au p0 (Hpd _ _ _ _ Hi)) as [_ ->]. done.
    + rewrite Ap, Hpte; [done|done|..]; unfold page_in, fits, PAGE_SIZE in *; lia.
  - rewrite length_app. cbn [length]. unfold PAGE_SIZE in *. lia.
  - by eapply grown_trans.
  - intros x. rewrite (Cx x), (Ax x), (dropped_trans (bytes (mw u2)) (bytes (mw u1)) (bytes (mw u)))
      by (intros i Hi; by apply grown_back).
    setoid_rewrite elem_of_app. setoid_rewrite list_elem_of_singleton. naive_solver.
  - intros i v0 p0 q0 x [Hi|[-> [= <- <- <-]]]%snoc_inv Hx.
    + destruct (Cf _ _ _ _ _ Hi Hx) as [H1 H2]. split; [done|]. intros H3. by apply H2, Aa.
    + destruct (Af x Hx) as [H1 H2]. split; [by apply Ca|done].
  - assert (∀ i v0 p0, items !! i = Some (v0, p0, q) → False) as Hnew.
    { intros i v0 p0 Hi. assert (frame q q) as Hq by (unfold frame, PAGE_SIZE; lia).
      destruct (Cf _ _ _ _ _ Hi Hq) as [_ H2]. by apply H2, Af. }
    intros i j v1 p1 q1 v2 p2 q2 [Hi|[-> [= <- <- <-]]]%snoc_inv [Hj|[-> [= <- <- <-]]]%snoc_inv E; subst.
    + by eapply Cd.
    + by apply Hnew in Hi.
    + by apply Hnew in Hj.
    + done.
  - intros p' Hp'. rewrite <-(Cu p' Hp'). apply Au. apply elem_of_dom. rewrite (Cu p' Hp'). by apply elem_of_dom.
  - intros va Hva Hno. rewrite length_app in Hno. cbn [length] in Hno. rewrite Ap, Cp; [done|done| |done|];
      unfold page_in, PAGE_SIZE in *; lia.
Qed.

(** The next page of the run fits behind those that are already there. *)
Lemma run_gap m addr fl items l1 l2 n b v : areas_ok (l1 ++ areas m addr fl items ++ l2) →
  (∀ b v, v_start v = addr → v_size v = PAGE_SIZE * n → areas_ok (l1 ++ (b, v) :: l2)) →
  0 ≤ addr → Z.of_nat (length items) < n → addr + PAGE_SIZE * n < 2 ^ 32 →
  v_start v = addr + PAGE_SIZE * Z.of_nat (length items) → v_size v = PAGE_SIZE →
  areas_ok ((l1 ++ areas m addr fl items) ++ (b, v) :: l2).
Proof.
  intros Hs Hgap Ha0 Hn Hb Ev Es. specialize (Hgap 0 (Vma addr (PAGE_SIZE * n) 0 0 0) eq_refl eq_refl).
  rewrite app_assoc in Hs. apply sorted_insert; [done| | |].
  - unfold area_ok, v_end, PAGE_SIZE in *. cbn [snd]. lia.
  - intros y [Hy|Hy]%elem_of_app; cbn [snd].
    + pose proof (sorted_last _ _ _ y Hgap Hy) as H1. cbn in H1. unfold PAGE_SIZE in *. lia.
    + destruct (areas_elem _ _ _ _ _ Hy) as (j & Hj & E1 & E2). unfold v_end, PAGE_SIZE in *. lia.
  - intros y Hy. destruct Hgap as [_ H1]. apply StronglySorted_app_1_r in H1. apply StronglySorted_inv in H1 as [_ H1].
    rewrite Forall_forall in H1. specialize (H1 y Hy). unfold v_end, PAGE_SIZE in *. cbn in H1 |- *. lia.
Qed.

Lemma create_loop_ok O r n u m pg l1 l2 bs addr fl : mm_inv O (2 * n + r) u m pg (l1 ++ l2) bs →
  addr mod PAGE_SIZE = 0 → 0 ≤ addr → addr + PAGE_SIZE * Z.of_nat n < 2 ^ 32 → 2 * PAGE_SIZE * Z.of_nat n ≤ total bs →
  (∀ b v, v_start v = addr → v_size v = PAGE_SIZE * Z.of_nat n → areas_ok (l1 ++ (b, v) :: l2)) →
  wp (loop (S n) (λ '(mapped, vcur, cur, u),
        if mapped <? PAGE_SIZE * Z.of_nat n then
          '(retcode, v, u) ← add_vma m vcur PAGE_SIZE fl PAGE_SIZE 0 cur (λ _ u, Ok u) u;
          if retcode <? 0 then Ok (inr (retcode, mapped, u))
          else Ok (inl (w32 (mapped + PAGE_SIZE), w32 (vcur + PAGE_SIZE), v, u))
        else Ok (inr (0, mapped, u))) (0, addr, default (m - NODE) (last l1.*1), u))
    (λ '(rc, _, u'), rc = 0 ∧ ∃ items bs', length items = n ∧ created r u m pg l1 l2 bs addr fl items u' bs').
Proof.
  intros Hinv Ham Ha0 Hab Htot Hgap.
  apply (wp_loop _ (λ '(mapped, vcur, cur, u'), ∃ items bs', (length items ≤ n)%nat ∧ mapped = PAGE_SIZE * Z.of_nat (length items) ∧
      vcur = addr + PAGE_SIZE * Z.of_nat (length items) ∧ cur = default (m - NODE) (last (l1 ++ areas m addr fl items).*1) ∧
      created (2 * (n - length items) + r) u m pg l1 l2 bs addr fl items u' bs')
    (λ '(mapped, _, _, _), (n - Z.to_nat (mapped / PAGE_SIZE))%nat)).
  - intros [[[mapped vcur] cur] u1] (items & bs1 & Hlen & -> & -> & -> & Hc). set (k := length items) in *.
    destruct (Z.ltb_spec (PAGE_SIZE * Z.of_nat k) (PAGE_SIZE * Z.of_nat n)) as [Hlt|Hge].
    + assert (k < n)%nat as Hkn by (unfold PAGE_SIZE in *; lia).
      replace (2 * (n - k) + r)%nat with (S (S (2 * (n - S k) + r))) in Hc by lia.
      pose proof (cr_total _ _ _ _ _ _ _ _ _ _ _ _ Hc) as Htot1. destruct (cr_inv _ _ _ _ _ _ _ _ _ _ _ _ Hc) as [O1 Hi1].
      apply wp_bind. eapply wp_mono.
      * apply (add_vma_ok O1 (2 * (n - S k) + r) u1 m pg (l1 ++ areas m addr fl items) l2 bs1); [by rewrite <-app_assoc|..];
          [unfold PAGE_SIZE in *; Z.div_mod_to_equations; lia|unfold PAGE_SIZE in *; lia..|].
        intros b v E1 E2. eapply (run_gap m addr fl items l1 l2 (Z.of_nat n)); try done; [apply Hi1|unfold PAGE_SIZE in *; lia].
      * intros [[rc v] u2] (-> & p & q & bs2 & Had). change (0 <? 0) with false. cbv iota. apply wp_ok.
        rewrite !(wrap_small 32) by (unfold fits, PAGE_SIZE in *; lia). split.
        -- exists (items ++ [(v, p, q)]), bs2. rewrite length_app. cbn [length]. fold k. split_and!; [lia|lia|lia| |].
           ++ rewrite areas_snoc, app_assoc, (fmap_app _ (l1 ++ _)), last_app. done.
           ++ replace (k + 1)%nat with (S k) by lia. eapply created_step; [done|fold k; unfold PAGE_SIZE in *; lia|exact Hc|exact Had].
        -- unfold PAGE_SIZE in *. Z.div_mod_to_equations; lia.
    + assert (k = n) as Ek by (unfold PAGE_SIZE in *; lia). apply wp_ok. split; [done|]. exists items, bs1. split; [done|].
      rewrite Ek, Nat.sub_diag in Hc. exact Hc.
  - exists [], bs. cbn [length]. split_and!; [lia|lia|lia|by rewrite app_nil_r|]. rewrite Nat.sub_0_r.
    split; try done; [by exists O|cbn [length]; lia|]. intros x. split; [by left|].
    intros [|[(v & p & q & []%elem_of_nil & _)|Hd]]; [done|by apply dropped_refl in Hd].
  - unfold PAGE_SIZE. Z.div_mod_to_equations; lia.
Qed.

Definition overlaps (addr sz : Z) (x : Z * vma) : Prop := v_start x.2 < addr + sz ∧ addr < v_end x.2.

(** A place for a run is not a place where something is. *)
Lemma gap_overlaps l1 l2 addr sz x : 0 < sz → (∀ b v, v_start v = addr → v_size v = sz → areas_ok (l1 ++ (b, v) :: l2)) →
  x ∈ l1 ++ l2 → ¬ overlaps addr sz x.
Proof.
  intros Hsz Hgap Hx [H1 H2]. specialize (Hgap 0 (Vma addr sz 0 0 0) eq_refl eq_refl). pose proof Hgap as [Hok _].
  assert (area_ok x.2) as (_ & Hs & _).
  { apply elem_of_app in Hx as [Hx|Hx]; apply (proj1 (Forall_forall _ _) Hok x), elem_of_app; [by left|right; by right]. }
  apply (gap_free l1 l2 0 _ x (Z.max addr (v_start x.2)) Hgap Hx); unfold v_end in *; cbn; lia.
Qed.

Section call.
Context O (r n : nat) u (m pg : Z) (l : list (Z * vma)) bs (addr fl : Z).
Context (Hinv : mm_inv O (2 * n + r) u m pg l bs) (Hn : (0 < n)%nat).
Context (Ham : addr mod PAGE_SIZE = 0) (Ha0 : 0 ≤ addr) (Hab : addr + PAGE_SIZE * Z.of_nat n < 2 ^ 32).
Context (Htot : 2 * PAGE_SIZE * Z.of_nat n ≤ total bs) (Hm0 : m ≠ NULL) (Hm1 : m ≠ NODE) (Hl0 : Forall (λ x, x.1 ≠ NULL) l).
Context (Hfirst : ∀ x l', l = x :: l' → v_start x.2 < addr + PAGE_SIZE * Z.of_nat n).

Lemma create_found start : find_vma_before m addr (PAGE_SIZE * Z.of_nat n) u = Ok start →
  (start = NULL → create_uvm m addr (PAGE_SIZE * Z.of_nat n) fl u = Ok (- EFAULT, u)) ∧
  (∀ l1 l2, l = l1 ++ l2 → start = default (m - NODE) (last l1.*1) →
    (∀ b v, v_start v = addr → v_size v = PAGE_SIZE * Z.of_nat n → areas_ok (l1 ++ (b, v) :: l2)) →
    wp (create_uvm m addr (PAGE_SIZE * Z.of_nat n) fl u) (λ '(rc, u'), rc = 0 ∧ ∃ items bs',
      length items = n ∧ created r u m pg l1 l2 bs addr fl items u' bs')).
Proof.
  intros Ef. unfold create_uvm. rewrite (IS_ALIGNED_page 32 (PAGE_SIZE * Z.of_nat n)) by (done || (rewrite Z.mul_comm; apply Z_mod_mult)).
  rewrite (IS_ALIGNED_page 32 addr) by done. rewrite (proj2 (Z.eqb_neq m NULL)) by done. cbn [negb orb].
  rewrite (proj2 (Z.eqb_neq _ 0)) by (unfold PAGE_SIZE; lia). rewrite Ef. cbn [mbind res_bind]. split; [by intros ->|].
  intros l1 l2 El Es Hgap. rewrite El in *. rewrite (proj2 (Z.eqb_neq start NULL)).
  - apply wp_bind. rewrite Z.mul_comm, Z.div_mul, Nat2Z.id, Z.mul_comm, Es by done.
    eapply wp_mono; [by apply (create_loop_ok O r n)|]. intros [[rc mapped] u'] (-> & items & bs' & Hlen & Hc).
    change (0 <? 0) with false. cbv iota. apply wp_ok. split; [done|]. by exists items, bs'.
  - rewrite Es. apply Forall_app in Hl0 as [Hl1 _]. destruct l1 as [|x l1 _] using rev_ind; [cbn; unfold NULL; lia|].
    rewrite fmap_app, last_app. cbn. apply Forall_app in Hl1 as [_ Hl1]. by inversion Hl1.
Qed.

Lemma create_result : (∃ x, x ∈ l ∧ overlaps addr (PAGE_SIZE * Z.of_nat n) x) ∧ create_uvm m addr (PAGE_SIZE * Z.of_nat n) fl u = Ok (- EFAULT, u) ∨
  (∀ x, x ∈ l → ¬ overlaps addr (PAGE_SIZE * Z.of_nat n) x) ∧
  wp (create_uvm m addr (PAGE_SIZE * Z.of_nat n) fl u) (λ '(rc, u'), rc = 0 ∧ ∃ l1 l2 items bs',
    l = l1 ++ l2 ∧ length items = n ∧ created r u m pg l1 l2 bs addr fl items u' bs').
Proof.
  assert (0 < PAGE_SIZE * Z.of_nat n) as Hsz by (unfold PAGE_SIZE; lia).
  pose proof (find_vma_before_ok u m l addr _ (mi_list _ _ _ _ _ _ _ Hinv) (mi_areas _ _ _ _ _ _ _ Hinv) Ha0 Hsz Hab Hfirst) as Hfind.
  apply wp_inv in Hfind as (start & Ef & Hres). destruct (create_found start Ef) as [H1 H2].
  destruct Hres as [[-> Hx]|(l1 & l2 & El & Es & Hgap)]; [left; by split; [|apply H1]|right].
  split; [intros x Hx; rewrite El in Hx; by eapply gap_overlaps|].
  eapply wp_mono; [by apply (H2 l1 l2)|]. intros [rc u'] (-> & items & bs' & H3 & H4). split; [done|]. by exists l1, l2, items, bs'.
Qed.
End call.

Lemma created_translates r u m pg l1 l2 bs addr fl items u' bs' i v p q x : created r u m pg l1 l2 bs addr fl items u' bs' →
  addr mod PAGE_SIZE = 0 → items !! i = Some (v, p, q) → 0 ≤ x < PAGE_SIZE →
  uva2kva pg (addr + PAGE_SIZE * Z.of_nat i + x) (mw u') = Ok (pa2kva (q + x)).
Proof.
  intros Hc Ham Hi Hx. destruct (cr_back _ _ _ _ _ _ _ _ _ _ _ _ Hc _ _ _ _ Hi) as [_ [_ Hpte (Q1 & Q2 & Q3)]].
  rewrite (uva2kva_entry pg _ (mw u') q fl); [|apply Hpte; unfold page_in; lia|done|done|done].
  do 2 f_equal. unfold PAGE_SIZE in *. f_equal. Z.div_mod_to_equations; lia.
Qed.

(** The memory of the areas that were there is not written. *)
Lemma created_content O r u m pg l1 l2 bs addr fl items u' bs' x q a : created r u m pg l1 l2 bs addr fl items u' bs' →
  x ∈ l1 ++ l2 → held O u pg bs x q → in_page (q + KERN_BASE) a → bytes (mw u') a = bytes (mw u) a.
Proof.
  intros Hc Hx [_ [Hu _ _] _ _ _ _ _ _] Ha. destruct (cr_inv _ _ _ _ _ _ _ _ _ _ _ _ Hc) as [O' Hi'].
  destruct (mi_held _ _ _ _ _ _ _ Hi' x) as [q' Hq']; [rewrite !elem_of_app in *; tauto|].
  assert (q' = q) as ->.
  { pose proof (bk_pages _ _ _ _ _ _ (hd_back _ _ _ _ _ _ Hq')) as Hu'.
    rewrite (cr_upgs _ _ _ _ _ _ _ _ _ _ _ _ Hc), Hu in Hu' by (by eapply elem_of_dom_2). congruence. }
  apply (gr_bytes _ _ _ (cr_grown _ _ _ _ _ _ _ _ _ _ _ _ Hc)). eapply held_content; [exact Hq'| |done].
  apply (mi_pt _ _ _ _ _ _ _ Hi').
Qed.

(** C7. Creating user memory ([create_uvm]): in an address space whose areas are
    sorted, have frames of their own and cover everything that is mapped, for a page-aligned range of [n]
    pages that the first area does not start above, and with enough free memory
    for the pages, their tables and the objects: the call fails with EFAULT and
    changes nothing when the range overlaps an area; otherwise it returns 0, the
    list gets one area per page in its place and stays sorted, each area refers
    to new pages with one reference, whose frames were free and are distinct and
    no longer free, every address of the range translates to its frame, every
    other address translates as before, and the structures and the contents of
    the other pages are untouched.  A range that is not aligned is refused with EINVAL, and an empty
    range does nothing. *)
Theorem create_uvm_correct O r n u m pg l bs addr fl :
  mm_inv O (2 * n + r) u m pg l bs → (0 < n)%nat → addr mod PAGE_SIZE = 0 → 0 ≤ addr → addr + PAGE_SIZE * Z.of_nat n < 2 ^ 32 →
  2 * PAGE_SIZE * Z.of_nat n ≤ total bs → m ≠ NULL → m ≠ NODE → Forall (λ x, x.1 ≠ NULL) l →
  (∀ x l', l = x :: l' → v_start x.2 < addr + PAGE_SIZE * Z.of_nat n) →
  ((∃ x, x ∈ l ∧ overlaps addr (PAGE_SIZE * Z.of_nat n) x) → create_uvm m addr (PAGE_SIZE * Z.of_nat n) fl u = Ok (- EFAULT, u)) ∧
  ((∀ x, x ∈ l → ¬ overlaps addr (PAGE_SIZE * Z.of_nat n) x) →
   wp (create_uvm m addr (PAGE_SIZE * Z.of_nat n) fl u) (λ '(rc, u'), rc = 0 ∧ ∃ l1 l2 items bs',
     l = l1 ++ l2 ∧ length items = n ∧ created r u m pg l1 l2 bs addr fl items u' bs' ∧
     (∀ i v p q x, items !! i = Some (v, p, q) → 0 ≤ x < PAGE_SIZE →
       uva2kva pg (addr + PAGE_SIZE * Z.of_nat i + x) (mw u') = Ok (pa2kva (q + x))) ∧
     (∀ x q a, x ∈ l → held O u pg bs x q → in_page (q + KERN_BASE) a → bytes (mw u') a = bytes (mw u) a))) ∧
  (∀ a len, a mod PAGE_SIZE ≠ 0 → create_uvm m a len fl u = Ok (- EINVAL, u)) ∧ create_uvm m addr 0 fl u = Ok (0, u).
Proof.
  intros Hinv Hn Ham Ha0 Hab Htot Hm0 Hm1 Hl0 Hfirst.
  pose proof (create_result O r n u m pg l bs addr fl Hinv Hn Ham Ha0 Hab Htot Hm0 Hm1 Hl0 Hfirst) as Hres. split_and!.
  - intros (x & Hx & Ho). destruct Hres as [[_ E]|[Hno _]]; [done|by destruct (Hno x)].
  - intros Hno. destruct Hres as [[(x & Hx & Ho) _]|[_ Hw]]; [by destruct (Hno x)|]. eapply wp_mono; [exact Hw|].
    intros [rc u'] (-> & l1 & l2 & items & bs' & El & Hlen & Hc). split; [done|]. exists l1, l2, items, bs'. split_and!; try done.
    + intros i v p q x Hi Hx. by eapply created_translates.
    + intros x q a Hx Hq Ha. rewrite El in Hx. by eapply created_content.
  - intros a len Ha. unfold create_uvm. change PAGE_SIZE with (2 ^ 12) in *. rewrite (IS_ALIGNED_pow2 32 12 ltac:(lia) a).
    rewrite (proj2 (Z.eqb_neq _ 0) Ha). cbn [negb]. by rewrite !orb_true_r.
  - unfold create_uvm. rewrite !IS_ALIGNED_page by done. rewrite (proj2 (Z.eqb_neq m NULL)) by done. done.
Qed.
End create.

(** ** The bootstrap heap satisfies the interface *)
Record boot_H (O : list (Z * Z)) (r : nat) (w : world) : Prop := BootH {
  bh_J : boot_J w;
  bh_kernel : KERN_BASE ≤ bottom (bp w);
  bh_objects o : o ∈ O → o.1 + o.2 ≤ top (bp w);
  bh_room : top (bp w) + SIZEOF_UPAGES * Z.of_nat r ≤ bottom (bp w) + ssize (bp w);
  bh_end : bottom (bp w) + ssize (bp w) + SIZEOF_UPAGES < 2 ^ 32 }.

Lemma boot_kfree {K : Kmem} p w : simple_cur w = BootstrapSimple → kfree p w = Ok w.
Proof. intros Hc. unfold kfree. rewrite Hc. by destruct (negb (p =? NULL)). Qed.

Lemma boot_J_pa f w : boot_J (upd_pa f w) → live w ⊆ live (upd_pa f w) → boot_J w.
Proof. intros [Hc Hb Ht He Hl] Hs. split; try done. intros q Hq. by apply Hl, Hs. Qed.

#[global] Instance boot_room junk k O : KmemRoom (kmem junk (S k)) (boot_H O).
Proof.
  split; [intros r; split|..].
  - intros p w kk b Hp _ _ [HJ Hb Ho Hr He]. cbn [kmem kfree_]. rewrite boot_kfree by apply (bj_cur _ HJ). apply wp_ok. split; [done|]. split; try done.
    eapply boot_J_pa; [exact HJ|]. unfold live. cbn. rewrite dom_insert_L. set_solver.
  - intros w w' [HJ Hb Ho Hr He] H1 _ _ H2 H3 H4. assert (boot_J w') as HJ' by (destruct HJ; split; rewrite ?H1, ?H2, ?H4; done).
    split; rewrite ?H2; done.
  - intros r w [HJ Hb Ho Hr He]. split; try done. unfold SIZEOF_UPAGES in *. lia.
  - intros r w [[Hc Hb Ht He Hl] Hbk Ho Hr Hend]. unfold SIZEOF_MEM_BLOCK, SIZEOF_UPAGES in *. cbn [kmem kmalloc_].
    unfold kmalloc, simple_allocator_alloc.
    change (PAGE_SIZE / 2 <? 32) with false. change (negb (Z.land 0 GFP_ZERO =? 0)) with false. cbv iota. rewrite Hc. unfold simple_alloc.
    rewrite !wrap_small by (unfold fits; lia). rewrite (proj2 (Z.ltb_ge _ _)) by lia. msimpl.
    split; [unfold NULL; lia|]. split; [intros Hin; apply (Hl _ Hin); lia|]. split; [done|].
    intros kk b. split; unfold SIZEOF_UPAGES; wsimpl; cbn [top bottom ssize]; rewrite ?(wrap_small 32 (top (bp w) + 32)) by (unfold fits; lia); try done; try lia.
    + split; wsimpl; cbn [top bottom ssize]; unfold SIZEOF_MEM_BLOCK; rewrite ?(wrap_small 32 (top (bp w) + 32)) by (unfold fits; lia); try done; try lia.
      intros p. unfold live. wsimpl. rewrite dom_insert_L.
      intros [->%elem_of_singleton|Hin]%elem_of_union; [lia|]. apply Hl in Hin. lia.
    + intros o Hin. specialize (Ho o Hin). lia.
Qed.

#[global] Instance boot_objects junk k : ObjLaws (kmem junk (S k)) boot_H.
Proof.
  split; [apply _| |].
  - intros O r sz w Hsz [[Hc Hb Ht He Hl] Hbk Ho Hr Hend]. unfold SIZEOF_MEM_BLOCK in *.
    assert (0 < sz ≤ 40) as Hsz' by (clear -Hsz; unfold SIZEOF_MM, SIZEOF_UPAGES, SIZEOF_VMA in *; set_solver by lia). clear Hsz. unfold SIZEOF_UPAGES in *.
    unfold kmalloc, simple_allocator_alloc. rewrite (proj2 (Z.ltb_ge (PAGE_SIZE / 2) sz)) by (change (PAGE_SIZE / 2) with 2048; lia).
    rewrite Hc. unfold simple_alloc. rewrite !wrap_small by (unfold fits; lia). rewrite (proj2 (Z.ltb_ge _ _)) by lia. cbn [mbind res_bind].
    change (negb (Z.land 0 GFP_ZERO =? 0)) with false. cbv iota. apply wp_ok. split_and!; [lia| |done|].
    + intros a o Hin Ha Hao. specialize (Ho o Hin). unfold inside in *. cbn [fst snd] in *. lia.
    + split; cbn [bp upd_bp top bottom ssize]; unfold SIZEOF_UPAGES; rewrite ?(wrap_small 32 (top (bp w) + sz)) by (unfold fits; lia); try lia.
      * split; cbn [bp upd_bp top bottom ssize simple_cur]; unfold SIZEOF_MEM_BLOCK; rewrite ?(wrap_small 32 (top (bp w) + sz)) by (unfold fits; lia); try done; try lia.
        intros q Hq. specialize (Hl q Hq). lia.
      * intros o [->|Hin]%elem_of_cons; [cbn; lia|]. specialize (Ho o Hin). lia.
  - intros O1 p sz O2 r w [HJ Hb Ho Hr He]. rewrite boot_kfree by apply (bj_cur _ HJ). apply wp_ok. split; [done|].
    split; try done. intros o Hin. apply Ho. set_solver.
Qed.

Lemma alloc_aligned_correct_witness :
  wp (alloc_aligned_pages (K := kmem demo_junk 1) (Pages 0 0x2000 1) (2 ^ 20) boot_w) (λ '(r, pg, w), r = 0 ∧ paddr pg mod 2 ^ 20 = 0).
Proof.
  assert (boot_H [] 2 boot_w) as HJ by (split; [apply boot_w_J|by vm_compute|intros o []%elem_of_nil|by vm_compute|by vm_compute]).
  eapply wp_mono.
  - apply (alloc_aligned_correct (K := kmem demo_junk 1) (J := boot_H []) 0 (Pages 0 0x2000 1) 20 boot_w [(0x210000, 0xfdf0000)] HJ boot_w_inv);
      [lia|by vm_compute|done].
  - intros [[r pg] w] (H1 & H2 & _). done.
Defined.

(** An address space with one area, whose frame is at 0x150000. *)
Definition space_w : world := set_ent 0x80102000 0 0x1506c0 (set_ent 0x80101000 1 0x80102000 boot_w).
Definition space_u : uvm :=
  UvmState {[0x80103000 := Mm 0 0x80101000]} {[0x80103100 := Vma 0x400000 PAGE_SIZE 0 0x80103000 0x80103200]}
    {[0x80103200 := UPages (Pages 0x150000 PAGE_SIZE 0) 1]}
    (<[0x80103000 := Link 0x80103114 0x80103114]> (<[0x80103114 := Link 0x80103000 0x80103000]>
       (<[0x8010311c := Link 0x8010321c 0x8010321c]> {[0x8010321c := Link 0x8010311c 0x8010311c]})))
    0 None (CpuMmu [] []) 0 space_w.
Definition space_objects : list (Z * Z) := [(0x80103000, 24); (0x80103100, 36); (0x80103200, 40)].
Definition space_areas : list (Z * vma) := [(0x80103100, Vma 0x400000 PAGE_SIZE 0 0x80103000 0x80103200)].

Lemma space_ent i : 0 ≤ i < 1024 → ent (bytes space_w) 0x80101000 i = if i =? 1 then 0x80102000 else 0.
Proof.
  intros Hi. unfold space_w, set_ent, upd_bytes. cbn [bytes].
  rewrite (ent_other 0x80102000 0x80101000 _ i _ _ demo_bs) by (try done; by apply demo_page_free).
  rewrite ent_same by done. by destruct (i =? 1).
Qed.
Lemma space_pte va : fits 32 va → pte_of (bytes space_w) 0x80101000 va = if (0x400000 <=? va) && (va <? 0x401000) then 0x1506c0 else 0.
Proof.
  intros Hva. unfold pte_of. pose proof (PDX_bounds va). pose proof (PTX_bounds va) as Hpt. pose proof (page_of_indices va Hva) as E.
  rewrite space_ent by done. destruct (Z.eqb_spec (PDX va) 1) as [E1|E1]; cbn [Z.eqb].
  - unfold space_w, set_ent, upd_bytes. cbn [bytes]. rewrite ent_same by done.
    rewrite (ent_other 0x80101000 0x80102000 _ _ _ _ demo_bs) by (try done; by apply demo_page_free).
    rewrite E1 in E. destruct (Z.eqb_spec (PTX va) 0) as [E2|E2].
    + rewrite (proj2 (Z.leb_le _ _)), (proj2 (Z.ltb_lt _ _)) by (Z.to_euclidean_division_equations; lia). done.
    + change (ent (bytes boot_w) 0x80102000 (PTX va)) with 0.
      destruct (Z.leb_spec 0x400000 va), (Z.ltb_spec va 0x401000); try done. exfalso. Z.to_euclidean_division_equations; lia.
  - destruct (Z.leb_spec 0x400000 va), (Z.ltb_spec va 0x401000); try done. exfalso. Z.to_euclidean_division_equations; lia.
Qed.

Lemma space_tables : tables (bytes space_w) 0x80101000 demo_bs.
Proof.
  split; [by apply demo_page_free| |].
  - intros i Hi. rewrite space_ent by done. destruct (i =? 1); [|done]. intros _. split; [by apply demo_page_free|done].
  - intros i j Hi Hj. rewrite !space_ent by done.
    destruct (Z.eqb_spec i 1) as [->|], (Z.eqb_spec j 1) as [->|]; done.
Qed.

Lemma space_held x : x ∈ space_areas → held space_objects space_u 0x80101000 demo_bs x 0x150000.
Proof.
  intros ->%list_elem_of_singleton. split; cbn [fst snd v_start v_size v_flags v_pages]; try done.
  - split; [done| |done]. intros va Hva. unfold page_in, PAGE_SIZE in Hva. cbn [mw space_u]. rewrite space_pte by (unfold fits; lia).
    rewrite (proj2 (Z.leb_le _ _)), (proj2 (Z.ltb_lt _ _)) by lia. done.
  - intros y Hy. unfold frame, PAGE_SIZE in Hy. intros [Ha|Ha]%avail_cons; [lia|by apply avail_nil in Ha].
  - intros i Hi. cbn [mw space_u]. rewrite space_ent by done. by destruct (i =? 1).
  - split; [by vm_compute|]. apply (bool_decide_unpack _). by vm_compute.
  - apply (bool_decide_unpack _). by vm_compute.
  - apply (bool_decide_unpack _). by vm_compute.
Qed.

Lemma space_inv : mm_inv (H := boot_H) space_objects (2 * 3 + 0) space_u 0x80103000 0x80101000 space_areas demo_bs.
Proof.
  split.
  - by exists 0.
  - split; [|split; [apply boot_w_inv|apply space_tables]].
    split; [by destruct boot_w_J as [H1 H2 H3 H4 H5]; split|by vm_compute| |by vm_compute|by vm_compute].
    intros o [->|[->|[->|[]%elem_of_nil]%elem_of_cons]%elem_of_cons]%elem_of_cons; by vm_compute.
  - split; cbn [ul vmas upgs space_u]; rewrite ?dom_insert_L, ?dom_singleton_L.
    + intros a Ha. rewrite !elem_of_union, !elem_of_singleton in Ha.
      assert (node_of (0x80103000, 24) a ∨ node_of (0x80103100, 36) a ∨ node_of (0x80103200, 40) a) as [Hi|[Hi|Hi]]
        by (unfold node_of, SIZEOF_MM, SIZEOF_VMA, SIZEOF_UPAGES, NODE, SHARE_NODE, UPAGES_HEAD; cbn [fst snd]; lia);
        eexists; (split; [|exact Hi]); [left|right; left|right; right; left].
    + intros a ->%elem_of_singleton. right. left.
    + intros a ->%elem_of_singleton. right. right. left.
  - split.
    + split; [by vm_compute|]. apply (bool_decide_unpack _). by vm_compute.
    + by repeat constructor.
    + by vm_compute.
  - split; repeat constructor; by vm_compute.
  - intros i Hi Hne. cbn [mw space_u] in *. rewrite space_ent in Hne by done. destruct (Z.eqb_spec i 1) as [->|]; [|done].
    exists 0x400000. split_and!; [by unfold fits|by vm_compute|]. by rewrite space_pte by by unfold fits.
  - intros va Hva Hne. cbn [mw space_u] in Hne. rewrite space_pte in Hne by done. exists (0x80103100, Vma 0x400000 PAGE_SIZE 0 0x80103000 0x80103200).
    split; [left|]. unfold v_end, PAGE_SIZE. cbn. destruct (Z.leb_spec 0x400000 va), (Z.ltb_spec va 0x401000); try done; lia.
  - intros x Hx. exists 0x150000. by apply space_held.
  - apply (bool_decide_unpack _). by vm_compute.
  - intros x y ->%list_elem_of_singleton ->%list_elem_of_singleton. done.
  - split; [left|done].
  - by left.
Qed.

Lemma create_uvm_correct_witness :
  wp (create_uvm (K := kmem demo_junk 1) 0x80103000 0x500000 (PAGE_SIZE * 3) VMA_WRITE space_u) (λ '(rc, u'), rc = 0 ∧
    ∃ q, uva2kva (K := kmem demo_junk 1) 0x80101000 0x501234 (mw u') = Ok (pa2kva (q + 0x234))) ∧
  create_uvm (K := kmem demo_junk 1) 0x80103000 0x3fe000 (PAGE_SIZE * 3) VMA_WRITE space_u = Ok (- EFAULT, space_u).
Proof.
  split.
  - destruct (create_uvm_correct (K := kmem demo_junk 1) space_objects 0 3 space_u 0x80103000 0x80101000 space_areas demo_bs 0x500000 VMA_WRITE space_inv)
      as (_ & Hok & _); [lia|done|done|done|done|done|done|by repeat constructor|by intros x l' [= <- <-]|].
    eapply wp_mono; [apply Hok|].
    + intros x ->%list_elem_of_singleton [H1 H2]. by vm_compute in H1, H2.
    + intros [rc u'] (-> & l1 & l2 & items & bs' & _ & Hlen & _ & Ht & _). split; [done|].
      destruct (lookup_lt_is_Some_2 items 1) as [[[v p] q] Hi]; [lia|]. exists q.
      assert (0 ≤ 0x234 < PAGE_SIZE) as Hx by (unfold PAGE_SIZE; lia). specialize (Ht 1%nat v p q 0x234 Hi Hx).
      change (0x500000 + PAGE_SIZE * Z.of_nat 1 + 0x234) with 0x501234 in Ht. exact Ht.
  - destruct (create_uvm_correct (K := kmem demo_junk 1) space_objects 0 3 space_u 0x80103000 0x80101000 space_areas demo_bs 0x3fe000 VMA_WRITE space_inv)
      as (Hbad & _); [lia|done|done|done|done|done|done|by repeat constructor|by intros x l' [= <- <-]|].
    apply Hbad. eexists. split; [left|]. by split; vm_compute.
Defined.
