(* ===== verification/SlabHeap.v ===== *)
(** * The slab allocator as the heap of the address spaces

    The interface [ObjLaws] of Areas for the allocator that [simple_allocator_init] of
    kern/mm/vmm/simple.c installs: as long as the pages of the two size classes in
    question have free slots, and each page holds an object that stays, objects
    come and go without a page being taken or given back. *)
From S2P Require Import Prelude Util DList MmState Libc Palloc Pmm Simple Vmm Init Cp0 Pgtable Sync Uvm Areas.

(** The classes of the structures: 24 and 32 bytes, and 36 and 40 bytes. *)
Definition heap_classes : list Z := [0x20; 0x40].

(** The free slots of the class [s]. *)
Definition page_room (s : Z) (d : alloced_page) : Z := if ap_size d =? s then PAGE_SIZE / s - ap_num d else 0.
Fixpoint room (s : Z) (l : list (Z * alloced_page)) : Z :=
  match l with [] => 0 | nd :: l => page_room s nd.2 + room s l end.

(** The address [a] belongs to the page. *)
Definition covers (d : alloced_page) (a : Z) : Prop := ap_paddr d ≤ a < ap_paddr d + PAGE_SIZE.

(** The pages [l] hold the objects [O] and the block structures [B]. *)
Record heap_ok (O : list (Z * Z)) (r : nat) (B : gset Z) (l : list (Z * alloced_page)) : Prop := HeapOk {
  ho_page nd : nd ∈ l → page_ok nd.2 ∧ KERN_BASE ≤ ap_paddr nd.2;
  ho_apart i j x y a : l !! i = Some x → l !! j = Some y → covers x.2 a → covers y.2 a → i = j;
  ho_objects o : o ∈ O → ∃ nd, nd ∈ l ∧ holds nd.2 o.1 ∧ o.2 ≤ ap_size nd.2;
  ho_blocks p : p ∈ B → ∃ nd, nd ∈ l ∧ holds nd.2 p;
  ho_nodup : NoDup O.*1;
  ho_disjoint o : o ∈ O → o.1 ∉ B;
  ho_pin nd : nd ∈ l → ∃ x, holds nd.2 x ∧ x ∉ O.*1 ∧ x ∉ B;
  ho_room s : s ∈ heap_classes → Z.of_nat r ≤ room s l }.

(** ** Pages *)
Lemma held_slot d o : page_ok d → holds d o → covers d o ∧ o + ap_size d ≤ ap_paddr d + PAGE_SIZE ∧ (ap_size d | o - ap_paddr d) ∧ 0 < ap_size d.
Proof.
  intros Hd (i & Hi & _ & ->). destruct (class_leap _ (po_size d Hd)) as (leap & Es & El & Hl0 & Hld & Hs & _). rewrite El in Hi.
  pose proof (slot_in_page leap i Hl0 Hld Hi) as Hin. destruct Hi as [Hi0 Hdv]. unfold covers. rewrite Es. unfold BIT_SIZE, PAGE_SIZE in *.
  split_and!; [lia|lia|lia| |lia]. replace (ap_paddr d + 16 * i - ap_paddr d) with (16 * i) by lia. by apply Z.mul_divide_mono_l.
Qed.

(** Two slots of a page do not overlap. *)
Lemma slots_apart s x y a : 0 < s → (s | x) → (s | y) → x ≤ a < x + s → y ≤ a < y + s → x = y.
Proof. intros Hs [k ->] [j ->] H1 H2. assert (k = j) as ->; [|done]. nia. Qed.

Lemma page_room_bounds s d : s ∈ heap_classes → page_ok d → 0 ≤ page_room s d ∧ (0 < page_room s d ↔ suits s d = true).
Proof.
  intros Hs Hd. unfold page_room, suits. rewrite (Z.eqb_sym s). destruct (Z.eqb_spec (ap_size d) s) as [E|E]; cbn [andb]; [|split; [lia|split; [lia|done]]].
  destruct (class_leap _ (po_size d Hd)) as (leap & Es & El & Hl0 & Hld & Hsz & _). pose proof (page_num_bounds d leap Hd Es Hl0 Hld) as Hn.
  assert (s = 0x20 ∨ s = 0x40) as Hcl by (unfold heap_classes in Hs; set_solver). unfold BIT_SIZE, PAGE_SIZE in *. rewrite E in *.
  assert (256 / leap = 4096 / s) as Eq by (destruct Hcl as [-> | ->]; assert (leap = 2 ∨ leap = 4) as [-> | ->] by lia; (done || lia)). rewrite Eq in Hn.
  assert (4096 / s * s = 4096 ∧ 0 < 4096 / s ≤ 128) as [Em Eb] by (destruct Hcl as [-> | ->]; done).
  rewrite (wrap_small 32 (ap_num d)) by (unfold fits; lia). rewrite wrap_small by (unfold fits; nia). rewrite Z.ltb_lt. split; [lia|]. nia.
Qed.

Lemma room_app s l1 l2 : room s (l1 ++ l2) = room s l1 + room s l2.
Proof. induction l1 as [|nd l1 IH]; cbn; [done|]. rewrite IH. lia. Qed.
Lemma room_nonneg s l : s ∈ heap_classes → (∀ nd, nd ∈ l → page_ok nd.2) → 0 ≤ room s l.
Proof.
  intros Hs. induction l as [|nd l IH]; intros Hp; cbn; [lia|]. destruct (page_room_bounds s nd.2 Hs) as [H1 _]; [apply Hp; left|].
  specialize (IH (λ x Hx, Hp x (list_elem_of_further _ _ _ Hx))). lia.
Qed.

(** The first page of the class with a free slot. *)
Lemma first_page s l : s ∈ heap_classes → (∀ nd, nd ∈ l → page_ok nd.2) → 0 < room s l →
  ∃ l1 a d l2, l = l1 ++ (a, d) :: l2 ∧ Forall (λ nd, suits s nd.2 = false) l1 ∧ suits s d = true.
Proof.
  intros Hs. induction l as [|[a d] l IH]; intros Hp Hr; cbn in Hr; [lia|]. destruct (page_room_bounds s d Hs) as [H1 H2]; [apply (Hp (a, d)); left|].
  destruct (suits s d) eqn:E; [by exists [], a, d, l|]. destruct IH as (l1 & a' & d' & l2 & -> & Hf & E'); [intros nd Hnd; apply Hp; by right| |].
  - destruct (Z.eq_dec (page_room s d) 0) as [E0|]; [lia|]. exfalso. assert (0 < page_room s d) as Hpos by lia. by apply H2 in Hpos.
  - exists ((a, d) :: l1), a', d', l2. split_and!; [done|by constructor|done].
Qed.

(** Two objects of a page. *)
Lemma cnt_two f l i j : NoDup l → i ∈ l → j ∈ l → i ≠ j → f i = true → f j = true → 2 ≤ cnt f l.
Proof.
  assert (∀ k, 0 ≤ cnt f k) as Hpos by (intros k; induction k as [|x k IH]; cbn; [lia|]; destruct (f x); cbn; lia).
  assert (∀ k x, x ∈ k → f x = true → 1 ≤ cnt f k) as Hone.
  { intros k x. induction k as [|y k IH]; [by intros ?%elem_of_nil|]. intros [->|Hx]%elem_of_cons Hf; cbn; [rewrite Hf; specialize (Hpos k); cbn; lia|].
    specialize (IH Hx Hf). destruct (f y); cbn; lia. }
  intros Hnd. induction l as [|x l IH]; [by intros ?%elem_of_nil|]. apply NoDup_cons in Hnd as [Hx Hnd].
  intros [->|Hi]%elem_of_cons [->|Hj]%elem_of_cons Hne Fi Fj; cbn; [done| | |].
  - rewrite Fi. pose proof (Hone l j Hj Fj). cbn. lia.
  - rewrite Fj. pose proof (Hone l i Hi Fi). cbn. lia.
  - specialize (IH Hnd Hi Hj Hne Fi Fj). destruct (f x); cbn; lia.
Qed.

Lemma held_two d x y : page_ok d → holds d x → holds d y → x ≠ y → ap_num d ≠ 1.
Proof.
  intros Hd (i & Hi & Fi & ->) (j & Hj & Fj & ->) Hne. destruct (class_leap _ (po_size d Hd)) as (leap & Es & El & Hl0 & Hld & _ & _).
  rewrite (po_num d Hd), El in *. pose proof (cnt_two (sbit (ap_status d)) (slots leap) i j (NoDup_slots leap Hl0)) as H2.
  assert (2 ≤ cnt (sbit (ap_status d)) (slots leap)); [|lia]. apply H2; [by apply elem_of_slots|by apply elem_of_slots| |done|done]. by intros ->.
Qed.

Lemma in_page_covers d o : page_ok d → Simple.in_page o d = true ↔ covers d o.
Proof.
  intros Hd. pose proof (po_addr d Hd) as [H1 H2]. unfold Simple.in_page, covers. rewrite wrap_small by (unfold fits, PAGE_SIZE in *; lia).
  rewrite andb_true_iff, Z.leb_le, Z.ltb_lt. done.
Qed.

(** ** A slot is taken or given back *)

(** The pages with another descriptor [d'] in place of [d]. *)
Section change.
Context (O : list (Z * Z)) (B : gset Z) (l1 l2 : list (Z * alloced_page)) (a : Z) (d d' : alloced_page).
Context (Ed : ap_paddr d' = ap_paddr d) (Es : ap_size d' = ap_size d) (Hd' : page_ok d').

(** A page in the old list and its place in the new one. *)
Lemma change_lookup i x : (l1 ++ (a, d') :: l2) !! i = Some x → ∃ y, (l1 ++ (a, d) :: l2) !! i = Some y ∧ ap_paddr x.2 = ap_paddr y.2 ∧ ap_size x.2 = ap_size y.2 ∧
  (x = y ∨ i = length l1 ∧ x = (a, d') ∧ y = (a, d)).
Proof.
  intros Hx. destruct (decide (i = length l1)) as [->|Hne].
  - rewrite list_lookup_middle in Hx by done. injection Hx as <-. exists (a, d). rewrite list_lookup_middle by done. split_and!; [done|done|done|by right].
  - exists x. assert ((l1 ++ (a, d) :: l2) !! i = (l1 ++ (a, d') :: l2) !! i) as ->; [|split_and!; [done|done|done|by left]].
    destruct (decide (i < length l1)%nat); [by rewrite !lookup_app_l by done|]. rewrite !lookup_app_r by lia. by destruct (i - length l1)%nat as [|k] eqn:E; [lia|].
Qed.
Lemma change_elem x : x ∈ l1 ++ (a, d) :: l2 → x = (a, d) ∨ x ∈ l1 ++ (a, d') :: l2.
Proof. rewrite !elem_of_app, !elem_of_cons. tauto. Qed.
Lemma change_new : (a, d') ∈ l1 ++ (a, d') :: l2.
Proof. rewrite elem_of_app, elem_of_cons. auto. Qed.

Lemma change_page r nd : heap_ok O r B (l1 ++ (a, d) :: l2) → nd ∈ l1 ++ (a, d') :: l2 → page_ok nd.2 ∧ KERN_BASE ≤ ap_paddr nd.2.
Proof.
  intros Hh (i & Hi)%list_elem_of_lookup. destruct (change_lookup i nd Hi) as (y & Hy & Ep & _ & Hc).
  destruct (ho_page _ _ _ _ Hh y) as [P1 P2]; [by eapply list_elem_of_lookup_2|]. rewrite Ep. split; [|done]. by destruct Hc as [->|(_ & -> & _)].
Qed.
Lemma change_apart r i j x y b : heap_ok O r B (l1 ++ (a, d) :: l2) → (l1 ++ (a, d') :: l2) !! i = Some x → (l1 ++ (a, d') :: l2) !! j = Some y →
  covers x.2 b → covers y.2 b → i = j.
Proof.
  intros Hh Hx Hy. destruct (change_lookup i x Hx) as (x' & Hx' & Ex & _). destruct (change_lookup j y Hy) as (y' & Hy' & Ey & _).
  unfold covers. rewrite Ex, Ey. by apply (ho_apart _ _ _ _ Hh i j x' y').
Qed.
Lemma change_held o : (∀ x, holds d x → x ≠ o → holds d' x) → ∀ x, x ≠ o → (∃ nd, nd ∈ l1 ++ (a, d) :: l2 ∧ holds nd.2 x) → ∃ nd, nd ∈ l1 ++ (a, d') :: l2 ∧ holds nd.2 x.
Proof. intros Hk x Hne (nd & Hnd & Hx). apply change_elem in Hnd as [->|Hnd]; [exists (a, d')|by exists nd]. split; [apply change_new|by apply Hk]. Qed.
Lemma change_object o : (∀ x, holds d x → x ≠ o → holds d' x) → ∀ x z, x ≠ o → (∃ nd, nd ∈ l1 ++ (a, d) :: l2 ∧ holds nd.2 x ∧ z ≤ ap_size nd.2) →
  ∃ nd, nd ∈ l1 ++ (a, d') :: l2 ∧ holds nd.2 x ∧ z ≤ ap_size nd.2.
Proof.
  intros Hk x z Hne (nd & Hnd & Hx & Hz). apply change_elem in Hnd as [->|Hnd]; [exists (a, d')|by exists nd].
  split_and!; [apply change_new|by apply Hk|cbn in *; lia].
Qed.
Lemma change_room s : room s (l1 ++ (a, d') :: l2) = room s (l1 ++ (a, d) :: l2) + (if ap_size d =? s then ap_num d - ap_num d' else 0).
Proof. rewrite !room_app. cbn. unfold page_room. rewrite Es. destruct (ap_size d =? s); lia. Qed.
End change.

(** A slot that is not in use belongs to no object. *)
Lemma unheld O r B l1 a d l2 p : heap_ok O r B (l1 ++ (a, d) :: l2) → covers d p → ¬ holds d p → ∀ nd, nd ∈ l1 ++ (a, d) :: l2 → ¬ holds nd.2 p.
Proof.
  intros Hh Hc Hn nd Hnd Hp. apply list_elem_of_lookup in Hnd as [i Hi].
  assert (page_ok nd.2) as Hok by (apply (ho_page _ _ _ _ Hh); by eapply list_elem_of_lookup_2). destruct (held_slot _ _ Hok Hp) as [Hc' _].
  assert (i = length l1) as -> by (apply (ho_apart _ _ _ _ Hh i (length l1) nd (a, d) p Hi); [by rewrite list_lookup_middle|done|done]).
  rewrite list_lookup_middle in Hi by done. injection Hi as <-. done.
Qed.

Section take.
Context (O : list (Z * Z)) (r : nat) (B : gset Z) (l1 l2 : list (Z * alloced_page)) (a : Z) (d d' : alloced_page) (p sz s : Z).
Context (Hh : heap_ok O (S r) B (l1 ++ (a, d) :: l2)) (Hs : s ∈ heap_classes) (Hsd : ap_size d = s) (Hle : 0 < sz ≤ s).
Context (Ed : ap_paddr d' = ap_paddr d) (Es : ap_size d' = ap_size d) (En : ap_num d' = ap_num d + 1) (Hd' : page_ok d').
Context (Hp1 : ap_paddr d ≤ p) (Hp2 : p + s ≤ ap_paddr d + PAGE_SIZE) (Hdv : (s | p - ap_paddr d)) (Hnew : ¬ holds d p).
Context (Hhold : ∀ o, holds d' o ↔ holds d o ∨ o = p).

Lemma take_fresh nd : nd ∈ l1 ++ (a, d) :: l2 → ¬ holds nd.2 p.
Proof. eapply unheld; [exact Hh|unfold covers; lia|done]. Qed.
Lemma take_unused : p ∉ O.*1 ∧ p ∉ B.
Proof.
  split; intros Hin.
  - apply list_elem_of_fmap in Hin as (o & E & Ho). destruct (ho_objects _ _ _ _ Hh o Ho) as (nd & Hnd & Hx & _). rewrite <-E in Hx. by apply (take_fresh nd).
  - destruct (ho_blocks _ _ _ _ Hh p Hin) as (nd & Hnd & Hx). by apply (take_fresh nd).
Qed.
Lemma take_apart b o : o ∈ O → inside b (p, sz) → ¬ inside b o.
Proof.
  unfold inside. cbn [fst snd]. intros Ho Hb Hbo. destruct (ho_objects _ _ _ _ Hh o Ho) as (nd & Hnd & Hx & Hz).
  pose proof (proj1 (ho_page _ _ _ _ Hh nd Hnd)) as Hok. destruct (held_slot _ _ Hok Hx) as (C1 & C2 & C3 & C4). apply list_elem_of_lookup in Hnd as [i Hi].
  assert (i = length l1) as -> by (apply (ho_apart _ _ _ _ Hh i (length l1) nd (a, d) b Hi); [by rewrite list_lookup_middle|unfold covers in *; lia|cbn; unfold covers in *; lia]).
  rewrite list_lookup_middle in Hi by done. injection Hi as <-. cbn [snd] in *. rewrite Hsd in *.
  assert (o.1 - ap_paddr d = p - ap_paddr d) as E by (apply (slots_apart s _ _ (b - ap_paddr d)); (done || lia)). apply Hnew. by replace p with o.1 by lia.
Qed.

Lemma take_keeps x : holds d x → x ≠ p → holds d' x.
Proof. intros Hx _. apply Hhold. by left. Qed.
Lemma take_room s' : s' ∈ heap_classes → Z.of_nat r ≤ room s' (l1 ++ (a, d') :: l2).
Proof. intros Hs'. pose proof (ho_room _ _ _ _ Hh s' Hs'). rewrite (change_room l1 l2 a d d' Es s'), En. destruct (ap_size d =? s'); lia. Qed.
Lemma take_pin nd : nd ∈ l1 ++ (a, d') :: l2 → ∃ x, holds nd.2 x ∧ x ≠ p ∧ x ∉ O.*1 ∧ x ∉ B.
Proof.
  assert (∀ nd', nd' ∈ l1 ++ (a, d) :: l2 → ∃ x, holds nd'.2 x ∧ x ≠ p ∧ x ∉ O.*1 ∧ x ∉ B) as Hold.
  { intros nd' Hnd'. destruct (ho_pin _ _ _ _ Hh nd' Hnd') as (x & Hx & N1 & N2). exists x. split_and!; [done| |done|done]. intros ->. by apply (take_fresh nd'). }
  intros Hnd. rewrite elem_of_app, elem_of_cons in Hnd. destruct Hnd as [Hnd|[->|Hnd]]; [apply Hold, elem_of_app; by left| |apply Hold, elem_of_app; right; by right].
  destruct (Hold (a, d)) as (x & Hx & Hn); [apply elem_of_app; right; left|]. exists x. split; [|done]. cbn in *. apply Hhold. by left.
Qed.

(** As an object. *)
Lemma take_object : heap_ok ((p, sz) :: O) r B (l1 ++ (a, d') :: l2).
Proof.
  destruct take_unused as [U1 U2]. split.
  - intros nd Hnd. by eapply change_page.
  - intros i j x y b. by eapply change_apart.
  - intros o [->|Ho]%elem_of_cons.
    + exists (a, d'). split_and!; [apply change_new|apply Hhold; by right|cbn; lia].
    + apply (change_object l1 l2 a d d' Es p take_keeps); [|by apply (ho_objects _ _ _ _ Hh)]. intros E. apply U1, list_elem_of_fmap. by exists o.
  - intros q Hq. apply (change_held l1 l2 a d d' p take_keeps); [by intros ->|by apply (ho_blocks _ _ _ _ Hh)].
  - rewrite fmap_cons. apply NoDup_cons. split; [done|apply Hh].
  - intros o [->|Ho]%elem_of_cons; [done|by apply (ho_disjoint _ _ _ _ Hh)].
  - intros nd Hnd. destruct (take_pin nd Hnd) as (x & Hx & N1 & N2 & N3). exists x. split_and!; [done| |done]. rewrite fmap_cons, not_elem_of_cons. done.
  - apply take_room.
Qed.

(** As a block structure. *)
Lemma take_block : heap_ok O r ({[p]} ∪ B) (l1 ++ (a, d') :: l2).
Proof.
  destruct take_unused as [U1 U2]. split.
  - intros nd Hnd. by eapply change_page.
  - intros i j x y b. by eapply change_apart.
  - intros o Ho. apply (change_object l1 l2 a d d' Es p take_keeps); [|by apply (ho_objects _ _ _ _ Hh)]. intros E. apply U1, list_elem_of_fmap. by exists o.
  - intros q [->%elem_of_singleton|Hq]%elem_of_union.
    + exists (a, d'). split; [apply change_new|]. apply Hhold. by right.
    + apply (change_held l1 l2 a d d' p take_keeps); [by intros ->|by apply (ho_blocks _ _ _ _ Hh)].
  - apply Hh.
  - intros o Ho [E%elem_of_singleton|Hq]%elem_of_union; [|by apply (ho_disjoint _ _ _ _ Hh o)]. apply U1, list_elem_of_fmap. by exists o.
  - intros nd Hnd. destruct (take_pin nd Hnd) as (x & Hx & N1 & N2 & N3). exists x. split_and!; [done|done|set_solver].
  - apply take_room.
Qed.
End take.

Lemma give_ok O r B O' (B' : gset Z) l1 l2 a d d' p : heap_ok O r B (l1 ++ (a, d) :: l2) →
  ap_paddr d' = ap_paddr d → ap_size d' = ap_size d → ap_num d' = ap_num d - 1 → page_ok d' → (∀ o, holds d' o ↔ holds d o ∧ o ≠ p) →
  (∀ o, o ∈ O' → o ∈ O ∧ o.1 ≠ p) → NoDup O'.*1 → B' ⊆ B → p ∉ B' → p ∈ O.*1 ∨ p ∈ B → heap_ok O' r B' (l1 ++ (a, d') :: l2).
Proof.
  intros Hh Ed Es En Hd' Hhold HO Hnd HB Hp Hused. assert (∀ x, holds d x → x ≠ p → holds d' x) as Hk by (intros x Hx Hne; by apply Hhold).
  split.
  - intros nd. by eapply change_page.
  - intros i j x y b. by eapply change_apart.
  - intros o Ho. destruct (HO o Ho) as [Ho1 Ho2]. apply (change_object l1 l2 a d d' Es p Hk); [done|by apply (ho_objects _ _ _ _ Hh)].
  - intros q Hq. apply (change_held l1 l2 a d d' p Hk); [by intros ->|]. apply (ho_blocks _ _ _ _ Hh). by apply HB.
  - done.
  - intros o Ho Hq. apply (ho_disjoint _ _ _ _ Hh o); [by apply HO|by apply HB].
  - assert (∀ nd', nd' ∈ l1 ++ (a, d) :: l2 → ∃ x, holds nd'.2 x ∧ x ≠ p ∧ x ∉ O'.*1 ∧ x ∉ B') as Hold.
    { intros nd' Hnd'. destruct (ho_pin _ _ _ _ Hh nd' Hnd') as (x & Hx & N1 & N2). exists x. split_and!; [done|by intros ->; destruct Hused| |set_solver].
      intros (o & -> & Ho)%list_elem_of_fmap. apply N1, list_elem_of_fmap. exists o. split; [done|by apply HO]. }
    intros nd Hnd'. rewrite elem_of_app, elem_of_cons in Hnd'. destruct Hnd' as [Hn|[->|Hn]];
      [destruct (Hold nd) as (x & X1 & _ & X2); [apply elem_of_app; by left|by exists x]| |destruct (Hold nd) as (x & X1 & _ & X2); [apply elem_of_app; right; by right|by exists x]].
    destruct (Hold (a, d)) as (x & X1 & X2 & X3); [apply elem_of_app; right; left|]. exists x. split; [|done]. by apply Hk.
  - intros s Hs. pose proof (ho_room _ _ _ _ Hh s Hs). rewrite (change_room l1 l2 a d d' Es s), En. destruct (ap_size d =? s); lia.
Qed.

(** ** The operations *)
Section ops.
Context {K : Kmem}.

Lemma slab_take O r B l w sz : srep (sl w) l → heap_ok O (S r) B l → sz ∈ [SIZEOF_MM; SIZEOF_VMA; SIZEOF_UPAGES; SIZEOF_MEM_BLOCK] →
  wp (slab_alloc sz 0 w) (λ '(p, w'), ∃ l1 a d l2 d', l = l1 ++ (a, d) :: l2 ∧ w' = with_apg a d' w ∧ ap_paddr d' = ap_paddr d ∧ covers d p ∧
    srep (sl w') (l1 ++ (a, d') :: l2) ∧ KERN_BASE ≤ p ∧ (∀ b o, o ∈ O → inside b (p, sz) → ¬ inside b o) ∧ p ∉ B ∧
    heap_ok ((p, sz) :: O) r B (l1 ++ (a, d') :: l2) ∧ heap_ok O r ({[p]} ∪ B) (l1 ++ (a, d') :: l2)).
Proof.
  intros Hr Hh Hsz.
  assert (∃ s, class_of sz = Ok s ∧ s ∈ heap_classes ∧ 0 < sz ≤ s ∧ sz ≤ PAGE_SIZE) as (s & Hcl & Hs & Hle & Hpg).
  { rewrite !elem_of_cons, elem_of_nil in Hsz. destruct Hsz as [->|[->|[->|[->|[]]]]];
      [exists 0x20|exists 0x40|exists 0x40|exists 0x20]; (split_and!; [by vm_compute|unfold heap_classes; set_solver|by vm_compute|by vm_compute|by vm_compute]). }
  destruct (first_page s l Hs) as (l1 & a & d & l2 & -> & Hl1 & Hsuit); [intros nd Hnd; by apply (ho_page _ _ _ _ Hh)|pose proof (ho_room _ _ _ _ Hh s Hs); lia|].
  destruct (ho_page _ _ _ _ Hh (a, d)) as [Hok Hkb]; [apply change_new|]. cbn in Hok, Hkb.
  assert (ap_size d = s) as Es by (unfold suits in Hsuit; apply andb_true_iff in Hsuit as [E%Z.eqb_eq _]; done).
  eapply wp_mono; [apply (slab_alloc_ok w l1 a d l2 sz 0 s Hr Hok); (done || lia)|].
  intros [p w'] (d' & -> & Hr' & Hd' & E1 & E2 & E3 & _ & P1 & P2 & P3 & Hnew & Hhold).
  assert (covers d p) as Hcov by (unfold covers; lia).
  assert (p ∉ O.*1 ∧ p ∉ B) as [_ Hun] by (eapply take_unused; [exact Hh|..]; (done || lia)).
  exists l1, a, d, l2, d'. split_and!; try done; [lia|..].
  - intros b o. eapply take_apart; [exact Hh|..]; (done || lia).
  - eapply take_object; [exact Hh|..]; (done || lia).
  - eapply take_block; [exact Hh|..]; (done || lia).
Qed.

Lemma slab_give O r B l w p : srep (sl w) l → heap_ok O r B l → p ∈ O.*1 ∨ p ∈ B →
  wp (slab_free p w) (λ w', ∃ l1 a d l2 d', l = l1 ++ (a, d) :: l2 ∧ w' = with_apg a d' w ∧ ap_paddr d' = ap_paddr d ∧
    srep (sl w') (l1 ++ (a, d') :: l2) ∧ ∀ O' B', (∀ o, o ∈ O' → o ∈ O ∧ o.1 ≠ p) → NoDup O'.*1 → B' ⊆ B → p ∉ B' → heap_ok O' r B' (l1 ++ (a, d') :: l2)).
Proof.
  intros Hr Hh Hp. assert (∃ nd, nd ∈ l ∧ holds nd.2 p) as ([a d] & (l1 & l2 & ->)%list_elem_of_split & Hold).
  { destruct Hp as [(o & -> & Ho)%list_elem_of_fmap|Hp]; [|by apply (ho_blocks _ _ _ _ Hh)]. destruct (ho_objects _ _ _ _ Hh o Ho) as (nd & Hnd & Hx & _). by exists nd. }
  cbn [snd] in Hold. destruct (ho_page _ _ _ _ Hh (a, d)) as [Hok _]; [apply change_new|]. cbn in Hok. destruct (held_slot _ _ Hok Hold) as (Hcov & _).
  destruct (ho_pin _ _ _ _ Hh (a, d)) as (x & Hx & N1 & N2); [apply change_new|]. cbn in Hx.
  eapply wp_mono; [apply (slab_free_ok w l1 a d l2 p Hr Hok Hold)|].
  - eapply held_two; [done|exact Hold|exact Hx|]. intros ->. by destruct Hp.
  - apply Forall_forall. intros nd Hnd. destruct (Simple.in_page p nd.2) eqn:E; [|done]. exfalso.
    assert (nd ∈ l1 ++ (a, d) :: l2) as Hin by (apply elem_of_app; by left). apply in_page_covers in E; [|by apply (ho_page _ _ _ _ Hh)].
    apply list_elem_of_lookup in Hnd as [i Hi]. pose proof (lookup_lt_Some _ _ _ Hi) as Hlt.
    assert (i = length l1); [|lia]. apply (ho_apart _ _ _ _ Hh i (length l1) nd (a, d) p); [by rewrite lookup_app_l|by rewrite list_lookup_middle|done|done].
  - intros w' (d' & -> & Hr' & Hd' & E1 & E2 & E3 & Hhold). exists l1, a, d, l2, d'. split_and!; try done.
    intros O' B' H1 H2 H3 H4. eapply give_ok; [exact Hh|done..].
Qed.
End ops.

(** ** The interface *)
Definition end_nodes (w : world) : gset Z := {[phead (pa w); ptail (pa w)]}.

Record slab_H (O : list (Z * Z)) (r : nat) (w : world) : Prop := SlabH {
  sh_cur : simple_cur w = SlabSimple;
  sh_heap : ∃ l, srep (sl w) l ∧ heap_ok O r (live w ∖ end_nodes w) l ∧ ∀ (nd : Z * alloced_page) e, nd ∈ l → e ∈ end_nodes w → ¬ covers nd.2 e }.

(** The end nodes stay outside the pages. *)
Lemma ends_outside l1 a (d d' : alloced_page) l2 (E : gset Z) : ap_paddr d' = ap_paddr d → (∀ (nd : Z * alloced_page) e, nd ∈ l1 ++ (a, d) :: l2 → e ∈ E → ¬ covers nd.2 e) →
  ∀ (nd : Z * alloced_page) e, nd ∈ l1 ++ (a, d') :: l2 → e ∈ E → ¬ covers nd.2 e.
Proof.
  intros Ed He nd e Hnd Hin. rewrite elem_of_app, elem_of_cons in Hnd. destruct Hnd as [Hnd|[->|Hnd]].
  - apply He; [apply elem_of_app; by left|done].
  - pose proof (He (a, d) e (change_new l1 l2 a d) Hin) as Hc. unfold covers in *. cbn in *. by rewrite Ed.
  - apply He; [apply elem_of_app; right; by right|done].
Qed.

Lemma slab_H_held O r w p : slab_H O r w → p ∈ O.*1 ∨ p ∈ live w ∖ end_nodes w → p ≠ NULL.
Proof.
  intros [_ (l & _ & Hh & _)] Hp. assert (∃ nd, nd ∈ l ∧ holds nd.2 p) as (nd & Hnd & Hx).
  { destruct Hp as [(o & -> & Ho)%list_elem_of_fmap|Hp]; [|by apply (ho_blocks _ _ _ _ Hh)]. destruct (ho_objects _ _ _ _ Hh o Ho) as (nd & Hnd & Hx & _). by exists nd. }
  destruct (ho_page _ _ _ _ Hh nd Hnd) as [Hok Hkb]. destruct (held_slot _ _ Hok Hx) as [Hc _]. unfold covers, NULL, KERN_BASE in *. lia.
Qed.

Section instances.
Context (junk : Z → world → link * pages) (k : nat).

(** Freeing something that [w] does not count any more. *)
Lemma slab_kfree O r w w0 p O' : slab_H O r w0 → sl w0 = sl w → simple_cur w0 = simple_cur w → end_nodes w0 = end_nodes w →
  p ∈ O.*1 ∨ p ∈ live w0 ∖ end_nodes w0 → (∀ o, o ∈ O' → o ∈ O ∧ o.1 ≠ p) → NoDup O'.*1 → live w ∖ end_nodes w ⊆ live w0 ∖ end_nodes w0 → p ∉ live w ∖ end_nodes w →
  wp (kfree (K := kmem junk k) p w) (λ w', same_but_heap w w' ∧ slab_H O' r w').
Proof.
  intros HH Esl Ec Ee Hp HO Hnd Hsub Hpn. pose proof (slab_H_held O r w0 p HH Hp) as Hne. destruct HH as [Hc (l & Hr & Hh & He)].
  unfold kfree. rewrite (proj2 (Z.eqb_neq p NULL) Hne). cbn [negb]. rewrite <-Ec, Hc. cbn [impl_free]. rewrite Esl in Hr. rewrite Ee in *.
  eapply wp_mono; [by apply (slab_give O r (live w0 ∖ end_nodes w) l w p Hr Hh)|]. intros w' (l1 & a & d & l2 & d' & -> & -> & Ed & Hr' & Hk).
  split; [done|]. split; [cbn; congruence|]. exists (l1 ++ (a, d') :: l2). split_and!; [done|by apply (Hk O' (live w ∖ end_nodes w))|by apply (ends_outside l1 a d d' l2)].
Qed.

(** A new object, and a new block structure. *)
Lemma slab_kmalloc O r w sz : slab_H O (S r) w → sz ∈ [SIZEOF_MM; SIZEOF_VMA; SIZEOF_UPAGES; SIZEOF_MEM_BLOCK] →
  wp (kmalloc (K := kmem junk k) sz 0 w) (λ '(p, w'), KERN_BASE ≤ p ∧ (∀ a o, o ∈ O → inside a (p, sz) → ¬ inside a o) ∧ p ∉ live w ∧ same_but_heap w w' ∧
    slab_H ((p, sz) :: O) r w' ∧ ∀ kk b, slab_H O r (with_block p kk b w')).
Proof.
  intros [Hc (l & Hr & Hh & He)] Hsz. unfold kmalloc, simple_allocator_alloc. rewrite Hc.
  rewrite (proj2 (Z.ltb_ge (PAGE_SIZE / 2) sz)) by (rewrite !elem_of_cons, elem_of_nil in Hsz; destruct Hsz as [->|[->|[->|[->|[]]]]]; by vm_compute).
  apply wp_bind. eapply wp_mono; [by apply (slab_take O r (live w ∖ end_nodes w) l w sz)|].
  intros [p w'] (l1 & a & d & l2 & d' & -> & -> & Ed & Hcov & Hr' & Hkb & Hap & Hpn & H1 & H2). change (negb (Z.land 0 GFP_ZERO =? 0)) with false. cbv iota zeta. apply wp_ok.
  assert (p ∉ end_nodes w) as Hpe by (intros Hin; by apply (He (a, d) p (change_new l1 l2 a d) Hin)).
  pose proof (ends_outside l1 a d d' l2 (end_nodes w) Ed He) as He'.
  split_and!; [done|done|set_solver|done|split; [done|]|].
  - by exists (l1 ++ (a, d') :: l2).
  - intros kk b. split; [done|]. exists (l1 ++ (a, d') :: l2). split_and!; [done| |done].
    replace (live (with_block p kk b (with_apg a d' w)) ∖ end_nodes (with_block p kk b (with_apg a d' w))) with ({[p]} ∪ live w ∖ end_nodes w); [done|].
    unfold live. cbn. rewrite dom_insert_L. change (end_nodes (with_block p kk b (with_apg a d' w))) with (end_nodes w). set_solver.
Qed.
End instances.

#[global] Instance slab_room junk k O : KmemRoom (kmem junk (S k)) (slab_H O).
Proof.
  split; [intros r; split|..].
  - intros p w kk b Hp Hh Ht HH. cbn [kmem kfree_]. pose proof HH as [_ (l & _ & Ho & _)].
    assert (live (with_block p kk b w) = {[p]} ∪ live w) as El by (unfold live; cbn; by rewrite dom_insert_L).
    assert (p ∈ live (with_block p kk b w) ∖ end_nodes w) as Hin by (rewrite El; unfold end_nodes; set_solver).
    eapply (slab_kfree junk k O r w (with_block p kk b w) p O); [exact HH|done|done|done|by right| |apply Ho|rewrite El; set_solver|set_solver].
    intros o Hoo. split; [done|]. intros <-. by apply (ho_disjoint _ _ _ _ Ho o).
  - intros w w' [Hc (l & Hr & Hh & He)] E1 E2 E3 _ E5 E6. split; [by rewrite E6|]. exists l. unfold end_nodes in *. by rewrite E1, E2, E3, E5.
  - intros r w [Hc (l & Hr & Hh & He)]. split; [done|]. exists l. split_and!; [done| |done]. destruct Hh as [P1 P2 P3 P4 P5 P6 P7 P8]. split; try done.
    intros s Hs. specialize (P8 s Hs). lia.
  - intros r w HH. cbn [kmem kmalloc_]. eapply wp_mono; [apply (slab_kmalloc junk k O r w SIZEOF_MEM_BLOCK HH); set_solver|].
    intros [p w'] (Hp & _ & Hl & Hs & _ & Hb). split_and!; [unfold NULL, KERN_BASE in *; lia|done|done|done].
Qed.

#[global] Instance slab_objects junk k : ObjLaws (kmem junk (S k)) slab_H.
Proof.
  split; [apply _| |].
  - intros O r sz w Hsz HH. eapply wp_mono; [apply (slab_kmalloc junk (S k) O r w sz HH); set_solver|]. intros [p w'] (Hp & Ha & _ & Hs & Ho & _). done.
  - intros O1 p sz O2 r w HH. pose proof HH as [_ (l & _ & Ho & _)]. pose proof (ho_nodup _ _ _ _ Ho) as Hnd.
    rewrite fmap_app, fmap_cons, <-Permutation_middle, <-fmap_app in Hnd. apply NoDup_cons in Hnd as [Hnp Hnd]. cbn [fst] in Hnp.
    eapply (slab_kfree junk (S k) (O1 ++ (p, sz) :: O2) r w w p); [exact HH|done|done|done| |..]; try done.
    + left. rewrite fmap_app, fmap_cons. apply elem_of_app. right. left.
    + intros o Hoo. split; [rewrite elem_of_app, elem_of_cons; rewrite elem_of_app in Hoo; tauto|]. intros E. apply Hnp, list_elem_of_fmap. by exists o.
    + apply (ho_disjoint _ _ _ _ Ho (p, sz)). rewrite elem_of_app, elem_of_cons. auto.
Qed.

(** ** The heap after the start of the kernel

    What [allocator_init] leaves, with an object of either class that stays. *)
Definition small_page : alloced_page := APage 0x80211000 0x20 2 (5 :: replicate 31 0).
Definition large_page : alloced_page := APage 0x80212000 0x40 1 (1 :: replicate 31 0).
Definition heap_pages : list (Z * alloced_page) := [(0x80210034, large_page); (0x80210000, small_page)].
Definition heap_w : world :=
  World (Palloc (<[0x80100000 := Link 0x80211000 0]> (<[0x80211000 := Link 0x80100020 0x80100000]> {[0x80100020 := Link 0 0x80211000]}))
           (<[0x80100000 := Pages 0 0 0]> (<[0x80211000 := Pages 0x213000 0xfded000 7]> {[0x80100020 := Pages 0 0 0]})) 0x80100000 0x80100020 0xfded000)
    PallocPages (bp boot_w)
    (Slab (<[0x80100040 := Link 0x80210034 0]> (<[0x80210034 := Link 0x80210000 0x80100040]> (<[0x80210000 := Link 0x80100080 0x80210034]>
             {[0x80100080 := Link 0 0x80210000]})))
          (<[0x80100040 := APage 0 0 0 []]> (<[0x80210034 := large_page]> (<[0x80210000 := small_page]> {[0x80100080 := APage 0 0 0 []]})))
          0x80100040 0x80100080 0x80210000 104)
    SlabSimple (λ _, 0).
Definition heap_bs : blocks := [(0x213000, 0xfded000)].

Lemma heap_w_reached :
  (w ← allocator_init demo_junk 4 demo_layout (start_world demo_layout);
   '(a, w) ← kmalloc (K := kmem demo_junk 4) SIZEOF_MM 0 w;
   '(b, w) ← kmalloc (K := kmem demo_junk 4) SIZEOF_UPAGES 0 w; Ok (a, b, w)) = Ok (0x80211020, 0x80212000, heap_w).
Proof. by vm_compute. Qed.

Lemma heap_w_inv : pm_inv heap_w heap_bs.
Proof.
  split_and!; [done| |].
  - exists [(0x80211000, (0x213000, 0xfded000))]. split; [split|].
    + by vm_compute.
    + apply (bool_decide_unpack _). by vm_compute.
    + intros n p z Hin. apply list_elem_of_singleton in Hin as [= -> -> ->]. exists 7. by vm_compute.
    + by vm_compute.
  - intros x [Hx|Hx]%avail_cons; [unfold KERN_BASE; lia|by apply avail_nil in Hx].
Qed.

Lemma heap_w_ok r : (r ≤ 63)%nat → slab_H [] r heap_w.
Proof.
  intros Hr. split; [done|]. exists heap_pages.
  assert (live heap_w ∖ end_nodes heap_w = {[0x80211000]}) as EB by by vm_compute. rewrite EB. split_and!.
  - split.
    + by vm_compute.
    + apply (bool_decide_unpack _). by vm_compute.
    + intros n d [[= -> ->]|[[= -> ->]|[]%elem_of_nil]%elem_of_cons]%elem_of_cons; by vm_compute.
    + eexists. by vm_compute.
  - assert (∀ nd, nd ∈ heap_pages → page_ok nd.2) as Hok.
    { intros nd [->|[->|[]%elem_of_nil]%elem_of_cons]%elem_of_cons; (split; [split; [done|apply (bool_decide_unpack _); by vm_compute]|by vm_compute|unfold fri_size; set_solver|by vm_compute]). }
    split.
    + intros nd Hnd. split; [by apply Hok|]. apply elem_of_cons in Hnd as [->|[->|[]%elem_of_nil]%elem_of_cons]; by vm_compute.
    + intros [|[|i]] [|[|j]] x y a [= <-] [= <-] H1 H2; try done; exfalso; unfold covers, PAGE_SIZE in *; cbn in *; lia.
    + by intros o []%elem_of_nil.
    + intros p ->%elem_of_singleton. exists (0x80210000, small_page). split; [right; left|]. exists 0. by split_and!; [split; [lia|exists 0]|..].
    + constructor.
    + by intros o []%elem_of_nil.
    + intros nd [->|[->|[]%elem_of_nil]%elem_of_cons]%elem_of_cons.
      * exists 0x80212000. split_and!; [|by intros ?%elem_of_nil|set_solver]. exists 0. by split_and!; [split; [lia|exists 0]|..].
      * exists 0x80211020. split_and!; [|by intros ?%elem_of_nil|set_solver]. exists 2. by split_and!; [split; [lia|exists 1]|..].
    + intros s [->|[->|[]%elem_of_nil]%elem_of_cons]%elem_of_cons; [change (room 0x20 heap_pages) with 126|change (room 0x40 heap_pages) with 63]; lia.
  - intros nd e Hnd [E%elem_of_singleton|E%elem_of_singleton]%elem_of_union;
      apply elem_of_cons in Hnd as [->|[->|[]%elem_of_nil]%elem_of_cons]; rewrite E; unfold covers, PAGE_SIZE; cbn; lia.
Qed.
