(* ===== verification/Teardown.v ===== *)
(** * Removing user memory

    [destroy_uvm] and [__unmap_and_free_vma] of kern/mm/uvm.c over the invariant of
    Areas: areas leave the list, their pages leave the page tables, and frames,
    tables that became empty and objects are given back.  The page allocator
    panics when it cannot get a block structure for what it is given: the room
    that [H] promises excludes that. *)
From stdpp Require Import sorting.
From S2P Require Import Prelude Util DList MmState Libc Palloc Pmm Simple Vmm Init Cp0 Pgtable Sync Uvm Areas.

Section destroy.
Context {K : Kmem} {H : list (Z * Z) → nat → world → Prop} {HO : ObjLaws K H}.
Implicit Types (u : uvm) (O : list (Z * Z)) (bs : blocks).

(** ** Memory

    What giving back the frame [q] of the page [va], and perhaps a table, does. *)
Record freed (m m' : Z → Z) (pg va q : Z) bs bs' : Prop := Freed {
  fr_keep i : 0 ≤ i < 1024 → ent m' pg i = ent m pg i ∨ ent m' pg i = 0;
  fr_bytes a : ¬ table_byte m pg a → ¬ in_page (q + KERN_BASE) a → m' a = m a;
  fr_avail x : avail bs' x ↔ avail bs x ∨ frame q x ∨ dropped m m' pg x;
  fr_lean : lean m pg → lean m' pg;
  fr_pte va' : fits 32 va' → pte_of m' pg va' = if va' / 4096 =? va / 4096 then 0 else pte_of m pg va' }.

Lemma dropped_table m m' pg x : dropped m m' pg x → table_byte m pg (x + KERN_BASE).
Proof. intros (i & Hi & Hne & _ & Hx). right. by exists i. Qed.

Lemma free_frame_ok O r m w pg va q bs bs1 : pt_inv (J := H O (S r)) w pg bs1 → shrunk m (bytes w) pg bs bs1 → (lean m pg → lean (bytes w) pg) →
  0 ≤ q → q mod PAGE_SIZE = 0 → q + PAGE_SIZE ≤ KERN_BASE → (∀ y, frame q y → ¬ avail bs y) →
  (∀ a, in_page (q + KERN_BASE) a → ¬ table_byte m pg a) →
  (∀ va', fits 32 va' → pte_of (bytes w) pg va' = if va' / 4096 =? va / 4096 then 0 else pte_of m pg va') →
  wp (free_pages (Pages q PAGE_SIZE 0) w) (λ w', ∃ bs', pt_inv (J := H O r) w' pg bs' ∧ freed m (bytes w') pg va q bs bs').
Proof.
  intros (HJ & Hpm & Ht) [K1 B1 A1] Hlean Q1 Q2 Q3 Hbusy Hnt Hpte. unfold PAGE_SIZE, KERN_BASE in Q2, Q3.
  assert (∀ x, q ≤ x < q + PAGE_SIZE → ¬ avail bs1 x) as Hd.
  { intros x Hx [Hx'|Hx']%A1; [by apply (Hbusy x)|]. apply dropped_table in Hx'. revert Hx'. apply Hnt. unfold in_page, PAGE_SIZE in *. lia. }
  assert (freed_ok (Pages q PAGE_SIZE 0) bs1) as Hf.
  { unfold freed_ok. cbn [paddr psize]. unfold PAGE_SIZE in *. split_and!; try done; lia. }
  eapply wp_mono; [apply (free_pages_room r (Pages q PAGE_SIZE 0) w bs1 HJ Hpm); [done|done|cbn; unfold PAGE_SIZE, KERN_BASE; lia]|].
  cbn [paddr psize pflags]. intros w' (HJ' & Hpm' & Hfill). change (filled q JUNKBYTE PAGE_SIZE (bytes w) (bytes w')) in Hfill.
  assert (∀ x, avail (put_block q PAGE_SIZE bs1) x ↔ in_page (q + KERN_BASE) (x + KERN_BASE) ∨ avail bs1 x) as Hav.
  { intros x. destruct Hpm as (_ & (l & _ & _ & Hwf & _) & _).
    destruct (put_block_wf (-1) q PAGE_SIZE bs1 Hwf) as (_ & _ & Ha); try done; try (unfold PAGE_SIZE; lia).
    rewrite Ha. unfold in_page, PAGE_SIZE. split_lia. }
  assert (∀ a, ¬ in_page (q + KERN_BASE) a → bytes w' a = bytes w a) as Hby.
  { intros a Ha. rewrite (Hfill a), pa2kva_eq by (unfold KERN_BASE; lia). unfold in_page, PAGE_SIZE, KERN_BASE in *. zcases; simpl; try done; lia. }
  assert (∀ e, e = q + KERN_BASE → ∀ a, in_page e a → ¬ table_byte m pg a) as Hnt' by (intros e ->; done).
  assert (pg ≠ q + KERN_BASE) as N1 by (intros E; apply (Hnt pg); [|left]; unfold in_page; lia).
  assert (∀ i, 0 ≤ i < 1024 → ent (bytes w) pg i ≠ q + KERN_BASE) as N2.
  { intros i Hi E. destruct (K1 i Hi) as [E'|E']; [|unfold KERN_BASE in *; lia]. apply (Hnt (q + KERN_BASE)); [unfold in_page; lia|].
    right. exists i. rewrite <-E', E. unfold in_page, KERN_BASE. split_and!; lia. }
  destruct (tables_fill (bytes w) (bytes w') pg bs1 (put_block q PAGE_SIZE bs1) (q + KERN_BASE) Ht) as (Ht' & He' & Hp'); try done.
  { unfold KERN_BASE. Z.to_euclidean_division_equations. lia. }
  exists (put_block q PAGE_SIZE bs1). split; [done|]. split.
  - intros i Hi. rewrite He' by done. by apply K1.
  - intros a Ha Ha'. rewrite Hby by done. by apply B1.
  - intros x. rewrite (Hav x), (A1 x). assert (dropped m (bytes w') pg x ↔ dropped m (bytes w) pg x) as ->.
    { unfold dropped. f_equiv. intros i. split; intros (Hi & R); [rewrite He' in R by done|rewrite He' by done]; done. }
    unfold frame, in_page, PAGE_SIZE. split_lia.
  - intros Hl i Hi. rewrite He' by done. intros Hne. destruct (Hlean Hl i Hi Hne) as (va' & F1 & F2 & F3). exists va'. by rewrite Hp'.
  - intros va' Hva'. rewrite Hp' by done. by apply Hpte.
Qed.

(** An object leaves the heap. *)
Lemma kfree_ok O r o w pg bs : o ∈ O → pt_inv (J := H O r) w pg bs →
  wp (kfree (K := K) o.1 w) (λ w', bytes w' = bytes w ∧ ∃ O', (∀ o', o' ∈ O → o' ≠ o → o' ∈ O') ∧ pt_inv (J := H O' r) w' pg bs).
Proof.
  intros Ho (HJ & Hpm & Ht). apply list_elem_of_split in Ho as (O1 & O2 & ->). destruct o as [p sz]. cbn [fst].
  eapply wp_mono; [by apply (ol_free O1 p sz O2 r)|]. intros w' [Hs HJ']. destruct Hs as (E1 & E2 & E3). split; [done|]. exists (O1 ++ O2).
  split.
  - set_solver.
  - split; [done|]. split; [|by rewrite E3]. eapply pm_inv_same; [|exact Hpm]. done.
Qed.
(** ** Structures *)

(** The areas that stay are sorted. *)
Lemma areas_ok_remove (l1 l2 : list (Z * vma)) x : areas_ok (l1 ++ x :: l2) → areas_ok (l1 ++ l2).
Proof.
  intros [Ha Hs]. split.
  - apply Forall_app in Ha as [H1 H2]. apply Forall_cons in H2 as [_ H2]. by apply Forall_app.
  - induction l1 as [|y l1 IH]; cbn in *; [by apply StronglySorted_inv in Hs as [? _]|].
    apply StronglySorted_inv in Hs as [Hs Hy]. apply Forall_cons in Ha as [_ Ha]. constructor; [by apply IH|].
    apply Forall_app in Hy as [Hy1 Hy2]. apply Forall_cons in Hy2 as [_ Hy2]. by apply Forall_app.
Qed.

(** Two areas of the list do not overlap. *)
Lemma areas_apart (l1 l2 : list (Z * vma)) x y va : areas_ok (l1 ++ x :: l2) → y ∈ l1 ++ l2 → v_start x.2 ≤ va < v_end x.2 → ¬ (v_start y.2 ≤ va < v_end y.2).
Proof. destruct x as [b v]. intros Ha Hy. by apply (gap_free l1 l2 b v). Qed.

(** The nodes of the area [x] are none of the others'. *)
Lemma parts_disjoint (m : Z) (l1 l2 : list (Z * vma)) x y : NoDup (m :: (l1 ++ x :: l2) ≫= parts) → y ∈ l1 ++ l2 →
  x.1 ≠ y.1 ∧ v_pages x.2 ≠ v_pages y.2 ∧ (∀ z, z ∈ parts x → z ∉ m :: (l1 ++ l2) ≫= parts).
Proof.
  rewrite parts_split. intros [Hm Hnd]%NoDup_cons Hy. apply NoDup_app in Hnd as (_ & Hd & _).
  assert (∀ z, z ∈ parts y → z ∉ parts x) as Hxy by (intros z Hz Hx; apply (Hd z Hx); by eapply elem_of_parts).
  split_and!.
  - intros E. apply (Hxy (y.1 + NODE)); [left|rewrite <-E; left].
  - intros E. apply (Hxy (v_pages y.2 + UPAGES_HEAD)); [do 2 right; left|rewrite <-E; do 2 right; left].
  - intros z Hz [->|Hz']%elem_of_cons; [apply Hm, elem_of_app; by left|by apply (Hd z)].
Qed.

Lemma nodes_parts (m : Z) l y : y ∈ m :: (nodes l).*1 → y ∈ m :: l ≫= parts.
Proof.
  intros [->|(x & Hx & ->)%elem_of_nodes]%elem_of_cons; [left|right]. eapply elem_of_parts; [done|left].
Qed.

Lemma parts_not_nodes (m : Z) (l1 l2 : list (Z * vma)) x y : NoDup (m :: (l1 ++ x :: l2) ≫= parts) → y ∈ parts x → y ∉ m :: (nodes (l1 ++ l2)).*1.
Proof.
  rewrite parts_split. intros [M1 M2]%NoDup_cons Hy Hy'%nodes_parts. apply NoDup_app in M2 as (_ & M2 & _).
  apply elem_of_cons in Hy' as [->|Hy']; [apply M1, elem_of_app; by left|by apply (M2 y)].
Qed.

Lemma parts_remove (m : Z) (l1 l2 : list (Z * vma)) x : NoDup (m :: (l1 ++ x :: l2) ≫= parts) → NoDup (m :: (l1 ++ l2) ≫= parts).
Proof.
  rewrite parts_split. intros [M1 M2]%NoDup_cons. apply NoDup_app in M2 as (_ & _ & M2). apply NoDup_cons. split; [|done].
  intros Hm. apply M1, elem_of_app. by right.
Qed.

(** What remains when the area [x] has left. *)
Lemma removed_inv_ok O O' r r' u u' m pg l1 x l2 bs bs' q : mm_inv (H := H) O r u m pg (l1 ++ x :: l2) bs → held O u pg bs x q →
  mms u' = mms u ∧ kernel_mm u' = kernel_mm u → vmas u' = delete x.1 (vmas u) → (∀ p, p ≠ v_pages x.2 → upgs u' !! p = upgs u !! p) →
  pt_inv (J := H O' r') (mw u') pg bs' → owned O' u' → dlist (ul u') m (nodes (l1 ++ l2)).*1 →
  (∀ y, y ∉ m :: (nodes (l1 ++ l2)).*1 → y ∉ parts x → ul u' !! y = ul u !! y) →
  freed (bytes (mw u)) (bytes (mw u')) pg (v_start x.2) q bs bs' →
  (∀ o, o ∈ O → o ≠ (x.1, SIZEOF_VMA) → o ≠ (v_pages x.2, SIZEOF_UPAGES) → o ∈ O') →
  mm_inv (H := H) O' r' u' m pg (l1 ++ l2) bs'.
Proof.
  intros Hinv Hx [Em Ek] Ev Hup (HJ' & Hpm' & Ht') Hown Hd Hlinks [Fk Fb Fa Fl Fp] HOO.
  pose proof Hinv as [Hmm (_ & _ & Ht) _ Hl Ha Hlean Hcov Hheld Hnd Hap [Hself Hkm] Hker].
  pose proof Hx as [[Xs Xa] [Xu Xp (X1 & X2 & X3)] _ _ _ _ _ _].
  assert (∀ y, y ∈ l1 ++ l2 → y ∈ l1 ++ x :: l2) as Hin by (intros y; rewrite !elem_of_app, elem_of_cons; tauto).
  assert (∀ y, y ∈ l1 ++ l2 → area_ok y.2) as Hok by (intros y Hy; destruct Ha as [Ha _]; rewrite Forall_forall in Ha; by apply Ha, Hin).
  assert (area_ok x.2) as (Y1 & Y2 & Y3) by (destruct Ha as [Ha _]; rewrite Forall_forall in Ha; apply Ha, elem_of_app; right; left).
  assert (∀ va, fits 32 va → va / 4096 = v_start x.2 / 4096 ↔ v_start x.2 ≤ va < v_end x.2) as Hpage.
  { intros va _. unfold v_end. rewrite Xs. unfold PAGE_SIZE in *. Z.to_euclidean_division_equations. lia. }
  split; [by rewrite Em|split; [done|split; [done|done]]|done| |by eapply areas_ok_remove|by apply Fl|..].
  - split; [done| |rewrite Ev, lookup_delete_None; right; apply Hl].
    apply Forall_forall. intros y Hy. destruct (parts_disjoint m l1 l2 x y Hnd Hy) as (Hne & _).
    rewrite Ev, lookup_delete_ne by done. by apply (proj1 (Forall_forall _ _) (vl_store _ _ _ Hl)), Hin.
  - intros va Hva. rewrite Fp by done. destruct (Z.eqb_spec (va / 4096) (v_start x.2 / 4096)) as [E|E]; [done|]. intros Hne.
    destruct (Hcov va Hva Hne) as (y & Hy & Hr). exists y. split; [|done].
    rewrite !elem_of_app, elem_of_cons in *. destruct Hy as [|[->|]]; [by left| |by right]. destruct E. by apply Hpage.
  - intros y Hy. destruct (Hheld y (Hin y Hy)) as [q' Hq']. exists q'. destruct (parts_disjoint m l1 l2 x y Hnd Hy) as (N1 & N2 & N3).
    pose proof Hq' as [[Ys _] [Yu _ (Q1 & Q2 & Q3)] Yb _ Yt _ Yv Yo].
    assert (q' ≠ q) as Nq.
    { intros ->. apply (Hap y x); [by apply Hin|apply elem_of_app; right; left|congruence|]. by rewrite Xu, Yu. }
    eapply held_frame; [exact Hq'|by apply Hup, not_eq_sym|..].
    + intros va Hva. destruct (Hok y Hy) as (Z1 & Z2 & Z3). unfold page_in, v_end in *.
      assert (fits 32 va) as Hf by (rewrite Ys in *; unfold fits; lia). rewrite Fp by done.
      destruct (Z.eqb_spec (va / 4096) (v_start x.2 / 4096)) as [E|E]; [|done]. apply Hpage in E; [|done].
      exfalso. apply (areas_apart l1 l2 x y va Ha Hy); [done|]. unfold v_end. lia.
    + intros z Hz [Hz'|[Hz'|Hz']]%Fa; [by apply (Yb z)| |].
      * unfold frame, PAGE_SIZE in *. Z.to_euclidean_division_equations. lia.
      * apply dropped_table in Hz'. revert Hz'. eapply held_content; [exact Hq'|done|]. unfold in_page, frame, PAGE_SIZE in *. lia.
    + intros i Hi. destruct (Fk i Hi) as [->| ->]; [by apply Yt|unfold KERN_BASE; lia].
    + intros z Hz. apply Hlinks.
      * eapply share_apart; [by eapply parts_remove|exact Hy|done].
      * intros Hzx. apply (N3 z Hzx). right. eapply elem_of_parts; [done|]. cbn in *. by right.
    + apply HOO; [done|congruence|done].
    + apply HOO; [done|done|congruence].
  - by eapply parts_remove.
  - intros y z Hy Hz Hyz. rewrite !Hup by (apply not_eq_sym; by apply (parts_disjoint m l1 l2 x _ Hnd)). apply Hap; [by apply Hin..|done].
  - rewrite Ek. split; [by apply HOO|done].
  - rewrite Ek. destruct Hker; [by left|right; by apply HOO].
Qed.
(** The two [list_del]s of an area. *)
Lemma area_unlink_ok L (m : Z) l1 x l2 : dlist L m (nodes (l1 ++ x :: l2)).*1 → dlist L (v_pages x.2 + UPAGES_HEAD) [x.1 + SHARE_NODE] →
  NoDup (m :: (l1 ++ x :: l2) ≫= parts) →
  wp (L ← list_del (x.1 + NODE) L; list_del (x.1 + SHARE_NODE) L) (λ L', dom L' = dom L ∧ dlist L' m (nodes (l1 ++ l2)).*1 ∧
    ∀ y, y ∉ m :: (nodes (l1 ++ l2)).*1 → y ∉ parts x → L' !! y = L !! y).
Proof.
  intros Hd Hs Hnd. rewrite area_nodes_app, fmap_app in Hd. cbn [nodes fmap list_fmap fst] in Hd.
  destruct (dlist_remove_ok L m _ _ _ Hd) as (L1 & -> & Hdom1 & Hd1 & Hq1). cbn [mbind res_bind].
  change ((λ x, (x.1 + NODE, x.2)) <$> l2) with (nodes l2) in *. rewrite <-fmap_app, <-area_nodes_app in Hd1, Hq1.
  pose proof (λ y, parts_not_nodes m l1 l2 x y Hnd) as Hout.
  assert (dlist L1 (v_pages x.2 + UPAGES_HEAD) ([] ++ [x.1 + SHARE_NODE])) as Hs1.
  { eapply dlist_frame; [|exact Hs]. intros y Hy. apply Hq1, Hout. unfold parts. set_solver. }
  destruct (dlist_remove_ok L1 _ [] _ [] Hs1) as (L2 & -> & Hdom2 & _ & Hq2). cbn [wp app] in *. split_and!; [congruence| |].
  - eapply dlist_frame; [|exact Hd1]. intros y Hy. apply Hq2. intros ->%list_elem_of_singleton.
    apply (Hout (v_pages x.2 + UPAGES_HEAD)); [do 2 right; left|done].
  - intros y Hy Hyx. rewrite Hq2; [by apply Hq1|]. intros ->%list_elem_of_singleton. apply Hyx. do 2 right. left.
Qed.

(** Pages, their structure and the vma are given back. *)
Lemma release_vma_ok O r m0 u pg va v p q bs bs1 : upgs u !! p = Some (UPages (Pages q PAGE_SIZE 0) 1) →
  (v, SIZEOF_VMA) ∈ O → (p, SIZEOF_UPAGES) ∈ O →
  pt_inv (J := H O (S r)) (mw u) pg bs1 → shrunk m0 (bytes (mw u)) pg bs bs1 → (lean m0 pg → lean (bytes (mw u)) pg) →
  0 ≤ q → q mod PAGE_SIZE = 0 → q + PAGE_SIZE ≤ KERN_BASE → (∀ y, frame q y → ¬ avail bs y) →
  (∀ a, in_page (q + KERN_BASE) a → ¬ table_byte m0 pg a) →
  (∀ va', fits 32 va' → pte_of (bytes (mw u)) pg va' = if va' / 4096 =? va / 4096 then 0 else pte_of m0 pg va') →
  wp (release_vma v p u) (λ u', ∃ O' bs', pt_inv (J := H O' r) (mw u') pg bs' ∧ freed m0 (bytes (mw u')) pg va q bs bs' ∧
    (∀ o, o ∈ O → o ≠ (v, SIZEOF_VMA) → o ≠ (p, SIZEOF_UPAGES) → o ∈ O') ∧
    (mms u' = mms u ∧ kernel_mm u' = kernel_mm u) ∧ vmas u' = delete v (vmas u) ∧ upgs u' = delete p (upgs u) ∧
    ul u' = delete (v + SHARE_NODE) (delete (v + NODE) (delete (p + UPAGES_HEAD) (ul u)))).
Proof.
  intros Hp Hv Hpo Hpt Hsh Hlean Q1 Q2 Q3 Hbusy Hnt Hpte. unfold release_vma, unref_and_free_upages, get_upages. rewrite Hp. cbn [of_option mbind res_bind u_pages refs].
  change (atomic_dec 1) with 0. cbn [Z.eqb refs]. unfold on_mw_ at 1. cbn [mw set_upgs].
  pose proof (free_frame_ok O r m0 (mw u) pg va q bs bs1 Hpt Hsh Hlean Q1 Q2 Q3 Hbusy Hnt Hpte) as Hf. apply wp_inv in Hf as (w1 & -> & bs' & Hpt1 & Hfr). cbn [mbind res_bind].
  unfold free_upages, on_mw_ at 1. cbn [mw set_ul set_upgs set_mw].
  pose proof (kfree_ok O r (p, SIZEOF_UPAGES) w1 pg bs' Hpo Hpt1) as Hk. apply wp_inv in Hk as (w2 & E2 & Hb2 & O2 & HO2 & Hpt2).
  cbn [fst] in E2. rewrite E2. cbn [mbind res_bind]. unfold free_vma, on_mw_. cbn [mw set_ul set_vmas set_mw].
  pose proof (kfree_ok O2 r (v, SIZEOF_VMA) w2 pg bs' ltac:(by apply HO2) Hpt2) as Hk. apply wp_inv in Hk as (w3 & E3 & Hb3 & O3 & HO3 & Hpt3).
  cbn [fst] in E3. rewrite E3. cbn [mbind res_bind wp mw set_mw mms vmas upgs ul set_ul set_vmas set_upgs]. exists O3, bs'. split_and!; try done.
  - by rewrite Hb3, Hb2.
  - intros o Ho N1 N2. apply HO3; [by apply HO2|done].
  - by rewrite delete_insert_eq.
Qed.

Lemma owned_remove O O' u u' v p : owned O u → (∀ o, o ∈ O → o ≠ (v, SIZEOF_VMA) → o ≠ (p, SIZEOF_UPAGES) → o ∈ O') →
  dom (ul u') = ((dom (ul u) ∖ {[p + UPAGES_HEAD]}) ∖ {[v + NODE]}) ∖ {[v + SHARE_NODE]} → dom (vmas u') = dom (vmas u) ∖ {[v]} →
  dom (upgs u') = dom (upgs u) ∖ {[p]} → owned O' u'.
Proof.
  intros [W1 W2 W3] HOO D1 D2 D3. split.
  - intros a Ha. rewrite D1 in Ha. destruct (W1 a) as (o & Ho & Hn); [set_solver|]. exists o. split; [|done].
    apply HOO; [done|intros ->..]; unfold node_of in Hn; cbn [fst snd] in Hn; destruct Hn as [[? _]|[[? Hn]|[? Hn]]]; try done; set_solver.
  - intros w Hw. rewrite D2 in Hw. apply HOO; [apply W2; set_solver| |done]. intros [= ->]. set_solver.
  - intros w Hw. rewrite D3 in Hw. apply HOO; [apply W3; set_solver|done|]. intros [= ->]. set_solver.
Qed.

(** ** One area *)
Record gone u (pg : Z) (x : Z * vma) (q : Z) bs u' bs' : Prop := Gone {
  go_freed : freed (bytes (mw u)) (bytes (mw u')) pg (v_start x.2) q bs bs';
  go_upgs p : p ≠ v_pages x.2 → upgs u' !! p = upgs u !! p;
  go_dead : upgs u' !! v_pages x.2 = None ∧ vmas u' !! x.1 = None;
  go_mms : mms u' = mms u ∧ kernel_mm u' = kernel_mm u }.

Lemma remove_vma_ok O r u m pg l1 x l2 bs q : mm_inv (H := H) O (S (S r)) u m pg (l1 ++ x :: l2) bs → held O u pg bs x q →
  wp (remove_vma m x.1 u) (λ '(sz, u'), sz = PAGE_SIZE ∧ ∃ O' bs', mm_inv (H := H) O' r u' m pg (l1 ++ l2) bs' ∧ gone u pg x q bs u' bs').
Proof.
  intros Hinv Hx. pose proof Hinv as [[c Hmm] Hpt Hown Hl Ha _ _ _ Hnd _ _].
  pose proof Hx as [[Xs Xa] [Xu Xp (X1 & X2 & X3)] Xb Xi Xt Xh Xv Xo].
  assert (x ∈ l1 ++ x :: l2) as Hin by (apply elem_of_app; right; left).
  assert (area_ok x.2) as (Y1 & Y2 & Y3) by (destruct Ha as [Ha _]; rewrite Forall_forall in Ha; by apply Ha).
  unfold remove_vma. rewrite (get_vma_area u m _ x Hl Hin). cbn [mbind res_bind].
  pose proof (area_unlink_ok (ul u) m l1 x l2 (vl_list _ _ _ Hl) Xh Hnd) as Hun. apply wp_inv in Hun as (L2 & E & Hdom & Hd & Hq).
  unfold on_ul. destruct (list_del (x.1 + NODE) (ul u)) as [L1|]; [|done]. cbn [mbind res_bind ul set_ul] in E |- *. rewrite E. cbn [mbind res_bind].
  unfold get_mm. cbn [mms set_ul]. rewrite Hmm. cbn [of_option mbind res_bind pgindex]. unfold on_mw. cbn [mw set_ul].
  assert (pte_of (bytes (mw u)) pg (v_start x.2) = Z.lor q (pgtable_perm (v_flags x.2))) as Ep by (apply Xp; unfold page_in, PAGE_SIZE; lia).
  assert (ent (bytes (mw u)) pg (PDX (v_start x.2)) ≠ 0) as Hne.
  { intros E0. unfold pte_of in Ep. rewrite E0 in Ep. cbn in Ep. pose proof (perm_bounds (v_flags x.2)).
    rewrite lor_low in Ep by (done || lia). lia. }
  unfold v_end in Y3. rewrite Xs in *.
  pose proof (unmap_page_ok (S r) (mw u) pg bs (v_start x.2) Hpt Xa Y1 Y3 Hne) as Hw. apply wp_inv in Hw as ([[n first] w1] & -> & -> & _ & bs1 & Hpt1 & Hsh & Hlean & Hpte). cbn [mbind res_bind].
  change (PAGE_SIZE =? sgn 32 PAGE_SIZE) with true. cbn [assert_ mbind res_bind].
  apply wp_bind. eapply wp_mono.
  { apply (release_vma_ok O r (bytes (mw u)) _ pg (v_start x.2) x.1 (v_pages x.2) q bs bs1); cbn [mw set_mw set_ul upgs]; try done.
    intros a Hpa. by eapply held_content; [|apply Hpt|]. }
  cbn [mms vmas upgs ul set_mw set_ul]. intros u' (O' & bs' & Hpt' & Hfr & HOO & Em & Ev & Eu & El).
  apply wp_ok. split; [done|]. exists O', bs'.
  assert (∀ y, y ∉ parts x → ul u' !! y = L2 !! y) as HL.
  { intros y Hy. unfold parts in Hy. rewrite !not_elem_of_cons in Hy. destruct Hy as (N1 & N2 & N3 & _). rewrite El.
    by rewrite !lookup_delete_ne by done. }
  split.
  - eapply (removed_inv_ok O O' (S (S r)) r u u' m pg l1 x l2 bs bs' q Hinv Hx); try done.
    + intros p Hp. by rewrite Eu, lookup_delete_ne.
    + eapply (owned_remove O O' u u'); [exact Hown|exact HOO|by rewrite El, !dom_delete_L, Hdom|by rewrite Ev, dom_delete_L|by rewrite Eu, dom_delete_L].
    + eapply dlist_frame; [|exact Hd]. intros y Hy. apply HL. intros Hyx. by apply (parts_not_nodes m l1 l2 x y).
    + intros y Hy Hyx. rewrite HL by done. by apply Hq.
  - split; [done| | |done].
    + intros p Hp. by rewrite Eu, lookup_delete_ne.
    + rewrite Eu, Ev, !lookup_delete_eq. done.
Qed.
(** ** A run of areas *)

(** [y] is a byte of the frame of the area [x]. *)
Definition owns u (x : Z * vma) (y : Z) : Prop := ∃ q c, upgs u !! v_pages x.2 = Some (UPages (Pages q PAGE_SIZE 0) c) ∧ frame q y.

Record destroyed u (pg : Z) (run : list (Z * vma)) bs u' bs' : Prop := Destroyed {
  de_keep i : 0 ≤ i < 1024 → ent (bytes (mw u')) pg i = ent (bytes (mw u)) pg i ∨ ent (bytes (mw u')) pg i = 0;
  de_bytes a : ¬ table_byte (bytes (mw u)) pg a → (∀ x, x ∈ run → ¬ owns u x (a - KERN_BASE)) → bytes (mw u') a = bytes (mw u) a;
  de_avail y : avail bs' y ↔ avail bs y ∨ (∃ x, x ∈ run ∧ owns u x y) ∨ dropped (bytes (mw u)) (bytes (mw u')) pg y;
  de_gone x va : x ∈ run → v_start x.2 ≤ va < v_end x.2 → pte_of (bytes (mw u')) pg va = 0;
  de_pte va : fits 32 va → (∀ x, x ∈ run → ¬ (v_start x.2 ≤ va < v_end x.2)) → pte_of (bytes (mw u')) pg va = pte_of (bytes (mw u)) pg va;
  de_upgs p : p ∉ v_pages ∘ snd <$> run → upgs u' !! p = upgs u !! p;
  de_dead x : x ∈ run → upgs u' !! v_pages x.2 = None;
  de_mms : mms u' = mms u }.

Lemma table_byte_shrink m m' pg a : (∀ i, 0 ≤ i < 1024 → ent m' pg i = ent m pg i ∨ ent m' pg i = 0) → table_byte m' pg a → table_byte m pg a.
Proof.
  intros Hk [Ha|(i & Hi & Hne & Ha)]; [by left|right]. exists i. destruct (Hk i Hi) as [E|E]; [|done]. by rewrite <-E.
Qed.

Lemma destroyed_step O r u m pg l1 x run l2 bs u1 bs1 u2 bs2 q : mm_inv (H := H) O r u m pg (l1 ++ x :: run ++ l2) bs → held O u pg bs x q →
  gone u pg x q bs u1 bs1 → destroyed u1 pg run bs1 u2 bs2 → destroyed u pg (x :: run) bs u2 bs2.
Proof.
  intros Hinv [[Xs Xa] [Xu _ _] _ _ _ _ _ _] [[Fk Fb Fa _ Fp] Gu [Gd _] Gm] [Dk Db Da Dg Dp Du Dd Dmm].
  assert (∀ y, y ∈ run → v_pages y.2 ≠ v_pages x.2) as Hpne.
  { intros y Hy. apply not_eq_sym. apply (parts_disjoint m l1 (run ++ l2) x y (mi_nodes _ _ _ _ _ _ _ Hinv)). rewrite !elem_of_app. auto. }
  assert (∀ y b, y ∈ run → owns u1 y b ↔ owns u y b) as Hown by (intros y b Hy; unfold owns; by rewrite Gu by by apply Hpne).
  assert (∀ b, owns u x b ↔ frame q b) as Hox.
  { intros b. unfold owns. rewrite Xu. split; [by intros (? & ? & [= <- <-] & ?)|by intros; exists q, 1]. }
  assert (∀ va, va / 4096 = v_start x.2 / 4096 ↔ v_start x.2 ≤ va < v_end x.2) as Hpage.
  { intros va. unfold v_end. rewrite Xs. unfold PAGE_SIZE in *. Z.to_euclidean_division_equations. lia. }
  assert (area_ok x.2) as (Y1 & Y2 & Y3).
  { destruct (mi_areas _ _ _ _ _ _ _ Hinv) as [Ha _]. rewrite Forall_forall in Ha. apply Ha, elem_of_app. right. left. }
  split.
  - intros i Hi. destruct (Dk i Hi) as [->| ->]; [by apply Fk|by right].
  - intros a Ha Hno. rewrite Db.
    + apply Fb; [done|]. intros Hp. apply (Hno x); [left|]. apply Hox. unfold frame, in_page, PAGE_SIZE in *. lia.
    + intros Htb. apply Ha. eapply table_byte_shrink; [|exact Htb]. done.
    + intros y Hy Ho. apply (Hno y); [by right|]. by apply Hown.
  - intros y. rewrite (Da y), (Fa y), (dropped_trans (bytes (mw u)) (bytes (mw u1)) (bytes (mw u2))) by done.
    rewrite <-(Hox y). split; [|intros [|[(z & [->|Hz]%elem_of_cons & Ho)|[|]]]; auto].
    + intros [[|[|]]|[(z & Hz & Ho)|]]; auto; right; left; [exists x; split; [left|done]|]. exists z. split; [by right|by apply Hown].
    + right. left. exists z. split; [done|by apply Hown].
  - intros y va [->|Hy]%elem_of_cons Hva; [|by apply (Dg y)].
    assert (fits 32 va) as Hf by (unfold fits, v_end in *; lia).
    destruct (decide (Exists (λ z, v_start z.2 ≤ va < v_end z.2) run)) as [(z & Hz & Hr)%Exists_exists|Hno]; [by apply (Dg z)|].
    rewrite Dp, Fp by (done || (intros z Hz Hr; apply Hno, Exists_exists; by exists z)). by rewrite (proj2 (Z.eqb_eq _ _) (proj2 (Hpage va) Hva)).
  - intros va Hf Hno. rewrite Dp, Fp; [|done|done|intros z Hz; apply Hno; by right].
    destruct (Z.eqb_spec (va / 4096) (v_start x.2 / 4096)) as [E%Hpage|]; [|done]. destruct (Hno x); [left|done].
  - intros p Hp. cbn in Hp. apply not_elem_of_cons in Hp as [N1 N2]. rewrite Du by done. by apply Gu.
  - intros y [->|Hy]%elem_of_cons; [|by apply Dd]. rewrite Du; [done|]. intros (y & E & Hy)%list_elem_of_fmap. by apply (Hpne y).
  - destruct Gm. congruence.
Qed.
Lemma destroyed_nil u pg bs : destroyed u pg [] bs u bs.
Proof.
  split; try done.
  - by left.
  - intros y. split; [by left|]. intros [|[(x & []%elem_of_nil & _)|Hd]]; [done|by apply dropped_refl in Hd].
  - intros x va []%elem_of_nil.
  - intros x []%elem_of_nil.
Qed.

Lemma free_run_ok m pg l1 run l2 sz r O u bs i fuel : mm_inv (H := H) O (2 * length run + r) u m pg (l1 ++ run ++ l2) bs → (length run < fuel)%nat →
  0 ≤ i → i + PAGE_SIZE * Z.of_nat (length run) = sz → sz < 2 ^ 32 →
  wp (loop fuel (λ '(i, cur, u),
    if i <? sz then
      let v := cur in
      n ← get_next (ul u) (cur + NODE);
      let cur := n - NODE in
      '(vma_size, u) ← remove_vma m v u;
      Ok (inl (w32 (i + vma_size), cur, u))
    else Ok (inr u)) (i, hd m (nodes (run ++ l2)).*1 - NODE, u))
  (λ u', ∃ O' bs', mm_inv (H := H) O' r u' m pg (l1 ++ l2) bs' ∧ destroyed u pg run bs u' bs').
Proof.
  revert O u bs i fuel. induction run as [|x run IH]; intros O u bs i fuel Hinv Hf Hi Hsz Hlt; (destruct fuel as [|fuel]; [cbn in Hf; lia|]); rewrite loop_S.
  - cbn [length] in Hsz. rewrite (proj2 (Z.ltb_ge _ _)) by lia. apply wp_ok. exists O, bs. split; [done|apply destroyed_nil].
  - cbn [length] in Hsz, Hf. rewrite (proj2 (Z.ltb_lt _ _)) by (unfold PAGE_SIZE in *; lia). cbv zeta. cbn [nodes fmap list_fmap app hd fst].
    replace (x.1 + NODE - NODE + NODE) with (x.1 + NODE) by lia. replace (x.1 + NODE - NODE) with x.1 by lia.
    replace (2 * length (x :: run) + r)%nat with (S (S (2 * length run + r))) in Hinv by (cbn [length]; lia).
    pose proof (vl_list _ _ _ (mi_list _ _ _ _ _ _ _ Hinv)) as Hd. rewrite area_nodes_app, fmap_app in Hd.
    cbn [nodes fmap list_fmap app fst] in Hd. destruct (dlist_split _ _ _ _ _ Hd) as [_ ->]. cbn [mbind res_bind].
    destruct (mi_held _ _ _ _ _ _ _ Hinv x) as [q Hq]; [apply elem_of_app; right; left|].
    apply wp_bind, wp_bind. eapply wp_mono; [by apply (remove_vma_ok O (2 * length run + r) u m pg l1 x (run ++ l2) bs q)|].
    intros [sz' u1] (-> & O1 & bs1 & Hany1 & Hg). apply wp_ok. rewrite (wrap_small 32) by (unfold fits, PAGE_SIZE in *; lia).
    eapply wp_mono; [apply (IH O1 u1 bs1 _ fuel Hany1); unfold PAGE_SIZE in *; lia|].
    intros u2 (O2 & bs2 & Hany2 & Hde). exists O2, bs2. split; [done|]. by eapply destroyed_step.
Qed.

(** The areas that a call for [addr] looks at: those before, the longest run of
    consecutive pages that starts there, and those after. *)
Record looks_at (addr : Z) (l l1 run l2 : list (Z * vma)) : Prop := LooksAt {
  la_split : l = l1 ++ run ++ l2;
  la_before : Forall (λ x, v_start x.2 ≠ addr) l1;
  la_run : run_at addr run;
  la_end x l' : l2 = x :: l' → v_start x.2 ≠ addr + PAGE_SIZE * Z.of_nat (length run);
  la_none : run = [] → Forall (λ x, v_start x.2 ≠ addr) l2 }.

Lemma longest_run addr (l : list (Z * vma)) : ∃ run l2, l = run ++ l2 ∧ run_at addr run ∧
  ∀ x l', l2 = x :: l' → v_start x.2 ≠ addr + PAGE_SIZE * Z.of_nat (length run).
Proof.
  revert addr. induction l as [|y l IH]; intros addr; [by exists [], []|].
  destruct (decide (v_start y.2 = addr)) as [E|E].
  - destruct (IH (addr + PAGE_SIZE)) as (run & l2 & -> & Hr & Hm). exists (y :: run), l2. split_and!; [done| |].
    + intros [|k] x Hx; cbn in Hx; [injection Hx as <-; lia|]. rewrite (Hr k x Hx). lia.
    + intros x l' E'. specialize (Hm x l' E'). cbn [length]. lia.
  - exists [], (y :: l). split_and!; [done|by intros k x Hx|]. intros x l' [= <- <-]. cbn [length]. lia.
Qed.

Lemma looks_at_exists addr (l : list (Z * vma)) : ∃ l1 run l2, looks_at addr l l1 run l2.
Proof.
  destruct (decide (Exists (λ x, v_start x.2 = addr) l)) as [Hex|Hno].
  - induction l as [|y l IH]; [by inversion Hex|]. destruct (decide (v_start y.2 = addr)) as [E|E].
    + destruct (longest_run addr (y :: l)) as (run & l2 & El & Hr & Hm). exists [], run, l2. split; try done. intros ->.
      destruct (Hm y l); [done|cbn; lia].
    + destruct IH as (l1 & run & l2 & [El H1 H2 H3 H4]); [by inversion Hex|]. exists (y :: l1), run, l2. split; try done; [by rewrite El|by constructor].
  - exists [], [], l. assert (Forall (λ x, v_start x.2 ≠ addr) l) as Hall.
    { apply Forall_forall. intros x Hx E. apply Hno, Exists_exists. by exists x. }
    split; try done. intros x l' ->. inversion Hall. cbn [length]. lia.
Qed.
(** A run of pages ends below the top of the address space. *)
Lemma run_bound O r u m pg l1 run l2 bs addr : mm_inv (H := H) O r u m pg (l1 ++ run ++ l2) bs → run_at addr run → run ≠ [] →
  addr + PAGE_SIZE * Z.of_nat (length run) < 2 ^ 32.
Proof.
  intros Hinv Hr Hne. destruct run as [|x run _] using rev_ind; [done|].
  assert (x ∈ l1 ++ (run ++ [x]) ++ l2) as Hx by (rewrite !elem_of_app, list_elem_of_singleton; auto).
  destruct (mi_held _ _ _ _ _ _ _ Hinv x Hx) as [q [[Xs _] _ _ _ _ _ _ _]].
  destruct (mi_areas _ _ _ _ _ _ _ Hinv) as [Ha _]. rewrite Forall_forall in Ha. destruct (Ha x Hx) as (_ & _ & He). unfold v_end in He.
  rewrite Xs, (Hr (length run) x) in He by (by rewrite lookup_app_r, Nat.sub_diag by done). rewrite length_app. cbn [length]. lia.
Qed.

(** Nothing before a run starts where the run does. *)
Lemma run_before l1 run l2 addr : areas_ok (l1 ++ run ++ l2) → run_at addr run → run ≠ [] → Forall (λ x, v_start x.2 ≠ addr) l1.
Proof.
  intros Ha Hr Hne. destruct run as [|[b v] run]; [done|]. destruct (run_at_cons _ _ _ Hr) as [E _]. cbn in E. cbn [app] in Ha.
  apply Forall_forall. intros x Hx. pose proof (sorted_last _ _ _ x Ha Hx) as Hs. cbn in Hs.
  destruct Ha as [Ha _]. apply Forall_app in Ha as [Ha _]. rewrite Forall_forall in Ha. destruct (Ha x Hx) as (_ & Hsz & _). unfold v_end in *. lia.
Qed.

(** [destroy_uvm] of a run of areas. *)
Lemma destroy_run_ok O r u m pg l1 run l2 bs addr : mm_inv (H := H) O (2 * length run + r) u m pg (l1 ++ run ++ l2) bs → run_at addr run → run ≠ [] →
  addr mod PAGE_SIZE = 0 → 0 ≤ addr → m ≠ NULL → Forall (λ x, x.1 ≠ NULL) run →
  wp (destroy_uvm m addr (PAGE_SIZE * Z.of_nat (length run)) u) (λ '(rc, u'), rc = 0 ∧ ∃ O' bs',
    mm_inv (H := H) O' r u' m pg (l1 ++ l2) bs' ∧ destroyed u pg run bs u' bs').
Proof.
  intros Hinv Hr Hne Ham Ha0 Hm Hnull. pose proof (run_bound _ _ _ _ _ _ _ _ _ _ Hinv Hr Hne) as Hb.
  set (len := PAGE_SIZE * Z.of_nat (length run)) in *.
  assert (len mod PAGE_SIZE = 0) as Hlm by (unfold len; rewrite Z.mul_comm; apply Z_mod_mult).
  destruct (longest_run (addr + len) l2) as (more & l3 & -> & Hr2 & Hmax).
  assert (run_at addr (run ++ more)) as Hrun.
  { intros k x [Hk|[Hge Hk]]%lookup_app_Some; [by apply Hr|]. rewrite (Hr2 _ x Hk). unfold len, PAGE_SIZE. lia. }
  unfold destroy_uvm. rewrite (IS_ALIGNED_page 32 len), (IS_ALIGNED_page 32 addr) by done. rewrite (proj2 (Z.eqb_neq m NULL)) by done. cbn [negb orb].
  assert (run ++ more ≠ []) as Hne2 by by destruct run.
  assert (mm_inv (H := H) O (2 * length run + r) u m pg (l1 ++ (run ++ more) ++ l3) bs) as Hany2 by by rewrite <-app_assoc.
  pose proof (run_bound _ _ _ _ _ _ _ _ _ _ Hany2 Hrun Hne2) as Hb2.
  pose proof (find_continuous_ok u m l1 (run ++ more) l3 addr len) as Hf. rewrite length_app in Hf, Hb2.
  destruct run as [|x run]; [done|]. cbn [app] in Hf. rewrite Hf; clear Hf; try done; try (unfold len, PAGE_SIZE; lia).
  - rewrite (proj2 (Z.leb_le _ _)) by (unfold len, PAGE_SIZE; lia). cbn [mbind res_bind].
    inversion Hnull as [|? ? Hx0 _]; subst. rewrite (proj2 (Z.eqb_neq x.1 NULL)) by done.
    apply wp_bind. unfold unmap_and_free_vma.
    pose proof (free_run_ok m pg l1 (x :: run) (more ++ l3) len r O u bs 0 (S (S (size (ul u)))) Hinv) as Hl.
    cbn [nodes fmap list_fmap app hd fst] in Hl. replace (x.1 + NODE - NODE) with x.1 in Hl by lia.
    eapply wp_mono; [apply Hl|].
    + pose proof (vl_list _ _ _ (mi_list _ _ _ _ _ _ _ Hinv)) as Hd.
      pose proof (NoDup_dom_length (ul u) (nodes (l1 ++ (x :: run) ++ more ++ l3)).*1) as Hlen.
      unfold nodes in Hlen. rewrite !length_fmap, !length_app in Hlen. specialize (Hlen (NoDup_cons_1_2 _ _ (proj2 Hd))).
      assert ((length l1 + (length (x :: run) + (length more + length l3)) ≤ size (ul u))%nat) as Hle; [|lia].
      apply Hlen. intros y Hy. eapply dlist_dom; [exact Hd|by right].
    + lia.
    + unfold len. lia.
    + lia.
    + intros u' (O' & bs' & H1 & H2). apply wp_ok. split; [done|]. by exists O', bs'.
  - cbn [app]. pose proof (mi_list _ _ _ _ _ _ _ Hinv) as Hv. cbn [app] in Hv. by rewrite <-app_assoc.
  - eapply (run_before l1 ((x :: run) ++ more) l3); [|done|done]. rewrite <-app_assoc. apply (mi_areas _ _ _ _ _ _ _ Hinv).
  - intros y l' E. specialize (Hmax y l' E). unfold len, PAGE_SIZE in *. cbn [length] in *. lia.
Qed.
Lemma destroy_unaligned m a len u : a mod PAGE_SIZE ≠ 0 → destroy_uvm m a len u = Ok (- EINVAL, u).
Proof.
  intros Ha. unfold destroy_uvm. change PAGE_SIZE with (2 ^ 12) in *. rewrite (IS_ALIGNED_pow2 32 12 ltac:(lia) a).
  rewrite (proj2 (Z.eqb_neq _ 0) Ha). cbn [negb]. by rewrite !orb_true_r.
Qed.

(** What a call finds in the list decides what it does. *)
Lemma destroy_found O r u m pg l bs addr len l1 run l2 : mm_inv (H := H) O r u m pg l bs → looks_at addr l l1 run l2 →
  addr mod PAGE_SIZE = 0 → len mod PAGE_SIZE = 0 → 0 ≤ addr → 0 ≤ len → addr + len < 2 ^ 32 → m ≠ NULL → PAGE_SIZE * Z.of_nat (length run) < len →
  destroy_uvm m addr len u = match run, l2 with _ :: _, [] => Err BadPtr | _, _ => Ok (- EFAULT, u) end.
Proof.
  intros Hinv [-> L1 L2 L3 L4] Ham Hlm Ha0 Hl0 Hb Hm Hlt.
  unfold destroy_uvm. rewrite (IS_ALIGNED_page 32 len), (IS_ALIGNED_page 32 addr) by done. rewrite (proj2 (Z.eqb_neq m NULL)) by done. cbn [negb orb].
  rewrite (find_continuous_ok u m l1 run l2 addr len (mi_list _ _ _ _ _ _ _ Hinv)) by (done || lia).
  destruct run as [|x run]; [done|]. rewrite (proj2 (Z.leb_gt _ _)) by lia. by destruct l2.
Qed.

(** C9. Removing user memory ([destroy_uvm]), for a page-aligned range of [n]
    pages in an address space with the invariant of [create_uvm_correct] and room
    for two block structures per page in the object allocator: when
    the range is covered by a run of areas, the call returns 0, exactly these
    areas leave the list, no address of theirs is mapped any more, every other
    address translates as before, their frames become free together with the
    tables that became empty and nothing else, and no byte outside the tables and
    these frames is written.  When no area starts at the address,
    or a later area breaks the run, the call fails with EFAULT and changes
    nothing; when the run ends with the list, the sentry is taken for an area.  A
    range that is not aligned is refused. *)
Theorem destroy_uvm_correct O r u m pg l bs addr n :
  mm_inv (H := H) O (2 * n + r) u m pg l bs → addr mod PAGE_SIZE = 0 → 0 ≤ addr → (0 < n)%nat → addr + PAGE_SIZE * Z.of_nat n < 2 ^ 32 →
  m ≠ NULL → Forall (λ x, x.1 ≠ NULL) l →
  (∃ l1 run l2, looks_at addr l l1 run l2 ∧
    ((n ≤ length run)%nat → wp (destroy_uvm m addr (PAGE_SIZE * Z.of_nat n) u) (λ '(rc, u'), rc = 0 ∧ ∃ O' bs',
       mm_inv (H := H) O' r u' m pg (l1 ++ drop n run ++ l2) bs' ∧ destroyed u pg (take n run) bs u' bs')) ∧
    ((length run < n)%nat → destroy_uvm m addr (PAGE_SIZE * Z.of_nat n) u =
       match run, l2 with _ :: _, [] => Err BadPtr | _, _ => Ok (- EFAULT, u) end)) ∧
  (∀ a len, a mod PAGE_SIZE ≠ 0 → destroy_uvm m a len u = Ok (- EINVAL, u)).
Proof.
  intros Hany Ham Ha0 Hn Hb Hm Hnull. split; [|intros a len; apply destroy_unaligned].
  destruct (looks_at_exists addr l) as (l1 & run & l2 & Hla). exists l1, run, l2. split_and!; [done| |].
  - intros Hle. pose proof Hla as [-> _ Hrun _ _]. rewrite <-(take_drop n run), <-app_assoc in Hany, Hnull.
    assert (length (take n run) = n) as El by (rewrite length_take; lia). rewrite <-El at 1.
    apply (destroy_run_ok O r u m pg l1 (take n run) (drop n run ++ l2)); try done; [by rewrite El|..].
    + intros k x Hk. apply Hrun. by apply lookup_take_Some in Hk as [? _].
    + intros E. rewrite E in El. cbn in El. lia.
    + by apply Forall_app in Hnull as [_ [? _]%Forall_app].
  - intros Hlt. eapply destroy_found; try done; [rewrite Z.mul_comm; apply Z_mod_mult|unfold PAGE_SIZE; lia..].
Qed.

(** ** Creating and removing again *)

(** Tables are determined by what is mapped. *)
Lemma dropped_same m0 m1 m2 pg x : lean m0 pg → lean m2 pg → (∀ va, fits 32 va → pte_of m2 pg va = pte_of m0 pg va) →
  dropped m1 m2 pg x ↔ dropped m1 m0 pg x.
Proof.
  assert (∀ m m' : Z → Z, lean m' pg → (∀ va, fits 32 va → pte_of m' pg va = pte_of m pg va) → dropped m1 m pg x → dropped m1 m' pg x) as Hone.
  { intros m m' Hl Hp (i & Hi & H1 & H2 & Hx). exists i. split_and!; try done; [lia|lia|].
    destruct (decide (ent m' pg i = 0)) as [|Hne]; [done|]. exfalso. destruct (Hl i Hi Hne) as (va & Hva & Epd & Hnz). apply Hnz.
    rewrite Hp by done. unfold pte_of. by rewrite Epd, H2. }
  intros L0 L2 Hp. split; apply Hone; try done. intros va Hva. by rewrite Hp.
Qed.

Lemma areas_items m addr fl items x : x ∈ areas m addr fl items → ∃ i v p q, items !! i = Some (v, p, q) ∧
  x = (v, Vma (addr + PAGE_SIZE * Z.of_nat i) PAGE_SIZE fl m p).
Proof.
  intros (i & Hi)%list_elem_of_lookup. unfold areas in Hi. rewrite list_lookup_imap in Hi.
  destruct (items !! i) as [[[v p] q]|] eqn:E; [|done]. injection Hi as <-. by exists i, v, p, q.
Qed.

Lemma areas_run m addr fl items : run_at addr (areas m addr fl items) ∧ length (areas m addr fl items) = length items.
Proof.
  split; [|apply length_imap]. intros k x Hk. unfold areas in Hk. rewrite list_lookup_imap in Hk.
  destruct (items !! k) as [[[v p] q]|]; [|done]. injection Hk as <-. done.
Qed.

(** The frames of the new areas are those of the items. *)
Lemma created_owns r u m pg l1 l2 bs addr fl items u' bs' y : created (H := H) r u m pg l1 l2 bs addr fl items u' bs' →
  (∃ x, x ∈ areas m addr fl items ∧ owns u' x y) ↔ ∃ v p q, (v, p, q) ∈ items ∧ frame q y.
Proof.
  intros Hc. split.
  - intros (x & (i & v & p & q & Hi & ->)%areas_items & q' & c & Hu & Hf). exists v, p, q. split; [by eapply list_elem_of_lookup_2|].
    destruct (cr_back _ _ _ _ _ _ _ _ _ _ _ _ Hc _ _ _ _ Hi) as [_ [Hb _ _]]. cbn in Hu. rewrite Hb in Hu. by injection Hu as <- <-.
  - intros (v & p & q & (i & Hi)%list_elem_of_lookup & Hf). exists (v, Vma (addr + PAGE_SIZE * Z.of_nat i) PAGE_SIZE fl m p). split.
    + apply list_elem_of_lookup. exists i. unfold areas. by rewrite list_lookup_imap, Hi.
    + exists q, 1. split; [|done]. by destruct (cr_back _ _ _ _ _ _ _ _ _ _ _ _ Hc _ _ _ _ Hi) as [_ [Hb _ _]].
Qed.
(** The state after the range has been created and removed. *)
Section undo.
Context O (r r0 r2 : nat) u (m pg : Z) (l1 l2 : list (Z * vma)) bs (addr fl : Z) (items : list (Z * Z * Z)) u1 bs1 O2 u2 bs2.
Context (Hinv : mm_inv (H := H) O r0 u m pg (l1 ++ l2) bs) (Hc : created (H := H) r u m pg l1 l2 bs addr fl items u1 bs1).
Context (Hinv2 : mm_inv (H := H) O2 r2 u2 m pg (l1 ++ l2) bs2) (Hd : destroyed u1 pg (areas m addr fl items) bs1 u2 bs2).
Context (Ha0 : 0 ≤ addr) (Hab : addr + PAGE_SIZE * Z.of_nat (length items) < 2 ^ 32).
Context (Hno : ∀ x, x ∈ l1 ++ l2 → ¬ overlaps addr (PAGE_SIZE * Z.of_nat (length items)) x).

Lemma undo_pte va : fits 32 va → pte_of (bytes (mw u2)) pg va = pte_of (bytes (mw u)) pg va.
Proof.
  intros Hva. destruct (decide (page_in addr (Z.of_nat (length items)) va)) as [Hin|Hout].
  - assert (pte_of (bytes (mw u)) pg va = 0) as ->.
    { destruct (decide (pte_of (bytes (mw u)) pg va = 0)) as [|Hne]; [done|]. exfalso.
      destruct (mi_cover _ _ _ _ _ _ _ Hinv va Hva Hne) as (x & Hx & Hr). apply (Hno x Hx). unfold overlaps, page_in in *. lia. }
    set (i := Z.to_nat ((va - addr) / PAGE_SIZE)).
    assert (addr + PAGE_SIZE * Z.of_nat i ≤ va < addr + PAGE_SIZE * Z.of_nat i + PAGE_SIZE ∧ (i < length items)%nat) as [Hi Hlt]
      by (unfold i, page_in, PAGE_SIZE in *; Z.to_euclidean_division_equations; lia).
    destruct (lookup_lt_is_Some_2 items i Hlt) as [[[v p] q] E].
    apply (de_gone _ _ _ _ _ _ Hd (v, Vma (addr + PAGE_SIZE * Z.of_nat i) PAGE_SIZE fl m p)); [|unfold v_end; cbn; lia].
    apply list_elem_of_lookup. exists i. unfold areas. by rewrite list_lookup_imap, E.
  - rewrite (de_pte _ _ _ _ _ _ Hd va Hva).
    + by apply (cr_pte _ _ _ _ _ _ _ _ _ _ _ _ Hc).
    + intros x (i & Hi & E1 & E2)%areas_elem Hr. apply Hout. unfold v_end, page_in, PAGE_SIZE in *. lia.
Qed.

Lemma undo_blocks : bs2 = bs.
Proof.
  destruct (mi_pt _ _ _ _ _ _ _ Hinv) as (_ & (_ & (? & _ & _ & Hwf & _) & _) & _).
  destruct (mi_pt _ _ _ _ _ _ _ Hinv2) as (_ & (_ & (? & _ & _ & Hwf2 & _) & _) & _).
  apply (wf_unique (-1)); [done|done|]. intros y.
  rewrite (de_avail _ _ _ _ _ _ Hd y), (cr_avail _ _ _ _ _ _ _ _ _ _ _ _ Hc y), (created_owns _ _ _ _ _ _ _ _ _ _ _ _ y Hc).
  rewrite (dropped_same (bytes (mw u)) (bytes (mw u1)) (bytes (mw u2))); [done|apply (mi_lean _ _ _ _ _ _ _ Hinv)|apply (mi_lean _ _ _ _ _ _ _ Hinv2)|].
  apply undo_pte.
Qed.

Lemma undo_content x q a : x ∈ l1 ++ l2 → held O u pg bs x q → in_page (q + KERN_BASE) a → bytes (mw u2) a = bytes (mw u) a.
Proof.
  intros Hx Hq Ha. rewrite <-(created_content _ _ _ _ _ _ _ _ _ _ _ _ _ _ _ _ Hc Hx Hq Ha). destruct (cr_inv _ _ _ _ _ _ _ _ _ _ _ _ Hc) as [O1 Hi1].
  apply (de_bytes _ _ _ _ _ _ Hd).
  - destruct (mi_held _ _ _ _ _ _ _ Hi1 x) as [q' Hq']; [rewrite !elem_of_app in *; tauto|].
    pose proof (bk_pages _ _ _ _ _ _ (hd_back _ _ _ _ _ _ Hq)) as E. pose proof (bk_pages _ _ _ _ _ _ (hd_back _ _ _ _ _ _ Hq')) as E'.
    rewrite (cr_upgs _ _ _ _ _ _ _ _ _ _ _ _ Hc), E in E' by (by eapply elem_of_dom_2). injection E' as <-.
    eapply held_content; [exact Hq'|apply (mi_pt _ _ _ _ _ _ _ Hi1)|done].
  - intros y Hy Ho. destruct (proj1 (created_owns _ _ _ _ _ _ _ _ _ _ _ _ (a - KERN_BASE) Hc)) as (v & p & q' & (i & Hi)%list_elem_of_lookup & Hf); [by exists y|].
    apply (hd_busy _ _ _ _ _ _ Hq (a - KERN_BASE)); [unfold frame, in_page, PAGE_SIZE in *; lia|].
    by apply (cr_frames _ _ _ _ _ _ _ _ _ _ _ _ Hc _ _ _ _ _ Hi Hf).
Qed.
End undo.

(** C8. Creating user memory and removing it again leaves nothing behind: after
    [create_uvm] of a free range and [destroy_uvm] of the same range, which both
    return 0 when there is memory and room for objects, the address space has its areas of before, every address translates as before,
    the list of free blocks is the same (no frame and no page table is lost, and
    memory is not fragmented), and the contents of the other areas' pages are
    what they were. *)
Theorem create_destroy_roundtrip O r n u m pg l bs addr fl :
  mm_inv (H := H) O (2 * n + (2 * n + r)) u m pg l bs → (0 < n)%nat → addr mod PAGE_SIZE = 0 → 0 ≤ addr → addr + PAGE_SIZE * Z.of_nat n < 2 ^ 32 →
  2 * PAGE_SIZE * Z.of_nat n ≤ total bs → m ≠ NULL → m ≠ NODE → Forall (λ x, x.1 ≠ NULL) l →
  (∀ x l', l = x :: l' → v_start x.2 < addr + PAGE_SIZE * Z.of_nat n) → (∀ x, x ∈ l → ¬ overlaps addr (PAGE_SIZE * Z.of_nat n) x) →
  wp (create_uvm m addr (PAGE_SIZE * Z.of_nat n) fl u) (λ '(rc, u1), rc = 0 ∧
    wp (destroy_uvm m addr (PAGE_SIZE * Z.of_nat n) u1) (λ '(rc', u2), rc' = 0 ∧
      (∃ O', mm_inv (H := H) O' r u2 m pg l bs) ∧ (∀ va, fits 32 va → pte_of (bytes (mw u2)) pg va = pte_of (bytes (mw u)) pg va) ∧
      (∀ x q a, x ∈ l → held O u pg bs x q → in_page (q + KERN_BASE) a → bytes (mw u2) a = bytes (mw u) a))).
Proof.
  intros Hinv Hn Ham Ha0 Hab Htot Hm0 Hm1 Hl0 Hfirst Hno.
  destruct (create_result O (2 * n + r) n u m pg l bs addr fl Hinv Hn Ham Ha0 Hab Htot Hm0 Hm1 Hl0 Hfirst) as [[(x & Hx & Hov) _]|[_ Hw]]; [by destruct (Hno x)|].
  eapply wp_mono; [exact Hw|]. intros [rc u1] (-> & l1 & l2 & items & bs1 & -> & <- & Hc). split; [done|].
  destruct (cr_inv _ _ _ _ _ _ _ _ _ _ _ _ Hc) as [O1 Hi1]. destruct (areas_run m addr fl items) as [Hrun Hlen]. rewrite <-Hlen.
  eapply wp_mono; [apply (destroy_run_ok O1 r u1 m pg l1 (areas m addr fl items) l2 bs1); try done; [by rewrite Hlen| |]|].
  - intros E. rewrite E in Hlen. cbn in Hlen. lia.
  - apply Forall_forall. intros x (i & v & p & q & Hi & ->)%areas_items. cbn.
    destruct (cr_back _ _ _ _ _ _ _ _ _ _ _ _ Hc _ _ _ _ Hi) as [Hv _]. unfold NULL. lia.
  - intros [rc u2] (-> & O2 & bs2 & Hany2 & Hd). assert (bs2 = bs) as -> by by eapply undo_blocks.
    split_and!; [done|by exists O2| |].
    + intros va Hva. by eapply undo_pte.
    + intros x q a Hx Hq Ha. by eapply undo_content.
Qed.
End destroy.

(** ** Witnesses *)
Lemma destroy_uvm_correct_witness :
  wp (destroy_uvm (K := kmem demo_junk 1) 0x80103000 0x400000 (PAGE_SIZE * 1) space_u) (λ '(rc, u'), rc = 0 ∧
    pte_of (bytes (mw u')) 0x80101000 0x400123 = 0) ∧
  destroy_uvm (K := kmem demo_junk 1) 0x80103000 0x500000 (PAGE_SIZE * 1) space_u = Ok (- EFAULT, space_u) ∧
  destroy_uvm (K := kmem demo_junk 1) 0x80103000 0x400001 PAGE_SIZE space_u = Ok (- EINVAL, space_u).
Proof.
  pose proof space_inv as Hany. change (2 * 3 + 0)%nat with (2 * 1 + 4)%nat in Hany.
  assert (Forall (λ x, x.1 ≠ NULL) space_areas) as Hnn by by repeat constructor.
  split_and!.
  - destruct (destroy_uvm_correct (K := kmem demo_junk 1) (H := boot_H) space_objects 4 space_u 0x80103000 0x80101000 space_areas demo_bs 0x400000 1 Hany)
      as [(l1 & run & l2 & [El Hb Hr He Hz] & Hok & _) _]; [done|done|lia|done..|].
    assert (run = space_areas ∧ l1 = [] ∧ l2 = []) as (-> & -> & ->).
    { clear Hok. destruct l1 as [|y l1]; cbn in El.
      - destruct run as [|x run]; [specialize (Hz eq_refl); cbn in El; subst l2; by inversion Hz|]. cbn in El. injection El as <- El.
        symmetry in El. apply app_nil in El as [-> ->]. done.
      - injection El as <- El. by inversion Hb. }
    eapply wp_mono; [apply Hok; cbn; lia|]. intros [rc u'] (-> & O' & bs' & _ & Hd). clear Hok. split; [done|].
    apply (de_gone _ _ _ _ _ _ Hd (0x80103100, Vma 0x400000 PAGE_SIZE 0 0x80103000 0x80103200)); [left|done].
  - destruct (destroy_uvm_correct (K := kmem demo_junk 1) (H := boot_H) space_objects 4 space_u 0x80103000 0x80101000 space_areas demo_bs 0x500000 1 Hany)
      as [(l1 & run & l2 & [El Hb Hr He Hz] & _ & Hbad) _]; [done|done|lia|done..|].
    assert (run = []) as ->.
    { destruct run as [|x run]; [done|]. destruct (run_at_cons _ _ _ Hr) as [Hx _].
      assert (x ∈ space_areas) as ->%list_elem_of_singleton by (rewrite El, !elem_of_app; right; left; left). clear -Hx. discriminate. }
    apply Hbad. cbn. lia.
  - destruct (destroy_uvm_correct (K := kmem demo_junk 1) (H := boot_H) space_objects 4 space_u 0x80103000 0x80101000 space_areas demo_bs 0x400000 1 Hany)
      as [_ Hun]; [done|done|lia|done..|]. by apply Hun.
Defined.

Lemma create_destroy_roundtrip_witness :
  wp (create_uvm (K := kmem demo_junk 1) 0x80103000 0x500000 (PAGE_SIZE * 1) VMA_WRITE space_u) (λ '(rc, u1), rc = 0 ∧
    wp (destroy_uvm (K := kmem demo_junk 1) 0x80103000 0x500000 (PAGE_SIZE * 1) u1) (λ '(rc', u2), rc' = 0 ∧
      pte_of (bytes (mw u2)) 0x80101000 0x400123 = 0x1506c0 ∧ pte_of (bytes (mw u2)) 0x80101000 0x500123 = 0)).
Proof.
  eapply wp_mono; [apply (create_destroy_roundtrip (K := kmem demo_junk 1) (H := boot_H) space_objects 2 1 space_u 0x80103000 0x80101000
    space_areas demo_bs 0x500000 VMA_WRITE space_inv)|]; [lia|done|done|done|done|done|done|by repeat constructor|by intros x l' [= <- <-]| |].
  - intros x ->%list_elem_of_singleton [H1 H2]. by vm_compute in H1, H2.
  - intros [rc u1] [-> Hw]. split; [done|]. eapply wp_mono; [exact Hw|]. intros [rc u2] (-> & _ & Hp & _). split_and!; [done|..].
    + rewrite Hp by by unfold fits. apply space_pte. by unfold fits.
    + rewrite Hp by by unfold fits. apply space_pte. by unfold fits.
Defined.
