(* ===== verification/Lifetime.v ===== *)
(** * The life of an address space

    [mm_new] and [mm_destroy] of kern/mm/uvm.c over the interface and the invariant
    of Areas: a new address space satisfies the invariant, and destroying one gives
    back every frame, every table, the page index and all its objects. *)
From stdpp Require Import sorting.
From S2P Require Import Prelude Util DList MmState Libc Palloc Pmm Simple Vmm Init Cp0 Pgtable Sync Uvm Areas Teardown.

Section life.
Context {K : Kmem} {H : list (Z * Z) → nat → world → Prop} {HO : ObjLaws K H}.
Implicit Types (u : uvm) (O : list (Z * Z)) (bs : blocks).

(** ** A new address space *)

(** The state of the memory managers and the structures of the address spaces. *)
Record ready O (r : nat) u bs : Prop := Ready {
  rd_heap : H O r (mw u);
  rd_pages : pm_inv (mw u) bs;
  rd_owned : owned O u;
  rd_kernel : kernel_mm u = NULL ∨ (kernel_mm u, SIZEOF_MM) ∈ O }.

Lemma owned_delete O O' u u' m : owned O u → (∀ o, o ∈ O → o ≠ (m, SIZEOF_MM) → o ∈ O') → dom (ul u') ⊆ dom (ul u) ∖ {[m]} →
  vmas u' = vmas u → upgs u' = upgs u → owned O' u'.
Proof.
  intros [W1 W2 W3] HOO D1 Ev Eu. split.
  - intros a Ha. apply D1, elem_of_difference in Ha as [Ha Hne]. destruct (W1 a Ha) as (o & Ho & Hn). exists o. split; [|done]. apply HOO; [done|].
    intros ->. unfold node_of in Hn. cbn [fst snd] in Hn. destruct Hn as [[_ ->]|[[? _]|[? _]]]; [set_solver|done|done].
  - intros v Hv. rewrite Ev in Hv. apply HOO; [by apply W2|done].
  - intros p Hp. rewrite Eu in Hp. apply HOO; [by apply W3|done].
Qed.

Lemma empty_directory_ok (m m' : mem) q bs bs' : taken q PAGE_SIZE bs bs' → 0 ≤ q → q mod PAGE_SIZE = 0 → q + PAGE_SIZE ≤ KERN_BASE →
  filled q 0 PAGE_SIZE m m' → tables m' (q + KERN_BASE) bs' ∧ lean m' (q + KERN_BASE) ∧ ∀ va, pte_of m' (q + KERN_BASE) va = 0.
Proof.
  intros Htk Hq0 Hqm Hqb Hf. assert (∀ i, 0 ≤ i < 1024 → ent m' (q + KERN_BASE) i = 0) as Hz.
  { intros i Hi. unfold ent, ld32. rewrite !Hf, pa2kva_eq by (unfold PAGE_SIZE in *; lia).
    unfold PAGE_SIZE. rewrite !(proj2 (Z.leb_le _ _)), !(proj2 (Z.ltb_lt _ _)) by lia. done. }
  split_and!.
  - split; [|intros i Hi Hne; by rewrite Hz in Hne|intros i j Hi _ Hne; by rewrite Hz in Hne].
    unfold PAGE_SIZE, KERN_BASE in *. split_and!; unfold KERN_BASE; [Z.to_euclidean_division_equations; lia|lia|lia|].
    intros x Hx. apply Htk. unfold PAGE_SIZE. lia.
  - intros i Hi Hne. by rewrite Hz in Hne.
  - intros va. unfold pte_of. by rewrite Hz by apply PDX_bounds.
Qed.

Lemma init_pgindex_ok O r w bs : H O r w → pm_inv w bs → 0 < total bs →
  wp (init_pgindex w) (λ '(pg, w'), ∃ q bs', pg = q + KERN_BASE ∧ first_fit PAGE_SIZE bs = Some (q, bs') ∧ taken q PAGE_SIZE bs bs' ∧ 0 ≤ q ∧
    pt_inv (J := H O r) w' pg bs' ∧ lean (bytes w') pg ∧ (∀ va, pte_of (bytes w') pg va = 0) ∧
    (∀ a, ¬ in_page pg a → bytes w' a = bytes w a)).
Proof.
  intros HJ Hpm Htot. pose proof Hpm as (_ & (l & _ & _ & Hwf & _) & _). destruct (first_fit_page _ _ Hwf Htot) as (q & bs' & Eff).
  pose proof (pgalloc_ok (K := K) (J := H O r) w bs HJ Hpm) as Ha. rewrite Eff in Ha.
  apply wp_inv in Ha as ([r' w1] & E & -> & HJ1 & Hpm1 & Hby & Hq0 & Hqm & Hqb & Htk). unfold init_pgindex.
  rewrite E. cbn [mbind res_bind].
  rewrite (proj2 (Z.eqb_neq _ _)) by (change (w64 (-1)) with (2 ^ 64 - 1); unfold PAGE_SIZE, KERN_BASE in *; lia).
  apply wp_bind. change PAGE_SIZE with (PAGE_SIZE * 1) at 1. eapply wp_mono; [apply pmemset_ok; [by unfold mapped, PAGE_SIZE in *; lia|done]|].
  intros w2 (m' & -> & Hf). rewrite Hby in Hf. change (PAGE_SIZE * 1) with PAGE_SIZE in Hf. apply wp_ok. exists q, bs'.
  rewrite pa2kva_eq by (unfold PAGE_SIZE in *; lia).
  destruct (empty_directory_ok (bytes w) m' q bs bs' Htk Hq0 Hqm Hqb Hf) as (Ht & Hl & Hz). split_and!; try done.
  - split; [by eapply (km_frame (K := K))|]. split; [by apply pm_inv_bytes|done].
  - intros a Hna. cbn. rewrite (Hf a), pa2kva_eq by (unfold PAGE_SIZE in *; lia). unfold in_page, PAGE_SIZE in *. zcases; simpl; try done; lia.
Qed.

(** A new address space ([mm_new]), with an object and a page to be had: the
    result is a new structure that satisfies the invariant of the address spaces,
    without areas, with an empty page index in a page that was free; nothing of
    the other address spaces has changed. *)
Lemma mm_new_ok O r u bs : ready O (S r) u bs → 0 < total bs →
  wp (mm_new u) (λ '(m, u'), KERN_BASE ≤ m ∧ (∀ a o, o ∈ O → inside a (m, SIZEOF_MM) → ¬ inside a o) ∧ ∃ q bs',
    first_fit PAGE_SIZE bs = Some (q, bs') ∧ taken q PAGE_SIZE bs bs' ∧ mm_inv (H := H) ((m, SIZEOF_MM) :: O) r u' m (q + KERN_BASE) [] bs' ∧
    (∀ va, pte_of (bytes (mw u')) (q + KERN_BASE) va = 0) ∧
    vmas u' = vmas u ∧ upgs u' = upgs u ∧ mms u' = <[m := Mm 0 (q + KERN_BASE)]> (mms u) ∧ kernel_mm u' = kernel_mm u ∧ ul u' = <[m := Link m m]> (ul u) ∧
    (∀ a, ¬ in_page (q + KERN_BASE) a → bytes (mw u') a = bytes (mw u) a)).
Proof.
  intros [HJ Hpm Hown Hker] Htot. unfold mm_new, on_mw. apply wp_bind, wp_bind. eapply wp_mono; [apply (ol_alloc O r SIZEOF_MM); [left|done]|].
  intros [m w1] (Hm & Hfresh & Hsame & HJ1). apply wp_ok. rewrite (proj2 (Z.eqb_neq m NULL)) by (unfold NULL, KERN_BASE in *; lia). cbn [negb].
  destruct Hsame as (E1 & E2 & E3). assert (pm_inv w1 bs) as Hpm1 by (eapply pm_inv_same; [|exact Hpm]; done).
  apply wp_bind, wp_bind. cbn [mw list_init_new set_ul set_mw]. eapply wp_mono; [by apply (init_pgindex_ok ((m, SIZEOF_MM) :: O) r w1 bs)|].
  intros [pg w2] (q & bs' & -> & Eff & Htk & Hq0 & Hpt & Hlean & Hz & Hby). apply wp_ok.
  rewrite (proj2 (Z.eqb_neq _ NULL)) by (unfold NULL, KERN_BASE; lia). apply wp_ok.
  split_and!; [done|done|]. exists q, bs'. cbn [mms vmas upgs ul mw set_mms set_ul set_mw list_init_new].
  split_and!; try done; [|intros a Ha; rewrite Hby by done; by rewrite E3].
  split; cbn [mms vmas upgs ul mw set_mms set_ul set_mw list_init_new kernel_mm]; try done.
  - exists 0. by rewrite lookup_insert_eq.
  - destruct Hown as [W1 W2 W3]. split; cbn; rewrite ?dom_insert_L.
    + intros a [->%elem_of_singleton|Ha]%elem_of_union; [exists (m, SIZEOF_MM); split; [left|by left]|].
      destruct (W1 a Ha) as (o & Ho & Hn). exists o. split; [by right|done].
    + intros v Hv. right. by apply W2.
    + intros p Hp. right. by apply W3.
  - split; cbn.
    + split; [|apply NoDup_singleton]. cbn. unfold get_next, get_prev. by rewrite lookup_insert_eq.
    + constructor.
    + apply not_elem_of_dom. intros Hin. apply (Hfresh m (m - NODE, SIZEOF_VMA)); [by apply Hown|..]; unfold inside, SIZEOF_MM, SIZEOF_VMA, NODE; cbn; lia.
  - split; constructor.
  - intros va _ Hne. by rewrite Hz in Hne.
  - intros x []%elem_of_nil.
  - apply NoDup_singleton.
  - intros x y []%elem_of_nil.
  - split; [left|]. change (kernel_mm u ≠ m). destruct Hker as [->|Hk]; [unfold NULL, KERN_BASE in *; lia|]. intros <-. apply (Hfresh (kernel_mm u) _ Hk); unfold inside, SIZEOF_MM; cbn; lia.
  - change (kernel_mm u = NULL ∨ (kernel_mm u, SIZEOF_MM) ∈ (m, SIZEOF_MM) :: O). destruct Hker; [by left|right; by right].
Qed.

(** ** Destroying an address space

    [mm_destroy] frees the areas without taking them off the list.  Its state [u]
    is compared with the same state whose links [L] have been kept in order. *)
Definition relink (L : links) u : uvm := set_ul (λ _, L) u.

(** What the areas [xs] leave behind: the objects, structures and links of
    everything else. *)
Record spared O u (xs : list (Z * vma)) O' u' : Prop := Spared {
  sp_objects o : o ∈ O → (∀ x, x ∈ xs → o ≠ (x.1, SIZEOF_VMA) ∧ o ≠ (v_pages x.2, SIZEOF_UPAGES)) → o ∈ O';
  sp_vmas v : v ∉ xs.*1 → vmas u' !! v = vmas u !! v;
  sp_links y : y ∉ xs ≫= parts → ul u' !! y = ul u !! y;
  sp_kernel : kernel_mm u' = kernel_mm u }.

Lemma bind_one (x : Z * vma) : [x] ≫= parts = parts x.
Proof. reflexivity. Qed.

Lemma spared_nil O u : spared O u [] O u.
Proof. split; [|done..]. by intros o Ho _. Qed.

Lemma spared_cons O u x xs O1 u1 O2 u2 : spared O u [x] O1 u1 → spared O1 u1 xs O2 u2 → spared O u (x :: xs) O2 u2.
Proof.
  intros [A1 A2 A3 A4] [B1 B2 B3 B4]. split.
  - intros o Ho Hx. apply B1; [apply A1; [done|]|]; [intros y ->%list_elem_of_singleton; apply Hx; left|intros y Hy; apply Hx; by right].
  - intros v Hv. cbn in Hv. apply not_elem_of_cons in Hv as [N1 N2]. rewrite B2, A2; [done| |done]. change ([x].*1) with [x.1]. by rewrite list_elem_of_singleton.
  - intros y Hy. rewrite bind_cons, not_elem_of_app in Hy. destruct Hy as [N1 N2]. rewrite B3, A3; [done| |done]. by rewrite bind_one.
  - congruence.
Qed.

(** The step for the area [x], in front of the rest of the loop. *)
Lemma destroy_area_ok {A} O L u m pg x l bs q r (k : uvm → res A) (Q : A → Prop) : mm_inv (H := H) O (S (S r)) (relink L u) m pg (x :: l) bs → held O (relink L u) pg bs x q →
  (∀ u' O' bs' L', mm_inv (H := H) O' r (relink L' u') m pg l bs' → gone u pg x q bs u' bs' →
     spared O u [x] O' u' → (dom (ul u) ⊆ dom L → dom (ul u') ⊆ dom L') → wp (k u') Q) →
  wp (u ← clean_vma m x.1 u; vm ← get_vma u x.1; u ← release_vma x.1 (v_pages vm) u; k u) Q.
Proof.
  intros Hinv Hx Hk. pose proof Hinv as [[c Hmm] Hpt Hown Hl Ha _ _ _ Hnd _ _].
  pose proof Hx as [[Xs Xa] [Xu Xp (X1 & X2 & X3)] Xb Xi Xt Xh Xv Xo].
  assert (area_ok x.2) as (Y1 & Y2 & Y3) by (destruct Ha as [Ha _]; rewrite Forall_forall in Ha; apply Ha; left).
  assert (get_vma u x.1 = Ok x.2) as Hget by (apply (get_vma_area (relink L u) m _ x Hl); left).
  pose proof (area_unlink_ok L m [] x l (vl_list _ _ _ Hl) Xh Hnd) as Hun. apply wp_inv in Hun as (L2 & _ & Hdom & Hd & Hq).
  cbn [relink mw mms upgs vmas ul set_ul] in *.
  unfold clean_vma. rewrite Hget. cbn [mbind res_bind]. unfold get_upages. rewrite Xu. cbn [of_option mbind res_bind u_pages psize].
  unfold get_mm. rewrite Hmm. cbn [of_option mbind res_bind pgindex]. unfold v_end in Y3. rewrite Xs in *. rewrite Z.eqb_refl. cbn [assert_ mbind res_bind].
  assert (pte_of (bytes (mw u)) pg (v_start x.2) = Z.lor q (pgtable_perm (v_flags x.2))) as Ep by (apply Xp; unfold page_in, PAGE_SIZE; lia).
  assert (ent (bytes (mw u)) pg (PDX (v_start x.2)) ≠ 0) as Hne.
  { intros E0. unfold pte_of in Ep. rewrite E0 in Ep. by apply (perm_nonzero q (v_flags x.2)). }
  unfold on_mw. pose proof (unmap_page_ok (S r) (mw u) pg bs (v_start x.2) Hpt Xa Y1 Y3 Hne) as Hw. apply wp_inv in Hw as ([[n first] w1] & -> & -> & -> & bs1 & Hpt1 & Hsh & Hlean & Hpte). cbn [mbind res_bind of_option].
  rewrite Ep, PTE_PADDR_lor by (done || (unfold fits, KERN_BASE, PAGE_SIZE in *; lia) || (pose proof (perm_bounds (v_flags x.2)); lia)).
  cbn [paddr]. change (PAGE_SIZE =? sgn 32 PAGE_SIZE) with true. rewrite (Z.eqb_refl q). cbn [assert_ mbind res_bind].
  change (get_vma (set_mw w1 u) x.1) with (get_vma u x.1). rewrite Hget. cbn [mbind res_bind].
  apply wp_bind. eapply wp_mono.
  { apply (release_vma_ok O r (bytes (mw u)) (set_mw w1 u) pg (v_start x.2) x.1 (v_pages x.2) q bs bs1); cbn [mw set_mw upgs]; try done.
    intros a Hpa. by eapply (held_content O (relink L u)); [|apply Hpt|]. }
  cbn [mms vmas upgs ul set_mw]. intros u' (O' & bs' & Hpt' & Hfr & HOO & Em & Ev & Eu & El).
  assert (∀ y, y ∉ parts x → delete (x.1 + SHARE_NODE) (delete (x.1 + NODE) (delete (v_pages x.2 + UPAGES_HEAD) L2)) !! y = L2 !! y) as HL.
  { intros y Hy. unfold parts in Hy. rewrite !not_elem_of_cons in Hy. destruct Hy as (N1 & N2 & N3 & _). by rewrite !lookup_delete_ne by done. }
  eapply (Hk u' O' bs' (delete (x.1 + SHARE_NODE) (delete (x.1 + NODE) (delete (v_pages x.2 + UPAGES_HEAD) L2)))); [|split; [done| | |done]|split|].
  - apply (removed_inv_ok O O' (S (S r)) r (relink L u) (relink _ u') m pg [] x l bs bs' q Hinv Hx); cbn [relink mw mms upgs vmas ul set_ul kernel_mm app]; try done.
    + intros p Hp. by rewrite Eu, lookup_delete_ne.
    + eapply (owned_remove O O' (relink L u)); [exact Hown|exact HOO|..]; cbn [relink mw mms upgs vmas ul set_ul].
      * by rewrite !dom_delete_L, Hdom.
      * by rewrite Ev, dom_delete_L.
      * by rewrite Eu, dom_delete_L.
    + eapply dlist_frame; [|exact Hd]. intros y Hy. apply HL. intros Hyx. by apply (parts_not_nodes m [] l x y).
    + intros y Hy Hyx. rewrite HL by done. by apply Hq.
  - intros p Hp. by rewrite Eu, lookup_delete_ne.
  - rewrite Eu, Ev, !lookup_delete_eq. done.
  - intros o Ho Hno. destruct (Hno x); [left|]. by apply HOO.
  - intros v Hv%not_elem_of_cons. by rewrite Ev, lookup_delete_ne by (symmetry; apply Hv).
  - intros y Hy. rewrite bind_one in Hy. unfold parts in Hy. rewrite !not_elem_of_cons in Hy. destruct Hy as (N1 & N2 & N3 & _).
    by rewrite El, !lookup_delete_ne by done.
  - apply Em.
  - intros Hsub. rewrite El, !dom_delete_L, Hdom. set_solver.
Qed.

(** The links that the loop still follows. *)
Fixpoint follows (L : links) (m : Z) (ns : list Z) : Prop :=
  match ns with [] => m ∈ dom L | y :: ns => get_next L y = Ok (hd m ns) ∧ follows L m ns end.

Lemma dlist_follows L m ns1 ns2 : dlist L m (ns1 ++ ns2) → follows L m ns2.
Proof.
  revert ns1. induction ns2 as [|y ns2 IH]; intros ns1 Hd; cbn; [eapply dlist_dom; [exact Hd|left]|].
  split; [by apply (dlist_split L m ns1 y ns2)|]. apply (IH (ns1 ++ [y])). by rewrite <-app_assoc.
Qed.
Lemma follows_ext L L' m ns : (∀ y, y ∈ m :: ns → L' !! y = L !! y) → follows L m ns → follows L' m ns.
Proof.
  induction ns as [|y ns IH]; intros He; cbn.
  - rewrite !elem_of_dom, He by left. done.
  - intros [H1 H2]. split; [|apply IH; [set_solver|done]]. rewrite <-H1. unfold get_next. by rewrite He by (right; left).
Qed.
Lemma follows_next L m ns : follows L m ns → ∃ z, get_next L (hd m ns) = Ok z ∧ ∀ y ns', ns = y :: ns' → z = hd m ns'.
Proof.
  destruct ns as [|y ns]; cbn.
  - intros [k Hk]%elem_of_dom. exists (nx k). split; [|done]. apply get_next_ok. eauto.
  - intros [H1 _]. eexists. split; [exact H1|]. by intros ? ? [= <- <-].
Qed.

Lemma destroyed_relink L u pg run bs u' bs' : destroyed (relink L u) pg run bs u' bs' → destroyed u pg run bs u' bs'.
Proof. intros [D1 D2 D3 D4 D5 D6 D7 D8]. split; done. Qed.
Lemma gone_relink L u pg x q bs u' bs' : gone u pg x q bs u' bs' → gone (relink L u) pg x q bs u' bs'.
Proof. intros [G1 G2 G3 G4]. split; done. Qed.

Lemma destroy_loop_ok m pg r l : ∀ O L u bs fuel n', mm_inv (H := H) O (2 * length l + r) (relink L u) m pg l bs → follows (ul u) m (nodes l).*1 →
  (∀ y ns, (nodes l).*1 = y :: ns → n' = hd m ns) → (length l < fuel)%nat → dom (ul u) ⊆ dom L →
  wp (loop fuel (λ '(n, n', u),
    if n =? m then Ok (inr u)
    else
      let v := n - NODE in
      u ← clean_vma m v u;
      vm ← get_vma u v;
      u ← release_vma v (v_pages vm) u;
      n'' ← get_next (ul u) n';
      Ok (inl (n', n'', u))) (hd m (nodes l).*1, n', u))
  (λ u', ∃ O' bs' L', mm_inv (H := H) O' r (relink L' u') m pg [] bs' ∧ destroyed u pg l bs u' bs' ∧ spared O u l O' u' ∧ dom (ul u') ⊆ dom L').
Proof.
  induction l as [|x l IH]; intros O L u bs fuel n' Hinv Hfol Hn Hf Hdom; (destruct fuel as [|fuel]; [cbn in Hf; lia|]); rewrite loop_S.
  - cbn [nodes fmap list_fmap hd]. rewrite Z.eqb_refl. apply wp_ok. exists O, bs, L. split_and!; [done|apply destroyed_nil|apply spared_nil|done].
  - cbn [length] in Hf. assert (n' = hd m (nodes l).*1) as -> by by apply (Hn (x.1 + NODE)). destruct Hfol as [_ Hfol]. change ((nodes (x :: l)).*1) with (x.1 + NODE :: (nodes l).*1). cbn [hd].
    replace (2 * length (x :: l) + r)%nat with (S (S (2 * length l + r))) in Hinv by (cbn [length]; lia). pose proof (mi_nodes _ _ _ _ _ _ _ Hinv) as Hnd.
    assert (x.1 + NODE ≠ m) as Hne by (intros E; apply NoDup_cons in Hnd as [Hnd _]; apply Hnd; rewrite <-E; left).
    rewrite (proj2 (Z.eqb_neq _ _) Hne). cbv zeta. replace (x.1 + NODE - NODE) with x.1 by lia.
    destruct (mi_held _ _ _ _ _ _ _ Hinv x) as [q Hq]; [left|].
    apply wp_bind. eapply (destroy_area_ok O L u m pg x l bs q (2 * length l + r)); [done|done|].
    intros u1 O1 bs1 L1 Hany1 Hg Hsp Hdom1.
    assert (follows (ul u1) m (nodes l).*1) as Hfol1.
    { eapply follows_ext; [|exact Hfol]. intros y Hy. assert (y ∉ parts x) as Hyx by (intros Hyx; by apply (parts_not_nodes m [] l x y)).
      apply (sp_links _ _ _ _ _ Hsp). by rewrite bind_one. }
    destruct (follows_next _ _ _ Hfol1) as (z & -> & Hz). cbn [mbind res_bind]. apply wp_ok.
    eapply wp_mono; [apply (IH O1 L1 u1 bs1 fuel z Hany1 Hfol1 Hz); [lia|by apply Hdom1]|]. intros u2 (O2 & bs2 & L2 & Hany2 & Hde & Hsp2 & Hdom2). exists O2, bs2, L2.
    split_and!; [done| |by eapply spared_cons|done].
    apply (destroyed_relink L). eapply (destroyed_step O (S (S (2 * length l + r))) (relink L u) m pg [] x l []); [by rewrite app_nil_r|done|by apply gone_relink|done].
Qed.

(** Without areas there are no tables. *)
Lemma no_tables O r u m pg bs i : mm_inv (H := H) O r u m pg [] bs → 0 ≤ i < 1024 → ent (bytes (mw u)) pg i = 0.
Proof.
  intros Hinv Hi. destruct (decide (ent (bytes (mw u)) pg i = 0)) as [|Hne]; [done|]. exfalso.
  destruct (mi_lean _ _ _ _ _ _ _ Hinv i Hi Hne) as (va & Hva & _ & Hnz). by destruct (mi_cover _ _ _ _ _ _ _ Hinv va Hva Hnz) as (x & []%elem_of_nil & _).
Qed.

Lemma table_byte_dropped m m' pg y : (∀ i, 0 ≤ i < 1024 → ent m' pg i = 0) →
  table_byte m pg (y + KERN_BASE) ↔ in_page pg (y + KERN_BASE) ∨ dropped m m' pg y.
Proof.
  intros Hz. unfold table_byte, dropped. split; (intros [Ha|(i & Hi & R)]; [by left|right; exists i]).
  - destruct R as [R1 R2]. exact (conj Hi (conj R1 (conj (Hz i Hi) R2))).
  - destruct R as (R1 & _ & R3). exact (conj Hi (conj R1 R3)).
Qed.

(** The page index and the structure itself. *)
Lemma destroy_index_ok O r L u m pg bs : mm_inv (H := H) O (S r) (relink L u) m pg [] bs → dom (ul u) ⊆ dom L →
  wp (mm ← get_mm u m; u ← on_mw_ (destroy_pgindex (pgindex mm)) u; on_mw_ (kfree m) (set_ul (delete m) (set_mms (delete m) u)))
    (λ u', ∃ O' bs', ready O' r u' bs' ∧ (∀ o, o ∈ O → o ≠ (m, SIZEOF_MM) → o ∈ O') ∧ ul u' = delete m (ul u) ∧ kernel_mm u' = kernel_mm u ∧ (∀ y, avail bs' y ↔ avail bs y ∨ in_page pg (y + KERN_BASE)) ∧
       (∀ a, ¬ in_page pg a → bytes (mw u') a = bytes (mw u) a) ∧ mms u' = delete m (mms u) ∧ vmas u' = vmas u ∧ upgs u' = upgs u).
Proof.
  intros [[c Hmm] (HJ & Hpm & Ht) Hown _ _ _ _ _ _ _ [Hself Hkm] Hker] Hdom. cbn [relink mms mw set_ul kernel_mm] in *.
  unfold get_mm. rewrite Hmm. cbn [of_option mbind res_bind pgindex]. unfold on_mw_, destroy_pgindex.
  destruct (tb_page _ _ _ Ht) as (P1 & P2 & P3 & P4).
  assert (kva2pa pg = pg - KERN_BASE) as -> by (unfold kva2pa; rewrite wrap_small; unfold fits, KERN_BASE in *; lia).
  pose proof (pgfree_room (J := H O) r (pg - KERN_BASE) (mw u) bs HJ Hpm) as Hf.
  apply wp_inv in Hf as (w1 & -> & HJ1 & Hpm1 & Hfill);
    [|lia|unfold PAGE_SIZE, KERN_BASE in *; Z.to_euclidean_division_equations; lia|unfold PAGE_SIZE, KERN_BASE in *; lia|exact P4].
  cbn [mbind res_bind]. cbn [mw set_ul set_mms set_mw].
  apply list_elem_of_split in Hself as (O1 & O2 & ->). apply wp_bind. eapply wp_mono; [by apply (ol_free O1 m SIZEOF_MM O2 r)|].
  intros w2 [(E1 & E2 & E3) HJ2]. apply wp_ok. exists (O1 ++ O2), (put_block (pg - KERN_BASE) PAGE_SIZE bs). cbn [mw mms vmas upgs ul kernel_mm set_mw set_ul set_mms].
  assert (∀ o, o ∈ O1 ++ (m, SIZEOF_MM) :: O2 → o ≠ (m, SIZEOF_MM) → o ∈ O1 ++ O2) as HOO by set_solver.
  split_and!; try done.
  { split; cbn [mw mms vmas upgs ul kernel_mm set_mw set_ul set_mms]; [done|by eapply pm_inv_same| |].
    - apply (owned_delete (O1 ++ (m, SIZEOF_MM) :: O2) _ (relink L u) _ m); [done|done| |done|done]. cbn [ul relink set_ul set_mw set_mms]. rewrite dom_delete_L. set_solver.
    - destruct Hker; [by left|right]. apply HOO; [done|]. by intros [= E]. }
  - intros y. destruct Hpm as (_ & (l & _ & _ & Hwf & _) & _).
    destruct (put_block_wf (-1) (pg - KERN_BASE) PAGE_SIZE bs Hwf) as (_ & _ & Ha); try done; unfold PAGE_SIZE, KERN_BASE in *;
      [lia|Z.to_euclidean_division_equations; lia|lia|]. rewrite Ha. unfold in_page. split_lia.
  - intros a Ha. rewrite E3, (Hfill a), pa2kva_eq by (unfold KERN_BASE in *; lia). unfold in_page, PAGE_SIZE, KERN_BASE in *. zcases; simpl; try done; lia.
Qed.

(** What an address space without areas leaves behind. *)
Record elsewhere O u (m : Z) (l : list (Z * vma)) O' u' : Prop := Elsewhere {
  el_objects o : o ∈ O → o ≠ (m, SIZEOF_MM) → (∀ x, x ∈ l → o ≠ (x.1, SIZEOF_VMA) ∧ o ≠ (v_pages x.2, SIZEOF_UPAGES)) → o ∈ O';
  el_vmas v : v ∉ l.*1 → vmas u' !! v = vmas u !! v;
  el_links y : y ∉ m :: l ≫= parts → ul u' !! y = ul u !! y;
  el_kernel : kernel_mm u' = kernel_mm u }.

(** The address space [m] of [u] is gone in [u']. *)
Record emptied u (m pg : Z) (l : list (Z * vma)) bs u' bs' : Prop := Emptied {
  em_avail y : avail bs' y ↔ avail bs y ∨ (∃ x, x ∈ l ∧ owns u x y) ∨ table_byte (bytes (mw u)) pg (y + KERN_BASE);
  em_bytes a : ¬ table_byte (bytes (mw u)) pg a → (∀ x, x ∈ l → ¬ owns u x (a - KERN_BASE)) → bytes (mw u') a = bytes (mw u) a;
  em_mms : mms u' = delete m (mms u);
  em_dead x : x ∈ l → upgs u' !! v_pages x.2 = None;
  em_upgs p : p ∉ v_pages ∘ snd <$> l → upgs u' !! p = upgs u !! p }.

Lemma mm_destroy_result O r u m pg l bs : mm_inv (H := H) O (2 * length l + S r) u m pg l bs → m ≠ NULL →
  wp (mm_destroy m u) (λ u', ∃ O' bs', ready O' r u' bs' ∧ emptied u m pg l bs u' bs' ∧ elsewhere O u m l O' u').
Proof.
  intros Hinv Hm0. destruct (mi_self _ _ _ _ _ _ _ Hinv) as [_ Hk]. pose proof (vl_list _ _ _ (mi_list _ _ _ _ _ _ _ Hinv)) as Hd.
  unfold mm_destroy. rewrite (proj2 (Z.eqb_neq _ _) Hm0), (proj2 (Z.eqb_neq m (kernel_mm u))) by congruence. cbn [orb].
  rewrite (dlist_next _ _ _ Hd). cbn [mbind res_bind]. pose proof (dlist_follows (ul u) m [] _ Hd) as Hfol.
  destruct (follows_next _ _ _ Hfol) as (z & -> & Hz). cbn [mbind res_bind]. apply wp_bind.
  assert (length l < S (size (ul u)))%nat as Hlen.
  { pose proof (NoDup_dom_length (ul u) (nodes l).*1 (NoDup_cons_1_2 _ _ (proj2 Hd))) as Hle.
    unfold nodes in Hle. rewrite !length_fmap in Hle. assert (length l ≤ size (ul u))%nat; [|lia].
    apply Hle. intros y Hy. eapply dlist_dom; [exact Hd|by right]. }
  eapply wp_mono; [apply (destroy_loop_ok m pg (S r) l O (ul u) u bs _ z); [by destruct u|done|done|done|done]|].
  intros u1 (O1 & bs1 & L1 & Hany1 & [D1 D2 D3 D4 D5 D6 D7 D8] & [S1 S2 S3 S4] & Hdom). eapply wp_mono; [by apply (destroy_index_ok O1 r L1 u1 m pg bs1)|].
  intros u2 (O2 & bs2 & Hready & HOO & El & Ek & Hav & Hby & Em & Ev & Eu). exists O2, bs2.
  assert (∀ i, 0 ≤ i < 1024 → ent (bytes (mw u1)) pg i = 0) as Hz1 by (intros i Hi; by apply (no_tables O1 (S r) (relink L1 u1) m pg bs1)).
  split_and!; [done| |split].
  2: { intros o Ho Hne Hx. apply HOO; [by apply S1|done]. }
  2: { intros v Hv. rewrite Ev. by apply S2. }
  2: { intros y Hy. apply not_elem_of_cons in Hy as [N1 N2]. rewrite El, lookup_delete_ne by done. by apply S3. }
  2: { congruence. }
  split; [| |congruence|by intros x Hx; rewrite Eu; apply D7|by intros p Hp; rewrite Eu; apply D6].
  - intros y. rewrite (Hav y), (D3 y). assert (table_byte (bytes (mw u)) pg (y + KERN_BASE) ↔ in_page pg (y + KERN_BASE) ∨ dropped (bytes (mw u)) (bytes (mw u1)) pg y) as ->.
    { apply (table_byte_dropped _ _ _ _ Hz1). }
    tauto.
  - intros a Ha Hno. rewrite Hby by (intros Hp; apply Ha; by left). by apply D2.
Qed.

(** C12. Destroying an address space ([mm_destroy]), with the invariant of the
    address spaces and room in the object allocator for the block structures: the
    call returns; the free memory is then what was free before,
    the frames of all areas, all page tables and the page index; nothing else is
    written, the structure is gone, and so are the pages of the areas; the
    structures, objects and links of the other address spaces are as they were,
    and new address spaces can be made.  For NULL
    and for the kernel's own address space nothing happens. *)
Theorem mm_destroy_correct O r u m pg l bs : mm_inv (H := H) O (2 * length l + S r) u m pg l bs → m ≠ NULL →
  wp (mm_destroy m u) (λ u', ∃ O' bs', ready O' r u' bs' ∧ emptied u m pg l bs u' bs' ∧ elsewhere O u m l O' u') ∧
  mm_destroy NULL u = Ok u ∧ mm_destroy (kernel_mm u) u = Ok u.
Proof. intros Hinv Hm0. split; [by apply (mm_destroy_result O)|split; [done|unfold mm_destroy; by rewrite Z.eqb_refl, orb_true_r]]. Qed.

(** C10. The whole life of an address space: [mm_new], [create_uvm] of some pages and
    [mm_destroy] leave the list of free blocks as it was, so that no frame, no
    page table and no page index is lost; the structure is gone, and the
    bytes that were in use have not changed, and the next one can be made. *)
Theorem mm_life_roundtrip O r n u bs addr fl : ready O (S (2 * n + (2 * n + S r))) u bs → (0 < n)%nat → addr mod PAGE_SIZE = 0 → 0 ≤ addr →
  addr + PAGE_SIZE * Z.of_nat n < 2 ^ 32 → PAGE_SIZE + 2 * PAGE_SIZE * Z.of_nat n ≤ total bs →
  wp (mm_new u) (λ '(m, u1), m ≠ NULL ∧
    wp (create_uvm m addr (PAGE_SIZE * Z.of_nat n) fl u1) (λ '(rc, u2), rc = 0 ∧
      wp (mm_destroy m u2) (λ u3, (∃ O', ready O' r u3 bs) ∧ mms u3 !! m = None ∧
        (∀ a, ¬ avail bs (a - KERN_BASE) → bytes (mw u3) a = bytes (mw u) a)))).
Proof.
  intros Hready Hn Ham Ha0 Hab Htot. pose proof Hready as [_ Hpm _ _]. pose proof Hpm as (_ & (lb & _ & _ & Hwf & _) & _).
  eapply wp_mono; [apply (mm_new_ok O (2 * n + (2 * n + S r)) u bs Hready); unfold PAGE_SIZE in *; lia|].
  intros [m u1] (Hm & _ & q & bs1 & Eff & Htk & Hinv1 & _ & _ & _ & _ & _ & _ & Hby). unfold KERN_BASE in Hm. split; [unfold NULL; lia|].
  destruct (first_fit_wf PAGE_SIZE (-1) bs q bs1 Hwf) as (_ & Htot1 & _); [done|done|done|].
  assert (∀ i, 0 ≤ i < 1024 → ent (bytes (mw u1)) (q + KERN_BASE) i = 0) as Hz1
    by (intros i Hi; by eapply (no_tables _ _ u1 m _ bs1)).
  destruct (create_result ((m, SIZEOF_MM) :: O) (2 * n + S r) n u1 m (q + KERN_BASE) [] bs1 addr fl Hinv1) as [[(x & []%elem_of_nil & _) _]|[_ Hw]];
    [done|done|done|done|lia|unfold NULL; lia|unfold NODE; lia|constructor|done|].
  eapply wp_mono; [exact Hw|]. intros [rc u2] (-> & l1 & l2 & items & bs2 & El & Hlen & Hc). split; [done|].
  symmetry in El. apply app_nil in El as [-> ->]. destruct (cr_inv _ _ _ _ _ _ _ _ _ _ _ _ Hc) as [O2 Hi2]. rewrite app_nil_r in Hi2. cbn [app] in Hi2.
  eapply wp_mono; [apply (mm_destroy_result O2 r u2 m (q + KERN_BASE) (areas m addr fl items) bs2); [by rewrite (proj2 (areas_run m addr fl items)), Hlen|unfold NULL; lia]|]. intros u3 (O3 & bs3 & Hready3 & [Hav Hb3 Em _ _] & _). pose proof (rd_pages _ _ _ _ Hready3) as Hpm3.
  assert (∀ y, table_byte (bytes (mw u2)) (q + KERN_BASE) (y + KERN_BASE) ∨ (∃ x, x ∈ areas m addr fl items ∧ owns u2 x y) ∨ avail bs2 y ↔ avail bs y) as Hall.
  { intros y. rewrite (proj1 Htk y), (cr_avail _ _ _ _ _ _ _ _ _ _ _ _ Hc y), (created_owns _ _ _ _ _ _ _ _ _ _ _ _ y Hc), (table_byte_dropped _ _ _ y Hz1).
    assert (in_page (q + KERN_BASE) (y + KERN_BASE) ↔ q ≤ y < q + PAGE_SIZE) as -> by (unfold in_page, PAGE_SIZE; split_lia). tauto. }
  assert (bs3 = bs) as ->.
  { destruct Hpm3 as (_ & (? & _ & _ & Hwf3 & _) & _). apply (wf_unique (-1)); [done|done|]. intros y. rewrite (Hav y), <-(Hall y). tauto. }
  split_and!; [by exists O3|by rewrite Em, lookup_delete_eq|].
  intros a Ha. rewrite <-(Hall (a - KERN_BASE)) in Ha. replace (a - KERN_BASE + KERN_BASE) with a in Ha by lia.
  rewrite Hb3, (gr_bytes _ _ _ (cr_grown _ _ _ _ _ _ _ _ _ _ _ _ Hc)), Hby; try tauto.
  - intros Hp. apply Ha. left. by left.
  - intros x Hx Ho. apply Ha. right. left. by exists x.
Qed.
End life.

(** ** Witnesses *)
Lemma space_ready : ready (H := boot_H) space_objects 6 space_u demo_bs.
Proof.
  destruct space_inv as [_ (HJ & Hpm & _) Hown _ _ _ _ _ _ _ _]. split; [done|done|done|by left].
Qed.

Lemma mm_destroy_correct_witness :
  wp (mm_destroy (K := kmem demo_junk 1) 0x80103000 space_u) (λ u', mms u' !! 0x80103000 = None ∧ upgs u' !! 0x80103200 = None ∧
    ∃ bs', pm_inv (mw u') bs' ∧ avail bs' 0x150010 ∧ avail bs' 0x101010 ∧ avail bs' 0x102010) ∧
  mm_destroy (K := kmem demo_junk 1) NULL space_u = Ok space_u.
Proof.
  destruct (mm_destroy_correct (K := kmem demo_junk 1) (H := boot_H) space_objects 3 space_u 0x80103000 0x80101000 space_areas demo_bs) as (Hw & Hn & _);
    [exact space_inv|done|]. split; [|exact Hn].
  eapply wp_mono; [exact Hw|]. clear Hw Hn. intros u' (O' & bs' & [_ Hpm _ _] & [Hav _ Em Hg _] & _). split_and!.
  - by rewrite Em, lookup_delete_eq.
  - apply (Hg (0x80103100, Vma 0x400000 PAGE_SIZE 0 0x80103000 0x80103200)). left.
  - exists bs'. split_and!; [done|apply Hav..]; right.
    + left. eexists. split; [left|]. exists 0x150000, 1. by split.
    + right. left. by vm_compute.
    + right. right. exists 1. cbn [mw space_u]. rewrite space_ent by done. by split_and!.
Defined.

Lemma mm_life_roundtrip_witness :
  wp (mm_new (K := kmem demo_junk 1) space_u) (λ '(m, u1), m ≠ NULL ∧
    wp (create_uvm (K := kmem demo_junk 1) m 0x500000 (PAGE_SIZE * 1) VMA_WRITE u1) (λ '(rc, u2), rc = 0 ∧
      wp (mm_destroy (K := kmem demo_junk 1) m u2) (λ u3, pm_inv (mw u3) demo_bs ∧ mms u3 !! m = None))).
Proof.
  eapply wp_mono; [apply (mm_life_roundtrip (K := kmem demo_junk 1) (H := boot_H) space_objects 0 1 space_u demo_bs 0x500000 VMA_WRITE space_ready)|];
    [lia|done|done|done|done|].
  intros [m u1] [Hm Hw]. split; [exact Hm|]. eapply wp_mono; [exact Hw|]. intros [rc u2] [-> Hd]. split; [reflexivity|].
  eapply wp_mono; [exact Hd|]. clear. intros u3 ((O' & [_ H1 _ _]) & H3 & _). split; [exact H1|exact H3].
Defined.
