(* ===== verification/Clone.v ===== *)
(** * Copying an address space

    [mm_clone] of kern/mm/uvm.c, over the interface and the invariant of Areas: two
    address spaces live side by side, and one grows while the other keeps
    everything it has. *)
From stdpp Require Import sorting.
From S2P Require Import Prelude Util DList MmState Libc Palloc Pmm Simple Vmm Init Cp0 Pgtable Sync Uvm Areas Teardown Lifetime.

Section clone.
Context {K : Kmem} {H : list (Z * Z) → nat → world → Prop} {HO : ObjLaws K H}.
Implicit Types (u : uvm) (O : list (Z * Z)) (bs : blocks).

(** The memory and the objects of an address space. *)
Definition space_byte u (pg : Z) (l : list (Z * vma)) (a : Z) : Prop :=
  table_byte (bytes (mw u)) pg a ∨ ∃ x, x ∈ l ∧ owns u x (a - KERN_BASE).
Definition space_object (m : Z) (l : list (Z * vma)) (o : Z * Z) : Prop :=
  o = (m, SIZEOF_MM) ∨ ∃ x, x ∈ l ∧ (o = (x.1, SIZEOF_VMA) ∨ o = (v_pages x.2, SIZEOF_UPAGES)).

(** They are in use. *)
Lemma space_busy O r u m pg l bs a : mm_inv (H := H) O r u m pg l bs → space_byte u pg l a → ¬ avail bs (a - KERN_BASE).
Proof.
  intros Hi [Ha|(x & Hx & q & c & Hu & Hf)].
  - by eapply tables_busy; [apply (mi_pt _ _ _ _ _ _ _ Hi)|].
  - destruct (mi_held _ _ _ _ _ _ _ Hi x Hx) as [q' Hq]. pose proof (bk_pages _ _ _ _ _ _ (hd_back _ _ _ _ _ _ Hq)) as E.
    rewrite E in Hu. injection Hu as -> <-. by apply (hd_busy _ _ _ _ _ _ Hq).
Qed.
Lemma space_owned O r u m pg l bs o : mm_inv (H := H) O r u m pg l bs → space_object m l o → o ∈ O.
Proof.
  intros Hi [->|(x & Hx & Ho)]; [apply (mi_self _ _ _ _ _ _ _ Hi)|]. destruct (mi_held _ _ _ _ _ _ _ Hi x Hx) as [q [_ _ _ _ _ _ O1 O2]]. by destruct Ho as [-> | ->].
Qed.

(** An address space keeps its invariant while its structures, its links, its
    tables, its memory and its objects stay. *)
Lemma mm_inv_keep O r u m pg l bs O' r' u' bs' : mm_inv (H := H) O r u m pg l bs →
  H O' r' (mw u') → pm_inv (mw u') bs' → owned O' u' → kernel_mm u' = NULL ∨ (kernel_mm u', SIZEOF_MM) ∈ O' →
  (∀ o, space_object m l o → o ∈ O') → mms u' !! m = mms u !! m → kernel_mm u' = kernel_mm u →
  vmas u' !! (m - NODE) = None → (∀ x, x ∈ l → vmas u' !! x.1 = vmas u !! x.1 ∧ upgs u' !! v_pages x.2 = upgs u !! v_pages x.2) →
  (∀ y, y ∈ m :: l ≫= parts → ul u' !! y = ul u !! y) → (∀ a, table_byte (bytes (mw u)) pg a → bytes (mw u') a = bytes (mw u) a) →
  (∀ a, space_byte u pg l a → ¬ avail bs' (a - KERN_BASE)) → mm_inv (H := H) O' r' u' m pg l bs'.
Proof.
  intros [[c Hmm] (_ & _ & Ht) _ Hl Ha Hlean Hcov Hheld Hnd Hap [Hself Hk] _] HJ Hpm Hown Hker HOO Em Ek Hh Hx Hy Hb Hav.
  split; [exists c; by rewrite Em|split_and!; [done|done|]|done| |done|by apply (kept_lean (bytes (mw u)))| | |done| | |done].
  - apply (kept_tables (bytes (mw u)) _ _ Hb bs); [|done]. intros a Ha'. apply Hav. by left.
  - split; [|apply Forall_forall; intros x Hxl; rewrite (proj1 (Hx x Hxl)); by apply (proj1 (Forall_forall _ _) (vl_store _ _ _ Hl))|done].
    eapply dlist_frame; [|apply Hl]. intros y [->|(x & Hxl & ->)%elem_of_nodes]%elem_of_cons; apply Hy; [left|right].
    eapply elem_of_parts; [done|left].
  - intros va Hva. rewrite (kept_pte (bytes (mw u))) by done. by apply Hcov.
  - intros x Hxl. destruct (Hheld x Hxl) as [q Hq]. exists q. pose proof Hq as [_ [Hu _ _] Hbusy _ Htab _ O1 O2]. eapply held_frame; [exact Hq|by apply Hx|..].
    + intros va _. by apply kept_pte.
    + intros y Hf Hy'. apply (Hav (y + KERN_BASE)); replace (y + KERN_BASE - KERN_BASE) with y by lia; [|done]. right. exists x. split; [done|]. exists q, 1.
      by replace (y + KERN_BASE - KERN_BASE) with y by lia.
    + intros i Hi. rewrite (kept_ent (bytes (mw u)) _ pg) by done. by apply Htab.
    + intros y Hyt. apply Hy. right. eapply elem_of_parts; [done|]. unfold parts in *. cbn in Hyt. by right.
    + apply HOO. right. exists x. auto.
    + apply HOO. right. exists x. auto.
  - intros x y Hxl Hyl Hne. rewrite (proj2 (Hx x Hxl)), (proj2 (Hx y Hyl)). by apply Hap.
  - rewrite Ek. split; [apply HOO; by left|done].
Qed.

(** So it does while memory and objects are taken. *)
Lemma mm_inv_frame O r u m pg l bs O' r' u' bs' : mm_inv (H := H) O r u m pg l bs →
  H O' r' (mw u') → pm_inv (mw u') bs' → owned O' u' → O ⊆ O' → mms u' !! m = mms u !! m → kernel_mm u' = kernel_mm u →
  vmas u' !! (m - NODE) = None → (∀ x, x ∈ l → vmas u' !! x.1 = vmas u !! x.1 ∧ upgs u' !! v_pages x.2 = upgs u !! v_pages x.2) →
  (∀ y, y ∈ m :: l ≫= parts → ul u' !! y = ul u !! y) → (∀ a, table_byte (bytes (mw u)) pg a → bytes (mw u') a = bytes (mw u) a) →
  (∀ y, avail bs' y → avail bs y) → mm_inv (H := H) O' r' u' m pg l bs'.
Proof.
  intros Hi HJ Hpm Hown HOO Em Ek Hh Hx Hy Hb Hav. eapply mm_inv_keep; try done.
  - rewrite Ek. destruct (mi_kernel _ _ _ _ _ _ _ Hi); [by left|right; by apply HOO].
  - intros o Ho. apply HOO. by eapply space_owned.
  - intros a Ha Hf. eapply space_busy; [exact Hi|exact Ha|by apply Hav].
Qed.

(** What runs in front of the linking writes memory only: it could as well run
    behind it. *)
Lemma add_vma_copy m addr sz fl psz pf cur src n u v u1 vm up d mb :
  add_vma m addr sz fl psz pf cur (λ _ u, Ok u) u = Ok (0, v, u1) → vmas u1 !! v = Some vm → upgs u1 !! v_pages vm = Some up →
  memmove (pa2kva (paddr (u_pages up))) src n (bytes (mw u1)) = Ok (d, mb) →
  add_vma m addr sz fl psz pf cur (λ p u, np ← get_upages u p; memmove_w (pa2kva (paddr (u_pages np))) src n u) u =
    Ok (0, v, set_mw (upd_bytes (λ _, mb) (mw u1)) u1).
Proof.
  unfold add_vma. destruct (vma_new m addr sz fl u) as [[v0 u2]|]; [|done]. cbn [mbind res_bind].
  destruct (v0 =? NULL); [by intros [=]|]. destruct (upages_new psz pf u2) as [[p u3]|]; [|done]. cbn [mbind res_bind].
  destruct (p =? NULL); [destruct (free_vma v0 u3); by intros [=]|]. destruct (alloc_upages p u3) as [[rc u4]|]; [|done]. cbn [mbind res_bind].
  destruct (rc <? 0); [destruct (free_upages p u4) as [u5|]; [|done]; cbn [mbind res_bind]; destruct (free_vma v0 u5); by intros [=]|].
  destruct (get_upages u4 p) as [up4|] eqn:E4; [|done]. cbn [mbind res_bind]. destruct (get_mm u4 m) as [mm|]; [|done]. cbn [mbind res_bind].
  destruct (on_mw _ u4) as [[rc' u5]|] eqn:Emw; [|done]. cbn [mbind res_bind]. destruct (Z.ltb_spec rc' 0).
  { destruct (on_mw_ _ u5) as [u6|]; [|done]. cbn [mbind res_bind]. destruct (free_upages p u6) as [u7|]; [|done]. cbn [mbind res_bind].
    destruct (free_vma v0 u7); [|done]. cbn [mbind res_bind]. intros [=]. lia. }
  cbn [mbind res_bind]. destruct (get_vma u5 v0) as [vm0|] eqn:Ev; [|done]. cbn [mbind res_bind].
  unfold ref_upages, get_upages, memmove_w. cbn [upgs set_vmas]. destruct (upgs u5 !! p) as [up0|] eqn:Eu; [|done]. cbn [of_option mbind res_bind].
  unfold on_ul. cbn [ul set_upgs set_vmas]. destruct (list_add_after (v0 + NODE) (cur + NODE) (ul u5)) as [L1|] eqn:EL1; [|done]. cbn [mbind res_bind ul set_ul].
  destruct (list_add_after (v0 + SHARE_NODE) (p + UPAGES_HEAD) L1) as [L2|] eqn:EL2; [|done]. cbn [mbind res_bind].
  intros [= <- <-]. cbn [vmas upgs mw set_ul set_upgs set_vmas]. rewrite lookup_insert_eq. intros [= <-]. cbn [v_pages]. rewrite lookup_insert_eq.
  intros [= <-]. cbn [u_pages]. intros ->. cbn [mbind res_bind]. unfold get_vma in *. cbn [vmas set_mw]. rewrite Ev. cbn [mbind res_bind].
  cbn [upgs set_vmas set_mw]. rewrite Eu. cbn [of_option mbind res_bind ul set_upgs set_vmas set_mw]. rewrite EL1. cbn [mbind res_bind ul set_ul]. rewrite EL2. done.
Qed.

(** ** The copies

    Per area of [l] an item: the new vma, its pages and their frame. *)
Definition clones (dst : Z) (l : list (Z * vma)) (items : list (Z * Z * Z)) : list (Z * vma) :=
  zip_with (λ x '(v, p, _), (v, Vma (v_start x.2) (v_size x.2) (v_flags x.2) dst p)) l items.

Lemma clones_lookup dst l items i x v p q : l !! i = Some x → items !! i = Some (v, p, q) →
  clones dst l items !! i = Some (v, Vma (v_start x.2) (v_size x.2) (v_flags x.2) dst p).
Proof. intros Hx Hi. unfold clones. by rewrite lookup_zip_with, Hx, Hi. Qed.
Lemma clones_elem dst l items y : y ∈ clones dst l items →
  ∃ i x v p q, l !! i = Some x ∧ items !! i = Some (v, p, q) ∧ y = (v, Vma (v_start x.2) (v_size x.2) (v_flags x.2) dst p).
Proof.
  intros (i & Hi)%list_elem_of_lookup. unfold clones in Hi. apply lookup_zip_with_Some in Hi as (x & [[v p] q] & -> & Hx & Hi). by exists i, x, v, p, q.
Qed.
Lemma clones_snoc dst l items x v p q : length items = length l →
  clones dst (l ++ [x]) (items ++ [(v, p, q)]) = clones dst l items ++ [(v, Vma (v_start x.2) (v_size x.2) (v_flags x.2) dst p)].
Proof. intros Hl. unfold clones. by rewrite zip_with_app. Qed.

(** The next area fits behind the copies of those in front of it. *)
Lemma clones_gap dst k x l items b v : areas_ok (k ++ x :: l) → areas_ok (clones dst k items) → v_start v = v_start x.2 → v_size v = v_size x.2 →
  areas_ok (clones dst k items ++ [(b, v)]).
Proof.
  intros Hs Hc E1 E2. apply sorted_insert; [by rewrite app_nil_r| | |by intros y []%elem_of_nil].
  - destruct Hs as [Hs _]. rewrite Forall_app, Forall_cons in Hs. destruct Hs as (_ & Hx & _). unfold area_ok, v_end in *. cbn [snd]. by rewrite E1, E2.
  - intros y (i & z & v0 & p & q & Hz & _ & ->)%clones_elem. cbn [snd]. rewrite E1. apply (sorted_last k x l z Hs). by eapply list_elem_of_lookup_2.
Qed.

(** The copies of the areas [k] in [dst], with the page index [pg]: what they are
    and what they leave alone. *)
Record cloned O (r : nat) u (dst pg : Z) (k : list (Z * vma)) bs (items : list (Z * Z * Z)) u' O' bs' : Prop := Cloned {
  cn_objects : O ⊆ O';
  cn_inv : mm_inv (H := H) O' r u' dst pg (clones dst k items) bs';
  cn_length : length items = length k;
  cn_total : total bs - 2 * PAGE_SIZE * Z.of_nat (length items) ≤ total bs';
  cn_avail y : avail bs' y → avail bs y;
  cn_tables a : table_byte (bytes (mw u')) pg a → in_page pg a ∨ avail bs (a - KERN_BASE);
  cn_bytes a : ¬ in_page pg a → ¬ avail bs (a - KERN_BASE) → bytes (mw u') a = bytes (mw u) a;
  cn_pages i v p q : items !! i = Some (v, p, q) → upgs u' !! p = Some (UPages (Pages q PAGE_SIZE 0) 1) ∧ ∀ y, frame q y → avail bs y;
  cn_copy i x v p q qs j : k !! i = Some x → items !! i = Some (v, p, q) → upgs u !! v_pages x.2 = Some (UPages (Pages qs PAGE_SIZE 0) 1) →
    0 ≤ j < PAGE_SIZE → bytes (mw u') (q + KERN_BASE + j) = bytes (mw u) (qs + KERN_BASE + j);
  cn_upgs p : p ∈ dom (upgs u) → upgs u' !! p = upgs u !! p;
  cn_vmas v : v ∈ dom (vmas u) → vmas u' !! v = vmas u !! v;
  cn_heads y : y ∈ dom (ul u) → vmas u !! (y - NODE) = None → vmas u' !! (y - NODE) = None;
  cn_conserve y : avail bs y → avail bs' y ∨ space_byte u' pg (clones dst k items) (y + KERN_BASE);
  cn_fresh x y : x ∈ clones dst k items → y ∈ parts x → y ∉ dom (ul u);
  cn_links y : y ∈ dom (ul u) → y ≠ dst → ul u' !! y = ul u !! y;
  cn_mms : mms u' = mms u ∧ kernel_mm u' = kernel_mm u }.

Lemma cloned_nil O r u dst pg bs : mm_inv (H := H) O r u dst pg [] bs → cloned O r u dst pg [] bs [] u O bs.
Proof.
  intros Hinv. split; try done; [cbn [length]; lia| |by left|by intros x y []%elem_of_nil]. intros a [Ha|(i & Hi & Hne & _)]; [by left|].
  destruct Hne. by apply (no_tables (H := H) O r u dst pg bs i).
Qed.

(** The step for one area [x] of another address space, whose frame is [qs]. *)
Section step.
Context O (r : nat) u (dst pg : Z) (k : list (Z * vma)) bs (items : list (Z * Z * Z)) u1 O1 bs1 (x : Z * vma) (qs : Z).
Context (Hc : cloned O (S (S r)) u dst pg k bs items u1 O1 bs1).
Context (Hxu : upgs u !! v_pages x.2 = Some (UPages (Pages qs PAGE_SIZE 0) 1)) (Hqb : ∀ y, frame qs y → ¬ avail bs y).
Context (Hq0 : 0 ≤ qs) (Hqm : qs mod PAGE_SIZE = 0) (Hqe : qs + PAGE_SIZE < KERN_BASE) (Hqp : qs + KERN_BASE ≠ pg).
Context v u2 p q bs2 (Ha : added (H := H) O1 r u1 dst pg (clones dst k items) [] bs1 (v_start x.2) (v_flags x.2) v u2 p q bs2).

Lemma step_tables a : table_byte (bytes (mw u2)) pg a → in_page pg a ∨ avail bs (a - KERN_BASE).
Proof.
  intros [Hp|(i & Hi & Hne & Hp)]; [by left|]. destruct (decide (ent (bytes (mw u1)) pg i = 0)) as [E|E].
  - right. apply (cn_avail _ _ _ _ _ _ _ _ _ _ _ Hc), (ad_avail _ _ _ _ _ _ _ _ _ _ _ _ _ _ _ Ha). do 2 right. exists i.
    by replace (a - KERN_BASE + KERN_BASE) with a by lia.
  - apply (cn_tables _ _ _ _ _ _ _ _ _ _ _ Hc). right. exists i. by rewrite <-(gr_keep _ _ _ (ad_grown _ _ _ _ _ _ _ _ _ _ _ _ _ _ _ Ha) i Hi E).
Qed.

Lemma step_bytes a : ¬ in_page pg a → ¬ avail bs (a - KERN_BASE) → bytes (mw u2) a = bytes (mw u) a.
Proof.
  intros Hp Hav. rewrite (gr_bytes _ _ _ (ad_grown _ _ _ _ _ _ _ _ _ _ _ _ _ _ _ Ha)); [by apply (cn_bytes _ _ _ _ _ _ _ _ _ _ _ Hc)|].
  intros [?|?]%step_tables; done.
Qed.

Lemma step_frame y : frame q y → avail bs y.
Proof. intros Hy. apply (cn_avail _ _ _ _ _ _ _ _ _ _ _ Hc). by apply (ad_frame _ _ _ _ _ _ _ _ _ _ _ _ _ _ _ Ha). Qed.

(** The frame of the source holds what it held. *)
Lemma step_source j : 0 ≤ j < PAGE_SIZE → bytes (mw u2) (qs + KERN_BASE + j) = bytes (mw u) (qs + KERN_BASE + j).
Proof.
  intros Hj. apply step_bytes.
  - destruct (ad_inv _ _ _ _ _ _ _ _ _ _ _ _ _ _ _ Ha) as (O2 & _ & Hi). destruct (mi_pt _ _ _ _ _ _ _ Hi) as (_ & _ & [(P1 & _) _ _]).
    intros Hp. apply Hqp. unfold in_page, PAGE_SIZE, KERN_BASE in *. Z.to_euclidean_division_equations. lia.
  - apply Hqb. unfold frame, KERN_BASE in *. lia.
Qed.

(** The state after the frame [q] has been written. *)
Context (mb : mem) (Hmb : copied (q + KERN_BASE) (qs + KERN_BASE) PAGE_SIZE (bytes (mw u2)) mb).
Definition after_copy : uvm := set_mw (upd_bytes (λ _, mb) (mw u2)) u2.

Lemma copy_out a : ¬ in_page (q + KERN_BASE) a → mb a = bytes (mw u2) a.
Proof. intros Hn. rewrite (Hmb a). unfold blit. unfold in_page, PAGE_SIZE in *. zcases; simpl; try done; lia. Qed.
Lemma copy_in j : 0 ≤ j < PAGE_SIZE → mb (q + KERN_BASE + j) = bytes (mw u) (qs + KERN_BASE + j).
Proof.
  intros Hj. rewrite (Hmb _). unfold blit. rewrite (proj2 (Z.leb_le _ _)), (proj2 (Z.ltb_lt _ _)) by lia. cbn [andb].
  rewrite <-(step_source j Hj). f_equal. lia.
Qed.

Lemma copy_inv : ∃ O2, O1 ⊆ O2 ∧ mm_inv (H := H) O2 r u2 dst pg (clones dst k items ++ [(v, Vma (v_start x.2) PAGE_SIZE (v_flags x.2) dst p)]) bs2 ∧
  mm_inv (H := H) O2 r after_copy dst pg (clones dst k items ++ [(v, Vma (v_start x.2) PAGE_SIZE (v_flags x.2) dst p)]) bs2.
Proof.
  destruct (ad_inv _ _ _ _ _ _ _ _ _ _ _ _ _ _ _ Ha) as (O2 & HO2 & Hi). exists O2. split_and!; [done|done|]. pose proof Hi as [_ (HJ & Hpm & Ht) Hown Hl _ _ _ _ _ _ _].
  eapply mm_inv_frame; [exact Hi|by eapply (km_frame (K := K))|by apply pm_inv_bytes|by apply (owned_dom O2 u2)|done|done|done|apply Hl|done|done| |done].
  intros a Htb. cbn. apply copy_out. intros Hp.
  destruct (mi_held _ _ _ _ _ _ _ Hi (v, Vma (v_start x.2) PAGE_SIZE (v_flags x.2) dst p)) as [q' Hq']; [apply elem_of_app; right; left|].
  pose proof (bk_pages _ _ _ _ _ _ (hd_back _ _ _ _ _ _ Hq')) as E. cbn in E. rewrite (bk_pages _ _ _ _ _ _ (ad_back _ _ _ _ _ _ _ _ _ _ _ _ _ _ _ Ha)) in E.
  injection E as <-. by eapply (held_content O2 u2).
Qed.

(** The links of [dst] and of the copies are apart from what was there. *)
Lemma step_links y : y ∈ dom (ul u) → y ≠ dst → y ∈ dom (ul u1) ∧ ul u2 !! y = ul u !! y.
Proof.
  intros Hy Hne. pose proof (cn_links _ _ _ _ _ _ _ _ _ _ _ Hc y Hy Hne) as E. assert (y ∈ dom (ul u1)) as Hy1 by (rewrite elem_of_dom, E; by apply elem_of_dom).
  split; [done|]. rewrite (ad_links _ _ _ _ _ _ _ _ _ _ _ _ _ _ _ Ha y Hy1); [done|].
  rewrite app_nil_r, not_elem_of_cons. split; [done|]. intros (z & Hz & ->)%elem_of_nodes. apply (cn_fresh _ _ _ _ _ _ _ _ _ _ _ Hc z (z.1 + NODE) Hz); [left|done].
Qed.
Definition new_area : Z * vma := (v, Vma (v_start x.2) PAGE_SIZE (v_flags x.2) dst p).
Lemma step_fresh y : y ∈ parts new_area → y ∉ dom (ul u).
Proof.
  intros Hp Hy. destruct (ad_new _ _ _ _ _ _ _ _ _ _ _ _ _ _ _ Ha) as [_ Hn]. destruct (decide (y = dst)) as [->|Hne]; [|by apply (Hn y); [by apply step_links|]].
  apply (Hn dst); [|done]. eapply dlist_dom; [apply (mi_list _ _ _ _ _ _ _ (cn_inv _ _ _ _ _ _ _ _ _ _ _ Hc))|left].
Qed.

(** The copies that were there keep their content. *)
Lemma step_copies O2 i y v' p' q' j : mm_inv (H := H) O2 r u2 dst pg (clones dst k items ++ [(v, Vma (v_start x.2) PAGE_SIZE (v_flags x.2) dst p)]) bs2 →
  k !! i = Some y → items !! i = Some (v', p', q') → 0 ≤ j < PAGE_SIZE → mb (q' + KERN_BASE + j) = bytes (mw u1) (q' + KERN_BASE + j).
Proof.
  intros Hi2 Hy Hit Hj. destruct (cn_pages _ _ _ _ _ _ _ _ _ _ _ Hc i v' p' q' Hit) as [Hu1 _].
  assert (in_page (q' + KERN_BASE) (q' + KERN_BASE + j)) as Hin by (unfold in_page, PAGE_SIZE in *; lia).
  pose proof (list_elem_of_lookup_2 _ _ _ (clones_lookup dst k items i y v' p' q' Hy Hit)) as Hcl.
  destruct (mi_held _ _ _ _ _ _ _ (cn_inv _ _ _ _ _ _ _ _ _ _ _ Hc) _ Hcl) as [q1 Hq1].
  assert (q1 = q') as -> by (pose proof (bk_pages _ _ _ _ _ _ (hd_back _ _ _ _ _ _ Hq1)) as E; cbn in E; congruence).
  destruct (mi_held _ _ _ _ _ _ _ Hi2 _ (proj2 (elem_of_app _ _ _) (or_introl Hcl))) as [q2 Hq2].
  assert (q2 = q') as ->.
  { pose proof (bk_pages _ _ _ _ _ _ (hd_back _ _ _ _ _ _ Hq2)) as E. cbn in E.
    rewrite (proj2 (ad_upgs _ _ _ _ _ _ _ _ _ _ _ _ _ _ _ Ha p' (elem_of_dom_2 _ _ _ Hu1))) in E. congruence. }
  rewrite copy_out.
  - apply (gr_bytes _ _ _ (ad_grown _ _ _ _ _ _ _ _ _ _ _ _ _ _ _ Ha)). eapply (held_content O2 u2); [exact Hq2|apply (mi_pt _ _ _ _ _ _ _ Hi2)|done].
  - intros Hp. apply (hd_busy _ _ _ _ _ _ Hq1 (q' + j)); [unfold frame; lia|]. apply (ad_frame _ _ _ _ _ _ _ _ _ _ _ _ _ _ _ Ha).
    unfold in_page, frame, PAGE_SIZE in *. lia.
Qed.

(** What was free is free or belongs to the copies. *)
Lemma step_conserve y : avail bs y → avail bs2 y ∨ space_byte u2 pg (clones dst k items ++ [new_area]) (y + KERN_BASE).
Proof.
  pose proof (ad_back _ _ _ _ _ _ _ _ _ _ _ _ _ _ _ Ha) as [Hup _ _]. unfold space_byte. replace (y + KERN_BASE - KERN_BASE) with y by lia.
  intros [Hy|[Hy|(z & Hz & q' & c & Hu & Hf)]]%(cn_conserve _ _ _ _ _ _ _ _ _ _ _ Hc).
  - apply (ad_avail _ _ _ _ _ _ _ _ _ _ _ _ _ _ _ Ha) in Hy as [Hy|[Hy|Hy%dropped_table]]; [by left|right; right|right; by left].
    exists new_area. split; [apply elem_of_app; right; left|]. by exists q, 1.
  - right. left. destruct Hy as [Hy|(i & Hi & Hne & Hy)]; [by left|right]. exists i.
    by rewrite (gr_keep _ _ _ (ad_grown _ _ _ _ _ _ _ _ _ _ _ _ _ _ _ Ha) i Hi Hne).
  - right. right. exists z. split; [apply elem_of_app; by left|]. exists q', c. replace (y + KERN_BASE - KERN_BASE) with y in Hf by lia. split; [|done].
    by rewrite (proj2 (ad_upgs _ _ _ _ _ _ _ _ _ _ _ _ _ _ _ Ha _ (elem_of_dom_2 _ _ _ Hu))).
Qed.

Lemma cloned_step : v_size x.2 = PAGE_SIZE → ∃ O2, cloned O r u dst pg (k ++ [x]) bs (items ++ [(v, p, q)]) after_copy O2 bs2.
Proof.
  intros Hsz. destruct copy_inv as (O2 & HO2 & Hi2 & Hi3). exists O2. pose proof Hc as [C1 C2 C3 C4 C5 C6 C7 C8 C9 C10 C11 C12 C17 C13 C14 [C15 C16]].
  assert (clones dst (k ++ [x]) (items ++ [(v, p, q)]) = clones dst k items ++ [(v, Vma (v_start x.2) PAGE_SIZE (v_flags x.2) dst p)]) as Ecl
    by by rewrite clones_snoc, Hsz.
  assert (∀ a, table_byte mb pg a ↔ table_byte (bytes (mw u2)) pg a) as Htb.
  { intros a. apply (kept_table_byte (bytes (mw u2)) mb pg). intros b Hb. apply copy_out. intros Hp. destruct (mi_held _ _ _ _ _ _ _ Hi2 (v, Vma (v_start x.2) PAGE_SIZE (v_flags x.2) dst p)) as [q' Hq'].
    { apply elem_of_app. right. left. }
    pose proof (bk_pages _ _ _ _ _ _ (hd_back _ _ _ _ _ _ Hq')) as E. cbn in E. rewrite (bk_pages _ _ _ _ _ _ (ad_back _ _ _ _ _ _ _ _ _ _ _ _ _ _ _ Ha)) in E.
    injection E as <-. eapply (held_content O2 u2); [exact Hq'|apply (mi_pt _ _ _ _ _ _ _ Hi2)|done|done]. }
  pose proof (ad_total _ _ _ _ _ _ _ _ _ _ _ _ _ _ _ Ha) as Ht.
  split; cbn [after_copy mw upgs vmas ul mms kernel_mm set_mw upd_bytes bytes].
  - set_solver.
  - by rewrite Ecl.
  - rewrite !length_app. cbn. lia.
  - rewrite length_app. cbn [length]. lia.
  - intros y Hy. apply C5, (ad_avail _ _ _ _ _ _ _ _ _ _ _ _ _ _ _ Ha). by left.
  - intros a Ht'. by apply step_tables, Htb.
  - intros a Hp Hav. rewrite copy_out; [by apply step_bytes|]. intros Hq. apply Hav, step_frame. unfold in_page, frame, PAGE_SIZE, KERN_BASE in *. lia.
  - intros i v0 p0 q0 [Hi|[-> [= <- <- <-]]]%snoc_inv; [|split; [apply (ad_back _ _ _ _ _ _ _ _ _ _ _ _ _ _ _ Ha)|apply step_frame]].
    destruct (C8 i v0 p0 q0 Hi) as [E Hf]. split; [|done]. by rewrite (proj2 (ad_upgs _ _ _ _ _ _ _ _ _ _ _ _ _ _ _ Ha p0 (elem_of_dom_2 _ _ _ E))).
  - intros i y v0 p0 q0 qs0 j Hy [Hi|[-> [= <- <- <-]]]%snoc_inv E Hj.
    + pose proof (lookup_lt_Some _ _ _ Hi) as Hlt. rewrite lookup_app_l in Hy by lia. rewrite (step_copies O2 i y v0 p0 q0 j Hi2 Hy Hi Hj). by apply (C9 i y v0 p0 q0).
    + rewrite C3, list_lookup_middle in Hy by done. injection Hy as <-. rewrite Hxu in E. injection E as <-. by apply copy_in.
  - intros p0 Hp0. rewrite <-(C10 p0 Hp0). apply (ad_upgs _ _ _ _ _ _ _ _ _ _ _ _ _ _ _ Ha). rewrite elem_of_dom, (C10 p0 Hp0). by apply elem_of_dom.
  - intros v0 Hv0. rewrite <-(C11 v0 Hv0). apply (ad_vmas _ _ _ _ _ _ _ _ _ _ _ _ _ _ _ Ha). intros ->.
    destruct (ad_new _ _ _ _ _ _ _ _ _ _ _ _ _ _ _ Ha) as [E _]. rewrite (C11 v Hv0) in E. by apply not_elem_of_dom in E.
  - intros y Hy E. rewrite (ad_vmas _ _ _ _ _ _ _ _ _ _ _ _ _ _ _ Ha); [by apply C12|]. intros E'. apply (step_fresh y); [|done]. cbn. replace y with (v + NODE) by lia. left.
  - intros y Hy. rewrite Ecl. apply step_conserve in Hy as [|[Hy|Hy]]; [by left|right; left; by apply Htb|by right; right].
  - intros z y. rewrite Ecl. intros [Hz| ->%list_elem_of_singleton]%elem_of_app; [by apply C13|apply step_fresh].
  - intros y Hy Hne. by apply step_links.
  - destruct (ad_mms _ _ _ _ _ _ _ _ _ _ _ _ _ _ _ Ha) as [-> ->]. done.
Qed.
End step.

(** ** The loop over the areas of the source *)
Section source.
Context O (R r : nat) u (src dst pgs pg : Z) (l : list (Z * vma)) bs.
Context (Hsrc : mm_inv (H := H) O R u src pgs l bs) (Hdst : dst ∉ (nodes l).*1).
Context (Hpg : ∀ x q, x ∈ l → held O u pgs bs x q → q + KERN_BASE ≠ pg ∧ q + PAGE_SIZE < KERN_BASE).
Context (Hlow : ∀ y, avail bs y → y + 1 < KERN_BASE) (Htot : 2 * PAGE_SIZE * Z.of_nat (length l) ≤ total bs).

Lemma clone_area_ok k x rest items u1 O1 bs1 : l = k ++ x :: rest → cloned O (S (S (2 * length rest + r))) u dst pg k bs items u1 O1 bs1 →
  ∃ vm up, get_vma u1 x.1 = Ok vm ∧ get_upages u1 (v_pages vm) = Ok up ∧ v_start vm = v_start x.2 ∧
  wp (add_vma dst (v_start vm) (v_size vm) (v_flags vm) (w32 (psize (u_pages up))) (pflags (u_pages up)) (default (dst - NODE) (last (clones dst k items).*1))
       (λ p u, np ← get_upages u p; memmove_w (pa2kva (paddr (u_pages np))) (pa2kva (paddr (u_pages up))) (v_size vm) u) u1)
    (λ '(rc, v, u'), rc = 0 ∧ ∃ p q O' bs', cloned O (2 * length rest + r) u dst pg (k ++ [x]) bs (items ++ [(v, p, q)]) u' O' bs').
Proof.
  intros El Hc. assert (x ∈ l) as Hx by (rewrite El, elem_of_app; right; left). destruct (mi_held _ _ _ _ _ _ _ Hsrc x Hx) as [qs Hqs].
  destruct (Hpg x qs Hx Hqs) as [Hqp Hqe]. pose proof Hqs as [[Hsz Hal] [Hu _ (Q1 & Q2 & Q3)] Hbusy _ _ _ _ _].
  pose proof (proj1 (Forall_forall _ _) (vl_store _ _ _ (mi_list _ _ _ _ _ _ _ Hsrc)) x Hx) as Hv. cbn in Hv.
  assert (get_vma u1 x.1 = Ok x.2) as Egv by (unfold get_vma; by rewrite (cn_vmas _ _ _ _ _ _ _ _ _ _ _ Hc), Hv by (by eapply elem_of_dom_2)).
  assert (get_upages u1 (v_pages x.2) = Ok (UPages (Pages qs PAGE_SIZE 0) 1)) as Egu
    by (unfold get_upages; by rewrite (cn_upgs _ _ _ _ _ _ _ _ _ _ _ Hc), Hu by (by eapply elem_of_dom_2)).
  exists x.2, (UPages (Pages qs PAGE_SIZE 0) 1). split_and!; [done|done|done|].
  cbn [u_pages paddr psize pflags]. change (w32 PAGE_SIZE) with PAGE_SIZE. rewrite Hsz.
  assert (area_ok x.2) as (Y1 & Y2 & Y3) by (pose proof (mi_areas _ _ _ _ _ _ _ Hsrc) as [Ha _]; rewrite Forall_forall in Ha; by apply Ha).
  unfold v_end in Y3. rewrite Hsz in Y3. pose proof (cn_total _ _ _ _ _ _ _ _ _ _ _ Hc) as Ht. rewrite (cn_length _ _ _ _ _ _ _ _ _ _ _ Hc) in Ht.
  pose proof (add_vma_ok O1 (2 * length rest + r) u1 dst pg (clones dst k items) [] bs1 (v_start x.2) (v_flags x.2)) as Hadd.
  apply wp_inv in Hadd as ([[rc v] u2] & E & -> & p & q & bs2 & Hadd); [..|].
  - destruct (ad_inv _ _ _ _ _ _ _ _ _ _ _ _ _ _ _ Hadd) as (O2 & _ & Hi2). pose proof (ad_back _ _ _ _ _ _ _ _ _ _ _ _ _ _ _ Hadd) as [Hup _ (B1 & B2 & B3)].
    assert (q + PAGE_SIZE < KERN_BASE) as Hqb2.
    { assert (avail bs (q + PAGE_SIZE - 1)) as Hav%Hlow; [|unfold PAGE_SIZE in *; lia].
      apply (cn_avail _ _ _ _ _ _ _ _ _ _ _ Hc), (ad_frame _ _ _ _ _ _ _ _ _ _ _ _ _ _ _ Hadd). unfold frame, PAGE_SIZE. lia. }
    pose proof (memmove_ok (q + KERN_BASE) (qs + KERN_BASE) PAGE_SIZE (bytes (mw u2))) as Hmv.
    apply wp_inv in Hmv as ([d mb] & Em & _ & Hcp); [|unfold in_range, KERN_BASE, PAGE_SIZE in *; lia|done].
    rewrite (add_vma_copy dst _ PAGE_SIZE _ PAGE_SIZE 0 _ (pa2kva qs) PAGE_SIZE u1 v u2 (Vma (v_start x.2) PAGE_SIZE (v_flags x.2) dst p) (UPages (Pages q PAGE_SIZE 0) 1) d mb E);
      [|apply (proj1 (Forall_forall _ _) (vl_store _ _ _ (mi_list _ _ _ _ _ _ _ Hi2)) (_, _)); apply elem_of_app; right; left|done|].
    2:{ cbn [u_pages paddr]. rewrite !pa2kva_eq by (unfold KERN_BASE, PAGE_SIZE in *; lia). done. }
    apply wp_ok. split; [done|]. destruct (cloned_step O (2 * length rest + r) u dst pg k bs items u1 O1 bs1 x qs Hc Hu Hbusy Q1 Q2 Hqe Hqp v u2 p q bs2 Hadd mb Hcp Hsz) as [O' Hc'].
    by exists p, q, O', bs2.
  - rewrite app_nil_r. apply (cn_inv _ _ _ _ _ _ _ _ _ _ _ Hc).
  - done.
  - done.
  - done.
  - rewrite El, length_app in Htot. cbn [length] in Htot. unfold PAGE_SIZE in *. lia.
  - intros b v0 E1 E2. apply (clones_gap dst k x rest); [rewrite <-El; apply (mi_areas _ _ _ _ _ _ _ Hsrc)|apply (mi_areas _ _ _ _ _ _ _ (cn_inv _ _ _ _ _ _ _ _ _ _ _ Hc))|done|by rewrite Hsz].
Qed.

Lemma clone_loop_ok rest : ∀ k items u1 O1 bs1 c fuel, l = k ++ rest → cloned O (2 * length rest + r) u dst pg k bs items u1 O1 bs1 → (length rest < fuel)%nat →
  wp (loop fuel (λ '(n, cur, cloned, u),
    if n =? src then Ok (inr (0, cloned, u))
    else
      vm ← get_vma u (n - NODE);
      up ← get_upages u (v_pages vm);
      '(retcode, v, u) ← add_vma dst (v_start vm) (v_size vm) (v_flags vm)
        (w32 (psize (u_pages up))) (pflags (u_pages up)) cur
        (λ p u, np ← get_upages u p;
                memmove_w (pa2kva (paddr (u_pages np))) (pa2kva (paddr (u_pages up))) (v_size vm) u) u;
      if retcode <? 0 then Ok (inr (retcode, cloned, u))
      else
        n ← get_next (ul u) n;
        Ok (inl (n, v, w32 (cloned + v_size vm), u))) (hd src (nodes rest).*1, default (dst - NODE) (last (clones dst k items).*1), c, u1))
    (λ '(rc, _, u'), rc = 0 ∧ ∃ items' O' bs', cloned O r u dst pg l bs items' u' O' bs').
Proof.
  induction rest as [|x rest IH]; intros k items u1 O1 bs1 c fuel El Hc Hf; (destruct fuel as [|fuel]; [cbn in Hf; lia|]); rewrite loop_S.
  - cbn [nodes fmap list_fmap hd]. rewrite Z.eqb_refl. apply wp_ok. split; [done|]. rewrite app_nil_r in El. subst k. by exists items, O1, bs1.
  - pose proof (vl_list _ _ _ (mi_list _ _ _ _ _ _ _ Hsrc)) as Hd.
    assert ((nodes l).*1 = (nodes k).*1 ++ x.1 + NODE :: (nodes rest).*1) as En by by rewrite El, area_nodes_app, fmap_app. rewrite En in Hd.
    assert (x.1 + NODE ∈ (nodes l).*1) as Hin by (rewrite En, elem_of_app; right; left).
    assert (x.1 + NODE ≠ src) as Hne.
    { intros E. destruct Hd as [_ Hnd]. apply NoDup_cons in Hnd as [Hnd _]. apply Hnd. rewrite <-E, elem_of_app. right. left. }
    change (hd src (nodes (x :: rest)).*1) with (x.1 + NODE). rewrite (proj2 (Z.eqb_neq _ _) Hne). replace (x.1 + NODE - NODE) with x.1 by lia.
    replace (2 * length (x :: rest) + r)%nat with (S (S (2 * length rest + r))) in Hc by (cbn [length]; lia).
    destruct (clone_area_ok k x rest items u1 O1 bs1 El Hc) as (vm & up & -> & Eu & _ & Hw). cbn [mbind res_bind]. rewrite Eu. cbn [mbind res_bind].
    apply wp_bind, wp_bind. eapply wp_mono; [exact Hw|]. intros [[rc v] u2] (-> & p & q & O2 & bs2 & Hc2). change (0 <? 0) with false. cbv iota.
    assert (get_next (ul u2) (x.1 + NODE) = Ok (hd src (nodes rest).*1)) as Hnx.
    { unfold get_next. rewrite (cn_links _ _ _ _ _ _ _ _ _ _ _ Hc2).
      - apply (dlist_split (ul u) src (nodes k).*1 (x.1 + NODE) (nodes rest).*1 Hd).
      - eapply dlist_dom; [exact Hd|right]. by rewrite <-En.
      - by intros <-. }
    rewrite Hnx. cbn [mbind res_bind]. apply wp_ok.
    replace v with (default (dst - NODE) (last (clones dst (k ++ [x]) (items ++ [(v, p, q)])).*1))
      by (rewrite clones_snoc, fmap_app, last_app by apply (cn_length _ _ _ _ _ _ _ _ _ _ _ Hc); done).
    apply (IH (k ++ [x]) (items ++ [(v, p, q)]) u2 O2 bs2); [by rewrite <-app_assoc|done|cbn [length] in Hf; lia].
Qed.

Lemma mm_clone_ok : mm_inv (H := H) O (2 * length l + r) u dst pg [] bs →
  wp (mm_clone dst src u) (λ '(rc, u'), rc = 0 ∧ ∃ items O' bs', cloned O r u dst pg l bs items u' O' bs').
Proof.
  intros Hi. pose proof (vl_list _ _ _ (mi_list _ _ _ _ _ _ _ Hsrc)) as Hd. unfold mm_clone. cbv zeta. rewrite (dlist_next _ _ _ Hd). cbn [mbind res_bind].
  apply wp_bind. eapply wp_mono; [apply (clone_loop_ok l [] [] u O bs 0 _ eq_refl (cloned_nil _ _ _ _ _ _ Hi))|].
  - pose proof (NoDup_dom_length (ul u) (nodes l).*1 (NoDup_cons_1_2 _ _ (proj2 Hd))) as Hle. unfold nodes in Hle. rewrite !length_fmap in Hle.
    assert (length l ≤ size (ul u))%nat; [|lia]. apply Hle. intros y Hy. eapply dlist_dom; [exact Hd|by right].
  - intros [[rc c] u'] (-> & Hc). change (0 <? 0) with false. cbv iota. by apply wp_ok.
Qed.

(** The source after the copy. *)
Lemma source_kept items u' O' bs' : dst ∉ src :: l ≫= parts → (∀ a, table_byte (bytes (mw u)) pgs a → ¬ in_page pg a) →
  cloned O r u dst pg l bs items u' O' bs' → mm_inv (H := H) O' r u' src pgs l bs' ∧
    (∀ a, table_byte (bytes (mw u)) pgs a → bytes (mw u') a = bytes (mw u) a).
Proof.
  intros Hdn Hsep Hc. pose proof (mi_pt _ _ _ _ _ _ _ Hsrc) as (_ & _ & Ht). pose proof (cn_inv _ _ _ _ _ _ _ _ _ _ _ Hc) as [_ (HJ & Hpm & _) Hown _ _ _ _ _ _ _ _].
  assert (∀ a, table_byte (bytes (mw u)) pgs a → bytes (mw u') a = bytes (mw u) a) as Hb.
  { intros a Ha. apply (cn_bytes _ _ _ _ _ _ _ _ _ _ _ Hc); [by apply Hsep|by eapply tables_busy]. }
  split; [|done]. destruct (cn_mms _ _ _ _ _ _ _ _ _ _ _ Hc) as [Em Ek].
  eapply mm_inv_frame; [exact Hsrc|done|done|done|apply (cn_objects _ _ _ _ _ _ _ _ _ _ _ Hc)|by rewrite Em|done| | | |done|apply (cn_avail _ _ _ _ _ _ _ _ _ _ _ Hc)].
  - apply (cn_heads _ _ _ _ _ _ _ _ _ _ _ Hc); [|apply (mi_list _ _ _ _ _ _ _ Hsrc)]. eapply parts_dom; [exact Hsrc|left].
  - intros x Hx. split.
    + apply (cn_vmas _ _ _ _ _ _ _ _ _ _ _ Hc). eapply elem_of_dom_2. by apply (proj1 (Forall_forall _ _) (vl_store _ _ _ (mi_list _ _ _ _ _ _ _ Hsrc))).
    + destruct (mi_held _ _ _ _ _ _ _ Hsrc x Hx) as [q Hq]. apply (cn_upgs _ _ _ _ _ _ _ _ _ _ _ Hc). eapply elem_of_dom_2. apply (bk_pages _ _ _ _ _ _ (hd_back _ _ _ _ _ _ Hq)).
  - intros y Hy. apply (cn_links _ _ _ _ _ _ _ _ _ _ _ Hc); [by eapply parts_dom|]. intros ->. done.
Qed.
End source.

(** ** A new address space for the copy *)

(** The new structure and its page index are apart from what [src] has. *)
Lemma new_apart O R u src pgs l bs dst q bs1 : mm_inv (H := H) O R u src pgs l bs → taken q PAGE_SIZE bs bs1 →
  (∀ a o, o ∈ O → inside a (dst, SIZEOF_MM) → ¬ inside a o) →
  dst ∉ src :: l ≫= parts ∧ (∀ a, table_byte (bytes (mw u)) pgs a → ¬ in_page (q + KERN_BASE) a) ∧ (∀ x q', x ∈ l → held O u pgs bs x q' → q' + KERN_BASE ≠ q + KERN_BASE).
Proof.
  intros Hi [Htk _] Hf. pose proof (mi_pt _ _ _ _ _ _ _ Hi) as (_ & _ & Ht). assert (∀ y, in_page (q + KERN_BASE) (y + KERN_BASE) → avail bs y) as Hq.
  { intros y Hy. apply Htk. right. unfold in_page, PAGE_SIZE in *. lia. }
  split_and!.
  - intros Hd. pose proof (parts_dom _ _ _ _ _ _ _ _ Hi Hd) as Hu. destruct (owned_inside O u dst (mi_owned _ _ _ _ _ _ _ Hi)) as (o & Ho & Hin); [by left|].
    apply (Hf dst o Ho); [unfold inside, SIZEOF_MM; cbn; lia|done].
  - intros a Ha Hp. replace a with (a - KERN_BASE + KERN_BASE) in Hp by lia. apply Hq in Hp. revert Hp. by eapply tables_busy.
  - intros x q' _ Hq' E. apply (hd_busy _ _ _ _ _ _ Hq' q'); [unfold frame, PAGE_SIZE; lia|]. apply Hq. unfold in_page. lia.
Qed.

Lemma new_source O r u src pgs l bs dst u1 q bs1 : mm_inv (H := H) O (S r) u src pgs l bs → taken q PAGE_SIZE bs bs1 →
  (∀ a o, o ∈ O → inside a (dst, SIZEOF_MM) → ¬ inside a o) → mm_inv (H := H) ((dst, SIZEOF_MM) :: O) r u1 dst (q + KERN_BASE) [] bs1 →
  vmas u1 = vmas u → upgs u1 = upgs u → mms u1 = <[dst := Mm 0 (q + KERN_BASE)]> (mms u) → kernel_mm u1 = kernel_mm u → ul u1 = <[dst := Link dst dst]> (ul u) →
  (∀ a, ¬ in_page (q + KERN_BASE) a → bytes (mw u1) a = bytes (mw u) a) → mm_inv (H := H) ((dst, SIZEOF_MM) :: O) r u1 src pgs l bs1.
Proof.
  intros Hi Htk Hf [_ (HJ & Hpm & _) Hown _ _ _ _ _ _ _ _] Ev Eu Em Ek El Hb. destruct (new_apart _ _ _ _ _ _ _ _ _ _ Hi Htk Hf) as (N1 & N2 & _).
  eapply mm_inv_frame; [exact Hi|done|done|done|by intros o Ho; right| |done| | | | |].
  - rewrite Em, lookup_insert_ne; [done|]. intros ->. apply N1. left.
  - rewrite Ev. apply (mi_list _ _ _ _ _ _ _ Hi).
  - intros x _. by rewrite Ev, Eu.
  - intros y Hy. rewrite El, lookup_insert_ne; [done|]. by intros ->.
  - intros a Ha. by apply Hb, N2.
  - intros y Hy. apply Htk. by left.
Qed.

(** The address [va] is mapped in both, with equal permissions, to different frames
    of the same content. *)
Definition twins u u' (pgs pg va : Z) : Prop := ∃ q q' fl, q ≠ q' ∧
  pte_of (bytes (mw u')) pgs va = Z.lor q (pgtable_perm fl) ∧ pte_of (bytes (mw u')) pg va = Z.lor q' (pgtable_perm fl) ∧
  uva2kva (K := K) pgs va (mw u') = Ok (pa2kva (q + va mod PAGE_SIZE)) ∧ uva2kva (K := K) pg va (mw u') = Ok (pa2kva (q' + va mod PAGE_SIZE)) ∧
  bytes (mw u') (pa2kva (q + va mod PAGE_SIZE)) = bytes (mw u) (pa2kva (q + va mod PAGE_SIZE)) ∧
  bytes (mw u') (pa2kva (q' + va mod PAGE_SIZE)) = bytes (mw u) (pa2kva (q + va mod PAGE_SIZE)).

Lemma cloned_twins O R r u0 u src dst pgs pg l bs items u' O' bs' i x va : mm_inv (H := H) O R u src pgs l bs → cloned O r u dst pg l bs items u' O' bs' →
  mm_inv (H := H) O' r u' src pgs l bs' → (∀ x q, x ∈ l → held O u pgs bs x q → q + KERN_BASE ≠ pg) →
  (∀ a, ¬ in_page pg a → bytes (mw u) a = bytes (mw u0) a) → l !! i = Some x → v_start x.2 ≤ va < v_end x.2 → twins u0 u' pgs pg va.
Proof.
  intros Hi Hc Hs' Hpg Hu0' Hx Hva. pose proof (list_elem_of_lookup_2 _ _ _ Hx) as Hxl. destruct (mi_held _ _ _ _ _ _ _ Hi x Hxl) as [q Hq].
  destruct (lookup_lt_is_Some_2 items i) as [[[v p] q'] Hit]; [rewrite (cn_length _ _ _ _ _ _ _ _ _ _ _ Hc); by eapply lookup_lt_Some|].
  pose proof Hq as [[Hsz Hal] [Hu _ (Q1 & Q2 & Q3)] Hbusy _ _ _ _ _]. unfold v_end in Hva. rewrite Hsz in Hva.
  assert (va = v_start x.2 + va mod PAGE_SIZE ∧ 0 ≤ va mod PAGE_SIZE < PAGE_SIZE) as [Eva Hj] by (unfold PAGE_SIZE in *; Z.to_euclidean_division_equations; lia).
  assert (page_in (v_start x.2) 1 va) as Hin by (unfold page_in, PAGE_SIZE in *; lia).
  destruct (mi_held _ _ _ _ _ _ _ Hs' x Hxl) as [q0 [_ [Hu0 Hp0 _] _ _ _ _ _ _]].
  assert (q0 = q) as -> by (rewrite (cn_upgs _ _ _ _ _ _ _ _ _ _ _ Hc), Hu in Hu0 by (by eapply elem_of_dom_2); congruence).
  destruct (cn_pages _ _ _ _ _ _ _ _ _ _ _ Hc i v p q' Hit) as [Hup Hfr].
  destruct (mi_held _ _ _ _ _ _ _ (cn_inv _ _ _ _ _ _ _ _ _ _ _ Hc) _ (list_elem_of_lookup_2 _ _ _ (clones_lookup dst l items i x v p q' Hx Hit))) as [q1 [_ [Hu1 Hp1 (R1 & R2 & R3)] _ _ _ _ _ _]].
  cbn in Hu1, Hp1. assert (q1 = q') as -> by congruence.
  assert (¬ in_page pg (q + va mod PAGE_SIZE + KERN_BASE)) as Hout.
  { intros Hp. apply (Hpg x q Hxl Hq). destruct (mi_pt _ _ _ _ _ _ _ (cn_inv _ _ _ _ _ _ _ _ _ _ _ Hc)) as (_ & _ & [(P1 & _) _ _]).
    unfold in_page, PAGE_SIZE, KERN_BASE in *. Z.to_euclidean_division_equations. lia. }
  exists q, q', (v_flags x.2). rewrite !pa2kva_eq by (unfold PAGE_SIZE, KERN_BASE in *; lia). split_and!.
  - intros ->. apply (Hbusy q'); [unfold frame, PAGE_SIZE; lia|]. apply Hfr. unfold frame, PAGE_SIZE. lia.
  - by apply Hp0.
  - by apply Hp1.
  - rewrite (uva2kva_entry pgs va (mw u') q (v_flags x.2)), pa2kva_eq by (done || (unfold PAGE_SIZE, KERN_BASE in *; lia) || by apply Hp0). done.
  - rewrite (uva2kva_entry pg va (mw u') q' (v_flags x.2)), pa2kva_eq by (done || (unfold PAGE_SIZE, KERN_BASE in *; lia) || by apply Hp1). done.
  - rewrite <-Hu0' by done. apply (cn_bytes _ _ _ _ _ _ _ _ _ _ _ Hc); [done|]. apply Hbusy. unfold frame, KERN_BASE. lia.
  - rewrite <-Hu0' by done. replace (q' + va mod PAGE_SIZE + KERN_BASE) with (q' + KERN_BASE + va mod PAGE_SIZE) by lia.
    rewrite (cn_copy _ _ _ _ _ _ _ _ _ _ _ Hc i x v p q' q); [f_equal; lia|done..].
Qed.

(** Two address spaces that share nothing. *)
Record separate u (m1 pg1 : Z) (l1 : list (Z * vma)) (m2 pg2 : Z) (l2 : list (Z * vma)) : Prop := Separate {
  se_bytes a : space_byte u pg1 l1 a → ¬ space_byte u pg2 l2 a;
  se_objects o : space_object m1 l1 o → ¬ space_object m2 l2 o;
  se_nodes y : y ∈ m1 :: l1 ≫= parts → y ∉ m2 :: l2 ≫= parts }.

Section apart.
Context O (r R : nat) u u1 (src dst pgs q : Z) (l : list (Z * vma)) bs bs1 (items : list (Z * Z * Z)) u2 O1 O' bs'.
Context (Hi : mm_inv (H := H) O R u src pgs l bs) (Hs1 : mm_inv (H := H) O1 (2 * length l + r) u1 src pgs l bs1).
Context (Hc : cloned O1 r u1 dst (q + KERN_BASE) l bs1 items u2 O' bs') (Htk : taken q PAGE_SIZE bs bs1).

(** What the copy uses was free. *)
Lemma copy_was_free a : space_byte u2 (q + KERN_BASE) (clones dst l items) a → avail bs (a - KERN_BASE).
Proof.
  intros [[Ha|Ha]%(cn_tables _ _ _ _ _ _ _ _ _ _ _ Hc)|(y & Hy & q' & c & Hu & Hf)]; apply Htk.
  - right. unfold in_page, PAGE_SIZE in *. lia.
  - by left.
  - apply clones_elem in Hy as (i & x & v & p & q0 & _ & Hit & ->). destruct (cn_pages _ _ _ _ _ _ _ _ _ _ _ Hc i v p q0 Hit) as [E Hfr].
    cbn in Hu. rewrite E in Hu. injection Hu as <- _. left. by apply Hfr.
Qed.

Lemma conserve_ok y : avail bs y ↔ avail bs' y ∨ space_byte u2 (q + KERN_BASE) (clones dst l items) (y + KERN_BASE).
Proof.
  split.
  - intros [Hy|Hy]%Htk; [by apply (cn_conserve _ _ _ _ _ _ _ _ _ _ _ Hc)|]. right. left. left. unfold in_page, PAGE_SIZE in *. lia.
  - intros [Hy|Hy]; [apply Htk; left; by apply (cn_avail _ _ _ _ _ _ _ _ _ _ _ Hc)|]. apply copy_was_free in Hy. by replace (y + KERN_BASE - KERN_BASE) with y in Hy by lia.
Qed.

(** The source keeps its pages, and with its tables all its memory. *)
Lemma source_pages : upgs u1 = upgs u → ∀ x, x ∈ l → upgs u2 !! v_pages x.2 = upgs u !! v_pages x.2.
Proof.
  intros Eu x Hx. destruct (mi_held _ _ _ _ _ _ _ Hi x Hx) as [q' Hq']. pose proof (bk_pages _ _ _ _ _ _ (hd_back _ _ _ _ _ _ Hq')) as E.
  rewrite (cn_upgs _ _ _ _ _ _ _ _ _ _ _ Hc), Eu; [done|]. rewrite Eu. by eapply elem_of_dom_2.
Qed.
Lemma source_bytes : upgs u1 = upgs u → (∀ a, table_byte (bytes (mw u)) pgs a → bytes (mw u1) a = bytes (mw u) a) →
  (∀ a, table_byte (bytes (mw u1)) pgs a → bytes (mw u2) a = bytes (mw u1) a) →
  ∀ a, space_byte u2 pgs l a ↔ space_byte u pgs l a.
Proof.
  intros Eu Hb1 Hb2 a. unfold space_byte. rewrite (kept_table_byte (bytes (mw u1)) (bytes (mw u2)) pgs Hb2), (kept_table_byte (bytes (mw u)) (bytes (mw u1)) pgs Hb1).
  f_equiv. split; intros (x & Hx & Ho); exists x; (split; [done|]); unfold owns in *; [by rewrite <-source_pages|by rewrite source_pages].
Qed.

Lemma separate_ok : upgs u1 = upgs u → dst ∉ src :: l ≫= parts → (∀ a, table_byte (bytes (mw u)) pgs a → bytes (mw u1) a = bytes (mw u) a) →
  (∀ a, table_byte (bytes (mw u1)) pgs a → bytes (mw u2) a = bytes (mw u1) a) → separate u2 src pgs l dst (q + KERN_BASE) (clones dst l items).
Proof.
  intros Eu N1 Hb1 Hb2.
  pose proof (source_pages Eu) as Hup.
  assert (∀ a, space_byte u2 pgs l a → ¬ avail bs (a - KERN_BASE)) as Hbusy.
  { intros a Ha. eapply space_busy; [exact Hi|]. by apply source_bytes. }
  split.
  - intros a Ha Ha'%copy_was_free. by apply (Hbusy a).
  - intros o [->|(x & Hx & Ho)] [E|(y & Hy & Ho')].
    + injection E as E. apply N1. rewrite E. left.
    + by destruct Ho'.
    + subst o. by destruct Ho.
    + destruct Ho as [-> | ->], Ho' as [E|E]; try done; injection E as E.
      * apply (cn_fresh _ _ _ _ _ _ _ _ _ _ _ Hc y (y.1 + NODE) Hy); [left|]. rewrite <-E. eapply parts_dom; [exact Hs1|]. right. eapply elem_of_parts; [done|left].
      * destruct (mi_held _ _ _ _ _ _ _ Hi x Hx) as [q' Hq']. pose proof (bk_pages _ _ _ _ _ _ (hd_back _ _ _ _ _ _ Hq')) as Ex. apply clones_elem in Hy as (i & x' & v & p & q0 & _ & Hit & ->).
        destruct (cn_pages _ _ _ _ _ _ _ _ _ _ _ Hc i v p q0 Hit) as [Ep Hfr]. cbn in E. rewrite <-E, Hup, Ex in Ep by done. injection Ep as ->.
        apply (hd_busy _ _ _ _ _ _ Hq' q0); [|apply Htk; left; apply Hfr]; unfold frame, PAGE_SIZE; lia.
  - intros y Hy. rewrite not_elem_of_cons. split; [by intros ->|]. intros (z & Hyz & Hz)%list_elem_of_bind.
    apply (cn_fresh _ _ _ _ _ _ _ _ _ _ _ Hc z y Hz Hyz). by eapply parts_dom.
Qed.
End apart.

Lemma clone_space_ok O r u src pgs l bs : mm_inv (H := H) O (S (2 * length l + r)) u src pgs l bs →
  PAGE_SIZE + 2 * PAGE_SIZE * Z.of_nat (length l) ≤ total bs →
  (∀ y, avail bs y → y + 1 < KERN_BASE) → (∀ x q, x ∈ l → held O u pgs bs x q → q + PAGE_SIZE < KERN_BASE) →
  wp (mm_new u) (λ '(dst, u1), KERN_BASE ≤ dst ∧ wp (mm_clone dst src u1) (λ '(rc, u2), rc = 0 ∧ ∃ O' pg items bs', length items = length l ∧
    mm_inv (H := H) O' r u2 src pgs l bs' ∧ mm_inv (H := H) O' r u2 dst pg (clones dst l items) bs' ∧
    (∀ va, fits 32 va → (pte_of (bytes (mw u2)) pg va = 0 ↔ pte_of (bytes (mw u)) pgs va = 0) ∧
       pte_of (bytes (mw u2)) pgs va = pte_of (bytes (mw u)) pgs va ∧ (pte_of (bytes (mw u)) pgs va ≠ 0 → twins u u2 pgs pg va)) ∧
    separate u2 src pgs l dst pg (clones dst l items) ∧ (∀ y, avail bs y ↔ avail bs' y ∨ space_byte u2 pg (clones dst l items) (y + KERN_BASE)) ∧ ∀ a, space_byte u2 pgs l a ↔ space_byte u pgs l a)).
Proof.
  intros Hi Htot Hlow Hend. pose proof Hi as [_ (HJ & Hpm & _) Hown _ _ _ _ _ _ _ _ Hk]. pose proof Hpm as (_ & (lb & _ & _ & Hwf & _) & _).
  eapply wp_mono; [apply (mm_new_ok O (2 * length l + r) u bs); [done|unfold PAGE_SIZE in *; lia]|].
  intros [dst u1] (Hdk & Hf & q & bs1 & Eff & Htk & Hd1 & _ & Ev & Eu & Em & Ek & El & Hb). set (pg := q + KERN_BASE) in *.
  destruct (first_fit_wf PAGE_SIZE (-1) bs q bs1 Hwf ltac:(done) ltac:(done) Eff) as (_ & Htot1 & _).
  pose proof (new_source _ _ _ _ _ _ _ _ _ _ _ Hi Htk Hf Hd1 Ev Eu Em Ek El Hb) as Hs1. destruct (new_apart _ _ _ _ _ _ _ _ _ _ Hi Htk Hf) as (N1 & N2 & N3).
  assert (∀ x q', x ∈ l → held ((dst, SIZEOF_MM) :: O) u1 pgs bs1 x q' → held O u pgs bs x q') as Hback.
  { intros x q' Hx [_ [Hu' _ _] _ _ _ _ _ _]. destruct (mi_held _ _ _ _ _ _ _ Hi x Hx) as [q0 Hq0]. pose proof (bk_pages _ _ _ _ _ _ (hd_back _ _ _ _ _ _ Hq0)) as E.
    rewrite Eu, E in Hu'. injection Hu' as ->. done. }
  assert (∀ a, table_byte (bytes (mw u)) pgs a → bytes (mw u1) a = bytes (mw u) a) as Hb1 by (intros a Ha; by apply Hb, N2).
  assert (∀ a, table_byte (bytes (mw u1)) pgs a → ¬ in_page pg a) as N2' by (intros a Ha; apply N2; by apply (kept_table_byte (bytes (mw u)) (bytes (mw u1)) pgs Hb1)).
  split; [done|]. eapply wp_mono; [eapply (mm_clone_ok _ _ r u1 src dst pgs pg l bs1 Hs1); [| | |lia|exact Hd1]|].
  - intros (x & Hx & E)%elem_of_nodes. apply N1. right. eapply elem_of_parts; [done|]. rewrite E. left.
  - intros x q' Hx Hq'. split; [by eapply N3; [|eapply Hback]|by eapply Hend, Hback].
  - intros y Hy. apply Hlow, Htk. by left.
  - intros [rc u2] (-> & items & O' & bs' & Hc). split; [done|]. destruct (source_kept _ _ _ _ _ _ _ _ _ _ Hs1 _ _ _ _ N1 N2' Hc) as [Hs2 Hb2].
    exists O', pg, items, bs'. split_and!; [apply (cn_length _ _ _ _ _ _ _ _ _ _ _ Hc)|done|apply (cn_inv _ _ _ _ _ _ _ _ _ _ _ Hc)| |..].
    2: { eapply separate_ok; [exact Hi|exact Hs1|exact Hc|exact Htk|done..]. }
    2: { intros y. eapply conserve_ok; [exact Hc|exact Htk]. }
    2: { eapply source_bytes; [exact Hi|exact Hc|done..]. }
    intros va Hva.
    assert (pte_of (bytes (mw u2)) pgs va = pte_of (bytes (mw u)) pgs va) as Hp by by rewrite (kept_pte (bytes (mw u1))), (kept_pte (bytes (mw u))).
    assert (∀ i x, l !! i = Some x → v_start x.2 ≤ va < v_end x.2 → twins u u2 pgs pg va) as Htw.
    { intros i x Hx Hr. eapply cloned_twins; [exact Hs1|exact Hc|done| |exact Hb|done|done]. intros y q' Hy Hq'. by eapply N3; [|eapply Hback]. }
    assert (∀ q fl, 0 ≠ Z.lor q (pgtable_perm fl)) as Hnz by (intros q0 fl E; by apply (perm_nonzero q0 fl)).
    split_and!; [split|done|].
    + intros E. destruct (decide (pte_of (bytes (mw u)) pgs va = 0)) as [|Hne]; [done|]. exfalso.
      destruct (mi_cover _ _ _ _ _ _ _ Hi va Hva Hne) as (x & (i & Hx)%list_elem_of_lookup & Hr).
      destruct (Htw i x Hx Hr) as (q1 & q2 & fl & _ & _ & E2 & _). rewrite E in E2. by apply Hnz in E2.
    + intros E. destruct (decide (pte_of (bytes (mw u2)) pg va = 0)) as [|Hne]; [done|]. exfalso.
      destruct (mi_cover _ _ _ _ _ _ _ (cn_inv _ _ _ _ _ _ _ _ _ _ _ Hc) va Hva Hne) as (y & (i & x & v & p & q0 & Hx & _ & ->)%clones_elem & Hr).
      destruct (Htw i x Hx Hr) as (q1 & q2 & fl & _ & E1 & _). rewrite Hp, E in E1. by apply Hnz in E1.
    + intros Hne. destruct (mi_cover _ _ _ _ _ _ _ Hi va Hva Hne) as (x & (i & Hx)%list_elem_of_lookup & Hr). by eapply Htw.
Qed.

(** C11. Copying an address space ([mm_new] and [mm_clone], as a fork needs them),
    with enough memory and room for objects, and no memory in the last page of the
    kernel segment: the copy succeeds; the source satisfies its invariant with the
    same areas; the copy has an area for every area of the source, with the same
    range and the same flags; an address is mapped in the copy exactly when it is
    mapped in the source, with the same permissions, to another frame with the
    same content; no byte of a mapped page of the source has changed; the two share
    no memory, no object and no list node; and every page that is no longer free
    belongs to the copy. *)
Theorem clone_space_correct O r u src pgs l bs : mm_inv (H := H) O (S (2 * length l + r)) u src pgs l bs →
  PAGE_SIZE + 2 * PAGE_SIZE * Z.of_nat (length l) ≤ total bs →
  (∀ y, avail bs y → y + 1 < KERN_BASE) → (∀ x q, x ∈ l → held O u pgs bs x q → q + PAGE_SIZE < KERN_BASE) →
  wp (mm_new u) (λ '(dst, u1), wp (mm_clone dst src u1) (λ '(rc, u2), rc = 0 ∧ ∃ O' pg items bs', length items = length l ∧
    mm_inv (H := H) O' r u2 src pgs l bs' ∧ mm_inv (H := H) O' r u2 dst pg (clones dst l items) bs' ∧
    (∀ va, fits 32 va → (pte_of (bytes (mw u2)) pg va = 0 ↔ pte_of (bytes (mw u)) pgs va = 0) ∧
       pte_of (bytes (mw u2)) pgs va = pte_of (bytes (mw u)) pgs va ∧ (pte_of (bytes (mw u)) pgs va ≠ 0 → twins u u2 pgs pg va)) ∧
    separate u2 src pgs l dst pg (clones dst l items) ∧ ∀ y, avail bs y ↔ avail bs' y ∨ space_byte u2 pg (clones dst l items) (y + KERN_BASE))).
Proof.
  intros Hi Htot Hlow Hend. eapply wp_mono; [by apply (clone_space_ok O r u src pgs l bs)|]. intros [dst u1] [_ Hw]. eapply wp_mono; [exact Hw|].
  intros [rc u2] (-> & O' & pg & items & bs' & C1 & C2 & C3 & C4 & C5 & C6 & _). split; [done|]. by exists O', pg, items, bs'.
Qed.
End clone.

(** ** Witness *)
Lemma clone_space_correct_witness :
  wp (mm_new (K := kmem demo_junk 1) space_u) (λ '(dst, u1), wp (mm_clone (K := kmem demo_junk 1) dst 0x80103000 u1) (λ '(rc, u2), rc = 0 ∧
    ∃ pg, twins (K := kmem demo_junk 1) space_u u2 0x80101000 pg 0x400123 ∧ pte_of (bytes (mw u2)) pg 0x500123 = 0)).
Proof.
  eapply wp_mono; [apply (clone_space_correct (K := kmem demo_junk 1) (H := boot_H) space_objects 3 space_u 0x80103000 0x80101000 space_areas demo_bs)|].
  - apply space_inv.
  - by vm_compute.
  - intros y [Ha|Ha]%avail_cons; [unfold KERN_BASE; lia|by apply avail_nil in Ha].
  - intros x q ->%list_elem_of_singleton Hq. pose proof (bk_pages _ _ _ _ _ _ (hd_back _ _ _ _ _ _ Hq)) as E. by injection E as <-.
  - intros [dst u1] Hw. eapply wp_mono; [exact Hw|]. intros [rc u2] (-> & O' & pg & items & bs' & _ & _ & _ & Hp & _). split; [done|]. exists pg. split.
    + destruct (Hp 0x400123) as (_ & _ & Ht); [by unfold fits|]. apply Ht. cbn [mw space_u]. by rewrite space_pte by by unfold fits.
    + destruct (Hp 0x500123) as (Ht & _); [by unfold fits|]. apply Ht. cbn [mw space_u]. by rewrite space_pte by by unfold fits.
Defined.
