(* ===== verification/Tlb.v ===== *)
(** * Translation of user addresses

    The refill handler [__tlb_entry] of kern/arch/mips/tlbex.S, and what an access of
    a user program does: the translation buffer answers, or the handler loads the
    entries of a pair of pages from the page tables and the access is tried again.
    Seen from outside this is a walk of the page tables, as long as the tables do
    not change under the buffer; what happens when they do is stated at the end. *)
From S2P Require Import Prelude Util DList MmState Libc Palloc Pmm Simple Vmm Init Cp0 Pgtable Sync Uvm Areas.

Definition PTE_SOFT_SHIFT : Z := 6.
Definition WORD_SIZE : Z := 4.

Section refill.
(** The register Random, which chooses the entry that [tlbwr] writes. *)
Context (random : cp0 → Z).

Definition tlbwr (c : cp0) : res cp0 := tlb_write (random c) c.

(** [__tlb_entry]; [k1] is the slot of this processor in [pgdir_slots].  The result
    tells whether it returns to the program or enters the general handler. *)
Definition tlb_entry_ (k1 : Z) (m : mem) (c : cp0) : res (bool * cp0) :=
  if k1 =? 0 then Ok (false, c)
  else
    let k0 := Z.shiftl (Z.land (Z.shiftr (c0_badvaddr c) PDXSHIFT) PTXMASK) WORD_SHIFT in
    let k1 := ld32 m (w32 (k1 + k0)) in
    if k1 =? 0 then Ok (false, c)
    else
      let k0 := Z.shiftl (Z.land (Z.shiftr (c0_badvaddr c) PTXSHIFT) (PTXMASK - 1)) WORD_SHIFT in
      let k1 := w32 (k1 + k0) in
      let k0 := ld32 m k1 in
      let k1 := ld32 m (w32 (k1 + WORD_SIZE)) in
      let k0 := Z.shiftr k0 PTE_SOFT_SHIFT in
      let k1 := Z.shiftr k1 PTE_SOFT_SHIFT in
      let c := write_c0_entrylo0 k0 c in
      let c := write_c0_entrylo1 k1 c in
      let k1 := Z.land (Z.shiftr (c0_badvaddr c) PTXSHIFT) 1 in
      let k0 := if k1 =? 0 then k0 else c0_entrylo1 c in
      let k0 := Z.land k0 (Z.shiftr PTE_VALID PTE_SOFT_SHIFT) in
      if k0 =? 0 then Ok (false, c)
      else c ← tlbwr c; Ok (true, c).

(** An access to a user address: the physical address, or the code of the
    exception that reaches the general handler.  After the refill handler the
    instruction is executed again. *)
Definition access_step (store : bool) (va pg : Z) (m : mem) (c : cp0) : res (cp0 + (Z + Z) * cp0) :=
  t ← tlb_lookup store va c;
  match t with
  | Phys pa => Ok (inr (inl pa, c))
  | TlbTrap code => Ok (inr (inr code, tlb_exception va c))
  | TlbRefill =>
    '(again, c) ← tlb_entry_ pg m (tlb_exception va c);
    if (again : bool) then Ok (inl c) else Ok (inr (inr (exc_code store), c))
  end.
Definition cp0_access (store : bool) (va pg : Z) (m : mem) : cp0 → res ((Z + Z) * cp0) := loop 2 (access_step store va pg m).

Definition user_access (cpu : Z) (store : bool) (va : Z) (m : mem) (c : cpu_mmu) : res ((Z + Z) * cpu_mmu) :=
  pg ← get_pgindex cpu c; h ← rd (cp0s c) cpu;
  '(r, h) ← cp0_access store va pg m h;
  hs ← wr (cp0s c) cpu h; Ok (r, CpuMmu (pgdir_slots c) hs).

(** ** The loads and stores of words of a user program *)
Inductive uop := Lw (va : Z) | Sw (va v : Z).
Definition op_address (o : uop) : Z := match o with Lw va | Sw va _ => va end.

Definition EXC_ADEL : Z := 4.
Definition EXC_ADES : Z := 5.
Definition bad_address (va : Z) : bool := negb (va mod 4 =? 0) || negb (va <? 2 ^ 31).

(** The value that is loaded (0 for a store) or the exception, and the memory. *)
Definition user_word (cpu : Z) (o : uop) (m : mem) (c : cpu_mmu) : res ((Z + Z) * mem * cpu_mmu) :=
  match o with
  | Lw va =>
    if bad_address va then Ok (inr EXC_ADEL, m, c)
    else
      '(r, c) ← user_access cpu false va m c;
      match r with inl pa => Ok (inl (ld32 m (pa2kva pa)), m, c) | inr e => Ok (inr e, m, c) end
  | Sw va v =>
    if bad_address va then Ok (inr EXC_ADES, m, c)
    else
      '(r, c) ← user_access cpu true va m c;
      match r with inl pa => Ok (inl 0, st32 (pa2kva pa) v m, c) | inr e => Ok (inr e, m, c) end
  end.

Fixpoint user_run (cpu : Z) (os : list uop) (m : mem) (c : cpu_mmu) : res (list (Z + Z) * mem * cpu_mmu) :=
  match os with
  | [] => Ok ([], m, c)
  | o :: os =>
    '(r, m, c) ← user_word cpu o m c;
    '(rs, m, c) ← user_run cpu os m c;
    Ok (r :: rs, m, c)
  end.
End refill.

(** ** The reference: a walk of the page tables ([walk_access]) *)
Definition walk_word (pg : Z) (o : uop) (m : mem) : (Z + Z) * mem :=
  match o with
  | Lw va =>
    if bad_address va then (inr EXC_ADEL, m)
    else match walk_access m pg false va with inl pa => (inl (ld32 m (pa2kva pa)), m) | inr e => (inr e, m) end
  | Sw va v =>
    if bad_address va then (inr EXC_ADES, m)
    else match walk_access m pg true va with inl pa => (inl 0, st32 (pa2kva pa) v m) | inr e => (inr e, m) end
  end.

Fixpoint walk_run (pg : Z) (os : list uop) (m : mem) : list (Z + Z) * mem :=
  match os with
  | [] => ([], m)
  | o :: os => let '(r, m) := walk_word pg o m in let '(rs, m) := walk_run pg os m in (r :: rs, m)
  end.

(** ** The invariant *)

(** The two halves of an entry are the page table entries of its pages. *)
Record loaded (m : mem) (pg : Z) (e : tlb_entry) : Prop := Loaded {
  ld_mask : e_mask e = PM_4K;
  ld_asid : e_asid e = 0;
  ld_lo0 : e_lo0 e = Z.shiftr (pte_of m pg (e_vpn2 e * 8192)) PTE_SOFT_SHIFT;
  ld_lo1 : e_lo1 e = Z.shiftr (pte_of m pg (e_vpn2 e * 8192 + 4096)) PTE_SOFT_SHIFT }.

Record unused (e : tlb_entry) : Prop := Unused {
  un_mask : e_mask e = PM_4K;
  un_asid : e_asid e = ASID_INVALID;
  un_local : e_global e = false }.

Record coherent (m : mem) (pg : Z) (c : cp0) : Prop := Coherent {
  co_size : cp0_ok c;
  co_mask : c0_pagemask c = PM_4K;
  co_asid : Z.land (c0_entryhi c) 0xff = 0;
  co_entry i e : tlb c !! i = Some e → unused e ∨ loaded m pg e;
  co_unique i j e e' : tlb c !! i = Some e → tlb c !! j = Some e' → e_asid e = 0 → e_asid e' = 0 → e_vpn2 e = e_vpn2 e' → i = j }.

Lemma flushed_coherent m pg c : flushed c → coherent m pg c.
Proof.
  intros Hf. pose proof (flushed_size c Hf) as Hok. destruct Hf as [Hm Hh Ht].
  assert (∀ i e, tlb c !! i = Some e → unused e) as Hun.
  { intros i e. rewrite Ht, list_lookup_fmap_Some. by intros (k & -> & _). }
  split; [done|done|by rewrite Hh| |].
  - intros i e Hi. left. by eapply Hun.
  - intros i j e e' Hi Hj Ha. destruct (Hun i e Hi) as [_ Hx _]. by rewrite Hx in Ha.
Qed.

(** *** Addresses *)
Lemma half_bit_4k : half_bit PM_4K = 12.
Proof. done. Qed.

Lemma matches_entry m pg va e : unused e ∨ loaded m pg e →
  matches va 0 e = true ↔ e_asid e = 0 ∧ e_vpn2 e = va / 8192.
Proof.
  intros He. assert (e_mask e = PM_4K) as Hm by by destruct He as [[]|[]]. unfold matches. rewrite Hm, half_bit_4k.
  change (12 + 1) with 13. change (12 - 12) with 0. rewrite Z.shiftr_0_r, Z.shiftr_div_pow2, andb_true_iff, Z.eqb_eq, orb_true_iff, Z.eqb_eq by lia.
  change (2 ^ 13) with 8192. destruct He as [[_ Ha Hg]|[_ Ha _ _]]; rewrite Ha; [rewrite Hg; unfold ASID_INVALID|]; naive_solver.
Qed.

(** The two pages of a pair share the directory entry. *)
Lemma pair_indices va : fits 32 va → let b := va / 8192 * 8192 in
  PDX b = PDX va ∧ PDX (b + 4096) = PDX va ∧ PTX b = PTX va - PTX va mod 2 ∧ PTX (b + 4096) = PTX va - PTX va mod 2 + 1.
Proof.
  intros Hva. cbv zeta. unfold PDX, PTX. rewrite !land_PTXMASK, !Z.shiftr_div_pow2 by (by vm_compute).
  change (2 ^ PDXSHIFT) with 4194304. change (2 ^ PTXSHIFT) with 4096. unfold fits in Hva. change (2 ^ 32) with 4294967296 in Hva.
  split_and!; Z.to_euclidean_division_equations; lia.
Qed.

Lemma land_even x : Z.land x (PTXMASK - 1) = x mod 1024 - x mod 2.
Proof.
  change (PTXMASK - 1) with (Z.ldiff (Z.ones 10) (Z.ones 1)).
  assert (Z.land x (Z.ldiff (Z.ones 10) (Z.ones 1)) = Z.ldiff (Z.land x (Z.ones 10)) (Z.ones 1)) as -> by (bitwise; by destruct (Z.testbit x i)).
  rewrite Z.land_ones, Z.ldiff_ones_r, Z.shiftl_mul_pow2, Z.shiftr_div_pow2 by lia. change (2 ^ 10) with 1024. change (2 ^ 1) with 2.
  Z.to_euclidean_division_equations. lia.
Qed.

(** *** Bits of an entry *)
Lemma land_pow2_eqb x n : 0 ≤ n → (Z.land x (2 ^ n) =? 0) = negb (Z.testbit x n).
Proof.
  intros Hn. destruct (Z.testbit x n) eqn:E; simpl.
  - apply Z.eqb_neq. intros H. assert (Z.testbit (Z.land x (2 ^ n)) n = true) as Hb by (by rewrite Z.land_spec, E, Z.pow2_bits_true).
    by rewrite H, Z.bits_0 in Hb.
  - apply Z.eqb_eq. bitwise. rewrite Z.pow2_bits_eqb by done. destruct (Z.eqb_spec n i) as [<-|]; [by rewrite E|apply andb_false_r].
Qed.

Lemma pte_of_pair m pg va : fits 32 va →
  pte_of m pg (if Z.testbit va 12 then va / 8192 * 8192 + 4096 else va / 8192 * 8192) = pte_of m pg va.
Proof.
  intros Hva. destruct (pair_indices va Hva) as (E1 & E2 & E3 & E4).
  assert (PTX va mod 2 = Z.b2z (Z.testbit va 12)) as Hp.
  { unfold PTX. rewrite land_PTXMASK, Z.shiftr_div_pow2, (Z.testbit_spec' va 12) by (by vm_compute). change (2 ^ PTXSHIFT) with 4096. change (2 ^ 12) with 4096.
    Z.to_euclidean_division_equations. lia. }
  unfold pte_of. destruct (Z.testbit va 12); simpl in Hp.
  - rewrite E2, E4, Hp. by replace (PTX va - 1 + 1) with (PTX va) by lia.
  - rewrite E1, E3, Hp. by rewrite Z.sub_0_r.
Qed.

Lemma soft_bit x k n : 0 ≤ n → k = 2 ^ (n + 6) → (Z.land x k =? 0) = negb (Z.testbit (Z.shiftr x PTE_SOFT_SHIFT) n).
Proof. intros Hn ->. unfold PTE_SOFT_SHIFT. by rewrite land_pow2_eqb, Z.shiftr_spec by lia. Qed.

Lemma pfn_paddr pte : fits 32 pte →
  Z.shiftl (Z.shiftr (Z.shiftl (lo_pfn (Z.shiftr pte PTE_SOFT_SHIFT)) 12) 12) 12 = PTE_PADDR pte.
Proof.
  intros Hp. unfold lo_pfn, PTE_PADDR, PTE_LOWMASK, PTE_SOFT_SHIFT. change 0xffffff with (Z.ones 24). change 0xfff with (Z.ones 12).
  apply Z.bits_inj'. intros i Hi. rewrite Z.shiftl_spec by done. destruct (Z.ltb_spec i 12) as [Hlo|Hlo].
  - rewrite Z.testbit_neg_r by lia. symmetry. autorewrite with bits. zcases; simpl; try lia; by rewrite ?andb_false_r.
  - autorewrite with bits. replace (i - 12 + 12 - 12 + 6 + 6) with i by lia. zcases; simpl; try lia; try done.
    all: rewrite (fits_testbit_high 32 pte i) by (done || lia); done.
Qed.

(** The entries of the page tables are words. *)
Definition entries_fit (m : mem) (pg : Z) : Prop := ∀ va, fits 32 va → fits 32 (pte_of m pg va).

Lemma ld32_fits (m : mem) a : (∀ a, fits 8 (m a)) → fits 32 (ld32 m a).
Proof.
  intros Hm. unfold ld32, fits. pose proof (Hm a). pose proof (Hm (a + 1)). pose proof (Hm (a + 2)). pose proof (Hm (a + 3)). unfold fits in *. lia.
Qed.

Lemma pte_fits (m : mem) pg : (∀ a, fits 8 (m a)) → entries_fit m pg.
Proof. intros Hm va _. unfold pte_of. destruct (_ =? 0); [done|by apply ld32_fits]. Qed.

Section words.
Context (m : mem) (pg : Z) (Hm : entries_fit m pg).

(** An entry that is loaded answers as the page tables do. *)
Lemma loaded_translate store va e : fits 32 va → loaded m pg e → e_vpn2 e = va / 8192 →
  entry_translate store va e = match walk_access m pg store va with inl pa => Phys pa | inr code => TlbTrap code end.
Proof.
  intros Hva [Em _ E0 E1] Ev. unfold entry_translate. rewrite Em, half_bit_4k.
  assert ((if Z.testbit va 12 then e_lo1 e else e_lo0 e) = Z.shiftr (pte_of m pg va) PTE_SOFT_SHIFT) as ->.
  { rewrite E0, E1, Ev, <-(pte_of_pair m pg va Hva). by destruct (Z.testbit va 12). }
  rewrite pfn_paddr by by apply Hm. unfold walk_access, lo_valid, lo_dirty.
  rewrite (soft_bit (pte_of m pg va) PTE_VALID 1), (soft_bit (pte_of m pg va) PTE_DIRTY 2) by done.
  destruct (Z.testbit _ 1); simpl; [|done]. destruct (store && _); [done|]. do 2 f_equal.
  unfold PAGE_OFFSET. change PAGE_MASK with (Z.ones 12). by rewrite Z.land_ones.
Qed.
End words.

(** *** Lookup *)
Lemma filter_unique {A} (P : A → Prop) `{!∀ x, Decision (P x)} (l : list A) i x : l !! i = Some x → P x →
  (∀ j y, l !! j = Some y → P y → j = i) → filter P l = [x].
Proof.
  intros Hi Hx Hu. apply list_elem_of_split_length in Hi as (l1 & l2 & -> & ->).
  assert (∀ l', (∀ y, y ∈ l' → ¬ P y) → filter P l' = []) as Hno.
  { intros l' Hl. destruct (filter P l') as [|y k] eqn:E; [done|]. assert (y ∈ filter P l') as [Hp Hy]%list_elem_of_filter by (rewrite E; left). by destruct (Hl y). }
  rewrite filter_app, filter_cons_True by done. rewrite !Hno; [done| |]; intros y [j Hj]%list_elem_of_lookup_1 Hy.
  - specialize (Hu (length l1 + S j)%nat y). rewrite lookup_app_r in Hu by lia. replace (length l1 + S j - length l1)%nat with (S j) in Hu by lia.
    specialize (Hu Hj Hy). lia.
  - specialize (Hu j y). apply lookup_lt_Some in Hj as Hlt. rewrite lookup_app_l in Hu by done. specialize (Hu Hj Hy). lia.
Qed.

(** The entry of the address [va]. *)
Definition has_entry (c : cp0) (va : Z) (e : tlb_entry) : Prop := e ∈ tlb c ∧ e_asid e = 0 ∧ e_vpn2 e = va / 8192.

Lemma lookup_hit m pg store va c e : coherent m pg c → has_entry c va e → tlb_lookup store va c = Ok (entry_translate store va e).
Proof.
  intros [_ _ Ha He Hu] ([i Hi]%list_elem_of_lookup_1 & Hz & Hv). unfold tlb_lookup. rewrite Ha.
  rewrite (filter_unique _ _ i e Hi); [done|by apply (matches_entry m pg); [eauto|]|].
  intros j y Hj (Hzj & Hvj)%(matches_entry m pg); [|eauto]. eapply Hu; [done|done|done|done|congruence].
Qed.

Lemma lookup_miss m pg store va c : coherent m pg c → (∀ e, ¬ has_entry c va e) → tlb_lookup store va c = Ok TlbRefill.
Proof.
  intros [_ _ Ha He Hu] Hno. unfold tlb_lookup. rewrite Ha. destruct (filter _ _) as [|e k] eqn:E; [done|].
  assert (e ∈ filter (λ e, matches va 0 e = true) (tlb c)) as [Hm Hin]%list_elem_of_filter by (rewrite E; left).
  destruct (Hno e). apply list_elem_of_lookup_1 in Hin as Hi. destruct Hi as [i Hi]. apply (matches_entry m pg) in Hm; [|eauto]. by split.
Qed.

Lemma has_entry_dec c va : (∃ e, has_entry c va e) ∨ ∀ e, ¬ has_entry c va e.
Proof.
  destruct (decide (Exists (λ e, e_asid e = 0 ∧ e_vpn2 e = va / 8192) (tlb c))) as [He|He].
  - left. apply Exists_exists in He as (e & He & Hp). by exists e.
  - right. intros e [He1 He2]. apply He, Exists_exists. by exists e.
Qed.

(** An exception keeps the invariant. *)
Lemma exception_coherent m pg va c : coherent m pg c → fits 32 va → coherent m pg (tlb_exception va c) ∧
  Z.shiftr (c0_entryhi (tlb_exception va c)) 13 = va / 8192.
Proof.
  intros [H1 H2 H3 H4 H5] Hva. unfold tlb_exception. cbn [set_badvaddr write_c0_entryhi c0_entryhi]. rewrite H3, Z.lor_0_r. split.
  - split; [done|done| |done|done]. cbn [c0_entryhi]. change 0xff with (Z.ones 8). rewrite Z.land_ones, Z.shiftl_mul_pow2 by lia.
    change (2 ^ 13) with (32 * 2 ^ 8). rewrite Z.mul_assoc. by apply Z.mod_mul.
  - rewrite Z.shiftr_shiftl_l by lia. rewrite Z.sub_diag, Z.shiftl_0_r, Z.shiftr_div_pow2 by lia. done.
Qed.

(** *** The handler *)
Section handler.
Context (random : cp0 → Z) (Hrandom : ∀ c, 0 ≤ random c < get_tlb_entries c).
Context (m : mem) (pg : Z) (Hm : entries_fit m pg) (bs : blocks) (Ht : tables m pg bs).

(** What the handler reads. *)
Lemma refill_reads va : fits 32 va → let d := ld32 m (w32 (pg + Z.shiftl (Z.land (Z.shiftr va PDXSHIFT) PTXMASK) WORD_SHIFT)) in
  d = ent m pg (PDX va) ∧ (d ≠ 0 → let a := w32 (d + Z.shiftl (Z.land (Z.shiftr va PTXSHIFT) (PTXMASK - 1)) WORD_SHIFT) in
    ld32 m a = pte_of m pg (va / 8192 * 8192) ∧ ld32 m (w32 (a + WORD_SIZE)) = pte_of m pg (va / 8192 * 8192 + 4096)).
Proof.
  intros Hva. cbv zeta. destruct (tb_page _ _ _ Ht) as (_ & Hp0 & Hp1 & _). pose proof (PDX_bounds va) as Bd. pose proof (PTX_bounds va) as Bt.
  destruct (pair_indices va Hva) as (E1 & E2 & E3 & E4).
  fold (PDX va). rewrite !Z.shiftl_mul_pow2 by done. change (2 ^ WORD_SHIFT) with 4. unfold KERN_BASE in *.
  rewrite (wrap_small 32 (pg + _)) by (unfold fits; lia). replace (pg + PDX va * 4) with (pg + 4 * PDX va) by lia. fold (ent m pg (PDX va)).
  split; [done|]. intros Hne. destruct (tb_ent _ _ _ Ht (PDX va) Bd Hne) as [(_ & Hq0 & Hq1 & _) _]. unfold KERN_BASE in *.
  assert (Z.land (Z.shiftr va PTXSHIFT) (PTXMASK - 1) = PTX va - PTX va mod 2) as ->.
  { rewrite land_even. unfold PTX. rewrite land_PTXMASK. generalize (Z.shiftr va PTXSHIFT). intros x. Z.to_euclidean_division_equations. lia. }
  unfold WORD_SIZE. assert (0 ≤ PTX va - PTX va mod 2 ≤ 1022) as Bm by (Z.to_euclidean_division_equations; lia).
  rewrite (wrap_small 32 (ent m pg (PDX va) + _)) by (unfold fits; lia). rewrite wrap_small by (unfold fits; lia).
  unfold pte_of. rewrite E1, E2, E3, E4, (proj2 (Z.eqb_neq _ _) Hne). generalize (ent m pg (PDX va)) as d. intros d. unfold ent. split; f_equal; lia.
Qed.

Lemma refill_ok va c : fits 32 va → coherent m pg c → c0_badvaddr c = va → Z.shiftr (c0_entryhi c) 13 = va / 8192 → (∀ e, ¬ has_entry c va e) →
  wp (tlb_entry_ random pg m c) (λ '(again, c'), coherent m pg c' ∧ get_tlb_entries c' = get_tlb_entries c ∧
    if again : bool then ∃ e, has_entry c' va e else Z.land (pte_of m pg va) PTE_VALID = 0).
Proof.
  intros Hva [C1 C2 C3 C4 C5] Hb Hhi Hno. destruct (refill_reads va Hva) as [Hd Hr]. unfold tlb_entry_. rewrite Hb.
  destruct (tb_page _ _ _ Ht) as (_ & Hp0 & _). unfold KERN_BASE in Hp0. rewrite (proj2 (Z.eqb_neq pg 0)) by lia.
  rewrite Hd in *. destruct (Z.eqb_spec (ent m pg (PDX va)) 0) as [Hz|Hz].
  { apply wp_ok. split_and!; [by split|done|]. unfold pte_of. by rewrite Hz. }
  destruct (Hr Hz) as [-> ->]. cbn [write_c0_entrylo1 write_c0_entrylo0 c0_badvaddr c0_entrylo1]. rewrite Hb.
  assert ((if Z.land (Z.shiftr va PTXSHIFT) 1 =? 0 then Z.shiftr (pte_of m pg (va / 8192 * 8192)) PTE_SOFT_SHIFT
    else Z.shiftr (pte_of m pg (va / 8192 * 8192 + 4096)) PTE_SOFT_SHIFT) = Z.shiftr (pte_of m pg va) PTE_SOFT_SHIFT) as ->.
  { rewrite (land_pow2_eqb _ 0), Z.shiftr_spec, <-(pte_of_pair m pg va Hva) by done. change (0 + PTXSHIFT) with 12. by destruct (Z.testbit va 12). }
  rewrite (land_pow2_eqb _ 1) by done. rewrite <-(soft_bit (pte_of m pg va) PTE_VALID 1) by done.
  destruct (Z.eqb_spec (Z.land (pte_of m pg va) PTE_VALID) 0) as [Hv|Hv].
  { apply wp_ok. by split_and!. }
  unfold tlbwr, tlb_write. cbn [tlb]. match goal with |- context [random ?c] => set (c1 := c) end. pose proof (Hrandom c1) as Hr1.
  change (get_tlb_entries c1) with (get_tlb_entries c) in Hr1. unfold cp0_ok in C1. change (tlb c1) with (tlb c). rewrite wr_ok by lia. cbn [mbind res_bind].
  unfold entry_of. change (c0_pagemask c1) with (c0_pagemask c). change (c0_entryhi c1) with (c0_entryhi c). rewrite Hhi, C2, C3. apply wp_ok.
  set (e := TlbEntry _ _ _ _ _ _). assert (loaded m pg e ∧ e_vpn2 e = va / 8192) as [He Hev] by done. clearbody e. clear Hr.
  assert (∀ j y, tlb c !! j = Some y → e_asid y = 0 → e_vpn2 y ≠ va / 8192) as Hold.
  { intros j y Hj Hy1 Hy2. apply (Hno y). split; [by eapply list_elem_of_lookup_2|done]. }
  split_and!; [|done|].
  - split; cbn [set_tlb tlb c0_pagemask c0_entryhi]; [|done|done| |].
    + unfold cp0_ok. cbn [set_tlb tlb]. by rewrite length_insert.
    + intros i x [(<- & <- & _)|[_ Hx]]%list_lookup_insert_Some; [by right|eauto].
    + intros i j x y [(<- & <- & _)|[Hni Hx]]%list_lookup_insert_Some [(<- & <- & _)|[Hnj Hy]]%list_lookup_insert_Some Hx0 Hy0 Hxy;
        [done| | |by eapply C5]; exfalso; [by eapply (Hold j y); [| |congruence]|by eapply (Hold i x); [| |congruence]].
  - exists e. split; [|split; [apply He|done]]. cbn [set_tlb tlb]. eapply (list_elem_of_lookup_2 _ (Z.to_nat (random c1))). apply list_lookup_insert_eq. lia.
Qed.

(** An address whose entry is in the buffer is translated without a look at the
    memory. *)
Lemma access_hit store va c e pg' m' : fits 32 va → coherent m pg c → has_entry c va e →
  ∃ c', access_step random store va pg' m' c = Ok (inr (walk_access m pg store va, c')) ∧ coherent m pg c' ∧
    get_tlb_entries c' = get_tlb_entries c ∧ has_entry c' va e.
Proof.
  intros Hva Hc He. unfold access_step. rewrite (lookup_hit m pg store va c e Hc He). cbn [mbind res_bind].
  destruct (He) as ([i Hi]%list_elem_of_lookup_1 & Hz & Hv). destruct (co_entry _ _ _ Hc i e Hi) as [[_ Ha _]|Hl]; [by rewrite Ha in Hz|].
  rewrite (loaded_translate m pg Hm store va e Hva Hl Hv).
  destruct (walk_access m pg store va); eexists; (split; [done|]); [done|]. split_and!; [by apply exception_coherent|done|done].
Qed.

(** An access sees what the page tables say, and keeps the buffer in step. *)
Lemma cp0_access_ok store va c : fits 32 va → coherent m pg c →
  wp (cp0_access random store va pg m c) (λ '(r, c'), r = walk_access m pg store va ∧ coherent m pg c' ∧
    ((∃ pa, r = inl pa) → ∃ e, has_entry c' va e)).
Proof.
  intros Hva Hc. unfold cp0_access. rewrite loop_S. destruct (has_entry_dec c va) as [[e He]|Hno].
  { destruct (access_hit store va c e pg m Hva Hc He) as (c' & -> & Hc' & _ & He'). apply wp_ok. split_and!; [done|done|by exists e]. }
  unfold access_step at 2. rewrite (lookup_miss m pg) by done. cbn [mbind res_bind]. destruct (exception_coherent m pg va c Hc Hva) as [Hc1 Hh1].
  apply wp_bind, wp_bind. eapply wp_mono; [by apply refill_ok|]. intros [[|] c2] (Hc2 & _ & H2); apply wp_ok.
  - destruct H2 as [e He]. rewrite loop_S. destruct (access_hit store va c2 e pg m Hva Hc2 He) as (c' & -> & Hc' & _ & He').
    apply wp_ok. split_and!; [done|done|by exists e].
  - apply wp_ok. unfold walk_access. rewrite H2. split_and!; [done|done|by intros [pa Hpa]].
Qed.
End handler.

(** ** Programs *)

(** No table is in a frame that a user address reaches. *)
Definition tables_private (m : mem) (pg : Z) : Prop :=
  ∀ va j, fits 32 va → Z.land (pte_of m pg va) PTE_VALID ≠ 0 → 0 ≤ j < 4096 → ¬ table_byte m pg (pa2kva (PTE_PADDR (pte_of m pg va)) + j).

Lemma coherent_kept m m' pg c : (∀ a, table_byte m pg a → m' a = m a) → coherent m pg c → coherent m' pg c.
Proof.
  intros Hk [H1 H2 H3 H4 H5]. split; try done. intros i e Hi. destruct (H4 i e Hi) as [Hu|[L1 L2 L3 L4]]; [by left|right].
  split; [done|done|by rewrite (kept_pte m)..].
Qed.

Lemma st32_fits a v m : (∀ x, fits 8 (m x)) → ∀ x, fits 8 (st32 a v m x).
Proof. intros Hm x. unfold st32. destruct (_ && _); [by apply Z.mod_pos_bound|done]. Qed.

Section programs.
Context (random : cp0 → Z) (Hrandom : ∀ c, 0 ≤ random c < get_tlb_entries c).
Context (cpu pg : Z) (n : nat) (bs : blocks) (Hcpu : 0 ≤ cpu < Z.of_nat n).

(** The processor runs in the address space of [pg]. *)
Record running (m : mem) (c : cpu_mmu) : Prop := Running {
  ru_entries : entries_fit m pg;
  ru_tables : tables m pg bs;
  ru_private : tables_private m pg;
  ru_mmu : mmu_ok n c;
  ru_index : get_pgindex cpu c = Ok pg;
  ru_coherent h : rd (cp0s c) cpu = Ok h → coherent m pg h }.

Lemma user_access_ok store va m c : fits 32 va → running m c →
  wp (user_access random cpu store va m c) (λ '(r, c'), r = walk_access m pg store va ∧ running m c').
Proof.
  intros Hva [R1 R2 R3 R4 R5 R6]. pose proof R4 as [M1 M2 M3]. unfold user_access. rewrite R5. cbn [mbind res_bind].
  destruct (lookup_lt_is_Some_2 (cp0s c) (Z.to_nat cpu)) as [h Hh]; [lia|]. apply (rd_lookup _ cpu) in Hh as Hrd; [|lia]. rewrite Hrd. cbn [mbind res_bind].
  apply wp_bind. eapply wp_mono; [by apply (cp0_access_ok random Hrandom m pg R1 bs R2 store va h Hva (R6 h Hrd))|].
  intros [r h'] (-> & Hc' & _). rewrite wr_ok by lia. cbn [mbind res_bind]. apply wp_ok. split; [done|].
  split; [done|done|done| |done|].
  - split; cbn [pgdir_slots cp0s]; [done|by rewrite length_insert|]. apply Forall_insert; [done|apply Hc'].
  - cbn [cp0s]. intros x [_ Hx]%rd_inv. rewrite list_lookup_insert_eq in Hx by lia. by injection Hx as <-.
Qed.

(** A store of the program leaves the tables alone. *)
Lemma store_kept m va v pa : tables_private m pg → fits 32 va → bad_address va = false → walk_access m pg true va = inl pa →
  ∀ a, table_byte m pg a → st32 (pa2kva pa) v m a = m a.
Proof.
  intros Hp Hva Hb Hw a Ha. unfold st32. destruct (Z.leb_spec (pa2kva pa) a); [|done]. destruct (Z.ltb_spec a (pa2kva pa + 4)); [|done]. cbn [andb].
  unfold walk_access in Hw. destruct (Z.eqb_spec (Z.land (pte_of m pg va) PTE_VALID) 0) as [|Hv]; [done|]. destruct (true && _); [done|]. injection Hw as <-.
  apply orb_false_iff in Hb as [Hb%negb_false_iff%Z.eqb_eq _]. exfalso. revert Ha.
  assert (PAGE_OFFSET va = va mod 4096) as Eo by (unfold PAGE_OFFSET; change PAGE_MASK with (Z.ones 12); by rewrite Z.land_ones).
  rewrite Eo, lor_low, pa2kva_page in * by first [apply PTE_PADDR_aligned|by apply Z.mod_pos_bound].
  replace a with (pa2kva (PTE_PADDR (pte_of m pg va)) + (a - pa2kva (PTE_PADDR (pte_of m pg va)))) by lia.
  apply Hp; [done|done|]. Z.to_euclidean_division_equations. lia.
Qed.

Lemma running_store m c va v pa : running m c → fits 32 va → bad_address va = false → walk_access m pg true va = inl pa →
  running (st32 (pa2kva pa) v m) c.
Proof.
  intros [R1 R2 R3 R4 R5 R6] Hva Hb Hw. pose proof (store_kept m va v pa R3 Hva Hb Hw) as Hk. split; try done.
  - intros va' Hf. rewrite (kept_pte m) by done. by apply R1.
  - eapply (kept_tables m); [done| |exact R2]. intros a. by apply tables_busy.
  - intros va' j Hf. rewrite (kept_pte m) by done. intros Hv Hj. rewrite (kept_table_byte m) by done. by apply R3.
  - intros h Hh. by apply (coherent_kept m), R6.
Qed.

Lemma user_word_ok o m c : fits 32 (op_address o) → running m c →
  wp (user_word random cpu o m c) (λ '(r, m', c'), (r, m') = walk_word pg o m ∧ running m' c').
Proof.
  intros Hf Hr. destruct o as [va|va v]; cbn [op_address user_word walk_word] in *; destruct (bad_address va) eqn:Hb; try by apply wp_ok.
  - apply wp_bind. eapply wp_mono; [by apply user_access_ok|]. intros [r c'] [-> Hr']. by destruct (walk_access m pg false va); apply wp_ok.
  - apply wp_bind. eapply wp_mono; [by apply user_access_ok|]. intros [r c'] [-> Hr']. destruct (walk_access m pg true va) as [pa|e] eqn:Hw; apply wp_ok; [|done].
    split; [done|]. by eapply running_store.
Qed.

Lemma user_run_ok os : ∀ m c, Forall (λ o, fits 32 (op_address o)) os → running m c →
  wp (user_run random cpu os m c) (λ '(rs, m', c'), (rs, m') = walk_run pg os m ∧ running m' c').
Proof.
  induction os as [|o os IH]; intros m c Hf Hr; cbn [user_run walk_run]; [by apply wp_ok|]. inversion_clear Hf as [|? ? H1 H2].
  apply wp_bind. eapply wp_mono; [by apply user_word_ok|]. intros [[r m1] c1] [<- Hr1].
  apply wp_bind. eapply wp_mono; [by apply IH|]. intros [[rs m2] c2] [<- Hr2]. by apply wp_ok.
Qed.
End programs.

(** C13. The translation buffer is transparent: after [switch_pgindex] to the page
    index [pg], a program of loads and stores of words sees, access for access,
    what a walk of the page tables gives: the same values, the same exceptions (no
    translation, a store to a page without permission, an address that is
    unaligned or not the program's) and the same memory, whatever entries
    [tlbwr] replaces; every access takes at most one refill, two entries never
    answer to one address, and the tables stay as they were.  The tables are
    those of a page index, in pages that no user address reaches. *)
Theorem user_program_correct random cpu pg n bs os m c : (∀ c, 0 ≤ random c < get_tlb_entries c) → 0 ≤ cpu < Z.of_nat n → mmu_ok n c →
  (∀ a, fits 8 (m a)) → tables m pg bs → tables_private m pg → Forall (λ o, fits 32 (op_address o)) os →
  wp ('(_, c) ← switch_pgindex cpu pg c; user_run random cpu os m c) (λ '(rs, m', c'), (rs, m') = walk_run pg os m ∧ running cpu pg n bs m' c').
Proof.
  intros Hrandom Hcpu Hc Hm Ht Hp Hos. apply wp_bind. eapply wp_mono; [by apply (switch_pgindex_ok n)|].
  intros [r c1] (_ & Hok & Hidx & h & Hh & Hfl). apply (user_run_ok random Hrandom cpu pg n bs Hcpu os); [done|].
  split; try done; [by apply pte_fits|]. intros h' Hh'. rewrite Hh in Hh'. injection Hh' as <-. by apply flushed_coherent.
Qed.

(** ** Changes under the buffer

    [map_pages], [unmap_pages] and [set_pages_perm] change the tables and leave the
    buffer alone: a translation that was used stays in force whatever the tables
    say afterwards. *)
Theorem stale_translation random m pg bs store va c pa : (∀ c, 0 ≤ random c < get_tlb_entries c) → (∀ a, fits 8 (m a)) → tables m pg bs →
  fits 32 va → coherent m pg c → walk_access m pg store va = inl pa →
  wp (cp0_access random store va pg m c) (λ '(r, c'), r = inl pa ∧
    ∀ m' pg', wp (cp0_access random store va pg' m' c') (λ '(r', _), r' = inl pa)).
Proof.
  intros Hr Hm%(pte_fits m pg) Ht Hva Hc Hw. eapply wp_mono; [by apply (cp0_access_ok random Hr m pg Hm bs Ht)|]. intros [r c'] (-> & Hc' & He). rewrite Hw in *.
  split; [done|]. intros m' pg'. destruct He as [e He]; [by exists pa|].
  destruct (access_hit random m pg Hm store va c' e pg' m' Hva Hc' He) as (c2 & E & _). unfold cp0_access. rewrite loop_S, E, Hw. done.
Qed.

(** The address spaces of Areas keep their tables to themselves. *)
Lemma mm_inv_private {K : Kmem} {H : list (Z * Z) → nat → world → Prop} {HO : ObjLaws K H} O r u mm pg l bs :
  mm_inv (H := H) O r u mm pg l bs → tables_private (bytes (mw u)) pg.
Proof.
  intros Hi va j Hva Hv Hj. destruct (mi_cover _ _ _ _ _ _ _ Hi va Hva) as (x & Hx & Hr); [by intros E; rewrite E in Hv|].
  destruct (mi_held _ _ _ _ _ _ _ Hi x Hx) as [q Hq]. pose proof (hd_back _ _ _ _ _ _ Hq) as [_ Hp (Q1 & Q2 & Q3)].
  destruct (hd_page _ _ _ _ _ _ Hq) as [Es _]. unfold PAGE_SIZE in *.
  assert (fits 32 q) as Fq by (unfold fits, KERN_BASE in *; lia).
  rewrite (Hp va) by (unfold page_in, v_end, PAGE_SIZE in *; lia). rewrite PTE_PADDR_lor by (done || (pose proof (perm_bounds (v_flags x.2)); lia)).
  destruct (mi_pt _ _ _ _ _ _ _ Hi) as (_ & _ & Ht). apply (held_content O u pg bs x q); [done|done|].
  rewrite pa2kva_eq by lia. unfold in_page. lia.
Qed.

Lemma mm_inv_entries {K : Kmem} {H : list (Z * Z) → nat → world → Prop} {HO : ObjLaws K H} O r u mm pg l bs :
  mm_inv (H := H) O r u mm pg l bs → entries_fit (bytes (mw u)) pg.
Proof.
  intros Hi va Hva. destruct (decide (pte_of (bytes (mw u)) pg va = 0)) as [->|Hne]; [done|].
  destruct (mi_cover _ _ _ _ _ _ _ Hi va Hva Hne) as (x & Hx & Hr). destruct (mi_held _ _ _ _ _ _ _ Hi x Hx) as [q Hq].
  pose proof (hd_back _ _ _ _ _ _ Hq) as [_ Hp (Q1 & Q2 & Q3)]. destruct (hd_page _ _ _ _ _ _ Hq) as [Es _].
  rewrite (Hp va) by (unfold page_in, v_end, PAGE_SIZE in *; lia). pose proof (perm_bounds (v_flags x.2)). rewrite lor_low by (done || lia).
  unfold fits, KERN_BASE, PAGE_SIZE in *. lia.
Qed.

(** ** Witnesses *)

(** The address space of Areas with its page made writable. *)
Definition demo_user_mem : mem := st32 0x80102000 0x1507c0 (bytes space_w).
Definition demo_random (c : cp0) : Z := get_tlb_entries c - 1.

Lemma demo_user_ok : (∀ a, fits 8 (demo_user_mem a)) ∧ tables demo_user_mem 0x80101000 demo_bs ∧ tables_private demo_user_mem 0x80101000.
Proof.
  destruct (set_pte_ok (bytes space_w) 0x80101000 demo_bs 0x400000 0x1507c0 space_tables) as (Ht & He & Hp); [done|done|by rewrite space_ent|].
  rewrite space_ent in Ht, He, Hp by done. change (st32 _ _ _) with demo_user_mem in Ht, He, Hp. split_and!; [|done|].
  - intros a. repeat apply st32_fits. by intros x.
  - intros va j Hva. rewrite Hp, space_pte by done. intros Hv Hj.
    assert (PTE_PADDR (if va / 4096 =? 0x400000 / 4096 then 0x1507c0 else if (0x400000 <=? va) && (va <? 0x401000) then 0x1506c0 else 0) = 0x150000) as ->.
    { destruct (_ =? _); [done|]. by destruct (_ && _). }
    change (pa2kva 0x150000) with 0x80150000. intros [Hb|(i & Hi & _ & Hb)]; unfold in_page in Hb; [lia|].
    rewrite He, space_ent in Hb by done. destruct (i =? 1); lia.
Qed.

Lemma user_program_correct_witness :
  wp ('(_, c) ← switch_pgindex 0 0x80101000 (CpuMmu [0] [demo_cp0]);
      user_run demo_random 0 [Sw 0x400010 0x12345678; Lw 0x400010; Lw 0x401000; Lw 0x400011] demo_user_mem c)
    (λ '(rs, m', _), rs = [inl 0; inl 0x12345678; inr EXC_TLBL; inr EXC_ADEL] ∧ ld32 m' 0x80150010 = 0x12345678).
Proof.
  destruct demo_user_ok as (H1 & H2 & H3).
  eapply wp_mono; [apply (user_program_correct demo_random 0 0x80101000 1 demo_bs _ demo_user_mem (CpuMmu [0] [demo_cp0]))|];
    [intros c; unfold demo_random; pose proof (tlb_entries_bounds c); lia|lia|split; [done|done|by repeat constructor]|exact H1|exact H2|exact H3|by repeat constructor|].
  intros [[rs m'] c'] [Hw _]. pose proof (f_equal fst Hw) as E1. pose proof (f_equal snd Hw) as E2. cbn [fst snd] in E1, E2. clear Hw H1 H2 H3.
  rewrite E1, E2. clear. split; vm_compute; reflexivity.
Defined.

Lemma stale_translation_witness :
  wp (tlb_flush demo_cp0) (λ c, wp (cp0_access demo_random false 0x400010 0x80101000 demo_user_mem c) (λ '(r, c'), r = inl 0x150010 ∧
    wp (cp0_access demo_random false 0x400010 0x80101000 (st32 0x80102000 0 demo_user_mem) c') (λ '(r', _), r' = inl 0x150010) ∧
    walk_access (st32 0x80102000 0 demo_user_mem) 0x80101000 false 0x400010 = inr EXC_TLBL)).
Proof.
  destruct demo_user_ok as (H1 & H2 & _). eapply wp_mono; [by apply tlb_flush_ok|]. intros c [Hf _].
  eapply wp_mono; [apply (stale_translation demo_random demo_user_mem 0x80101000 demo_bs false 0x400010 c 0x150010)|];
    [intros d; unfold demo_random; pose proof (tlb_entries_bounds d); lia|exact H1|exact H2|done|by apply flushed_coherent|by vm_compute|].
  intros [r c'] [-> Hs]. split; [done|]. split; [exact (Hs _ _)|by vm_compute].
Defined.
