(* ===== verification/MmTest.v ===== *)
(** * The self test of the address spaces

    [mm_test] of kern/mm/test.c, which the kernel runs once at start-up.  It takes
    the operations of kern/mm/uvm.c, the page tables and the translation buffer
    together: address spaces are created, filled, read and written through the
    processor, copied and destroyed.  The theorem is that every assertion holds and
    that nothing is lost. *)
From stdpp Require Import sorting.
From S2P Require Import Prelude Util DList MmState Libc Palloc Pmm Simple Vmm Init Cp0 Pgtable Sync Uvm Areas SlabHeap Teardown Lifetime Clone Tlb.

Definition set_mmu (c : cpu_mmu) (u : uvm) : uvm :=
  UvmState (mms u) (vmas u) (upgs u) (ul u) (kernel_mm u) (current_mm u) c (this_cpu u) (mw u).

Section test.
Context {K : Kmem} (random : cp0 → Z).

(** [switch_pgindex(mm->pgindex)] *)
Definition switch_to (m : Z) (u : uvm) : res uvm :=
  mm ← get_mm u m;
  '(_, c) ← switch_pgindex (this_cpu u) (pgindex mm) (mmu u);
  Ok (set_mmu c u).

(** A load or a store of a word at a user address, from the kernel; an exception
    other than a refill is not expected. *)
Definition access (o : uop) (u : uvm) : res (Z * uvm) :=
  '(r, b, c) ← user_word random (this_cpu u) o (bytes (mw u)) (mmu u);
  match r with
  | inl v => Ok (v, set_mmu c (set_mw (upd_bytes (λ _, b) (mw u)) u))
  | inr _ => Err Panicked
  end.

Definition test_addr : Z := PAGE_SIZE.

(** The loops over the words of the page. *)
Definition each_word (f : Z → uvm → res uvm) (u : uvm) : res uvm :=
  loop 1025 (λ '(i, u),
    if i <? PAGE_SIZE then u ← f (w32 (test_addr + i)) u; Ok (inl (w32 (i + WORD_SIZE), u))
    else Ok (inr u)) (0, u).
Definition expect (v : Z) : uvm → res uvm :=
  each_word (λ a u, '(x, u) ← access (Lw a) u; assert_ (x =? v);; Ok u).
Definition overwrite (v : Z) : uvm → res uvm :=
  each_word (λ a u, '(_, u) ← access (Sw a v) u; Ok u).

Definition RW : Z := Z.lor VMA_READ VMA_WRITE.

(** The test in three parts; [get_mm] is the access for the message. *)
Definition mm_test_areas (u : uvm) : res uvm :=
  '(m, u) ← mm_new u;
  _ ← get_mm u m;
  '(r, u) ← create_uvm m 0x100000 (5 * PAGE_SIZE) RW u; assert_ (r =? 0);;
  '(r, u) ← destroy_uvm m 0x100000 (2 * PAGE_SIZE) u; assert_ (r =? 0);;
  '(r, u) ← destroy_uvm m (0x100000 + 2 * PAGE_SIZE) (3 * PAGE_SIZE) u; assert_ (r =? 0);;
  mm_destroy m u.

Definition mm_test_copy (u : uvm) : res uvm :=
  '(m, u) ← mm_new u;
  _ ← get_mm u m;
  '(r, u) ← create_uvm m test_addr (1 * PAGE_SIZE) RW u; assert_ (r =? 0);;
  '(r, u) ← fill_uvm m test_addr 0x40 (1 * PAGE_SIZE) u; assert_ (r =? 0);;
  u ← switch_to m u;
  u ← expect 0x40404040 u;
  u ← overwrite 0xdeadbeef u;
  '(new_mm, u) ← mm_new u;
  _ ← get_mm u new_mm;
  '(_, u) ← mm_clone new_mm m u;
  u ← switch_to new_mm u;
  u ← expect 0xdeadbeef u;
  u ← mm_destroy new_mm u;
  mm_destroy m u.

Definition mm_test_again (u : uvm) : res uvm :=
  '(m, u) ← mm_new u;
  _ ← get_mm u m;
  mm_destroy m u.

Definition mm_test (u : uvm) : res uvm :=
  u ← mm_test_areas u;
  u ← mm_test_copy u;
  mm_test_again u.
End test.

(** ** What the operations leave alone

    The processors, the current process and the kernel's address space. *)
Definition hw (u : uvm) : Z * option Z * cpu_mmu * Z := (kernel_mm u, current_mm u, mmu u, this_cpu u).

(** If it returns, the result satisfies [Q]. *)
Definition wlp {A} (m : res A) (Q : A → Prop) : Prop := ∀ a, m = Ok a → Q a.

Lemma wlp_ok {A} (a : A) (Q : A → Prop) : Q a → wlp (Ok a) Q.
Proof. by intros Hq ? [= <-]. Qed.
Lemma wlp_any {A} (m : res A) (Q : A → Prop) : (∀ a, Q a) → wlp m Q.
Proof. by intros Hq ? _. Qed.
Lemma wlp_bind {A B} (m : res A) (f : A → res B) (Q : B → Prop) : wlp m (λ a, wlp (f a) Q) → wlp (m ≫= f) Q.
Proof. intros Hw b. destruct m as [a|e]; [|done]. by apply Hw. Qed.
Lemma wlp_mono {A} (m : res A) (P Q : A → Prop) : wlp m P → (∀ a, P a → Q a) → wlp m Q.
Proof. intros Hw HPQ a E. by apply HPQ, Hw. Qed.
Lemma wlp_loop {St R} (body : St → res (St + R)) (I : St → Prop) (Q : R → Prop) (fuel : nat) (s : St) :
  (∀ s, I s → wlp (body s) (λ r, match r with inl s' => I s' | inr v => Q v end)) → I s → wlp (loop fuel body s) Q.
Proof.
  intros Hb. revert s. induction fuel as [|fuel IH]; intros s Hs; [done|]. rewrite loop_S. apply wlp_bind.
  eapply wlp_mono; [by apply Hb|]. intros [s'|v] Hr; [by apply IH|by apply wlp_ok].
Qed.
Lemma wp_wlp {A} (m : res A) (P Q : A → Prop) : wp m P → wlp m Q → wp m (λ a, P a ∧ Q a).
Proof. destruct m as [a|e]; [|done]. intros Hp Hq. split; [done|by apply Hq]. Qed.

Create HintDb hw.
Ltac hw_pairs := repeat match goal with x : _ * _ |- _ => destruct x end; cbn [fst snd] in *.
Ltac hw_done := unfold hw in *; cbn [kernel_mm current_mm mmu this_cpu set_mms set_vmas set_upgs set_ul set_mw list_init_new set_mmu fst snd] in *; congruence.
Ltac hw_step :=
  match goal with
  | |- wlp (Ok _ ≫= _) _ => cbn [mbind res_bind]
  | |- wlp (_ ≫= _) _ => apply wlp_bind; first [eapply wlp_mono; [solve [eauto 2 with hw]|]|apply wlp_any]; intros; hw_pairs; cbv beta iota
  | |- wlp (Ok _) _ => apply wlp_ok; cbn [fst snd]; try hw_done
  | |- wlp (if ?b then _ else _) _ => destruct b
  | |- wlp (let x := _ in _) _ => cbv zeta
  | |- wlp (Err _) _ => done
  | |- wlp _ _ => eapply wlp_mono; [solve [eauto 2 with hw]|]; intros; hw_pairs; cbv beta iota; try hw_done
  end.
Ltac hw_steps := repeat hw_step.

Lemma hw_on_mw {A} (f : world → res (A * world)) u : wlp (on_mw f u) (λ r, hw r.2 = hw u).
Proof. unfold on_mw. hw_steps. Qed.
Lemma hw_on_mw_ f u : wlp (on_mw_ f u) (λ u', hw u' = hw u).
Proof. unfold on_mw_. hw_steps. Qed.
Lemma hw_on_ul f u : wlp (on_ul f u) (λ u', hw u' = hw u).
Proof. unfold on_ul. hw_steps. Qed.
#[export] Hint Resolve hw_on_mw hw_on_mw_ hw_on_ul : hw.

Section hw.
Context {K : Kmem}.

Lemma hw_mm_new u : wlp (mm_new u) (λ r, hw r.2 = hw u).
Proof. unfold mm_new. hw_steps. Qed.
Lemma hw_clean_vma m v u : wlp (clean_vma m v u) (λ u', hw u' = hw u).
Proof. unfold clean_vma. hw_steps. Qed.
Lemma hw_free_upages p u : wlp (free_upages p u) (λ u', hw u' = hw u).
Proof. unfold free_upages. hw_steps. Qed.
Lemma hw_free_vma v u : wlp (free_vma v u) (λ u', hw u' = hw u).
Proof. unfold free_vma. hw_steps. Qed.
Lemma hw_unref p u : wlp (unref_and_free_upages p u) (λ r, hw r.2 = hw u).
Proof. unfold unref_and_free_upages. hw_steps. Qed.
#[local] Hint Resolve hw_mm_new hw_clean_vma hw_free_upages hw_free_vma hw_unref : hw.

Lemma hw_release_vma v p u : wlp (release_vma v p u) (λ u', hw u' = hw u).
Proof. unfold release_vma. apply wlp_bind. eapply wlp_mono; [apply hw_unref|]. intros [[|] u1] E; cbn [snd] in E; hw_steps. Qed.
#[local] Hint Resolve hw_release_vma : hw.
Lemma hw_remove_vma m v u : wlp (remove_vma m v u) (λ r, hw r.2 = hw u).
Proof. unfold remove_vma. hw_steps. Qed.
Lemma hw_vma_new m addr sz fl u : wlp (vma_new m addr sz fl u) (λ r, hw r.2 = hw u).
Proof. unfold vma_new. hw_steps. Qed.
Lemma hw_upages_new sz fl u : wlp (upages_new sz fl u) (λ r, hw r.2 = hw u).
Proof. unfold upages_new. hw_steps. Qed.
Lemma hw_alloc_upages p u : wlp (alloc_upages p u) (λ r, hw r.2 = hw u).
Proof. unfold alloc_upages. hw_steps. Qed.
Lemma hw_ref_upages p u : wlp (ref_upages p u) (λ u', hw u' = hw u).
Proof. unfold ref_upages. hw_steps. Qed.
Lemma hw_memmove d sr n u : wlp (memmove_w d sr n u) (λ u', hw u' = hw u).
Proof. unfold memmove_w. hw_steps. Qed.
#[local] Hint Resolve hw_remove_vma hw_vma_new hw_upages_new hw_alloc_upages hw_ref_upages hw_memmove : hw.

Lemma hw_add_vma m addr sz vf psz pf cur prepare u : (∀ p u, wlp (prepare p u) (λ u', hw u' = hw u)) →
  wlp (add_vma m addr sz vf psz pf cur prepare u) (λ r, hw r.2 = hw u).
Proof. intros Hp. unfold add_vma. hw_steps. Qed.

Lemma hw_unmap_and_free m v sz u : wlp (unmap_and_free_vma m v sz u) (λ u', hw u' = hw u).
Proof. unfold unmap_and_free_vma. apply (wlp_loop _ (λ s, hw s.2 = hw u)); [|done]. intros [[i cur] u1] E. cbn [snd] in E. hw_steps. Qed.
#[local] Hint Resolve hw_unmap_and_free : hw.

Lemma hw_destroy_uvm m addr len u : wlp (destroy_uvm m addr len u) (λ r, hw r.2 = hw u).
Proof. unfold destroy_uvm. hw_steps. Qed.

Lemma hw_create_uvm m addr len fl u : wlp (create_uvm m addr len fl u) (λ r, hw r.2 = hw u).
Proof.
  unfold create_uvm. hw_step; [by apply wlp_ok|]. hw_step; [by apply wlp_ok|]. apply wlp_bind, wlp_any. intros start. hw_step; [by apply wlp_ok|].
  apply wlp_bind. eapply wlp_mono.
  { apply (wlp_loop _ (λ s, hw s.2 = hw u) (λ r, hw r.2 = hw u)); [|done]. intros [[[mp vc] cur] u1] E. cbn [snd] in E. hw_step; [|by apply wlp_ok].
    apply wlp_bind. eapply wlp_mono; [apply hw_add_vma; intros; by apply wlp_ok|]. intros [[rc v] u2] E2. cbn [snd] in E2. hw_steps. }
  intros [[rc mp] u1] E. cbn [snd] in E. hw_steps.
Qed.

Lemma hw_mm_clone dst src u : wlp (mm_clone dst src u) (λ r, hw r.2 = hw u).
Proof.
  unfold mm_clone. cbv zeta. apply wlp_bind, wlp_any. intros first. apply wlp_bind. eapply wlp_mono.
  { apply (wlp_loop _ (λ s, hw s.2 = hw u) (λ r, hw r.2 = hw u)); [|done]. intros [[[n cur] cl] u1] E. cbn [snd] in E. hw_step; [by apply wlp_ok|].
    hw_step. hw_step. apply wlp_bind. eapply wlp_mono; [apply hw_add_vma; intros; hw_steps|]. intros [[rc v] u2] E2. cbn [snd] in E2. hw_steps. }
  intros [[rc mp] u1] E. cbn [snd] in E. hw_steps.
Qed.

Lemma hw_mm_destroy m u : wlp (mm_destroy m u) (λ u', hw u' = hw u).
Proof.
  unfold mm_destroy. hw_step; [by apply wlp_ok|]. do 2 (apply wlp_bind, wlp_any; intros ?). apply wlp_bind. eapply wlp_mono.
  { apply (wlp_loop _ (λ s, hw s.2 = hw u) (λ u', hw u' = hw u)); [|done]. intros [[n n'] u1] E. cbn [snd] in E. hw_steps. }
  intros u1 E. hw_steps.
Qed.
End hw.

(** ** Where the memory is

    All of the memory [bs0] is free or belongs to the address space. *)
Section account.
Context {K : Kmem} {H : list (Z * Z) → nat → world → Prop} {HO : ObjLaws K H}.
Implicit Types (u : uvm) (O : list (Z * Z)) (bs : blocks).

Definition accounted u (pg : Z) (l : list (Z * vma)) bs bs0 : Prop :=
  ∀ y, avail bs0 y ↔ avail bs y ∨ space_byte u pg l (y + KERN_BASE).

Lemma space_byte_at u pg l y : space_byte u pg l (y + KERN_BASE) ↔ table_byte (bytes (mw u)) pg (y + KERN_BASE) ∨ ∃ x, x ∈ l ∧ owns u x y.
Proof. unfold space_byte. by replace (y + KERN_BASE - KERN_BASE) with y by lia. Qed.

(** The tables that stay and those that do not. *)
Lemma table_byte_split m m' pg y : (∀ i, 0 ≤ i < 1024 → ent m' pg i = ent m pg i ∨ ent m' pg i = 0) →
  table_byte m pg (y + KERN_BASE) ↔ table_byte m' pg (y + KERN_BASE) ∨ dropped m m' pg y.
Proof.
  intros Hk. split.
  - intros [Ha|(i & Hi & Hne & Ha)]; [left; by left|]. destruct (decide (ent m' pg i = 0)) as [E|E].
    + right. exists i. exact (conj Hi (conj Hne (conj E Ha))).
    + left. right. exists i. destruct (Hk i Hi) as [Ee|]; [|done]. rewrite Ee in *. done.
  - intros [Ha|Ha]; [by eapply table_byte_shrink|by eapply dropped_table].
Qed.

Lemma owns_kept u u' (l : list (Z * vma)) y : (∀ x, x ∈ l → upgs u' !! v_pages x.2 = upgs u !! v_pages x.2) →
  (∃ x, x ∈ l ∧ owns u' x y) ↔ ∃ x, x ∈ l ∧ owns u x y.
Proof. intros Hu. unfold owns. split; intros (x & Hx & Ho); exists x; (split; [done|]); [by rewrite <-Hu|by rewrite Hu]. Qed.

Lemma owns_app u (l1 l2 : list (Z * vma)) y : (∃ x, x ∈ l1 ++ l2 ∧ owns u x y) ↔ (∃ x, x ∈ l1 ∧ owns u x y) ∨ ∃ x, x ∈ l2 ∧ owns u x y.
Proof. setoid_rewrite elem_of_app. naive_solver. Qed.

Lemma accounted_created O r0 r u m pg l1 l2 bs addr fl items u' bs' bs0 : mm_inv (H := H) O r0 u m pg (l1 ++ l2) bs →
  created (H := H) r u m pg l1 l2 bs addr fl items u' bs' → accounted u pg (l1 ++ l2) bs bs0 → accounted u' pg (l1 ++ areas m addr fl items ++ l2) bs' bs0.
Proof.
  intros Hi Hc Ha y. rewrite (Ha y), !space_byte_at, !owns_app, (cr_avail _ _ _ _ _ _ _ _ _ _ _ _ Hc y), (created_owns _ _ _ _ _ _ _ _ _ _ _ _ y Hc).
  assert (∀ x, x ∈ l1 ++ l2 → upgs u' !! v_pages x.2 = upgs u !! v_pages x.2) as Hu.
  { intros x Hx. destruct (mi_held _ _ _ _ _ _ _ Hi x Hx) as [q Hq]. apply (cr_upgs _ _ _ _ _ _ _ _ _ _ _ _ Hc), elem_of_dom. by rewrite (bk_pages _ _ _ _ _ _ (hd_back _ _ _ _ _ _ Hq)). }
  rewrite (owns_kept u u' l1), (owns_kept u u' l2) by (intros x Hx; apply Hu, elem_of_app; auto).
  rewrite (table_byte_split (bytes (mw u')) (bytes (mw u))); [tauto|]. intros i Hii. destruct (decide (ent (bytes (mw u)) pg i = 0)); [by right|left].
  symmetry. by apply (gr_keep _ _ _ (cr_grown _ _ _ _ _ _ _ _ _ _ _ _ Hc)).
Qed.

Lemma accounted_destroyed O r u m pg l1 run l2 bs u' bs' bs0 : mm_inv (H := H) O r u m pg (l1 ++ run ++ l2) bs →
  destroyed u pg run bs u' bs' → accounted u pg (l1 ++ run ++ l2) bs bs0 → accounted u' pg (l1 ++ l2) bs' bs0.
Proof.
  intros Hi Hd Ha y. rewrite (Ha y), !space_byte_at, !owns_app, (de_avail _ _ _ _ _ _ Hd y), (table_byte_split (bytes (mw u)) (bytes (mw u'))) by apply Hd.
  assert (∀ x, x ∈ l1 ++ l2 → upgs u' !! v_pages x.2 = upgs u !! v_pages x.2) as Hu.
  { intros x Hx. apply (de_upgs _ _ _ _ _ _ Hd). intros (z & E & (k1 & k2 & ->)%list_elem_of_split)%list_elem_of_fmap. cbn in E.
    apply (parts_disjoint m (l1 ++ k1) (k2 ++ l2) z x); [|set_solver|done]. pose proof (mi_nodes _ _ _ _ _ _ _ Hi) as Hn. by rewrite <-!app_assoc in *. }
  rewrite (owns_kept u u' l1), (owns_kept u u' l2) by (intros x Hx; apply Hu, elem_of_app; auto). tauto.
Qed.

Lemma accounted_emptied u m pg l bs O r u' bs' bs0 : emptied u m pg l bs u' bs' → accounted u pg l bs bs0 →
  ready (H := H) O r u' bs' → wf (-1) bs0 → bs' = bs0.
Proof.
  intros He Ha [_ (_ & (? & _ & _ & Hwf & _) & _) _ _] Hwf0. apply (wf_unique (-1)); [done|done|]. intros y.
  rewrite (Ha y), space_byte_at, (em_avail _ _ _ _ _ _ _ He y). tauto.
Qed.

(** ** The operations of the test

    The address space [m] with the areas [l] has what is missing of [bs0], and the
    processors are as in [h]. *)
Record tested O (r : nat) u (m pg : Z) (l : list (Z * vma)) bs bs0 h : Prop := Tested {
  ts_inv : mm_inv (H := H) O r u m pg l bs;
  ts_memory : accounted u pg l bs bs0;
  ts_whole : wf (-1) bs0;
  ts_kernel : KERN_BASE ≤ m;
  ts_hw : hw u = h }.

Lemma test_get O r u m pg l bs bs0 h : tested O r u m pg l bs bs0 h → ∃ c, get_mm u m = Ok (Mm c pg).
Proof. intros [[[c Hm] _ _ _ _ _ _ _ _ _ _ _] _ _ _ _]. exists c. unfold get_mm. by rewrite Hm. Qed.

Lemma test_new O r u bs0 h : ready (H := H) O (S r) u bs0 → hw u = h → PAGE_SIZE ≤ total bs0 →
  wp (mm_new u) (λ '(m, u'), ∃ O' pg bs, tested O' r u' m pg [] bs bs0 h ∧ total bs = total bs0 - PAGE_SIZE).
Proof.
  intros Hr Hh Ht. pose proof (rd_pages _ _ _ _ Hr) as (_ & (lb & _ & _ & Hwf & _) & _).
  eapply wp_mono; [eapply wp_wlp; [apply (mm_new_ok O r u bs0 Hr); unfold PAGE_SIZE in *; lia|apply hw_mm_new]|].
  intros [m u'] [(Hm & _ & q & bs & Eff & Htk & Hi & _) Eh]. exists ((m, SIZEOF_MM) :: O), (q + KERN_BASE), bs.
  destruct (first_fit_wf PAGE_SIZE (-1) bs0 q bs Hwf ltac:(done) ltac:(done) Eff) as (_ & Htot & _). split; [|done]. split; [done| |done|done|].
  - intros y. rewrite (proj1 Htk y), space_byte_at. f_equiv. split; [intros Hy; left; left; unfold in_page, PAGE_SIZE in *; lia|].
    intros [[Hy|(i & Hii & Hne & _)]|(x & []%elem_of_nil & _)]; [unfold in_page, PAGE_SIZE in *; lia|]. destruct Hne. by eapply no_tables.
  - by rewrite <-Hh.
Qed.

Lemma test_create O r n u m pg bs bs0 h addr fl : tested O (2 * n + r) u m pg [] bs bs0 h → (0 < n)%nat → addr mod PAGE_SIZE = 0 → 0 ≤ addr →
  addr + PAGE_SIZE * Z.of_nat n < 2 ^ 32 → 2 * PAGE_SIZE * Z.of_nat n ≤ total bs →
  wp (create_uvm m addr (PAGE_SIZE * Z.of_nat n) fl u) (λ '(rc, u'), rc = 0 ∧ ∃ O' items bs', length items = n ∧ Forall (λ x, x.1 ≠ NULL) (areas m addr fl items) ∧
    tested O' r u' m pg (areas m addr fl items) bs' bs0 h ∧ total bs - 2 * PAGE_SIZE * Z.of_nat n ≤ total bs').
Proof.
  intros [Hi Ha Hw Hm Hh] Hn Ham Ha0 Hab Ht. unfold KERN_BASE in Hm.
  destruct (create_result O r n u m pg [] bs addr fl Hi) as [[(x & []%elem_of_nil & _) _]|[_ Hc]]; [done|done|done|done|done|unfold NULL; lia|unfold NODE; lia|constructor|done|].
  eapply wp_mono; [eapply wp_wlp; [exact Hc|apply hw_create_uvm]|]. intros [rc u'] [(-> & l1 & l2 & items & bs' & El & Hlen & Hcr) Eh]. split; [done|].
  symmetry in El. apply app_nil in El as [-> ->]. pose proof (accounted_created _ _ _ _ _ _ [] [] _ _ _ _ _ _ _ Hi Hcr Ha) as Hac.
  destruct (cr_inv _ _ _ _ _ _ _ _ _ _ _ _ Hcr) as [O' Hi']. rewrite app_nil_r in Hi', Hac. exists O', items, bs'.
  split_and!; [done| |split; [done|done|done|done|by rewrite <-Hh]|rewrite <-Hlen; apply (cr_total _ _ _ _ _ _ _ _ _ _ _ _ Hcr)].
  apply Forall_forall. intros x (i & v & p & q & Hit & ->)%areas_items. destruct (cr_back _ _ _ _ _ _ _ _ _ _ _ _ Hcr i v p q Hit) as [Hv _]. cbn. unfold NULL. lia.
Qed.

Lemma test_destroy O r u m pg run l bs bs0 h addr : tested O (2 * length run + r) u m pg (run ++ l) bs bs0 h → run_at addr run → run ≠ [] →
  addr mod PAGE_SIZE = 0 → 0 ≤ addr → Forall (λ x, x.1 ≠ NULL) run →
  wp (destroy_uvm m addr (PAGE_SIZE * Z.of_nat (length run)) u) (λ '(rc, u'), rc = 0 ∧ ∃ O' bs', tested O' r u' m pg l bs' bs0 h).
Proof.
  intros [Hi Ha Hw Hm Hh] Hrun Hne Ham Ha0 Hnn. unfold KERN_BASE in Hm.
  eapply wp_mono; [eapply wp_wlp; [apply (destroy_run_ok O r u m pg [] run l bs addr); (done || (unfold NULL; lia))|apply hw_destroy_uvm]|].
  intros [rc u'] [(-> & O' & bs' & Hi' & Hd) Eh]. split; [done|]. exists O', bs'. split; [done| |done|done|by rewrite <-Hh].
  by apply (accounted_destroyed _ _ _ _ _ [] run l _ _ _ _ Hi Hd Ha).
Qed.

Lemma test_end O r u m pg l bs bs0 h : tested O (2 * length l + S r) u m pg l bs bs0 h →
  wp (mm_destroy m u) (λ u', ∃ O', ready (H := H) O' r u' bs0 ∧ hw u' = h).
Proof.
  intros [Hi Ha Hw Hm Hh]. unfold KERN_BASE in Hm. eapply wp_mono; [eapply wp_wlp; [apply (mm_destroy_result O r u m pg l bs Hi); unfold NULL; lia|apply hw_mm_destroy]|].
  intros u' [(O' & bs' & Hr & He & _) Eh]. exists O'. pose proof (accounted_emptied _ _ _ _ _ _ _ _ _ _ He Ha Hr Hw) as ->. split; [done|by rewrite <-Hh].
Qed.

(** The first and the last part. *)
Lemma mm_test_areas_ok O r u bs h : ready (H := H) O (22 + r) u bs → hw u = h → 11 * PAGE_SIZE ≤ total bs →
  wp (mm_test_areas u) (λ u', ∃ O', ready (H := H) O' r u' bs ∧ hw u' = h).
Proof.
  intros Hr Hh Ht. unfold mm_test_areas. apply wp_bind. eapply wp_mono; [apply (test_new O (21 + r) u bs h Hr Hh); unfold PAGE_SIZE in *; lia|].
  intros [m u1] (O1 & pg & bs1 & H1 & Ht1). destruct (test_get _ _ _ _ _ _ _ _ _ H1) as [c ->]. cbn [mbind res_bind].
  apply wp_bind. change (5 * PAGE_SIZE) with (PAGE_SIZE * Z.of_nat 5). eapply wp_mono; [apply (test_create O1 (11 + r) 5 u1 m pg bs1 bs h _ RW H1); (done || (unfold PAGE_SIZE in *; lia))|].
  intros [rc u2] (-> & O2 & items & bs2 & Hlen & Hnn & H2 & _). cbn [assert_ Z.eqb mbind res_bind].
  destruct (areas_run m 0x100000 RW items) as [Hrun Hl]. set (l := areas m 0x100000 RW items) in *. clearbody l. rewrite Hlen in Hl.
  assert (length (take 2 l) = 2%nat ∧ length (drop 2 l) = 3%nat) as [L1 L2] by (rewrite length_take, length_drop; lia).
  rewrite <-(take_drop 2 l) in H2, Hnn. apply Forall_app in Hnn as [N1 N2].
  apply wp_bind. change (2 * PAGE_SIZE) with (PAGE_SIZE * Z.of_nat 2) at 1. rewrite <-L1 at 1. eapply wp_mono.
  { apply (test_destroy O2 (7 + r) u2 m pg (take 2 l) (drop 2 l) bs2 bs h); [by rewrite L1| |by intros E; rewrite E in L1|done|done|done].
    intros k x Hk. apply Hrun. by apply lookup_take_Some in Hk as [? _]. }
  intros [rc u3] (-> & O3 & bs3 & H3). cbn [assert_ Z.eqb mbind res_bind].
  apply wp_bind. change (3 * PAGE_SIZE) with (PAGE_SIZE * Z.of_nat 3). rewrite <-L2 at 1. eapply wp_mono.
  { apply (test_destroy O3 (1 + r) u3 m pg (drop 2 l) [] bs3 bs h); [by rewrite L2, app_nil_r| |by intros E; rewrite E in L2|done|done|done].
    intros k x Hk. rewrite lookup_drop in Hk. rewrite (Hrun _ _ Hk). unfold PAGE_SIZE. lia. }
  intros [rc u4] (-> & O4 & bs4 & H4). cbn [assert_ Z.eqb mbind res_bind]. by apply (test_end O4 r u4 m pg [] bs4).
Qed.

Lemma mm_test_again_ok O r u bs h : ready (H := H) O (2 + r) u bs → hw u = h → PAGE_SIZE ≤ total bs →
  wp (mm_test_again u) (λ u', ∃ O', ready (H := H) O' r u' bs ∧ hw u' = h).
Proof.
  intros Hr Hh Ht. unfold mm_test_again. apply wp_bind. eapply wp_mono; [by apply (test_new O (1 + r) u bs h Hr Hh)|].
  intros [m u1] (O1 & pg & bs1 & H1 & _). destruct (test_get _ _ _ _ _ _ _ _ _ H1) as [c ->]. cbn [mbind res_bind]. by apply (test_end O1 r u1 m pg [] bs1).
Qed.

(** ** A page seen by the processor *)

(** The state with other memory and another translation buffer. *)
Definition with_bytes (b : mem) (c : cpu_mmu) u : uvm := set_mmu c (set_mw (upd_bytes (λ _, b) (mw u)) u).

Lemma with_bytes_id c u : with_bytes (bytes (mw u)) c u = set_mmu c u.
Proof. unfold with_bytes. by rewrite set_mw_id. Qed.

(** An address space may be written through its areas. *)
Lemma inv_bytes O r u m pg l bs b c : mm_inv (H := H) O r u m pg l bs → (∀ a, (∀ x, x ∈ l → ¬ owns u x (a - KERN_BASE)) → b a = bytes (mw u) a) →
  mm_inv (H := H) O r (with_bytes b c u) m pg l bs ∧ ∀ a, table_byte (bytes (mw u)) pg a → b a = bytes (mw u) a.
Proof.
  intros Hi Hb. pose proof Hi as [_ (HJ & Hpm & Ht) Hown Hl _ _ _ _ _ _ _ _].
  assert (∀ a, table_byte (bytes (mw u)) pg a → b a = bytes (mw u) a) as Htb.
  { intros a Hta. apply Hb. intros x Hx (q & n & Hu & Hf). destruct (mi_held _ _ _ _ _ _ _ Hi x Hx) as [q' Hq'].
    pose proof (bk_pages _ _ _ _ _ _ (hd_back _ _ _ _ _ _ Hq')) as E. rewrite Hu in E. injection E as -> _.
    apply (held_content _ _ _ _ _ _ a Hq' Ht); [unfold frame, in_page, PAGE_SIZE in *; lia|done]. }
  split; [|done].
  eapply mm_inv_frame; [exact Hi|by eapply (km_frame (K := K))|by apply pm_inv_bytes|by apply (owned_dom O u)|done|done|done|apply Hl|done|done|done|done].
Qed.

Lemma tested_bytes O r u m pg l bs bs0 k cur c cpu b c' : tested O r u m pg l bs bs0 (k, cur, c, cpu) →
  (∀ a, (∀ x, x ∈ l → ¬ owns u x (a - KERN_BASE)) → b a = bytes (mw u) a) → tested O r (with_bytes b c' u) m pg l bs bs0 (k, cur, c', cpu).
Proof.
  intros [Hi Ha Hw Hm Hh] Hb. destruct (inv_bytes O r u m pg l bs b c' Hi Hb) as [Hi' Htb].
  split; [done| |done|done|unfold hw in *; cbn; congruence].
  intros y. rewrite (Ha y), !space_byte_at. change (bytes (mw (with_bytes b c' u))) with b. by rewrite (kept_table_byte (bytes (mw u)) b pg Htb).
Qed.

(** The entry of a page that may be read and written. *)
Lemma perm_bit q bit : Z.land (pgtable_perm RW) bit = bit → 0 < bit → Z.land (Z.lor q (pgtable_perm RW)) bit ≠ 0.
Proof. intros E Hb. rewrite Z.land_lor_distr_l, E. intros [_ ->]%Z.lor_eq_0_iff. lia. Qed.
Lemma walk_page (b : mem) pg va q store : pte_of b pg va = Z.lor q (pgtable_perm RW) → 0 ≤ q → q mod PAGE_SIZE = 0 → q + PAGE_SIZE ≤ KERN_BASE →
  walk_access b pg store va = inl (q + va mod PAGE_SIZE).
Proof.
  intros Hp Q1 Q2 Q3. unfold walk_access. rewrite Hp. unfold PAGE_SIZE in *.
  rewrite !(proj2 (Z.eqb_neq (Z.land (Z.lor q (pgtable_perm RW)) _) 0)) by (by apply perm_bit). rewrite andb_false_r, PTE_PADDR_lor by (done || (unfold fits, KERN_BASE in *; lia) || by vm_compute).
  unfold PAGE_OFFSET. change PAGE_MASK with (Z.ones 12). rewrite Z.land_ones by lia. by rewrite lor_low by (done || by apply Z.mod_pos_bound).
Qed.

Lemma each_word_ok (f : Z → uvm → res uvm) (I : Z → uvm → Prop) u : I 0 u →
  (∀ i u, 0 ≤ i < 1024 → I i u → wp (f (test_addr + 4 * i) u) (I (i + 1))) → wp (each_word f u) (I 1024).
Proof.
  intros H0 Hf. unfold each_word. eapply (wp_loop _ (λ '(j, u), ∃ i, j = 4 * i ∧ 0 ≤ i ≤ 1024 ∧ I i u) (λ s, Z.to_nat (1024 - s.1 / 4))).
  - intros [j u1] (i & -> & Hi & HI). unfold PAGE_SIZE, WORD_SIZE. destruct (Z.ltb_spec (4 * i) 4096).
    + apply wp_bind. rewrite !wrap_small by (unfold fits, test_addr, PAGE_SIZE; lia). eapply wp_mono; [apply Hf; [lia|done]|]. intros u2 HI2. apply wp_ok. split.
      * exists (i + 1). split_and!; [lia|lia|lia|done].
      * cbn [fst]. replace (4 * i + 4) with (4 * (i + 1)) by lia. rewrite !(Z.mul_comm 4), !Z.div_mul by lia. lia.
    + apply wp_ok. by replace i with 1024 in HI by lia.
  - exists 0. split_and!; (done || lia).
  - cbn [fst]. change (0 / 4) with 0. lia.
Qed.

(** *** An address space with the page of the test *)
Definition test_area (m v p : Z) : Z * vma := (v, Vma test_addr PAGE_SIZE RW m p).

Section page.
Context (random : cp0 → Z) (Hrandom : ∀ c, 0 ≤ random c < get_tlb_entries c) (n : nat).
Context O (r : nat) u (m pg v p : Z) bs bs0 (k : Z) (cur : option Z) (c : cpu_mmu) (cpu : Z).
Context (Ht : tested O r u m pg [test_area m v p] bs bs0 (k, cur, c, cpu)).
Context (Hlow : ∀ y, avail bs0 y → y + 1 < KERN_BASE).

Lemma page_frame : ∃ q, held O u pg bs (test_area m v p) q ∧ q + PAGE_SIZE < KERN_BASE.
Proof.
  destruct (mi_held _ _ _ _ _ _ _ (ts_inv _ _ _ _ _ _ _ _ _ Ht) (test_area m v p)) as [q Hq]; [left|]. exists q. split; [done|].
  assert (avail bs0 (q + PAGE_SIZE - 1)) as Hav%Hlow; [|lia]. apply (ts_memory _ _ _ _ _ _ _ _ _ Ht). right. apply space_byte_at. right.
  exists (test_area m v p). split; [left|]. exists q, 1. split; [apply Hq|]. unfold frame, PAGE_SIZE. lia.
Qed.

Context (q : Z) (Hq : held O u pg bs (test_area m v p) q) (Hqe : q + PAGE_SIZE < KERN_BASE).

Lemma page_bounds_ok : 0 ≤ q ∧ q mod PAGE_SIZE = 0 ∧ q + PAGE_SIZE ≤ KERN_BASE.
Proof. apply Hq. Qed.
Lemma page_pte va : page_in test_addr 1 va → pte_of (bytes (mw u)) pg va = Z.lor q (pgtable_perm RW).
Proof. apply (bk_pte _ _ _ _ _ _ (hd_back _ _ _ _ _ _ Hq)). Qed.
Lemma page_tables a : in_page (q + KERN_BASE) a → ¬ table_byte (bytes (mw u)) pg a.
Proof. eapply held_content; [exact Hq|]. apply (mi_pt _ _ _ _ _ _ _ (ts_inv _ _ _ _ _ _ _ _ _ Ht)). Qed.
Lemma page_owns a : (∀ x, x ∈ [test_area m v p] → ¬ owns u x (a - KERN_BASE)) ↔ ¬ in_page (q + KERN_BASE) a.
Proof.
  pose proof (bk_pages _ _ _ _ _ _ (hd_back _ _ _ _ _ _ Hq)) as E. split.
  - intros Hn Ha. apply (Hn (test_area m v p)); [left|]. exists q, 1. split; [done|]. unfold frame, in_page, PAGE_SIZE in *. lia.
  - intros Hn x ->%list_elem_of_singleton (q' & n' & E' & Hf). rewrite E in E'. injection E' as <- <-. apply Hn. unfold frame, in_page, PAGE_SIZE in *. lia.
Qed.

(** The address space after its page has been written. *)
Lemma page_written b c' : (∀ a, ¬ in_page (q + KERN_BASE) a → b a = bytes (mw u) a) →
  tested O r (with_bytes b c' u) m pg [test_area m v p] bs bs0 (k, cur, c', cpu) ∧ held O (with_bytes b c' u) pg bs (test_area m v p) q.
Proof.
  intros Hb. assert (tested O r (with_bytes b c' u) m pg [test_area m v p] bs bs0 (k, cur, c', cpu)) as Ht'
    by (eapply tested_bytes; [exact Ht|]; intros a Ha; by apply Hb, page_owns).
  split; [done|]. destruct (mi_held _ _ _ _ _ _ _ (ts_inv _ _ _ _ _ _ _ _ _ Ht') (test_area m v p)) as [q' Hq']; [left|].
  pose proof (bk_pages _ _ _ _ _ _ (hd_back _ _ _ _ _ _ Hq')) as E. rewrite (bk_pages _ _ _ _ _ _ (hd_back _ _ _ _ _ _ Hq) : upgs (with_bytes b c' u) !! _ = _) in E.
  by injection E as <-.
Qed.

Lemma page_user j : 0 ≤ j < PAGE_SIZE → user_addr (bytes (mw u)) pg (test_addr + j) = q + KERN_BASE + j ∧ frame_of (bytes (mw u)) pg (test_addr + j) = q.
Proof.
  intros Hj. pose proof page_bounds_ok as (Q1 & Q2 & Q3). unfold user_addr, frame_of. rewrite page_pte by (unfold page_in; lia).
  rewrite PTE_PADDR_lor by (done || (unfold fits, KERN_BASE, PAGE_SIZE in *; lia) || by vm_compute).
  rewrite pa2kva_eq by (unfold KERN_BASE, PAGE_SIZE in *; Z.to_euclidean_division_equations; lia). split; [|done].
  unfold test_addr, PAGE_SIZE in *. Z.to_euclidean_division_equations. lia.
Qed.

(** [fill_uvm] *)
Lemma test_fill (ch : Z) : cur ≠ Some m → Forall (λ x, x.1 ≠ NULL) [test_area m v p] →
  wp (fill_uvm m test_addr ch (1 * PAGE_SIZE) u) (λ '(rc, u'), rc = 0 ∧ ∃ b, u' = with_bytes b c u ∧
    (∀ a, ¬ in_page (q + KERN_BASE) a → b a = bytes (mw u) a) ∧ ∀ j, 0 ≤ j < PAGE_SIZE → b (q + KERN_BASE + j) = w8 ch).
Proof.
  intros Hcur Hnn. change (1 * PAGE_SIZE) with PAGE_SIZE. destruct (mi_mm _ _ _ _ _ _ _ (ts_inv _ _ _ _ _ _ _ _ _ Ht)) as [cc Hmm].
  assert (∀ j, 0 ≤ j < PAGE_SIZE → t_dst u pg test_addr NULL true true j = q + KERN_BASE + j) as Hd by (intros j Hj; apply (proj1 (page_user j Hj))).
  assert (∀ j a, 0 ≤ j < PAGE_SIZE → table_byte (bytes (mw u)) pg a → a ≠ q + KERN_BASE + j) as Hta.
  { intros j a Hj Ha ->. apply (page_tables (q + KERN_BASE + j)); [unfold in_page, PAGE_SIZE in *; lia|done]. }
  assert (∀ j, 0 ≤ j < PAGE_SIZE → ent (bytes (mw u)) pg (PDX (test_addr + j)) ≠ 0) as Hne.
  { intros j Hj E. assert (pte_of (bytes (mw u)) pg (test_addr + j) = Z.lor q (pgtable_perm RW)) as Ep by (apply page_pte; unfold page_in; lia).
    unfold pte_of in Ep. rewrite E in Ep. by apply (perm_nonzero q RW). }
  assert (transfer_ok u pg test_addr NULL PAGE_SIZE true true) as Hok.
  { split; try done.
    - intros j Hj. rewrite page_pte by (unfold page_in; lia). by apply perm_bit.
    - intros j Hj. by rewrite (proj2 (page_user j Hj)).
    - intros i j Hi Hj. rewrite !Hd by done. lia.
    - intros i j y Hi Hj Hy. rewrite Hd by done. apply Hta; [done|]. left. pose proof (PDX_bounds (test_addr + i)). unfold in_page. lia.
    - intros i j y Hi Hj Hy. rewrite Hd by done. apply Hta; [done|]. right. exists (PDX (test_addr + i)). pose proof (PDX_bounds (test_addr + i)).
      pose proof (PTX_bounds (test_addr + i)). unfold in_page. split_and!; [lia|lia|by apply Hne|lia|lia]. }
  unfold fill_uvm. eapply wp_mono.
  { apply (copy_fill_ok u m (Mm cc pg) v test_addr NULL ch PAGE_SIZE true true Hmm (to_range _ _ _ _ _ _ _ Hok)); [| |exact Hok|].
    - unfold range_vma. change (test_addr / PAGE_SIZE) with 1. change ((test_addr + PAGE_SIZE - 1) / PAGE_SIZE) with 1. change (PAGE_SIZE * (1 - 1 + 1)) with (PAGE_SIZE * 1).
      rewrite (find_continuous_ok u m [] [test_area m v p] [] _ _ (mi_list _ _ _ _ _ _ _ (ts_inv _ _ _ _ _ _ _ _ _ Ht))); try done.
      intros [|i] x [= <-]. done.
    - by inversion Hnn.
    - pose proof (ts_hw _ _ _ _ _ _ _ _ _ Ht) as Eh. unfold hw in Eh. injection Eh as _ -> _ _. done. }
  intros [rc u'] (-> & b & -> & Hw1 & Hw2). split; [done|]. exists b. split_and!.
  - unfold with_bytes, set_mmu. cbn. pose proof (ts_hw _ _ _ _ _ _ _ _ _ Ht) as Eh. unfold hw in Eh. injection Eh as _ _ <- _. done.
  - intros a Ha. apply Hw2. intros j Hj. rewrite Hd by done. intros ->. apply Ha. unfold in_page, PAGE_SIZE in *. lia.
  - intros j Hj. rewrite <-Hd by done. by apply Hw1.
Qed.

(** *** The loops *)
Definition page_words (b : mem) (val : Z) : Prop := ∀ i, 0 ≤ i < 1024 → ld32 b (q + KERN_BASE + 4 * i) = val.

Lemma page_filled b ch : (∀ j, 0 ≤ j < PAGE_SIZE → b (q + KERN_BASE + j) = ch) → page_words b (ch + 2 ^ 8 * ch + 2 ^ 16 * ch + 2 ^ 24 * ch).
Proof.
  intros Hb i Hi. unfold ld32. replace (q + KERN_BASE + 4 * i + 1) with (q + KERN_BASE + (4 * i + 1)) by lia.
  replace (q + KERN_BASE + 4 * i + 2) with (q + KERN_BASE + (4 * i + 2)) by lia. replace (q + KERN_BASE + 4 * i + 3) with (q + KERN_BASE + (4 * i + 3)) by lia.
  rewrite !Hb by (unfold PAGE_SIZE; lia). done.
Qed.

Lemma word_ok i : 0 ≤ i < 1024 → fits 32 (test_addr + 4 * i) ∧ bad_address (test_addr + 4 * i) = false ∧ page_in test_addr 1 (test_addr + 4 * i) ∧
  (test_addr + 4 * i) mod PAGE_SIZE = 4 * i.
Proof.
  intros Hi. unfold fits, page_in, test_addr, bad_address, PAGE_SIZE. split_and!; [lia|lia| |lia|lia|Z.to_euclidean_division_equations; lia].
  rewrite (proj2 (Z.eqb_eq _ _)), (proj2 (Z.ltb_lt _ _)) by (Z.to_euclidean_division_equations; lia). done.
Qed.

(** A word of the page, in a memory with the same tables. *)
Lemma word_access (b : mem) store i : (∀ va, pte_of b pg va = pte_of (bytes (mw u)) pg va) → 0 ≤ i < 1024 →
  walk_access b pg store (test_addr + 4 * i) = inl (q + 4 * i) ∧ pa2kva (q + 4 * i) = q + KERN_BASE + 4 * i.
Proof.
  intros Hp Hi. pose proof page_bounds_ok as (Q1 & Q2 & Q3). destruct (word_ok i Hi) as (_ & _ & Hin & Em). split.
  - rewrite (walk_page b pg _ q) by (done || by rewrite Hp, page_pte). by rewrite Em.
  - rewrite pa2kva_eq by (unfold KERN_BASE, PAGE_SIZE in *; lia). lia.
Qed.

Context (Hcpu : 0 ≤ cpu < Z.of_nat n).

Lemma test_expect val : page_words (bytes (mw u)) val → running cpu pg n bs (bytes (mw u)) c →
  wp (expect random val u) (λ u', ∃ c', u' = set_mmu c' u ∧ running cpu pg n bs (bytes (mw u)) c').
Proof.
  intros Hv Hr. pose proof (ts_hw _ _ _ _ _ _ _ _ _ Ht) as Eh. unfold hw in Eh. injection Eh as _ _ Ec Ecpu.
  apply (each_word_ok _ (λ _ u', ∃ c', u' = set_mmu c' u ∧ running cpu pg n bs (bytes (mw u)) c')).
  - exists c. split; [|done]. rewrite <-Ec. by destruct u.
  - intros i u1 Hi (c1 & -> & Hr1). unfold access. cbn [set_mmu this_cpu mw mmu]. rewrite Ecpu. destruct (word_ok i Hi) as (W1 & W2 & _ & _).
    apply wp_bind, wp_bind. eapply wp_mono; [by apply (user_word_ok random Hrandom cpu pg n bs Hcpu (Lw (test_addr + 4 * i)))|].
    intros [[x b] c2] [E Hr2]. cbn [walk_word] in E. rewrite W2 in E. destruct (word_access (bytes (mw u)) false i) as [Ew Ek]; [done|done|].
    rewrite Ew, Ek, Hv in E by done. injection E as -> ->. apply wp_ok. rewrite Z.eqb_refl. cbn [assert_ mbind res_bind]. apply wp_ok.
    exists c2. split; [|done]. exact (with_bytes_id c2 u).
Qed.

Lemma test_overwrite val : fits 32 val → running cpu pg n bs (bytes (mw u)) c →
  wp (overwrite random val u) (λ u', ∃ b c', u' = with_bytes b c' u ∧ running cpu pg n bs b c' ∧
    (∀ a, ¬ in_page (q + KERN_BASE) a → b a = bytes (mw u) a) ∧ page_words b val).
Proof.
  intros Hval Hr. pose proof (ts_hw _ _ _ _ _ _ _ _ _ Ht) as Eh. unfold hw in Eh. injection Eh as _ _ Ec Ecpu.
  eapply wp_mono; [apply (each_word_ok _ (λ i u', ∃ b c', u' = with_bytes b c' u ∧ running cpu pg n bs b c' ∧
    (∀ a, ¬ in_page (q + KERN_BASE) a → b a = bytes (mw u) a) ∧ ∀ j, 0 ≤ j < i → ld32 b (q + KERN_BASE + 4 * j) = val))|done].
  - exists (bytes (mw u)), c. split_and!; [|done|done|lia]. rewrite with_bytes_id, <-Ec. by destruct u.
  - intros i u1 Hi (b & c1 & -> & Hr1 & Hb & Hv). unfold access. cbn [with_bytes set_mmu set_mw this_cpu mw mmu upd_bytes bytes]. rewrite Ecpu.
    destruct (word_ok i Hi) as (W1 & W2 & _ & _).
    apply wp_bind, wp_bind. eapply wp_mono; [by apply (user_word_ok random Hrandom cpu pg n bs Hcpu (Sw (test_addr + 4 * i) val))|].
    intros [[x b2] c2] [E Hr2]. cbn [walk_word] in E. rewrite W2 in E. destruct (word_access b true i) as [Ew Ek]; [|done|].
    { intros va. apply kept_pte. intros a Ha. apply Hb. intros Hp. by apply (page_tables a). }
    rewrite Ew, Ek in E. injection E as -> ->. apply wp_ok. cbn [mbind res_bind]. apply wp_ok.
    exists (st32 (q + KERN_BASE + 4 * i) val b), c2. split_and!; [done|done| |].
    + intros a Ha. rewrite <-Hb by done. unfold st32. unfold in_page in Ha. zcases; cbn [andb]; try done; lia.
    + intros j Hj. destruct (decide (j = i)) as [->|Hne]; [by apply ld32_st32_eq|]. rewrite ld32_st32_ne by lia. apply Hv. lia.
Qed.
End page.

(** Destroying an address space leaves those that are separate from it alone. *)
Lemma destroy_separate O r1 r2 u m1 pg1 l1 m2 pg2 l2 bs O' r u' bs' : mm_inv (H := H) O r1 u m1 pg1 l1 bs → mm_inv (H := H) O r2 u m2 pg2 l2 bs →
  separate u m1 pg1 l1 m2 pg2 l2 → ready (H := H) O' r u' bs' → emptied u m2 pg2 l2 bs u' bs' → elsewhere O u m2 l2 O' u' →
  mm_inv (H := H) O' r u' m1 pg1 l1 bs' ∧ ∀ a, space_byte u' pg1 l1 a ↔ space_byte u pg1 l1 a.
Proof.
  intros H1 H2 [S1 S2 S3] [R1 R2 R3 R4] He [E1 E2 E3 E4].
  assert (∀ x, x ∈ l1 → x.1 ∉ l2.*1 ∧ v_pages x.2 ∉ v_pages ∘ snd <$> l2) as Hx.
  { intros x Hx. split; intros (y & Ey & Hy)%list_elem_of_fmap; cbn in Ey.
    - apply (S2 (x.1, SIZEOF_VMA)); right; [exists x; auto|exists y]. rewrite Ey. auto.
    - apply (S2 (v_pages x.2, SIZEOF_UPAGES)); right; [exists x; auto|exists y]. rewrite Ey. auto. }
  assert (∀ x, x ∈ l1 → upgs u' !! v_pages x.2 = upgs u !! v_pages x.2) as Hu by (intros x Hx1; by apply (em_upgs _ _ _ _ _ _ _ He), Hx).
  assert (∀ a, space_byte u pg1 l1 a → ¬ table_byte (bytes (mw u)) pg2 a ∧ ∀ x, x ∈ l2 → ¬ owns u x (a - KERN_BASE)) as Hno.
  { intros a Ha. split; [intros Hb; apply (S1 a Ha); by left|]. intros x Hx2 Ho. apply (S1 a Ha). right. by exists x. }
  assert (∀ a, table_byte (bytes (mw u)) pg1 a → bytes (mw u') a = bytes (mw u) a) as Hb.
  { intros a Ha. destruct (Hno a) as [N1 N2]; [by left|]. by apply (em_bytes _ _ _ _ _ _ _ He). }
  split.
  - eapply mm_inv_keep; [exact H1|done|done|done|done| | |done| | | |done|].
    + intros o Ho. apply E1; [eapply space_owned; [exact H1|exact Ho]|intros ->; apply (S2 _ Ho); by left|]. intros y Hy. split; intros ->; apply (S2 _ Ho); right; exists y; auto.
    + rewrite (em_mms _ _ _ _ _ _ _ He), lookup_delete_ne; [done|]. intros ->. apply (S3 m1); left.
    + destruct (decide (m1 - NODE ∈ l2.*1)) as [(y & Ey & Hy)%list_elem_of_fmap|Hn]; [|rewrite E2 by done; apply (mi_list _ _ _ _ _ _ _ H1)].
      pose proof (proj1 (Forall_forall _ _) (vl_store _ _ _ (mi_list _ _ _ _ _ _ _ H2)) y Hy) as Ev. cbn in Ev. rewrite <-Ey, (vl_head _ _ _ (mi_list _ _ _ _ _ _ _ H1)) in Ev. done.
    + intros x Hx1. split; [by apply E2, Hx|by apply Hu].
    + intros y Hy. by apply E3, S3.
    + intros a Ha Hav. apply (em_avail _ _ _ _ _ _ _ He) in Hav.
      replace (a - KERN_BASE + KERN_BASE) with a in Hav by lia. destruct (Hno a Ha) as [N1 N2].
      destruct Hav as [Hav|[(x & Hx2 & Ho)|Hav]]; [revert Hav; eapply space_busy; [exact H1|exact Ha]|by apply (N2 x)|done].
  - intros a. unfold space_byte. by rewrite (kept_table_byte (bytes (mw u)) (bytes (mw u')) pg1 Hb), (owns_kept u u' l1).
Qed.

Lemma test_switch n O r u m pg l bs bs0 k cur c cpu : tested O r u m pg l bs bs0 (k, cur, c, cpu) → mmu_ok n c → 0 ≤ cpu < Z.of_nat n →
  wp (switch_to m u) (λ u', ∃ c', u' = set_mmu c' u ∧ running cpu pg n bs (bytes (mw u)) c').
Proof.
  intros Ht Hok Hcpu. pose proof (ts_hw _ _ _ _ _ _ _ _ _ Ht) as Eh. unfold hw in Eh. injection Eh as _ _ Ec Ecpu. pose proof (ts_inv _ _ _ _ _ _ _ _ _ Ht) as Hi.
  unfold switch_to. destruct (test_get _ _ _ _ _ _ _ _ _ Ht) as [cc ->]. cbn [mbind res_bind pgindex]. rewrite Ec, Ecpu. apply wp_bind.
  eapply wp_mono; [by apply (switch_pgindex_ok n)|]. intros [rc c'] (_ & Hok' & Hidx & h & Hh & Hfl). apply wp_ok. exists c'. split; [done|].
  split; [by eapply mm_inv_entries|apply (mi_pt _ _ _ _ _ _ _ Hi)|by eapply mm_inv_private|done|done|].
  intros h' Hh'. rewrite Hh in Hh'. injection Hh' as <-. by apply flushed_coherent.
Qed.

Lemma tested_mmu O r u m pg l bs bs0 k cur c cpu c' : tested O r u m pg l bs bs0 (k, cur, c, cpu) → tested O r (set_mmu c' u) m pg l bs bs0 (k, cur, c', cpu).
Proof. intros Ht. rewrite <-with_bytes_id. by eapply tested_bytes. Qed.

(** *** The copy *)
Lemma wp_both {A} (x : res A) (P Q : A → Prop) : wp x P → wp x Q → wp x (λ a, P a ∧ Q a).
Proof. by destruct x. Qed.

Lemma mm_inv_ready O r u m pg l bs : mm_inv (H := H) O r u m pg l bs → ready (H := H) O r u bs.
Proof. intros [_ (HJ & Hpm & _) Hown _ _ _ _ _ _ _ _ Hk]. by split. Qed.

(** The page of the copy, byte for byte. *)
Lemma copied_page O O' u u' m d pg pg' v p v' p' bs bs' q q' j : held O u pg bs (test_area m v p) q → held O' u' pg' bs' (test_area d v' p') q' →
  (∀ va, fits 32 va → pte_of (bytes (mw u')) pg va = pte_of (bytes (mw u)) pg va ∧
    (pte_of (bytes (mw u)) pg va ≠ 0 → twins u u' pg pg' va)) →
  0 ≤ j < PAGE_SIZE → bytes (mw u') (q' + KERN_BASE + j) = bytes (mw u) (q + KERN_BASE + j).
Proof.
  intros Hq Hq' Hp Hj. pose proof (hd_back _ _ _ _ _ _ Hq) as [_ P1 (Q1 & Q2 & Q3)]. pose proof (hd_back _ _ _ _ _ _ Hq') as [_ P2 (R1 & R2 & R3)].
  assert (page_in test_addr 1 (test_addr + j) ∧ fits 32 (test_addr + j) ∧ (test_addr + j) mod 4096 = j) as (Hin & Hf & Em)
    by (unfold page_in, fits, test_addr, PAGE_SIZE in *; split_and!; [lia|lia|lia|lia|Z.to_euclidean_division_equations; lia]).
  specialize (P1 _ Hin). specialize (P2 _ Hin). cbn in P1, P2. destruct (Hp _ Hf) as [Ep Htw]. rewrite P1 in Ep, Htw.
  destruct Htw as (qa & qb & fl & _ & _ & _ & T1 & T2 & _ & T3); [apply perm_nonzero|]. unfold PAGE_SIZE in T1, T2, T3.
  rewrite (uva2kva_entry pg _ (mw u') q RW Ep) in T1 by done. rewrite (uva2kva_entry pg' _ (mw u') q' RW P2) in T2 by done.
  rewrite Em in T1, T2, T3. injection T1 as T1. injection T2 as T2. rewrite <-T1, <-T2, !pa2kva_eq in T3 by (unfold PAGE_SIZE, KERN_BASE in *; lia).
  rewrite <-!(Z.add_comm j), !Z.add_assoc in *. done.
Qed.

Lemma ld32_copy (b b' : mem) a a' : (∀ e, 0 ≤ e < 4 → b' (a' + e) = b (a + e)) → ld32 b' a' = ld32 b a.
Proof. intros Hb. unfold ld32. rewrite !Hb by lia. rewrite <-(Z.add_0_r a') at 1. by rewrite Hb, Z.add_0_r by lia. Qed.

(** The two address spaces after the copy. *)
Record copied O (r : nat) u u' (m pg v p d pg' v' p' : Z) bs bs' h : Prop := Copied {
  co_copy : tested O r u' d pg' [test_area d v' p'] bs' bs h;
  co_source : mm_inv (H := H) O r u' m pg [test_area m v p] bs';
  co_apart : separate u' m pg [test_area m v p] d pg' [test_area d v' p'];
  co_memory a : space_byte u' pg [test_area m v p] a ↔ space_byte u pg [test_area m v p] a;
  co_bytes q q' j : upgs u !! p = Some (UPages (Pages q PAGE_SIZE 0) 1) → held O u' pg' bs' (test_area d v' p') q' → 0 ≤ j < PAGE_SIZE →
    bytes (mw u') (q' + KERN_BASE + j) = bytes (mw u) (q + KERN_BASE + j) }.

Lemma test_clone O r u m pg v p bs bs0 h : tested O (S (2 + r)) u m pg [test_area m v p] bs bs0 h → (∀ y, avail bs0 y → y + 1 < KERN_BASE) → 3 * PAGE_SIZE ≤ total bs →
  wp (mm_new u) (λ '(d, u1), (∃ mm, get_mm u1 d = Ok mm) ∧ wp (mm_clone d m u1) (λ '(_, u2), ∃ O' pg' v' p' bs', copied O' r u u2 m pg v p d pg' v' p' bs bs' h)).
Proof.
  intros Ht Hlow Htot. pose proof Ht as [Hi Ha Hw Hm Hh]. destruct h as [[[k cur] c] cpu].
  assert (∀ y, avail bs y → y + 1 < KERN_BASE) as Hlow' by (intros y Hy; apply Hlow, (Ha y); by left).
  eapply wp_mono; [eapply wp_both; [|eapply wp_wlp; [apply (clone_space_ok O r u m pg [test_area m v p] bs Hi)|apply hw_mm_new]]|].
  - apply (test_new O (2 + r) u bs (k, cur, c, cpu)); [by eapply mm_inv_ready|done|unfold PAGE_SIZE in *; lia].
  - cbn [length]. unfold PAGE_SIZE in *. lia.
  - done.
  - intros x q ->%list_elem_of_singleton Hq. destruct (page_frame O _ u m pg v p bs bs0 k cur c cpu Ht Hlow) as (q' & Hq' & He).
    pose proof (bk_pages _ _ _ _ _ _ (hd_back _ _ _ _ _ _ Hq)) as E. rewrite (bk_pages _ _ _ _ _ _ (hd_back _ _ _ _ _ _ Hq')) in E. by injection E as <-.
  - intros [d u1] ((O1 & pg1 & bs1 & T1 & _) & (Hd & Hcl) & Eh1). cbn [snd] in Eh1. split.
    { destruct (test_get _ _ _ _ _ _ _ _ _ T1) as [cc Hcc]. by exists (Mm cc pg1). }
    eapply wp_mono; [eapply wp_wlp; [exact Hcl|apply hw_mm_clone]|]. intros [rc u2] [(-> & O' & pg' & items & bs' & Hlen & Hs & Hc & Hp & Hsep & Hcon & Hsame) Eh2].
    cbn [snd] in Eh2. destruct items as [|[[v' p'] q0] [|]]; try done. change (clones d [test_area m v p] [(v', p', q0)]) with [test_area d v' p'] in *.
    pose proof Hi as [_ (_ & (_ & (lb & _ & _ & Hwf & _) & _) & _) _ _ _ _ _ _ _ _ _ _].
    exists O', pg', v', p', bs'. split; [|done|done|done|].
    + split; [done|done|done|done|congruence].
    + intros q q' j Hq Hq' Hj. destruct (mi_held _ _ _ _ _ _ _ Hi (test_area m v p)) as [qq Hqq]; [left|].
      pose proof (bk_pages _ _ _ _ _ _ (hd_back _ _ _ _ _ _ Hqq)) as E. cbn in E. rewrite Hq in E. injection E as <-.
      eapply copied_page; [exact Hqq|exact Hq'| |done]. intros va Hva. destruct (Hp va Hva) as (_ & E1 & E2). done.
Qed.

(** When the copy is destroyed the source has what it had. *)
Lemma test_drop O r u0 u m pg v p d pg' v' p' bs bs' bs0 k cur c cpu c' : tested O r u0 m pg [test_area m v p] bs bs0 (k, cur, c, cpu) →
  ∀ O' r', copied O' (3 + r') u0 u m pg v p d pg' v' p' bs bs' (k, cur, c, cpu) →
  wp (mm_destroy d (set_mmu c' u)) (λ u', ∃ O'', tested O'' r' u' m pg [test_area m v p] bs bs0 (k, cur, c', cpu)).
Proof.
  intros [Hi Ha Hw Hm Hh] O' r' [Ht Hs [S1 S2 S3] Hmem _]. apply (tested_mmu _ _ _ _ _ _ _ _ _ _ _ _ c') in Ht.
  pose proof Ht as [Hi' Ha' Hw' Hm' Hh'].
  assert (mm_inv (H := H) O' (3 + r') (set_mmu c' u) m pg [test_area m v p] bs') as Hs' by (rewrite <-with_bytes_id; by apply inv_bytes).
  assert (separate (set_mmu c' u) m pg [test_area m v p] d pg' [test_area d v' p']) as Hsep by by split.
  eapply wp_mono; [eapply wp_wlp; [apply (mm_destroy_result O' r' _ d pg' [test_area d v' p'] bs' Hi'); unfold NULL, KERN_BASE in *; lia|apply hw_mm_destroy]|].
  intros u' [(O'' & bs'' & Hr & He & Hel) Eh]. exists O''. pose proof (accounted_emptied _ _ _ _ _ _ _ _ _ _ He Ha' Hr Hw') as ->.
  destruct (destroy_separate _ _ _ _ _ _ _ _ _ _ _ _ _ _ _ Hs' Hi' Hsep Hr He Hel) as [Hi'' Hm'']. split; [done| |done|done|by rewrite Eh].
  intros y. rewrite (Ha y), (Hm'' (y + KERN_BASE)). by rewrite <-(Hmem (y + KERN_BASE)).
Qed.

Section run.
Context (random : cp0 → Z) (Hrandom : ∀ c, 0 ≤ random c < get_tlb_entries c) (n : nat) (cpu : Z) (Hcpu : 0 ≤ cpu < Z.of_nat n).
Context (k : Z) (cur : option Z) (bs0 : blocks) (Hlow : ∀ y, avail bs0 y → y + 1 < KERN_BASE).

(** From the page with its last content to the end. *)
Lemma test_copy_back O r u m pg v p bs c q val : tested O (9 + r) u m pg [test_area m v p] bs bs0 (k, cur, c, cpu) → 3 * PAGE_SIZE ≤ total bs → mmu_ok n c →
  held O u pg bs (test_area m v p) q → page_words q (bytes (mw u)) val →
  wp ('(new_mm, u) ← mm_new u; _ ← get_mm u new_mm; '(_, u) ← mm_clone new_mm m u; u ← switch_to new_mm u; u ← expect random val u;
      u ← mm_destroy new_mm u; mm_destroy m u) (λ u', ∃ O' c', ready (H := H) O' r u' bs0 ∧ hw u' = (k, cur, c', cpu) ∧ mmu_ok n c').
Proof.
  intros Ht Htot Hok Hq Hv. apply wp_bind. eapply wp_mono; [by apply (test_clone O (6 + r) u m pg v p bs bs0 (k, cur, c, cpu))|].
  intros [d u1] ((mm & ->) & Hcl). cbn [mbind res_bind]. apply wp_bind. eapply wp_mono; [exact Hcl|]. intros [rc u2] (O2 & pg2 & v2 & p2 & bs2 & Hc).
  pose proof (co_copy _ _ _ _ _ _ _ _ _ _ _ _ _ _ _ Hc) as H2.
  assert (∀ y, avail bs y → y + 1 < KERN_BASE) as Hlow' by (intros y Hy; apply Hlow, (ts_memory _ _ _ _ _ _ _ _ _ Ht y); by left).
  destruct (page_frame _ _ _ _ _ _ _ _ _ _ _ _ _ H2 Hlow') as (q2 & Hq2 & Hqe2).
  apply wp_bind. eapply wp_mono; [by apply (test_switch n O2 (6 + r) u2 d pg2 [test_area d v2 p2] bs2 bs k cur c cpu)|]. intros u3 (c3 & -> & Hr3).
  pose proof (tested_mmu _ _ _ _ _ _ _ _ _ _ _ _ c3 H2) as H3.
  assert (held O2 (set_mmu c3 u2) pg2 bs2 (test_area d v2 p2) q2) as Hq3 by (rewrite <-with_bytes_id; by eapply page_written).
  apply wp_bind. eapply wp_mono; [apply (test_expect random Hrandom n O2 (6 + r) _ d pg2 v2 p2 bs2 bs k cur c3 cpu H3 q2 Hq3 Hqe2 Hcpu val); [|done]|].
  - intros i Hi. rewrite <-(Hv i Hi). apply ld32_copy. intros e He. rewrite <-!Z.add_assoc. rewrite !(Z.add_assoc _ KERN_BASE).
    apply (co_bytes _ _ _ _ _ _ _ _ _ _ _ _ _ _ _ Hc q q2); [apply Hq|done|unfold PAGE_SIZE; lia].
  - intros u4 (c4 & -> & Hr4). apply wp_bind. eapply wp_mono; [eapply (test_drop O (9 + r) u u2 m pg v p d pg2 v2 p2 bs bs2 bs0 k cur c cpu c4 Ht O2 (3 + r) Hc)|].
    intros u5 [O5 H5]. eapply wp_mono; [by apply (test_end O5 r u5 m pg [test_area m v p] bs)|]. intros u6 (O6 & Hr6 & Eh6). exists O6, c4. split_and!; [done|done|apply Hr4].
Qed.

Lemma mm_test_copy_ok O r u c : ready (H := H) O (12 + r) u bs0 → hw u = (k, cur, c, cpu) → (cur = None ∨ cur = Some k) → 6 * PAGE_SIZE ≤ total bs0 → mmu_ok n c →
  wp (mm_test_copy random u) (λ u', ∃ O' c', ready (H := H) O' r u' bs0 ∧ hw u' = (k, cur, c', cpu) ∧ mmu_ok n c').
Proof.
  intros Hr Hh Hcur Htot Hok. unfold mm_test_copy. apply wp_bind. eapply wp_mono; [apply (test_new O (11 + r) u bs0 _ Hr Hh); unfold PAGE_SIZE in *; lia|].
  intros [m u1] (O1 & pg & bs1 & H1 & Ht1). destruct (test_get _ _ _ _ _ _ _ _ _ H1) as [cc ->]. cbn [mbind res_bind].
  assert (cur ≠ Some m) as Hnot.
  { destruct (mi_self _ _ _ _ _ _ _ (ts_inv _ _ _ _ _ _ _ _ _ H1)) as [_ Hk]. pose proof (ts_hw _ _ _ _ _ _ _ _ _ H1) as Eh. unfold hw in Eh.
    injection Eh as Ek _ _ _. rewrite Ek in Hk. destruct Hcur as [->| ->]; [done|]. by intros [= E]. }
  apply wp_bind. change (1 * PAGE_SIZE) with (PAGE_SIZE * Z.of_nat 1) at 1.
  eapply wp_mono; [apply (test_create O1 (9 + r) 1 u1 m pg bs1 bs0 _ test_addr RW H1); (done || (unfold PAGE_SIZE in *; lia))|].
  intros [rc u2] (-> & O2 & items & bs2 & Hlen & Hnn & H2 & Ht2). cbn [assert_ Z.eqb mbind res_bind]. destruct items as [|[[v p] q0] [|]]; try done.
  change (areas m test_addr RW [(v, p, q0)]) with [test_area m v p] in *. destruct (page_frame _ _ _ _ _ _ _ _ _ _ _ _ _ H2 Hlow) as (q & Hq & Hqe).
  apply wp_bind. eapply wp_mono; [by apply (test_fill O2 (9 + r) u2 m pg v p bs2 bs0 k cur c cpu H2 q Hq Hqe 0x40)|].
  intros [rc u3] (-> & b & -> & Hb & Hch). cbn [assert_ Z.eqb mbind res_bind]. destruct (page_written _ _ _ _ _ _ _ _ _ _ _ _ _ H2 q Hq b c Hb) as [H3 Hq3].
  apply wp_bind. eapply wp_mono; [by apply (test_switch n _ _ _ _ _ _ _ _ _ _ _ _ H3)|]. intros u4 (c4 & -> & Hr4).
  pose proof (tested_mmu _ _ _ _ _ _ _ _ _ _ _ _ c4 H3) as H4. set (u4 := set_mmu c4 (with_bytes b c u2)) in *.
  assert (held O2 u4 pg bs2 (test_area m v p) q) as Hq4 by (unfold u4; rewrite <-with_bytes_id; by eapply page_written).
  apply wp_bind. eapply wp_mono; [apply (test_expect random Hrandom n O2 (9 + r) u4 m pg v p bs2 bs0 k cur c4 cpu H4 q Hq4 Hqe Hcpu); [|done]|].
  { exact (page_filled q b 0x40 Hch). }
  intros u5 (c5 & -> & Hr5). pose proof (tested_mmu _ _ _ _ _ _ _ _ _ _ _ _ c5 H4) as H5. set (u5 := set_mmu c5 u4) in *.
  assert (held O2 u5 pg bs2 (test_area m v p) q) as Hq5 by (unfold u5; rewrite <-with_bytes_id; by eapply page_written).
  apply wp_bind. eapply wp_mono; [by apply (test_overwrite random Hrandom n O2 (9 + r) u5 m pg v p bs2 bs0 k cur c5 cpu H5 q Hq5 Hqe Hcpu 0xdeadbeef)|].
  intros u6 (b6 & c6 & -> & Hr6 & Hb6 & Hw6). destruct (page_written _ _ _ _ _ _ _ _ _ _ _ _ _ H5 q Hq5 b6 c6 Hb6) as [H6 Hq6].
  apply (test_copy_back O2 r (with_bytes b6 c6 u5) m pg v p bs2 c6 q); [done|unfold PAGE_SIZE in *; lia|apply Hr6|done|done].
Qed.
End run.

(** C14. The self test of the address spaces ([mm_test]) passes: with memory for eleven
    pages below the last one of the kernel segment, room for 36 objects and
    block structures, and no user process running, on any processor and whatever
    entries of the translation buffer are replaced, the test returns: no
    assertion fails, so that every word of the page reads as it was filled, the
    words written through one page index are those the copy reads through
    another, and every call of the virtual memory operations succeeds; and
    the list of free blocks, the kernel's address space and the current process
    are what they were, so that no page is lost and another round could follow. *)
Theorem mm_test_correct random n O r u bs : (∀ c, 0 ≤ random c < get_tlb_entries c) → ready (H := H) O (36 + r) u bs →
  mmu_ok n (mmu u) → 0 ≤ this_cpu u < Z.of_nat n → (current_mm u = None ∨ current_mm u = Some (kernel_mm u)) →
  11 * PAGE_SIZE ≤ total bs → (∀ y, avail bs y → y + 1 < KERN_BASE) →
  wp (mm_test random u) (λ u', ∃ O', ready (H := H) O' r u' bs ∧ mmu_ok n (mmu u') ∧
    kernel_mm u' = kernel_mm u ∧ current_mm u' = current_mm u ∧ this_cpu u' = this_cpu u).
Proof.
  intros Hrandom Hr Hok Hcpu Hcur Htot Hlow. unfold mm_test. apply wp_bind. eapply wp_mono; [by apply (mm_test_areas_ok O (14 + r) u bs (hw u) Hr)|].
  intros u1 (O1 & Hr1 & Eh1). apply wp_bind. eapply wp_mono.
  { by apply (mm_test_copy_ok random Hrandom n (this_cpu u) Hcpu (kernel_mm u) (current_mm u) bs Hlow O1 (2 + r) u1 (mmu u) Hr1 Eh1 Hcur); unfold PAGE_SIZE in *; [lia|]. }
  intros u2 (O2 & c2 & Hr2 & Eh2 & Hok2). eapply wp_mono; [apply (mm_test_again_ok O2 r u2 bs _ Hr2 Eh2); unfold PAGE_SIZE in *; lia|].
  intros u3 (O3 & Hr3 & Eh3). exists O3. unfold hw in Eh3. injection Eh3 as -> -> -> ->. by split_and!.
Qed.
End account.

(** ** Witness: the heap after the start of the kernel *)
Definition test_u : uvm := UvmState ∅ ∅ ∅ ∅ NULL None (CpuMmu [0] [demo_cp0]) 0 heap_w.

Lemma test_u_ready : ready (H := slab_H) [] 36 test_u heap_bs.
Proof. split; [by apply heap_w_ok; lia|apply heap_w_inv| |by left]. split; intros a Ha; cbn in Ha; by rewrite dom_empty_L in Ha. Qed.

Lemma mm_test_correct_witness :
  wp (mm_test (K := kmem demo_junk 1) demo_random test_u) (λ u', pm_inv (mw u') heap_bs ∧ kernel_mm u' = NULL).
Proof.
  eapply wp_mono.
  - apply (mm_test_correct (K := kmem demo_junk 1) (H := slab_H) demo_random 1 [] 0 test_u heap_bs).
    + intros c. unfold demo_random. pose proof (tlb_entries_bounds c). lia.
    + exact test_u_ready.
    + split; [done|done|by repeat constructor].
    + cbn. lia.
    + by left.
    + by vm_compute.
    + intros y [Ha|Ha]%avail_cons; [unfold KERN_BASE; lia|by apply avail_nil in Ha].
  - intros u' (O' & Hr & _ & Hk & _). split; [apply Hr|exact Hk].
Defined.
