(* ===== verification/Proc.v ===== *)
(** * Processes

    kern/proc/proc.c, kern/proc/namespace.c, kern/proc/proctree.c,
    kern/proc/initproc.c and kern/arch/mips/proc.c with include/aim/proc.h.
    [struct proc] objects, the static idle processes included, are in a typed
    store; the trap frame of a process is the 152 bytes at the top of its kernel
    stack, in the kernel memory.  The registers of each processor are a
    [struct context]; [switch_regs] (kern/arch/mips/switch.S) stores all of them
    in one context and loads them from another. *)
From S2P Require Import Prelude Util Bitops Bitmap DList MmState Libc Palloc Pmm Simple Vmm Init Cp0 Pgtable Sync Uvm.

Definition PS_EMBRYO : Z := 1.
Definition PS_RUNNABLE : Z := 2.
Definition PS_SLEEPING : Z := 3.
Definition PS_ZOMBIE : Z := 4.
Definition PS_ONPROC : Z := 5.
Definition CPU_NONE : Z := -1.
Definition SCHED_NODE : Z := 504.
Definition SIZEOF_PROC : Z := 512.
Definition PROC_NAME_LEN_MAX : nat := 256.

(** [struct context] and [struct trapframe] have the same fields. *)
Record context := Context {
  gpr : list Z; c_lo : Z; c_hi : Z; c_status : Z; c_cause : Z; c_epc : Z; c_badvaddr : Z }.
Definition zero_context : context := Context (replicate 32 0) 0 0 0 0 0 0.

(** The tree links of [struct proc]. *)
Record family := Family { parent : Z; first_child : Z; next_sibling : Z; prev_sibling : Z }.

Record proc := Proc {
  kstack : Z; kstack_size : Z; tid : Z; pid : Z; kpid : Z; state : Z;
  exit_code : Z; exit_signal : Z; p_flags : Z; oncpu : Z; bed : Z; namespace : Z; p_mm : Z;
  p_context : context; heapsize : Z; heapbase : Z; p_name : list Z;
  groupleader : Z; sessionleader : Z; tty : Z; mainthread : Z;
  fam : family; p_scheduler : Z }.

Definition set_state s (p : proc) := Proc (kstack p) (kstack_size p) (tid p) (pid p) (kpid p) s
  (exit_code p) (exit_signal p) (p_flags p) (oncpu p) (bed p) (namespace p) (p_mm p) (p_context p) (heapsize p)
  (heapbase p) (p_name p) (groupleader p) (sessionleader p) (tty p) (mainthread p) (fam p) (p_scheduler p).
Definition set_oncpu c (p : proc) := Proc (kstack p) (kstack_size p) (tid p) (pid p) (kpid p) (state p)
  (exit_code p) (exit_signal p) (p_flags p) c (bed p) (namespace p) (p_mm p) (p_context p) (heapsize p)
  (heapbase p) (p_name p) (groupleader p) (sessionleader p) (tty p) (mainthread p) (fam p) (p_scheduler p).
Definition set_bed b (p : proc) := Proc (kstack p) (kstack_size p) (tid p) (pid p) (kpid p) (state p)
  (exit_code p) (exit_signal p) (p_flags p) (oncpu p) b (namespace p) (p_mm p) (p_context p) (heapsize p)
  (heapbase p) (p_name p) (groupleader p) (sessionleader p) (tty p) (mainthread p) (fam p) (p_scheduler p).
Definition set_mm m (p : proc) := Proc (kstack p) (kstack_size p) (tid p) (pid p) (kpid p) (state p)
  (exit_code p) (exit_signal p) (p_flags p) (oncpu p) (bed p) (namespace p) m (p_context p) (heapsize p)
  (heapbase p) (p_name p) (groupleader p) (sessionleader p) (tty p) (mainthread p) (fam p) (p_scheduler p).
Definition set_context c (p : proc) := Proc (kstack p) (kstack_size p) (tid p) (pid p) (kpid p) (state p)
  (exit_code p) (exit_signal p) (p_flags p) (oncpu p) (bed p) (namespace p) (p_mm p) c (heapsize p)
  (heapbase p) (p_name p) (groupleader p) (sessionleader p) (tty p) (mainthread p) (fam p) (p_scheduler p).
Definition set_kpid k (p : proc) := Proc (kstack p) (kstack_size p) (tid p) (pid p) k (state p)
  (exit_code p) (exit_signal p) (p_flags p) (oncpu p) (bed p) (namespace p) (p_mm p) (p_context p) (heapsize p)
  (heapbase p) (p_name p) (groupleader p) (sessionleader p) (tty p) (mainthread p) (fam p) (p_scheduler p).
Definition set_leaders g s m (p : proc) := Proc (kstack p) (kstack_size p) (tid p) (pid p) (kpid p) (state p)
  (exit_code p) (exit_signal p) (p_flags p) (oncpu p) (bed p) (namespace p) (p_mm p) (p_context p) (heapsize p)
  (heapbase p) (p_name p) g s (tty p) m (fam p) (p_scheduler p).
Definition set_fam f (p : proc) := Proc (kstack p) (kstack_size p) (tid p) (pid p) (kpid p) (state p)
  (exit_code p) (exit_signal p) (p_flags p) (oncpu p) (bed p) (namespace p) (p_mm p) (p_context p) (heapsize p)
  (heapbase p) (p_name p) (groupleader p) (sessionleader p) (tty p) (mainthread p) f (p_scheduler p).

(** The static variables: the process store and its scheduler nodes, the free
    kernel process numbers, the scheduler's lock and saved flags and the sentry of
    its list, the per-processor [cpus[].proc], [idleproc[]] (addresses), registers
    and [kernelsp[]]. *)
Record kernel := Kernel {
  uv : uvm; procs : gmap Z proc; pl : links;
  freekpid : list Z; freekpid_lock : Z;
  sched_lock : Z; sched_intrflags : Z; sched_head : Z;
  currents : list Z; idleprocs : list Z; cpu_regs : list context; kernelsp : list Z }.

Definition cpuid (k : kernel) : Z := this_cpu (uv k).

Definition set_uv u (k : kernel) := Kernel u (procs k) (pl k) (freekpid k) (freekpid_lock k) (sched_lock k)
  (sched_intrflags k) (sched_head k) (currents k) (idleprocs k) (cpu_regs k) (kernelsp k).
Definition set_procs f (k : kernel) := Kernel (uv k) (f (procs k)) (pl k) (freekpid k) (freekpid_lock k) (sched_lock k)
  (sched_intrflags k) (sched_head k) (currents k) (idleprocs k) (cpu_regs k) (kernelsp k).
Definition set_pl f (k : kernel) := Kernel (uv k) (procs k) (f (pl k)) (freekpid k) (freekpid_lock k) (sched_lock k)
  (sched_intrflags k) (sched_head k) (currents k) (idleprocs k) (cpu_regs k) (kernelsp k).
Definition set_kpids l b (k : kernel) := Kernel (uv k) (procs k) (pl k) b l (sched_lock k)
  (sched_intrflags k) (sched_head k) (currents k) (idleprocs k) (cpu_regs k) (kernelsp k).
Definition set_sched_lock l (k : kernel) := Kernel (uv k) (procs k) (pl k) (freekpid k) (freekpid_lock k) l
  (sched_intrflags k) (sched_head k) (currents k) (idleprocs k) (cpu_regs k) (kernelsp k).
Definition set_intrflags f (k : kernel) := Kernel (uv k) (procs k) (pl k) (freekpid k) (freekpid_lock k) (sched_lock k)
  f (sched_head k) (currents k) (idleprocs k) (cpu_regs k) (kernelsp k).
Definition set_head h (k : kernel) := Kernel (uv k) (procs k) (pl k) (freekpid k) (freekpid_lock k) (sched_lock k)
  (sched_intrflags k) h (currents k) (idleprocs k) (cpu_regs k) (kernelsp k).
Definition set_currents c (k : kernel) := Kernel (uv k) (procs k) (pl k) (freekpid k) (freekpid_lock k) (sched_lock k)
  (sched_intrflags k) (sched_head k) c (idleprocs k) (cpu_regs k) (kernelsp k).
Definition set_regs r (k : kernel) := Kernel (uv k) (procs k) (pl k) (freekpid k) (freekpid_lock k) (sched_lock k)
  (sched_intrflags k) (sched_head k) (currents k) (idleprocs k) r (kernelsp k).
Definition set_kernelsp s (k : kernel) := Kernel (uv k) (procs k) (pl k) (freekpid k) (freekpid_lock k) (sched_lock k)
  (sched_intrflags k) (sched_head k) (currents k) (idleprocs k) (cpu_regs k) s.

Definition get_proc (k : kernel) (p : Z) : res proc := of_option BadPtr (procs k !! p).
Definition upd_proc (p : Z) (f : proc → proc) (k : kernel) : res kernel :=
  pr ← get_proc k p; Ok (set_procs <[p := f pr]> k).

(** [current_proc], [cpu_idleproc] and the registers of the executing processor. *)
Definition current_proc (k : kernel) : res Z := rd (currents k) (cpuid k).
Definition set_current_proc (p : Z) (k : kernel) : res kernel := c ← wr (currents k) (cpuid k) p; Ok (set_currents c k).
Definition cpu_idleproc (k : kernel) : res Z := rd (idleprocs k) (cpuid k).
Definition my_regs (k : kernel) : res context := of_option BadPtr (cpu_regs k !! Z.to_nat (cpuid k)).
Definition set_my_regs (c : context) (k : kernel) : kernel := set_regs (<[Z.to_nat (cpuid k) := c]> (cpu_regs k)) k.
Definition set_my_status (s : Z) (k : kernel) : res kernel :=
  c ← my_regs k;
  Ok (set_my_regs (Context (gpr c) (c_lo c) (c_hi c) s (c_cause c) (c_epc c) (c_badvaddr c)) k).

(** [spin_lock_irq_save] and [spin_unlock_irq_restore] on a lock that one
    processor at a time uses: spinning on a lock that the processor itself holds
    never ends. *)
Definition irq_save (k : kernel) : res (Z * kernel) :=
  c ← my_regs k; let '(flags, status) := local_irq_save (c_status c) in
  k ← set_my_status status k; Ok (flags, k).
Definition irq_restore (flags : Z) (k : kernel) : res kernel :=
  c ← my_regs k; set_my_status (local_irq_restore flags (c_status c)) k.
Definition spin (lk : Z) : res Z := of_option OutOfFuel (try_lock lk).

Definition on_uvw {A} (f : world → res (A * world)) (k : kernel) : res (A * kernel) :=
  '(a, u) ← on_mw f (uv k); Ok (a, set_uv u k).
Definition on_uvw_ (f : world → res world) (k : kernel) : res kernel := u ← on_mw_ f (uv k); Ok (set_uv u k).

Section ops.
Context {K : Kmem}.

(** ** kern/proc/proc.c *)
Definition alloc_kstack (w : world) : res (Z * world) :=
  '(paddr, w) ← pgalloc w;
  if paddr =? w64 (-1) then Ok (NULL, w) else Ok (pa2kva paddr, w).
Definition free_kstack (kstack : Z) (w : world) : res world := pgfree (kva2pa kstack) w.
Definition alloc_kstack_size (w : world) : res (Z * world) := Err Panicked.

(** The free set is a bitmap; process numbers are 1-based bit numbers. *)
Definition take_kpid (bitmap : list Z) : res (Z * list Z) :=
  kpid ← bitmap_find_first_zero_bit bitmap MAX_PROCESSES;
  bitmap ← atomic_set_bit kpid bitmap;
  Ok (kpid, bitmap).

Definition kpid_new (k : kernel) : res (Z * kernel) :=
  '(flags, k) ← irq_save k;
  lk ← spin (freekpid_lock k);
  '(kpid, bitmap) ← take_kpid (freekpid k);
  k ← irq_restore flags (set_kpids (unlock lk) bitmap k);
  Ok (kpid, k).

Definition kpid_recycle (kpid : Z) (k : kernel) : res kernel :=
  bitmap ← atomic_clear_bit kpid (freekpid k); Ok (set_kpids (freekpid_lock k) bitmap k).

(** kern/proc/namespace.c *)
Definition pid_new (kpid ns : Z) : Z := kpid.
Definition pid_recycle (pid ns : Z) (k : kernel) : kernel := k.

(** [scheduler] is the address of the registered [struct scheduler]. *)
Definition proc_new (ns scheduler : Z) (k : kernel) : res (Z * kernel) :=
  '(p, k) ← on_uvw (kmalloc SIZEOF_PROC 0) k;
  if p =? NULL then Ok (NULL, k)
  else
    '(stk, k) ← on_uvw alloc_kstack k;
    if stk =? NULL then k ← on_uvw_ (kfree p) k; Ok (NULL, k)
    else
      '(kpid, k) ← kpid_new k;
      let pr := Proc stk PAGE_SIZE kpid (pid_new kpid ns) kpid PS_EMBRYO 0 0 0 CPU_NONE NULL ns NULL
        zero_context 0 NULL (replicate PROC_NAME_LEN_MAX 0) NULL NULL NULL NULL
        (Family NULL NULL NULL NULL) scheduler in
      Ok (p, set_pl <[p + SCHED_NODE := Link (p + SCHED_NODE) (p + SCHED_NODE)]> (set_procs <[p := pr]> k)).

Definition proc_destroy (p : Z) (k : kernel) : res kernel :=
  pr ← get_proc k p;
  let k := pid_recycle (pid pr) (namespace pr) k in
  k ← kpid_recycle (kpid pr) k;
  k ← on_uvw_ (free_kstack (kstack pr)) k;
  on_uvw_ (kfree p) (set_pl (delete (p + SCHED_NODE)) (set_procs (delete p) k)).

Definition proc_init (k : kernel) : kernel := set_kpids (spinlock_init (freekpid_lock k)) (freekpid k) k.

(** Loading a process's address space: [mm == current_proc->mm] in uvm.c. *)
Definition note_current_mm (m : Z) (k : kernel) : kernel :=
  let u := uv k in
  set_uv (UvmState (mms u) (vmas u) (upgs u) (ul u) (kernel_mm u) (Some m) (mmu u) (this_cpu u) (mw u)) k.

Definition idle_init (k : kernel) : res kernel :=
  idle ← cpu_idleproc k;
  k ← set_current_proc idle k;
  k ← upd_proc idle (set_state PS_RUNNABLE) k;
  k ← upd_proc idle (set_mm (kernel_mm (uv k))) k;
  k ← upd_proc idle (set_kpid 0) k;
  Ok (note_current_mm (kernel_mm (uv k)) k).

(** ** kern/arch/mips/proc.c *)
Definition ST_KSU : Z := 0x18.
Definition KSU_USER : Z := 0x10.
Definition ST_EXL : Z := 2.
Definition ST_IE : Z := 1.
Definition _V0 : nat := 2.
Definition _V1 : nat := 3.
Definition _A0 : nat := 4.
Definition _T9 : nat := 25.
Definition _SP : nat := 29.
Definition _RA : nat := 31.
Definition SIZEOF_TRAPFRAME : Z := 152.

Definition kstacktop (p : proc) : Z := w32 (kstack p + kstack_size p).
Definition proc_trapframe (p : proc) : Z := w32 (kstacktop p - SIZEOF_TRAPFRAME).

(** The trap frame in memory: registers 0-31, lo, hi, status, cause, epc,
    badvaddr, one word each. *)
Definition TF_STATUS : Z := 34.
Definition TF_CAUSE : Z := 35.
Definition TF_EPC : Z := 36.
Definition tf_get (tf i : Z) (k : kernel) : Z := ent (bytes (mw (uv k))) tf i.
Definition tf_set (tf i v : Z) (k : kernel) : kernel := set_uv (set_mw (set_ent tf i v (mw (uv k))) (uv k)) k.

Definition bootstrap_trapframe (tf entry stacktop args : Z) (k : kernel) : res kernel :=
  c ← my_regs k;
  let k := tf_set tf TF_STATUS (c_status c) k in
  let k := tf_set tf TF_CAUSE (c_cause c) k in
  let k := tf_set tf TF_STATUS (Z.lor (tf_get tf TF_STATUS k) (Z.lor ST_IE ST_EXL)) k in
  let k := tf_set tf TF_EPC entry k in
  let k := tf_set tf (Z.of_nat _T9) (tf_get tf TF_EPC k) k in
  let k := tf_set tf (Z.of_nat _SP) stacktop k in
  Ok (tf_set tf (Z.of_nat _A0) args k).

(** [forkret] is the address of the function. *)
Definition bootstrap_context (forkret p tf : Z) (k : kernel) : res kernel :=
  c ← my_regs k;
  upd_proc p (λ pr,
    let x := p_context pr in
    set_context (Context (<[_SP := tf]> (<[_T9 := forkret]> (<[_RA := forkret]> (gpr x))))
                  (c_lo x) (c_hi x) (c_status c) (c_cause c) (c_epc x) (c_badvaddr x)) pr) k.

Definition bootstrap_user (tf : Z) (k : kernel) : kernel :=
  tf_set tf TF_STATUS (Z.lor (Z.land (tf_get tf TF_STATUS k) (w32 (Z.lnot ST_KSU))) KSU_USER) k.

Definition arch_proc_ksetup (forkret p entry args : Z) (k : kernel) : res kernel :=
  pr ← get_proc k p;
  let tf := proc_trapframe pr in
  k ← bootstrap_trapframe tf entry (kstacktop pr) args k;
  bootstrap_context forkret p tf k.

Definition arch_proc_usetup (forkret p entry stacktop args : Z) (k : kernel) : res kernel :=
  pr ← get_proc k p;
  let tf := proc_trapframe pr in
  k ← bootstrap_trapframe tf entry stacktop args k;
  k ← bootstrap_context forkret p tf k;
  Ok (bootstrap_user tf k).

Definition proc_ksetup (forkret p entry args : Z) (k : kernel) : res kernel :=
  k ← upd_proc p (set_mm (kernel_mm (uv k))) k; arch_proc_ksetup forkret p entry args k.
Definition proc_usetup (forkret p entry stacktop args : Z) (k : kernel) : res kernel :=
  arch_proc_usetup forkret p entry stacktop args k.

Definition arch_fork (forkret child parent : Z) (k : kernel) : res kernel :=
  c ← get_proc k child; p ← get_proc k parent;
  let tf_child := proc_trapframe c in let tf_parent := proc_trapframe p in
  let k := set_uv (set_mw (upd_bytes (blit tf_child tf_parent SIZEOF_TRAPFRAME) (mw (uv k))) (uv k)) k in
  let k := tf_set tf_child (Z.of_nat _V0) 0 k in
  let k := tf_set tf_child (Z.of_nat _V1) 0 k in
  bootstrap_context forkret child tf_child k.

Definition switch_regs (old new : Z) (k : kernel) : res kernel :=
  c ← my_regs k;
  k ← upd_proc old (set_context c) k;
  n ← get_proc k new;
  Ok (set_my_regs (p_context n) k).

Definition switch_context (p : Z) (k : kernel) : res kernel :=
  current ← current_proc k;
  k ← set_current_proc p k;
  pr ← get_proc k p;
  m ← get_mm (uv k) (p_mm pr);
  '(_, c) ← switch_pgindex (cpuid k) (pgindex m) (mmu (uv k));
  let u := uv k in
  let k := set_uv (UvmState (mms u) (vmas u) (upgs u) (ul u) (kernel_mm u) (Some (p_mm pr)) c (this_cpu u) (mw u)) k in
  ksp ← wr (kernelsp k) (cpuid k) (kstacktop pr);
  switch_regs current p (set_kernelsp ksp k).

End ops.

(** ** kern/proc/proctree.c *)
Definition upd_fam (p : Z) (f : family → family) (k : kernel) : res kernel :=
  upd_proc p (λ pr, set_fam (f (fam pr)) pr) k.
Definition get_fam (k : kernel) (p : Z) : res family := pr ← get_proc k p; Ok (fam pr).

Definition proctree_add_child (child parent : Z) (k : kernel) : res kernel :=
  k ← upd_fam child (λ f, Family parent (first_child f) (next_sibling f) (prev_sibling f)) k;
  pf ← get_fam k parent;
  k ← upd_fam child (λ f, Family (Proc.parent f) (first_child f) (first_child pf) (prev_sibling f)) k;
  pf ← get_fam k parent;
  k ← (if negb (first_child pf =? NULL) then
         upd_fam (first_child pf) (λ f, Family (Proc.parent f) (first_child f) (next_sibling f) child) k
       else Ok k);
  upd_fam parent (λ f, Family (Proc.parent f) child (next_sibling f) (prev_sibling f)) k.

Definition proctree_remove (pos : Z) (k : kernel) : res kernel :=
  f ← get_fam k pos;
  if negb (first_child f =? NULL) then Err Panicked
  else if parent f =? NULL then Err Panicked
  else
    let father := parent f in
    ff ← get_fam k father;
    k ← (if pos =? first_child ff then
           upd_fam father (λ g, Family (parent g) (next_sibling f) (next_sibling g) (prev_sibling g)) k
         else Ok k);
    f ← get_fam k pos;
    k ← (if negb (prev_sibling f =? NULL) then
           upd_fam (prev_sibling f) (λ g, Family (parent g) (first_child g) (next_sibling f) (prev_sibling g)) k
         else Ok k);
    f ← get_fam k pos;
    (if negb (next_sibling f =? NULL) then
       upd_fam (next_sibling f) (λ g, Family (parent g) (first_child g) (next_sibling g) (prev_sibling f)) k
     else Ok k).

(** ** The process tree *)
Definition fams (k : kernel) : gmap Z family := fam <$> procs k.

Lemma get_fam_ok k p g : fams k !! p = Some g → get_fam k p = Ok g.
Proof.
  unfold fams, get_fam, get_proc. rewrite lookup_fmap. destruct (procs k !! p); [|done].
  by intros [= <-].
Qed.

Lemma upd_fam_ok k p g f : fams k !! p = Some g →
  ∃ k', upd_fam p f k = Ok k' ∧ fams k' = <[p := f g]> (fams k) ∧ ∀ q, q ≠ p → procs k' !! q = procs k !! q.
Proof.
  unfold fams, upd_fam, upd_proc, get_proc. rewrite lookup_fmap. destruct (procs k !! p) as [pr|] eqn:E; [|done].
  intros [= <-]. eexists. split; [done|]. cbn [set_procs procs]. split; [by rewrite fmap_insert|].
  intros q Hq. by rewrite lookup_insert_ne.
Qed.

(** The processes [l] are linked as siblings with parent [p], between [prev] and
    [nxt]. *)
Fixpoint siblings (F : gmap Z family) (p prev : Z) (l : list Z) (nxt : Z) : Prop :=
  match l with
  | [] => True
  | c :: l' => (∃ fc, F !! c = Some (Family p fc (hd nxt l') prev)) ∧ siblings F p c l' nxt
  end.

Definition children (F : gmap Z family) (p : Z) (l : list Z) : Prop :=
  (∃ g, F !! p = Some g ∧ first_child g = hd NULL l) ∧ siblings F p NULL l NULL ∧ NoDup (p :: l) ∧ NULL ∉ p :: l.

Lemma siblings_app F p prev l1 l2 nxt :
  siblings F p prev (l1 ++ l2) nxt ↔ siblings F p prev l1 (hd nxt l2) ∧ siblings F p (default prev (last l1)) l2 nxt.
Proof.
  revert prev. induction l1 as [|c l1 IH]; intros prev; simpl; [tauto|].
  rewrite IH. assert (hd nxt (l1 ++ l2) = hd (hd nxt l2) l1) as -> by by destruct l1.
  assert (default prev (last (c :: l1)) = default c (last l1)) as ->
    by (rewrite last_cons; by destruct (last l1)). tauto.
Qed.

Lemma siblings_frame F F' p prev l nxt : (∀ c, c ∈ l → F' !! c = F !! c) →
  siblings F p prev l nxt → siblings F' p prev l nxt.
Proof.
  revert prev. induction l as [|c l IH]; intros prev HF; [done|]. intros [[fc Hc] Hl]. split.
  - exists fc. rewrite HF; [done|left].
  - apply IH; [|done]. intros d Hd. apply HF. by right.
Qed.

(** Changing the [prev_sibling] of the first and the [next_sibling] of the last. *)
Lemma siblings_set_prev F p prev n l nxt prev' : siblings F p prev (n :: l) nxt → n ∉ l →
  ∃ g, F !! n = Some g ∧
    siblings (<[n := Family (parent g) (first_child g) (next_sibling g) prev']> F) p prev' (n :: l) nxt.
Proof.
  intros [[fc Hn] Hl] Hnl. eexists. split; [done|]. split.
  - exists fc. by rewrite lookup_insert_eq.
  - eapply siblings_frame; [|done]. intros c Hc. rewrite lookup_insert_ne; [done|]. set_solver.
Qed.

Lemma siblings_set_next F p prev l a nxt nxt' : siblings F p prev (l ++ [a]) nxt → a ∉ l →
  ∃ g, F !! a = Some g ∧
    siblings (<[a := Family (parent g) (first_child g) nxt' (prev_sibling g)]> F) p prev (l ++ [a]) nxt'.
Proof.
  rewrite siblings_app. intros [H1 [[fc Ha] _]] Hal. eexists. split; [done|]. apply siblings_app. split.
  - eapply siblings_frame; [|exact H1]. intros c Hc. rewrite lookup_insert_ne; [done|]. set_solver.
  - split; [|done]. exists fc. by rewrite lookup_insert_eq.
Qed.

(** The updates of the source: the first sibling's [prev_sibling] when there is
    one, and the last sibling's [next_sibling]. *)
Lemma set_first_prev k p prev l prev' : siblings (fams k) p prev l NULL → NULL ∉ l → NoDup l →
  ∃ k', (if negb (hd NULL l =? NULL) then
      upd_fam (hd NULL l) (λ f, Family (parent f) (first_child f) (next_sibling f) prev') k else Ok k) = Ok k' ∧
    siblings (fams k') p prev' l NULL ∧ (∀ q, q ∉ l → fams k' !! q = fams k !! q) ∧
    ∀ q, q ∉ l → procs k' !! q = procs k !! q.
Proof.
  intros Hs Hnull Hnd. destruct l as [|n l]; [by exists k|]. cbn [hd].
  rewrite (proj2 (Z.eqb_neq n NULL)) by set_solver. cbn [negb]. apply NoDup_cons in Hnd as [Hn _].
  destruct (siblings_set_prev (fams k) p prev n l NULL prev' Hs Hn) as (g & Hg & Hs').
  edestruct (upd_fam_ok k n) as (k' & -> & E & Q); [done|]. exists k'. rewrite E. split_and!; [done|done| |].
  - intros q Hq. rewrite lookup_insert_ne; [done|set_solver].
  - intros q Hq. apply Q. set_solver.
Qed.

Lemma set_last_next k p l nxt nxt' : siblings (fams k) p NULL l nxt → NULL ∉ l → NoDup l →
  ∃ k', (if negb (default NULL (last l) =? NULL) then
      upd_fam (default NULL (last l)) (λ g, Family (parent g) (first_child g) nxt' (prev_sibling g)) k else Ok k) = Ok k' ∧
    siblings (fams k') p NULL l nxt' ∧ (∀ q, q ∉ l → fams k' !! q = fams k !! q) ∧
    ∀ q, q ∉ l → procs k' !! q = procs k !! q.
Proof.
  intros Hs Hnull Hnd. destruct l as [|a l _] using rev_ind; [by exists k|].
  rewrite last_snoc. change (default NULL (Some a)) with a.
  rewrite (proj2 (Z.eqb_neq a NULL)) by set_solver. cbn [negb]. apply NoDup_app in Hnd as (_ & Ha & _).
  destruct (siblings_set_next (fams k) p NULL l a nxt nxt' Hs) as (g & Hg & Hs').
  { intros Hin. apply (Ha a Hin). left. }
  edestruct (upd_fam_ok k a) as (k' & -> & E & Q); [done|]. exists k'. rewrite E. split_and!; [done|done| |].
  - intros q Hq. rewrite lookup_insert_ne; [done|set_solver].
  - intros q Hq. apply Q. set_solver.
Qed.

Lemma add_child_ok k child p l : children (fams k) p l → child ∉ NULL :: p :: l →
  (∃ g, fams k !! child = Some g ∧ prev_sibling g = NULL) →
  wp (proctree_add_child child p k) (λ k', children (fams k') p (child :: l) ∧
    ∀ q, q ∉ child :: p :: l → procs k' !! q = procs k !! q).
Proof.
  intros ((gp & Hp & Hfc) & Hs & Hnd & Hnull) Hc (gc & Hgc & Hprev). unfold proctree_add_child.
  assert (child ≠ NULL ∧ child ≠ p ∧ child ∉ l) as (Hc0 & Hcp & Hcl) by set_solver.
  destruct (upd_fam_ok k child gc (λ f, Family p (first_child f) (next_sibling f) (prev_sibling f)) Hgc) as (k1 & -> & E1 & Q1).
  cbn [mbind res_bind]. rewrite (get_fam_ok k1 p gp) by (rewrite E1, lookup_insert_ne; done). cbn [mbind res_bind].
  edestruct (upd_fam_ok k1 child) as (k2 & -> & E2 & Q2); [by rewrite E1, lookup_insert_eq|].
  cbn [mbind res_bind parent first_child next_sibling prev_sibling] in *.
  assert (fams k2 !! p = Some gp) as Hp2 by by rewrite E2, E1, !lookup_insert_ne.
  rewrite (get_fam_ok k2 p gp Hp2). cbn [mbind res_bind]. rewrite Hfc in *.
  assert (∀ c, c ≠ child → fams k2 !! c = fams k !! c) as F2 by (intros c Hx; by rewrite E2, E1, !lookup_insert_ne).
  assert (fams k2 !! child = Some (Family p (first_child gc) (hd NULL l) NULL)) as C2
    by (rewrite E2, lookup_insert_eq, Hprev; done).
  apply NoDup_cons in Hnd as [Hpl Hnd].
  destruct (set_first_prev k2 p NULL l child) as (k3 & -> & S3 & F3 & Q3); [|set_solver|done|].
  { eapply siblings_frame; [|done]. intros c Hin. apply F2. set_solver. }
  cbn [mbind res_bind]. assert (fams k3 !! p = Some gp) as Hp3 by by rewrite F3.
  edestruct (upd_fam_ok k3 p) as (k4 & -> & E4 & Q4); [done|]. cbn [wp]. split.
  - split_and!.
    + eexists. rewrite E4, lookup_insert_eq. split; done.
    + split.
      * exists (first_child gc). rewrite E4, lookup_insert_ne, F3 by done. done.
      * eapply siblings_frame; [|exact S3]. intros c Hin. rewrite E4, lookup_insert_ne; [done|]. set_solver.
    + apply NoDup_cons; split; [set_solver|]. by apply NoDup_cons.
    + set_solver.
  - intros q Hq. rewrite Q4, Q3, Q2, Q1; [done|set_solver..].
Qed.

Lemma remove_ok k p l1 c l2 : children (fams k) p (l1 ++ c :: l2) →
  (∃ g, fams k !! c = Some g ∧ first_child g = NULL) →
  wp (proctree_remove c k) (λ k', children (fams k') p (l1 ++ l2) ∧
    ∀ q, q ∉ p :: l1 ++ l2 → procs k' !! q = procs k !! q).
Proof.
  intros ((gp & Hp & Hfc) & Hs & Hnd & Hnull) (gc & Hgc & Hleaf). unfold proctree_remove.
  apply siblings_app in Hs as [Hs1 [[fc Hc] Hs2]]. rewrite Hc in Hgc. injection Hgc as <-. cbn [first_child hd] in *. subst fc.
  rewrite (get_fam_ok k c _ Hc). cbn [mbind res_bind first_child parent next_sibling prev_sibling].
  change (NULL =? NULL) with true. cbn [negb]. rewrite (proj2 (Z.eqb_neq p NULL)) by set_solver.
  rewrite (get_fam_ok k p gp Hp). cbn [mbind res_bind]. rewrite Hfc.
  assert (NoDup (p :: l1 ++ l2) ∧ c ∉ p :: l1 ++ l2) as [Hnd' Hcn].
  { rewrite app_comm_cons, <- Permutation_middle in Hnd. by apply NoDup_cons in Hnd as [??]. }
  apply NoDup_cons in Hnd' as [Hpl Hnd2]. apply NoDup_app in Hnd2 as (Hnd1 & Hd12 & Hnd3).
  assert (∃ k1, (if c =? hd NULL (l1 ++ c :: l2) then
      upd_fam p (λ g, Family (parent g) (hd NULL l2) (next_sibling g) (prev_sibling g)) k else Ok k) = Ok k1 ∧
      (∃ g, fams k1 !! p = Some g ∧ first_child g = hd NULL (l1 ++ l2)) ∧ (∀ q, q ≠ p → fams k1 !! q = fams k !! q) ∧
      ∀ q, q ≠ p → procs k1 !! q = procs k !! q) as (k1 & -> & P1 & F1 & Q1).
  { destruct l1 as [|a l1]; cbn [hd app].
    - rewrite Z.eqb_refl. edestruct (upd_fam_ok k p) as (k1 & -> & E1 & Q1); [done|]. exists k1. split_and!; [done| | |done].
      + eexists. rewrite E1, lookup_insert_eq. done.
      + intros q Hq. by rewrite E1, lookup_insert_ne.
    - rewrite (proj2 (Z.eqb_neq c a)) by set_solver. exists k. split_and!; [done| |done|done]. by exists gp. }
  assert (c ≠ p) as Hcp by set_solver. cbn [mbind res_bind].
  rewrite (get_fam_ok k1 c _ (eq_trans (F1 c Hcp) Hc)). cbn [mbind res_bind prev_sibling next_sibling].
  destruct (set_last_next k1 p l1 c (hd NULL l2)) as (k2 & -> & S2 & F2 & Q2); [|set_solver|done|].
  { eapply siblings_frame; [|exact Hs1]. intros q Hq. apply F1. set_solver. }
  assert (c ∉ l1 ∧ p ∉ l1 ∧ p ∉ l2) as (Hc1 & Hp1 & Hp2) by set_solver. cbn [mbind res_bind].
  rewrite (get_fam_ok k2 c _ (eq_trans (F2 c Hc1) (eq_trans (F1 c Hcp) Hc))). cbn [mbind res_bind prev_sibling next_sibling].
  destruct (set_first_prev k2 p c l2 (default NULL (last l1))) as (k3 & -> & S3 & F3 & Q3); [|set_solver|done|].
  { eapply siblings_frame; [|exact Hs2]. intros q Hq. rewrite F2, F1; [done|set_solver|]. intros Hin. by apply (Hd12 q). }
  cbn [wp]. split; [split_and!|].
  - destruct P1 as (g & Hg & Hgf). exists g. split; [by rewrite F3, F2|done].
  - apply siblings_app. split; [|done]. eapply siblings_frame; [|exact S2]. intros q Hq. apply F3. set_solver.
  - apply NoDup_cons. split; [done|]. apply NoDup_app. done.
  - set_solver.
  - intros q Hq. rewrite Q3, Q2, Q1; [done|set_solver..].
Qed.

(** C38. The process tree: adding a new process as a child puts it in front of its
    parent's children, and removing a leaf takes exactly that process out; the
    children stay linked in both directions in their order, NULL at the ends, and
    no other process changes.  Removing a process that has children, or one that
    has no parent, panics. *)
Theorem proctree_correct k p l :
  children (fams k) p l →
  (∀ child, child ∉ NULL :: p :: l → (∃ g, fams k !! child = Some g ∧ prev_sibling g = NULL) →
    wp (proctree_add_child child p k) (λ k', children (fams k') p (child :: l) ∧
      ∀ q, q ∉ child :: p :: l → procs k' !! q = procs k !! q)) ∧
  (∀ l1 c l2, l = l1 ++ c :: l2 → (∃ g, fams k !! c = Some g ∧ first_child g = NULL) →
    wp (proctree_remove c k) (λ k', children (fams k') p (l1 ++ l2) ∧
      ∀ q, q ∉ p :: l1 ++ l2 → procs k' !! q = procs k !! q)) ∧
  (∀ c g, fams k !! c = Some g → first_child g ≠ NULL ∨ parent g = NULL → proctree_remove c k = Err Panicked).
Proof.
  intros Hch. split_and!.
  - intros child Hc Hg. by apply add_child_ok.
  - intros l1 c l2 -> Hg. by apply remove_ok.
  - intros c g Hg Hx. unfold proctree_remove. rewrite (get_fam_ok k c g Hg). cbn [mbind res_bind].
    destruct (Z.eqb_spec (first_child g) NULL), (Z.eqb_spec (parent g) NULL); cbn [negb]; try done. tauto.
Qed.

Definition demo_tree : kernel :=
  let pr fc nx pv := Proc 0 0 0 0 0 0 0 0 0 0 0 0 0 zero_context 0 0 [] 0 0 0 0 (Family 0x1000 fc nx pv) 0 in
  Kernel demo_u (<[0x1000 := pr 0x3000 0 0]> (<[0x2000 := pr 0 0 0x3000]> (<[0x3000 := pr 0 0x2000 0]> {[0x4000 := pr 0 0 0]})))
    ∅ [] 0 0 0 0 [] [] [] [].

Lemma demo_children : children (fams demo_tree) 0x1000 [0x3000; 0x2000].
Proof.
  split_and!; [by eexists|by repeat (split || eexists)| |].
  - apply (bool_decide_unpack _). by vm_compute.
  - by apply (bool_decide_unpack _).
Qed.

Lemma proctree_correct_witness :
  wp (proctree_add_child 0x4000 0x1000 demo_tree) (λ k', children (fams k') 0x1000 [0x4000; 0x3000; 0x2000]) ∧
  wp (proctree_remove 0x3000 demo_tree) (λ k', children (fams k') 0x1000 [0x2000]).
Proof.
  destruct (proctree_correct demo_tree 0x1000 [0x3000; 0x2000] demo_children) as (H1 & H2 & _). split.
  - eapply wp_mono; [apply (H1 0x4000)|].
    + by apply (bool_decide_unpack _).
    + by eexists.
    + by intros k' [H _].
  - eapply wp_mono; [apply (H2 [] 0x3000 [0x2000] eq_refl); by eexists|]. by intros k' [H _].
Defined.

(** ** Process numbers *)

(** The number [n] is in use. *)
Definition kpid_used (b : list Z) (n : Z) : bool := bm_bit b (n - 1).
Definition kpid_wf (b : list Z) : Prop :=
  Forall (fits 32) b ∧ MAX_PROCESSES ≤ 32 * Z.of_nat (length b) ≤ 2 ^ 31.

Lemma kpid_wf_bm b : kpid_wf b → bm_wf b.
Proof. intros [H1 H2]. split; [done|lia]. Qed.

(** Process numbers ([kpid_new], [kpid_recycle]): as long as a number is free,
    the allocator hands out the smallest one, which lies between 1 and
    [MAX_PROCESSES] and was not in use, and marks exactly it as used; recycling it
    makes exactly it free again.  When every number is in use the allocator does
    not fail cleanly: it sets a bit outside the bitmap. *)
Theorem kpid_correct b :
  kpid_wf b →
  ((∃ n, 1 ≤ n ≤ MAX_PROCESSES ∧ kpid_used b n = false) →
    wp (take_kpid b) (λ '(n, b'), 1 ≤ n ≤ MAX_PROCESSES ∧ kpid_used b n = false ∧
      (∀ i, 1 ≤ i < n → kpid_used b i = true) ∧ kpid_wf b' ∧
      (∀ i, 1 ≤ i → kpid_used b' i = (i =? n) || kpid_used b i) ∧
      wp (atomic_clear_bit n b') (λ b'', ∀ i, 1 ≤ i → kpid_used b'' i = kpid_used b i))) ∧
  ((∀ n, 1 ≤ n ≤ MAX_PROCESSES → kpid_used b n = true) → take_kpid b = Err BadPtr).
Proof.
  intros Hwf. pose proof (kpid_wf_bm b Hwf) as Hbm. pose proof Hwf as [_ [Hlo Hhi]]. unfold take_kpid.
  pose proof (find_first_zero_ok b MAX_PROCESSES Hbm ltac:(unfold MAX_PROCESSES in *; lia)) as Hfind.
  apply wp_inv in Hfind as (r & -> & Hr). cbn [mbind res_bind]. split.
  - intros (n & Hn & Hfree). destruct Hr as [[-> Hnone]|(Hr & Hbit & Hfirst)].
    { specialize (Hnone (n - 1) ltac:(lia)). unfold kpid_used in Hfree. by rewrite Hfree in Hnone. }
    apply negb_true_iff in Hbit. apply wp_bind.
    eapply wp_mono; [apply atomic_set_bit_ok; [done|lia]|]. intros b' (Hlen & Hf' & Hb'). apply wp_ok.
    assert (kpid_wf b') as Hwf' by (split; [done|by rewrite Hlen]).
    assert (∀ i, 1 ≤ i → kpid_used b' i = (i =? r) || kpid_used b i) as Hused.
    { intros i Hi. unfold kpid_used. rewrite Hb' by lia. f_equal. destruct (Z.eqb_spec (i - 1) (r - 1)), (Z.eqb_spec i r); lia. }
    split_and!; try done; try lia.
    + intros i Hi. specialize (Hfirst (i - 1) ltac:(lia)). by apply negb_false_iff in Hfirst.
    + eapply wp_mono; [apply atomic_clear_bit_ok; [by apply kpid_wf_bm|rewrite Hlen; lia]|].
      intros b'' (_ & _ & Hb''). intros i Hi. unfold kpid_used in *. rewrite Hb'', Hused by lia.
      destruct (Z.eqb_spec (i - 1) (r - 1)) as [E|E], (Z.eqb_spec i r) as [->|E']; simpl; try done; try lia.
  - intros Hall. destruct Hr as [[-> _]|(Hr & Hbit & _)].
    + destruct (atomic_bit_zero b) as [-> _]; [lia|done].
    + specialize (Hall r ltac:(lia)). unfold kpid_used in Hall. by rewrite Hall in Hbit.
Qed.

Lemma kpid_correct_witness :
  wp (take_kpid (7 :: replicate 16383 0)) (λ '(n, b'), kpid_used b' 4 = true).
Proof.
  destruct (kpid_correct (7 :: replicate 16383 0)) as [H _].
  - split; [|by vm_compute]. constructor; [done|]. by apply Forall_replicate.
  - eapply wp_mono; [apply H; exists 4; split; [by vm_compute|reflexivity]|].
    intros [n b'] (Hn & Hf & Hu & _ & Hb & _). rewrite (Hb 4) by lia.
    destruct (Z.eqb_spec 4 n) as [->|Hne]; [reflexivity|]. exfalso.
    assert (n = 1 ∨ n = 2 ∨ n = 3 ∨ 4 < n) as [->|[->|[->|Hgt]]] by lia.
    + by vm_compute in Hf.
    + by vm_compute in Hf.
    + by vm_compute in Hf.
    + specialize (Hu 4 ltac:(lia)). by vm_compute in Hu.
Defined.
