(* ===== verification/Sched.v ===== *)
(** * The scheduler

    kern/proc/sched/sched.c (critical section, [schedule], sleeping and waking)
    and kern/proc/sched/scheduler.c (the list of processes that the registered
    scheduler picks from), with [spawn_initproc] of kern/proc/initproc.c.

    [switch_context] returns in another process: what the processor executes
    next is the rest of [schedule] or [sleep_with_lock] of a process that was
    switched away from earlier, or [forkret] of a new one, all of which leave the
    critical section.  [schedule] below is one processor's path from the call to
    the end of the critical section; [sleep_with_lock] is split at the switch. *)
From S2P Require Import Prelude Util Bitops Bitmap DList MmState Libc Palloc Pmm Simple Vmm Init Cp0 Pgtable Sync Uvm Proc.

Definition sched_enter_critical (k : kernel) : res kernel :=
  '(flags, k) ← irq_save k;
  let k := set_intrflags flags k in
  lk ← spin (sched_lock k);
  Ok (set_sched_lock lk k).

Definition sched_exit_critical (k : kernel) : res kernel :=
  irq_restore (sched_intrflags k) (set_sched_lock (unlock (sched_lock k)) k).

(** ** kern/proc/sched/scheduler.c *)
Definition sched_initcall (head : Z) (k : kernel) : res (Z * kernel) :=
  L ← INIT_LIST_HEAD head (pl k); Ok (0, set_head head (set_pl (λ _, L) k)).

(** [for_each_entry_reverse] and [for_each_entry] deliver the process of the last
    node, possibly the sentry's; the code compares the process, not its node,
    with the sentry. *)
Definition pick (k : kernel) : res Z :=
  n ← for_each_reverse (pl k) (sched_head k) (λ n,
    pr ← get_proc k (n - SCHED_NODE); Ok (state pr =? PS_RUNNABLE));
  let a := n - SCHED_NODE in
  if negb (a =? sched_head k) then Ok a else Ok NULL.

Definition add (p0 : Z) (k : kernel) : res (Z * kernel) :=
  L ← INIT_LIST_HEAD (p0 + SCHED_NODE) (pl k);
  L ← list_add (p0 + SCHED_NODE) (sched_head k) L;
  Ok (0, set_pl (λ _, L) k).

Definition remove (p0 : Z) (k : kernel) : res (Z * kernel) :=
  L ← list_del (p0 + SCHED_NODE) (pl k); Ok (0, set_pl (λ _, L) k).

Definition next (p0 : Z) (k : kernel) : res Z :=
  n ← get_next (pl k) (p0 + SCHED_NODE);
  let r := n - SCHED_NODE in
  if r =? sched_head k then Ok NULL else Ok r.

Definition find (id : Z) (k : kernel) : res Z :=
  n ← for_each (pl k) (sched_head k) (λ n, pr ← get_proc k (n - SCHED_NODE); Ok (pid pr =? id));
  let a := n - SCHED_NODE in
  if negb (a =? sched_head k) then Ok a else Ok NULL.

(** ** kern/proc/sched/sched.c *)
Definition update_proc (p : Z) (k : kernel) : res kernel :=
  k ← upd_proc p (set_state PS_ONPROC) k; upd_proc p (set_oncpu (cpuid k)) k.

(** The critical section of [schedule]. *)
Definition schedule_body (oldproc : Z) (k : kernel) : res kernel :=
  old ← get_proc k oldproc;
  idle ← cpu_idleproc k;
  assert_ (negb (xorb (kpid old =? 0) (oldproc =? idle)));;
  k ← (if state old =? PS_ONPROC then upd_proc oldproc (set_state PS_RUNNABLE) k else Ok k);
  newproc ← pick k;
  let newproc := if newproc =? NULL then idle else newproc in
  k ← update_proc newproc k;
  switch_context newproc k.

Definition schedule (k : kernel) : res kernel :=
  oldproc ← current_proc k;
  k ← sched_enter_critical k;
  k ← schedule_body oldproc k;
  sched_exit_critical k.

(** [sleep_with_lock(bed, lock)] up to the switch to the idle process, and from
    the return of that switch to the end.  The caller's lock is passed in and out;
    [None] is a NULL pointer.  The flags are a local variable of the sleeper. *)
Definition sleep_begin (bed : Z) (lock : option Z) (k : kernel) : res (Z * option Z * kernel) :=
  '(flags, k) ← irq_save k;
  lk ← spin (sched_lock k);
  let k := set_sched_lock lk k in
  let lock := unlock <$> lock in
  cur ← current_proc k;
  k ← upd_proc cur (set_bed bed) k;
  k ← upd_proc cur (set_state PS_SLEEPING) k;
  idle ← cpu_idleproc k;
  k ← switch_context idle k;
  Ok (flags, lock, k).

Definition sleep_end (flags : Z) (lock : option Z) (k : kernel) : res (option Z * kernel) :=
  cur ← current_proc k;
  k ← upd_proc cur (set_bed NULL) k;
  k ← irq_restore flags (set_sched_lock (unlock (sched_lock k)) k);
  match lock with
  | None => Ok (None, k)
  | Some lk => lk ← spin lk; Ok (Some lk, k)
  end.

Definition proc_add (p : Z) (k : kernel) : res kernel :=
  k ← sched_enter_critical k; '(_, k) ← add p k; sched_exit_critical k.
Definition proc_remove (p : Z) (k : kernel) : res kernel :=
  k ← sched_enter_critical k; '(_, k) ← remove p k; sched_exit_critical k.

(** The [sched_exit_critical()] after the [return] is not reached. *)
Definition proc_next (p : Z) (k : kernel) : res (Z * kernel) :=
  k ← sched_enter_critical k; r ← next p k; Ok (r, k).

Definition wakeup (b : Z) (k : kernel) : res kernel :=
  '(flags, k) ← irq_save k;
  lk ← spin (sched_lock k);
  let k := set_sched_lock lk k in
  '(p, k) ← proc_next NULL k;
  k ← loop (S (S (size (procs k)))) (λ '(p, k),
    if p =? NULL then Ok (inr k)
    else
      pr ← get_proc k p;
      k ← (if (bed pr =? b) && (state pr =? PS_SLEEPING) then upd_proc p (set_state PS_RUNNABLE) k else Ok k);
      '(p, k) ← proc_next p k;
      Ok (inl (p, k))) (p, k);
  irq_restore flags (set_sched_lock (unlock (sched_lock k)) k).

Definition sched_init (k : kernel) : kernel := set_sched_lock (spinlock_init (sched_lock k)) k.

(** ** kern/proc/initproc.c *)
Section init.
Context {K : Kmem}.
Definition spawn_initproc (forkret scheduler entry : Z) (k : kernel) : res (Z * kernel) :=
  '(initproc, k) ← proc_new NULL scheduler k;
  k ← proc_ksetup forkret initproc entry NULL k;
  k ← upd_proc initproc (set_state PS_RUNNABLE) k;
  k ← upd_proc initproc (set_leaders initproc initproc initproc) k;
  k ← proc_add initproc k;
  Ok (initproc, k).
End init.

(** ** The invariant

    [l] are the processes in the scheduler's list, most recently added first. *)
Definition plist (l : list Z) : list Z := (λ p, p + SCHED_NODE) <$> l.

Definition proc_ready_to_load (k : kernel) (pr : proc) : Prop := is_Some (mms (uv k) !! p_mm pr).

Record sched_wf (k : kernel) (l : list Z) : Prop := SchedWf {
  si_list : dlist (pl k) (sched_head k) (plist l);
  si_addr p : p ∈ l → p ≠ sched_head k ∧ p ≠ NULL;
  si_cpu : 0 ≤ cpuid k < Z.of_nat (length (currents k));
  si_len : length (idleprocs k) = length (currents k) ∧ length (cpu_regs k) = length (currents k) ∧
           length (kernelsp k) = length (currents k) ∧ mmu_ok (length (currents k)) (mmu (uv k));
  si_procs p : p ∈ l → ∃ pr, procs k !! p = Some pr ∧ kpid pr ≠ 0 ∧ proc_ready_to_load k pr;
  si_idle c p : idleprocs k !! c = Some p → p ∉ l ∧ ∃ pr, procs k !! p = Some pr ∧ kpid pr = 0 ∧ proc_ready_to_load k pr;
  (** a processor runs its idle process, or a process that is marked as running
      on this processor *)
  si_cur c p : currents k !! c = Some p → idleprocs k !! c = Some p ∨
    (p ∈ l ∧ ∃ pr, procs k !! p = Some pr ∧ state pr = PS_ONPROC ∧ oncpu pr = Z.of_nat c) }.

(** Outside the critical section the lock is free. *)
Definition sched_inv (k : kernel) (l : list Z) : Prop := sched_wf k l ∧ free_lock (sched_lock k).

(** A process of the list that may run next: runnable, or the one that is giving
    up the processor. *)
Definition ready (k : kernel) (p : Z) : Prop :=
  ∃ pr, procs k !! p = Some pr ∧ (state pr = PS_RUNNABLE ∨ state pr = PS_ONPROC ∧ current_proc k = Ok p).

(** *** Critical section *)
Record same_but_cpu (k k' : kernel) : Prop := SameButCpu {
  sb_uv : uv k' = uv k; sb_procs : procs k' = procs k; sb_pl : pl k' = pl k; sb_head : sched_head k' = sched_head k;
  sb_cur : currents k' = currents k; sb_idle : idleprocs k' = idleprocs k; sb_ksp : kernelsp k' = kernelsp k;
  sb_regs : length (cpu_regs k') = length (cpu_regs k) }.

Lemma my_regs_ok k l : sched_wf k l → ∃ c, my_regs k = Ok c.
Proof.
  intros Hi. destruct (si_len _ _ Hi) as (_ & Hr & _). pose proof (si_cpu _ _ Hi) as Hc. unfold my_regs.
  destruct (lookup_lt_is_Some_2 (cpu_regs k) (Z.to_nat (cpuid k))) as [c ->]; [lia|]. by exists c.
Qed.

Lemma set_my_status_ok k s c : my_regs k = Ok c → ∃ k' c', set_my_status s k = Ok k' ∧ same_but_cpu k k' ∧
  sched_lock k' = sched_lock k ∧ my_regs k' = Ok c' ∧ c_status c' = s.
Proof.
  intros Hc. unfold set_my_status. rewrite Hc. cbn [mbind res_bind]. eexists _, _. split; [done|].
  split; [split; try done; cbn [set_my_regs set_regs cpu_regs]; apply length_insert|]. split; [done|].
  unfold my_regs in *. cbn [set_my_regs set_regs cpu_regs cpuid uv] in *. unfold cpuid in *.
  destruct (cpu_regs k !! Z.to_nat (this_cpu (uv k))) eqn:E; [|done].
  rewrite list_lookup_insert_eq by by eapply lookup_lt_Some. done.
Qed.

Lemma sched_enter_ok k c : my_regs k = Ok c → free_lock (sched_lock k) →
  ∃ k' c', sched_enter_critical k = Ok k' ∧ same_but_cpu k k' ∧ free_lock (unlock (sched_lock k')) ∧
    my_regs k' = Ok c' ∧ Z.testbit (c_status c') 0 = false ∧ sched_intrflags k' = c_status c.
Proof.
  intros Hc Hf. unfold sched_enter_critical, irq_save. rewrite Hc. cbn [mbind res_bind local_irq_save].
  destruct (set_my_status_ok k (Z.lxor (Z.lor (c_status c) 31) 31) c Hc) as (k' & c' & -> & Hs & Hl & Hc' & Est).
  cbn [mbind res_bind]. unfold spin. cbn [set_intrflags sched_lock]. rewrite Hl.
  destruct (lock_unlock _ Hf) as (lk & -> & Hu & _). cbn [of_option mbind res_bind].
  eexists _, c'. split; [done|]. split; [by destruct Hs|]. split; [done|]. split; [done|]. split; [|done].
  rewrite Est. apply (irq_save_restore (c_status c) 0).
Qed.

Lemma sched_exit_ok k c : my_regs k = Ok c → ∃ k', sched_exit_critical k = Ok k' ∧ same_but_cpu k k' ∧
  sched_lock k' = unlock (sched_lock k).
Proof.
  intros Hc. unfold sched_exit_critical, irq_restore.
  assert (my_regs (set_sched_lock (unlock (sched_lock k)) k) = Ok c) as Hc' by done. rewrite Hc'. cbn [mbind res_bind].
  edestruct (set_my_status_ok (set_sched_lock (unlock (sched_lock k)) k)) as (k' & c' & -> & Hs & Hl & _); [done|].
  exists k'. split; [done|]. split; [by destruct Hs|done].
Qed.

(** *** Picking *)
Lemma pick_ok k l : dlist (pl k) (sched_head k) (plist l) → (∀ p, p ∈ l → p ≠ sched_head k ∧ is_Some (procs k !! p)) →
  (∃ l1 p l2 pr, l = l1 ++ p :: l2 ∧ procs k !! p = Some pr ∧ state pr = PS_RUNNABLE ∧
     (∀ q qr, q ∈ l2 → procs k !! q = Some qr → state qr ≠ PS_RUNNABLE) ∧ pick k = Ok p) ∨
  ((∀ q qr, q ∈ l → procs k !! q = Some qr → state qr ≠ PS_RUNNABLE) ∧ pick k = Ok (sched_head k - SCHED_NODE)).
Proof.
  intros Hd Hl. set (R := λ p, match procs k !! p with Some pr => state pr =? PS_RUNNABLE | None => false end).
  set (Pb := λ n, R (n - SCHED_NODE)). unfold pick.
  rewrite (for_each_reverse_ok _ _ (plist l) _ Pb Hd).
  2: { intros x [p [-> Hp]]%list_elem_of_fmap. unfold Pb, R, get_proc.
       replace (p + SCHED_NODE - SCHED_NODE) with p by lia. destruct (Hl p Hp) as [_ [pr ->]]. done. }
  assert (∀ q qr l', Forall (λ y, Pb y = false) (plist l') → q ∈ l' → procs k !! q = Some qr → state qr ≠ PS_RUNNABLE) as Hno.
  { intros q qr l' Hf Hq Hqr. unfold plist in Hf. rewrite Forall_fmap, Forall_forall in Hf. specialize (Hf q Hq). simpl in Hf. unfold Pb, R in Hf.
    replace (q + SCHED_NODE - SCHED_NODE) with q in Hf by lia. rewrite Hqr in Hf. by apply Z.eqb_neq. }
  cbn [mbind res_bind]. destruct (stops_at_last Pb (plist l) (sched_head k)) as [(n1 & x & n2 & E & H1 & H2 & ->)|[H1 ->]].
  - left. apply fmap_app_inv in E as (l1 & l2' & -> & E & ->). destruct l2' as [|p l2]; [done|]. injection E as -> ->.
    unfold Pb, R in H1. replace (p + SCHED_NODE - SCHED_NODE) with p in * by lia.
    destruct (procs k !! p) as [pr|] eqn:Ep; [|done]. exists l1, p, l2, pr. split_and!; try done; [lia|by intros; eapply Hno|].
    destruct (Hl p) as [Hne _]; [set_solver|]. by rewrite (proj2 (Z.eqb_neq _ _) Hne).
  - right. split; [by intros; eapply Hno|]. rewrite (proj2 (Z.eqb_neq (sched_head k - SCHED_NODE) _)); [done|].
    unfold SCHED_NODE. lia.
Qed.

(** *** How the process store changes: kernel number and address space stay, and
    state and processor change for the processes in [A] only. *)
Definition evolves (A : list Z) (P P' : gmap Z proc) : Prop :=
  ∀ q pr, P !! q = Some pr → ∃ pr', P' !! q = Some pr' ∧ kpid pr' = kpid pr ∧ p_mm pr' = p_mm pr ∧
    (q ∉ A → state pr' = state pr ∧ oncpu pr' = oncpu pr).

Lemma evolves_refl A P : evolves A P P.
Proof. intros q pr Hq. by exists pr. Qed.

Lemma evolves_trans A P1 P2 P3 : evolves A P1 P2 → evolves A P2 P3 → evolves A P1 P3.
Proof.
  intros H1 H2 q pr Hq. destruct (H1 q pr Hq) as (pr1 & Hq1 & E1 & E2 & E3).
  destruct (H2 q pr1 Hq1) as (pr2 & Hq2 & E4 & E5 & E6). exists pr2. split_and!; [done|congruence|congruence|].
  intros Hn. destruct (E3 Hn), (E6 Hn). split; congruence.
Qed.

Lemma upd_proc_ok k p f pr : procs k !! p = Some pr → upd_proc p f k = Ok (set_procs <[p := f pr]> k).
Proof. intros H. unfold upd_proc, get_proc. by rewrite H. Qed.

Lemma evolves_insert A P p pr pr' : P !! p = Some pr → kpid pr' = kpid pr → p_mm pr' = p_mm pr →
  (p ∈ A ∨ state pr' = state pr ∧ oncpu pr' = oncpu pr) → evolves A P (<[p := pr']> P).
Proof.
  intros Hp Hk Hm Ha q qr Hq. destruct (decide (q = p)) as [->|Hne].
  - rewrite Hp in Hq. injection Hq as <-. exists pr'. rewrite lookup_insert_eq. split_and!; [done..|].
    intros Hn. by destruct Ha.
  - exists qr. by rewrite lookup_insert_ne.
Qed.

(** *** Switching *)
Lemma switch_context_ok k p old pr m :
  procs k !! p = Some pr → is_Some (procs k !! old) → mms (uv k) !! p_mm pr = Some m → current_proc k = Ok old →
  0 ≤ cpuid k < Z.of_nat (length (currents k)) → length (cpu_regs k) = length (currents k) →
  length (kernelsp k) = length (currents k) → mmu_ok (length (currents k)) (mmu (uv k)) →
  ∃ k' c', switch_context p k = Ok k' ∧ evolves [] (procs k) (procs k') ∧
    (state <$> procs k' !! p) = Some (state pr) ∧ (oncpu <$> procs k' !! p) = Some (oncpu pr) ∧
    currents k' = <[Z.to_nat (cpuid k) := p]> (currents k) ∧ switched_to (cpuid k) (pgindex m) (mmu (uv k')) ∧
    cpuid k' = cpuid k ∧ mms (uv k') = mms (uv k) ∧ pl k' = pl k ∧ sched_head k' = sched_head k ∧
    idleprocs k' = idleprocs k ∧ sched_lock k' = sched_lock k ∧ my_regs k' = Ok c' ∧
    length (cpu_regs k') = length (cpu_regs k) ∧ length (kernelsp k') = length (kernelsp k) ∧
    mmu_ok (length (currents k)) (mmu (uv k')) ∧ mw (uv k') = mw (uv k) ∧ sched_intrflags k' = sched_intrflags k ∧
    kernelsp k' = <[Z.to_nat (cpuid k) := kstacktop pr]> (kernelsp k) ∧
    (p ≠ old → procs k' !! p = Some pr ∧ c' = p_context pr).
Proof.
  intros Hp [or Hold] Hm Hcur Hcpu Hl1 Hl2 Hl3. unfold switch_context, set_current_proc. rewrite Hcur. cbn [mbind res_bind].
  rewrite wr_ok by lia. cbn [mbind res_bind]. unfold get_proc at 1. cbn [set_currents procs]. rewrite Hp. cbn [of_option mbind res_bind].
  unfold get_mm. cbn [set_currents uv]. rewrite Hm. cbn [of_option mbind res_bind].
  unfold cpuid in *. cbn [set_currents uv] in *.
  destruct (wp_inv _ _ (switch_pgindex_ok _ (this_cpu (uv k)) (pgindex m) _ Hl3 Hcpu)) as ([rc c0] & -> & -> & Hok & Hto). cbn [mbind res_bind].
  cbn [set_uv uv this_cpu kernelsp set_currents]. rewrite wr_ok by lia. cbn [mbind res_bind].
  unfold switch_regs, my_regs, cpuid. cbn [set_kernelsp set_uv set_currents uv this_cpu cpu_regs].
  destruct (lookup_lt_is_Some_2 (cpu_regs k) (Z.to_nat (this_cpu (uv k)))) as [c Hc]; [lia|]. rewrite Hc. cbn [of_option mbind res_bind].
  rewrite (upd_proc_ok _ old _ or) by done. cbn [mbind res_bind]. unfold get_proc. cbn [set_procs set_kernelsp set_uv set_currents procs].
  assert (∃ pr', (<[old := set_context c or]> (procs k)) !! p = Some pr' ∧ state pr' = state pr ∧ oncpu pr' = oncpu pr)
    as (pr' & Hp' & Es & Eo).
  { destruct (decide (p = old)) as [->|Hne].
    - rewrite Hp in Hold. injection Hold as <-. exists (set_context c pr). by rewrite lookup_insert_eq.
    - exists pr. by rewrite lookup_insert_ne. }
  rewrite Hp'. cbn [of_option mbind res_bind]. eexists _, (p_context pr'). split; [done|].
  cbn [set_my_regs set_regs set_procs set_kernelsp set_uv set_currents procs currents uv mmu mms pl sched_head idleprocs
    sched_lock cpu_regs kernelsp this_cpu cpuid]. unfold cpuid.
  cbn [set_my_regs set_regs set_procs set_kernelsp set_uv set_currents uv this_cpu]. rewrite Hp'. split_and!; try done.
  - by eapply evolves_insert; try done; right.
  - simpl. by rewrite Es.
  - simpl. by rewrite Eo.
  - rewrite list_lookup_insert_eq by lia. done.
  - by rewrite length_insert.
  - by rewrite length_insert.
  - intros Hne. rewrite lookup_insert_ne, Hp in Hp' by done. by injection Hp' as <-.
Qed.

(** What the first half of the critical section does with the process that gives
    up the processor. *)
Lemma mark_ok k l old : sched_wf k l → current_proc k = Ok old →
  ∃ or idle k2, procs k !! old = Some or ∧ cpu_idleproc k = Ok idle ∧
    negb (xorb (kpid or =? 0) (old =? idle)) = true ∧
    (if state or =? PS_ONPROC then upd_proc old (set_state PS_RUNNABLE) k else Ok k) = Ok k2 ∧
    k2 = set_procs (λ _, procs k2) k ∧ evolves [old] (procs k) (procs k2) ∧
    ∀ q, q ∈ l → (∃ pr, procs k2 !! q = Some pr ∧ state pr = PS_RUNNABLE) ↔ ready k q.
Proof.
  intros Hi Hcur. pose proof (si_cpu _ _ Hi) as Hcpu. destruct (si_len _ _ Hi) as (Hli & _).
  destruct (rd_inv _ _ _ Hcur) as [_ Hc].
  destruct (lookup_lt_is_Some_2 (idleprocs k) (Z.to_nat (cpuid k))) as [idle Hidle]; [lia|].
  destruct (si_idle _ _ Hi _ _ Hidle) as (Hil & ir & Hir & Hik & _).
  assert (∃ or, procs k !! old = Some or ∧ negb (xorb (kpid or =? 0) (old =? idle)) = true) as (or & Hor & Hassert).
  { destruct (si_cur _ _ Hi _ _ Hc) as [Hx|(Hl & or & Hor & _)].
    - rewrite Hidle in Hx. injection Hx as <-. exists ir. by rewrite Hik, !Z.eqb_refl.
    - exists or. split; [done|]. destruct (si_procs _ _ Hi old Hl) as (or' & Hor' & Hk & _).
      rewrite Hor in Hor'. injection Hor' as <-. rewrite (proj2 (Z.eqb_neq _ _) Hk).
      by rewrite (proj2 (Z.eqb_neq old idle)) by set_solver. }
  exists or, idle. destruct (Z.eqb_spec (state or) PS_ONPROC) as [Es|Es].
  - rewrite (upd_proc_ok k old _ or Hor). eexists. split_and!; [done|by apply rd_lookup; [lia|]|done|done|done| |].
    + eapply evolves_insert; [done..|]. left. set_solver.
    + intros q Hq. cbn [set_procs procs]. unfold ready. destruct (decide (q = old)) as [->|Hne].
      * rewrite lookup_insert_eq. split; intros _; [exists or; split; [done|]; by right|by eexists].
      * rewrite lookup_insert_ne by done. split.
        -- intros (pr & Hpr & Hs). exists pr. split; [done|by left].
        -- intros (pr & Hpr & [Hs|[_ Hx]]); [by exists pr|]. rewrite Hcur in Hx. congruence.
  - exists k. split_and!; [done|by apply rd_lookup; [lia|]|done|done|by destruct k|apply evolves_refl|].
    intros q Hq. split.
    + intros (pr & Hpr & Hs). exists pr. split; [done|by left].
    + intros (pr & Hpr & [Hs|[Hs Hx]]); [by exists pr|]. rewrite Hcur in Hx. congruence.
Qed.

(** The invariant after the switch to a process that was ready. *)
Lemma wf_after k l k' old p : sched_wf k l → current_proc k = Ok old → p ∈ l → ready k p →
  evolves [old; p] (procs k) (procs k') → (state <$> procs k' !! p) = Some PS_ONPROC →
  (oncpu <$> procs k' !! p) = Some (cpuid k) → currents k' = <[Z.to_nat (cpuid k) := p]> (currents k) →
  cpuid k' = cpuid k → mms (uv k') = mms (uv k) → pl k' = pl k → sched_head k' = sched_head k →
  idleprocs k' = idleprocs k → length (cpu_regs k') = length (cpu_regs k) → length (kernelsp k') = length (kernelsp k) →
  mmu_ok (length (currents k)) (mmu (uv k')) →
  sched_wf k' l ∧ ∀ c, c ≠ Z.to_nat (cpuid k) → currents k !! c ≠ Some p.
Proof.
  intros Hi Hcur Hp Hready Hev Hst Hon Ec Ecpu Em Ep Eh Ei Er Ek Eg.
  destruct Hi as [H1 H2 H3 (L1 & L2 & L3 & L4) H5 H6 H7]. destruct (rd_inv _ _ _ Hcur) as [_ Hc].
  assert (∀ c, c ≠ Z.to_nat (cpuid k) → currents k !! c ≠ Some p) as Hother.
  { intros c Hne Hx. destruct (H7 c p Hx) as [Hidle|(_ & pr & Hpr & Hs & Ho)].
    - by destruct (H6 c p Hidle).
    - destruct Hready as (pr' & Hpr' & [Hs'|[_ Hcur']]); rewrite Hpr in Hpr'; injection Hpr' as <-; [unfold PS_ONPROC, PS_RUNNABLE in *; congruence|].
      rewrite Hcur in Hcur'. injection Hcur' as ->. destruct (H7 _ p Hc) as [Hidle|(_ & pr' & Hpr' & _ & Ho')].
      + by destruct (H6 _ p Hidle).
      + rewrite Hpr in Hpr'. injection Hpr' as <-. apply Hne. lia. }
  assert (∀ pr, proc_ready_to_load k' pr ↔ proc_ready_to_load k pr) as Hload by (intros pr; unfold proc_ready_to_load; by rewrite Em).
  split; [|done]. split.
  - by rewrite Ep, Eh.
  - by rewrite Eh.
  - by rewrite Ecpu, Ec, length_insert.
  - rewrite Ei, Er, Ek, Ec, length_insert. done.
  - intros q Hq. destruct (H5 q Hq) as (pr & Hpr & Hk & Hm). destruct (Hev q pr Hpr) as (pr' & Hpr' & E1 & E2 & _).
    exists pr'. split_and!; [done|congruence|]. apply Hload. unfold proc_ready_to_load. by rewrite E2.
  - rewrite Ei. intros c q Hq. destruct (H6 c q Hq) as (Hql & pr & Hpr & Hk & Hm). split; [done|].
    destruct (Hev q pr Hpr) as (pr' & Hpr' & E1 & E2 & _). exists pr'. split_and!; [done|congruence|].
    apply Hload. unfold proc_ready_to_load. by rewrite E2.
  - rewrite Ec, Ei. intros c q. destruct (decide (c = Z.to_nat (cpuid k))) as [->|Hne].
    + rewrite list_lookup_insert_eq by lia. intros [= <-]. right. split; [done|].
      destruct (procs k' !! p) as [pr|]; [|done]. exists pr. split; [done|]. simpl in *.
      injection Hst as ->. injection Hon as ->. split; [done|lia].
    + rewrite list_lookup_insert_ne by done. intros Hq. destruct (H7 c q Hq) as [?|(Hql & pr & Hpr & Hs & Ho)]; [by left|right].
      split; [done|]. destruct (Hev q pr Hpr) as (pr' & Hpr' & _ & _ & E). exists pr'. split; [done|].
      destruct E as [-> ->]; [|done]. rewrite !elem_of_cons. intros [->|[->|Hx]]; [|by apply (Hother c Hne)|by inversion Hx].
      destruct (H7 _ old Hc) as [Hidle|(_ & or & Hor & _ & Ho')]; [by destruct (H6 _ old Hidle)|].
      rewrite Hpr in Hor. injection Hor as <-. apply Hne. lia.
Qed.

Lemma evolves_weaken A B P P' : A ⊆ B → evolves A P P' → evolves B P P'.
Proof.
  intros Hs He q pr Hq. destruct (He q pr Hq) as (pr' & H1 & H2 & H3 & H4). exists pr'. split_and!; try done.
  intros Hn. apply H4. set_solver.
Qed.

Lemma wf_same k k' l : same_but_cpu k k' → sched_wf k l → sched_wf k' l.
Proof.
  intros [E1 E2 E3 E4 E5 E6 E7 E8] [H1 H2 H3 H4 H5 H6 H7]. unfold proc_ready_to_load, cpuid in *.
  split; unfold proc_ready_to_load, cpuid; rewrite ?E1, ?E2, ?E3, ?E4, ?E5, ?E6, ?E7, ?E8; done.
Qed.


(** What the critical section delivers: the process [p] that runs now. *)
Definition switched (k : kernel) (l : list Z) (k' : kernel) : Prop :=
  ∃ l1 p l2 pr m, l = l1 ++ p :: l2 ∧ ready k p ∧ (∀ q, q ∈ l2 → ¬ ready k q) ∧
    currents k' = <[Z.to_nat (cpuid k) := p]> (currents k) ∧
    (∀ c, c ≠ Z.to_nat (cpuid k) → currents k !! c ≠ Some p) ∧
    procs k' !! p = Some pr ∧ mms (uv k') !! p_mm pr = Some m ∧ switched_to (cpuid k') (pgindex m) (mmu (uv k')).

(** Marking a process as running here and switching to it. *)
Lemma run_ok k k2 l old p pr : sched_wf k l → current_proc k = Ok old → p ∈ l → ready k p →
  k2 = set_procs (λ _, procs k2) k → evolves [old] (procs k) (procs k2) → procs k2 !! p = Some pr →
  wp (k3 ← update_proc p k2; switch_context p k3) (λ k', sched_wf k' l ∧ sched_lock k' = sched_lock k ∧
    (∃ c, my_regs k' = Ok c) ∧ currents k' = <[Z.to_nat (cpuid k) := p]> (currents k) ∧
    (∀ c, c ≠ Z.to_nat (cpuid k) → currents k !! c ≠ Some p) ∧
    ∃ pr m, procs k' !! p = Some pr ∧ mms (uv k') !! p_mm pr = Some m ∧ switched_to (cpuid k') (pgindex m) (mmu (uv k'))).
Proof.
  intros Hi Hcur Hpl Hrdy Ek Hev Hp. unfold update_proc. rewrite (upd_proc_ok k2 p _ pr Hp). cbn [mbind res_bind].
  rewrite (upd_proc_ok _ p _ (set_state PS_ONPROC pr)) by (cbn [set_procs procs]; by rewrite lookup_insert_eq). cbn [mbind res_bind].
  set (pr3 := set_oncpu (cpuid (set_procs <[p:=set_state PS_ONPROC pr]> k2)) (set_state PS_ONPROC pr)).
  set (k3 := set_procs <[p := pr3]> (set_procs <[p := set_state PS_ONPROC pr]> k2)).
  assert (evolves [old; p] (procs k) (procs k3)) as Hev3.
  { eapply evolves_trans; [eapply evolves_weaken; [|exact Hev]; set_solver|]. unfold k3. cbn [set_procs procs].
    apply (evolves_trans _ _ (<[p := set_state PS_ONPROC pr]> (procs k2))).
    - eapply evolves_insert; [exact Hp|done|done|]. left. set_solver.
    - eapply evolves_insert; [apply lookup_insert_eq|done|done|]. left. set_solver. }
  destruct (si_procs _ _ Hi p Hpl) as (pr1 & Hpr1 & _ & [m Hm]).
  destruct (Hev3 p pr1 Hpr1) as (pr3' & Hpr3 & _ & Emm & _).
  assert (procs k3 !! p = Some pr3) as Hk3 by (unfold k3; cbn [set_procs procs]; by rewrite lookup_insert_eq).
  rewrite Hk3 in Hpr3. injection Hpr3 as <-.
  assert (uv k3 = uv k ∧ currents k3 = currents k ∧ cpu_regs k3 = cpu_regs k ∧ kernelsp k3 = kernelsp k ∧
    pl k3 = pl k ∧ sched_head k3 = sched_head k ∧ idleprocs k3 = idleprocs k ∧ sched_lock k3 = sched_lock k)
    as (U1 & U2 & U3 & U4 & U5 & U6 & U7 & U8) by (unfold k3; rewrite Ek; done).
  assert (cpuid k2 = cpuid k ∧ cpuid k3 = cpuid k) as [Ecpu2 Ecpu3] by (split; [rewrite Ek; done|unfold cpuid; by rewrite U1]).
  pose proof (si_cpu _ _ Hi) as Hcpu. destruct (si_len _ _ Hi) as (L1 & L2 & L3 & L4). destruct (rd_inv _ _ _ Hcur) as [_ Hc].
  assert (is_Some (procs k !! old)) as [or Hor].
  { destruct (si_cur _ _ Hi _ _ Hc) as [Hx|(_ & or & -> & _)]; [|done]. destruct (si_idle _ _ Hi _ _ Hx) as (_ & ir & -> & _). done. }
  destruct (switch_context_ok k3 p old pr3 m)
    as (k4 & c4 & -> & Hev4 & Hst4 & Hon4 & Ec4 & Hpg & Ecpu4 & Em4 & Ep4 & Eh4 & Ei4 & Elk & Hc4 & Er4 & Ek4 & Eg4 & _).
  { done. }
  { destruct (Hev3 old or Hor) as (x & -> & _). done. }
  { by rewrite U1, Emm. }
  { unfold current_proc. by rewrite U2, Ecpu3. }
  { by rewrite Ecpu3, U2. }
  1-3: rewrite ?U1, ?U2, ?U3, ?U4; done.
  cbn [wp]. destruct (wf_after k l k4 old p) as [Hi4 Hother]; try done; try congruence.
  { eapply evolves_trans; [exact Hev3|]. eapply evolves_weaken; [|exact Hev4]. set_solver. }
  { rewrite Hon4. unfold pr3. cbn [set_oncpu oncpu]. f_equal. exact Ecpu2. }
  split_and!; [done|congruence|by exists c4|congruence|done|].
  destruct (Hev4 p pr3 Hk3) as (pr4 & Hpr4 & _ & E4 & _). exists pr4, m. split_and!; [done| |by rewrite Ecpu4].
  by rewrite Em4, U1, E4, Emm.
Qed.

Lemma schedule_body_ok k l old : sched_wf k l → current_proc k = Ok old → (∃ q, q ∈ l ∧ ready k q) →
  wp (schedule_body old k) (λ k', sched_wf k' l ∧ sched_lock k' = sched_lock k ∧ (∃ c, my_regs k' = Ok c) ∧ switched k l k').
Proof.
  intros Hi Hcur (q0 & Hq0 & Hr0).
  destruct (mark_ok k l old Hi Hcur) as (or & idle & k2 & Hor & Hidle & Hassert & Hmark & Ek & Hev & Hready).
  unfold schedule_body. unfold get_proc at 1. rewrite Hor. cbn [of_option mbind res_bind].
  rewrite Hidle. cbn [mbind res_bind]. rewrite Hassert. cbn [assert_ mbind res_bind]. rewrite Hmark. cbn [mbind res_bind].
  destruct (pick_ok k2 l) as [(l1 & p & l2 & pr & -> & Hp & Hst & Hno & ->)|[Hno _]].
  { rewrite Ek. apply Hi. }
  { intros p Hp. split; [rewrite Ek; by apply (si_addr _ _ Hi)|].
    destruct (si_procs _ _ Hi p Hp) as (pr & Hpr & _). destruct (Hev p pr Hpr) as (pr' & -> & _). done. }
  2: { exfalso. apply (Hready q0 Hq0) in Hr0 as (pr & Hpr & Hs). by apply (Hno q0 pr Hq0 Hpr). }
  assert (p ∈ l1 ++ p :: l2) as Hpl by set_solver. destruct (si_addr _ _ Hi p Hpl) as [_ Hpn]. cbn [mbind res_bind].
  rewrite (proj2 (Z.eqb_neq p NULL) Hpn). assert (ready k p) as Hrdy by (apply (Hready p Hpl); by exists pr).
  eapply wp_mono; [by apply (run_ok k k2 (l1 ++ p :: l2) old p pr)|]. intros k' (H1 & H2 & H3 & H4 & H5 & pr' & m & H6 & H7 & H8).
  split_and!; try done. exists l1, p, l2, pr', m. split_and!; try done.
  intros q Hq Hrq. assert (q ∈ l1 ++ p :: l2) as Hql by set_solver.
  apply (Hready q Hql) in Hrq as (qr & Hqr & Hqs). by apply (Hno q qr Hq Hqr).
Qed.

(** C5. [schedule]: the invariant says that every processor runs its own idle
    process or a process marked as running on that processor (so that no process
    runs on two processors), in a well-formed list, and that the scheduler's lock
    is free.  When some process is ready, [schedule] preserves it and switches to
    the ready process that was added to the list first, the caller included: it
    becomes the current process of this processor, its page index is loaded with
    an empty translation buffer, and no other processor runs it. *)
Theorem schedule_correct k l old :
  sched_inv k l → current_proc k = Ok old → (∃ q, q ∈ l ∧ ready k q) →
  wp (schedule k) (λ k', sched_inv k' l ∧ switched k l k').
Proof.
  intros [Hi Hlock] Hcur Hr. unfold schedule. rewrite Hcur. cbn [mbind res_bind]. destruct (my_regs_ok k l Hi) as [c Hc].
  destruct (sched_enter_ok k c Hc Hlock) as (k1 & c1 & -> & Hs1 & Hu & Hc1 & _). cbn [mbind res_bind].
  assert (∀ q, ready k1 q ↔ ready k q) as Hrdy.
  { intros q. unfold ready, current_proc, cpuid. by rewrite (sb_procs _ _ Hs1), (sb_cur _ _ Hs1), (sb_uv _ _ Hs1). }
  assert (cpuid k1 = cpuid k) as Ecpu by (unfold cpuid; by rewrite (sb_uv _ _ Hs1)).
  apply wp_bind. eapply wp_mono; [apply (schedule_body_ok k1 l old)|].
  - by eapply wf_same.
  - unfold current_proc. by rewrite (sb_cur _ _ Hs1), Ecpu.
  - destruct Hr as (q & Hq & Hr). exists q. split; [done|]. by apply Hrdy.
  - intros k4 (Hi4 & Hl4 & [c4 Hc4] & l1 & p & l2 & pr & m & E & H1 & H2 & H3 & H4 & H5 & H6 & H7).
    destruct (sched_exit_ok k4 c4 Hc4) as (k5 & -> & Hs5 & Hl5). cbn [wp]. split.
    + split; [by eapply wf_same|]. by rewrite Hl5, Hl4.
    + exists l1, p, l2, pr, m. unfold cpuid. rewrite (sb_cur _ _ Hs5), (sb_procs _ _ Hs5), (sb_uv _ _ Hs5).
      fold (cpuid k4). fold (cpuid k). rewrite <- Ecpu, <- (sb_cur _ _ Hs1). split_and!; try done.
      * by apply Hrdy.
      * intros q Hq Hrq. apply (H2 q Hq). by apply Hrdy.
Qed.

(** With nothing to run the idle process is not reached: the list walk ends at
    the sentry, and [pick] delivers the address that a process around it would
    have, which is not NULL. *)
Theorem pick_none k l : dlist (pl k) (sched_head k) (plist l) →
  (∀ p, p ∈ l → p ≠ sched_head k ∧ ∃ pr, procs k !! p = Some pr ∧ state pr ≠ PS_RUNNABLE) →
  pick k = Ok (sched_head k - SCHED_NODE).
Proof.
  intros Hd Hl. destruct (pick_ok k l Hd) as [(l1 & p & l2 & pr & -> & Hp & Hst & _)|[_ H]]; [| |done].
  - intros p Hp. destruct (Hl p Hp) as (? & pr & -> & _). done.
  - destruct (Hl p) as (_ & pr' & Hp' & Hn); [set_solver|]. congruence.
Qed.

(** [wakeup] takes the scheduler's lock and then calls [proc_next], which takes
    it again: with the lock free on entry the processor spins forever. *)
Theorem wakeup_deadlocks b k c : my_regs k = Ok c → free_lock (sched_lock k) → wakeup b k = Err OutOfFuel.
Proof.
  intros Hc Hf. unfold wakeup, irq_save. rewrite Hc. cbn [mbind res_bind local_irq_save].
  destruct (set_my_status_ok k (Z.lxor (Z.lor (c_status c) 31) 31) c Hc) as (k' & c' & -> & _ & Hl & Hc' & _).
  cbn [mbind res_bind]. unfold spin at 1. rewrite Hl. destruct (lock_unlock _ Hf) as (lk & E & _ & Hn). rewrite E.
  cbn [of_option mbind res_bind]. unfold proc_next, sched_enter_critical, irq_save.
  change (my_regs (set_sched_lock lk k')) with (my_regs k'). rewrite Hc'. cbn [mbind res_bind local_irq_save].
  edestruct (set_my_status_ok (set_sched_lock lk k')) as (k2 & c2 & -> & _ & Hl2 & _); [exact Hc'|].
  cbn [mbind res_bind]. unfold spin. cbn [set_intrflags sched_lock]. rewrite Hl2. cbn [set_sched_lock sched_lock].
  rewrite free_not_free; [done|done|]. by eapply try_lock_word.
Qed.

(** ** Witness: two processors; processor 0 runs the process at 0x1000, the one at
    0x2000 is runnable, processor 1 is idle. *)
Definition demo_proc (id st on : Z) : proc :=
  Proc 0 0 id id id st 0 0 0 on 0 0 0x80103000 zero_context 0 0 [] 0 0 0 0 (Family 0 0 0 0) 0.
Definition demo_sched : kernel :=
  Kernel (UvmState {[0x80103000 := Mm 0 0x80101000]} ∅ ∅ ∅ 0x80103000 None (CpuMmu [0; 0] [demo_cp0; demo_cp0]) 0 mapped_w)
    (<[0x1000 := demo_proc 1 PS_ONPROC 0]> (<[0x2000 := demo_proc 2 PS_RUNNABLE (-1)]>
      (<[0x3000 := demo_proc 0 PS_RUNNABLE (-1)]> {[0x4000 := demo_proc 0 PS_ONPROC 1]})))
    (<[0x9000 := Link 0x21f8 0x11f8]> (<[0x21f8 := Link 0x11f8 0x9000]> {[0x11f8 := Link 0x9000 0x21f8]}))
    [] 0 0 0 0x9000 [0x1000; 0x4000] [0x3000; 0x4000] [zero_context; zero_context] [0; 0].

Lemma demo_sched_wf : sched_wf demo_sched [0x2000; 0x1000].
Proof.
  split.
  - split; [by vm_compute|]. apply (bool_decide_unpack _). by vm_compute.
  - intros p [->|[->|Hp]%elem_of_cons]%elem_of_cons; [done|done|by inversion Hp].
  - by vm_compute.
  - split_and!; [done..|]. split; [done|done|]. by repeat constructor.
  - intros p [->|[->|Hp]%elem_of_cons]%elem_of_cons; [| |by inversion Hp]; (eexists; split; [reflexivity|by split; [|eexists]]).
  - intros [|[|c]] p [= <-]; (split; [by apply (bool_decide_unpack _)|eexists; split; [reflexivity|by split; [|eexists]]]).
  - intros [|[|c]] p [= <-]; [right|by left]. split; [by apply (bool_decide_unpack _)|]. eexists. split; [reflexivity|]. done.
Qed.

Lemma schedule_correct_witness :
  wp (schedule demo_sched) (λ k', sched_inv k' [0x2000; 0x1000]).
Proof.
  eapply wp_mono; [apply (schedule_correct demo_sched [0x2000; 0x1000] 0x1000)|].
  - split; [apply demo_sched_wf|]. by exists 0.
  - reflexivity.
  - exists 0x2000. split; [left|]. eexists. split; [reflexivity|by left].
  - by intros k' [H _].
Defined.
