(* ===== verification/EarlyKmmap.v ===== *)
(** * Early mappings and boot-time handler queues

    kern/mm/kmmap/early_kmmap.c, kern/mm/jump.c, kern/mm/mmu.c and the hooks of
    kern/arch/mips/arch_mmu.c: before the memory allocators work, mappings are
    recorded in a queue of ten entries that is applied when the page index is
    built.  [queue] below is the part of the array in use, [queue_size] its
    length. *)
From S2P Require Import Prelude Util.

Definition EARLY_MAPPING_QUEUE_LENGTH : Z := 10.
Definition USER_BASE : Z := 0.

Inductive mapping_type := EARLY_MAPPING_MEMORY | EARLY_MAPPING_KMMAP | EARLY_MAPPING_TEMP | EARLY_MAPPING_OTHER.
Record early_mapping := EarlyMapping { m_paddr : Z; m_vaddr : Z; m_size : Z; m_type : mapping_type }.
Record kmmap := Kmmap { queue : list early_mapping; mem_top : Z; kmmap_top : Z; umem_top : Z }.

Definition queue_size (s : kmmap) : Z := Z.of_nat (length (queue s)).

Definition early_mapping_clear (s : kmmap) : kmmap := Kmmap [] KERN_BASE KMMAP_BASE USER_BASE.

(** kern/arch/mips/arch_mmu.c *)
Definition early_mapping_valid (entry : early_mapping) : bool := true.

Definition early_mapping_add (entry : early_mapping) (s : kmmap) : res (Z * kmmap) :=
  assert_ (queue_size s <=? EARLY_MAPPING_QUEUE_LENGTH);;
  if queue_size s =? EARLY_MAPPING_QUEUE_LENGTH then Ok (- ENOMEM, s)
  else if negb (early_mapping_valid entry) then Ok (- EINVAL, s)
  else if existsb (λ e, OVERLAP (m_vaddr entry) (m_size entry) (m_vaddr e) (m_size e)) (queue s) then Ok (- EINVAL, s)
  else Ok (0, Kmmap (queue s ++ [entry]) (mem_top s) (kmmap_top s) (umem_top s)).

Definition early_mapping_add_memory (base sz : Z) (s : kmmap) : res (Z * kmmap) :=
  if KMMAP_BASE <=? mem_top s then Ok (0, s)
  else
    let sz := if w32 (KMMAP_BASE - mem_top s) <? sz then w32 (KMMAP_BASE - mem_top s) else sz in
    '(r, s) ← early_mapping_add (EarlyMapping base (mem_top s) sz EARLY_MAPPING_MEMORY) s;
    if r <? 0 then Ok (0, s)
    else Ok (sz, Kmmap (queue s) (w32 (mem_top s + sz)) (kmmap_top s) (umem_top s)).

Definition early_mapping_add_kmmap (base sz : Z) (s : kmmap) : res (Z * kmmap) :=
  if RESERVED_BASE <=? kmmap_top s then Ok (NULL, s)
  else if w32 (RESERVED_BASE - kmmap_top s) <? sz then Ok (NULL, s)
  else
    let entry := EarlyMapping base (kmmap_top s) sz EARLY_MAPPING_KMMAP in
    '(r, s) ← early_mapping_add entry s;
    if r <? 0 then Ok (NULL, s)
    else Ok (m_vaddr entry, Kmmap (queue s) (mem_top s) (w32 (kmmap_top s + sz)) (umem_top s)).

Definition early_mapping_add_umem (base sz : Z) (s : kmmap) : res (Z * kmmap) :=
  if USERTOP <=? umem_top s then Ok (0, s)
  else
    let sz := if w32 (KERN_BASE - umem_top s) <? sz then w32 (KERN_BASE - umem_top s) else sz in
    '(r, s) ← early_mapping_add (EarlyMapping base (umem_top s) sz EARLY_MAPPING_MEMORY) s;
    if r <? 0 then Ok (0, s)
    else Ok (sz, Kmmap (queue s) (mem_top s) (kmmap_top s) (w32 (umem_top s + sz))).

Definition early_mapping_add_devspace (base sz : Z) (s : kmmap) : res (Z * kmmap) :=
  '(r, s) ← early_mapping_add (EarlyMapping base (w32 base) sz EARLY_MAPPING_KMMAP) s;
  if r <? 0 then Ok (0, s) else Ok (sz, s).

(** An entry pointer is its index in the array, NULL is [None]. *)
Definition early_mapping_next (base : option Z) (s : kmmap) : option Z :=
  let next := match base with None => 0 | Some i => i + 1 end in
  let tmp := next in
  if (tmp <? 0) || (queue_size s <=? tmp) then None else Some next.

(** ** kern/mm/mmu.c

    [page_index_init] with the architecture's [page_index_clear] and
    [page_index_early_map]; on MIPS both do nothing. *)
Section page_index.
Context {I : Type} (page_index_clear : I → I) (page_index_early_map : I → Z → Z → Z → Z * I).

Definition page_index_init (s : kmmap) (boot_page_index : I) : res (Z * I) :=
  loop (S (length (queue s))) (λ '(mapping, idx),
    match mapping with
    | None => Ok (inr (0, idx))
    | Some i =>
      e ← of_option BadPtr (queue s !! Z.to_nat i);
      let '(ret, idx) := page_index_early_map idx (m_paddr e) (m_vaddr e) (m_size e) in
      if ret =? EOF_ then Ok (inr (EOF_, idx)) else Ok (inl (early_mapping_next (Some i) s, idx))
    end) (early_mapping_next None s, page_index_clear boot_page_index).
End page_index.

Definition mips_page_index_clear (i : Z) : Z := i.
Definition mips_page_index_early_map (i paddr vaddr len : Z) : Z * Z := (0, i).

(** [mymemset(st, val, size)]: [for (a = st; a <= st + size; a++) *a = val]. *)
Definition mymemset (st val sz : Z) (m : Z → Z) : res (Z → Z) :=
  loop (S (S (Z.to_nat sz))) (λ '(a, m),
    if a <=? w32 (st + sz) then Ok (inl (w32 (a + 1), (λ x, if x =? a then w8 val else m x)))
    else Ok (inr m)) (st, m).

(** *** Handler queues: the same code twice, in kern/mm/mmu.c for the handlers
    that run after the MMU is started and in kern/mm/jump.c for those after the
    jump, whose [apply] loop has an empty body. *)
Section handlers.
Context {F : Type}.
Definition HANDLER_QUEUE_LENGTH : Z := 10.
Definition mmu_handlers_clear (q : list F) : list F := [].
Definition mmu_handlers_add (entry : F) (q : list F) : res (Z * list F) :=
  if HANDLER_QUEUE_LENGTH <? Z.of_nat (length q) then Err Panicked
  else if Z.of_nat (length q) =? HANDLER_QUEUE_LENGTH then Ok (EOF_, q)
  else Ok (0, q ++ [entry]).
Definition mmu_handlers_apply {S} (call : F → S → res S) (q : list F) (s : S) : res S :=
  foldl (λ acc f, s ← acc; call f s) (Ok s) q.
Definition jump_handlers_clear (q : list F) : list F := [].
Definition jump_handlers_add (entry : F) (q : list F) : res (Z * list F) :=
  if HANDLER_QUEUE_LENGTH <? Z.of_nat (length q) then Err Panicked
  else if Z.of_nat (length q) =? HANDLER_QUEUE_LENGTH then Ok (EOF_, q)
  else Ok (0, q ++ [entry]).
Definition jump_handlers_apply {S} (q : list F) (s : S) : S := s.
End handlers.

(** ** Requests and the invariant *)
Inductive request := Memory (base sz : Z) | KmmapSpace (base sz : Z) | Umem (base sz : Z).

Definition serve (r : request) (s : kmmap) : res (Z * kmmap) :=
  match r with
  | Memory base sz => early_mapping_add_memory base sz s
  | KmmapSpace base sz => early_mapping_add_kmmap base sz s
  | Umem base sz => early_mapping_add_umem base sz s
  end.
Definition request_size (r : request) : Z := match r with Memory _ sz | KmmapSpace _ sz | Umem _ sz => sz end.

(** The answers to a sequence of requests. *)
Fixpoint serve_all (rs : list request) (s : kmmap) : res (list Z * kmmap) :=
  match rs with
  | [] => Ok ([], s)
  | r :: rs => '(a, s) ← serve r s; '(l, s) ← serve_all rs s; Ok (a :: l, s)
  end.

Definition e_end (e : early_mapping) : Z := m_vaddr e + m_size e.
Definition within (lo hi : Z) (e : early_mapping) : Prop := lo ≤ m_vaddr e ∧ 0 < m_size e ∧ e_end e ≤ hi.
Definition disjoint_maps (e f : early_mapping) : Prop := e_end e ≤ m_vaddr f ∨ e_end f ≤ m_vaddr e.

(** ** The reference: a list of mappings and nothing else

    [used lo hi q] is how much of the addresses from [lo] to [hi] the mappings of
    [q] take.  A request is granted the first addresses of its part that are not
    taken, as many as it asks for (user and kernel memory: as many as there are),
    unless ten mappings are recorded. *)
Fixpoint used (lo hi : Z) (q : list early_mapping) : Z :=
  match q with [] => 0 | e :: q => (if (lo <=? m_vaddr e) && (m_vaddr e <? hi) then m_size e else 0) + used lo hi q end.
Definition mem_start (q : list early_mapping) : Z := KERN_BASE + used KERN_BASE KMMAP_BASE q.
Definition kmmap_start (q : list early_mapping) : Z := KMMAP_BASE + used KMMAP_BASE RESERVED_BASE q.
Definition umem_start (q : list early_mapping) : Z := USER_BASE + used USER_BASE KERN_BASE q.

Definition grant (r : request) (q : list early_mapping) : option early_mapping :=
  if EARLY_MAPPING_QUEUE_LENGTH <=? Z.of_nat (length q) then None
  else match r with
       | Memory base sz =>
         if mem_start q <? KMMAP_BASE
         then Some (EarlyMapping base (mem_start q) (Z.min sz (KMMAP_BASE - mem_start q)) EARLY_MAPPING_MEMORY) else None
       | KmmapSpace base sz =>
         if kmmap_start q + sz <=? RESERVED_BASE
         then Some (EarlyMapping base (kmmap_start q) sz EARLY_MAPPING_KMMAP) else None
       | Umem base sz =>
         if umem_start q <? USERTOP
         then Some (EarlyMapping base (umem_start q) (Z.min sz (KERN_BASE - umem_start q)) EARLY_MAPPING_MEMORY) else None
       end.
(** The caller is told how much was mapped, or where (kmmap). *)
Definition reply (r : request) (g : option early_mapping) : Z :=
  match g with
  | None => 0
  | Some e => match r with KmmapSpace _ _ => m_vaddr e | _ => m_size e end
  end.
(** The replies to a sequence of requests, and the mappings in the end. *)
Fixpoint record (rs : list request) (q : list early_mapping) : list Z * list early_mapping :=
  match rs with
  | [] => ([], q)
  | r :: rs => let g := grant r q in let '(l, q') := record rs (q ++ option_list g) in (reply r g :: l, q')
  end.

(** The code's state for a list of mappings. *)
Definition state_of (q : list early_mapping) : kmmap := Kmmap q (mem_start q) (kmmap_start q) (umem_start q).

(** Every mapping lies in the part of its kind, and no two share an address. *)
Definition placed (q : list early_mapping) (e : early_mapping) : Prop :=
  (m_type e = EARLY_MAPPING_MEMORY ∧ within KERN_BASE (mem_start q) e) ∨
  (m_type e = EARLY_MAPPING_KMMAP ∧ within KMMAP_BASE (kmmap_start q) e) ∨
  (m_type e = EARLY_MAPPING_MEMORY ∧ within USER_BASE (umem_start q) e).
Record em_inv (q : list early_mapping) : Prop := EmInv {
  em_len : Z.of_nat (length q) ≤ EARLY_MAPPING_QUEUE_LENGTH;
  em_mem : mem_start q ≤ KMMAP_BASE;
  em_kmmap : kmmap_start q ≤ RESERVED_BASE;
  em_umem : umem_start q ≤ KERN_BASE;
  em_entries : Forall (placed q) q;
  em_disjoint i j e f : q !! i = Some e → q !! j = Some f → i ≠ j → disjoint_maps e f }.

Ltac em_unfold := unfold placed, within, disjoint_maps, e_end, KERN_BASE, KMMAP_BASE, RESERVED_BASE, USER_BASE, USERTOP in *.

Lemma used_nonneg lo hi q : Forall (λ e, 0 < m_size e) q → 0 ≤ used lo hi q.
Proof. induction 1 as [|e q He _ IH]; cbn [used]; [done|]. case_match; lia. Qed.
Lemma used_snoc lo hi q e :
  used lo hi (q ++ [e]) = used lo hi q + (if (lo <=? m_vaddr e) && (m_vaddr e <? hi) then m_size e else 0).
Proof. induction q as [|f q IH]; cbn [used app]; [lia|]. rewrite IH. lia. Qed.

Lemma Z_min_ltb a b : (if b <? a then b else a) = Z.min a b.
Proof. zcases; lia. Qed.

(** The tops never lie below the parts they move through. *)
Lemma em_starts q : em_inv q → KERN_BASE ≤ mem_start q ∧ KMMAP_BASE ≤ kmmap_start q ∧ USER_BASE ≤ umem_start q.
Proof.
  intros Hi. assert (Forall (λ e, 0 < m_size e) q) as Hq.
  { eapply Forall_impl; [apply (em_entries q Hi)|]. intros e. em_unfold. lia. }
  unfold mem_start, kmmap_start, umem_start.
  pose proof (used_nonneg KERN_BASE KMMAP_BASE q Hq). pose proof (used_nonneg KMMAP_BASE RESERVED_BASE q Hq).
  pose proof (used_nonneg USER_BASE KERN_BASE q Hq). lia.
Qed.

(** Adding an entry that lies apart from the others fails only when the queue is
    full. *)
Lemma add_ok entry q mt kt ut : em_inv q → 0 ≤ m_vaddr entry → 0 < m_size entry → e_end entry < 2 ^ 32 →
  Forall (disjoint_maps entry) q →
  early_mapping_add entry (Kmmap q mt kt ut) =
    Ok (if EARLY_MAPPING_QUEUE_LENGTH <=? Z.of_nat (length q) then (- ENOMEM, Kmmap q mt kt ut)
        else (0, Kmmap (q ++ [entry]) mt kt ut)).
Proof.
  intros Hi H0 H1 H2 Hd. unfold early_mapping_add, queue_size. cbn [queue mem_top kmmap_top umem_top].
  pose proof (em_len q Hi) as Hl. rewrite (proj2 (Z.leb_le _ _) Hl). cbn [assert_ mbind res_bind].
  destruct (Z.leb_spec EARLY_MAPPING_QUEUE_LENGTH (Z.of_nat (length q)));
    [by rewrite (proj2 (Z.eqb_eq _ _)) by lia|rewrite (proj2 (Z.eqb_neq _ _)) by lia]. cbn [early_mapping_valid negb].
  assert (existsb (λ e, OVERLAP (m_vaddr entry) (m_size entry) (m_vaddr e) (m_size e)) q = false) as ->; [|done].
  apply not_true_iff_false. rewrite existsb_exists. intros (e & He%list_elem_of_In & Ho).
  rewrite Forall_forall in Hd. specialize (Hd e He). pose proof (em_entries q Hi) as He'. rewrite Forall_forall in He'.
  specialize (He' e He). pose proof (em_mem q Hi). pose proof (em_kmmap q Hi). pose proof (em_umem q Hi).
  apply OVERLAP_spec in Ho; em_unfold; lia.
Qed.

(** A granted mapping lies at the start of the free addresses of its part: apart
    from all others, and after it the invariant holds. *)
Definition fits_part (q : list early_mapping) (e : early_mapping) : Prop :=
  (m_type e = EARLY_MAPPING_MEMORY ∧ m_vaddr e = mem_start q ∧ 0 < m_size e ∧ e_end e ≤ KMMAP_BASE) ∨
  (m_type e = EARLY_MAPPING_KMMAP ∧ m_vaddr e = kmmap_start q ∧ 0 < m_size e ∧ e_end e ≤ RESERVED_BASE) ∨
  (m_type e = EARLY_MAPPING_MEMORY ∧ m_vaddr e = umem_start q ∧ 0 < m_size e ∧ e_end e ≤ KERN_BASE).

Lemma grant_fits r q e : 0 < request_size r → grant r q = Some e → fits_part q e.
Proof.
  unfold grant, fits_part, e_end. intros Hs Hg. destruct (EARLY_MAPPING_QUEUE_LENGTH <=? _); [done|].
  destruct r; cbn [request_size] in Hs; revert Hg; zcases; try done; intros [= <-]; cbn [m_type m_vaddr m_size].
  - left. split; [done|]. em_unfold. lia.
  - right; left. split; [done|]. em_unfold. lia.
  - right; right. split; [done|]. em_unfold. lia.
Qed.

Lemma fits_apart q e : em_inv q → fits_part q e → Forall (disjoint_maps e) q.
Proof.
  intros Hi He. pose proof (em_starts q Hi). pose proof (em_mem q Hi). pose proof (em_kmmap q Hi). pose proof (em_umem q Hi).
  eapply Forall_impl; [apply (em_entries q Hi)|]. intros f Hf. unfold fits_part in He. em_unfold. lia.
Qed.

(** The free addresses after a mapping. *)
Lemma starts_snoc q e : em_inv q → fits_part q e →
  mem_start (q ++ [e]) = (if decide (m_vaddr e = mem_start q ∧ e_end e ≤ KMMAP_BASE) then e_end e else mem_start q) ∧
  kmmap_start (q ++ [e]) = (if decide (m_vaddr e = kmmap_start q ∧ e_end e ≤ RESERVED_BASE) then e_end e else kmmap_start q) ∧
  umem_start (q ++ [e]) = (if decide (m_vaddr e = umem_start q ∧ e_end e ≤ KERN_BASE) then e_end e else umem_start q).
Proof.
  intros Hi He. pose proof (em_starts q Hi) as Hs. pose proof (em_mem q Hi). pose proof (em_kmmap q Hi). pose proof (em_umem q Hi).
  unfold fits_part in He. unfold mem_start, kmmap_start, umem_start in *. rewrite !used_snoc.
  split_and!; case_decide; zcases; cbn [andb]; em_unfold; lia.
Qed.

Lemma inv_push q e : em_inv q → fits_part q e → Z.of_nat (length q) < EARLY_MAPPING_QUEUE_LENGTH → em_inv (q ++ [e]).
Proof.
  intros Hi He Hl. pose proof (fits_apart q e Hi He) as Hd. destruct (starts_snoc q e Hi He) as (E1 & E2 & E3).
  pose proof (em_starts q Hi) as Hst. destruct Hi as [_ H2 H3 H4 H5 H6]. unfold fits_part in He. split.
  - rewrite length_app. simpl. lia.
  - rewrite E1. clear E1 E2 E3. case_decide; em_unfold; lia.
  - rewrite E2. clear E1 E2 E3. case_decide; em_unfold; lia.
  - rewrite E3. clear E1 E2 E3. case_decide; em_unfold; lia.
  - unfold placed. rewrite E1, E2, E3. clear E1 E2 E3. apply Forall_app. split; [eapply Forall_impl; [exact H5|]; intros f Hf|apply Forall_singleton; rename He into Hf];
      destruct Hf as [[T W]|[[T W]|[T W]]]; [left|right; left|right; right|left|right; left|right; right];
      (split; [exact T|]); em_unfold; repeat case_decide; lia.
  - rewrite Forall_forall in Hd. intros i j f g Hi Hj Hne.
    assert (∀ i f, (q ++ [e]) !! i = Some f → q !! i = Some f ∨ i = length q ∧ f = e) as Hlook.
    { intros i' f' Hx. apply lookup_app_Some in Hx as [?|[? Hx]]; [by left|].
      apply list_lookup_singleton_Some in Hx as [? ->]. right. split; [lia|done]. }
    destruct (Hlook i f Hi) as [Hi'|[-> ->]], (Hlook j g Hj) as [Hj'|[-> ->]].
    + by eapply H6.
    + assert (disjoint_maps e f) by (apply Hd; by eapply list_elem_of_lookup_2). em_unfold. lia.
    + apply Hd. by eapply list_elem_of_lookup_2.
    + done.
Qed.

(** What the three functions do with an entry that fits: [g] moves the top of
    its part. *)
Lemma push_ok q e a (g : kmmap → kmmap) : em_inv q → fits_part q e →
  (∀ q', g (Kmmap q' (mem_start q) (kmmap_start q) (umem_start q)) =
     Kmmap q' (mem_start (q ++ [e])) (kmmap_start (q ++ [e])) (umem_start (q ++ [e]))) →
  ('(r, s) ← early_mapping_add e (state_of q); if r <? 0 then Ok (0, s) else Ok (a, g s)) =
    Ok (if EARLY_MAPPING_QUEUE_LENGTH <=? Z.of_nat (length q) then (0, state_of q) else (a, state_of (q ++ [e]))).
Proof.
  intros Hi He Hg. pose proof (em_starts q Hi). pose proof (em_mem q Hi). pose proof (em_kmmap q Hi). pose proof (em_umem q Hi).
  pose proof (fits_apart q e Hi He). unfold state_of. unfold fits_part in He.
  rewrite add_ok by (try done; em_unfold; lia). cbn [mbind res_bind].
  destruct (EARLY_MAPPING_QUEUE_LENGTH <=? Z.of_nat (length q)); cbn [Z.ltb Z.compare ENOMEM Z.opp]; [done|]. by rewrite Hg.
Qed.

(** The top of one part moves by the size of the entry, the others stay. *)
Ltac move_top q e Hi He :=
  intros q'; cbn [queue mem_top kmmap_top umem_top]; destruct (starts_snoc q e Hi He) as (-> & -> & ->);
  rewrite wrap_small by (unfold fits; em_unfold; lia); repeat case_decide; try done; em_unfold; cbn in *; lia.

Lemma serve_memory base sz q : em_inv q → 0 < sz < 2 ^ 32 →
  early_mapping_add_memory base sz (state_of q) = Ok (reply (Memory base sz) (grant (Memory base sz) q), state_of (q ++ option_list (grant (Memory base sz) q))).
Proof.
  intros Hi Hs. pose proof (em_starts q Hi) as (S1 & S2 & S3). pose proof (em_mem q Hi) as H1. unfold early_mapping_add_memory, grant.
  cbn [state_of mem_top kmmap_top umem_top]. destruct (Z.ltb_spec (mem_start q) KMMAP_BASE) as [Hlt|Hge].
  2: { rewrite (proj2 (Z.leb_le KMMAP_BASE (mem_start q))) by lia. destruct (EARLY_MAPPING_QUEUE_LENGTH <=? _); by rewrite app_nil_r. }
  rewrite (proj2 (Z.leb_gt KMMAP_BASE (mem_start q))), (wrap_small 32) by (unfold fits; em_unfold; lia).
  rewrite Z_min_ltb. set (e := EarlyMapping _ _ _ _). assert (fits_part q e) as He by (left; split; [done|]; em_unfold; cbn; lia).
  fold (state_of q). rewrite (push_ok q e _ (λ s', Kmmap (queue s') (w32 (mem_top s' + Z.min sz (KMMAP_BASE - mem_start q))) (kmmap_top s') (umem_top s')));
    [|done|done|move_top q e Hi He].
  by destruct (EARLY_MAPPING_QUEUE_LENGTH <=? _); rewrite ?app_nil_r.
Qed.

Lemma serve_kmmap base sz q : em_inv q → 0 < sz < 2 ^ 32 →
  early_mapping_add_kmmap base sz (state_of q) = Ok (reply (KmmapSpace base sz) (grant (KmmapSpace base sz) q), state_of (q ++ option_list (grant (KmmapSpace base sz) q))).
Proof.
  intros Hi Hs. pose proof (em_starts q Hi) as (S1 & S2 & S3). pose proof (em_kmmap q Hi) as H2. unfold early_mapping_add_kmmap, grant.
  cbn [state_of mem_top kmmap_top umem_top]. rewrite (wrap_small 32 (RESERVED_BASE - _)) by (unfold fits; em_unfold; lia).
  destruct (Z.leb_spec (kmmap_start q + sz) RESERVED_BASE) as [Hle|Hgt].
  2: { rewrite (proj2 (Z.ltb_lt _ sz)) by lia. destruct (RESERVED_BASE <=? _), (EARLY_MAPPING_QUEUE_LENGTH <=? _); by rewrite app_nil_r. }
  rewrite (proj2 (Z.leb_gt RESERVED_BASE _)), (proj2 (Z.ltb_ge _ sz)) by lia.
  set (e := EarlyMapping _ _ _ _). assert (fits_part q e) as He by (right; left; split; [done|]; em_unfold; cbn; lia).
  fold (state_of q). rewrite (push_ok q e _ (λ s', Kmmap (queue s') (mem_top s') (w32 (kmmap_top s' + sz)) (umem_top s')));
    [|done|done|move_top q e Hi He].
  by destruct (EARLY_MAPPING_QUEUE_LENGTH <=? _); rewrite ?app_nil_r.
Qed.

Lemma serve_umem base sz q : em_inv q → 0 < sz < 2 ^ 32 →
  early_mapping_add_umem base sz (state_of q) = Ok (reply (Umem base sz) (grant (Umem base sz) q), state_of (q ++ option_list (grant (Umem base sz) q))).
Proof.
  intros Hi Hs. pose proof (em_starts q Hi) as (S1 & S2 & S3). pose proof (em_umem q Hi) as H3. unfold early_mapping_add_umem, grant.
  cbn [state_of mem_top kmmap_top umem_top]. destruct (Z.ltb_spec (umem_start q) USERTOP) as [Hlt|Hge].
  2: { rewrite (proj2 (Z.leb_le USERTOP (umem_start q))) by lia. destruct (EARLY_MAPPING_QUEUE_LENGTH <=? _); by rewrite app_nil_r. }
  rewrite (proj2 (Z.leb_gt USERTOP (umem_start q))), (wrap_small 32) by (unfold fits; em_unfold; lia).
  rewrite Z_min_ltb. set (e := EarlyMapping _ _ _ _). assert (fits_part q e) as He by (right; right; split; [done|]; em_unfold; cbn; lia).
  fold (state_of q). rewrite (push_ok q e _ (λ s', Kmmap (queue s') (mem_top s') (kmmap_top s') (w32 (umem_top s' + Z.min sz (KERN_BASE - umem_start q)))));
    [|done|done|move_top q e Hi He].
  by destruct (EARLY_MAPPING_QUEUE_LENGTH <=? _); rewrite ?app_nil_r.
Qed.

(** One request: the code answers and records what the reference says. *)
Lemma serve_ok r q : em_inv q → 0 < request_size r < 2 ^ 32 →
  serve r (state_of q) = Ok (reply r (grant r q), state_of (q ++ option_list (grant r q))) ∧ em_inv (q ++ option_list (grant r q)).
Proof.
  intros Hi Hs. split; [destruct r; by eauto using serve_memory, serve_kmmap, serve_umem|].
  destruct (grant r q) as [e|] eqn:Hg; cbn [option_list]; [|by rewrite app_nil_r].
  apply inv_push; [done|eapply grant_fits; [|done]; lia|]. revert Hg. unfold grant.
  destruct (Z.leb_spec EARLY_MAPPING_QUEUE_LENGTH (Z.of_nat (length q))); [done|lia].
Qed.

Lemma serve_all_ok rs q : em_inv q → Forall (λ r, 0 < request_size r < 2 ^ 32) rs →
  serve_all rs (state_of q) = Ok ((record rs q).1, state_of (record rs q).2) ∧ em_inv (record rs q).2.
Proof.
  intros Hi Hrs. revert q Hi. induction Hrs as [|r rs Hr _ IH]; intros q Hi; [done|]. cbn [serve_all record].
  destruct (serve_ok r q Hi Hr) as [-> Hi']. cbn [mbind res_bind]. destruct (IH _ Hi') as [-> Hi2].
  by destruct (record rs (q ++ option_list (grant r q))).
Qed.

Lemma em_inv_nil : em_inv [].
Proof. split; [done|done|done|done|constructor|done]. Qed.

(** The iterator visits the entries in the order they were added. *)
Lemma next_spec s i : early_mapping_next (Some i) s = (if (0 <=? i + 1) && (i + 1 <? queue_size s) then Some (i + 1) else None).
Proof. unfold early_mapping_next. zcases; simpl; try done; lia. Qed.

(** The rule for [page_index_init]: what holds after the first [k] mappings. *)
Lemma page_index_init_rule {I} clear (map : I → Z → Z → Z → Z * I) s idx (Inv : nat → I → Prop) :
  Inv 0%nat (clear idx) →
  (∀ k e i, queue s !! k = Some e → Inv k i →
     (map i (m_paddr e) (m_vaddr e) (m_size e)).1 ≠ EOF_ ∧ Inv (S k) (map i (m_paddr e) (m_vaddr e) (m_size e)).2) →
  wp (page_index_init clear map s idx) (λ '(r, i), r = 0 ∧ Inv (length (queue s)) i).
Proof.
  intros H0 Hstep. unfold page_index_init.
  apply (wp_loop _ (λ '(p, i), ∃ k, (k ≤ length (queue s))%nat ∧
    p = (if Z.of_nat k <? queue_size s then Some (Z.of_nat k) else None) ∧ Inv k i)
    (λ '(p, _), match p with Some k => (length (queue s) - Z.to_nat k)%nat | None => 0%nat end)).
  - intros [p i] (k & Hk & -> & Hi). destruct (Z.ltb_spec (Z.of_nat k) (queue_size s)) as [Hlt|Hge].
    + unfold queue_size in Hlt. destruct (lookup_lt_is_Some_2 (queue s) k) as [e He]; [lia|].
      rewrite Nat2Z.id, He. cbn [of_option mbind res_bind]. destruct (Hstep k e i He Hi) as [Hr Hi'].
      destruct (map i (m_paddr e) (m_vaddr e) (m_size e)) as [r i']. cbn [fst snd] in *.
      rewrite (proj2 (Z.eqb_neq r EOF_)) by done. apply wp_ok. split.
      * exists (S k). split; [lia|]. split; [|done].
        rewrite next_spec, (proj2 (Z.leb_le _ _)) by lia. cbn [andb]. replace (Z.of_nat (S k)) with (Z.of_nat k + 1) by lia. done.
      * rewrite next_spec. unfold queue_size. zcases; cbn [andb]; lia.
    + apply wp_ok. unfold queue_size in Hge. split; [done|]. by replace (length (queue s)) with k by lia.
  - exists 0%nat. split; [lia|]. split; [|done]. unfold early_mapping_next. zcases; simpl; try done; lia.
  - unfold early_mapping_next. case_match; lia.
Qed.

Lemma page_index_init_ok {I} clear (map : I → Z → Z → Z → I) s idx :
  page_index_init clear (λ i pa va sz, (0, map i pa va sz)) s idx =
    Ok (0, foldl (λ i e, map i (m_paddr e) (m_vaddr e) (m_size e)) (clear idx) (queue s)).
Proof.
  apply wp_eq. eapply wp_mono.
  - apply (page_index_init_rule _ _ _ _ (λ k i,
      i = foldl (λ i e, map i (m_paddr e) (m_vaddr e) (m_size e)) (clear idx) (take k (queue s)))); [done|].
    intros k e i He ->. split; [done|]. cbn [snd]. rewrite (take_S_r _ _ e) by done. by rewrite foldl_app.
  - intros [r i] [-> ->]. by rewrite take_ge.
Qed.

(** C24. Early mappings: whatever sequence of memory, kmmap and user-memory
    requests (of sizes from 1 to 2^32 - 1) is made after the queue is cleared, no
    assertion fails, and the answers and the queue are exactly those of the
    reference [record], whose only state is the list of mappings: each request in
    turn is given the first untaken addresses of its part (kernel memory from
    KERN_BASE to KMMAP_BASE and user memory up to KERN_BASE as much as is left of
    them, the second only below USERTOP; kmmap up to RESERVED_BASE all or nothing)
    and recorded with its physical base, address, size and type, unless ten
    mappings are recorded; the answer is the size mapped, the address for kmmap, 0
    or NULL when nothing was recorded.  At most ten mappings are recorded, each in
    the part of its type, and no two share a virtual address.  Building the page
    index applies all of them, in the order of the requests. *)
Theorem early_mappings_correct rs s0 :
  Forall (λ r, 0 < request_size r < 2 ^ 32) rs →
  let '(answers, q) := record rs [] in
  serve_all rs (early_mapping_clear s0) = Ok (answers, state_of q) ∧ em_inv q ∧
  ∀ I clear (map : I → Z → Z → Z → I) idx,
    page_index_init clear (λ i pa va sz, (0, map i pa va sz)) (state_of q) idx =
      Ok (0, foldl (λ i e, map i (m_paddr e) (m_vaddr e) (m_size e)) (clear idx) q).
Proof.
  intros Hrs. destruct (serve_all_ok rs [] em_inv_nil Hrs) as [Hs Hi]. destruct (record rs []) as [l q].
  split_and!; [exact Hs|exact Hi|]. intros I clear map idx. apply (page_index_init_ok clear map (state_of q)).
Qed.

Lemma early_mappings_correct_witness :
  let rs := [Memory 0 0x10000000; KmmapSpace 0x1fd00000 0x1000; Memory 0x90000000 0x70000000; Memory 0 1] in
  let q := [EarlyMapping 0 0x80000000 0x10000000 EARLY_MAPPING_MEMORY; EarlyMapping 0x1fd00000 0xf0000000 0x1000 EARLY_MAPPING_KMMAP;
            EarlyMapping 0x90000000 0x90000000 0x60000000 EARLY_MAPPING_MEMORY] in
  record rs [] = ([0x10000000; 0xf0000000; 0x60000000; 0], q) ∧
  serve_all rs (early_mapping_clear (Kmmap [] 0 0 0)) = Ok ([0x10000000; 0xf0000000; 0x60000000; 0], state_of q) ∧ em_inv q.
Proof.
  intros rs q. split; [reflexivity|].
  destruct (early_mappings_correct rs (Kmmap [] 0 0 0)) as (H1 & H2 & _); [by repeat constructor|]. split; [exact H1|exact H2].
Defined.

(** [early_mapping_add] accepts a second mapping of an address that is already
    mapped. *)
Theorem early_mapping_duplicate e s : queue_size s < EARLY_MAPPING_QUEUE_LENGTH → queue s = [e] →
  early_mapping_add e s = Ok (0, Kmmap [e; e] (mem_top s) (kmmap_top s) (umem_top s)).
Proof.
  intros Hl Hq. unfold early_mapping_add. rewrite (proj2 (Z.leb_le _ _)) by lia. cbn [assert_ mbind res_bind].
  rewrite (proj2 (Z.eqb_neq _ _)) by lia. rewrite Hq. cbn [early_mapping_valid negb existsb].
  by rewrite OVERLAP_same_start.
Qed.
