(* ===== verification/Trap.v ===== *)
(** * Traps

    kern/arch/mips/arch_trap.c with the instruction decoding of
    include/arch/mips/decode.h, and the architecture-independent handlers of
    kern/trap/trap.c.  A trap frame is a value of the register record of Proc.v;
    the calls of [handle_syscall] and [handle_interrupt], which only print, are
    recorded in a trace.  The assembly around [trap_handler] is not modelled. *)
From S2P Require Import Prelude Util MmState Libc Pgtable Sync Proc.

(** ** include/arch/mips/decode.h *)
Definition read_insn (m : mem) (pc : Z) : Z := ld32 m pc.
Definition OPCODE (insn : Z) : Z := Z.land (Z.shiftr insn 26) 0x3f.
Definition R_RS (insn : Z) : Z := Z.land (Z.shiftr insn 21) 0x1f.
Definition R_RT (insn : Z) : Z := Z.land (Z.shiftr insn 16) 0x1f.
Definition R_RD (insn : Z) : Z := Z.land (Z.shiftr insn 11) 0x1f.
Definition R_SHIFT (insn : Z) : Z := Z.land (Z.shiftr insn 6) 0x1f.
Definition R_FUNC (insn : Z) : Z := Z.land insn 0x3f.
Definition I_RS (insn : Z) : Z := Z.land (Z.shiftr insn 21) 0x1f.
Definition I_RT (insn : Z) : Z := Z.land (Z.shiftr insn 16) 0x1f.
Definition I_IMMEDIATE (insn : Z) : Z := Z.land insn 0xffff.
Definition I_OFFSET (insn : Z) : Z := sgn 16 (I_IMMEDIATE insn).
Definition I_IOFFSET (insn : Z) : Z := w32 (Z.shiftl (w32 (I_OFFSET insn)) 2).
Definition I_FUNC (insn : Z) : Z := I_RT insn.
Definition J_INDEX_MASK : Z := Z.shiftl 1 26 - 1.
Definition J_ACTUAL_INDEX_MASK : Z := Z.shiftl 1 28 - 1.
Definition J_INDEX (insn : Z) : Z := w32 (Z.shiftl (Z.land insn J_INDEX_MASK) 2).

Definition OP_SPECIAL : Z := 0x00.
Definition FN_JR : Z := 0x08.
Definition FN_JALR : Z := 0x09.
Definition OP_REGIMM : Z := 0x01.
Definition FN_BLTZ : Z := 0x00.
Definition FN_BGEZ : Z := 0x01.
Definition FN_BLTZL : Z := 0x02.
Definition FN_BGEZL : Z := 0x03.
Definition FN_BLTZAL : Z := 0x10.
Definition FN_BGEZAL : Z := 0x11.
Definition FN_BLTZALL : Z := 0x12.
Definition FN_BGEZALL : Z := 0x13.
Definition OP_J : Z := 0x02.
Definition OP_JAL : Z := 0x03.
Definition OP_BEQ : Z := 0x04.
Definition OP_BNE : Z := 0x05.
Definition OP_BLEZ : Z := 0x06.
Definition OP_BGTZ : Z := 0x07.
Definition OP_BEQL : Z := 0x14.
Definition OP_BNEL : Z := 0x15.
Definition OP_BLEZL : Z := 0x16.
Definition OP_BGTZL : Z := 0x17.

Definition one_of (x : Z) (l : list Z) : bool := existsb (Z.eqb x) l.

(** ** kern/arch/mips/arch_trap.c *)
Definition reg (tf : context) (i : Z) : Z := at_ (gpr tf) i.
Definition set_reg (i v : Z) (tf : context) : context :=
  Context (<[Z.to_nat i := v]> (gpr tf)) (c_lo tf) (c_hi tf) (c_status tf) (c_cause tf) (c_epc tf) (c_badvaddr tf).
Definition set_epc (v : Z) (tf : context) : context :=
  Context (gpr tf) (c_lo tf) (c_hi tf) (c_status tf) (c_cause tf) v (c_badvaddr tf).
Definition set_tf_status (v : Z) (tf : context) : context :=
  Context (gpr tf) (c_lo tf) (c_hi tf) v (c_cause tf) (c_epc tf) (c_badvaddr tf).

(** [__branch_target]: the target and the trap frame with the link register
    written. *)
Definition branch_target (m : mem) (tf : context) (pc : Z) : res (Z * context) :=
  let insn := read_insn m pc in
  let opcode := OPCODE insn in
  let cont_pc := w32 (pc + 8) in
  if opcode =? OP_SPECIAL then
    let rs := R_RS insn in
    let rd := R_RD insn in
    let func := R_FUNC insn in
    if func =? FN_JALR then let tf := set_reg rd cont_pc tf in Ok (reg tf rs, tf)
    else if func =? FN_JR then Ok (reg tf rs, tf)
    else Err Panicked
  else if one_of opcode [OP_JAL; OP_J] then
    let tf := if opcode =? OP_JAL then set_reg (Z.of_nat _RA) cont_pc tf else tf in
    Ok (Z.lor (Z.land pc (w32 (Z.lnot J_ACTUAL_INDEX_MASK))) (J_INDEX insn), tf)
  else
    let rs := I_RS insn in
    let offset := I_IOFFSET insn in
    let branch_pc := w32 (w32 (pc + offset) + 4) in
    if opcode =? OP_REGIMM then
      let func := I_FUNC insn in
      if one_of func [FN_BLTZAL; FN_BLTZALL; FN_BLTZ; FN_BLTZL] then
        let tf := if one_of func [FN_BLTZAL; FN_BLTZALL] && (sgn 32 (reg tf rs) <? 0)
                  then set_reg (Z.of_nat _RA) cont_pc tf else tf in
        Ok (if sgn 32 (reg tf rs) <? 0 then branch_pc else cont_pc, tf)
      else if one_of func [FN_BGEZAL; FN_BGEZALL; FN_BGEZ; FN_BGEZL] then
        let tf := if one_of func [FN_BGEZAL; FN_BGEZALL] && (0 <=? sgn 32 (reg tf rs))
                  then set_reg (Z.of_nat _RA) cont_pc tf else tf in
        Ok (if 0 <=? sgn 32 (reg tf rs) then branch_pc else cont_pc, tf)
      else Err Panicked
    else if one_of opcode [OP_BLEZ; OP_BLEZL] then
      Ok (if reg tf rs <=? 0 then branch_pc else cont_pc, tf)
    else if one_of opcode [OP_BGTZ; OP_BGTZL] then
      Ok (if 0 <? reg tf rs then branch_pc else cont_pc, tf)
    else
      let rt := I_RT insn in
      if one_of opcode [OP_BEQ; OP_BEQL] then
        Ok (if reg tf rs =? reg tf rt then branch_pc else cont_pc, tf)
      else if one_of opcode [OP_BNE; OP_BNEL] then
        Ok (if negb (reg tf rs =? reg tf rt) then branch_pc else cont_pc, tf)
      else Err Panicked.

Definition CR_BD : Z := 0x80000000.
Definition CR_EC : Z := 0x7c.
Definition EXCCODE (x : Z) : Z := Z.shiftr (Z.land x CR_EC) 2.
Definition EC_int : Z := 0.
Definition EC_sys : Z := 8.
Definition EC_bp : Z := 9.
Definition ST_IM : Z := 0xff00.
Definition ST_EXCM : Z := 0x1f.
Definition ST_BEV : Z := 0x400000.

Definition skip_victim (m : mem) (tf : context) : res context :=
  if negb (Z.land (c_cause tf) CR_BD =? 0) then
    '(t, tf) ← branch_target m tf (c_epc tf); Ok (set_epc t tf)
  else Ok (set_epc (w32 (c_epc tf + 4)) tf).

(** The status register of the processor and the calls made. *)
Inductive event := Syscall (number : Z) | Interrupt (irq : Z).
Record trap_state := TrapState { cp0_status : Z; trace : list event }.

Definition handle_syscall (number : Z) (s : trap_state) : Z * trap_state :=
  (0, TrapState (cp0_status s) (trace s ++ [Syscall number])).
Definition handle_interrupt (irq : Z) (s : trap_state) : trap_state :=
  TrapState (cp0_status s) (trace s ++ [Interrupt irq]).

(** [trap_return] up to the jump to [trap_exit], which restores the frame. *)
Definition trap_return (regs : context) (s : trap_state) : context * trap_state :=
  let status := cp0_status s in
  let im := Z.land status ST_IM in
  let status := Z.land status (w32 (Z.lnot ST_EXCM)) in
  (set_tf_status (Z.lor (Z.land (c_status regs) (w32 (Z.lnot ST_IM))) im) regs, TrapState status (trace s)).

Definition trap_handler (m : mem) (regs : context) (s : trap_state) : res (context * trap_state) :=
  let code := EXCCODE (c_cause regs) in
  if code =? EC_sys then
    regs ← skip_victim m regs;
    let s := TrapState (local_irq_enable (cp0_status s)) (trace s) in
    let '(_, s) := handle_syscall (sgn 32 (c_cause regs)) s in
    Ok (trap_return regs s)
  else if code =? EC_bp then
    regs ← skip_victim m regs; Ok (trap_return regs s)
  else if code =? EC_int then
    Ok (trap_return regs (handle_interrupt (sgn 32 (c_cause regs)) s))
  else Err Panicked.

(** [trap_init]: the three exception vectors receive 128 bytes of their entry
    code, and the bootstrap vectors are turned off. *)
Definition GENERIC_EXCEPT_ENTRY : Z := 0x80000180.
Definition XTLB_REFILL_ENTRY : Z := 0x80000080.
Definition TLB_REFILL_ENTRY : Z := 0x80000000.
Definition trap_init (generic_exception_entry tlb_entry : Z) (m : mem) (s : trap_state) : res (mem * trap_state) :=
  '(_, m) ← memcpy GENERIC_EXCEPT_ENTRY generic_exception_entry 0x80 m;
  '(_, m) ← memcpy XTLB_REFILL_ENTRY tlb_entry 0x80 m;
  '(_, m) ← memcpy TLB_REFILL_ENTRY tlb_entry 0x80 m;
  Ok (m, TrapState (Z.land (cp0_status s) (w32 (Z.lnot ST_BEV))) (trace s)).

(** ** The architecture's branches

    [taken], [next_pc] and [linked] are the MIPS32 manual's definition of the
    instruction executed after the delay slot and of the register that is written. *)
Inductive cond := LTZ | GEZ | LEZ | GTZ | EQ (rt : Z) | NE (rt : Z).
Inductive branch :=
| JumpReg (rs : Z)
| JumpLinkReg (rs rd : Z)
| Jump (link : bool) (index : Z)
| Branch (c : cond) (rs off : Z) (likely : bool)
| BranchLink (ge : bool) (rs off : Z) (likely : bool).

Definition taken (c : cond) (tf : context) (rs : Z) : bool :=
  let x := sgn 32 (reg tf rs) in
  match c with
  | LTZ => x <? 0 | GEZ => 0 <=? x | LEZ => x <=? 0 | GTZ => 0 <? x
  | EQ rt => x =? sgn 32 (reg tf rt) | NE rt => negb (x =? sgn 32 (reg tf rt))
  end.

Definition link_cond (ge : bool) : cond := if ge then GEZ else LTZ.
Definition go (c : bool) (pc off : Z) : Z := if c then w32 (pc + 4 + 4 * off) else w32 (pc + 8).

Definition next_pc (b : branch) (tf : context) (pc : Z) : Z :=
  match b with
  | JumpReg rs | JumpLinkReg rs _ => reg tf rs
  | Jump _ index => 2 ^ 28 * ((pc + 4) / 2 ^ 28) + 4 * index
  | Branch c rs off _ => go (taken c tf rs) pc off
  | BranchLink ge rs off _ => go (taken (link_cond ge) tf rs) pc off
  end.

(** The register written with the return address, whether the branch is taken or
    not. *)
Definition linked (b : branch) (tf : context) (pc : Z) : context :=
  match b with
  | JumpLinkReg _ rd => set_reg rd (w32 (pc + 8)) tf
  | Jump true _ => set_reg 31 (w32 (pc + 8)) tf
  | BranchLink _ _ _ _ => set_reg 31 (w32 (pc + 8)) tf
  | _ => tf
  end.

(** The encodings of include/arch/mips/decode.h. *)
Definition itype (op rs rt imm : Z) : Z := 2 ^ 26 * op + 2 ^ 21 * rs + 2 ^ 16 * rt + imm.
Definition encode (b : branch) : Z :=
  match b with
  | JumpReg rs => itype 0 rs 0 0x08
  | JumpLinkReg rs rd => itype 0 rs 0 (2 ^ 11 * rd + 0x09)
  | Jump link index => 2 ^ 26 * (if link then 3 else 2) + index
  | Branch c rs off likely =>
    let imm := off mod 2 ^ 16 in
    match c with
    | LTZ => itype 1 rs (if likely then 0x02 else 0x00) imm
    | GEZ => itype 1 rs (if likely then 0x03 else 0x01) imm
    | LEZ => itype (if likely then 0x16 else 0x06) rs 0 imm
    | GTZ => itype (if likely then 0x17 else 0x07) rs 0 imm
    | EQ rt => itype (if likely then 0x14 else 0x04) rs rt imm
    | NE rt => itype (if likely then 0x15 else 0x05) rs rt imm
    end
  | BranchLink ge rs off likely =>
    itype 1 rs (if ge then (if likely then 0x13 else 0x11) else (if likely then 0x12 else 0x10)) (off mod 2 ^ 16)
  end.

Definition is_reg (r : Z) : Prop := 0 ≤ r < 32.
Definition off_ok (off : Z) : Prop := - 2 ^ 15 ≤ off < 2 ^ 15.
(** Well-formed and defined instructions: a linking instruction whose source is the
    link register is unpredictable. *)
Definition branch_wf (b : branch) : Prop :=
  match b with
  | JumpReg rs => is_reg rs
  | JumpLinkReg rs rd => is_reg rs ∧ is_reg rd ∧ rs ≠ rd
  | Jump _ index => 0 ≤ index < 2 ^ 26
  | Branch c rs off _ => is_reg rs ∧ off_ok off ∧ match c with EQ rt | NE rt => is_reg rt | _ => True end
  | BranchLink _ rs off _ => is_reg rs ∧ off_ok off ∧ rs ≠ 31
  end.

(** What the code relies on: it compares unsigned for [blez] and [bgtz], takes
    the region of a jump from the jump instead of its delay slot, and writes the
    link register of a conditional branch only when the branch is taken. *)
Definition branch_safe (b : branch) (tf : context) (pc : Z) : Prop :=
  match b with
  | Branch (LEZ | GTZ) rs _ _ => 0 ≤ sgn 32 (reg tf rs)
  | Jump _ _ => (pc + 4) / 2 ^ 28 = pc / 2 ^ 28
  | BranchLink ge rs _ _ => taken (link_cond ge) tf rs = true
  | _ => True
  end.

Definition frame_ok (tf : context) : Prop := length (gpr tf) = 32%nat ∧ Forall (fits 32) (gpr tf).

(** *** Fields *)
Lemma land_mask x n : 0 ≤ n → Z.land x (2 ^ n - 1) = x mod 2 ^ n.
Proof. intros Hn. replace (2 ^ n - 1) with (Z.ones n) by (rewrite Z.ones_equiv; lia). by apply Z.land_ones. Qed.

Lemma itype_fields op rs rt imm : 0 ≤ op < 64 → is_reg rs → is_reg rt → 0 ≤ imm < 2 ^ 16 →
  OPCODE (itype op rs rt imm) = op ∧ R_RS (itype op rs rt imm) = rs ∧ I_RT (itype op rs rt imm) = rt ∧
  I_IMMEDIATE (itype op rs rt imm) = imm.
Proof.
  intros Hop Hrs Hrt Himm. unfold OPCODE, R_RS, I_RT, I_IMMEDIATE, itype, is_reg in *.
  change 0x3f with (2 ^ 6 - 1). change 0x1f with (2 ^ 5 - 1). change 0xffff with (2 ^ 16 - 1).
  rewrite !land_mask, !Z.shiftr_div_pow2 by lia.
  change (2 ^ 26) with 67108864. change (2 ^ 21) with 2097152. change (2 ^ 16) with 65536 in *. change (2 ^ 6) with 64. change (2 ^ 5) with 32.
  split_and!; Z.to_euclidean_division_equations; lia.
Qed.

Lemma rtype_fields rs imm rd func : is_reg rs → is_reg rd → 0 ≤ func < 64 → imm = 2 ^ 11 * rd + func →
  R_RD (itype 0 rs 0 imm) = rd ∧ R_FUNC (itype 0 rs 0 imm) = func.
Proof.
  intros Hrs Hrd Hf ->. unfold R_RD, R_FUNC, itype, is_reg in *. change 0x3f with (2 ^ 6 - 1). change 0x1f with (2 ^ 5 - 1).
  rewrite !land_mask, !Z.shiftr_div_pow2 by lia.
  change (2 ^ 26) with 67108864. change (2 ^ 21) with 2097152. change (2 ^ 16) with 65536. change (2 ^ 11) with 2048.
  change (2 ^ 6) with 64. change (2 ^ 5) with 32. split; Z.to_euclidean_division_equations; lia.
Qed.

Lemma branch_pc_eq pc insn off : fits 32 pc → off_ok off → I_IMMEDIATE insn = off mod 2 ^ 16 →
  w32 (w32 (pc + I_IOFFSET insn) + 4) = w32 (pc + 4 + 4 * off).
Proof.
  intros Hpc Ho Hi. unfold I_IOFFSET, I_OFFSET. rewrite Hi.
  assert (sgn 16 (off mod 2 ^ 16) = off) as ->.
  { unfold sgn, wrap, off_ok in *. change (2 ^ 16) with 65536. change (2 ^ (16 - 1)) with 32768. change (2 ^ 15) with 32768 in Ho.
    rewrite Z.mod_mod by lia. zcases; Z.to_euclidean_division_equations; lia. }
  rewrite Z.shiftl_mul_pow2 by lia. unfold wrap. change (2 ^ 32) with 4294967296. change (2 ^ 2) with 4.
  Z.to_euclidean_division_equations. lia.
Qed.

Lemma sgn_inj x y : fits 32 x → fits 32 y → (sgn 32 x =? sgn 32 y) = (x =? y).
Proof.
  intros Hx Hy. unfold sgn. rewrite !wrap_small by done. unfold fits in *. change (2 ^ 32) with 4294967296 in *.
  change (2 ^ (32 - 1)) with 2147483648. zcases; try done; lia.
Qed.

Lemma sgn_nonneg x : fits 32 x → 0 ≤ sgn 32 x → sgn 32 x = x.
Proof.
  intros Hx. unfold sgn. rewrite wrap_small by done. unfold fits in Hx. change (2 ^ 32) with 4294967296 in *.
  zcases; lia.
Qed.

Lemma reg_fits tf i : frame_ok tf → fits 32 (reg tf i).
Proof. intros [_ H]. unfold reg. by apply at_fits. Qed.

Lemma reg_set_other tf i j v : frame_ok tf → is_reg i → is_reg j → i ≠ j → reg (set_reg i v tf) j = reg tf j.
Proof.
  intros [Hl _] Hi Hj Hne. unfold reg, set_reg. cbn [gpr]. unfold is_reg in *. rewrite at_insert by lia.
  by rewrite (proj2 (Z.eqb_neq j i)) by lia.
Qed.

Lemma jump_fields op index : 0 ≤ index < 2 ^ 26 → 0 ≤ op < 64 →
  OPCODE (2 ^ 26 * op + index) = op ∧ J_INDEX (2 ^ 26 * op + index) = 4 * index.
Proof.
  intros Hi Ho. unfold OPCODE, J_INDEX. change 0x3f with (2 ^ 6 - 1). change J_INDEX_MASK with (2 ^ 26 - 1).
  rewrite !land_mask, Z.shiftr_div_pow2, Z.shiftl_mul_pow2 by lia. unfold wrap.
  change (2 ^ 26) with 67108864 in *. change (2 ^ 6) with 64. change (2 ^ 2) with 4. change (2 ^ 32) with 4294967296.
  split; Z.to_euclidean_division_equations; lia.
Qed.

Lemma jump_target pc index : fits 32 pc → 0 ≤ index < 2 ^ 26 →
  Z.lor (Z.land pc (w32 (Z.lnot J_ACTUAL_INDEX_MASK))) (4 * index) = 2 ^ 28 * (pc / 2 ^ 28) + 4 * index.
Proof.
  intros Hpc Hi. pose proof (ALIGN_BELOW_pow2 32 28 ltac:(lia) pc Hpc) as E. unfold ALIGN_BELOW in E.
  change (ALIGN_MASK 32 (2 ^ 28)) with J_ACTUAL_INDEX_MASK in E. rewrite E.
  assert (Z.land (2 ^ 28 * (pc / 2 ^ 28)) (4 * index) = 0) as Hz.
  { apply Z.bits_inj'. intros i Hi0. rewrite Z.land_spec, Z.bits_0, Z.mul_comm, <- Z.shiftl_mul_pow2 by lia.
    destruct (decide (i < 28)).
    - by rewrite Z.shiftl_spec, (Z.testbit_neg_r (pc / 2 ^ 28)) by lia.
    - rewrite (fits_testbit_high 28 (4 * index)), andb_false_r by (unfold fits; lia). done. }
  rewrite Z.add_nocarry_lxor, Z.lxor_lor by done. done.
Qed.

(** Decide the comparisons of opcodes. *)
Ltac closed_eqb :=
  unfold OP_SPECIAL, FN_JR, FN_JALR, OP_REGIMM, FN_BLTZ, FN_BGEZ, FN_BLTZL, FN_BGEZL, FN_BLTZAL, FN_BGEZAL, FN_BLTZALL,
    FN_BGEZALL, OP_J, OP_JAL, OP_BEQ, OP_BNE, OP_BLEZ, OP_BGTZ, OP_BEQL, OP_BNEL, OP_BLEZL, OP_BGTZL;
  repeat match goal with
  | |- context [?a =? ?b] =>
    lazymatch isZcst a with true =>
      lazymatch isZcst b with true =>
        let v := eval vm_compute in (a =? b) in change (a =? b) with v
      end
    end
  end; cbn [orb andb negb existsb one_of].

(** The branch instructions with two compared registers or one compared with
    zero. *)
Lemma branch_target_cond m tf pc c rs off likely : frame_ok tf → fits 32 pc → branch_wf (Branch c rs off likely) →
  branch_safe (Branch c rs off likely) tf pc → read_insn m pc = encode (Branch c rs off likely) →
  branch_target m tf pc = Ok (go (taken c tf rs) pc off, tf).
Proof.
  intros Hf Hpc (Hrs & Ho & Hrt) Hsafe Hinsn. unfold branch_target. rewrite Hinsn. cbn [encode].
  assert (0 ≤ off mod 2 ^ 16 < 2 ^ 16) as Himm by (apply Z.mod_pos_bound; lia).
  pose proof (reg_fits tf rs Hf) as Hx.
  destruct c as [| | | |rt|rt], likely; cbn [taken branch_safe] in *;
    match goal with |- context [itype ?op ?r ?t ?i] =>
      destruct (itype_fields op r t i ltac:(lia) Hrs ltac:(unfold is_reg in *; lia) Himm) as (E1 & E2 & E3 & E4);
      rewrite E1; unfold I_RS, I_FUNC; fold (R_RS (itype op r t i)); rewrite E2, ?E3;
      rewrite (branch_pc_eq pc (itype op r t i) off Hpc Ho E4) end; unfold one_of; cbn [existsb]; closed_eqb; unfold go; try done.
  all: try (rewrite sgn_inj by (done || by apply reg_fits); done).
  all: by rewrite sgn_nonneg.
Qed.

Lemma branch_target_link m tf pc ge rs off likely : frame_ok tf → fits 32 pc → branch_wf (BranchLink ge rs off likely) →
  read_insn m pc = encode (BranchLink ge rs off likely) →
  branch_target m tf pc = Ok (go (taken (link_cond ge) tf rs) pc off, if taken (link_cond ge) tf rs then set_reg 31 (w32 (pc + 8)) tf else tf).
Proof.
  intros Hf Hpc (Hrs & Ho & Hne) Hinsn. unfold branch_target. rewrite Hinsn. cbn [encode].
  assert (0 ≤ off mod 2 ^ 16 < 2 ^ 16) as Himm by (apply Z.mod_pos_bound; lia).
  assert (reg (set_reg 31 (w32 (pc + 8)) tf) rs = reg tf rs) as Hr by (apply reg_set_other; unfold is_reg in *; (done || lia)).
  destruct ge, likely; cbn [link_cond taken];
    match goal with |- context [itype ?op ?r ?t ?i] =>
      destruct (itype_fields op r t i ltac:(lia) Hrs ltac:(unfold is_reg; lia) Himm) as (E1 & E2 & E3 & E4);
      rewrite E1; unfold I_RS, I_FUNC; fold (R_RS (itype op r t i)); rewrite E2, ?E3;
      rewrite (branch_pc_eq pc (itype op r t i) off Hpc Ho E4) end; unfold one_of; cbn [existsb]; closed_eqb; unfold go;
    change (Z.of_nat _RA) with 31.
  all: match goal with |- context [if ?b then set_reg 31 _ _ else _] => destruct b eqn:E end; by rewrite ?Hr, ?E.
Qed.

(** Every branch instruction is decoded and followed as the architecture does. *)
Lemma branch_target_ok m tf pc b : frame_ok tf → fits 32 pc → branch_wf b → branch_safe b tf pc →
  read_insn m pc = encode b → branch_target m tf pc = Ok (next_pc b tf pc, linked b tf pc).
Proof.
  intros Hf Hpc Hb Hs Hinsn. destruct b as [rs|rs rd|link index|c rs off likely|ge rs off likely].
  - unfold branch_target. rewrite Hinsn. cbn [encode next_pc linked branch_wf] in *.
    destruct (itype_fields 0 rs 0 8 ltac:(lia) Hb ltac:(unfold is_reg; lia) ltac:(lia)) as (E1 & E2 & _ & _).
    destruct (rtype_fields rs 8 0 8 Hb ltac:(unfold is_reg; lia) ltac:(lia) eq_refl) as [_ E3].
    rewrite E1, E2, E3. by closed_eqb.
  - destruct Hb as (Hrs & Hrd & Hne). unfold branch_target. rewrite Hinsn. cbn [encode next_pc linked].
    assert (0 ≤ 2 ^ 11 * rd + 9 < 2 ^ 16) as Himm by (unfold is_reg in *; lia).
    destruct (itype_fields 0 rs 0 _ ltac:(lia) Hrs ltac:(unfold is_reg; lia) Himm) as (E1 & E2 & _ & _).
    destruct (rtype_fields rs _ rd 9 Hrs Hrd ltac:(lia) eq_refl) as [E3 E4].
    rewrite E1, E2, E3, E4. closed_eqb. by rewrite reg_set_other.
  - cbn [branch_wf branch_safe encode next_pc linked] in *. unfold branch_target. rewrite Hinsn.
    destruct link.
    + destruct (jump_fields 3 index Hb ltac:(lia)) as [E1 E2]. rewrite E1, E2. unfold one_of. cbn [existsb]. closed_eqb.
      by rewrite jump_target, Hs.
    + destruct (jump_fields 2 index Hb ltac:(lia)) as [E1 E2]. rewrite E1, E2. unfold one_of. cbn [existsb]. closed_eqb.
      by rewrite jump_target, Hs.
  - by apply (branch_target_cond m tf pc c rs off likely).
  - cbn [next_pc linked branch_safe] in *. rewrite (branch_target_link m tf pc ge rs off likely) by done. by rewrite Hs.
Qed.

(** Where execution resumes after a trap that skips its victim. *)
Definition resumes (m : mem) (tf : context) (b : branch) : Prop :=
  read_insn m (c_epc tf) = encode b ∧ branch_wf b ∧ branch_safe b tf (c_epc tf).

Lemma skip_victim_ok m tf b : frame_ok tf → fits 32 (c_epc tf) →
  (Z.testbit (c_cause tf) 31 = true → resumes m tf b) →
  skip_victim m tf = Ok (if Z.testbit (c_cause tf) 31 then set_epc (next_pc b tf (c_epc tf)) (linked b tf (c_epc tf))
                         else set_epc (w32 (c_epc tf + 4)) tf).
Proof.
  intros Hf Hpc Hb. unfold skip_victim.
  assert ((Z.land (c_cause tf) CR_BD =? 0) = negb (Z.testbit (c_cause tf) 31)) as ->.
  { change CR_BD with (2 ^ 31). destruct (Z.testbit (c_cause tf) 31) eqn:E; cbn [negb].
    - apply Z.eqb_neq. intros H. assert (Z.testbit (Z.land (c_cause tf) (2 ^ 31)) 31 = true) as H1
        by (rewrite Z.land_spec, E; done). by rewrite H, Z.bits_0 in H1.
    - apply Z.eqb_eq. apply Z.bits_inj'. intros i Hi. rewrite Z.land_spec, Z.bits_0, Z.pow2_bits_eqb by lia.
      destruct (Z.eqb_spec 31 i) as [<-|]; [by rewrite E|by rewrite andb_false_r]. }
  rewrite negb_involutive. destruct (Z.testbit (c_cause tf) 31) eqn:E; [|done].
  destruct (Hb eq_refl) as (H1 & H2 & H3). by rewrite (branch_target_ok m tf (c_epc tf) b).
Qed.

(** *** Dispatch *)
Lemma trap_handler_ok m regs s b :
  frame_ok regs → fits 32 (c_epc regs) → (Z.testbit (c_cause regs) 31 = true → resumes m regs b) →
  let code := EXCCODE (c_cause regs) in
  let back := if Z.testbit (c_cause regs) 31 then set_epc (next_pc b regs (c_epc regs)) (linked b regs (c_epc regs))
              else set_epc (w32 (c_epc regs + 4)) regs in
  let status r := Z.lor (Z.land (c_status r) (w32 (Z.lnot ST_IM))) (Z.land (cp0_status s) ST_IM) in
  match trap_handler m regs s with
  | Ok (r, s') =>
    (code = EC_sys ∧ r = set_tf_status (status back) back ∧ trace s' = trace s ++ [Syscall (sgn 32 (c_cause back))]) ∨
    (code = EC_bp ∧ r = set_tf_status (status back) back ∧ trace s' = trace s) ∨
    (code = EC_int ∧ r = set_tf_status (status regs) regs ∧ trace s' = trace s ++ [Interrupt (sgn 32 (c_cause regs))])
  | Err e => e = Panicked ∧ code ≠ EC_sys ∧ code ≠ EC_bp ∧ code ≠ EC_int
  end.
Proof.
  intros Hf Hpc Hb code back status. unfold trap_handler. fold code. rewrite (skip_victim_ok m regs b) by done. fold back.
  destruct (Z.eqb_spec code EC_sys) as [Es|Es]; [|destruct (Z.eqb_spec code EC_bp) as [Eb|Eb]; [|destruct (Z.eqb_spec code EC_int) as [Ei|Ei]]].
  - cbn [mbind res_bind handle_syscall trap_return cp0_status trace]. left. split_and!; [done| |done].
    unfold status. do 2 f_equal. unfold local_irq_enable. bitwise. change ST_IM with (Z.shiftl 255 8).
    rewrite Z.shiftl_spec by done. destruct (decide (i = 0)) as [->|]; [by rewrite !andb_false_r|].
    assert (Z.testbit 1 i = false) as ->; [|by rewrite orb_false_r].
    change 1 with (2 ^ 0). rewrite Z.pow2_bits_eqb by lia. apply Z.eqb_neq. lia.
  - cbn [mbind res_bind trap_return cp0_status trace]. right. left. done.
  - cbn [handle_interrupt trap_return cp0_status trace]. right. right. done.
  - done.
Qed.

(** C15. Trap handling: a system call or a breakpoint resumes at the instruction
    after it, or, in the delay slot of a branch, where the branch goes by the
    architecture's definition, with the link register written; the system call and
    the interrupt are dispatched exactly once, and any other exception panics.  On
    return the interrupt mask of the processor is kept.  Three cases in which the
    code departs from the architecture are excluded: [blez] and [bgtz] of a
    negative register (see [blez_negative]), a conditional branch with link that is
    not taken (see [link_not_taken]), and [j] and [jal] in the last word of a region
    of 256 MiB (see [jump_last_word]). *)
Theorem trap_handler_correct m regs s b :
  frame_ok regs → fits 32 (c_epc regs) → (Z.testbit (c_cause regs) 31 = true → resumes m regs b) →
  let code := EXCCODE (c_cause regs) in
  let back := if Z.testbit (c_cause regs) 31 then set_epc (next_pc b regs (c_epc regs)) (linked b regs (c_epc regs))
              else set_epc (w32 (c_epc regs + 4)) regs in
  let status r := Z.lor (Z.land (c_status r) (w32 (Z.lnot ST_IM))) (Z.land (cp0_status s) ST_IM) in
  match trap_handler m regs s with
  | Ok (r, s') =>
    (code = EC_sys ∧ r = set_tf_status (status back) back ∧ trace s' = trace s ++ [Syscall (sgn 32 (c_cause back))]) ∨
    (code = EC_bp ∧ r = set_tf_status (status back) back ∧ trace s' = trace s) ∨
    (code = EC_int ∧ r = set_tf_status (status regs) regs ∧ trace s' = trace s ++ [Interrupt (sgn 32 (c_cause regs))])
  | Err e => e = Panicked ∧ code ≠ EC_sys ∧ code ≠ EC_bp ∧ code ≠ EC_int
  end.
Proof. apply trap_handler_ok. Qed.

(** [blez] with a negative register is not followed: the comparison is unsigned. *)
Theorem blez_negative m tf pc rs off likely : frame_ok tf → fits 32 pc → is_reg rs → off_ok off →
  read_insn m pc = encode (Branch LEZ rs off likely) → sgn 32 (reg tf rs) < 0 →
  taken LEZ tf rs = true ∧ branch_target m tf pc = Ok (w32 (pc + 8), tf).
Proof.
  intros Hf Hpc Hrs Ho Hinsn Hneg. cbn [taken]. split; [lia|]. unfold branch_target. rewrite Hinsn. cbn [encode].
  assert (0 ≤ off mod 2 ^ 16 < 2 ^ 16) as Himm by (apply Z.mod_pos_bound; lia).
  assert (0 < reg tf rs) as Hpos.
  { pose proof (reg_fits tf rs Hf) as Hx. unfold sgn in Hneg. rewrite wrap_small in Hneg by done. unfold fits in Hx.
    destruct (Z.ltb_spec (reg tf rs) (2 ^ (32 - 1))); [lia|]. change (2 ^ (32 - 1)) with 2147483648 in *. lia. }
  destruct likely; match goal with |- context [itype ?op ?r ?t ?i] =>
      destruct (itype_fields op r t i ltac:(lia) Hrs ltac:(unfold is_reg in *; lia) Himm) as (E1 & E2 & E3 & E4);
      rewrite E1; unfold I_RS; fold (R_RS (itype op r t i)); rewrite E2 end; unfold one_of; cbn [existsb]; closed_eqb;
    by rewrite (proj2 (Z.leb_gt _ _) Hpos).
Qed.

(** A conditional branch with link that is not taken leaves the link register as it
    was, where the architecture writes it. *)
Theorem link_not_taken m tf pc ge rs off likely : frame_ok tf → fits 32 pc → is_reg rs → rs ≠ 31 → off_ok off →
  read_insn m pc = encode (BranchLink ge rs off likely) → taken (link_cond ge) tf rs = false →
  branch_target m tf pc = Ok (next_pc (BranchLink ge rs off likely) tf pc, tf) ∧ reg (linked (BranchLink ge rs off likely) tf pc) 31 = w32 (pc + 8).
Proof.
  intros Hf Hpc Hrs Hne Ho Hinsn Ht. rewrite (branch_target_link m tf pc ge rs off likely) by done. cbn [next_pc]. rewrite Ht. split; [done|].
  destruct Hf as [Hl _]. unfold reg, linked, set_reg. cbn [gpr]. by rewrite at_insert by lia.
Qed.

(** A jump in the last word of a region goes to the region of the jump, where the
    architecture takes the next one, that of the delay slot. *)
Theorem jump_last_word m tf pc index : fits 32 pc → 0 ≤ index < 2 ^ 26 → pc mod 2 ^ 28 = 2 ^ 28 - 4 →
  read_insn m pc = encode (Jump false index) → ∃ t, branch_target m tf pc = Ok (t, tf) ∧ next_pc (Jump false index) tf pc = t + 2 ^ 28.
Proof.
  intros Hpc Hi Hlast Hinsn. unfold branch_target. rewrite Hinsn. cbn [encode next_pc].
  destruct (jump_fields 2 index Hi ltac:(lia)) as [E1 E2]. rewrite E1, E2. unfold one_of. cbn [existsb]. closed_eqb.
  eexists. split; [done|]. rewrite jump_target by done.
  assert ((pc + 4) / 2 ^ 28 = pc / 2 ^ 28 + 1) as ->; [|lia]. change (2 ^ 28) with 268435456 in *. Z.to_euclidean_division_equations. lia.
Qed.

(** A system call in the delay slot of [bne $4, $5, -3] at 0x80001000, taken. *)
Definition demo_tf : context := Context (replicate 4 0 ++ [1; 2] ++ replicate 26 0) 0 0 0 (0x80000000 + 0x20) 0x80001000 0.
Definition demo_code : mem := st32 0x80001000 (encode (Branch (NE 5) 4 (-3) false)) (λ _, 0).

Lemma trap_handler_correct_witness :
  match trap_handler demo_code demo_tf (TrapState 0 []) with
  | Ok (r, s') => c_epc r = 0x80000ff8 ∧ trace s' = [Syscall (-0x7fffffe0)]
  | Err _ => False
  end.
Proof.
  pose proof (trap_handler_correct demo_code demo_tf (TrapState 0 []) (Branch (NE 5) 4 (-3) false)) as H.
  destruct (trap_handler demo_code demo_tf (TrapState 0 [])) as [[r s']|e].
  - destruct H as [(_ & Hr & Hs)|[(Hc & _)|(Hc & _)]].
    + split; [done|]. repeat constructor; done.
    + done.
    + intros _. split_and!; [by vm_compute|by vm_compute|done].
    + split; [by rewrite Hr|by rewrite Hs].
    + by vm_compute in Hc.
    + by vm_compute in Hc.
  - destruct H as (_ & Hc & _).
    + split; [done|]. repeat constructor; done.
    + done.
    + intros _. split_and!; [by vm_compute|by vm_compute|done].
    + by apply Hc.
Defined.
