(* ===== verification/Entry.v ===== *)
(** * Entry and exit of the kernel, and the switch of registers

    kern/arch/mips/trapentry.S and switch.S with the macros of
    include/arch/mips/stack.h, arch-smp.h and regdef.h, as lists of instructions
    that run on a machine: the general exception entry builds the trap frame that
    the C code of kern/arch/mips/arch_trap.c works on, [trap_exit] loads it, and
    [switch_regs] saves one context and loads another. *)
From S2P Require Import Prelude Util DList MmState Libc Palloc Pmm Simple Vmm Init Cp0 Pgtable Sync Uvm Areas Tlb Proc Trap.

(** ** Registers *)
Definition zero : Z := 0.
Definition AT : Z := 1.
Definition v0 : Z := 2.
Definition v1 : Z := 3.
Definition a0 : Z := 4.
Definition a1 : Z := 5.
Definition a2 : Z := 6.
Definition a3 : Z := 7.
Definition t0 : Z := 8.
Definition t1 : Z := 9.
Definition t2 : Z := 10.
Definition t3 : Z := 11.
Definition t4 : Z := 12.
Definition t5 : Z := 13.
Definition t6 : Z := 14.
Definition t7 : Z := 15.
Definition s0 : Z := 16.
Definition s1 : Z := 17.
Definition s2 : Z := 18.
Definition s3 : Z := 19.
Definition s4 : Z := 20.
Definition s5 : Z := 21.
Definition s6 : Z := 22.
Definition s7 : Z := 23.
Definition t8 : Z := 24.
Definition t9 : Z := 25.
Definition k0 : Z := 26.
Definition k1 : Z := 27.
Definition gp : Z := 28.
Definition sp : Z := 29.
Definition s8 : Z := 30.
Definition ra : Z := 31.

(** The registers behind [mflo], [mfhi] and [mfc0]. *)
Inductive cop := LO | HI | CP0_STATUS | CP0_CAUSE | CP0_EPC | CP0_BADVADDR | CP0_EBASE.

(** The bits of Cause that software can write. *)
Definition CAUSE_SOFT : Z := 0x08c00300.
Definition EBASE_CPUNUM_MASK : Z := 0x3ff.

(** ** The machine: registers, the register EBASE, memory and program counter *)
Record machine := Machine { cpu : context; ebase : Z; ram : mem; pc : Z }.

Definition set_cpu c (s : machine) := Machine c (ebase s) (ram s) (pc s).
Definition set_ram m (s : machine) := Machine (cpu s) (ebase s) m (pc s).
Definition set_pc p (s : machine) := Machine (cpu s) (ebase s) (ram s) p.

(** Register 0 stays 0. *)
Definition wreg (i v : Z) (s : machine) : machine := if i =? 0 then s else set_cpu (set_reg i v (cpu s)) s.
Definition rreg (i : Z) (s : machine) : Z := reg (cpu s) i.

Definition cop_read (x : cop) (s : machine) : Z :=
  match x with
  | LO => c_lo (cpu s) | HI => c_hi (cpu s) | CP0_STATUS => c_status (cpu s) | CP0_CAUSE => c_cause (cpu s)
  | CP0_EPC => c_epc (cpu s) | CP0_BADVADDR => c_badvaddr (cpu s) | CP0_EBASE => ebase s
  end.

Definition cop_write (x : cop) (v : Z) (s : machine) : machine :=
  let '(Context g lo hi st ca ep bv) := cpu s in
  match x with
  | LO => set_cpu (Context g v hi st ca ep bv) s
  | HI => set_cpu (Context g lo v st ca ep bv) s
  | CP0_STATUS => set_cpu (Context g lo hi v ca ep bv) s
  | CP0_CAUSE => set_cpu (Context g lo hi st (Z.lor (Z.land ca (w32 (Z.lnot CAUSE_SOFT))) (Z.land v CAUSE_SOFT)) ep bv) s
  | CP0_EPC => set_cpu (Context g lo hi st ca v bv) s
  | CP0_BADVADDR | CP0_EBASE => s
  end.

(** *** The instructions that the files use *)
Inductive insn :=
| LOAD (rt base : Z)          (* lw rt, (base) *)
| LW (rt base off : Z)        (* lw rt, off(base) *)
| STORE (rt base : Z)         (* sw rt, (base) *)
| ADDU (rd imm : Z)           (* rd += imm *)
| SUBU (rd imm : Z)           (* rd -= imm *)
| ADDUR (rd rs : Z)           (* rd += rs *)
| SLL (rd sh : Z)
| AND (rd imm : Z)
| OR (rd imm : Z)
| XOR (rd imm : Z)
| MOVE (rd rs : Z)
| LA (rd addr : Z)            (* the address of a symbol, through the global offset table *)
| MF (rd : Z) (x : cop)
| MT (rs : Z) (x : cop).

(** Kernel addresses are not translated; a word must be aligned. *)
Definition word_ok (a : Z) : bool := (a mod 4 =? 0) && (KERN_BASE <=? a) && (a <? 2 ^ 32).

Definition exec (i : insn) (s : machine) : res machine :=
  match i with
  | LOAD rt base => let a := rreg base s in if word_ok a then Ok (wreg rt (ld32 (ram s) a) s) else Err BadPtr
  | LW rt base off => let a := w32 (rreg base s + off) in if word_ok a then Ok (wreg rt (ld32 (ram s) a) s) else Err BadPtr
  | STORE rt base => let a := rreg base s in if word_ok a then Ok (set_ram (st32 a (rreg rt s) (ram s)) s) else Err BadPtr
  | ADDU rd imm => Ok (wreg rd (w32 (rreg rd s + imm)) s)
  | SUBU rd imm => Ok (wreg rd (w32 (rreg rd s - imm)) s)
  | ADDUR rd rs => Ok (wreg rd (w32 (rreg rd s + rreg rs s)) s)
  | SLL rd sh => Ok (wreg rd (w32 (Z.shiftl (rreg rd s) sh)) s)
  | AND rd imm => Ok (wreg rd (Z.land (rreg rd s) imm) s)
  | OR rd imm => Ok (wreg rd (Z.lor (rreg rd s) imm) s)
  | XOR rd imm => Ok (wreg rd (Z.lxor (rreg rd s) imm) s)
  | MOVE rd rs => Ok (wreg rd (rreg rs s) s)
  | LA rd addr => Ok (wreg rd addr s)
  | MF rd x => Ok (wreg rd (cop_read x s) s)
  | MT rs x => Ok (cop_write x (rreg rs s) s)
  end.

Fixpoint run (code : list insn) (s : machine) : res machine :=
  match code with
  | [] => Ok s
  | i :: code => s ← exec i s; run code s
  end.

(** ** The macros of stack.h *)
Definition cpuid_ (result : Z) : list insn := [MF result CP0_EBASE; AND result EBASE_CPUNUM_MASK].
Definition get_saved_sp (kernelsp r temp : Z) : list insn :=
  cpuid_ temp ++ [SLL temp WORD_SHIFT; LA r kernelsp; ADDUR r temp; LOAD r r].
Definition set_saved_sp (kernelsp stackp temp temp2 : Z) : list insn :=
  cpuid_ temp ++ [SLL temp WORD_SHIFT; LA temp2 kernelsp; ADDUR temp2 temp; STORE stackp temp2].

Definition PUSH (r : Z) : list insn := [SUBU sp WORD_SIZE; STORE r sp].
Definition POP (r : Z) : list insn := [LOAD r sp; ADDU sp WORD_SIZE].
Definition PUSHSTATIC : list insn := PUSH s7 ++ PUSH s6 ++ PUSH s5 ++ PUSH s4 ++ PUSH s3 ++ PUSH s2 ++ PUSH s1 ++ PUSH s0.
Definition POPSTATIC : list insn := POP s0 ++ POP s1 ++ POP s2 ++ POP s3 ++ POP s4 ++ POP s5 ++ POP s6 ++ POP s7.
Definition PUSHTEMP : list insn := PUSH t7 ++ PUSH t6 ++ PUSH t5 ++ PUSH t4 ++ PUSH t3 ++ PUSH t2 ++ PUSH t1 ++ PUSH t0.
Definition POPTEMP : list insn := POP t0 ++ POP t1 ++ POP t2 ++ POP t3 ++ POP t4 ++ POP t5 ++ POP t6 ++ POP t7.
Definition PUSHARGS : list insn := PUSH a3 ++ PUSH a2 ++ PUSH a1 ++ PUSH a0 ++ PUSH v1 ++ PUSH v0 ++ PUSH AT ++ PUSH zero.
Definition POPARGS : list insn := POP AT ++ POP AT ++ POP v0 ++ POP v1 ++ POP a0 ++ POP a1 ++ POP a2 ++ POP a3.
Definition PUSHAL : list insn := PUSHSTATIC ++ PUSHTEMP ++ PUSHARGS.
Definition POPAL : list insn := POPARGS ++ POPTEMP ++ POPSTATIC.
Definition PUSHCOPR (r : Z) : list insn :=
  MF r CP0_BADVADDR :: PUSH r ++ MF r CP0_EPC :: PUSH r ++ MF r CP0_CAUSE :: PUSH r ++
  MF r CP0_STATUS :: PUSH r ++ MF r HI :: PUSH r ++ MF r LO :: PUSH r.
Definition POPCOPR (r : Z) : list insn :=
  POP r ++ MT r LO :: POP r ++ MT r HI :: POP r ++ MT r CP0_STATUS :: POP r ++ MT r CP0_CAUSE ::
  POP r ++ MT r CP0_EPC :: POP r ++ [MT r CP0_BADVADDR].
Definition PUSHUF (r base : Z) : list insn := [ADDU base WORD_SIZE; STORE r base].
Definition PUSHDF (r base : Z) : list insn := [SUBU base WORD_SIZE; STORE r base].
Definition POPUF (r base : Z) : list insn := [LOAD r base; ADDU base WORD_SIZE].
Definition POPDF (r base : Z) : list insn := [LOAD r base; SUBU base WORD_SIZE].
Definition PUSHUE (r base : Z) : list insn := [STORE r base; ADDU base WORD_SIZE].
Definition PUSHDE (r base : Z) : list insn := [STORE r base; SUBU base WORD_SIZE].
Definition POPUE (r base : Z) : list insn := [ADDU base WORD_SIZE; LOAD r base].
Definition POPDE (r base : Z) : list insn := [SUBU base WORD_SIZE; LOAD r base].

(** The directive [.cprestore] without an offset: the assembler is run with
    [-KPIC] (env.am), for which it stores [gp] at [0(sp)]. *)
Definition CPRESTORE : insn := STORE gp sp.

(** ** trapentry.S *)
Section entry.
(** The addresses of [_gp] and of the array [kernelsp]. *)
Context (_gp kernelsp : Z).

(** [__generic_exception_entry] up to the call of [trap_handler]. *)
Definition generic_exception_entry (s : machine) : res machine :=
  s ← run [MF k0 CP0_STATUS; AND k0 ST_KSU; MOVE k1 sp] s;
  s ← (if rreg k0 s =? 0 then Ok s else run (get_saved_sp kernelsp sp k0) s);
  run (PUSHCOPR k0 ++ PUSH ra ++ PUSH s8 ++ PUSH k1 ++ PUSH gp ++ PUSH k1 ++ PUSH k0 ++ PUSH t9 ++ PUSH t8 ++ PUSHAL ++
       [MF k0 CP0_STATUS; OR k0 ST_EXCM; XOR k0 ST_EXCM; MT k0 CP0_STATUS; MOVE a0 sp; LA gp _gp; SUBU sp 16; CPRESTORE]) s.

(** [trap_exit]; [eret] goes on at EPC and leaves the exception level. *)
Definition eret (s : machine) : machine :=
  set_pc (c_epc (cpu s)) (cop_write CP0_STATUS (Z.land (c_status (cpu s)) (w32 (Z.lnot ST_EXL))) s).
Definition exit_code : list insn :=
  [MOVE sp a0] ++ POPAL ++ POP t8 ++ POP t9 ++ POP k0 ++ POP k1 ++ POP gp ++ POP k0 ++ POP s8 ++ POP ra ++ POPCOPR k1 ++ [MOVE sp k0].
Definition trap_exit (s : machine) : res machine := s ← run exit_code s; Ok (eret s).
End entry.

(** ** switch.S *)
Definition switch_save : list insn :=
  PUSHUE zero a0 ++ PUSHUE AT a0 ++ PUSHUE v0 a0 ++ PUSHUE v1 a0 ++ PUSHUE a0 a0 ++ PUSHUE a1 a0 ++ PUSHUE a2 a0 ++ PUSHUE a3 a0 ++
  PUSHUE t0 a0 ++ PUSHUE t1 a0 ++ PUSHUE t2 a0 ++ PUSHUE t3 a0 ++ PUSHUE t4 a0 ++ PUSHUE t5 a0 ++ PUSHUE t6 a0 ++ PUSHUE t7 a0 ++
  PUSHUE s0 a0 ++ PUSHUE s1 a0 ++ PUSHUE s2 a0 ++ PUSHUE s3 a0 ++ PUSHUE s4 a0 ++ PUSHUE s5 a0 ++ PUSHUE s6 a0 ++ PUSHUE s7 a0 ++
  PUSHUE t8 a0 ++ PUSHUE t9 a0 ++ PUSHUE k0 a0 ++ PUSHUE k1 a0 ++ PUSHUE gp a0 ++ PUSHUE sp a0 ++ PUSHUE s8 a0 ++ PUSHUE ra a0 ++
  MF a2 LO :: PUSHUE a2 a0 ++ MF a2 HI :: PUSHUE a2 a0 ++ MF a2 CP0_STATUS :: PUSHUE a2 a0 ++
  MF a2 CP0_CAUSE :: PUSHUE a2 a0 ++ MF a2 CP0_EPC :: PUSHUE a2 a0 ++ MF a2 CP0_BADVADDR :: PUSHUE a2 a0.
Definition switch_load : list insn :=
  POPUF a2 a1 ++ POPUF AT a1 ++ POPUF v0 a1 ++ POPUF v1 a1 ++ POPUF a0 a1 ++ POPUF a2 a1 ++ POPUF a2 a1 ++ POPUF a3 a1 ++
  POPUF t0 a1 ++ POPUF t1 a1 ++ POPUF t2 a1 ++ POPUF t3 a1 ++ POPUF t4 a1 ++ POPUF t5 a1 ++ POPUF t6 a1 ++ POPUF t7 a1 ++
  POPUF s0 a1 ++ POPUF s1 a1 ++ POPUF s2 a1 ++ POPUF s3 a1 ++ POPUF s4 a1 ++ POPUF s5 a1 ++ POPUF s6 a1 ++ POPUF s7 a1 ++
  POPUF t8 a1 ++ POPUF t9 a1 ++ POPUF k0 a1 ++ POPUF k1 a1 ++ POPUF gp a1 ++ POPUF sp a1 ++ POPUF s8 a1 ++ POPUF ra a1 ++
  POPUF a2 a1 ++ MT a2 LO :: POPUF a2 a1 ++ MT a2 HI :: POPUF a2 a1 ++ MT a2 CP0_STATUS :: POPUF a2 a1 ++ MT a2 CP0_CAUSE ::
  POPUF a2 a1 ++ MT a2 CP0_EPC :: POPUF a2 a1 ++ [MT a2 CP0_BADVADDR].
Definition switch_regs_ (s : machine) : res machine := s ← run switch_save s; s ← run switch_load s; Ok (set_pc (rreg ra s) s).

(** ** Reasoning about code

    [st s g x m]: the registers of [s] are [g], those behind [cop] are [x], the
    memory is [m]. *)
Record st (s : machine) (g : Z → Z) (x : cop → Z) (m : mem) : Prop := St {
  st_len : length (gpr (cpu s)) = 32%nat;
  st_reg j : is_reg j → rreg j s = g j;
  st_cop y : cop_read y s = x y;
  st_ram : ram s = m }.

Definition up (i v : Z) (g : Z → Z) : Z → Z := λ j, if j =? i then v else g j.

Definition triple (code : list insn) (g : Z → Z) (x : cop → Z) (m : mem) (g' : Z → Z) (x' : cop → Z) (m' : mem) : Prop :=
  ∀ s, st s g x m → ∃ s', run code s = Ok s' ∧ st s' g' x' m'.

Lemma run_app c1 c2 s : run (c1 ++ c2) s = (s ← run c1 s; run c2 s).
Proof. revert s. induction c1 as [|i c1 IH]; intros s; [done|]. cbn [app run]. destruct (exec i s); [|done]. apply IH. Qed.

Lemma triple_nil g x m : triple [] g x m g x m.
Proof. intros s Hs. by exists s. Qed.

Lemma triple_app c1 c2 g x m g1 x1 m1 g2 x2 m2 :
  triple c1 g x m g1 x1 m1 → triple c2 g1 x1 m1 g2 x2 m2 → triple (c1 ++ c2) g x m g2 x2 m2.
Proof.
  intros H1 H2 s Hs. destruct (H1 s Hs) as (s1 & E1 & Hs1). destruct (H2 s1 Hs1) as (s2 & E2 & Hs2).
  exists s2. by rewrite run_app, E1.
Qed.

Lemma triple_cons i c2 g x m g1 x1 m1 g2 x2 m2 :
  triple [i] g x m g1 x1 m1 → triple c2 g1 x1 m1 g2 x2 m2 → triple (i :: c2) g x m g2 x2 m2.
Proof. apply (triple_app [i]). Qed.

Lemma triple_conseq c g x m g1 x1 m1 g2 x2 m2 : triple c g x m g1 x1 m1 →
  (∀ j, is_reg j → g1 j = g2 j) → (∀ y, x1 y = x2 y) → m1 = m2 → triple c g x m g2 x2 m2.
Proof.
  intros H Hg Hx <- s Hs. destruct (H s Hs) as (s' & E & [L R C M]). exists s'. split; [done|].
  split; [done|intros j Hj; by rewrite R, Hg|intros y; by rewrite C|done].
Qed.

(** *** One instruction *)
Lemma wreg_st s g x m i v : st s g x m → 0 < i < 32 → st (wreg i v s) (up i v g) x m.
Proof.
  intros [L R C M] Hi. unfold wreg. rewrite (proj2 (Z.eqb_neq i 0)) by lia. split; cbn [set_cpu cpu ram set_reg gpr].
  - by rewrite length_insert.
  - intros j Hj. unfold is_reg in Hj. unfold rreg, reg, up. cbn [set_cpu cpu set_reg gpr]. rewrite at_insert by lia.
    destruct (j =? i); [done|]. by apply R.
  - intros y. rewrite <-C. by destruct y.
  - done.
Qed.

Lemma word_ok_in a : a mod 4 = 0 → KERN_BASE ≤ a < 2 ^ 32 → word_ok a = true.
Proof. intros Ha [H1 H2]. unfold word_ok. by rewrite Ha, (proj2 (Z.leb_le _ _) H1), (proj2 (Z.ltb_lt _ _) H2). Qed.

Section instructions.
Context (g : Z → Z) (x : cop → Z) (m : mem).

Lemma t_move rd rs : 0 < rd < 32 → is_reg rs → triple [MOVE rd rs] g x m (up rd (g rs) g) x m.
Proof. intros Hd Hr s Hs. eexists. split; [done|]. rewrite (st_reg _ _ _ _ Hs rs Hr). by apply wreg_st. Qed.
Lemma t_la rd a : 0 < rd < 32 → triple [LA rd a] g x m (up rd a g) x m.
Proof. intros Hd s Hs. eexists. split; [done|]. by apply wreg_st. Qed.
Lemma t_mf rd y : 0 < rd < 32 → triple [MF rd y] g x m (up rd (x y) g) x m.
Proof. intros Hd s Hs. eexists. split; [done|]. rewrite (st_cop _ _ _ _ Hs). by apply wreg_st. Qed.
Lemma t_alu i rd v : 0 < rd < 32 → (∀ s, rreg rd s = g rd → exec i s = Ok (wreg rd v s)) → triple [i] g x m (up rd v g) x m.
Proof.
  intros Hd Hi s Hs. exists (wreg rd v s). cbn [run]. rewrite Hi by (apply Hs; unfold is_reg; lia). split; [done|]. by apply wreg_st.
Qed.
Lemma t_addu rd k : 0 < rd < 32 → 0 ≤ g rd + k < 2 ^ 32 → triple [ADDU rd k] g x m (up rd (g rd + k) g) x m.
Proof. intros Hd Hk. apply t_alu; [done|]. intros s E. cbn [exec]. by rewrite E, wrap_small by (unfold fits; lia). Qed.
Lemma t_subu rd k : 0 < rd < 32 → 0 ≤ g rd - k < 2 ^ 32 → triple [SUBU rd k] g x m (up rd (g rd - k) g) x m.
Proof. intros Hd Hk. apply t_alu; [done|]. intros s E. cbn [exec]. by rewrite E, wrap_small by (unfold fits; lia). Qed.
Lemma t_load rt b : 0 < rt < 32 → is_reg b → g b mod 4 = 0 → KERN_BASE ≤ g b < 2 ^ 32 →
  triple [LOAD rt b] g x m (up rt (ld32 m (g b)) g) x m.
Proof.
  intros Ht Hb Ha Hk s Hs. eexists. cbn [run exec]. rewrite (st_reg _ _ _ _ Hs b Hb), word_ok_in, (st_ram _ _ _ _ Hs) by done.
  split; [done|]. by apply wreg_st.
Qed.
Lemma t_lw rt b off : 0 < rt < 32 → is_reg b → (g b + off) mod 4 = 0 → KERN_BASE ≤ g b + off < 2 ^ 32 →
  triple [LW rt b off] g x m (up rt (ld32 m (g b + off)) g) x m.
Proof.
  intros Ht Hb Ha Hk s Hs. eexists. cbn [run exec]. rewrite (st_reg _ _ _ _ Hs b Hb), wrap_small, word_ok_in, (st_ram _ _ _ _ Hs) by (done || unfold fits, KERN_BASE in *; lia).
  split; [done|]. by apply wreg_st.
Qed.
Lemma t_store rt b : is_reg rt → is_reg b → g b mod 4 = 0 → KERN_BASE ≤ g b < 2 ^ 32 →
  triple [STORE rt b] g x m g x (st32 (g b) (g rt) m).
Proof.
  intros Ht Hb Ha Hk s Hs. eexists. cbn [run exec]. rewrite (st_reg _ _ _ _ Hs b Hb), word_ok_in by done. split; [done|].
  rewrite (st_reg _ _ _ _ Hs rt Ht), (st_ram _ _ _ _ Hs). destruct Hs as [L R C M]. by split.
Qed.

(** What a coprocessor register holds after a write. *)
Definition up_cop (y : cop) (v : Z) (x : cop → Z) : cop → Z := λ z,
  match y, z with
  | LO, LO | HI, HI | CP0_STATUS, CP0_STATUS | CP0_EPC, CP0_EPC => v
  | CP0_CAUSE, CP0_CAUSE => Z.lor (Z.land (x CP0_CAUSE) (w32 (Z.lnot CAUSE_SOFT))) (Z.land v CAUSE_SOFT)
  | _, _ => x z
  end.
Lemma t_mt rs y : is_reg rs → triple [MT rs y] g x m g (up_cop y (g rs) x) m.
Proof.
  intros Hr s Hs. eexists. split; [done|]. rewrite (st_reg _ _ _ _ Hs rs Hr). destruct Hs as [L R C M].
  unfold cop_write. destruct (cpu s) as [gs lo hi st ca ep bv] eqn:E. unfold rreg in R. rewrite E in R. cbn [gpr] in L.
  assert (∀ z, cop_read z s = x z) as C' by done. unfold cop_read in C'. rewrite E in C'. cbn in C'.
  split; [by destruct y; try rewrite E|intros j Hj; destruct y; try apply (R j Hj); by unfold rreg; rewrite E; apply R| |by destruct y].
  intros z. destruct y, z; cbn; rewrite ?E; first [exact (C' LO)|exact (C' HI)|exact (C' CP0_STATUS)|exact (C' CP0_CAUSE)|exact (C' CP0_EPC)|exact (C' CP0_BADVADDR)|exact (C' CP0_EBASE)|done|by rewrite <-(C' CP0_CAUSE)].
Qed.
End instructions.

(** *** Words above and below each other *)
Fixpoint push_all (a : Z) (vs : list Z) (m : mem) : mem :=
  match vs with [] => m | v :: vs => push_all (a - 4) vs (st32 (a - 4) v m) end.
Fixpoint store_up (a : Z) (vs : list Z) (m : mem) : mem :=
  match vs with [] => m | v :: vs => store_up (a + 4) vs (st32 a v m) end.

Lemma push_all_app a vs ws m : push_all a (vs ++ ws) m = push_all (a - 4 * Z.of_nat (length vs)) ws (push_all a vs m).
Proof.
  revert a m. induction vs as [|v vs IH]; intros a m; cbn [app push_all length]; [by rewrite Z.sub_0_r|].
  rewrite IH. f_equal. lia.
Qed.
Lemma push_all_out a vs m y : y < a - 4 * Z.of_nat (length vs) ∨ a ≤ y → push_all a vs m y = m y.
Proof.
  revert a m. induction vs as [|v vs IH]; intros a m Hy; cbn [push_all length] in *; [done|]. rewrite IH by lia. unfold st32. zcases; simpl; (done || lia).
Qed.
Lemma push_all_in a vs m j v : vs !! j = Some v → fits 32 v → ld32 (push_all a vs m) (a - 4 * (Z.of_nat j + 1)) = v.
Proof.
  revert a m j. induction vs as [|w vs IH]; intros a m [|j] Hj Hv; try done; cbn [push_all]; cbn in Hj.
  - injection Hj as ->. rewrite (ld32_ext (st32 (a - 4) v m)); [replace (a - 4 * (Z.of_nat 0 + 1)) with (a - 4) by lia; by apply ld32_st32_eq|].
    intros y Hy. apply push_all_out. lia.
  - replace (a - 4 * (Z.of_nat (S j) + 1)) with (a - 4 - 4 * (Z.of_nat j + 1)) by lia. by apply IH.
Qed.

Lemma store_up_app a vs ws m : store_up a (vs ++ ws) m = store_up (a + 4 * Z.of_nat (length vs)) ws (store_up a vs m).
Proof.
  revert a m. induction vs as [|v vs IH]; intros a m; cbn [app store_up length]; [by rewrite Z.add_0_r|].
  rewrite IH. f_equal. lia.
Qed.
Lemma store_up_out a vs m y : y < a ∨ a + 4 * Z.of_nat (length vs) ≤ y → store_up a vs m y = m y.
Proof.
  revert a m. induction vs as [|v vs IH]; intros a m Hy; cbn [store_up length] in *; [done|]. rewrite IH by lia. unfold st32. zcases; simpl; (done || lia).
Qed.
Lemma store_up_in a vs m j v : vs !! j = Some v → fits 32 v → ld32 (store_up a vs m) (a + 4 * Z.of_nat j) = v.
Proof.
  revert a m j. induction vs as [|w vs IH]; intros a m [|j] Hj Hv; try done; cbn [store_up]; cbn in Hj.
  - injection Hj as ->. rewrite (ld32_ext (st32 a v m)); [rewrite Z.add_0_r; by apply ld32_st32_eq|].
    intros y Hy. apply store_up_out. lia.
  - replace (a + 4 * Z.of_nat (S j)) with (a + 4 + 4 * Z.of_nat j) by lia. by apply IH.
Qed.

(** *** Saving and loading registers *)
Lemma up_eq i v g : up i v g i = v.
Proof. unfold up. by rewrite Z.eqb_refl. Qed.
Lemma up_ne i v g j : j ≠ i → up i v g j = g j.
Proof. intros H. unfold up. by rewrite (proj2 (Z.eqb_neq _ _) H). Qed.

Ltac ups := unfold up, is_reg, zero, AT, v0, v1, a0, a1, a2, a3, t0, t1, t2, t3, t4, t5, t6, t7, s0, s1, s2, s3, s4, s5, s6, s7, t8, t9, k0, k1, gp, sp, s8, ra in *.

(** A word is pushed from the register [r], which may have been loaded before. *)
Lemma t_push g x m r a : is_reg r → r ≠ sp → g sp = a → a mod 4 = 0 → KERN_BASE + 4 ≤ a < 2 ^ 32 →
  triple (PUSH r) g x m (up sp (a - 4) g) x (st32 (a - 4) (g r) m).
Proof.
  intros Hr Hne Hsp Ha Hk. eapply triple_conseq; [eapply triple_cons|done|done|done].
  - apply t_subu; [by ups|]. rewrite Hsp. unfold WORD_SIZE, KERN_BASE in *. lia.
  - eapply triple_conseq; [apply t_store; [done|by ups|..]|intros j _; by rewrite Hsp|done|].
    + rewrite up_eq, Hsp. unfold WORD_SIZE. Z.to_euclidean_division_equations. lia.
    + rewrite up_eq, Hsp. unfold WORD_SIZE. lia.
    + by rewrite up_eq, up_ne, Hsp by done.
Qed.

Lemma t_pushes x rs : ∀ g m a, Forall (λ r, is_reg r ∧ r ≠ sp) rs → g sp = a → a mod 4 = 0 →
  KERN_BASE + 4 * Z.of_nat (length rs) ≤ a < 2 ^ 32 →
  triple (mjoin (PUSH <$> rs)) g x m (up sp (a - 4 * Z.of_nat (length rs)) g) x (push_all a (g <$> rs) m).
Proof.
  induction rs as [|r rs IH]; intros g m a Hrs Hsp Ha Hk; cbn [length] in *.
  - eapply triple_conseq; [apply triple_nil| |done|done]. intros j _. unfold up. destruct (Z.eqb_spec j sp) as [->|]; [lia|done].
  - inversion_clear Hrs as [|? ? [Hr Hne] Hrs']. change (mjoin (PUSH <$> r :: rs)) with (PUSH r ++ mjoin (PUSH <$> rs)).
    eapply triple_app; [by apply (t_push g x m r a); try done; lia|].
    eapply triple_conseq; [apply (IH _ _ (a - 4)); [done|apply up_eq|Z.to_euclidean_division_equations; lia|lia]|..]; [|done|].
    + intros j _. unfold up. destruct (j =? sp); [lia|done].
    + cbn [fmap list_fmap push_all]. f_equal. apply list_fmap_ext. intros i y Hy%list_elem_of_lookup_2. rewrite Forall_forall in Hrs'. by rewrite up_ne by by apply Hrs'.
Qed.

(** The registers behind [mfc0] and the like, through the register [r]. *)
Lemma t_copushes x r ys : is_reg r → 0 < r → r ≠ sp → ∀ g m a, g sp = a → a mod 4 = 0 →
  KERN_BASE + 4 * Z.of_nat (length ys) ≤ a < 2 ^ 32 →
  triple (mjoin ((λ y, MF r y :: PUSH r) <$> ys)) g x m (up sp (a - 4 * Z.of_nat (length ys)) (up r (from_option x (g r) (last ys)) g)) x (push_all a (x <$> ys) m).
Proof.
  intros Hr Hr0 Hne. induction ys as [|y ys IH]; intros g m a Hsp Ha Hk; cbn [length] in *.
  - eapply triple_conseq; [apply triple_nil| |done|done]. intros j _. cbn. unfold up. destruct (Z.eqb_spec j sp) as [->|]; [lia|].
    by destruct (Z.eqb_spec j r) as [->|].
  - change (mjoin ((λ y, MF r y :: PUSH r) <$> y :: ys)) with (MF r y :: PUSH r ++ mjoin ((λ y, MF r y :: PUSH r) <$> ys)).
    eapply triple_cons; [apply t_mf; unfold is_reg in *; lia|].
    eapply triple_app; [apply (t_push _ x m r a); try done; [by rewrite up_ne by done|lia]|].
    eapply triple_conseq; [apply (IH _ _ (a - 4)); [apply up_eq|Z.to_euclidean_division_equations; lia|lia]|..]; [|done|].
    + intros j _. unfold up. destruct (j =? sp) eqn:Es; [lia|]. destruct (j =? r) eqn:Er; [|done].
      rewrite (proj2 (Z.eqb_neq r sp)) by done. rewrite Z.eqb_refl. destruct ys as [|y' ys]; [done|]. cbn [last]. by destruct (last (y' :: ys)) eqn:El; [|by apply last_None in El].
    + cbn [fmap list_fmap push_all]. by rewrite up_eq.
Qed.

(** Words are loaded into the registers [rs] from [a] upwards. *)
Fixpoint loadf (a : Z) (m : mem) (rs : list Z) (g : Z → Z) : Z → Z :=
  match rs with [] => g | r :: rs => loadf (a + 4) m rs (up r (ld32 m a) g) end.
Fixpoint loadx (a : Z) (m : mem) (ys : list cop) (x : cop → Z) : cop → Z :=
  match ys with [] => x | y :: ys => loadx (a + 4) m ys (up_cop y (ld32 m a) x) end.

Lemma loadf_ext m b rs : ∀ a g g', (∀ j, j ≠ b → g j = g' j) → ∀ j, j ≠ b → loadf a m rs g j = loadf a m rs g' j.
Proof. induction rs as [|r rs IH]; intros a g g' Hg j Hj; cbn [loadf]; [by apply Hg|]. apply IH; [|done]. intros i Hi. unfold up. destruct (i =? r); [done|by apply Hg]. Qed.
Lemma loadf_other m rs j : j ∉ rs → ∀ a g, loadf a m rs g j = g j.
Proof. induction rs as [|r rs IH]; intros Hj a g; cbn [loadf]; [done|]. rewrite IH by set_solver. apply up_ne. set_solver. Qed.
Lemma loadf_at m rs j : ∀ i a g, rs !! i = Some j → j ∉ drop (S i) rs → loadf a m rs g j = ld32 m (a + 4 * Z.of_nat i).
Proof.
  induction rs as [|r rs IH]; intros [|i] a g Hi Hd; try done; cbn in Hi; cbn [loadf].
  - injection Hi as ->. rewrite loadf_other by done. rewrite up_eq. f_equal. lia.
  - rewrite (IH i) by done. f_equal. lia.
Qed.
Lemma loadx_ext m ys : ∀ a x x', (∀ y, x y = x' y) → ∀ y, loadx a m ys x y = loadx a m ys x' y.
Proof. induction ys as [|z ys IH]; intros a x x' Hx y; cbn [loadx]; [done|]. apply IH. intros w. unfold up_cop. by destruct z, w; rewrite ?Hx. Qed.

Lemma t_popuf g x m r b a : 0 < r < 32 → 0 < b < 32 → r ≠ b → g b = a → a mod 4 = 0 → KERN_BASE ≤ a → a + 4 < 2 ^ 32 →
  triple (POPUF r b) g x m (up b (a + 4) (up r (ld32 m a) g)) x m.
Proof.
  intros Hr Hb Hne Ha Hm H1 H2. eapply triple_cons; [apply t_load; rewrite ?Ha; unfold is_reg, KERN_BASE in *; (done || lia)|].
  eapply triple_conseq; [apply t_addu; rewrite ?up_ne, ?Ha by congruence; unfold WORD_SIZE, KERN_BASE in *; lia| |done|done].
  intros j _. by rewrite (up_ne r), Ha by congruence.
Qed.

Lemma t_loads x m b rs : 0 < b < 32 → Forall (λ r, 0 < r < 32 ∧ r ≠ b) rs → ∀ g a, g b = a → a mod 4 = 0 → KERN_BASE ≤ a → a + 4 * Z.of_nat (length rs) < 2 ^ 32 →
  triple (mjoin ((λ r, POPUF r b) <$> rs)) g x m (up b (a + 4 * Z.of_nat (length rs)) (loadf a m rs g)) x m.
Proof.
  intros Hb. induction rs as [|r rs IH]; intros Hrs g a Ha Hm H1 H2; cbn [length] in *.
  - eapply triple_conseq; [apply triple_nil| |done|done]. intros j _. cbn. unfold up. destruct (Z.eqb_spec j b) as [->|]; [lia|done].
  - inversion_clear Hrs as [|? ? [Hr Hne] Hrs']. change (mjoin ((λ r, POPUF r b) <$> r :: rs)) with (POPUF r b ++ mjoin ((λ r, POPUF r b) <$> rs)).
    eapply triple_app; [apply (t_popuf g x m r b a); (done || lia)|].
    eapply triple_conseq; [apply (IH Hrs' _ (a + 4)); [apply up_eq|Z.to_euclidean_division_equations; lia|lia|lia]| |done|done].
    intros j _. cbn [loadf]. destruct (decide (j = b)) as [->|Hj]; [rewrite !up_eq; lia|]. rewrite !(up_ne b) by done.
    apply (loadf_ext m b); [|done]. intros i Hi. by apply up_ne.
Qed.

Lemma t_coloads m r b ys : 0 < r < 32 → 0 < b < 32 → r ≠ b → ∀ g x a, g b = a → a mod 4 = 0 → KERN_BASE ≤ a → a + 4 * Z.of_nat (length ys) < 2 ^ 32 →
  ∃ v, triple (mjoin ((λ y, POPUF r b ++ [MT r y]) <$> ys)) g x m (up b (a + 4 * Z.of_nat (length ys)) (up r v g)) (loadx a m ys x) m.
Proof.
  intros Hr Hb Hne. induction ys as [|y ys IH]; intros g x a Ha Hm H1 H2; cbn [length] in *.
  - exists (g r). eapply triple_conseq; [apply triple_nil| |done|done]. intros j _. unfold up. destruct (Z.eqb_spec j b) as [->|]; [lia|].
    by destruct (Z.eqb_spec j r) as [->|].
  - destruct (IH (up b (a + 4) (up r (ld32 m a) g)) (up_cop y (ld32 m a) x) (a + 4)) as [v Hv]; [apply up_eq|Z.to_euclidean_division_equations; lia|lia|lia|].
    exists v. change (mjoin ((λ y, POPUF r b ++ [MT r y]) <$> y :: ys)) with ((POPUF r b ++ [MT r y]) ++ mjoin ((λ y, POPUF r b ++ [MT r y]) <$> ys)).
    eapply triple_conseq; [eapply triple_app; [eapply triple_app; [apply (t_popuf g x m r b a); (done || lia)|apply t_mt; unfold is_reg; lia]|]| |done|done].
    + eapply triple_conseq in Hv; [|done|done|done]. intros u Hu. apply Hv. destruct Hu as [L R C M]. split; [done|done| |done].
      intros z. by rewrite C, up_ne, up_eq by done.
    + intros j _. unfold up. destruct (j =? b); [lia|]. by destruct (j =? r).
Qed.

(** ** The trap frame *)

(** A context or trap frame in memory. *)
Definition context_words (c : context) : list Z := gpr c ++ [c_lo c; c_hi c; c_status c; c_cause c; c_epc c; c_badvaddr c].
Definition frame_at (m : mem) (a : Z) (c : context) : Prop :=
  ∀ i w, context_words c !! i = Some w → ld32 m (a + 4 * Z.of_nat i) = w.

(** The registers hold words, and register 0 holds 0. *)
Record words_ok (c : context) : Prop := WordsOk {
  wo_gpr : frame_ok c;
  wo_zero : reg c 0 = 0;
  wo_cop : Forall (fits 32) [c_lo c; c_hi c; c_status c; c_cause c; c_epc c; c_badvaddr c] }.

(** The trap frame of a program interrupted with the registers [c]: k0 and k1 are
    the kernel's. *)
Definition trap_frame (c : context) : context :=
  Context ((λ i, if i =? k0 then c_lo c else if i =? k1 then reg c sp else reg c i) <$> seqZ 0 32)
    (c_lo c) (c_hi c) (c_status c) (c_cause c) (c_epc c) (c_badvaddr c).

(** The stack that an exception uses. *)
Definition trap_stack (kernelsp : Z) (s : machine) : Z :=
  if Z.land (c_status (cpu s)) ST_KSU =? 0 then rreg sp s
  else ld32 (ram s) (w32 (kernelsp + 4 * Z.land (ebase s) EBASE_CPUNUM_MASK)).

Definition stack_ok (top : Z) : Prop := top mod 4 = 0 ∧ KERN_BASE + SIZEOF_TRAPFRAME + 16 ≤ top < 2 ^ 32.

Lemma st_self s : frame_ok (cpu s) → st s (reg (cpu s)) (λ y, cop_read y s) (ram s).
Proof. intros [Hl _]. by split. Qed.

(** What the entry code saves, in the order in which it does. *)
Definition frame_cops : list cop := [CP0_BADVADDR; CP0_EPC; CP0_CAUSE; CP0_STATUS; HI; LO].
Definition frame_regs : list Z :=
  [ra; s8; k1; gp; k1; k0; t9; t8; s7; s6; s5; s4; s3; s2; s1; s0; t7; t6; t5; t4; t3; t2; t1; t0; a3; a2; a1; a0; v1; v0; AT; zero].

(** The frame is what [struct trapframe] says it is. *)
Lemma pushed_frame u m top : words_ok (cpu u) →
  frame_at (push_all top (((λ y, cop_read y u) <$> frame_cops) ++ (up k0 (c_lo (cpu u)) (up k1 (rreg sp u) (reg (cpu u))) <$> frame_regs)) m)
    (top - SIZEOF_TRAPFRAME) (trap_frame (cpu u)).
Proof.
  intros [Hf Hz Hc] i w Hi. set (c := cpu u) in *. set (vs := _ ++ _).
  assert (∀ i w, context_words (trap_frame c) !! i = Some w → vs !! (37 - i)%nat = Some w ∧ fits 32 w ∧ (i < 38)%nat) as Hall.
  { clear i w Hi. intros i w Hi. assert (i < 38)%nat as Hlt by exact (lookup_lt_Some _ _ _ Hi). split_and!; [| |done].
    - do 38 (destruct i as [|i]; [exact Hi|]). lia.
    - assert (Forall (fits 32) (context_words (trap_frame c))) as Hfw; [|by eapply Forall_lookup_1].
      unfold context_words, trap_frame. cbn [gpr c_lo c_hi c_status c_cause c_epc c_badvaddr]. apply Forall_app. split; [|exact Hc].
      apply Forall_fmap, Forall_forall. intros j _. unfold compose. pose proof (Forall_inv Hc) as Hlo. cbv beta in Hlo.
      destruct (j =? k0); [exact Hlo|]. destruct (j =? k1); exact (reg_fits _ _ Hf). }
  destruct (Hall i w Hi) as (Hv & Hw & Hlt). assert (top - SIZEOF_TRAPFRAME + 4 * Z.of_nat i = top - 4 * (Z.of_nat (37 - i) + 1)) as -> by (unfold SIZEOF_TRAPFRAME; lia).
  exact (push_all_in top vs m _ _ Hv Hw).
Qed.

Lemma save_frame_ok g x m top : g sp = top → stack_ok top →
  triple (PUSHCOPR k0 ++ PUSH ra ++ PUSH s8 ++ PUSH k1 ++ PUSH gp ++ PUSH k1 ++ PUSH k0 ++ PUSH t9 ++ PUSH t8 ++ PUSHAL) g x m
    (up sp (top - 152) (up k0 (x LO) g)) x (push_all top ((x <$> frame_cops) ++ (up k0 (x LO) g <$> frame_regs)) m).
Proof.
  intros Hsp [Ht1 Ht2]. unfold SIZEOF_TRAPFRAME, KERN_BASE in *.
  change (PUSHCOPR k0 ++ _) with (mjoin ((λ y, MF k0 y :: PUSH k0) <$> frame_cops) ++ mjoin (PUSH <$> frame_regs)).
  eapply triple_app; [apply (t_copushes x k0); [by ups|done|done|exact Hsp|done|cbn [frame_cops length]; unfold KERN_BASE; lia]|].
  eapply triple_conseq; [apply (t_pushes x); [repeat constructor; by ups|apply up_eq|cbn [frame_cops length]; Z.to_euclidean_division_equations; lia|cbn [frame_cops frame_regs length]; unfold KERN_BASE; lia]|..].
  - intros j _. cbn [frame_cops frame_regs length]. unfold up. destruct (j =? sp); [lia|done].
  - done.
  - rewrite push_all_app. by cbn [frame_cops length fmap list_fmap].
Qed.

(** From the frame to the C code. *)
Lemma enter_c_ok _gp g x m : let status := Z.lxor (Z.lor (x CP0_STATUS) ST_EXCM) ST_EXCM in g sp mod 4 = 0 → KERN_BASE + 16 ≤ g sp < 2 ^ 32 →
  triple [MF k0 CP0_STATUS; OR k0 ST_EXCM; XOR k0 ST_EXCM; MT k0 CP0_STATUS; MOVE a0 sp; LA gp _gp; SUBU sp 16; CPRESTORE] g x m
    (up sp (g sp - 16) (up gp _gp (up a0 (g sp) (up k0 status g)))) (up_cop CP0_STATUS status x) (st32 (g sp - 16) _gp m).
Proof.
  intros status Hm Hsp. unfold KERN_BASE in Hsp. eapply triple_cons; [by apply t_mf|].
  eapply triple_cons. { apply (t_alu _ _ _ _ k0 (Z.lor (x CP0_STATUS) ST_EXCM)); [done|]. intros u E. cbn [exec]. by rewrite E, up_eq. }
  eapply triple_cons. { apply (t_alu _ _ _ _ k0 status); [done|]. intros u E. cbn [exec]. by rewrite E, up_eq. }
  eapply triple_cons; [apply t_mt; by ups|]. eapply triple_cons; [apply t_move; by ups|]. eapply triple_cons; [by apply t_la|].
  eapply triple_cons; [apply t_subu; [done|unfold up; cbn; lia]|].
  eapply triple_conseq; [apply t_store; rewrite ?up_eq; [by ups|by ups|unfold up; cbn; Z.to_euclidean_division_equations; lia|unfold up, KERN_BASE; cbn; lia]|..].
  - intros j _. unfold up. destruct (j =? sp), (j =? gp), (j =? a0), (j =? k0); done.
  - intros y. by rewrite up_eq.
  - done.
Qed.

Section exceptions.
Context (_gp kernelsp : Z) (Hks : kernelsp mod 4 = 0 ∧ KERN_BASE ≤ kernelsp ∧ kernelsp + 4096 ≤ 2 ^ 32).

(** The choice of the stack. *)
Lemma saved_sp_ok g x m : let n := Z.land (x CP0_EBASE) EBASE_CPUNUM_MASK in
  triple (get_saved_sp kernelsp sp k0) g x m (up sp (ld32 m (kernelsp + 4 * n)) (up k0 (4 * n) g)) x m ∧ 0 ≤ n < 1024.
Proof.
  intros n. assert (0 ≤ n < 1024) as Hn.
  { unfold n, EBASE_CPUNUM_MASK. change 0x3ff with (Z.ones 10). rewrite Z.land_ones by lia. apply Z.mod_pos_bound. lia. }
  split; [|done]. unfold get_saved_sp, cpuid_. cbn [app]. eapply triple_cons; [by apply t_mf|]. eapply triple_cons.
  { apply (t_alu _ _ _ _ k0 n); [done|]. intros u E. cbn [exec]. by rewrite E, up_eq. }
  eapply triple_cons.
  { apply (t_alu _ _ _ _ k0 (4 * n)); [done|]. intros u E. cbn [exec]. rewrite E, up_eq, Z.shiftl_mul_pow2, wrap_small by (done || (unfold fits; change (2 ^ WORD_SHIFT) with 4; lia)).
    change (2 ^ WORD_SHIFT) with 4. by rewrite Z.mul_comm. }
  eapply triple_cons; [by apply t_la|]. eapply triple_cons.
  { intros u Hu. exists (wreg sp (kernelsp + 4 * n) u). cbn [run exec].
    rewrite (st_reg _ _ _ _ Hu sp), (st_reg _ _ _ _ Hu k0) by (by ups). rewrite up_eq, up_ne, up_eq by done.
    rewrite wrap_small by (unfold fits, KERN_BASE in *; lia). split; [done|]. by apply wreg_st. }
  eapply triple_conseq; [apply t_load; [done|by ups|rewrite up_eq..]| |done|done].
  - destruct Hks as (H1 & _). Z.to_euclidean_division_equations. lia.
  - lia.
  - intros j _. rewrite up_eq. unfold up. destruct (j =? sp); [done|]. by destruct (j =? k0).
Qed.

Lemma choose_stack_ok u : frame_ok (cpu u) → ∃ u1 u2 v, run [MF k0 CP0_STATUS; AND k0 ST_KSU; MOVE k1 sp] u = Ok u1 ∧
  (if rreg k0 u1 =? 0 then Ok u1 else run (get_saved_sp kernelsp sp k0) u1) = Ok u2 ∧
  st u2 (up sp (trap_stack kernelsp u) (up k1 (rreg sp u) (up k0 v (reg (cpu u))))) (λ y, cop_read y u) (ram u).
Proof.
  intros Hf. pose proof (st_self u Hf) as Hs. set (x := λ y, cop_read y u) in *. set (g := reg (cpu u)) in *.
  assert (triple [MF k0 CP0_STATUS; AND k0 ST_KSU; MOVE k1 sp] g x (ram u) (up k1 (g sp) (up k0 (Z.land (x CP0_STATUS) ST_KSU) g)) x (ram u)) as T1.
  { eapply triple_cons; [by apply t_mf|]. eapply triple_cons.
    { apply (t_alu _ _ _ _ k0 (Z.land (x CP0_STATUS) ST_KSU)); [done|]. intros u' E. cbn [exec]. by rewrite E, up_eq. }
    eapply triple_conseq; [apply t_move; by ups| |done|done]. intros j _. unfold up. by destruct (j =? k1), (j =? k0). }
  destruct (T1 u Hs) as (u1 & E1 & Hs1). exists u1. rewrite (st_reg _ _ _ _ Hs1 k0) by by ups. rewrite up_ne, up_eq by done.
  unfold trap_stack. change (c_status (cpu u)) with (x CP0_STATUS). destruct (Z.land (x CP0_STATUS) ST_KSU =? 0).
  - exists u1. eexists. split_and!; [done|done|]. destruct Hs1 as [L R C M]. split; [done| |done|done]. intros j Hj. rewrite R by done. unfold up.
    destruct (Z.eqb_spec j sp) as [->|]; done.
  - destruct (saved_sp_ok (up k1 (g sp) (up k0 (Z.land (x CP0_STATUS) ST_KSU) g)) x (ram u)) as [T2 Hn]. destruct (T2 u1 Hs1) as (u2 & -> & [L R C M]).
    exists u2. eexists. split_and!; [done|done|]. split; [done| |done|done]. intros j Hj. rewrite R by done. unfold up.
    destruct (j =? sp); [|destruct (Z.eqb_spec j k1) as [->|]; [done|by destruct (j =? k0)]]. change (x CP0_EBASE) with (ebase u) in *.
    by rewrite wrap_small by (unfold fits, KERN_BASE in *; lia).
Qed.

(** From the exception to the call of [trap_handler]. *)
Lemma entry_ok u : words_ok (cpu u) → stack_ok (trap_stack kernelsp u) →
  wp (generic_exception_entry _gp kernelsp u) (λ u', let f := trap_stack kernelsp u - SIZEOF_TRAPFRAME in
    rreg a0 u' = f ∧ rreg sp u' = f - 16 ∧ rreg gp u' = _gp ∧ frame_at (ram u') f (trap_frame (cpu u)) ∧
    c_status (cpu u') = Z.lxor (Z.lor (c_status (cpu u)) ST_EXCM) ST_EXCM ∧ (fits 32 _gp → ld32 (ram u') (f - 16) = _gp) ∧
    ∀ y, y < f - 16 ∨ f - 12 ≤ y < f ∨ f + SIZEOF_TRAPFRAME ≤ y → ram u' y = ram u y).
Proof.
  intros Hw Ht. unfold generic_exception_entry. destruct (choose_stack_ok u (wo_gpr _ Hw)) as (u1 & u2 & v & -> & E2 & Hs2). cbn [mbind res_bind]. rewrite E2. cbn [mbind res_bind].
  set (top := trap_stack kernelsp u) in *. pose proof Ht as [Ht1 Ht2]. unfold SIZEOF_TRAPFRAME, KERN_BASE in *.
  destruct (save_frame_ok _ (λ y, cop_read y u) (ram u) top (up_eq sp top _) Ht u2 Hs2) as (u3 & E3 & Hs3).
  edestruct (λ H1 H2, enter_c_ok _gp _ _ _ H1 H2 u3 Hs3) as (u4 & E4 & [L R C M]);
    [rewrite up_eq; Z.to_euclidean_division_equations; lia|rewrite up_eq; unfold KERN_BASE; lia|]. rewrite up_eq in R, M.
  rewrite !app_assoc, run_app. rewrite !app_assoc in E3. rewrite E3. cbn [mbind res_bind]. rewrite E4. cbn [wp]. split_and!.
  - by rewrite R by by ups.
  - rewrite R by by ups. rewrite up_eq. lia.
  - by rewrite R by by ups.
  - rewrite M. intros i w Hi. rewrite ld32_st32_ne by lia. exact (pushed_frame u (ram u) top Hw i w Hi).
  - exact (C CP0_STATUS).
  - intros Hg. rewrite M. by apply ld32_st32_eq.
  - intros y Hy. rewrite M, st32_out by lia. apply push_all_out. rewrite length_app, !length_fmap. cbn [frame_cops frame_regs length]. lia.
Qed.
End exceptions.

(** ** The way back *)
Definition exit_regs : list Z :=
  [AT; AT; v0; v1; a0; a1; a2; a3; t0; t1; t2; t3; t4; t5; t6; t7; s0; s1; s2; s3; s4; s5; s6; s7; t8; t9; k0; k1; gp; k0; s8; ra].

Lemma frame_reg m f tf j : frame_ok tf → frame_at m f tf → is_reg j → ld32 m (f + 4 * j) = reg tf j.
Proof.
  intros [Hl _] Hf Hj. unfold is_reg in Hj. destruct (lookup_lt_is_Some_2 (gpr tf) (Z.to_nat j)) as [w Hw]; [lia|].
  unfold reg, at_. rewrite (proj2 (Z.leb_le 0 j)), Hw by lia. cbn. rewrite <-(Hf (Z.to_nat j) w); [f_equal; lia|].
  unfold context_words. by rewrite lookup_app_l by lia.
Qed.

Lemma frame_cop m f tf i w : frame_ok tf → frame_at m f tf → [c_lo tf; c_hi tf; c_status tf; c_cause tf; c_epc tf; c_badvaddr tf] !! i = Some w →
  ld32 m (f + 128 + 4 * Z.of_nat i) = w.
Proof.
  intros [Hl _] Hf Hi. rewrite <-(Hf (32 + i)%nat w); [f_equal; lia|]. unfold context_words. rewrite lookup_app_r by lia. by replace (32 + i - length (gpr tf))%nat with i by lia.
Qed.

(** The positions of the registers in the list are their numbers. *)
Lemma exit_regs_at j : 0 < j < 32 → j ≠ k0 → j ≠ sp → exit_regs !! Z.to_nat j = Some j ∧ j ∉ drop (S (Z.to_nat j)) exit_regs.
Proof.
  intros Hj H1 H2. assert (Forall (λ j, j = k0 ∨ j = sp ∨ exit_regs !! Z.to_nat j = Some j ∧ j ∉ drop (S (Z.to_nat j)) exit_regs) (seqZ 1 31)) as Hall.
  { apply (bool_decide_unpack _). by vm_compute. }
  rewrite Forall_forall in Hall. destruct (Hall j) as [?|[?|?]]; [apply elem_of_seqZ; lia|done|done|done].
Qed.

Lemma exit_code_eq : exit_code = ([MOVE sp a0] ++ mjoin ((λ r, POPUF r sp) <$> exit_regs)) ++
  mjoin ((λ y, POPUF k1 sp ++ [MT k1 y]) <$> [LO; HI; CP0_STATUS; CP0_CAUSE; CP0_EPC; CP0_BADVADDR]) ++ [MOVE sp k0].
Proof. reflexivity. Qed.

Record resumed (tf : context) (u' : machine) : Prop := Resumed {
  re_reg j : 0 < j < 32 → j ≠ k0 → j ≠ k1 → rreg j u' = reg tf j;
  re_lo : c_lo (cpu u') = c_lo tf;
  re_hi : c_hi (cpu u') = c_hi tf;
  re_status : c_status (cpu u') = Z.land (c_status tf) (w32 (Z.lnot ST_EXL));
  re_pc : pc u' = c_epc tf }.

Lemma eret_ok u : (∀ j, rreg j (eret u) = rreg j u) ∧ c_lo (cpu (eret u)) = c_lo (cpu u) ∧ c_hi (cpu (eret u)) = c_hi (cpu u) ∧
  c_status (cpu (eret u)) = Z.land (c_status (cpu u)) (w32 (Z.lnot ST_EXL)) ∧ pc (eret u) = c_epc (cpu u) ∧ ram (eret u) = ram u.
Proof. unfold eret, cop_write, rreg, reg. by destruct (cpu u). Qed.

Lemma exit_ok u tf f : frame_ok tf → length (gpr (cpu u)) = 32%nat → rreg a0 u = f → frame_at (ram u) f tf → f mod 4 = 0 → KERN_BASE ≤ f → f + SIZEOF_TRAPFRAME < 2 ^ 32 →
  wp (trap_exit u) (λ u', resumed tf u' ∧ ram u' = ram u).
Proof.
  intros Htf Hlen Hf Hfr Hm H1 H2. unfold SIZEOF_TRAPFRAME in *. assert (st u (reg (cpu u)) (λ y, cop_read y u) (ram u)) as Hs by by split.
  unfold trap_exit. set (g := reg (cpu u)) in *. set (x := λ y, cop_read y u) in *. set (m := ram u) in *.
  destruct (t_coloads m k1 sp [LO; HI; CP0_STATUS; CP0_CAUSE; CP0_EPC; CP0_BADVADDR]) with (g := up sp (f + 128) (loadf f m exit_regs (up sp f g))) (x := x) (a := f + 128)
    as [v T3]; [done|done|done|apply up_eq|Z.to_euclidean_division_equations; lia|unfold KERN_BASE in *; lia|cbn; lia|].
  assert (triple ([MOVE sp a0] ++ mjoin ((λ r, POPUF r sp) <$> exit_regs)) g x m (up sp (f + 128) (loadf f m exit_regs (up sp f g))) x m) as T1.
  { eapply triple_app; [apply t_move; by ups|]. change (g a0) with (rreg a0 u). rewrite Hf.
    apply (t_loads x m sp exit_regs); [done|apply (bool_decide_unpack _); by vm_compute|apply up_eq|done|done|cbn [exit_regs length]; lia]. }
  destruct (triple_app _ _ _ _ _ _ _ _ _ _ _ T1 (triple_app _ _ _ _ _ _ _ _ _ _ _ T3 (t_move _ _ _ sp k0 ltac:(done) ltac:(by ups))) u Hs) as (u1 & E & [L R C M]).
  rewrite exit_code_eq, E. cbn [mbind res_bind wp].
  assert (∀ y, cop_read y u1 = loadx (f + 128) m [LO; HI; CP0_STATUS; CP0_CAUSE; CP0_EPC; CP0_BADVADDR] x y) as C' by done. cbn [loadx] in C'.
  pose proof (C' LO) as Clo. pose proof (C' HI) as Chi. pose proof (C' CP0_STATUS) as Cst. pose proof (C' CP0_EPC) as Cep. cbn in Clo, Chi, Cst, Cep.
  destruct (eret_ok u1) as (R1 & R2 & R3 & R4 & R5 & R6).
  split; [split|by rewrite R6].
  - intros j Hj Hk0 Hk1. rewrite R1, R by (ups; lia). unfold up at 1. destruct (Z.eqb_spec j sp) as [->|Hsp].
    + rewrite (up_ne sp), (up_ne k1), (up_ne sp) by done. rewrite (loadf_at m exit_regs k0 29) by (done || (apply (bool_decide_unpack _); by vm_compute)).
      by rewrite <-(frame_reg m f tf sp Htf Hfr) by by ups.
    + rewrite (up_ne sp), (up_ne k1), (up_ne sp) by done. destruct (exit_regs_at j Hj Hk0 Hsp) as [Hat Hno].
      rewrite (loadf_at m exit_regs j (Z.to_nat j)) by done. rewrite <-(frame_reg m f tf j Htf Hfr) by (unfold is_reg; lia). f_equal. lia.
  - rewrite R2, Clo, <-(frame_cop m f tf 0 _ Htf Hfr eq_refl). f_equal; lia.
  - rewrite R3, Chi, <-(frame_cop m f tf 1 _ Htf Hfr eq_refl). f_equal; lia.
  - rewrite R4, Cst, <-(frame_cop m f tf 2 _ Htf Hfr eq_refl). do 2 f_equal; lia.
  - rewrite R5, Cep, <-(frame_cop m f tf 4 _ Htf Hfr eq_refl). f_equal; lia.
Qed.

(** ** The way through the kernel *)

(** What the C code leaves for [trap_exit]: the address of the frame in a0, and the
    frame; the other registers and the rest of the memory are its own affair. *)
Record returns (f : Z) (tf : context) (u : machine) : Prop := Returns {
  rt_a0 : rreg a0 u = f;
  rt_frame : frame_at (ram u) f tf;
  rt_len : length (gpr (cpu u)) = 32%nat }.

Lemma trap_frame_reg c j : is_reg j → j ≠ k0 → j ≠ k1 → reg (trap_frame c) j = reg c j.
Proof.
  intros Hj H0 H1. unfold is_reg in Hj. unfold reg at 1, at_. rewrite (proj2 (Z.leb_le 0 j)) by lia. cbn [trap_frame gpr].
  rewrite list_lookup_fmap, lookup_seqZ_lt by lia. cbn. rewrite Z.add_0_l, Z2Nat.id by lia.
  by rewrite (proj2 (Z.eqb_neq _ _) H0), (proj2 (Z.eqb_neq _ _) H1).
Qed.

Lemma trap_frame_ok c : words_ok c → frame_ok (trap_frame c).
Proof.
  intros [Hf Hz Hc]. split; [done|]. cbn [trap_frame gpr]. apply Forall_fmap, Forall_forall. intros j _. unfold compose.
  pose proof (Forall_inv Hc) as Hlo. cbv beta in Hlo. destruct (j =? k0); [exact Hlo|]. destruct (j =? k1); exact (reg_fits _ _ Hf).
Qed.

Lemma linked_ok b tf p : frame_ok tf → frame_ok (linked b tf p).
Proof.
  intros [Hl Hf]. assert (∀ r, frame_ok (set_reg r (w32 (p + 8)) tf)) as Hs.
  { intros r. split; cbn [set_reg gpr]; [by rewrite length_insert|]. apply Forall_insert; [done|by apply wrap_fits]. }
  destruct b as [rs|rs rd|[|] i|c rs off l|ge rs off l]; cbn [linked]; try done; apply Hs.
Qed.

(** C16. The whole way of an exception: the entry code puts the registers of the
    interrupted program into a frame of the layout of [struct trapframe], on the
    kernel stack of the processor when the program is a user's (at the top of the
    stack, where [proc_trapframe] looks for it) and below the interrupted code's
    own stack otherwise, and calls [trap_handler] with the address of the frame, in
    kernel mode with interrupts off; the only other word it writes is the one that
    [.cprestore] fills with [gp], four words below the frame.  When the handler
    returns, whatever the C code did to the registers, [trap_exit] resumes with the
    frame's registers: outside a delay slot these are all registers of the program
    but k0 and k1, and it goes on at the instruction that was interrupted, or
    behind the system call or breakpoint. *)
Theorem trap_path_correct _gp kernelsp u um tr b :
  kernelsp mod 4 = 0 ∧ KERN_BASE ≤ kernelsp ∧ kernelsp + 4096 ≤ 2 ^ 32 → words_ok (cpu u) → stack_ok (trap_stack kernelsp u) →
  (Z.testbit (c_cause (cpu u)) 31 = true → resumes um (trap_frame (cpu u)) b) →
  let f := trap_stack kernelsp u - SIZEOF_TRAPFRAME in
  let code := EXCCODE (c_cause (cpu u)) in
  wp (generic_exception_entry _gp kernelsp u) (λ u1, rreg a0 u1 = f ∧ rreg sp u1 = f - 16 ∧ frame_at (ram u1) f (trap_frame (cpu u)) ∧
    Z.land (c_status (cpu u1)) ST_EXCM = 0 ∧ (fits 32 _gp → rreg gp u1 = _gp ∧ ld32 (ram u1) (f - 16) = _gp) ∧
    (∀ y, y < f - 16 ∨ f - 12 ≤ y < f ∨ f + SIZEOF_TRAPFRAME ≤ y → ram u1 y = ram u y) ∧
    match trap_handler um (trap_frame (cpu u)) (TrapState (c_status (cpu u1)) tr) with
    | Err e => e = Panicked ∧ code ≠ EC_sys ∧ code ≠ EC_bp ∧ code ≠ EC_int
    | Ok (tf, _) => ∀ u2, returns f tf u2 → wp (trap_exit u2) (λ u3, resumed tf u3 ∧ ram u3 = ram u2 ∧
        (Z.testbit (c_cause (cpu u)) 31 = false → (∀ j, 0 < j < 32 → j ≠ k0 → j ≠ k1 → rreg j u3 = rreg j u) ∧
          c_lo (cpu u3) = c_lo (cpu u) ∧ c_hi (cpu u3) = c_hi (cpu u) ∧
          pc u3 = (if code =? EC_int then c_epc (cpu u) else w32 (c_epc (cpu u) + 4))))
    end).
Proof.
  intros Hks Hw Ht Hb f code. pose proof Ht as [Ht1 Ht2]. pose proof (trap_frame_ok _ Hw) as Hok.
  eapply wp_mono; [by apply (entry_ok _gp kernelsp Hks)|]. intros u1 (E1 & E2 & Egp & Hfr & Hst & Hcp & Hram). split_and!; try done.
  { rewrite Hst. apply Z.bits_inj'. intros i Hi. autorewrite with bits. by destruct (Z.testbit (c_status (cpu u)) i), (Z.testbit ST_EXCM i). }
  { intros Hg. split; [exact Egp|by apply Hcp]. }
  assert (fits 32 (c_epc (cpu u))) as Hepc by exact (Forall_lookup_1 _ _ 4 _ (wo_cop _ Hw) eq_refl).
  pose proof (trap_handler_ok um (trap_frame (cpu u)) (TrapState (c_status (cpu u1)) tr) b Hok Hepc Hb) as Hh. cbn [trap_frame c_cause c_epc] in Hh.
  fold code in Hh. destruct (trap_handler um _ _) as [[tf ts]|e]; [|done]. intros u2 [R1 R2 R3].
  assert (frame_ok tf ∧ (Z.testbit (c_cause (cpu u)) 31 = false → gpr tf = gpr (trap_frame (cpu u)) ∧ c_lo tf = c_lo (cpu u) ∧ c_hi tf = c_hi (cpu u) ∧
      c_epc tf = if code =? EC_int then c_epc (cpu u) else w32 (c_epc (cpu u) + 4))) as [Htf Hback].
  { pose proof (linked_ok b _ (c_epc (cpu u)) Hok) as Hl.
    destruct Hh as [(-> & -> & _)|[(-> & -> & _)|(-> & -> & _)]]; destruct (Z.testbit (c_cause (cpu u)) 31); (split; [done|by intros ?]). }
  eapply wp_mono; [apply (exit_ok u2 tf f); [done|done|done|done|..]; unfold f, SIZEOF_TRAPFRAME, KERN_BASE in *; Z.to_euclidean_division_equations; lia|].
  intros u3 [Hr Hm]. split_and!; [done|done|]. intros Hbd. destruct (Hback Hbd) as (G1 & G2 & G3 & G4). destruct Hr as [Q1 Q2 Q3 Q4 Q5]. split_and!; [|congruence..].
  intros j Hj H0 H1. rewrite Q1 by done. unfold reg. rewrite G1. apply trap_frame_reg; unfold is_reg; (done || lia).
Qed.

(** The frame of a user's exception is where the process looks for it. *)
Lemma user_frame kernelsp u p : Z.land (c_status (cpu u)) ST_KSU ≠ 0 → stack_ok (trap_stack kernelsp u) →
  ld32 (ram u) (w32 (kernelsp + 4 * Z.land (ebase u) EBASE_CPUNUM_MASK)) = kstacktop p → trap_stack kernelsp u - SIZEOF_TRAPFRAME = proc_trapframe p.
Proof.
  intros Hu [_ Ht] Hk. unfold trap_stack in *. rewrite (proj2 (Z.eqb_neq _ _) Hu), Hk in *. unfold proc_trapframe.
  rewrite wrap_small; [done|]. unfold fits, SIZEOF_TRAPFRAME, KERN_BASE in *. lia.
Qed.

(** ** Switching between processes *)
Lemma t_pushue g x m r b a : is_reg r → 0 < b < 32 → g b = a → a mod 4 = 0 → KERN_BASE ≤ a → a + 4 < 2 ^ 32 →
  triple (PUSHUE r b) g x m (up b (a + 4) g) x (st32 a (g r) m).
Proof.
  intros Hr Hb Ha Hm H1 H2. eapply triple_cons; [apply t_store; rewrite ?Ha; unfold is_reg, KERN_BASE in *; (done || lia)|].
  eapply triple_conseq; [apply t_addu; rewrite ?Ha; unfold WORD_SIZE, KERN_BASE in *; lia| |done|by rewrite Ha].
  intros j _. by rewrite Ha.
Qed.

Lemma t_stores x b rs : 0 < b < 32 → Forall (λ r, is_reg r ∧ r ≠ b) rs → ∀ g m a, g b = a → a mod 4 = 0 → KERN_BASE ≤ a → a + 4 * Z.of_nat (length rs) < 2 ^ 32 →
  triple (mjoin ((λ r, PUSHUE r b) <$> rs)) g x m (up b (a + 4 * Z.of_nat (length rs)) g) x (store_up a (g <$> rs) m).
Proof.
  intros Hb. induction rs as [|r rs IH]; intros Hrs g m a Ha Hm H1 H2; cbn [length] in *.
  - eapply triple_conseq; [apply triple_nil| |done|done]. intros j _. unfold up. destruct (Z.eqb_spec j b) as [->|]; [lia|done].
  - inversion_clear Hrs as [|? ? [Hr Hne] Hrs']. change (mjoin ((λ r, PUSHUE r b) <$> r :: rs)) with (PUSHUE r b ++ mjoin ((λ r, PUSHUE r b) <$> rs)).
    eapply triple_app; [apply (t_pushue g x m r b a); (done || lia)|].
    eapply triple_conseq; [apply (IH Hrs' _ _ (a + 4)); [apply up_eq|Z.to_euclidean_division_equations; lia|lia|lia]|..]; [|done|].
    + intros j _. unfold up. destruct (j =? b); [lia|done].
    + cbn [fmap list_fmap store_up]. f_equal. apply list_fmap_ext. intros i y Hy%list_elem_of_lookup_2. rewrite Forall_forall in Hrs'. by rewrite up_ne by by apply Hrs'.
Qed.

Lemma t_costores x r b ys : 0 < r < 32 → 0 < b < 32 → r ≠ b → ∀ g m a, g b = a → a mod 4 = 0 → KERN_BASE ≤ a → a + 4 * Z.of_nat (length ys) < 2 ^ 32 →
  ∃ v, triple (mjoin ((λ y, MF r y :: PUSHUE r b) <$> ys)) g x m (up b (a + 4 * Z.of_nat (length ys)) (up r v g)) x (store_up a (x <$> ys) m).
Proof.
  intros Hr Hb Hne. induction ys as [|y ys IH]; intros g m a Ha Hm H1 H2; cbn [length] in *.
  - exists (g r). eapply triple_conseq; [apply triple_nil| |done|done]. intros j _. unfold up. destruct (Z.eqb_spec j b) as [->|]; [lia|].
    by destruct (Z.eqb_spec j r) as [->|].
  - destruct (IH (up b (a + 4) (up r (x y) g)) (st32 a (x y) m) (a + 4)) as [v Hv]; [apply up_eq|Z.to_euclidean_division_equations; lia|lia|lia|].
    exists v. change (mjoin ((λ y, MF r y :: PUSHUE r b) <$> y :: ys)) with (MF r y :: PUSHUE r b ++ mjoin ((λ y, MF r y :: PUSHUE r b) <$> ys)).
    eapply triple_cons; [by apply t_mf|]. eapply triple_app; [apply (t_pushue _ x m r b a); [unfold is_reg; lia|done|by rewrite up_ne by congruence|done|done|lia]|].
    rewrite up_eq. eapply triple_conseq; [exact Hv| |done|done]. intros j _. unfold up. destruct (j =? b); [lia|]. by destruct (j =? r).
Qed.

(** The context that [switch_regs] leaves at [a]: the register a0 has been used as
    the pointer. *)
Definition saved_context (c : context) (a : Z) : context :=
  Context ((λ i, if i =? a0 then a + 16 else reg c i) <$> seqZ 0 32) (c_lo c) (c_hi c) (c_status c) (c_cause c) (c_epc c) (c_badvaddr c).

Definition switch_loads : list Z :=
  [a2; AT; v0; v1; a0; a2; a2; a3; t0; t1; t2; t3; t4; t5; t6; t7; s0; s1; s2; s3; s4; s5; s6; s7; t8; t9; k0; k1; gp; sp; s8; ra].
Definition switch_cops : list cop := [LO; HI; CP0_STATUS; CP0_CAUSE; CP0_EPC; CP0_BADVADDR].

Lemma switch_save_eq : switch_save = mjoin ((λ r, PUSHUE r a0) <$> [zero; AT; v0; v1]) ++ PUSHUE a0 a0 ++ mjoin ((λ r, PUSHUE r a0) <$> seqZ 5 27) ++
  mjoin ((λ y, MF a2 y :: PUSHUE a2 a0) <$> switch_cops).
Proof. reflexivity. Qed.
Lemma switch_load_eq : switch_load = mjoin ((λ r, POPUF r a1) <$> switch_loads) ++ mjoin ((λ y, POPUF a2 a1 ++ [MT a2 y]) <$> switch_cops).
Proof. reflexivity. Qed.

(** Room for a context. *)
Definition context_room (a : Z) : Prop := a mod 4 = 0 ∧ KERN_BASE ≤ a ∧ a + SIZEOF_TRAPFRAME < 2 ^ 32.

Lemma up_up b v w g j : up b v (up b w g) j = up b v g j.
Proof. unfold up. by destruct (j =? b). Qed.

Lemma save_context_ok g x m a : g a0 = a → context_room a → ∃ v w,
  triple (mjoin ((λ r, PUSHUE r a0) <$> [zero; AT; v0; v1]) ++ PUSHUE a0 a0 ++ mjoin ((λ r, PUSHUE r a0) <$> seqZ 5 27) ++
      mjoin ((λ y, MF a2 y :: PUSHUE a2 a0) <$> switch_cops)) g x m
    (up a0 v (up a2 w g)) x (store_up a ((g <$> [zero; AT; v0; v1]) ++ [a + 16] ++ (g <$> seqZ 5 27) ++ (x <$> switch_cops)) m).
Proof.
  intros Ha (Hm & H1 & H2). unfold SIZEOF_TRAPFRAME, KERN_BASE in *. rewrite !store_up_app. cbn [length fmap list_fmap].
  set (m1 := store_up a (g <$> [zero; AT; v0; v1]) m). set (m2 := store_up (a + 4 * Z.of_nat 4) [a + 16] m1).
  replace (a + 4 * Z.of_nat 4 + 4 * Z.of_nat 1) with (a + 20) by lia.
  set (m3 := store_up (a + 20) (g <$> seqZ 5 27) m2). replace (a + 20 + 4 * Z.of_nat (length (g <$> seqZ 5 27))) with (a + 128) by (rewrite length_fmap, length_seqZ; lia).
  destruct (t_costores x a2 a0 switch_cops) with (g := up a0 (a + 128) g) (m := m3) (a := a + 128) as [w T4];
    [done|done|done|apply up_eq|Z.to_euclidean_division_equations; lia|unfold KERN_BASE; lia|cbn [switch_cops length]; lia|].
  exists (a + 152), w. apply (triple_app _ _ _ _ _ (up a0 (a + 16) g) x m1).
  { eapply triple_conseq; [apply (t_stores x a0 [zero; AT; v0; v1]); [done|repeat constructor; by ups|exact Ha|done|done|cbn [length]; lia]|done|done|done]. }
  apply (triple_app _ _ _ _ _ (up a0 (a + 20) g) x m2).
  { eapply triple_conseq; [apply (t_pushue _ _ _ a0 a0 (a + 16)); [by ups|done|apply up_eq|Z.to_euclidean_division_equations; lia|unfold KERN_BASE; lia|lia]|..]; [|done|].
    - intros j _. rewrite up_up. by replace (a + 16 + 4) with (a + 20) by lia.
    - rewrite up_eq. done. }
  apply (triple_app _ _ _ _ _ (up a0 (a + 128) g) x m3).
  { eapply triple_conseq; [apply (t_stores x a0 (seqZ 5 27)); [done|apply (bool_decide_unpack _); by vm_compute|apply up_eq|Z.to_euclidean_division_equations; lia|unfold KERN_BASE; lia|rewrite length_seqZ; lia]|..]; [|done|].
    - intros j _. rewrite up_up, length_seqZ. by replace (a + 20 + 4 * Z.of_nat (Z.to_nat 27)) with (a + 128) by lia.
    - unfold m3. f_equal. }
  eapply triple_conseq; [exact T4| |done|done]. intros j _. cbn [switch_cops length]. unfold up. destruct (j =? a0); [lia|done].
Qed.

Lemma switch_loads_at j : 0 < j < 32 → j ≠ a1 → j ≠ a2 → switch_loads !! Z.to_nat j = Some j ∧ j ∉ drop (S (Z.to_nat j)) switch_loads.
Proof.
  intros Hj H1 H2. assert (Forall (λ j, j = a1 ∨ j = a2 ∨ switch_loads !! Z.to_nat j = Some j ∧ j ∉ drop (S (Z.to_nat j)) switch_loads) (seqZ 1 31)) as Hall.
  { apply (bool_decide_unpack _). by vm_compute. }
  rewrite Forall_forall in Hall. destruct (Hall j) as [?|[?|?]]; [apply elem_of_seqZ; lia|done|done|done].
Qed.

(** The processor runs with the context [c], but for the registers that
    [switch_regs] uses. *)
Record switched_in (c : context) (u : machine) : Prop := SwitchedIn {
  sw_reg j : 0 < j < 32 → j ≠ a1 → j ≠ a2 → rreg j u = reg c j;
  sw_lo : c_lo (cpu u) = c_lo c;
  sw_hi : c_hi (cpu u) = c_hi c;
  sw_status : c_status (cpu u) = c_status c;
  sw_epc : c_epc (cpu u) = c_epc c }.

Lemma load_context_ok u g x m a c : st u g x m → g a1 = a → context_room a → frame_ok c → frame_at m a c →
  ∃ u', run (mjoin ((λ r, POPUF r a1) <$> switch_loads) ++ mjoin ((λ y, POPUF a2 a1 ++ [MT a2 y]) <$> switch_cops)) u = Ok u' ∧ ram u' = m ∧ switched_in c u'.
Proof.
  intros Hu Ha (Hm & H1 & H2) Hc Hfr. unfold SIZEOF_TRAPFRAME, KERN_BASE in *.
  destruct (t_coloads m a2 a1 switch_cops) with (g := up a1 (a + 128) (loadf a m switch_loads g)) (x := x) (a := a + 128) as [v T2];
    [done|done|done|apply up_eq|Z.to_euclidean_division_equations; lia|unfold KERN_BASE; lia|cbn [switch_cops length]; lia|].
  edestruct (triple_app _ _ _ _ _ _ _ _ _ _ _ (t_loads x m a1 switch_loads ltac:(done) ltac:(apply (bool_decide_unpack _); by vm_compute) g a Ha Hm H1 ltac:(cbn [switch_loads length]; lia)) T2 u Hu)
    as (u' & E & [L R C M]). exists u'. split; [exact E|]. split; [done|].
  pose proof (C LO) as Clo. pose proof (C HI) as Chi. pose proof (C CP0_STATUS) as Cst. pose proof (C CP0_EPC) as Cep. cbn in Clo, Chi, Cst, Cep. split.
  - intros j Hj N1 N2. rewrite R by (ups; lia). rewrite (up_ne a1), (up_ne a2), (up_ne a1) by done. destruct (switch_loads_at j Hj N1 N2) as [Hat Hno].
    rewrite (loadf_at m switch_loads j (Z.to_nat j)) by done. rewrite <-(frame_reg m a c j Hc Hfr) by (unfold is_reg; lia). f_equal. lia.
  - rewrite Clo, <-(frame_cop m a c 0 _ Hc Hfr eq_refl). f_equal; lia.
  - rewrite Chi, <-(frame_cop m a c 1 _ Hc Hfr eq_refl). f_equal; lia.
  - rewrite Cst, <-(frame_cop m a c 2 _ Hc Hfr eq_refl). f_equal; lia.
  - rewrite Cep, <-(frame_cop m a c 4 _ Hc Hfr eq_refl). f_equal; lia.
Qed.

Lemma saved_words c a : context_words (saved_context c a) = (reg c <$> [zero; AT; v0; v1]) ++ [a + 16] ++ (reg c <$> seqZ 5 27) ++ [c_lo c; c_hi c; c_status c; c_cause c; c_epc c; c_badvaddr c].
Proof. reflexivity. Qed.

Lemma saved_fits c a : words_ok c → context_room a → Forall (fits 32) (context_words (saved_context c a)).
Proof.
  intros [Hf _ Hc] (_ & H1 & H2). rewrite saved_words, !Forall_app. unfold SIZEOF_TRAPFRAME, KERN_BASE in *. split_and!.
  - apply Forall_fmap, Forall_forall. intros j _. exact (reg_fits _ _ Hf).
  - apply Forall_singleton. unfold fits. lia.
  - apply Forall_fmap, Forall_forall. intros j _. exact (reg_fits _ _ Hf).
  - exact Hc.
Qed.

Lemma switch_regs_ok u old new c : words_ok (cpu u) → rreg a0 u = old → rreg a1 u = new → context_room old → context_room new →
  old + SIZEOF_TRAPFRAME ≤ new ∨ new + SIZEOF_TRAPFRAME ≤ old → frame_ok c → frame_at (ram u) new c →
  wp (switch_regs_ u) (λ u', frame_at (ram u') old (saved_context (cpu u) old) ∧ switched_in c u' ∧ pc u' = reg c ra ∧
    ∀ y, y < old ∨ old + SIZEOF_TRAPFRAME ≤ y → ram u' y = ram u y).
Proof.
  intros Hw Ho Hn Hro Hrn Hdis Hc Hfr. pose proof (st_self u (wo_gpr _ Hw)) as Hs. pose proof Hro as (_ & _ & Ho2).
  destruct (save_context_ok (reg (cpu u)) (λ y, cop_read y u) (ram u) old Ho Hro) as (v & w & T). destruct (T u Hs) as (u1 & E1 & Hs1). unfold switch_regs_.
  rewrite switch_save_eq, E1. cbn [mbind res_bind].
  change (store_up old _ (ram u)) with (store_up old (context_words (saved_context (cpu u) old)) (ram u)) in Hs1.
  assert (length (context_words (saved_context (cpu u) old)) = 38%nat) as Hlen by done. set (ws := context_words _) in *. 
  assert (∀ y, y < old ∨ old + SIZEOF_TRAPFRAME ≤ y → store_up old ws (ram u) y = ram u y) as Hout.
  { intros y Hy. apply store_up_out. rewrite Hlen. unfold SIZEOF_TRAPFRAME in *. lia. }
  assert (frame_at (store_up old ws (ram u)) new c) as Hfr1.
  { intros i x Hi. rewrite <-(Hfr i x Hi). apply ld32_ext. intros y Hy. apply Hout. apply lookup_lt_Some in Hi. unfold context_words in Hi. rewrite length_app, (proj1 Hc) in Hi.
    cbn [length] in Hi. unfold SIZEOF_TRAPFRAME in *. lia. }
  destruct (load_context_ok u1 _ _ _ new c Hs1) as (u2 & E2 & Hm & Hin); [|done|done|done|].
  { rewrite !up_ne by done. exact Hn. }
  rewrite switch_load_eq, E2. cbn [mbind res_bind wp].
  split_and!.
  - change (ram (set_pc _ u2)) with (ram u2). rewrite Hm. intros i x Hi. apply store_up_in; [exact Hi|]. eapply Forall_lookup_1; [by apply (saved_fits (cpu u) old)|exact Hi].
  - destruct Hin. by split.
  - by apply (sw_reg _ _ Hin).
  - change (ram (set_pc _ u2)) with (ram u2). by rewrite Hm.
Qed.

Lemma saved_reg c a j : is_reg j → j ≠ a0 → reg (saved_context c a) j = reg c j.
Proof.
  intros Hj Hne. unfold is_reg in Hj. unfold reg at 1, at_. rewrite (proj2 (Z.leb_le 0 j)) by lia. cbn [saved_context gpr].
  rewrite list_lookup_fmap, lookup_seqZ_lt by lia. cbn. rewrite Z.add_0_l, Z2Nat.id by lia. by rewrite (proj2 (Z.eqb_neq _ _) Hne).
Qed.

(** C17. Switching processes ([switch_regs] of switch.S): the registers of the
    processor are saved in the first context and those of the second one loaded,
    in the layout of [struct context], so that execution goes on behind the call
    in which the second process was switched away; no other memory is written.
    When the processor, whatever it did in between, is switched back to the first
    context, it has the registers that it had at the call: all but the argument
    registers a0, a1 and a2, and it returns behind that call. *)
Theorem switch_regs_correct u old new c : words_ok (cpu u) → rreg a0 u = old → rreg a1 u = new → context_room old → context_room new →
  old + SIZEOF_TRAPFRAME ≤ new ∨ new + SIZEOF_TRAPFRAME ≤ old → frame_ok c → frame_at (ram u) new c →
  wp (switch_regs_ u) (λ u', switched_in c u' ∧ pc u' = reg c ra ∧ (∀ y, y < old ∨ old + SIZEOF_TRAPFRAME ≤ y → ram u' y = ram u y) ∧
    ∀ v other, words_ok (cpu v) → rreg a0 v = other → rreg a1 v = old → context_room other → other + SIZEOF_TRAPFRAME ≤ old ∨ old + SIZEOF_TRAPFRAME ≤ other →
      (∀ y, old ≤ y < old + SIZEOF_TRAPFRAME → ram v y = ram u' y) →
      wp (switch_regs_ v) (λ v', (∀ j, 0 < j < 32 → j ∉ [a0; a1; a2] → rreg j v' = rreg j u) ∧ pc v' = rreg ra u ∧
        c_lo (cpu v') = c_lo (cpu u) ∧ c_hi (cpu v') = c_hi (cpu u) ∧ c_status (cpu v') = c_status (cpu u) ∧ c_epc (cpu v') = c_epc (cpu u))).
Proof.
  intros Hw Ho Hn Hro Hrn Hdis Hc Hfr. eapply wp_mono; [by apply (switch_regs_ok u old new c)|]. intros u' (Hsav & Hin & Hpc & Hout). split_and!; try done.
  intros v other Hwv Hv0 Hv1 Hr Hd Hkeep. assert (frame_ok (saved_context (cpu u) old)) as Hok.
  { split; [done|]. pose proof (saved_fits (cpu u) old Hw Hro) as Hf. unfold context_words in Hf. rewrite Forall_app in Hf. apply Hf. }
  eapply wp_mono; [apply (switch_regs_ok v other old (saved_context (cpu u) old)); try done|].
  { intros i x Hi. rewrite <-(Hsav i x Hi). apply ld32_ext. intros y Hy. apply Hkeep. apply lookup_lt_Some in Hi.
    change (length (context_words (saved_context (cpu u) old))) with 38%nat in Hi. unfold SIZEOF_TRAPFRAME. lia. }
  intros v' (_ & [S1 S2 S3 S4 S5] & Hp & _). split_and!; try done.
  - intros j Hj Hno. rewrite !not_elem_of_cons in Hno. destruct Hno as (N0 & N1 & N2 & _). rewrite S1 by done. apply saved_reg; [unfold is_reg; lia|done].
Qed.

(** ** The stack macros

    [PUSHUF] and its relatives are meant to come in pairs, but the pop of each name
    moves the pointer on instead of back: what undoes the push of a name is the pop
    of another one. *)
Theorem stack_macros g x m r b a : 0 < r < 32 → 0 < b < 32 → r ≠ b → g b = a → a mod 4 = 0 → KERN_BASE + 8 ≤ a → a + 8 < 2 ^ 32 → fits 32 (g r) →
  triple (PUSHUF r b ++ POPUF r b) g x m (up b (a + 8) (up r (g r) g)) x (st32 (a + 4) (g r) m) ∧
  triple (PUSHUF r b ++ POPDF r b) g x m g x (st32 (a + 4) (g r) m).
Proof.
  intros Hr Hb Hne Ha Hm H1 H2 Hf. unfold KERN_BASE in *.
  assert (triple (PUSHUF r b ++ [LOAD r b]) g x m (up r (g r) (up b (a + 4) g)) x (st32 (a + 4) (g r) m)) as T.
  { eapply triple_app; [eapply triple_cons; [apply t_addu; [done|rewrite Ha; unfold WORD_SIZE; lia]|apply t_store; rewrite ?up_eq, ?Ha; unfold is_reg, WORD_SIZE, KERN_BASE; try lia; Z.to_euclidean_division_equations; lia]|].
    eapply triple_conseq; [apply t_load; rewrite ?up_eq, ?Ha; unfold is_reg, WORD_SIZE, KERN_BASE; try lia; Z.to_euclidean_division_equations; lia|..].
    - intros j _. rewrite !up_eq, Ha. unfold WORD_SIZE. rewrite (up_ne b) by done. by rewrite ld32_st32_eq.
    - done.
    - rewrite up_eq, up_ne, Ha by done. done. }
  split.
  - change (PUSHUF r b ++ POPUF r b) with ((PUSHUF r b ++ [LOAD r b]) ++ [ADDU b WORD_SIZE]). eapply triple_app; [exact T|].
    eapply triple_conseq; [apply t_addu; [done|]| |done|done].
    + rewrite up_ne, up_eq by congruence. unfold WORD_SIZE. lia.
    + intros j _. rewrite (up_ne r), up_eq by congruence. unfold WORD_SIZE, up. destruct (Z.eqb_spec j b); [lia|]. done.
  - change (PUSHUF r b ++ POPDF r b) with ((PUSHUF r b ++ [LOAD r b]) ++ [SUBU b WORD_SIZE]). eapply triple_app; [exact T|].
    eapply triple_conseq; [apply t_subu; [done|]| |done|done].
    + rewrite up_ne, up_eq by congruence. unfold WORD_SIZE. lia.
    + intros j _. rewrite (up_ne r), up_eq by congruence. unfold WORD_SIZE, up. destruct (Z.eqb_spec j b) as [->|]; [lia|]. by destruct (Z.eqb_spec j r) as [->|].
Qed.

(** ** Witnesses

    A user program at 0x400100 executes a system call; a process switch between
    contexts at 0x80320000 and 0x80330000. *)
Definition demo_cpu (status : Z) (args : list (Z * Z)) : context :=
  Context ((λ i, from_option snd (16 * i) (head (filter (λ p, p.1 = i) args))) <$> seqZ 0 32) 1 2 status 0x20 0x400100 0.
Definition demo_trap : machine := Machine (demo_cpu 0x12 []) 0 (st32 0x80300000 0x80310000 (λ _, 0)) 0x80000180.
Definition demo_switch : machine := Machine (demo_cpu 0 [(a0, 0x80320000); (a1, 0x80330000)]) 0 (st32 (0x80330000 + 4 * 31) 0x80001234 (λ _, 0)) 0x80002000.
Definition demo_next : context := Context (replicate 31 0 ++ [0x80001234]) 0 0 0 0 0 0.

Lemma demo_words status args : Forall (λ p, fits 32 p.2 ∧ p.1 ≠ 0) args → fits 32 status → words_ok (demo_cpu status args).
Proof.
  intros Ha Hs. assert (∀ i, 0 ≤ i < 32 → fits 32 (from_option snd (16 * i) (head (filter (λ p : Z * Z, p.1 = i) args)))) as Hf.
  { intros i Hi. destruct (filter _ args) as [|p l] eqn:E; cbn; [unfold fits; lia|]. assert (p ∈ filter (λ p : Z * Z, p.1 = i) args) as [_ Hp]%list_elem_of_filter by (rewrite E; left).
    rewrite Forall_forall in Ha. by apply Ha. }
  split; [split; [done|]| |].
  - cbn [demo_cpu gpr]. apply Forall_fmap, Forall_forall. intros j Hj%elem_of_seqZ. apply Hf. lia.
  - unfold reg, at_, demo_cpu. cbn [gpr]. change ((λ i, from_option snd (16 * i) (head (filter (λ p : Z * Z, p.1 = i) args))) 0 = 0). cbv beta.
    destruct (filter (λ p : Z * Z, p.1 = 0) args) as [|p l] eqn:E; [done|]. assert (p ∈ filter (λ p : Z * Z, p.1 = 0) args) as [Hp0 Hp]%list_elem_of_filter by (rewrite E; left).
    rewrite Forall_forall in Ha. by destruct (Ha p Hp).
  - cbn [demo_cpu c_lo c_hi c_status c_cause c_epc c_badvaddr]. repeat constructor; done || apply Hs.
Qed.

Lemma trap_path_correct_witness :
  wp (generic_exception_entry 0x80400000 0x80300000 demo_trap) (λ u1, rreg a0 u1 = 0x8030ff68 ∧
    match trap_handler (λ _, 0) (trap_frame (cpu demo_trap)) (TrapState (c_status (cpu u1)) []) with
    | Err _ => False
    | Ok (tf, _) => ∀ u2, returns 0x8030ff68 tf u2 → wp (trap_exit u2) (λ u3, rreg s0 u3 = 0x100 ∧ rreg sp u3 = 0x1d0 ∧ pc u3 = 0x400104)
    end).
Proof.
  eapply wp_mono; [apply (trap_path_correct 0x80400000 0x80300000 demo_trap (λ _, 0) [] (JumpReg 0))|].
  - by vm_compute.
  - by apply demo_words.
  - by vm_compute.
  - by vm_compute.
  - intros u1 (Ea & _ & _ & _ & _ & _ & Hh). split; [rewrite Ea; by vm_compute|]. destruct (trap_handler _ _ _) as [[tf ts]|e]; [|by destruct Hh as (_ & Hc & _); vm_compute in Hc].
    intros u2 Hu2. eapply wp_mono; [apply (Hh u2); exact Hu2|]. intros u3 (_ & _ & Hr). destruct Hr as (Hg & _ & _ & Hp); [by vm_compute|].
    split_and!; [rewrite Hg by done; by vm_compute..|rewrite Hp; by vm_compute].
Defined.

Lemma switch_regs_correct_witness :
  wp (switch_regs_ demo_switch) (λ u', pc u' = 0x80001234 ∧ ∀ v, words_ok (cpu v) → rreg a0 v = 0x80340000 → rreg a1 v = 0x80320000 →
    (∀ y, 0x80320000 ≤ y < 0x80320000 + SIZEOF_TRAPFRAME → ram v y = ram u' y) → wp (switch_regs_ v) (λ v', rreg s0 v' = 0x100 ∧ pc v' = 0x1f0)).
Proof.
  eapply wp_mono; [apply (switch_regs_correct demo_switch 0x80320000 0x80330000 demo_next)|].
  - apply demo_words; [|done]. repeat constructor; done.
  - by vm_compute.
  - by vm_compute.
  - by vm_compute.
  - by vm_compute.
  - left. by vm_compute.
  - split; [done|]. repeat constructor; done.
  - intros i w Hi. do 38 (destruct i as [|i]; [injection Hi as <-; by vm_compute|]). by apply lookup_lt_Some in Hi; cbn in Hi; lia.
  - intros u' (_ & Hp & _ & Hback). split; [rewrite Hp; by vm_compute|]. intros v Hv H0 H1 Hk.
    eapply wp_mono; [apply (Hback v 0x80340000 Hv H0 H1); [by vm_compute|right; by vm_compute|exact Hk]|].
    intros v' (Hg & Hp' & _). split; [rewrite Hg; [by vm_compute|done|]|rewrite Hp'; by vm_compute]. apply (bool_decide_unpack _). by vm_compute.
Defined.
