(* ===== verification/Start.v ===== *)
(** * The first run of a process

    What kern/arch/mips/proc.c prepares for a new process, from the switch to its
    context to the first instruction of its program: [switch_context] loads the
    context, execution goes on in [forkret], which ends the critical section of the
    scheduler and calls [proc_trap_return], and [trap_exit] of trapentry.S loads
    the trap frame at the top of the kernel stack. *)
From S2P Require Import Prelude Util DList MmState Libc Palloc Pmm Simple Vmm Init Cp0 Pgtable Sync Uvm Areas Tlb Proc Sched Trap Entry.

(** ** The trap frame in memory *)
Definition load_frame (m : mem) (f : Z) : context :=
  Context (ent m f <$> seqZ 0 32) (ent m f 32) (ent m f 33) (ent m f TF_STATUS) (ent m f TF_CAUSE) (ent m f TF_EPC) (ent m f 37).

(** [trap_return] on the frame at [tf]; the result is the argument of the jump to
    [trap_exit]. *)
Definition trap_return_at (tf : Z) (k : kernel) : res (Z * kernel) :=
  c ← my_regs k;
  let '(regs, s) := trap_return (load_frame (bytes (mw (uv k))) tf) (TrapState (c_status c) []) in
  k ← set_my_status (cp0_status s) k;
  Ok (tf, tf_set tf TF_STATUS (c_status regs) k).

Definition proc_trap_return (p : Z) (k : kernel) : res (Z * kernel) :=
  pr ← get_proc k p; trap_return_at (proc_trapframe pr) k.

Definition forkret (k : kernel) : res (Z * kernel) :=
  k ← sched_exit_critical k; p ← current_proc k; proc_trap_return p k.

(** The processor switches to [p] and goes on at the address in ra; [addr] is the
    address of [forkret]. *)
Definition first_run (addr p : Z) (k : kernel) : res (Z * kernel) :=
  k ← switch_context p k; c ← my_regs k;
  if reg c ra =? addr then forkret k else Err BadPtr.

(** ** Frames *)
Lemma load_frame_reg m f j : is_reg j → reg (load_frame m f) j = ent m f j.
Proof.
  unfold is_reg. intros Hj. unfold reg, at_, load_frame. cbn [gpr]. rewrite (proj2 (Z.leb_le 0 j)), list_lookup_fmap, lookup_seqZ_lt by lia.
  cbn. f_equal. lia.
Qed.

Lemma load_frame_at m f : frame_at m f (load_frame m f).
Proof. intros i w Hi. do 38 (destruct i as [|i]; [by injection Hi as <-|]). apply lookup_lt_Some in Hi. change (length (context_words (load_frame m f))) with 38%nat in Hi. lia. Qed.

Lemma load_frame_ok m f : (∀ x, fits 8 (m x)) → frame_ok (load_frame m f).
Proof. intros Hm. split; [done|]. cbn [load_frame gpr]. apply Forall_fmap, Forall_forall. intros j _. by apply ld32_fits. Qed.

(** Leaving through the frame at [f]. *)
Lemma leave_ok u m f : (∀ x, fits 8 (m x)) → ram u = m → rreg a0 u = f → length (gpr (cpu u)) = 32%nat →
  f mod 4 = 0 → KERN_BASE ≤ f → f + SIZEOF_TRAPFRAME < 2 ^ 32 → wp (trap_exit u) (λ u', resumed (load_frame m f) u' ∧ ram u' = m).
Proof.
  intros Hm <- Hf Hl H1 H2 H3. eapply wp_mono; [by apply (exit_ok u (load_frame (ram u) f) f (load_frame_ok _ _ Hm) Hl Hf (load_frame_at _ _))|]. done.
Qed.

(** ** [forkret] *)
Definition masked (status cpu_status : Z) : Z := Z.lor (Z.land status (w32 (Z.lnot ST_IM))) (Z.land cpu_status ST_IM).

Lemma restore_masks flags status : Z.land (local_irq_restore flags status) ST_IM = Z.land status ST_IM.
Proof.
  apply Z.bits_inj'. intros i Hi. unfold local_irq_restore. rewrite !Z.land_spec, Z.lor_spec, Z.lxor_spec, Z.lor_spec, Z.land_spec.
  assert (Z.testbit 1 i && Z.testbit ST_IM i = false) as H1 by (rewrite <-Z.land_spec; apply Z.bits_0).
  assert (Z.testbit 31 i && Z.testbit ST_IM i = false) as H2 by (rewrite <-Z.land_spec; apply Z.bits_0).
  by destruct (Z.testbit flags i), (Z.testbit status i), (Z.testbit 1 i), (Z.testbit 31 i), (Z.testbit ST_IM i).
Qed.

Lemma forkret_ok k p pr c : current_proc k = Ok p → procs k !! p = Some pr → my_regs k = Ok c →
  let tf := proc_trapframe pr in let m := bytes (mw (uv k)) in
  ∃ k', forkret k = Ok (tf, k') ∧ sched_lock k' = unlock (sched_lock k) ∧ currents k' = currents k ∧ procs k' = procs k ∧ kernelsp k' = kernelsp k ∧
    cpuid k' = cpuid k ∧ mms (uv k') = mms (uv k) ∧ mmu (uv k') = mmu (uv k) ∧ bytes (mw (uv k')) = st32 (tf + 4 * TF_STATUS) (masked (ent m tf TF_STATUS) (c_status c)) m.
Proof.
  intros Hcur Hp Hc tf m. unfold forkret, sched_exit_critical, irq_restore.
  assert (my_regs (set_sched_lock (unlock (sched_lock k)) k) = Ok c) as -> by done. cbn [mbind res_bind].
  destruct (set_my_status_ok (set_sched_lock (unlock (sched_lock k)) k) (local_irq_restore (sched_intrflags k) (c_status c)) c Hc) as (k1 & c1 & -> & S1 & L1 & Hc1 & E1). cbn [mbind res_bind].
  destruct S1 as [U1 P1 _ _ C1 _ K1 _]. cbn in U1, P1, C1, K1, L1. unfold current_proc, cpuid in *. rewrite C1, U1, Hcur. cbn [mbind res_bind].
  unfold proc_trap_return, get_proc, trap_return_at. rewrite P1, Hp. cbn [of_option mbind res_bind]. rewrite Hc1. cbn [mbind res_bind trap_return cp0_status c_status set_tf_status load_frame].
  destruct (set_my_status_ok k1 (Z.land (c_status c1) (w32 (Z.lnot ST_EXCM))) c1 Hc1) as (k2 & c2 & -> & S2 & L2 & _). cbn [mbind res_bind].
  destruct S2 as [U2 P2 _ _ C2 _ K2 _]. eexists. split; [done|]. cbn [tf_set set_uv set_mw set_ent upd_bytes sched_lock currents procs kernelsp uv this_cpu mms mmu mw bytes].
  rewrite L2, L1, C2, C1, P2, P1, K2, K1, U2, U1. split_and!; try done. rewrite E1, restore_masks. done.
Qed.

(** ** From the set-up to the first instruction

    [k1] is the kernel after the set-up of [p] and [k2] a later one that is about
    to switch to it: the context and the frame of [p] are as they were, and another
    process runs on this processor. *)
Record waiting (p : Z) (pr : proc) (k1 k2 : kernel) : Prop := Waiting {
  wt_frame x : proc_trapframe pr ≤ x < proc_trapframe pr + SIZEOF_TRAPFRAME → bytes (mw (uv k2)) x = bytes (mw (uv k1)) x;
  wt_fits x : fits 8 (bytes (mw (uv k2)) x);
  wt_proc : ∃ pr1 pr2 m, procs k1 !! p = Some pr1 ∧ procs k2 !! p = Some pr2 ∧ kstacktop pr1 = kstacktop pr ∧ kstacktop pr2 = kstacktop pr ∧
    p_context pr2 = p_context pr1 ∧ mms (uv k2) !! p_mm pr2 = Some m;
  wt_old : ∃ old, current_proc k2 = Ok old ∧ is_Some (procs k2 !! old) ∧ p ≠ old;
  wt_cpu : 0 ≤ cpuid k2 < Z.of_nat (length (currents k2));
  wt_len : length (cpu_regs k2) = length (currents k2) ∧ length (kernelsp k2) = length (currents k2) ∧ mmu_ok (length (currents k2)) (mmu (uv k2)) }.

(** The first run of [p] from [k2] leaves the critical section, with the page
    tables and the kernel stack of [p] in use, and then, whatever the other
    registers are, comes to a state of the processor that satisfies [Q]. *)
Definition starts (addr p : Z) (pr : proc) (k2 : kernel) (Q : machine → Prop) : Prop :=
  wp (first_run addr p k2) (λ '(f, k3),
    f = proc_trapframe pr ∧ current_proc k3 = Ok p ∧ sched_lock k3 = unlock (sched_lock k2) ∧ rd (kernelsp k3) (cpuid k3) = Ok (kstacktop pr) ∧
    (∃ pr3 m, procs k3 !! p = Some pr3 ∧ mms (uv k3) !! p_mm pr3 = Some m ∧ switched_to (cpuid k3) (pgindex m) (mmu (uv k3))) ∧
    ∀ u, ram u = bytes (mw (uv k3)) → rreg a0 u = f → length (gpr (cpu u)) = 32%nat → wp (trap_exit u) (λ u', Q u' ∧ ram u' = ram u)).

(** The program begins with the registers of the frame that the set-up left, and
    the interrupt masks of the processor that made it. *)
Definition begins (F : context) (cpu_status : Z) (u : machine) : Prop := resumed (set_tf_status (masked (c_status F) cpu_status) F) u.

(** A context that [__bootstrap_context] filled. *)
Definition bootstrapped (addr tf status : Z) (x : context) : Prop := reg x ra = addr ∧ reg x sp = tf ∧ c_status x = status.

Lemma kstack_frame pr : stack_ok (kstacktop pr) →
  let tf := proc_trapframe pr in tf = kstacktop pr - SIZEOF_TRAPFRAME ∧ tf mod 4 = 0 ∧ KERN_BASE ≤ tf ∧ tf + SIZEOF_TRAPFRAME < 2 ^ 32.
Proof.
  intros [H1 H2]. unfold proc_trapframe, KERN_BASE, SIZEOF_TRAPFRAME in *. cbv zeta. rewrite wrap_small by (unfold fits; lia).
  split_and!; [done|Z.to_euclidean_division_equations; lia|lia|lia].
Qed.

Lemma masked_fits s t : fits 32 s → fits 32 t → fits 32 (masked s t).
Proof.
  intros Hs Ht. assert (fits 32 (w32 (Z.lnot ST_IM))) as [Hn _] by by apply wrap_fits. by apply fits_lor; [|apply fits_land|apply fits_land].
Qed.

Lemma load_frame_status m m' f s : fits 32 s → (∀ x, f ≤ x < f + SIZEOF_TRAPFRAME → m' x = m x) →
  ∀ u, resumed (load_frame (st32 (f + 4 * TF_STATUS) s m') f) u → resumed (set_tf_status s (load_frame m f)) u.
Proof.
  intros Hs Hm. assert (∀ j, 0 ≤ j < 38 → ent (st32 (f + 4 * TF_STATUS) s m') f j = if j =? TF_STATUS then s else ent m f j) as He.
  { intros j Hj. rewrite ent_same by (unfold TF_STATUS; done || lia). destruct (j =? TF_STATUS); [done|]. apply ld32_ext. intros x Hx. apply Hm. unfold SIZEOF_TRAPFRAME. lia. }
  intros u [R1 R2 R3 R4 R5]. cbn [load_frame c_lo c_hi c_status c_epc] in *. split; cbn [set_tf_status load_frame c_lo c_hi c_status c_epc].
  - intros j Hj H0 H1. rewrite R1 by done. change (reg (set_tf_status s (load_frame m f)) j) with (reg (load_frame m f) j).
    rewrite !load_frame_reg, He by (unfold is_reg; lia). by rewrite (proj2 (Z.eqb_neq j TF_STATUS)) by (unfold TF_STATUS; lia).
  - by rewrite R2, He.
  - by rewrite R3, He.
  - by rewrite R4, He.
  - by rewrite R5, He.
Qed.

Lemma first_run_ok addr p pr k1 k2 c :
  stack_ok (kstacktop pr) → fits 32 (c_status c) → waiting p pr k1 k2 →
  (∀ pr1, procs k1 !! p = Some pr1 → bootstrapped addr (proc_trapframe pr) (c_status c) (p_context pr1)) →
  starts addr p pr k2 (begins (load_frame (bytes (mw (uv k1))) (proc_trapframe pr)) (c_status c)).
Proof.
  intros Hst Hcs [Hfr Hfit (pr1 & pr2 & m & Hp1 & Hp2 & T1 & T2 & Ecx & Hm) (old & Hcur & Hold & Hne) Hcpu (L1 & L2 & L3)] Hb. destruct (Hb _ Hp1) as (B1 & B2 & B3).
  destruct (kstack_frame pr Hst) as (_ & F1 & F2 & F3).
  assert (proc_trapframe pr2 = proc_trapframe pr) as Etf by (unfold proc_trapframe; by rewrite T2).
  unfold starts, first_run. destruct (switch_context_ok k2 p old pr2 m) as (k3 & c' & -> & _ & _ & _ & Ec & Hsw & Ecpu & Emm & _ & _ & _ & Elk & Hr & _ & _ & _ & Emw & _ & Eks & Hnew); try done.
  destruct (Hnew Hne) as [Hp3 ->]. cbn [mbind res_bind]. rewrite Hr. cbn [mbind res_bind]. rewrite Ecx, B1, Z.eqb_refl.
  assert (current_proc k3 = Ok p) as Hc3.
  { unfold current_proc. rewrite Ec, Ecpu. apply rd_lookup; [lia|]. apply list_lookup_insert_eq. lia. }
  destruct (forkret_ok k3 p pr2 _ Hc3 Hp3 Hr) as (k4 & -> & Elk4 & Ec4 & Ep4 & Eks4 & Ecpu4 & Emm4 & Emu4 & Eb4). rewrite Etf in *. cbn [wp]. split_and!.
  - done.
  - unfold current_proc in *. by rewrite Ec4, Ecpu4.
  - by rewrite Elk4, Elk.
  - rewrite Eks4, Ecpu4, Eks, Ecpu, T2. apply rd_lookup; [lia|]. apply list_lookup_insert_eq. lia.
  - exists pr2, m. rewrite Ep4, Emm4, Emm, Ecpu4, Ecpu, Emu4. done.
  - intros u Hu Ha Hl. rewrite Emw, Ecx, B3 in Eb4. set (M2 := bytes (mw (uv k2))) in *. set (M1 := bytes (mw (uv k1))) in *.
    assert (ent M2 (proc_trapframe pr) TF_STATUS = ent M1 (proc_trapframe pr) TF_STATUS) as Est.
    { apply ld32_ext. intros x Hx. apply Hfr. unfold TF_STATUS, SIZEOF_TRAPFRAME in *. lia. }
    rewrite Est in Eb4. eapply wp_mono; [apply (leave_ok u (bytes (mw (uv k4))) (proc_trapframe pr)); [|exact Hu|done..]|].
    { rewrite Eb4. by apply st32_fits. }
    intros u' [Hres Hram]. split; [|by rewrite Hram, Hu]. rewrite Eb4 in Hres. eapply load_frame_status in Hres; [exact Hres| |exact Hfr].
    apply masked_fits; [|done]. rewrite <-Est. by apply ld32_fits.
Qed.

(** ** What the set-ups leave *)
Definition set_cause (v : Z) (x : context) : context := Context (gpr x) (c_lo x) (c_hi x) (c_status x) v (c_epc x) (c_badvaddr x).

Section words.
Context (m : mem) (f v : Z).
Hypothesis Hv : fits 32 v.

Lemma ent_word i j : 0 ≤ i < 38 → 0 ≤ j < 38 → ent (st32 (f + 4 * i) v m) f j = if j =? i then v else ent m f j.
Proof. intros Hi Hj. apply ent_same; [done|lia|lia]. Qed.

Lemma load_frame_gpr i : is_reg i → load_frame (st32 (f + 4 * i) v m) f = set_reg i v (load_frame m f).
Proof.
  unfold is_reg. intros Hi. unfold load_frame, set_reg, TF_STATUS, TF_CAUSE, TF_EPC. cbn [gpr c_lo c_hi c_status c_cause c_epc c_badvaddr].
  rewrite !ent_word by lia. rewrite !(proj2 (Z.eqb_neq _ i)) by lia. f_equal. apply list_eq. intros n. destruct (decide (n < 32)%nat) as [Hn|Hn].
  - rewrite list_lookup_fmap, lookup_seqZ_lt by lia. cbn [fmap option_fmap option_map]. rewrite ent_word by lia. destruct (Z.eqb_spec (0 + Z.of_nat n) i) as [<-|Hne].
    + replace (Z.to_nat (0 + Z.of_nat n)) with n by lia. rewrite list_lookup_insert_eq; [done|]. rewrite length_fmap, length_seqZ. lia.
    + rewrite list_lookup_insert_ne by lia. by rewrite list_lookup_fmap, lookup_seqZ_lt by lia.
  - rewrite !lookup_ge_None_2; [done|rewrite length_insert, length_fmap, length_seqZ; lia|rewrite length_fmap, length_seqZ; lia].
Qed.

Lemma frame_regs_kept i : 32 ≤ i < 38 → ent (st32 (f + 4 * i) v m) f <$> seqZ 0 32 = ent m f <$> seqZ 0 32.
Proof.
  intros Hi. apply list_fmap_ext. intros n j [-> Hn]%lookup_seqZ. rewrite ent_word by lia. by rewrite (proj2 (Z.eqb_neq _ i)) by lia.
Qed.

Lemma load_frame_st : load_frame (st32 (f + 4 * TF_STATUS) v m) f = set_tf_status v (load_frame m f).
Proof. unfold load_frame, set_tf_status. rewrite frame_regs_kept by done. by rewrite !ent_word by done. Qed.
Lemma load_frame_cause : load_frame (st32 (f + 4 * TF_CAUSE) v m) f = set_cause v (load_frame m f).
Proof. unfold load_frame, set_cause. rewrite frame_regs_kept by done. by rewrite !ent_word by done. Qed.
Lemma load_frame_epc : load_frame (st32 (f + 4 * TF_EPC) v m) f = set_epc v (load_frame m f).
Proof. unfold load_frame, set_epc. rewrite frame_regs_kept by done. by rewrite !ent_word by done. Qed.
End words.

Lemma load_frame_blit m d s : load_frame (blit d s SIZEOF_TRAPFRAME m) d = load_frame m s.
Proof.
  assert (∀ j, 0 ≤ j < 38 → ent (blit d s SIZEOF_TRAPFRAME m) d j = ent m s j) as He.
  { intros j Hj. unfold ent. assert (∀ i, 0 ≤ i < 4 → blit d s SIZEOF_TRAPFRAME m (d + 4 * j + i) = m (s + 4 * j + i)) as Hb.
    { intros i Hi. unfold blit, SIZEOF_TRAPFRAME. rewrite (proj2 (Z.leb_le _ _)), (proj2 (Z.ltb_lt _ _)) by lia. cbn [andb]. f_equal. lia. }
    unfold ld32. rewrite !Hb by lia. rewrite <-(Z.add_0_r (d + 4 * j)), Hb by lia. by rewrite Z.add_0_r. }
  unfold load_frame. rewrite !He by done. f_equal. apply list_fmap_ext. intros n j [-> Hn]%lookup_seqZ. apply He. lia.
Qed.

(** The frame that [__bootstrap_trapframe] leaves. *)
Definition new_frame (status cause entry stacktop args : Z) (F : context) : context :=
  set_reg (Z.of_nat _A0) args (set_reg (Z.of_nat _SP) stacktop (set_reg (Z.of_nat _T9) entry (set_epc entry (set_tf_status (Z.lor status (Z.lor ST_IE ST_EXL)) (set_cause cause F))))).

Record only_memory (k k' : kernel) : Prop := OnlyMemory {
  om_procs : procs k' = procs k; om_regs : my_regs k' = my_regs k }.

Lemma bootstrap_trapframe_ok tf entry stacktop args k c : my_regs k = Ok c → fits 32 (c_status c) → fits 32 (c_cause c) → fits 32 entry → fits 32 stacktop → fits 32 args →
  ∃ k', bootstrap_trapframe tf entry stacktop args k = Ok k' ∧ only_memory k k' ∧
    load_frame (bytes (mw (uv k'))) tf = new_frame (c_status c) (c_cause c) entry stacktop args (load_frame (bytes (mw (uv k))) tf).
Proof.
  intros Hc Hs Hca He Ht Ha. unfold bootstrap_trapframe. rewrite Hc. cbn [mbind res_bind]. eexists. split; [done|]. split; [done|].
  unfold tf_get. cbn [tf_set set_uv set_mw set_ent upd_bytes uv mw bytes].
  assert (fits 32 (Z.lor (c_status c) (Z.lor ST_IE ST_EXL))) as Hs' by by apply fits_lor.
  rewrite (ent_word _ _ _ He TF_EPC TF_EPC), (ent_word _ _ _ Hca TF_CAUSE TF_STATUS), (ent_word _ _ _ Hs TF_STATUS TF_STATUS) by done.
  cbn [Z.eqb TF_STATUS TF_CAUSE TF_EPC Pos.eqb]. fold TF_STATUS TF_CAUSE TF_EPC.
  by rewrite !load_frame_gpr, load_frame_epc, load_frame_st, load_frame_cause, load_frame_st by done.
Qed.

Lemma bootstrap_context_ok addr p tf k c pr : my_regs k = Ok c → procs k !! p = Some pr → length (gpr (p_context pr)) = 32%nat →
  ∃ k' pr', bootstrap_context addr p tf k = Ok k' ∧ uv k' = uv k ∧ procs k' !! p = Some pr' ∧ kstacktop pr' = kstacktop pr ∧
    bootstrapped addr tf (c_status c) (p_context pr').
Proof.
  intros Hc Hp Hl. unfold bootstrap_context. rewrite Hc. cbn [mbind res_bind]. rewrite (upd_proc_ok k p _ pr Hp). eexists _, _. split; [done|]. split; [done|].
  split; [cbn [set_procs procs]; apply lookup_insert_eq|]. split; [done|]. cbn [set_context p_context]. unfold bootstrapped, reg, at_. cbn [gpr c_status].
  split_and!; [|by rewrite list_lookup_insert_eq by (rewrite !length_insert, Hl; unfold _SP; lia)|done].
  cbn [Z.leb Z.compare ra]. change (Z.to_nat ra) with _RA. rewrite !list_lookup_insert_ne by done. by rewrite list_lookup_insert_eq by (rewrite Hl; unfold _RA; lia).
Qed.

(** The state of the processor at the first instruction of a new program. *)
Record fresh (mode status entry stacktop args : Z) (F : context) (u : machine) : Prop := Fresh {
  fr_pc : pc u = entry;
  fr_sp : rreg sp u = stacktop;
  fr_a0 : rreg a0 u = args;
  fr_t9 : rreg t9 u = entry;
  fr_mode : Z.land (c_status (cpu u)) ST_KSU = mode;
  fr_ie : Z.testbit (c_status (cpu u)) 0 = true;
  fr_exl : Z.testbit (c_status (cpu u)) 1 = false;
  fr_im : Z.land (c_status (cpu u)) ST_IM = Z.land status ST_IM;
  fr_rest j : 0 < j < 32 → j ∉ [a0; t9; k0; k1; sp] → rreg j u = reg F j }.

(** The state of the processor when the child of a fork begins: that of the parent
    at its system call, but for the result. *)
Record forked (status : Z) (F : context) (u : machine) : Prop := Forked {
  fk_pc : pc u = c_epc F;
  fk_v0 : rreg v0 u = 0;
  fk_v1 : rreg v1 u = 0;
  fk_rest j : 0 < j < 32 → j ∉ [v0; v1; k0; k1] → rreg j u = reg F j;
  fk_lo : c_lo (cpu u) = c_lo F;
  fk_hi : c_hi (cpu u) = c_hi F;
  fk_status : c_status (cpu u) = Z.land (masked (c_status F) status) (w32 (Z.lnot ST_EXL)) }.

(** *** The status register *)
Lemma mask_apart a b i : Z.land a b = 0 → Z.testbit a i && Z.testbit b i = false.
Proof. intros E. by rewrite <-Z.land_spec, E, Z.bits_0. Qed.

(** Bits of a mask, one by one. *)
Lemma land_mask_ext x y mask : fits 32 mask → (∀ i, 0 ≤ i < 32 → Z.testbit x i && Z.testbit mask i = Z.testbit y i && Z.testbit mask i) → Z.land x mask = Z.land y mask.
Proof.
  intros Hm H. apply Z.bits_inj'. intros i Hi. rewrite !Z.land_spec. destruct (decide (i < 32)); [by apply H|].
  rewrite (fits_testbit_high 32 mask) by (done || lia). by rewrite !andb_false_r.
Qed.

Definition left_status (S status : Z) : Z := Z.land (masked S status) (w32 (Z.lnot ST_EXL)).

Lemma left_status_bits S status i : 0 ≤ i < 32 → Z.testbit (left_status S status) i =
  (Z.testbit S i && negb (Z.testbit ST_IM i) || Z.testbit status i && Z.testbit ST_IM i) && negb (Z.testbit ST_EXL i).
Proof.
  intros Hi. unfold left_status, masked. autorewrite with bits. by rewrite (proj2 (Z.ltb_lt i 32)) by lia.
Qed.

Lemma left_status_ok S status : Z.land (left_status S status) ST_KSU = Z.land S ST_KSU ∧ Z.testbit (left_status S status) 0 = Z.testbit S 0 ∧
  Z.testbit (left_status S status) 1 = false ∧ Z.land (left_status S status) ST_IM = Z.land status ST_IM.
Proof.
  split_and!.
  - apply land_mask_ext; [done|]. intros i Hi. rewrite left_status_bits by done. pose proof (mask_apart ST_IM ST_KSU i eq_refl). pose proof (mask_apart ST_EXL ST_KSU i eq_refl).
    by destruct (Z.testbit S i), (Z.testbit status i), (Z.testbit ST_IM i), (Z.testbit ST_KSU i), (Z.testbit ST_EXL i).
  - rewrite left_status_bits by done. by destruct (Z.testbit S 0), (Z.testbit status 0).
  - rewrite left_status_bits by done. by destruct (Z.testbit S 1), (Z.testbit status 1).
  - apply land_mask_ext; [done|]. intros i Hi. rewrite left_status_bits by done. pose proof (mask_apart ST_IM ST_EXL i eq_refl).
    by destruct (Z.testbit S i), (Z.testbit status i), (Z.testbit ST_IM i), (Z.testbit ST_EXL i).
Qed.

Lemma kernel_status status : let S := Z.lor status (Z.lor ST_IE ST_EXL) in Z.land S ST_KSU = Z.land status ST_KSU ∧ Z.testbit S 0 = true.
Proof.
  split; [|rewrite Z.lor_spec; apply orb_true_r]. apply land_mask_ext; [done|]. intros i Hi. rewrite Z.lor_spec.
  pose proof (mask_apart (Z.lor ST_IE ST_EXL) ST_KSU i eq_refl). by destruct (Z.testbit status i), (Z.testbit (Z.lor ST_IE ST_EXL) i), (Z.testbit ST_KSU i).
Qed.

Lemma user_status S : Z.testbit S 0 = true → let S' := Z.lor (Z.land S (w32 (Z.lnot ST_KSU))) KSU_USER in Z.land S' ST_KSU = KSU_USER ∧ Z.testbit S' 0 = true.
Proof.
  intros H0. split; [|by rewrite Z.lor_spec, Z.land_spec, H0]. change KSU_USER with (Z.land KSU_USER ST_KSU) at 2. apply land_mask_ext; [done|]. intros i Hi. autorewrite with bits.
  rewrite (proj2 (Z.ltb_lt i 32)) by lia. by destruct (Z.testbit S i), (Z.testbit ST_KSU i), (Z.testbit KSU_USER i).
Qed.

(** *** The three kinds of new processes *)
Lemma starts_mono addr p pr k (P Q : machine → Prop) : (∀ u, P u → Q u) → starts addr p pr k P → starts addr p pr k Q.
Proof.
  intros HPQ H. unfold starts in *. eapply wp_mono; [exact H|]. intros [f k3] (H1 & H2 & H3 & H4 & H5 & H6). split_and!; try done.
  intros u Hu Ha Hl. eapply wp_mono; [by apply H6|]. intros u' [HP Hr]. split; [by apply HPQ|done].
Qed.

Lemma reg_set_reg F i j v : length (gpr F) = 32%nat → is_reg i → is_reg j → reg (set_reg i v F) j = if j =? i then v else reg F j.
Proof. unfold is_reg. intros Hl Hi Hj. unfold reg, set_reg. cbn [gpr]. by rewrite at_insert by lia. Qed.

Lemma begins_fresh status cause entry stacktop args S F u : length (gpr F) = 32%nat → Z.testbit S 0 = true →
  begins (set_tf_status S (new_frame status cause entry stacktop args F)) status u → fresh (Z.land S ST_KSU) status entry stacktop args F u.
Proof.
  intros Hl H0 [R1 R2 R3 R4 R5]. destruct (left_status_ok S status) as (L1 & L2 & L3 & L4). change (c_status (cpu u) = left_status S status) in R4.
  assert (∀ j, 0 < j < 32 → j ≠ k0 → j ≠ k1 → rreg j u = if j =? a0 then args else if j =? sp then stacktop else if j =? t9 then entry else reg F j) as Hreg.
  { intros j Hj N0 N1. rewrite R1 by done. unfold set_tf_status, new_frame. cbn [c_status]. 
    change (reg (Context _ _ _ _ _ _ _) j) with (reg (set_reg (Z.of_nat _A0) args (set_reg (Z.of_nat _SP) stacktop (set_reg (Z.of_nat _T9) entry F))) j).
    rewrite !reg_set_reg by (unfold is_reg, _A0, _SP, _T9; cbn [set_reg gpr]; rewrite ?length_insert; lia). done. }
  split; rewrite ?R4, ?L1, ?L2; try done; try by rewrite Hreg.
  intros j Hj Hno. rewrite !not_elem_of_cons in Hno. destruct Hno as (N0 & N1 & N2 & N3 & N4 & _). rewrite Hreg by done.
  by rewrite (proj2 (Z.eqb_neq _ _) N0), (proj2 (Z.eqb_neq _ _) N1), (proj2 (Z.eqb_neq _ _) N4).
Qed.

Lemma begins_forked status F u : length (gpr F) = 32%nat → begins (set_reg v1 0 (set_reg v0 0 F)) status u → forked status F u.
Proof.
  intros Hl [R1 R2 R3 R4 R5].
  assert (∀ j, 0 < j < 32 → j ≠ k0 → j ≠ k1 → rreg j u = if j =? v1 then 0 else if j =? v0 then 0 else reg F j) as Hreg.
  { intros j Hj N0 N1. rewrite R1 by done. change (reg (set_tf_status _ (set_reg v1 0 (set_reg v0 0 F))) j) with (reg (set_reg v1 0 (set_reg v0 0 F)) j).
    by rewrite !reg_set_reg by (unfold is_reg, v1, v0; cbn [set_reg gpr]; rewrite ?length_insert; lia). }
  split; try done; try by rewrite Hreg.
  intros j Hj Hno. rewrite !not_elem_of_cons in Hno. destruct Hno as (N0 & N1 & N2 & N3 & _). rewrite Hreg by done.
  by rewrite (proj2 (Z.eqb_neq _ _) N0), (proj2 (Z.eqb_neq _ _) N1).
Qed.

Section setup.
Context (addr p : Z) (pr : proc) (k : kernel) (c : context).
Hypotheses (Hp : procs k !! p = Some pr) (Hst : stack_ok (kstacktop pr)) (Hlen : length (gpr (p_context pr)) = 32%nat)
  (Hc : my_regs k = Ok c) (Hs : fits 32 (c_status c)).

(** The last step of every set-up. *)
Lemma bootstrap_starts k1 (g : kernel → kernel) G : only_memory k k1 → (∀ k, procs (g k) = procs k) →
  (∀ k', uv k' = uv k1 → load_frame (bytes (mw (uv (g k')))) (proc_trapframe pr) = G) →
  wp (k ← bootstrap_context addr p (proc_trapframe pr) k1; Ok (g k)) (λ k', ∀ k2, waiting p pr k' k2 → starts addr p pr k2 (begins G (c_status c))).
Proof.
  intros [Ep Er] Hg HG. destruct (bootstrap_context_ok addr p (proc_trapframe pr) k1 c pr) as (k' & pr' & -> & Eu & Hp' & _ & Hb); [by rewrite Er|by rewrite Ep|done|].
  cbn [mbind res_bind wp]. intros k2 Hw. rewrite <-(HG k' Eu). apply (first_run_ok addr p pr (g k') k2 c); [done|done|done|].
  intros pr1. rewrite Hg, Hp'. by intros [= <-].
Qed.
End setup.

Lemma bind_ok {A} (m : res A) : (m ≫= Ok) = m.
Proof. by destruct m. Qed.

(** C18. A new process begins where it was told to.  After the set-up of a user
    process, the first switch to it runs [forkret], which leaves the critical
    section of the scheduler, and comes out of the kernel at the entry point, in user
    mode with interrupts on, with the given stack and argument, in the address
    space of the process and with its kernel stack noted for the next exception; a
    kernel thread does so in the mode of the kernel, on its kernel stack.  The child
    of a fork goes on at the instruction where its parent entered the kernel, with
    the registers of the parent but 0 as the result.  Whatever happens between the
    set-up and the switch, provided that the context and the trap frame stay. *)
Theorem first_run_correct addr p pr k c entry stacktop args :
  procs k !! p = Some pr → stack_ok (kstacktop pr) → length (gpr (p_context pr)) = 32%nat → my_regs k = Ok c →
  fits 32 (c_status c) → fits 32 (c_cause c) → fits 32 entry → fits 32 stacktop → fits 32 args →
  let F := load_frame (bytes (mw (uv k))) (proc_trapframe pr) in
  wp (arch_proc_usetup addr p entry stacktop args k) (λ k1, ∀ k2, waiting p pr k1 k2 →
    starts addr p pr k2 (fresh KSU_USER (c_status c) entry stacktop args F)) ∧
  wp (arch_proc_ksetup addr p entry args k) (λ k1, ∀ k2, waiting p pr k1 k2 →
    starts addr p pr k2 (fresh (Z.land (c_status c) ST_KSU) (c_status c) entry (kstacktop pr) args F)) ∧
  (∀ q qr, procs k !! q = Some qr → wp (arch_fork addr p q k) (λ k1, ∀ k2, waiting p pr k1 k2 →
    starts addr p pr k2 (forked (c_status c) (load_frame (bytes (mw (uv k))) (proc_trapframe qr))))).
Proof.
  intros Hp Hst Hlen Hc Hs Hca He Ht Ha F. set (tf := proc_trapframe pr) in *.
  assert (∀ w, length (gpr (load_frame (bytes w) tf)) = 32%nat) as HlF by done. destruct (kernel_status (c_status c)) as [K1 K2]. split_and!.
  - unfold arch_proc_usetup, get_proc. rewrite Hp. cbn [of_option mbind res_bind]. fold tf.
    destruct (bootstrap_trapframe_ok tf entry stacktop args k c) as (k1 & -> & Hom & E1); try done. cbn [mbind res_bind].
    set (S := Z.lor (c_status c) (Z.lor ST_IE ST_EXL)) in *. set (S' := Z.lor (Z.land S (w32 (Z.lnot ST_KSU))) KSU_USER).
    destruct (user_status S K2) as [U1 U2]. fold S' in U1, U2. assert (fits 32 S') as HS'.
    { assert (fits 32 (w32 (Z.lnot ST_KSU))) as [Hn _] by by apply wrap_fits. by apply fits_lor; [|apply fits_land; [|apply fits_lor|]|]. }
    eapply wp_mono; [apply (bootstrap_starts addr p pr k c Hp Hst Hlen Hc Hs k1 (bootstrap_user tf) (set_tf_status S' (new_frame (c_status c) (c_cause c) entry stacktop args F)) Hom)|]; [done| |].
    + intros k' Eu. unfold bootstrap_user, tf_get. rewrite Eu. change (ent (bytes (mw (uv k1))) tf TF_STATUS) with (c_status (load_frame (bytes (mw (uv k1))) tf)). rewrite E1.
      cbn [tf_set set_uv set_mw set_ent upd_bytes uv mw bytes]. rewrite Eu. change (c_status (new_frame _ _ _ _ _ _)) with S. fold S'. fold tf. rewrite load_frame_st by done. by rewrite E1.
    + intros k2 Hw k3 Hk3. eapply starts_mono; [|by apply (Hw k3 Hk3)]. intros u Hu. rewrite <-U1. by eapply begins_fresh.
  - unfold arch_proc_ksetup, get_proc. rewrite Hp. cbn [of_option mbind res_bind]. fold tf.
    destruct (bootstrap_trapframe_ok tf entry (kstacktop pr) args k c) as (k1 & -> & Hom & E1); try done; [by apply wrap_fits|]. cbn [mbind res_bind]. rewrite <-(bind_ok (bootstrap_context _ _ _ _)).
    eapply wp_mono; [apply (bootstrap_starts addr p pr k c Hp Hst Hlen Hc Hs k1 id (new_frame (c_status c) (c_cause c) entry (kstacktop pr) args F) Hom)|]; [done| |].
    + intros k' Eu. cbn [id]. by rewrite Eu.
    + intros k2 Hw k3 Hk3. eapply starts_mono; [|by apply (Hw k3 Hk3)]. intros u Hu. rewrite <-K1. apply (begins_fresh _ (c_cause c)); [done|done|exact Hu].
  - intros q qr Hq. unfold arch_fork, get_proc. rewrite Hp, Hq. cbn [of_option mbind res_bind]. fold tf. rewrite <-(bind_ok (bootstrap_context _ _ _ _)).
    eapply wp_mono; [apply (bootstrap_starts addr p pr k c Hp Hst Hlen Hc Hs _ id (set_reg v1 0 (set_reg v0 0 (load_frame (bytes (mw (uv k))) (proc_trapframe qr)))))|]; [done|done| |].
    + intros k' Eu. cbn [id]. rewrite Eu. cbn [tf_set set_uv set_mw set_ent upd_bytes uv mw bytes]. rewrite !load_frame_gpr by done. by rewrite load_frame_blit.
    + intros k2 Hw k3 Hk3. eapply starts_mono; [|by apply (Hw k3 Hk3)]. intros u Hu. by apply begins_forked.
Qed.

(** ** Witness

    The idle process at 0x1000 runs; the process at 0x2000, with its kernel stack at
    0x80330000, is set up to run at 0x400000 with the stack at 0x7ffff000 and the
    argument 5. *)
Definition demo_new_proc : proc :=
  Proc 0x80330000 0x1000 0 0 2 PS_RUNNABLE 0 0 0 (-1) 0 0 0x80103000 zero_context 0 0 [] 0 0 0 0 (Family 0 0 0 0) 0.
Definition demo_new : kernel :=
  Kernel (UvmState {[0x80103000 := Mm 0 0x80101000]} ∅ ∅ ∅ 0x80103000 None (CpuMmu [0; 0] [demo_cp0; demo_cp0]) 0 (upd_bytes (λ _ _, 0) mapped_w))
    (<[0x1000 := demo_proc 0 PS_ONPROC 0]>
      {[0x2000 := demo_new_proc]})
    ∅ [] 0 0 0 0x9000 [0x1000; 0x1000] [0x1000; 0x1000] [zero_context; zero_context] [0; 0].
Definition demo_set_up : kernel := match arch_proc_usetup 0x80001234 0x2000 0x400000 0x7ffff000 5 demo_new with Ok k => k | Err _ => demo_new end.


Definition bytes_ok (k : kernel) : Prop := ∀ x, fits 8 (bytes (mw (uv k)) x).
Definition keeps_bytes (m : res kernel) : Prop := match m with Ok k => bytes_ok k | Err _ => True end.

Lemma keeps_bind (m : res kernel) f : keeps_bytes m → (∀ k, bytes_ok k → keeps_bytes (f k)) → keeps_bytes (m ≫= f).
Proof. destruct m; [|done]. intros H Hf. exact (Hf _ H). Qed.
Lemma tf_set_kept tf i v k : bytes_ok k → bytes_ok (tf_set tf i v k).
Proof. intros H. exact (st32_fits _ _ _ H). Qed.

Lemma bootstrap_trapframe_kept tf entry stacktop args k : bytes_ok k → keeps_bytes (bootstrap_trapframe tf entry stacktop args k).
Proof.
  intros Hk. unfold bootstrap_trapframe. destruct (my_regs k) as [c|]; [|done]. cbn [mbind res_bind keeps_bytes]. by repeat apply tf_set_kept.
Qed.
Lemma bootstrap_context_kept addr p tf k : bytes_ok k → keeps_bytes (bootstrap_context addr p tf k).
Proof.
  intros Hk. unfold bootstrap_context, upd_proc. destruct (my_regs k) as [c|]; [|done]. cbn [mbind res_bind]. by destruct (get_proc k p).
Qed.
Lemma usetup_fits addr p entry stacktop args k : bytes_ok k → keeps_bytes (arch_proc_usetup addr p entry stacktop args k).
Proof.
  intros Hk. unfold arch_proc_usetup. destruct (get_proc k p) as [pr|]; [|done]. cbn [mbind res_bind].
  apply keeps_bind; [by apply bootstrap_trapframe_kept|]. intros k1 H1. apply keeps_bind; [by apply bootstrap_context_kept|]. intros k2 H2. by apply (tf_set_kept _ TF_STATUS).
Qed.

Definition demo_set_up_ok : bool :=
  match procs demo_set_up !! 0x2000, procs demo_set_up !! 0x1000, mms (uv demo_set_up) !! 0x80103000 with
  | Some pr, Some _, Some _ => (kstacktop pr =? kstacktop demo_new_proc) && (p_mm pr =? 0x80103000)
  | _, _, _ => false
  end.

Lemma demo_waiting : arch_proc_usetup 0x80001234 0x2000 0x400000 0x7ffff000 5 demo_new = Ok demo_set_up → waiting 0x2000 demo_new_proc demo_set_up demo_set_up.
Proof.
  intros E. assert (demo_set_up_ok = true) as Hok by (vm_compute; reflexivity). unfold demo_set_up_ok in Hok.
  destruct (procs demo_set_up !! 0x2000) as [pr|] eqn:Ep; [|done]. destruct (procs demo_set_up !! 0x1000) as [old|] eqn:Eo; [|done].
  destruct (mms (uv demo_set_up) !! 0x80103000) as [m|] eqn:Em; [|done]. apply andb_prop in Hok as [H1%Z.eqb_eq H2%Z.eqb_eq].
  split.
  - done.
  - pose proof (usetup_fits 0x80001234 0x2000 0x400000 0x7ffff000 5 demo_new ltac:(done)) as Hf. rewrite E in Hf. exact Hf.
  - exists pr, pr, m. rewrite H2. done.
  - exists 0x1000. rewrite Eo. split_and!; [vm_compute; reflexivity|by eexists|done].
  - by vm_compute.
  - assert (mmu (uv demo_set_up) = mmu (uv demo_new)) as -> by (vm_compute; reflexivity). assert (length (currents demo_set_up) = 2%nat) as -> by (vm_compute; reflexivity).
    split_and!; [vm_compute; reflexivity..|]. split; [done|done|]. by repeat constructor.
Qed.

Lemma first_run_correct_witness :
  arch_proc_usetup 0x80001234 0x2000 0x400000 0x7ffff000 5 demo_new = Ok demo_set_up ∧
  wp (first_run 0x80001234 0x2000 demo_set_up) (λ '(f, k), ∀ u, ram u = bytes (mw (uv k)) → rreg a0 u = f → length (gpr (cpu u)) = 32%nat →
    wp (trap_exit u) (λ u', pc u' = 0x400000 ∧ rreg sp u' = 0x7ffff000 ∧ rreg a0 u' = 5)).
Proof.
  destruct (first_run_correct 0x80001234 0x2000 demo_new_proc demo_new zero_context 0x400000 0x7ffff000 5 eq_refl ltac:(by vm_compute) eq_refl eq_refl
    ltac:(by vm_compute) ltac:(by vm_compute) ltac:(by vm_compute) ltac:(by vm_compute) ltac:(by vm_compute)) as [H _].
  assert (arch_proc_usetup 0x80001234 0x2000 0x400000 0x7ffff000 5 demo_new = Ok demo_set_up) as E.
  { unfold demo_set_up. destruct (arch_proc_usetup _ _ _ _ _ demo_new); [reflexivity|destruct H]. }
  split; [exact E|]. rewrite E in H. cbn [wp] in H. specialize (H demo_set_up (demo_waiting E)). unfold starts in H. revert H.
  generalize (first_run 0x80001234 0x2000 demo_set_up). intros r H. eapply wp_mono; [exact H|].
  intros [f k] (_ & _ & _ & _ & _ & Hu) u Hr Ha Hl. eapply wp_mono; [exact (Hu u Hr Ha Hl)|]. intros u' [[P1 P2 P3] _]. split_and!; assumption.
Defined.
