(* ===== verification/Snprintf.v ===== *)
(** * Formatted output to a string

    [vsnprintf] and [snprintf] of lib/libc/snprintf.c.  The format is the list of
    its characters, terminator included; reading past it is a [BadPtr].  The
    variable arguments are a list of 32-bit words ([int], [long] and pointers)
    and 64-bit values ([long long]); fetching one of the wrong size, or one that
    is not there, is a [BadPtr] too.  The function is a scanner with three
    positions: ordinary text, the label [fmt_loop], and the loop that reads the
    digits of a width. *)
From Stdlib Require Import Ascii.
From S2P Require Import Prelude Util MmState Libc.

Definition ch (a : ascii) : Z := Z.of_N (N_of_ascii a).
Arguments ch a%_char_scope.

Inductive va := VaWord (z : Z) | VaLLong (z : Z).

Definition FLAG_ZEROPAD : Z := 0x002.
Definition FLAG_NEG : Z := 0x100.
Definition BUF_LEN : Z := 25.

(** The local variables that live from one conversion to the next. *)
Record locals := Locals { width : Z; flag : Z; longflag : Z; ap : list va }.
(** The whole state: the memory, [pos], and the variables above. *)
Record pst := Pst { pmem : mem; pos : Z; lo : locals }.

(** Every piece of the body may execute the [return] inside [set_ch]. *)
Inductive out (A : Type) := Next (a : A) (s : pst) | Done (r : Z) (m : mem).
Arguments Next {A} a s.
Arguments Done {A} r m.
Definition pr (A : Type) : Type := pst → res (out A).
#[global] Instance pr_ret : MRet pr := λ A a s, Ok (Next a s).
#[global] Instance pr_bind : MBind pr := λ A B f m s,
  r ← m s; match r with Next a s' => f a s' | Done r m' => Ok (Done r m') end.

Definition with_locals (f : locals → locals) : pr unit :=
  λ s, Ok (Next tt (Pst (pmem s) (pos s) (f (lo s)))).
Definition set_width (w : Z) (l : locals) : locals := Locals w (flag l) (longflag l) (ap l).
Definition or_flag (f : Z) (l : locals) : locals := Locals (width l) (Z.lor (flag l) f) (longflag l) (ap l).
Definition set_longflag (n : Z) (l : locals) : locals := Locals (width l) (flag l) n (ap l).
Definition reset_spec (l : locals) : locals := Locals 0 0 (longflag l) (ap l).
Definition get_locals : pr locals := λ s, Ok (Next (lo s) s).
Definition get_pos : pr Z := λ s, Ok (Next (pos s) s).

(** [va_arg] *)
Definition va_word : pr Z := λ s,
  match ap (lo s) with
  | VaWord z :: ap => Ok (Next z (Pst (pmem s) (pos s) (Locals (width (lo s)) (flag (lo s)) (longflag (lo s)) ap)))
  | _ => Err BadPtr
  end.
Definition va_llong : pr Z := λ s,
  match ap (lo s) with
  | VaLLong z :: ap => Ok (Next z (Pst (pmem s) (pos s) (Locals (width (lo s)) (flag (lo s)) (longflag (lo s)) ap)))
  | _ => Err BadPtr
  end.

(** [getint(ap)] and [getuint(ap)]: [int] and [long] have 32 bits. *)
Definition getint : pr Z :=
  l ← get_locals;
  if (longflag l =? 0) || (longflag l =? 1) then z ← va_word; mret (sgn 32 z)
  else z ← va_llong; mret (sgn 64 z).
Definition getuint : pr Z :=
  l ← get_locals;
  if (longflag l =? 0) || (longflag l =? 1) then z ← va_word; mret (w32 z)
  else z ← va_llong; mret (w64 z).

Definition is_digit (c : Z) : bool := (ch "0" <=? c) && (c <=? ch "9").
Definition digit (x : Z) : Z := if x <=? 9 then ch "0" + x else ch "a" + x - 10.

(** The digits of [uval], least significant first, as [buf] receives them; [buf]
    has [BUF_LEN] characters. *)
Definition push (buf : list Z) (c : Z) : res (list Z) :=
  if Z.of_nat (length buf) <? BUF_LEN then Ok (buf ++ [c]) else Err BadPtr.
Definition digits_buf (base uval : Z) : res (list Z) :=
  buf ← loop 65 (λ '(buf, uval),
    if 0 <? uval then buf ← push buf (digit (uval mod base)); Ok (inl (buf, uval / base))
    else Ok (inr buf)) ([], uval);
  if Z.of_nat (length buf) =? 0 then push buf (ch "0") else Ok buf.

(** [case 'p'], [case 'x'] and the others differ in what they do before the
    common code at [get_uint] and [print_uint]. *)
Inductive conv := Cd | Co | Cx | Cp | Cu.
Definition base_of (k : conv) : Z :=
  match k with Cd => 10 | Co => 8 | Cx => 16 | Cp => 16 | Cu => 10 end.

Section print.
Context (str size : Z).

(** [set_ch(ch)] *)
Definition set_ch (c : Z) : pr unit := λ s,
  let m := store (w32 (str + pos s)) (w8 c) (pmem s) in
  let p := pos s + 1 in
  if w32 p =? size then Ok (Done (sgn 32 size) (store (w32 (str + size - 1)) 0 m))
  else Ok (Next tt (Pst m p (lo s))).

(** [while ((--buf_pos) >= 0) set_ch(buf[buf_pos])] *)
Fixpoint put_down (buf : list Z) (n : nat) : pr unit :=
  match n with
  | O => mret tt
  | S k => set_ch (default 0 (buf !! k));; put_down buf k
  end.

(** [while ((--width) >= 0)]: [pad] left of the digits in [buf]. *)
Fixpoint put_width (pad : Z) (buf : list Z) (n : nat) : pr unit :=
  match n with
  | O => mret tt
  | S k =>
    (if Z.of_nat (length buf) <=? Z.of_nat k then set_ch pad else set_ch (default 0 (buf !! k)));;
    put_width pad buf k
  end.

(** [print_uint] *)
Definition lift {A} (m : res A) : pr A := λ s, a ← m; Ok (Next a s).
Definition print_uint (base uval : Z) : pr unit :=
  buf ← lift (digits_buf base uval);
  l ← get_locals;
  if width l =? 0 then
    (if negb (Z.land (flag l) FLAG_NEG =? 0) then set_ch (ch "-") else mret tt);;
    put_down buf (length buf)
  else if (0 <? width l) && negb (Z.lor (flag l) FLAG_ZEROPAD =? 0) then
    (if negb (Z.land (flag l) FLAG_NEG =? 0) then set_ch (ch "-") else mret tt);;
    put_width (ch "0") buf (Z.to_nat (width l))
  else if 0 <? width l then
    buf ← lift (if negb (Z.land (flag l) FLAG_NEG =? 0) then push buf (ch "-") else Ok buf);
    put_width (ch " ") buf (Z.to_nat (width l))
  else mret tt.

(** The integer conversions. *)
Definition convert (k : conv) : pr unit :=
  match k with
  | Cd =>
    val ← getint;
    with_locals (set_longflag 0);;
    if val <? 0 then with_locals (or_flag FLAG_NEG);; print_uint 10 (w64 (- val))
    else print_uint 10 (w64 val)
  | _ =>
    (match k with
     | Cp => with_locals (λ l, set_width 8 (set_longflag 1 (or_flag FLAG_ZEROPAD l)))
     | _ => mret tt
     end);;
    uval ← getuint;
    with_locals (set_longflag 0);;
    print_uint (base_of k) uval
  end.

(** [case 's']: the copy loop stops at the terminator, at the latest when the
    buffer is full; then the padding. *)
Definition null_string : list Z := [ch "("; ch "n"; ch "u"; ch "l"; ch "l"; ch ")"].
Fixpoint put_list (cs : list Z) : pr unit :=
  match cs with [] => mret tt | c :: cs => set_ch c;; put_list cs end.
Fixpoint put_string (fuel : nat) (s len : Z) : pr Z :=
  match fuel with
  | O => lift (Err OutOfFuel)
  | S fuel => λ st,
    let c := pmem st s in
    if c =? 0 then Ok (Next len st) else (set_ch c;; put_string fuel (w32 (s + 1)) (len + 1)) st
  end.
Fixpoint put_times (c : Z) (n : nat) : pr unit :=
  match n with O => mret tt | S n => set_ch c;; put_times c n end.
Definition convert_s : pr unit :=
  s ← va_word;
  len ← (if s =? NULL then put_list null_string;; mret (Z.of_nat (length null_string))
         else put_string (S (Z.to_nat size)) s 0);
  l ← get_locals;
  put_times (ch " ") (Z.to_nat (width l - len)).
Definition convert_c : pr unit := c ← va_word; set_ch (w8 c).

Inductive scan := Text | Spec | Width.

(** The body of [vsnprintf], from the given position of the scanner on. *)
Fixpoint format (at_ : scan) (fmt : list Z) : pr Z :=
  match fmt with
  | [] => lift (Err BadPtr)
  | c :: fmt' =>
    let finish (m : pr unit) : pr Z := m;; with_locals reset_spec;; format Text fmt' in
    match at_ with
    | Text =>
      if c =? 0 then set_ch 0;; p ← get_pos; mret (p - 1)
      else if c =? ch "%" then format Spec fmt'
      else set_ch c;; format Text fmt'
    | _ =>
      let more := match at_ with Width => true | _ => negb (c =? ch "0") end in
      if is_digit c && more then
        with_locals (λ l, set_width (width l * 10 + (c - ch "0")) l);; format Width fmt'
      else if c =? ch "l" then
        with_locals (λ l, set_longflag (longflag l + 1) l);; format Spec fmt'
      else if c =? ch "d" then finish (convert Cd)
      else if c =? ch "o" then finish (convert Co)
      else if c =? ch "x" then finish (convert Cx)
      else if c =? ch "p" then finish (convert Cp)
      else if c =? ch "u" then finish (convert Cu)
      else if c =? ch "c" then finish convert_c
      else if c =? ch "s" then finish convert_s
      else if c =? ch "%" then finish (set_ch (ch "%"))
      else if c =? ch "0" then with_locals (or_flag FLAG_ZEROPAD);; format Spec fmt'
      else set_ch (ch "%");; set_ch c;; format Text fmt'
    end
  end.

Definition vsnprintf (fmt : list Z) (args : list va) (m : mem) : res (Z * mem) :=
  r ← format Text fmt (Pst m 0 (Locals 0 0 0 args));
  match r with Next n s => Ok (n, pmem s) | Done n m' => Ok (n, m') end.
End print.

Definition snprintf (str size : Z) (fmt : list Z) (args : list va) (m : mem) : res (Z * mem) :=
  vsnprintf str size fmt args m.

(** ** What the code prints for a format

    [renders] below describes the output of this implementation for all formats;
    what C prescribes is [c_renders], at the end of the file, where the two are
    compared. *)

(** The canonical numeral of [v]: most significant digit first, no leading zero.
    22 digits are enough for 64 bits in the bases 8, 10 and 16. *)
Fixpoint udigits (fuel : nat) (base v : Z) : list Z :=
  match fuel with
  | O => []
  | S fuel => if v <? base then [digit v] else udigits fuel base (v / base) ++ [digit (v mod base)]
  end.
Definition uint_text (base v : Z) : list Z := udigits 22 base v.

(** The value of a numeral. *)
Definition digit_val (c : Z) : Z := if c <=? ch "9" then c - ch "0" else c - ch "a" + 10.
Definition numeral (base : Z) (cs : list Z) : Z := foldl (λ v c, v * base + digit_val c) 0 cs.

(** A number in a field of [w] characters (0: as many as it needs).  The code
    tests [flag | FLAG_ZEROPAD], which is never 0: it puts zeros on the left with
    and without the zero flag, and keeps only the last [w] digits of a longer
    number.  This is not what C prescribes; see [c_field]. *)
Definition field (w : Z) (ds : list Z) : list Z :=
  if w =? 0 then ds
  else replicate (Z.to_nat w - length ds) (ch "0") ++ drop (length ds - Z.to_nat w) ds.
Definition int_text (base w v : Z) : list Z :=
  (if v <? 0 then [ch "-"] else []) ++ field w (uint_text base (Z.abs v)).

(** Directives and the format that spells them. *)
Inductive directive :=
| DText (c : Z)
| DPercent
| DChar
| DStr (w : Z)
| DInt (k : conv) (zero : bool) (w : Z) (longs : nat).

Definition letter (k : conv) : Z :=
  match k with Cd => ch "d" | Co => ch "o" | Cx => ch "x" | Cp => ch "p" | Cu => ch "u" end.
Definition width_text (w : Z) : list Z := if w =? 0 then [] else uint_text 10 w.
Definition directive_text (d : directive) : list Z :=
  match d with
  | DText c => [c]
  | DPercent => [ch "%"; ch "%"]
  | DChar => [ch "%"; ch "c"]
  | DStr w => ch "%" :: width_text w ++ [ch "s"]
  | DInt k zero w longs =>
    ch "%" :: (if zero then [ch "0"] else []) ++ width_text w ++ replicate longs (ch "l") ++ [letter k]
  end.
Definition format_text (ds : list directive) : list Z := concat (directive_text <$> ds) ++ [0].

Definition directive_ok (d : directive) : Prop :=
  match d with
  | DText c => 0 < c < 256 ∧ c ≠ ch "%"
  | DStr w => 0 ≤ w < 2 ^ 31
  | DInt _ _ w _ => 0 ≤ w < 2 ^ 31
  | _ => True
  end.

(** The value that an integer conversion takes from the argument, and its field. *)
Definition wide (k : conv) (longs : nat) : bool :=
  match k with Cp => false | _ => (2 <=? Z.of_nat longs) end.
Definition arg_val (k : conv) (n z : Z) : Z := match k with Cd => sgn n z | _ => wrap n z end.
Definition conv_width (k : conv) (w : Z) : Z := match k with Cp => 8 | _ => w end.

Section denotation.
Context (str size : Z) (m0 : mem).

Definition in_buf (a : Z) : Prop := str ≤ a < str + size.
(** A string in memory, apart from the output buffer. *)
Definition string_at (s : Z) (cs : list Z) : Prop :=
  0 < s ∧ s + Z.of_nat (length cs) < 2 ^ 32 ∧ m0 (s + Z.of_nat (length cs)) = 0 ∧
  (∀ a, s ≤ a ≤ s + Z.of_nat (length cs) → ¬ in_buf a) ∧
  (∀ i c, cs !! i = Some c → 0 < c < 256 ∧ m0 (s + Z.of_nat i) = c).

Inductive expands : directive → list va → list Z → list va → Prop :=
| ex_text c args : expands (DText c) args [c] args
| ex_percent args : expands DPercent args [ch "%"] args
| ex_char z args : expands DChar (VaWord z :: args) [w8 z] args
| ex_str w s cs args : string_at s cs →
    expands (DStr w) (VaWord s :: args) (cs ++ replicate (Z.to_nat (w - Z.of_nat (length cs))) (ch " ")) args
| ex_null w args :
    expands (DStr w) (VaWord NULL :: args)
      (null_string ++ replicate (Z.to_nat (w - Z.of_nat (length null_string))) (ch " ")) args
| ex_word k zero w longs z args : wide k longs = false →
    expands (DInt k zero w longs) (VaWord z :: args)
      (int_text (base_of k) (conv_width k w) (arg_val k 32 z)) args
| ex_llong k zero w longs z args : wide k longs = true →
    expands (DInt k zero w longs) (VaLLong z :: args)
      (int_text (base_of k) (conv_width k w) (arg_val k 64 z)) args.

Inductive renders : list directive → list va → list Z → Prop :=
| rn_nil args : renders [] args []
| rn_cons d ds args args' o os :
    directive_ok d → expands d args o args' → renders ds args' os → renders (d :: ds) args (o ++ os).
End denotation.

(** ** Numerals *)
Lemma digit_val_digit x : 0 ≤ x < 16 → digit_val (digit x) = x.
Proof.
  intros Hx. unfold digit_val, digit. change (ch "0") with 48. change (ch "9") with 57. change (ch "a") with 97.
  zcases; lia.
Qed.

Lemma numeral_snoc base cs c : numeral base (cs ++ [c]) = numeral base cs * base + digit_val c.
Proof. unfold numeral. by rewrite foldl_app. Qed.

Lemma udigits_S fuel base v : udigits (S fuel) base v =
  if v <? base then [digit v] else udigits fuel base (v / base) ++ [digit (v mod base)].
Proof. done. Qed.

(** Enough fuel: the number of digits is at most the logarithm. *)
Lemma udigits_ok fuel base v : 2 ≤ base ≤ 16 → 0 ≤ v < base ^ Z.of_nat fuel → (0 < fuel)%nat →
  numeral base (udigits fuel base v) = v ∧
  (length (udigits fuel base v) ≤ fuel)%nat ∧ udigits fuel base v ≠ [] ∧
  (v ≠ 0 → head (udigits fuel base v) ≠ Some (ch "0")) ∧
  Forall (λ c, ∃ x, 0 ≤ x < base ∧ c = digit x) (udigits fuel base v).
Proof.
  intros Hb. revert v. induction fuel as [|fuel IH]; intros v Hv Hf; [lia|]. rewrite udigits_S.
  destruct (Z.ltb_spec v base) as [Hlt|Hge].
  { split_and!; [unfold numeral; simpl; rewrite digit_val_digit; lia|simpl; lia|done| |].
    - intros Hv0 [= E]. unfold digit in E. change (ch "0") with 48 in E. change (ch "a") with 97 in E.
      destruct (Z.leb_spec v 9); lia.
    - apply Forall_singleton. exists v. lia. }
  assert (0 ≤ v / base < base ^ Z.of_nat fuel) as Hq.
  { split; [apply Z.div_pos; lia|]. apply Z.div_lt_upper_bound; [lia|].
    replace (Z.of_nat (S fuel)) with (1 + Z.of_nat fuel) in Hv by lia. rewrite Z.pow_add_r in Hv by lia. lia. }
  assert (0 < v / base) as Hq0 by (apply Z.div_str_pos; lia).
  destruct fuel as [|fuel]; [simpl in Hq; lia|].
  destruct (IH (v / base) Hq ltac:(lia)) as (H1 & H2 & H3 & H4 & H5).
  pose proof (Z.mod_pos_bound v base). pose proof (Z.div_mod v base).
  split_and!.
  - rewrite numeral_snoc, H1, digit_val_digit; lia.
  - rewrite length_app. cbn [length]. lia.
  - by destruct (udigits (S fuel) base (v / base)).
  - intros _. destruct (udigits (S fuel) base (v / base)); [done|]. apply H4. lia.
  - apply Forall_app. split; [done|]. apply Forall_singleton. exists (v mod base). lia.
Qed.

Definition bases (base : Z) : Prop := 8 ≤ base ≤ 16.
Lemma base_of_ok k : bases (base_of k).
Proof. destruct k; unfold bases; simpl; lia. Qed.

Lemma base_pow base v : bases base → fits 64 v → 0 ≤ v < base ^ Z.of_nat 22.
Proof.
  intros [Hb _] [Hv0 Hv]. split; [done|]. apply Z.lt_le_trans with (8 ^ 22); [lia|].
  apply Z.pow_le_mono_l. lia.
Qed.

Lemma buf_push_ok buf c : Z.of_nat (length buf) < BUF_LEN → push buf c = Ok (buf ++ [c]).
Proof. intros H. unfold push. by rewrite (proj2 (Z.ltb_lt _ _)). Qed.

Lemma digits_loop base fuel lf v buf : 2 ≤ base → 0 < v < base ^ Z.of_nat fuel →
  Z.of_nat (length buf) + Z.of_nat fuel ≤ BUF_LEN → (fuel < lf)%nat →
  loop lf (λ '(buf, uval),
    if 0 <? uval then buf ← push buf (digit (uval mod base)); Ok (inl (buf, uval / base))
    else Ok (inr buf)) (buf, v) = Ok (buf ++ reverse (udigits fuel base v)).
Proof.
  intros Hb. revert lf v buf. induction fuel as [|fuel IH]; intros lf v buf Hv Hl Hf; [simpl in Hv; lia|].
  destruct lf as [|lf]; [lia|]. cbn [loop]. rewrite (proj2 (Z.ltb_lt 0 v)) by lia.
  rewrite buf_push_ok by lia.
  cbn [mbind res_bind]. rewrite udigits_S. destruct (Z.ltb_spec v base) as [Hlt|Hge].
  { rewrite Z.div_small, Z.mod_small by lia. destruct lf as [|lf]; [lia|]. done. }
  replace (Z.of_nat (S fuel)) with (1 + Z.of_nat fuel) in Hv by lia. rewrite Z.pow_add_r in Hv by lia.
  rewrite IH.
  - by rewrite reverse_app, <-app_assoc.
  - split; [apply Z.div_str_pos; lia|]. apply Z.div_lt_upper_bound; lia.
  - rewrite length_app. cbn [length]. lia.
  - lia.
Qed.

Lemma digits_buf_ok base v : bases base → fits 64 v → digits_buf base v = Ok (reverse (uint_text base v)).
Proof.
  intros Hb Hv. pose proof (base_pow base v Hb Hv) as Hp. unfold digits_buf, uint_text.
  destruct (decide (v = 0)) as [->|Hv0].
  { rewrite udigits_S, (proj2 (Z.ltb_lt 0 base)) by (unfold bases in Hb; lia). done. }
  rewrite (digits_loop base 22) by (unfold bases, BUF_LEN in *; simpl length; lia).
  cbn [mbind res_bind app]. rewrite length_reverse.
  destruct (udigits_ok 22 base v) as (_ & _ & H & _); [unfold bases in Hb; lia|lia|lia|].
  by destruct (udigits 22 base v).
Qed.

(** Printing a number: for every 64-bit value and each of the bases 8, 10
    and 16 the digits fit in the local buffer of [vsnprintf]; read back as a
    numeral they give the value, and the first one is 0 only for the value 0. *)
Theorem print_number_roundtrip base v : bases base → fits 64 v →
  wp (digits_buf base v) (λ buf,
    Z.of_nat (length buf) < BUF_LEN ∧ numeral base (reverse buf) = v ∧
    (v ≠ 0 → last buf ≠ Some (ch "0")) ∧ Forall (λ c, 0 ≤ digit_val c < base) buf).
Proof.
  intros Hb Hv. rewrite digits_buf_ok by done. cbn [wp]. rewrite reverse_involutive, length_reverse, last_reverse.
  destruct (udigits_ok 22 base v) as (H1 & H2 & H3 & H4 & H5); [unfold bases in Hb; lia|by apply base_pow|lia|].
  split_and!; [unfold BUF_LEN; unfold uint_text; lia|done|done|].
  apply Forall_reverse. eapply Forall_impl; [exact H5|]. intros c (x & Hx & ->).
  unfold bases in Hb. rewrite digit_val_digit; lia.
Qed.

Lemma print_number_roundtrip_witness : wp (digits_buf 8 (2 ^ 64 - 1)) (λ buf, numeral 8 (reverse buf) = 2 ^ 64 - 1).
Proof. eapply wp_mono; [apply print_number_roundtrip; unfold bases, fits; lia|]. intros buf (_ & H & _). exact H. Defined.

(** ** Output into the buffer *)
Section emission.
Context (str size : Z) (m0 : mem).
Context (Hstr : 0 ≤ str) (Hsize : 0 < size < 2 ^ 31) (Hend : str + size ≤ 2 ^ 32).

(** The memory after [cs] was written at position [p], and after the buffer was
    filled up on the way and terminated. *)
Fixpoint put_mem (p : Z) (cs : list Z) (m : mem) : mem :=
  match cs with [] => m | c :: cs => put_mem (p + 1) cs (store (w32 (str + p)) (w8 c) m) end.
Definition cut (p : Z) (cs : list Z) (m : mem) : mem :=
  store (w32 (str + size - 1)) 0 (put_mem p (take (Z.to_nat (size - p)) cs) m).

Lemma put_mem_app cs1 cs2 p m :
  put_mem p (cs1 ++ cs2) m = put_mem (p + Z.of_nat (length cs1)) cs2 (put_mem p cs1 m).
Proof.
  revert p m. induction cs1 as [|c cs1 IH]; intros p m; cbn [put_mem app length].
  - by rewrite Z.add_0_r.
  - rewrite IH. f_equal. lia.
Qed.

Lemma put_mem_at cs p m a : 0 ≤ p → p + Z.of_nat (length cs) ≤ size →
  put_mem p cs m a =
    if (str + p <=? a) && (a <? str + p + Z.of_nat (length cs))
    then w8 (default 0 (cs !! Z.to_nat (a - str - p))) else m a.
Proof.
  revert p m. induction cs as [|c cs IH]; intros p m Hp Hl; cbn [put_mem length].
  { destruct (Z.leb_spec (str + p) a), (Z.ltb_spec a (str + p + Z.of_nat 0)); simpl; try done. lia. }
  cbn [length] in Hl. rewrite IH by lia. unfold store. rewrite (wrap_small 32) by (unfold fits; lia).
  destruct (Z.eqb_spec a (str + p)) as [->|Hne].
  - rewrite (proj2 (Z.leb_gt _ _)) by lia. cbn [andb]. rewrite Z.leb_refl, (proj2 (Z.ltb_lt _ _)) by lia. cbn [andb].
    by replace (str + p - str - p) with 0 by lia.
  - destruct (Z.leb_spec (str + (p + 1)) a), (Z.leb_spec (str + p) a); try lia; cbn [andb]; try done.
    rewrite (Z.ltb_compare a (str + (p + 1) + Z.of_nat (length cs))), (Z.ltb_compare a (str + p + Z.of_nat (S (length cs)))).
    replace (str + p + Z.of_nat (S (length cs))) with (str + (p + 1) + Z.of_nat (length cs)) by lia.
    destruct (a ?= _); try done.
    by replace (Z.to_nat (a - str - p)) with (S (Z.to_nat (a - str - (p + 1)))) by lia.
Qed.

Definition agrees (m : mem) : Prop := ∀ a, ¬ in_buf str size a → m a = m0 a.
Lemma put_mem_agrees p cs m : 0 ≤ p → p + Z.of_nat (length cs) ≤ size → agrees m → agrees (put_mem p cs m).
Proof.
  intros Hp Hl Hm a Ha. rewrite put_mem_at by done. unfold in_buf in Ha.
  destruct (Z.leb_spec (str + p) a), (Z.ltb_spec a (str + p + Z.of_nat (length cs))); cbn [andb]; try by apply Hm. lia.
Qed.

(** [c] outputs [cs], takes the local variables from [l] to [l'] and yields [a];
    or fills the buffer on the way. *)
Definition outcome {A} (p : Z) (m : mem) (cs : list Z) (a : A) (l' : locals) : res (out A) :=
  if p + Z.of_nat (length cs) <? size then Ok (Next a (Pst (put_mem p cs m) (p + Z.of_nat (length cs)) l'))
  else Ok (Done size (cut p cs m)).
Definition emits {A} (c : pr A) (l : locals) (cs : list Z) (a : A) (l' : locals) : Prop :=
  ∀ p m, 0 ≤ p < size → agrees m → c (Pst m p l) = outcome p m cs a l'.

Lemma emits_ret {A} (a : A) l : emits (mret a) l [] a l.
Proof.
  intros p m Hp _. unfold outcome. cbn [length]. rewrite (proj2 (Z.ltb_lt _ _)) by lia.
  cbn [put_mem]. by rewrite Z.add_0_r.
Qed.

Lemma emits_set_ch c l : emits (set_ch str size c) l [c] tt l.
Proof.
  intros p m Hp _. unfold set_ch, outcome. cbn [pos pmem lo length].
  rewrite (wrap_small 32 (p + 1)) by (unfold fits; lia).
  destruct (Z.eqb_spec (p + 1) size) as [E|Hne].
  - rewrite (proj2 (Z.ltb_ge _ _)) by lia. unfold cut.
    replace (Z.to_nat (size - p)) with 1%nat by lia.
    by rewrite sgn_small by lia.
  - rewrite (proj2 (Z.ltb_lt _ _)) by lia. done.
Qed.

(** The rule of sequential composition. *)
Lemma run_bind {A B} (c : pr A) (f : A → pr B) l cs a l' p m (r : res (out B)) :
  emits c l cs a l' → 0 ≤ p < size → agrees m →
  (p + Z.of_nat (length cs) < size → agrees (put_mem p cs m) →
     f a (Pst (put_mem p cs m) (p + Z.of_nat (length cs)) l') = r) →
  (size ≤ p + Z.of_nat (length cs) → Ok (Done size (cut p cs m)) = r) →
  (c ≫= f) (Pst m p l) = r.
Proof.
  intros Hc Hp Hm Hf Hd. unfold mbind, pr_bind. rewrite Hc by done. unfold outcome.
  destruct (Z.ltb_spec (p + Z.of_nat (length cs)) size); cbn [mbind res_bind].
  - apply Hf; [done|]. apply put_mem_agrees; [lia|lia|done].
  - by apply Hd.
Qed.

Lemma cut_app p cs1 cs2 m : size ≤ p + Z.of_nat (length cs1) → cut p (cs1 ++ cs2) m = cut p cs1 m.
Proof. intros H. unfold cut. by rewrite take_app_le by lia. Qed.
Lemma cut_app_2 p cs1 cs2 m : p + Z.of_nat (length cs1) < size →
  cut (p + Z.of_nat (length cs1)) cs2 (put_mem p cs1 m) = cut p (cs1 ++ cs2) m.
Proof.
  intros H. unfold cut. rewrite take_app_ge by lia. rewrite put_mem_app.
  by replace (Z.to_nat (size - p) - length cs1)%nat with (Z.to_nat (size - (p + Z.of_nat (length cs1)))) by lia.
Qed.

Lemma outcome_app {A} p m cs1 cs2 (a : A) l : p + Z.of_nat (length cs1) < size →
  outcome (p + Z.of_nat (length cs1)) (put_mem p cs1 m) cs2 a l = outcome p m (cs1 ++ cs2) a l.
Proof.
  intros H. unfold outcome. rewrite cut_app_2, put_mem_app, length_app by done.
  by rewrite !Nat2Z.inj_add, !Z.add_assoc.
Qed.
Lemma outcome_full {A} p m cs1 cs2 (a : A) l : size ≤ p + Z.of_nat (length cs1) →
  Ok (Done size (cut p cs1 m)) = outcome p m (cs1 ++ cs2) a l.
Proof.
  intros H. unfold outcome. rewrite length_app, cut_app by done. by rewrite (proj2 (Z.ltb_ge _ _)) by lia.
Qed.

Lemma emits_bind {A B} (c : pr A) (f : A → pr B) l cs1 a l1 cs2 b l2 :
  emits c l cs1 a l1 → emits (f a) l1 cs2 b l2 → emits (c ≫= f) l (cs1 ++ cs2) b l2.
Proof.
  intros Hc Hf p m Hp Hm. eapply run_bind; [exact Hc|done|done| |].
  - intros Hlt Hag. rewrite Hf by (done || lia). by apply outcome_app.
  - apply outcome_full.
Qed.

(** Steps that output nothing. *)
Definition silent {A} (c : pr A) (l : locals) (a : A) (l' : locals) : Prop := ∀ p m, c (Pst m p l) = Ok (Next a (Pst m p l')).
Lemma emits_silent {A B} (c : pr A) (f : A → pr B) l a l1 cs b l2 :
  silent c l a l1 → emits (f a) l1 cs b l2 → emits (c ≫= f) l cs b l2.
Proof. intros Hc Hf p m Hp Hm. unfold mbind, pr_bind. rewrite Hc. by apply Hf. Qed.
Lemma silent_lift {A} (m : res A) a l : m = Ok a → silent (lift m) l a l.
Proof. by intros ->. Qed.
Lemma silent_locals f l : silent (with_locals f) l tt (f l).
Proof. done. Qed.
Lemma silent_get l : silent get_locals l l l.
Proof. done. Qed.

(** *** The pieces of a conversion *)
Lemma emits_eq {A} (c : pr A) l cs cs' a l' : emits c l cs a l' → cs = cs' → emits c l cs' a l'.
Proof. by intros ? <-. Qed.

Lemma put_list_emits cs l : emits (put_list str size cs) l cs tt l.
Proof.
  induction cs as [|c cs IH]; [apply emits_ret; lia|].
  cbn [put_list]. apply (emits_bind _ _ l [c] tt l cs); [by apply emits_set_ch|done].
Qed.

Lemma put_times_list c n : put_times str size c n = put_list str size (replicate n c).
Proof. induction n as [|n IH]; [done|]. cbn [put_times replicate put_list]. by rewrite IH. Qed.

Lemma put_down_list buf n : (n ≤ length buf)%nat → put_down str size buf n = put_list str size (reverse (take n buf)).
Proof.
  induction n as [|n IH]; intros Hn; [done|]. cbn [put_down].
  destruct (lookup_lt_is_Some_2 buf n) as [c Hc]; [lia|].
  rewrite (take_S_r buf n c Hc), reverse_app, Hc. cbn [default reverse app]. by rewrite IH by lia.
Qed.

Lemma put_width_list pad buf n : put_width str size pad buf n =
  put_list str size (replicate (n - length buf) pad ++ reverse (take n buf)).
Proof.
  induction n as [|n IH]; [done|]. cbn [put_width].
  destruct (Z.leb_spec (Z.of_nat (length buf)) (Z.of_nat n)) as [Hle|Hgt]; rewrite IH.
  - rewrite !take_ge by lia. by replace (S n - length buf)%nat with (S (n - length buf)) by lia.
  - destruct (lookup_lt_is_Some_2 buf n) as [c Hc]; [lia|].
    rewrite (take_S_r buf n c Hc), reverse_app, Hc.
    replace (S n - length buf)%nat with 0%nat by lia. by replace (n - length buf)%nat with 0%nat by lia.
Qed.

Lemma field_text (pad : Z) (ds : list Z) (n : nat) :
  replicate (n - length (reverse ds)) pad ++ reverse (take n (reverse ds)) =
  replicate (n - length ds) pad ++ drop (length ds - n) ds.
Proof.
  rewrite length_reverse. f_equal. unfold reverse. rewrite <-!rev_alt, firstn_rev. by rewrite rev_involutive.
Qed.

Definition sign (f : Z) : list Z := if negb (Z.land f FLAG_NEG =? 0) then [ch "-"] else [].

Lemma print_uint_emits base v l : bases base → fits 64 v → 0 ≤ width l →
  emits (print_uint str size base v) l (sign (flag l) ++ field (width l) (uint_text base v)) tt l.
Proof.
  intros Hb Hv Hw. unfold print_uint.
  eapply emits_silent; [apply silent_lift; by apply digits_buf_ok|]. eapply emits_silent; [apply silent_get|].
  assert (emits (if negb (Z.land (flag l) FLAG_NEG =? 0) then set_ch str size (ch "-") else mret tt) l
    (sign (flag l)) tt l) as Hsign.
  { unfold sign. destruct (negb _); [by apply emits_set_ch|apply emits_ret; lia]. }
  unfold field. destruct (Z.eqb_spec (width l) 0) as [E|E].
  - eapply emits_bind; [exact Hsign|]. rewrite put_down_list by done.
    rewrite take_ge by done. rewrite reverse_involutive. apply put_list_emits.
  - rewrite (proj2 (Z.ltb_lt 0 (width l))) by lia.
    rewrite (proj2 (Z.eqb_neq (Z.lor (flag l) FLAG_ZEROPAD) 0)).
    + cbn [negb andb]. eapply emits_bind; [exact Hsign|]. rewrite put_width_list, field_text. apply put_list_emits.
    + intros H. apply (f_equal (λ z, Z.testbit z 1)) in H. rewrite Z.lor_spec, Z.bits_0 in H.
      change (Z.testbit FLAG_ZEROPAD 1) with true in H. by rewrite orb_true_r in H.
Qed.

Lemma put_string_emits cs fuel s n p m l : 0 ≤ p < size → agrees m → size - p < Z.of_nat fuel →
  string_at str size m0 s cs →
  put_string str size fuel s n (Pst m p l) = outcome p m cs (n + Z.of_nat (length cs)) l.
Proof.
  revert fuel s n p m. induction cs as [|c cs IH]; intros fuel s n p m Hp Hm Hf (Hs & Hb & Hz & Hout & Hcs);
    (destruct fuel as [|fuel]; [lia|]); cbn [put_string pmem].
  { cbn [length] in *. rewrite Hm by (apply Hout; lia). rewrite Z.add_0_r in Hz. rewrite Hz, Z.eqb_refl.
    rewrite Z.add_0_r. symmetry. unfold outcome. cbn [length put_mem].
    rewrite (proj2 (Z.ltb_lt _ _)) by lia. by rewrite Z.add_0_r. }
  cbn [length] in *. destruct (Hcs 0%nat c eq_refl) as [Hc Hm0]. rewrite Z.add_0_r in Hm0.
  rewrite Hm, Hm0 by (apply Hout; lia). rewrite (proj2 (Z.eqb_neq c 0)) by lia.
  rewrite (wrap_small 32 (s + 1)) by (unfold fits; lia).
  eapply run_bind; [by apply emits_set_ch|done|done| |].
  - intros Hlt Hag. rewrite IH; [|cbn [length] in *; lia|done|cbn [length]; lia|].
    + rewrite (outcome_app p m [c] cs) by done. cbn [app]. f_equal. lia.
    + split_and!; [lia|lia| |intros a Ha; apply Hout; lia|].
      * rewrite <-Hz. f_equal. lia.
      * intros i x Hx. destruct (Hcs (S i) x Hx) as [H1 H2]. split; [done|]. rewrite <-H2. f_equal. lia.
  - intros Hge. by apply (outcome_full p m [c] cs).
Qed.

(** The argument that [getint] and [getuint] fetch. *)
Definition fetches (l : locals) (n z : Z) (args : list va) : Prop :=
  (n = 32 ∧ (longflag l =? 0) || (longflag l =? 1) = true ∧ ap l = VaWord z :: args) ∨
  (n = 64 ∧ (longflag l =? 0) || (longflag l =? 1) = false ∧ ap l = VaLLong z :: args).
Definition fetched (l : locals) (args : list va) : locals := Locals (width l) (flag l) (longflag l) args.

Lemma getint_silent l n z args : fetches l n z args → silent getint l (sgn n z) (fetched l args).
Proof.
  intros H p m. unfold getint, mbind, pr_bind, get_locals. cbn [mbind res_bind lo].
  destruct H as [(-> & -> & E)|(-> & -> & E)]; [unfold va_word|unfold va_llong]; cbn [lo]; by rewrite E.
Qed.
Lemma getuint_silent l n z args : fetches l n z args → silent getuint l (wrap n z) (fetched l args).
Proof.
  intros H p m. unfold getuint, mbind, pr_bind, get_locals. cbn [mbind res_bind lo].
  destruct H as [(-> & -> & E)|(-> & -> & E)]; [unfold va_word|unfold va_llong]; cbn [lo]; by rewrite E.
Qed.

Lemma sgn_abs n z : n = 32 ∨ n = 64 → fits 64 (Z.abs (sgn n z)).
Proof.
  intros Hn. unfold sgn, fits. pose proof (wrap_fits n z ltac:(lia)) as H. unfold fits in H.
  destruct Hn as [->| ->]; zcases; lia.
Qed.

Lemma uconvert_emits l n z args base : bases base → 0 ≤ width l → Z.land (flag l) FLAG_NEG = 0 → n = 32 ∨ n = 64 →
  fetches l n z args →
  ∃ l', ap l' = args ∧ longflag l' = 0 ∧
  emits (uval ← getuint; with_locals (set_longflag 0);; print_uint str size base uval) l
    (int_text base (width l) (wrap n z)) tt l'.
Proof.
  intros Hb Hw Hf Hn Hg. pose proof (wrap_fits n z ltac:(lia)) as Hfit.
  exists (set_longflag 0 (fetched l args)). split_and!; [done|done|].
  eapply emits_silent; [by apply getuint_silent|]. eapply emits_silent; [apply silent_locals|].
  eapply emits_eq; [apply print_uint_emits; [done| |done]|].
  - unfold fits in *. destruct Hn as [->| ->]; lia.
  - unfold int_text, sign. cbn [flag width fetched set_longflag]. rewrite Hf. cbn [Z.eqb negb].
    rewrite (proj2 (Z.ltb_ge _ _)) by (unfold fits in Hfit; lia). by rewrite Z.abs_eq by (unfold fits in Hfit; lia).
Qed.

Lemma convert_emits k l n z args : 0 ≤ width l → flag l = 0 ∨ flag l = FLAG_ZEROPAD → n = 32 ∨ n = 64 →
  (match k with Cp => n = 32 ∧ ap l = VaWord z :: args | _ => fetches l n z args end) →
  ∃ l', ap l' = args ∧ longflag l' = 0 ∧
  emits (convert str size k) l (int_text (base_of k) (conv_width k (width l)) (arg_val k n z)) tt l'.
Proof.
  intros Hw Hf Hn Hg. assert (Z.land (flag l) FLAG_NEG = 0) as Hneg by (destruct Hf as [->| ->]; done).
  destruct k; cbn [convert base_of conv_width arg_val].
  - pose proof (sgn_abs n z Hn) as Habs. set (v := sgn n z) in *.
    assert (silent getint l v (fetched l args)) as Hgi by by apply getint_silent.
    exists (if v <? 0 then or_flag FLAG_NEG (set_longflag 0 (fetched l args)) else set_longflag 0 (fetched l args)).
    split_and!; [by destruct (v <? 0)|by destruct (v <? 0)|].
    eapply emits_silent; [exact Hgi|]. eapply emits_silent; [apply silent_locals|].
    unfold int_text. destruct (Z.ltb_spec v 0) as [Hv|Hv].
    + eapply emits_silent; [apply silent_locals|].
      replace (w64 (- v)) with (Z.abs v) by (rewrite wrap_small by (unfold fits in *; lia); lia).
      eapply emits_eq; [apply print_uint_emits; [unfold bases; lia|done|done]|].
      unfold sign. cbn [flag width fetched set_longflag or_flag]. rewrite Z.land_lor_distr_l, Hneg. done.
    + rewrite (wrap_small 64 v) by (unfold fits in *; lia). rewrite (Z.abs_eq v) in * by done.
      eapply emits_eq; [apply print_uint_emits; [unfold bases; lia|done|done]|].
      unfold sign. cbn [flag width fetched set_longflag]. by rewrite Hneg.
  - destruct (uconvert_emits l n z args 8) as (l' & H1 & H2 & H3); [unfold bases; lia|done|done|done|done|].
    exists l'. split_and!; [done|done|]. eapply emits_silent; [done|exact H3].
  - destruct (uconvert_emits l n z args 16) as (l' & H1 & H2 & H3); [unfold bases; lia|done|done|done|done|].
    exists l'. split_and!; [done|done|]. eapply emits_silent; [done|exact H3].
  - destruct Hg as [-> Hap].
    destruct (uconvert_emits (set_width 8 (set_longflag 1 (or_flag FLAG_ZEROPAD l))) 32 z args 16) as (l' & H1 & H2 & H3);
      [unfold bases; lia|done| |by left|by left|].
    { cbn [flag set_width set_longflag or_flag]. by rewrite Z.land_lor_distr_l, Hneg. }
    exists l'. split_and!; [done|done|]. eapply emits_silent; [apply silent_locals|exact H3].
  - destruct (uconvert_emits l n z args 10) as (l' & H1 & H2 & H3); [unfold bases; lia|done|done|done|done|].
    exists l'. split_and!; [done|done|]. eapply emits_silent; [done|exact H3].
Qed.

Lemma va_word_silent w f lf z args : silent va_word (Locals w f lf (VaWord z :: args)) z (Locals w f lf args).
Proof. done. Qed.

Lemma convert_s_emits w f lf s args o : expands str size m0 (DStr w) (VaWord s :: args) o args → 0 ≤ w →
  emits (convert_s str size) (Locals w f lf (VaWord s :: args)) o tt (Locals w f lf args).
Proof.
  intros He Hw. unfold convert_s. eapply emits_silent; [apply va_word_silent|].
  inversion He as [| | |? ? cs ? Hs|? ?| |]; subst.
  - pose proof Hs as (Hs0 & _). rewrite (proj2 (Z.eqb_neq s NULL)) by (unfold NULL; lia).
    eapply emits_bind with (a := Z.of_nat (length cs)).
    + intros p m Hp Hm. rewrite (put_string_emits cs) by (done || lia). done.
    + eapply emits_silent; [apply silent_get|]. rewrite put_times_list. apply put_list_emits.
  - rewrite Z.eqb_refl. eapply emits_bind.
    + eapply emits_eq; [eapply emits_bind; [apply put_list_emits|apply emits_ret; lia]|apply app_nil_r].
    + eapply emits_silent; [apply silent_get|]. rewrite put_times_list. apply put_list_emits.
Qed.

(** *** The scanner *)
Local Abbreviation fmt_run := (format str size).

Lemma format_mode c r : is_digit c = false → fmt_run Width (c :: r) = fmt_run Spec (c :: r).
Proof. intros H. cbn [format]. by rewrite H. Qed.

Lemma format_width ds r w f lf args p m : Forall (λ c, ∃ x, 0 ≤ x < 10 ∧ c = digit x) ds →
  fmt_run Width (ds ++ r) (Pst m p (Locals w f lf args)) =
  fmt_run Width r (Pst m p (Locals (foldl (λ v c, v * 10 + digit_val c) w ds) f lf args)).
Proof.
  intros Hds. revert w. induction Hds as [|c ds (x & Hx & ->) _ IH]; intros w; [done|].
  rewrite <-app_comm_cons. cbn [format foldl].
  assert (is_digit (digit x) = true ∧ digit_val (digit x) = digit x - ch "0") as [-> ->].
  { unfold is_digit, digit_val, digit. change (ch "0") with 48. change (ch "9") with 57.
    rewrite (proj2 (Z.leb_le x 9)) by lia. split; [apply andb_true_iff; lia|].
    by rewrite (proj2 (Z.leb_le _ _)) by lia. }
  cbn [andb]. unfold mbind at 1, pr_bind at 1, with_locals at 1. cbn [mbind res_bind lo pmem pos]. apply IH.
Qed.

Lemma format_spec_digit x r w f lf args p m : 0 < x < 10 →
  fmt_run Spec (digit x :: r) (Pst m p (Locals w f lf args)) =
  fmt_run Width (digit x :: r) (Pst m p (Locals w f lf args)).
Proof.
  intros Hx. cbn [format]. replace (digit x =? ch "0") with false; [done|].
  symmetry. apply Z.eqb_neq. unfold digit. change (ch "0") with 48. rewrite (proj2 (Z.leb_le x 9)) by lia. lia.
Qed.

(** The optional width before a conversion. *)
Lemma format_opt_width w c r f lf args p m : 0 ≤ w < 2 ^ 31 → is_digit c = false →
  fmt_run Spec (width_text w ++ c :: r) (Pst m p (Locals 0 f lf args)) =
  fmt_run Spec (c :: r) (Pst m p (Locals w f lf args)).
Proof.
  intros Hw Hc. unfold width_text. destruct (Z.eqb_spec w 0) as [->|Hw0]; [done|].
  destruct (udigits_ok 22 10 w) as (H1 & _ & H3 & H4 & H5); [lia|apply base_pow; unfold bases, fits; lia|lia|].
  unfold uint_text. destruct (udigits 22 10 w) as [|d ds] eqn:E; [done|].
  pose proof (Forall_inv H5) as (x & Hx & ->).
  assert (x ≠ 0). { intros ->. by apply (H4 Hw0). }
  rewrite <-app_comm_cons, format_spec_digit by lia.
  rewrite (app_comm_cons ds), format_width by done.
  rewrite format_mode by done. unfold numeral in H1. by rewrite H1.
Qed.

Lemma format_longs n c r w f lf args p m :
  fmt_run Spec (replicate n (ch "l") ++ c :: r) (Pst m p (Locals w f lf args)) =
  fmt_run Spec (c :: r) (Pst m p (Locals w f (lf + Z.of_nat n) args)).
Proof.
  revert lf. induction n as [|n IH]; intros lf; [by rewrite Z.add_0_r|].
  transitivity (fmt_run Spec (replicate n (ch "l") ++ c :: r) (Pst m p (Locals w f (lf + 1) args))); [done|].
  rewrite IH. by replace (lf + 1 + Z.of_nat n) with (lf + Z.of_nat (S n)) by lia.
Qed.

(** [c] is what the code executes for the directive [d]. *)
Definition executes (d : directive) (l : locals) (l1 : locals) (c : pr unit) : Prop := ∀ r p m,
  fmt_run Text (directive_text d ++ r) (Pst m p l) =
  (c ≫= λ _, with_locals reset_spec ≫= λ _, fmt_run Text r) (Pst m p l1).

Lemma executes_int k zero w longs args : 0 ≤ w < 2 ^ 31 →
  executes (DInt k zero w longs) (Locals 0 0 0 args)
    (Locals w (if zero then FLAG_ZEROPAD else 0) (Z.of_nat longs) args) (convert str size k).
Proof.
  intros Hw r p m. cbn [directive_text].
  assert (is_digit (letter k) = false ∧ is_digit (ch "l") = false) as [Hk Hl] by by destruct k.
  transitivity (fmt_run Spec (width_text w ++ replicate longs (ch "l") ++ letter k :: r)
    (Pst m p (Locals 0 (if zero then FLAG_ZEROPAD else 0) 0 args))).
  { destruct zero; cbn [app]; by rewrite <-!app_assoc. }
  transitivity (fmt_run Spec (replicate longs (ch "l") ++ letter k :: r)
    (Pst m p (Locals w (if zero then FLAG_ZEROPAD else 0) 0 args))).
  { destruct longs; cbn [replicate app]; by apply format_opt_width. }
  rewrite format_longs, Z.add_0_l. by destruct k.
Qed.

Lemma executes_str w args : 0 ≤ w < 2 ^ 31 →
  executes (DStr w) (Locals 0 0 0 args) (Locals w 0 0 args) (convert_s str size).
Proof.
  intros Hw r p m. cbn [directive_text].
  transitivity (fmt_run Spec (width_text w ++ ch "s" :: r) (Pst m p (Locals 0 0 0 args))); [by rewrite <-app_comm_cons, <-app_assoc|].
  by rewrite format_opt_width.
Qed.

(** What a directive does to the output, whatever follows it. *)
Definition prints (d : directive) (args : list va) (o : list Z) (args' : list va) : Prop :=
  ∀ r p m, 0 ≤ p < size → agrees m →
  (p + Z.of_nat (length o) < size → agrees (put_mem p o m) →
   fmt_run Text (directive_text d ++ r) (Pst m p (Locals 0 0 0 args)) =
   fmt_run Text r (Pst (put_mem p o m) (p + Z.of_nat (length o)) (Locals 0 0 0 args'))) ∧
  (size ≤ p + Z.of_nat (length o) →
   fmt_run Text (directive_text d ++ r) (Pst m p (Locals 0 0 0 args)) = Ok (Done size (cut p o m))).

Lemma executes_prints d args l1 c o l2 : executes d (Locals 0 0 0 args) l1 c → emits c l1 o tt l2 → longflag l2 = 0 →
  prints d args o (ap l2).
Proof.
  intros He Hc Hl r p m Hp Hm. rewrite He. unfold mbind at 1 3, pr_bind at 1 3. rewrite Hc by done. unfold outcome.
  split; intros H.
  - intros Hag. rewrite (proj2 (Z.ltb_lt _ _)) by done. cbn [mbind res_bind].
    unfold mbind, pr_bind, with_locals, reset_spec. cbn [mbind res_bind lo pmem pos]. by rewrite Hl.
  - by rewrite (proj2 (Z.ltb_ge _ _)) by done.
Qed.

Lemma text_prints c args : 0 < c < 256 → c ≠ ch "%" → prints (DText c) args [c] args.
Proof.
  intros Hc Hne r p m Hp Hm.
  assert (fmt_run Text (directive_text (DText c) ++ r) = (set_ch str size c ≫= λ _, fmt_run Text r)) as ->.
  { cbn [directive_text app format]. by rewrite (proj2 (Z.eqb_neq c 0)), (proj2 (Z.eqb_neq c (ch "%"))) by lia. }
  unfold mbind, pr_bind. rewrite (emits_set_ch c _ p m) by done. unfold outcome. split; intros H.
  - intros _. by rewrite (proj2 (Z.ltb_lt _ _)).
  - by rewrite (proj2 (Z.ltb_ge _ _)).
Qed.

Lemma int_prints k zero w longs n z a args : 0 ≤ w < 2 ^ 31 →
  (n = 32 ∧ a = VaWord z ∧ wide k longs = false) ∨ (n = 64 ∧ a = VaLLong z ∧ wide k longs = true) →
  prints (DInt k zero w longs) (a :: args) (int_text (base_of k) (conv_width k w) (arg_val k n z)) args.
Proof.
  intros Hw Ha.
  set (l := Locals w (if zero then FLAG_ZEROPAD else 0) (Z.of_nat longs) (a :: args)).
  assert (∃ l', ap l' = args ∧ longflag l' = 0 ∧
    emits (convert str size k) l (int_text (base_of k) (conv_width k w) (arg_val k n z)) tt l') as (l' & <- & Hl & He).
  { apply (convert_emits k l n z args); [cbn; lia|cbn; destruct zero; auto|naive_solver|].
    unfold fetches, l. cbn [longflag ap]. unfold wide in Ha.
    destruct k; destruct Ha as [(-> & -> & Hl)|(-> & -> & Hl)]; try done; [left|right|left|right|left|right|left|right];
      (split_and!; [done| |done]); apply Z.leb_gt in Hl || apply Z.leb_le in Hl;
      destruct (Z.eqb_spec (Z.of_nat longs) 0), (Z.eqb_spec (Z.of_nat longs) 1); try done; lia. }
  eapply executes_prints; [by apply executes_int|exact He|done].
Qed.

Lemma directive_prints d args o args' : directive_ok d → expands str size m0 d args o args' → prints d args o args'.
Proof.
  intros Hok He. pose proof He as He'.
  destruct He as [c args|args|z args|w s cs args Hs|w args|k zero w longs z args Hk|k zero w longs z args Hk]; cbn [directive_ok] in Hok.
  - by destruct Hok; apply text_prints.
  - apply (executes_prints _ _ (Locals 0 0 0 args) (set_ch str size (ch "%")) _ (Locals 0 0 0 args)); [done| |done].
    apply emits_set_ch.
  - apply (executes_prints _ _ (Locals 0 0 0 (VaWord z :: args)) (convert_c str size) _ (Locals 0 0 0 args)); [done| |done].
    eapply emits_silent; [apply va_word_silent|apply emits_set_ch].
  - apply (executes_prints _ _ _ _ _ (Locals w 0 0 args) (executes_str w _ Hok)); [|done].
    apply convert_s_emits; [done|lia].
  - apply (executes_prints _ _ _ _ _ (Locals w 0 0 args) (executes_str w _ Hok)); [|done].
    apply convert_s_emits; [done|lia].
  - apply int_prints; [done|]. left. done.
  - apply int_prints; [done|]. right. done.
Qed.

(** The whole format, from a position inside the buffer. *)
Lemma format_run_ok ds args o p m : renders str size m0 ds args o → 0 ≤ p < size → agrees m →
  ∃ args', fmt_run Text (format_text ds) (Pst m p (Locals 0 0 0 args)) =
    if p + Z.of_nat (length o) + 1 <? size
    then Ok (Next (p + Z.of_nat (length o))
           (Pst (put_mem p (o ++ [0]) m) (p + Z.of_nat (length o) + 1) (Locals 0 0 0 args')))
    else Ok (Done size (cut p (o ++ [0]) m)).
Proof.
  intros Hr. revert p m. induction Hr as [args|d ds args args' o os Hd He Hr IH]; intros p m Hp Hm.
  - exists args. change (format_text []) with [0]. cbn [format Z.eqb length app].
    eapply run_bind; [apply emits_set_ch|done|done| |]; cbn [length]; intros H.
    + intros _. rewrite (proj2 (Z.ltb_lt _ _)) by lia. unfold mbind, pr_bind, get_pos, mret, pr_ret. cbn [mbind res_bind pos].
      f_equal. f_equal; [lia|]. f_equal. lia.
    + by rewrite (proj2 (Z.ltb_ge _ _)) by lia.
  - destruct (directive_prints d args o args' Hd He (format_text ds) p m Hp Hm) as [Hgo Hfull].
    assert (format_text (d :: ds) = directive_text d ++ format_text ds) as ->.
    { unfold format_text. cbn [fmap list_fmap concat]. by rewrite app_assoc. }
    rewrite length_app, Nat2Z.inj_add, <-app_assoc, Z.add_assoc.
    destruct (decide (p + Z.of_nat (length o) < size)) as [Hlt|Hge].
    + assert (agrees (put_mem p o m)) as Hag by (apply put_mem_agrees; (done || lia)).
      destruct (IH (p + Z.of_nat (length o)) (put_mem p o m)) as [args'' Hrun]; [lia|done|].
      exists args''. rewrite Hgo by done. rewrite Hrun. rewrite <-put_mem_app. by rewrite cut_app_2.
    + exists args'. rewrite Hfull by lia. rewrite (proj2 (Z.ltb_ge _ _)) by lia. by rewrite cut_app by lia.
Qed.

Lemma renders_bytes ds args o : renders str size m0 ds args o → Forall (fits 8) o.
Proof.
  assert (∀ base v, bases base → fits 64 v → Forall (fits 8) (uint_text base v)) as Hd.
  { intros base v Hb Hv. destruct (udigits_ok 22 base v) as (_ & _ & _ & _ & H);
      [unfold bases in Hb; lia|by apply base_pow|lia|]. eapply Forall_impl; [exact H|].
    intros c (x & Hx & ->). unfold digit, fits, bases in *. change (ch "0") with 48. change (ch "a") with 97. zcases; lia. }
  assert (∀ base w v, bases base → fits 64 (Z.abs v) → Forall (fits 8) (int_text base w v)) as Hi.
  { intros base w v Hb Hv. unfold int_text, field. apply Forall_app. split; [by destruct (v <? 0); repeat constructor|].
    destruct (w =? 0); [by apply Hd|]. apply Forall_app. split; [by apply Forall_replicate|]. by apply Forall_drop, Hd. }
  assert (∀ k n z, n = 32 ∨ n = 64 → fits 64 (Z.abs (arg_val k n z))) as Ha.
  { intros k n z Hn. destruct k; try by apply sgn_abs.
    all: cbn [arg_val]; pose proof (wrap_fits n z ltac:(lia)) as H; unfold fits in *; destruct Hn as [->| ->]; lia. }
  induction 1 as [|d ds args args' o os Hok He _ IH]; [done|]. apply Forall_app. split; [|done].
  destruct He; cbn [directive_ok] in Hok.
  - apply Forall_singleton. unfold fits. lia.
  - by apply Forall_singleton.
  - apply Forall_singleton. by apply wrap_fits.
  - destruct H as (_ & _ & _ & _ & Hcs). apply Forall_app. split; [|by apply Forall_replicate].
    apply Forall_lookup_2. intros i c Hc. destruct (Hcs i c Hc). unfold fits. lia.
  - apply Forall_app. split; [|by apply Forall_replicate]. by repeat constructor.
  - apply Hi; [apply base_of_ok|apply Ha; auto].
  - apply Hi; [apply base_of_ok|apply Ha; auto].
Qed.
End emission.

Lemma vsnprintf_ok str size m ds args o :
  0 ≤ str → 0 < size < 2 ^ 31 → str + size ≤ 2 ^ 32 → renders str size m ds args o →
  wp (vsnprintf str size (format_text ds) args m) (λ '(r, m'),
    let n := Z.of_nat (length o) in
    let shown := Z.min n (size - 1) in
    r = (if n + 1 <? size then n else size) ∧
    (∀ i, 0 ≤ i < shown → o !! Z.to_nat i = Some (m' (str + i))) ∧
    m' (str + shown) = 0 ∧
    (∀ a, a < str ∨ str + shown < a → m' a = m a)).
Proof.
  intros Hs Hz He Hr. pose proof (renders_bytes _ _ _ _ _ _ Hr) as Hb. unfold vsnprintf.
  destruct (format_run_ok str size m Hs Hz He ds args o 0 m Hr) as [args' Hrun]; [lia|done|]. rewrite Hrun.
  rewrite Z.add_0_l. cbv zeta.
  assert (∀ i, (i < length o)%nat → ∃ c, o !! i = Some c ∧ w8 c = c) as Hbyte.
  { intros i Hi. destruct (lookup_lt_is_Some_2 o i) as [c Hc]; [done|]. exists c. split; [done|].
    apply wrap_small. by eapply Forall_lookup_1. }
  destruct (Z.ltb_spec (Z.of_nat (length o) + 1) size) as [Hlt|Hge]; cbn [mbind res_bind wp pmem].
  - rewrite Z.min_l by lia. split_and!; [done| | |].
    + intros i Hi. rewrite (put_mem_at str size) by (rewrite ?length_app; cbn [length]; lia). rewrite length_app. cbn [length].
      rewrite (proj2 (Z.leb_le _ _)), (proj2 (Z.ltb_lt _ _)) by lia. cbn [andb].
      replace (str + i - str - 0) with i by lia. rewrite lookup_app_l by lia.
      destruct (Hbyte (Z.to_nat i)) as (c & -> & Hc); [lia|]. cbn. by rewrite Hc.
    + rewrite (put_mem_at str size) by (rewrite ?length_app; cbn [length]; lia). rewrite length_app. cbn [length].
      rewrite (proj2 (Z.leb_le _ _)), (proj2 (Z.ltb_lt _ _)) by lia. cbn [andb].
      rewrite lookup_app_r by lia. by replace (Z.to_nat (str + Z.of_nat (length o) - str - 0) - length o)%nat with 0%nat by lia.
    + intros a Ha. rewrite (put_mem_at str size) by (rewrite ?length_app; cbn [length]; lia). rewrite length_app. cbn [length].
      destruct (Z.leb_spec (str + 0) a), (Z.ltb_spec a (str + 0 + Z.of_nat (length o + 1))); cbn [andb]; try done. lia.
  - rewrite Z.min_r by lia. unfold cut. rewrite Z.sub_0_r.
    set (t := take (Z.to_nat size) (o ++ [0])).
    assert (length t = Z.to_nat size) as Hlt. { unfold t. rewrite length_take, length_app. cbn [length]. lia. }
    rewrite (wrap_small 32) by (unfold fits; lia). unfold store. split_and!; [done| | |].
    + intros i Hi. rewrite (proj2 (Z.eqb_neq _ _)) by lia. rewrite (put_mem_at str size) by lia.
      rewrite (proj2 (Z.leb_le _ _)), (proj2 (Z.ltb_lt _ _)) by lia. cbn [andb].
      replace (str + i - str - 0) with i by lia. unfold t. rewrite lookup_take_lt, lookup_app_l by lia.
      destruct (Hbyte (Z.to_nat i)) as (c & -> & Hc); [lia|]. cbn. by rewrite Hc.
    + replace (str + (size - 1)) with (str + size - 1) by lia. by rewrite Z.eqb_refl.
    + intros a Ha. rewrite (proj2 (Z.eqb_neq _ _)) by lia. rewrite (put_mem_at str size) by lia.
      destruct (Z.leb_spec (str + 0) a), (Z.ltb_spec a (str + 0 + Z.of_nat (length t))); cbn [andb]; try done. lia.
Qed.

(** A format that ends with a single '%' is read past its end. *)
Theorem trailing_percent str size m : 2 < size < 2 ^ 31 → vsnprintf str size [ch "%"; 0] [] m = Err BadPtr.
Proof.
  intros Hs. unfold vsnprintf.
  assert (∀ c p m, p = 0 ∨ p = 1 → set_ch str size c (Pst m p (Locals 0 0 0 [])) =
    Ok (Next tt (Pst (store (w32 (str + p)) (w8 c) m) (p + 1) (Locals 0 0 0 [])))) as Hput.
  { intros c p m' Hp. unfold set_ch. cbn [pos pmem lo]. rewrite (wrap_small 32 (p + 1)) by (unfold fits; lia).
    by rewrite (proj2 (Z.eqb_neq (p + 1) size)) by lia. }
  transitivity ((set_ch str size (ch "%") ≫= λ _, set_ch str size 0 ≫= λ _, lift (Err BadPtr))
    (Pst m 0 (Locals 0 0 0 [])) ≫= λ r : out Z, match r with Next n s => Ok (n, pmem s) | Done n m' => Ok (n, m') end); [done|].
  unfold mbind at 2, pr_bind at 1. rewrite Hput by auto. cbn [mbind res_bind].
  unfold mbind at 2, pr_bind at 1. rewrite Hput by auto. done.
Qed.

(** ** What C prescribes

    The width is the least number of characters, sign included: zeros between the
    sign and the digits with the zero flag, else blanks on the left; nothing is
    cut off.  [%p] is [%08x], as the comment in the code says; the text of NULL is
    "(null)". *)
Definition c_field (zero : bool) (w : Z) (sign body : list Z) : list Z :=
  let pad := replicate (Z.to_nat w - (length sign + length body)) in
  if zero then sign ++ pad (ch "0") ++ body else pad (ch " ") ++ sign ++ body.
Definition sign_text (v : Z) : list Z := if v <? 0 then [ch "-"] else [].
Definition c_int_text (zero : bool) (base w v : Z) : list Z := c_field zero w (sign_text v) (uint_text base (Z.abs v)).
Definition c_spec (k : conv) (zero : bool) (w : Z) : bool * Z := match k with Cp => (true, 8) | _ => (zero, w) end.

Section c_denotation.
Context (str size : Z) (m0 : mem).

Inductive c_expands : directive → list va → list Z → list va → Prop :=
| ce_text c args : c_expands (DText c) args [c] args
| ce_percent args : c_expands DPercent args [ch "%"] args
| ce_char z args : c_expands DChar (VaWord z :: args) [w8 z] args
| ce_str w s cs args : string_at str size m0 s cs → c_expands (DStr w) (VaWord s :: args) (c_field false w [] cs) args
| ce_null w args : c_expands (DStr w) (VaWord NULL :: args) (c_field false w [] null_string) args
| ce_word k zero w longs z args : wide k longs = false →
    c_expands (DInt k zero w longs) (VaWord z :: args)
      (c_int_text (c_spec k zero w).1 (base_of k) (c_spec k zero w).2 (arg_val k 32 z)) args
| ce_llong k zero w longs z args : wide k longs = true →
    c_expands (DInt k zero w longs) (VaLLong z :: args)
      (c_int_text (c_spec k zero w).1 (base_of k) (c_spec k zero w).2 (arg_val k 64 z)) args.

(** The widths for which the code does what C prescribes. *)
Definition conforms_int (zero : bool) (base w v : Z) : Prop :=
  let n := Z.of_nat (length (uint_text base (Z.abs v))) in
  w = 0 ∨ w = n ∨ (zero = true ∧ 0 ≤ v ∧ n ≤ w).
Definition conforms (d : directive) (args : list va) : Prop :=
  match d, args with
  | DStr w, VaWord s :: _ => if s =? NULL then w ≤ 6 else ∀ cs, string_at str size m0 s cs → w ≤ Z.of_nat (length cs)
  | DInt Cp zero w longs, _ => zero = false ∧ w = 0 ∧ longs = 0%nat
  | DInt k zero w longs, VaWord z :: _ => (longs ≤ 2)%nat ∧ conforms_int zero (base_of k) w (arg_val k 32 z)
  | DInt k zero w longs, VaLLong z :: _ => (longs ≤ 2)%nat ∧ conforms_int zero (base_of k) w (arg_val k 64 z)
  | _, _ => True
  end.

Inductive c_renders : list directive → list va → list Z → Prop :=
| cr_nil args : c_renders [] args []
| cr_cons d ds args args' o os :
    directive_ok d → conforms d args → c_expands d args o args' → c_renders ds args' os → c_renders (d :: ds) args (o ++ os).
End c_denotation.

Lemma field_length w ds : 0 ≤ w → Z.of_nat (length (field w ds)) = if w =? 0 then Z.of_nat (length ds) else w.
Proof. intros Hw. unfold field. zcases; [done|]. rewrite length_app, length_replicate, length_drop. lia. Qed.

(** A number is printed as C prescribes exactly for the widths of [conforms_int]:
    for no other width does the code agree with C. *)
Theorem int_text_conforms zero base w v : 0 ≤ w → int_text base w v = c_int_text zero base w v ↔ conforms_int zero base w v.
Proof.
  intros Hw. unfold int_text, c_int_text, conforms_int. cbv zeta. fold (sign_text v).
  assert (length (sign_text v) = 0%nat ∧ sign_text v = [] ∧ 0 ≤ v ∨ length (sign_text v) = 1%nat ∧ v < 0) as Hsign
    by (unfold sign_text; zcases; [right|left]; simpl; auto).
  generalize (uint_text base (Z.abs v)). intros ds. split.
  - intros E. assert (length (sign_text v ++ field w ds) = length (c_field zero w (sign_text v) ds)) as El by (by rewrite E).
    assert (length (c_field zero w (sign_text v) ds) = Nat.max (Z.to_nat w) (length (sign_text v) + length ds)) as Ec.
    { unfold c_field. destruct zero; rewrite !length_app, length_replicate; lia. }
    rewrite Ec, length_app in El. pose proof (field_length w ds Hw) as Hf. destruct (Z.eqb_spec w 0) as [|Hw0]; [by left|].
    destruct Hsign as [(Hl & Es & Hv)|(Hl & Hv)]; [|right; left; lia].
    destruct (decide (w = Z.of_nat (length ds))) as [|Hne]; [by right; left|]. right; right. destruct zero; [split_and!; [done|done|lia]|exfalso].
    rewrite Es in E. unfold c_field, field in E. rewrite (proj2 (Z.eqb_neq w 0)) in E by done. cbn [app length] in E.
    replace (Z.to_nat w - length ds)%nat with (S (Z.to_nat w - length ds - 1)) in E by lia.
    replace (Z.to_nat w - (0 + length ds))%nat with (S (Z.to_nat w - length ds - 1)) in E by lia. discriminate E.
  - unfold c_field, field. intros [->|[->|(-> & Hv & Hn)]].
    + cbn [Z.eqb Z.to_nat Nat.sub]. by destruct zero.
    + rewrite !Nat2Z.id, !Nat.sub_diag. replace (length ds - (length (sign_text v) + length ds))%nat with 0%nat by lia. cbn [replicate app drop].
      destruct (Z.of_nat (length ds) =? 0), zero; done.
    + destruct Hsign as [(_ & -> & _)|(_ & ?)]; [|lia]. cbn [app length]. rewrite Nat.add_0_l.
      replace (length ds - Z.to_nat w)%nat with 0%nat by lia. cbn [drop].
      destruct (Z.eqb_spec w 0) as [->|]; [|done]. done.
Qed.

Lemma udigits_short n fuel base v : 2 ≤ base → 0 ≤ v < base ^ Z.of_nat (S n) → (length (udigits fuel base v) ≤ S n)%nat.
Proof.
  intros Hb. revert n v. induction fuel as [|fuel IH]; intros n v Hv; [simpl; lia|]. rewrite udigits_S.
  destruct (Z.ltb_spec v base) as [|Hge]; [simpl; lia|]. rewrite length_app. cbn [length].
  destruct n as [|n]; [change (Z.of_nat 1) with 1 in Hv; lia|].
  assert (length (udigits fuel base (v / base)) ≤ S n)%nat; [|lia]. apply IH. split; [apply Z.div_pos; lia|].
  apply Z.div_lt_upper_bound; [lia|]. replace (Z.of_nat (S (S n))) with (1 + Z.of_nat (S n)) in Hv by lia.
  rewrite Z.pow_add_r in Hv by lia. lia.
Qed.

(** A string at least as long as its field needs no blanks. *)
Lemma c_field_long cs w : w ≤ Z.of_nat (length cs) → c_field false w [] cs = cs ++ replicate (Z.to_nat (w - Z.of_nat (length cs))) (ch " ").
Proof.
  intros Hw. unfold c_field. cbn [length app]. replace (Z.to_nat w - (0 + length cs))%nat with 0%nat by lia.
  replace (Z.to_nat (w - Z.of_nat (length cs))) with 0%nat by lia. by rewrite app_nil_r.
Qed.

Lemma c_int_text_word k zero w v : 0 ≤ w →
  match k with Cp => fits 32 v | _ => conforms_int zero (base_of k) w v end →
  c_int_text (c_spec k zero w).1 (base_of k) (c_spec k zero w).2 v = int_text (base_of k) (conv_width k w) v.
Proof.
  intros Hw Hk. symmetry. destruct k; cbn [c_spec conv_width fst snd]; apply int_text_conforms; try done.
  right; right. unfold fits in Hk. split_and!; [done|lia|]. unfold uint_text. rewrite Z.abs_eq by lia.
  pose proof (udigits_short 7 22 16 v ltac:(lia) Hk). cbn [base_of]. lia.
Qed.

Lemma c_expands_expands str size m d args o args' :
  directive_ok d → conforms str size m d args → c_expands str size m d args o args' → expands str size m d args o args'.
Proof.
  intros Hok Hc He. destruct He as [c args|args|z args|w s cs args Hs|w args|k zero w longs z args Hk|k zero w longs z args Hk];
    cbn [conforms directive_ok] in *; try by constructor.
  - destruct (Z.eqb_spec s NULL) as [E|_]; [destruct Hs as [? _]; unfold NULL in E; lia|]. rewrite c_field_long by auto. by constructor.
  - rewrite Z.eqb_refl in Hc. rewrite c_field_long by done. apply ex_null.
  - rewrite c_int_text_word; [by constructor|lia|]. destruct k; try tauto. by apply wrap_fits.
  - rewrite c_int_text_word; [by constructor|lia|]. destruct k; try tauto. done.
Qed.

Lemma c_renders_renders str size m ds args o : c_renders str size m ds args o → renders str size m ds args o.
Proof. induction 1; econstructor; eauto using c_expands_expands. Qed.

(** C28. Formatted output ([vsnprintf]) agrees with C: for every format of text and
    the conversions %%, %c, %s, %d, %u, %o, %x and %p (as %08x), with widths, the
    zero flag and the length modifiers, and matching arguments, the buffer receives
    the text that C prescribes ([c_renders]), cut off so that it fits with its
    terminator; no byte outside the part written changes; the result is the length
    of the text, or the size of the buffer when text and terminator leave no byte
    of it unused (C has the length there too).  The widths must be ones for which
    the code agrees with C ([conforms]): none; for %s at most the length of the
    string; for a number its digits without the sign, or more with the zero flag
    when it is not negative; %p has none.  With any other width a number is not
    printed as C prescribes (theorem [int_text_conforms]): the code always pads
    with zeros, does not count the sign and drops leading digits. *)
Theorem vsnprintf_correct str size m ds args o :
  0 ≤ str → 0 < size < 2 ^ 31 → str + size ≤ 2 ^ 32 → c_renders str size m ds args o →
  wp (vsnprintf str size (format_text ds) args m) (λ '(r, m'),
    let n := Z.of_nat (length o) in
    let shown := Z.min n (size - 1) in
    r = (if n + 1 <? size then n else size) ∧
    (∀ i, 0 ≤ i < shown → o !! Z.to_nat i = Some (m' (str + i))) ∧
    m' (str + shown) = 0 ∧
    (∀ a, a < str ∨ str + shown < a → m' a = m a)).
Proof. intros H1 H2 H3 Hr. by apply vsnprintf_ok, c_renders_renders. Qed.

Lemma vsnprintf_correct_witness :
  wp (vsnprintf 0x1000 6 (format_text [DText (ch "n"); DText (ch "="); DInt Cd false 0 0; DInt Cx true 4 1]) [VaWord (2 ^ 32 - 12); VaWord 0xab]
       (λ _, 0xff)) (λ '(r, m'), r = 6 ∧ m' 0x1005 = 0 ∧ m' 0x1002 = ch "-").
Proof.
  assert (c_renders 0x1000 6 (λ _, 0xff)
    [DText (ch "n"); DText (ch "="); DInt Cd false 0 0; DInt Cx true 4 1] [VaWord (2 ^ 32 - 12); VaWord 0xab]
    ([ch "n"] ++ [ch "="] ++ c_int_text false 10 0 (-12) ++ c_int_text true 16 4 0xab ++ [])) as Hr.
  { eapply cr_cons; [done|done|constructor|]. eapply cr_cons; [done|done|constructor|].
    eapply cr_cons; [done|split; [lia|by left]|by apply (ce_word _ _ _ Cd false 0 0 (2 ^ 32 - 12))|].
    eapply cr_cons; [done|split; [lia|by right; right]|by apply (ce_word _ _ _ Cx true 4 1 0xab)|]. constructor. }
  eapply wp_mono; [apply (vsnprintf_correct 0x1000 6 (λ _, 0xff) _ _ _ ltac:(lia) ltac:(lia) ltac:(lia) Hr)|].
  intros [r m'] (H1 & H2 & H3 & _). split_and!; [exact H1|exact H3|].
  specialize (H2 2 ltac:(change (0 ≤ 2 < 5); lia)). injection H2 as H2. symmetry. exact H2.
Defined.
