(* ===== verification/Bus.v ===== *)
(** * Devices and buses

    The data of include/aim/device.h, and the two bus drivers: drivers/io/io-mem.c,
    which presents the address space as a bus, and drivers/io/io-port.c, which
    reaches ports through its parent bus.  A function pointer is the name of the
    function it holds; NULL is [None].  What the machine answers to a volatile
    access (include/aim/io.h) is a parameter, the class [Hw]. *)
From S2P Require Import Prelude Util EarlyKmmap.

Definition EEXIST : Z := 17.
Definition ENOTSUP : Z := 91.
Definition DEVCLASS_NON : Z := 0.
Definition DEVCLASS_CHR : Z := 1.
Definition DEVCLASS_BLK : Z := 2.
Definition DEVCLASS_NET : Z := 3.
Definition DEVCLASS_BUS : Z := 4.
Definition DEV_NAME_MAX : Z := 64.
Definition NODEV : Z := 2 ^ 32 - 1.
Definition NOMAJOR : Z := 2 ^ 32 - 1.

(** The [__get_read_fp]/[__get_write_fp] and the [__new] that exist: those of
    io-mem.c and of io-port.c; [probe] is set by no driver of the kernel. *)
Inductive bus_impl := IoMem | IoPort.
Inductive new_impl := NewIoMem | NewIoPort.
#[global] Instance bus_impl_eq_dec : EqDecision bus_impl.
Proof. solve_decision. Defined.
#[global] Instance new_impl_eq_dec : EqDecision new_impl.
Proof. solve_decision. Defined.

(** [struct driver] with the members that [struct bus_driver] adds. *)
Record driver := Driver {
  drv_class : Z; drv_new : option new_impl;
  get_read_fp : option bus_impl; get_write_fp : option bus_impl }.

(** [struct device]; [base] is the first of [bases]. *)
Record device := Device {
  d_name : list Z; d_class : Z; d_devno : Z; d_bus : Z;
  d_bases : list Z; d_nregs : Z; d_driver : driver }.
#[global] Instance driver_eq_dec : EqDecision driver.
Proof. solve_decision. Defined.
#[global] Instance device_eq_dec : EqDecision device.
Proof. solve_decision. Defined.

Definition d_base (d : device) : Z := at_ (d_bases d) 0.
Definition set_bus (b : Z) (d : device) : device :=
  Device (d_name d) (d_class d) (d_devno d) b (d_bases d) (d_nregs d) (d_driver d).
Definition set_base (b : Z) (d : device) : device :=
  Device (d_name d) (d_class d) (d_devno d) (d_bus d) (<[0%nat := b]> (d_bases d)) (d_nregs d) (d_driver d).
Definition set_fps (r w : option bus_impl) (d : device) : device :=
  Device (d_name d) (d_class d) (d_devno d) (d_bus d) (d_bases d) (d_nregs d)
    (Driver (drv_class (d_driver d)) (drv_new (d_driver d)) r w).

(** The device objects by address. *)
Abbreviation devs := (gmap Z device).
Definition get_dev (D : devs) (p : Z) : res device := of_option BadPtr (D !! p).
Definition upd_dev (p : Z) (f : device → device) (D : devs) : res devs := d ← get_dev D p; Ok (<[p := f d]> D).

(** ** The machine

    A volatile access of [w] bits at an address may change the machine's state. *)
Class Hw (S : Type) := {
  hw_read : Z → Z → S → Z * S;
  hw_write : Z → Z → Z → S → S }.

Section bus.
Context {S : Type} `{H : Hw S}.

(** include/aim/io.h *)
Definition read8 (addr : Z) (s : S) : Z * S := let '(v, s) := hw_read 8 addr s in (w8 v, s).
Definition read16 (addr : Z) (s : S) : Z * S := let '(v, s) := hw_read 16 addr s in (w16 v, s).
Definition read32 (addr : Z) (s : S) : Z * S := let '(v, s) := hw_read 32 addr s in (w32 v, s).
Definition write8 (addr data : Z) (s : S) : S := hw_write 8 addr (w8 data) s.
Definition write16 (addr data : Z) (s : S) : S := hw_write 16 addr (w16 data) s.
Definition write32 (addr data : Z) (s : S) : S := hw_write 32 addr (w32 data) s.

(** *** io-mem.c: the results are the return value and [*ptr]. *)
Definition bus_addr (base offset : Z) : Z := w32 (w64 (base + offset)).
Definition io_mem_read8 (base offset : Z) (s : S) : res (Z * Z * S) :=
  let '(v, s) := read8 (bus_addr base offset) s in Ok (0, v, s).
Definition io_mem_read16 (base offset : Z) (s : S) : res (Z * Z * S) :=
  let '(v, s) := read16 (bus_addr base offset) s in Ok (0, v, s).
Definition io_mem_read32 (base offset : Z) (s : S) : res (Z * Z * S) :=
  let '(v, s) := read32 (bus_addr base offset) s in Ok (0, v, s).
Definition io_mem_write8 (base offset val : Z) (s : S) : res (Z * S) :=
  Ok (0, write8 (bus_addr base offset) (w8 val) s).
Definition io_mem_write16 (base offset val : Z) (s : S) : res (Z * S) :=
  Ok (0, write16 (bus_addr base offset) (w16 val) s).
Definition io_mem_write32 (base offset val : Z) (s : S) : res (Z * S) :=
  Ok (0, write32 (bus_addr base offset) (w32 val) s).

(** The accessor that [__get_read_fp] and [__get_write_fp] deliver. *)
Inductive bus_fp := Fp (impl : bus_impl) (w : Z).
Definition io_mem_get_read_fp (data_width : Z) : option bus_fp :=
  if data_width =? 8 then Some (Fp IoMem 8) else if data_width =? 16 then Some (Fp IoMem 16)
  else if data_width =? 32 then Some (Fp IoMem 32) else None.
Definition io_mem_get_write_fp (data_width : Z) : option bus_fp :=
  if data_width =? 8 then Some (Fp IoMem 8) else if data_width =? 16 then Some (Fp IoMem 16)
  else if data_width =? 32 then Some (Fp IoMem 32) else None.
Definition io_port_get_read_fp (data_width : Z) : option bus_fp :=
  if data_width =? 8 then Some (Fp IoPort 8) else if data_width =? 16 then Some (Fp IoPort 16)
  else if data_width =? 32 then Some (Fp IoPort 32) else None.
Definition io_port_get_write_fp (data_width : Z) : option bus_fp :=
  if data_width =? 8 then Some (Fp IoPort 8) else if data_width =? 16 then Some (Fp IoPort 16)
  else if data_width =? 32 then Some (Fp IoPort 32) else None.

(** [bus->bus_driver.get_read_fp(bus, w)]: a call through NULL is a [BadPtr]. *)
Definition ask_read (d : device) (w : Z) : res (option bus_fp) :=
  i ← of_option BadPtr (get_read_fp (d_driver d));
  Ok (match i with IoMem => io_mem_get_read_fp w | IoPort => io_port_get_read_fp w end).
Definition ask_write (d : device) (w : Z) : res (option bus_fp) :=
  i ← of_option BadPtr (get_write_fp (d_driver d));
  Ok (match i with IoMem => io_mem_get_write_fp w | IoPort => io_port_get_write_fp w end).

(** *** io-port.c: [__read8], [__read16] and [__read32] differ in the width only;
    [call] runs the accessor of the parent bus.  MIPS has no port instructions,
    so that a bus without a parent panics. *)
Section port.
Context (D : devs).
Context (call_read : bus_fp → Z → Z → Z → S → res (Z * Z * S)).
Context (call_write : bus_fp → Z → Z → Z → Z → S → res (Z * S)).
Definition io_port_read (w inst base offset : Z) (s : S) : res (Z * Z * S) :=
  d ← get_dev D inst;
  if negb (d_bus d =? NULL) then
    bus ← get_dev D (d_bus d);
    fp ← ask_read bus w;
    fp ← of_option BadPtr fp;
    '(_, v, s) ← call_read fp (d_bus d) (d_base d) (w64 (base + offset)) s;
    Ok (0, v, s)
  else Err Panicked.
Definition io_port_write (w inst base offset val : Z) (s : S) : res (Z * S) :=
  d ← get_dev D inst;
  if negb (d_bus d =? NULL) then
    bus ← get_dev D (d_bus d);
    fp ← ask_write bus w;
    fp ← of_option BadPtr fp;
    call_write fp (d_bus d) (d_base d) (w64 (base + offset)) val s
  else Err Panicked.
Definition io_port_read8 := io_port_read 8.
Definition io_port_read16 := io_port_read 16.
Definition io_port_read32 := io_port_read 32.
Definition io_port_write8 := io_port_write 8.
Definition io_port_write16 := io_port_write 16.
Definition io_port_write32 := io_port_write 32.
End port.

(** A call of an accessor; [fuel] bounds the depth of the tree of buses. *)
Fixpoint bus_read (fuel : nat) (D : devs) (fp : bus_fp) (inst base offset : Z) (s : S) : res (Z * Z * S) :=
  match fuel with
  | O => Err OutOfFuel
  | Datatypes.S fuel =>
    match fp with
    | Fp IoMem w => if w =? 8 then io_mem_read8 base offset s
                    else if w =? 16 then io_mem_read16 base offset s else io_mem_read32 base offset s
    | Fp IoPort w => if w =? 8 then io_port_read8 D (bus_read fuel D) inst base offset s
                     else if w =? 16 then io_port_read16 D (bus_read fuel D) inst base offset s
                     else io_port_read32 D (bus_read fuel D) inst base offset s
    end
  end.
Fixpoint bus_write (fuel : nat) (D : devs) (fp : bus_fp) (inst base offset val : Z) (s : S) : res (Z * S) :=
  match fuel with
  | O => Err OutOfFuel
  | Datatypes.S fuel =>
    match fp with
    | Fp IoMem w => if w =? 8 then io_mem_write8 base offset val s
                    else if w =? 16 then io_mem_write16 base offset val s else io_mem_write32 base offset val s
    | Fp IoPort w => if w =? 8 then io_port_write8 D (bus_write fuel D) inst base offset val s
                     else if w =? 16 then io_port_write16 D (bus_write fuel D) inst base offset val s
                     else io_port_write32 D (bus_write fuel D) inst base offset val s
    end
  end.
End bus.

(** *** Setting buses up *)
Inductive jump_handler := JumpIoMem | JumpIoPort | JumpConsole.

Definition io_mem_init (memory_bus : Z) (D : devs) (q : list jump_handler) : res (Z * devs * list jump_handler) :=
  D ← upd_dev memory_bus (set_fps (Some IoMem) (Some IoMem)) D;
  '(r, q) ← jump_handlers_add JumpIoMem q;
  Ok (if negb (r =? 0) then EOF_ else 0, D, q).

Definition portio_bus_connect (portio bus base : Z) (D : devs) : res devs :=
  D ← upd_dev portio (set_base base) D; upd_dev portio (set_bus bus) D.
Definition portio_bus_init (portio : Z) (D : devs) : res devs := upd_dev portio (set_fps (Some IoPort) (Some IoPort)) D.
Definition io_port_init (port_bus : Z) (D : devs) (q : list jump_handler) : res (Z * devs * list jump_handler) :=
  D ← portio_bus_init port_bus D;
  '(r, q) ← jump_handlers_add JumpIoPort q;
  Ok (if negb (r =? 0) then EOF_ else 0, D, q).

(** ** Access through a tree of buses *)
Section chain.
Context {S : Type} `{H : Hw S}.

(** The bus at [p] is connected to the address space through [n] further buses,
    whose base addresses add up to [total]. *)
Inductive reaches (D : devs) : Z → nat → Z → Prop :=
| reaches_mem p d : D !! p = Some d → get_read_fp (d_driver d) = Some IoMem → get_write_fp (d_driver d) = Some IoMem →
    reaches D p 0 0
| reaches_port p d n total : D !! p = Some d → d_bus d ≠ NULL →
    get_read_fp (d_driver d) = Some IoPort → get_write_fp (d_driver d) = Some IoPort →
    reaches D (d_bus d) n total → reaches D p (Datatypes.S n) (d_base d + total).

Definition data_width (w : Z) : Prop := w = 8 ∨ w = 16 ∨ w = 32.

Lemma bus_addr_mod a b : bus_addr a b = w32 (a + b).
Proof. unfold bus_addr, wrap. apply Z.mod_mod_divide. by exists (2 ^ 32). Qed.

Lemma bus_addr_step base d off total : w32 (d + w64 (base + off) + total) = w32 (base + off + (d + total)).
Proof.
  unfold wrap. rewrite <-(Z.add_mod_idemp_l (d + (base + off) mod 2 ^ 64)) by done.
  rewrite <-(Z.add_mod_idemp_r d ((base + off) mod 2 ^ 64)) by done.
  assert (((base + off) mod 2 ^ 64) mod 2 ^ 32 = (base + off) mod 2 ^ 32) as ->.
  { apply Z.mod_mod_divide. by exists (2 ^ 32). }
  rewrite Z.add_mod_idemp_r, Z.add_mod_idemp_l by done. f_equal. lia.
Qed.

Lemma reaches_read D p n total : reaches D p n total →
  ∃ d, D !! p = Some d ∧ ∃ i, get_read_fp (d_driver d) = Some i ∧ get_write_fp (d_driver d) = Some i.
Proof. intros []; eauto 8. Qed.

(** The accessors that the bus at [p] hands out for width [w]. *)
Definition fps (D : devs) (p w : Z) (fr fw : bus_fp) : Prop :=
  ∃ d, D !! p = Some d ∧ ask_read d w = Ok (Some fr) ∧ ask_write d w = Ok (Some fw).

Lemma fps_ok D p n total w : reaches D p n total → data_width w →
  ∃ i, fps D p w (Fp i w) (Fp i w) ∧ (n = 0%nat ↔ i = IoMem).
Proof.
  intros Hr Hw. destruct Hr as [p d Hd H1 H2|p d n total Hd Hb H1 H2 Hr]; [exists IoMem|exists IoPort];
    (split; [|done]); exists d; (split; [done|]); unfold ask_read, ask_write; rewrite H1, H2;
    by destruct Hw as [->|[->| ->]].
Qed.

Lemma bus_read_ok D p n total w base off s fuel i : reaches D p n total → data_width w → (n < fuel)%nat →
  (n = 0%nat ↔ i = IoMem) →
  bus_read fuel D (Fp i w) p base off s =
    let '(v, s') := hw_read w (w32 (base + off + total)) s in Ok (0, wrap w v, s').
Proof.
  intros Hr Hw. revert base off fuel i. induction Hr as [p d Hd H1 H2|p d n total Hd Hb H1 H2 Hr IH];
    intros base off fuel i Hf Hi; (destruct fuel as [|fuel]; [lia|]).
  - assert (i = IoMem) as -> by by apply Hi. rewrite Z.add_0_r, <-bus_addr_mod.
    destruct Hw as [->|[->| ->]]; cbn [bus_read Z.eqb Pos.eqb];
      [unfold io_mem_read8, read8|unfold io_mem_read16, read16|unfold io_mem_read32, read32];
      by destruct (hw_read _ _ s).
  - destruct i; [discriminate (proj2 Hi eq_refl)|].
    destruct (fps_ok D (d_bus d) n total w Hr Hw) as (i & (b & Hb' & Hrd & _) & Hni).
    assert (bus_read (Datatypes.S fuel) D (Fp IoPort w) p base off s =
      io_port_read D (bus_read fuel D) w p base off s) as ->.
    { by destruct Hw as [->|[->| ->]]. }
    unfold io_port_read, get_dev. rewrite Hd. cbn [of_option mbind res_bind].
    rewrite (proj2 (Z.eqb_neq (d_bus d) NULL)) by done. cbn [negb]. rewrite Hb'. cbn [of_option mbind res_bind].
    rewrite Hrd. cbn [of_option mbind res_bind]. rewrite IH by (done || lia). rewrite bus_addr_step.
    by destruct (hw_read _ _ s).
Qed.

Lemma bus_write_ok D p n total w base off val s fuel i : reaches D p n total → data_width w → (n < fuel)%nat →
  (n = 0%nat ↔ i = IoMem) →
  bus_write fuel D (Fp i w) p base off val s = Ok (0, hw_write w (w32 (base + off + total)) (wrap w val) s).
Proof.
  intros Hr Hw. revert base off fuel i. induction Hr as [p d Hd H1 H2|p d n total Hd Hb H1 H2 Hr IH];
    intros base off fuel i Hf Hi; (destruct fuel as [|fuel]; [lia|]).
  - assert (i = IoMem) as -> by by apply Hi. rewrite Z.add_0_r, <-bus_addr_mod.
    destruct Hw as [->|[->| ->]]; cbn [bus_write Z.eqb Pos.eqb];
      [unfold io_mem_write8, write8|unfold io_mem_write16, write16|unfold io_mem_write32, write32];
      by rewrite wrap_idemp.
  - destruct i; [discriminate (proj2 Hi eq_refl)|].
    destruct (fps_ok D (d_bus d) n total w Hr Hw) as (i & (b & Hb' & _ & Hwr) & Hni).
    assert (bus_write (Datatypes.S fuel) D (Fp IoPort w) p base off val s =
      io_port_write D (bus_write fuel D) w p base off val s) as ->.
    { by destruct Hw as [->|[->| ->]]. }
    unfold io_port_write, get_dev. rewrite Hd. cbn [of_option mbind res_bind].
    rewrite (proj2 (Z.eqb_neq (d_bus d) NULL)) by done. cbn [negb]. rewrite Hb'. cbn [of_option mbind res_bind].
    rewrite Hwr. cbn [of_option mbind res_bind]. rewrite IH by (done || lia). by rewrite bus_addr_step.
Qed.

(** C30. Access through a tree of buses: a device behind any number of port buses,
    one connected to the next and the last to the memory bus, is accessed at the
    sum of the offsets and of the base addresses of all the buses, modulo 2^32;
    one access of the machine is made, with exactly the width asked for, and the
    call returns 0. *)
Theorem bus_access_correct D p n total w base off val s fuel :
  reaches D p n total → data_width w → (n < fuel)%nat →
  ∃ fr fw, fps D p w fr fw ∧
    (bus_read fuel D fr p base off s =
       let '(v, s') := hw_read w (w32 (base + off + total)) s in Ok (0, wrap w v, s')) ∧
    bus_write fuel D fw p base off val s = Ok (0, hw_write w (w32 (base + off + total)) (wrap w val) s).
Proof.
  intros Hr Hw Hf. destruct (fps_ok D p n total w Hr Hw) as (i & Hfp & Hi). exists (Fp i w), (Fp i w).
  split_and!; [done|by eapply bus_read_ok|by eapply bus_write_ok].
Qed.
End chain.

(** A machine whose whole address space is memory, little endian. *)
#[global] Instance ram_hw : Hw (Z → Z) := {|
  hw_read w a m := (foldr (λ i v, v * 256 + m (a + Z.of_nat i)) 0 (seq 0 (Z.to_nat (w / 8))), m);
  hw_write w a v m := λ x, if (a <=? x) && (x <? a + w / 8) then Z.shiftr v (8 * (x - a)) mod 256 else m x |}.

Definition demo_bus : devs :=
  <[0x100 := Device [] DEVCLASS_BUS NODEV NULL [0] 0 (Driver DEVCLASS_BUS None (Some IoMem) (Some IoMem))]>
  (<[0x200 := Device [] DEVCLASS_BUS NODEV 0x100 [0x1fd00000] 1 (Driver DEVCLASS_BUS None (Some IoPort) (Some IoPort))]> ∅).

Lemma demo_bus_reaches : reaches demo_bus 0x200 1 (0x1fd00000 + 0).
Proof.
  eapply (reaches_port _ 0x200 (Device [] DEVCLASS_BUS NODEV 0x100 [0x1fd00000] 1
    (Driver DEVCLASS_BUS None (Some IoPort) (Some IoPort)))); try done. by eapply reaches_mem.
Qed.

Lemma bus_access_correct_witness : ∃ fr fw, fps demo_bus 0x200 8 fr fw ∧
  bus_write (S := Z → Z) 2 demo_bus fw 0x200 0x3f8 5 0x141 (λ _, 0) =
    Ok (0, hw_write 8 0x1fd003fd 0x41 (λ _, 0)).
Proof.
  destruct (bus_access_correct (S := Z → Z) demo_bus 0x200 1 (0x1fd00000 + 0) 8 0x3f8 5 0x141 (λ _, 0) 2)
    as (fr & fw & H1 & _ & H2); [apply demo_bus_reaches|by left|lia|]. exists fr, fw. split; [exact H1|]. exact H2.
Defined.
