(* ===== verification/Console.v ===== *)
(** * The serial console

    The NS16550 driver (drivers/serial/uart-ns16550.c), the console of
    kern/dev/console.c on top of it, and [panic] of kern/panic/panic.c.  The
    driver's polling loops have no bound in the source; [polls] bounds them here
    and is part of what the theorems assume of the device. *)
From Stdlib Require Import Ascii.
From S2P Require Import Prelude Util MmState Libc EarlyKmmap Sync Snprintf Bus.

Definition UART_FREQ : Z := 1843200.
Definition UART_BAUDRATE : Z := 115200.
Definition UART_RCV_BUFFER : Z := 0.
Definition UART_TRANS_HOLD : Z := 0.
Definition UART_INTR_ENABLE : Z := 1.
Definition UART_FIFO_CONTROL : Z := 2.
Definition UART_LINE_CONTROL : Z := 3.
Definition UART_MODEM_CONTROL : Z := 4.
Definition UART_LINE_STATUS : Z := 5.
Definition UART_DIVISOR_LSB : Z := 0.
Definition UART_DIVISOR_MSB : Z := 1.
Definition UART_IER_RBFI : Z := 0x01.
Definition UART_FCR_RTB_4 : Z := 0x40.
Definition UART_FCR_RST_TRANSMIT : Z := 0x04.
Definition UART_FCR_RST_RECEIVER : Z := 0x02.
Definition UART_LCR_DLAB : Z := 0x80.
Definition UART_LCR_PARITY_NONE : Z := 0x00.
Definition UART_LCR_DATA_8BIT : Z := 0x3.
Definition UART_LCR_STOP_1BIT : Z := 0x0.
Definition UART_MCR_RTSC : Z := 0x02.
Definition UART_MCR_DTRC : Z := 0x01.
Definition UART_LSR_THRE : Z := 0x20.
Definition UART_LSR_DATA_READY : Z := 0x01.
Definition BUFSIZ : Z := 1024.
Definition MAP_NONE : Z := 0.
Definition MAP_LINEAR : Z := 1.
Definition MAP_DYNAMIC : Z := 2.

(** The members of [struct chr_device] that the driver uses. *)
Record uart := Uart { u_bus : Z; u_base : Z }.

(** The functions that are ever registered with [set_console]. *)
Inductive putchar_impl := EarlyPutchar | NormPutchar.
Inductive puts_impl := DefaultKputs.

(** The static variables of the driver and of the console, the processor's
    status register, the kernel memory, the devices and the machine. *)
Record io (S : Type) := Io {
  hw : S; dv : devs; kmem : mem; status : Z;
  putchar_ : option putchar_impl; puts_ : option puts_impl; con_lock : Z;
  early_uart : uart; norm_uart : uart; mapped_bus : Z; mapped_base : Z;
  jumpq : list jump_handler; kmap : kmmap }.
Arguments Io {S}.
Arguments hw {S}. Arguments dv {S}. Arguments kmem {S}. Arguments status {S}. Arguments putchar_ {S}.
Arguments puts_ {S}. Arguments con_lock {S}. Arguments early_uart {S}. Arguments norm_uart {S}.
Arguments mapped_bus {S}. Arguments mapped_base {S}. Arguments jumpq {S}. Arguments kmap {S}.

Section console.
Context {S : Type} `{H : Hw S}.
(** The depth of the tree of buses and the number of polls, see above. *)
Context (depth polls : nat).
Implicit Types s : io S.

Definition set_hw (x : S) (s : io S) : io S :=
  Io x (dv s) (kmem s) (status s) (putchar_ s) (puts_ s) (con_lock s) (early_uart s) (norm_uart s) (mapped_bus s) (mapped_base s) (jumpq s) (kmap s).
Definition set_kmem (x : mem) (s : io S) : io S :=
  Io (hw s) (dv s) x (status s) (putchar_ s) (puts_ s) (con_lock s) (early_uart s) (norm_uart s) (mapped_bus s) (mapped_base s) (jumpq s) (kmap s).
Definition set_con_lock (x : Z) (s : io S) : io S :=
  Io (hw s) (dv s) (kmem s) (status s) (putchar_ s) (puts_ s) x (early_uart s) (norm_uart s) (mapped_bus s) (mapped_base s) (jumpq s) (kmap s).
Definition set_status (x : Z) (s : io S) : io S :=
  Io (hw s) (dv s) (kmem s) x (putchar_ s) (puts_ s) (con_lock s) (early_uart s) (norm_uart s) (mapped_bus s) (mapped_base s) (jumpq s) (kmap s).
Definition set_early_uart (x : uart) (s : io S) : io S :=
  Io (hw s) (dv s) (kmem s) (status s) (putchar_ s) (puts_ s) (con_lock s) x (norm_uart s) (mapped_bus s) (mapped_base s) (jumpq s) (kmap s).
Definition set_norm_uart (x : uart) (s : io S) : io S :=
  Io (hw s) (dv s) (kmem s) (status s) (putchar_ s) (puts_ s) (con_lock s) (early_uart s) x (mapped_bus s) (mapped_base s) (jumpq s) (kmap s).
Definition set_mapped (b a : Z) (s : io S) : io S :=
  Io (hw s) (dv s) (kmem s) (status s) (putchar_ s) (puts_ s) (con_lock s) (early_uart s) (norm_uart s) b a (jumpq s) (kmap s).
Definition set_jumpq (x : list jump_handler) (s : io S) : io S :=
  Io (hw s) (dv s) (kmem s) (status s) (putchar_ s) (puts_ s) (con_lock s) (early_uart s) (norm_uart s) (mapped_bus s) (mapped_base s) x (kmap s).
Definition set_kmap (x : kmmap) (s : io S) : io S :=
  Io (hw s) (dv s) (kmem s) (status s) (putchar_ s) (puts_ s) (con_lock s) (early_uart s) (norm_uart s) (mapped_bus s) (mapped_base s) (jumpq s) x.

(** ** uart-ns16550.c

    [bus->bus_driver.get_write_fp(bus, 8)], and a call of what it delivers. *)
Definition get_write8 (u : uart) s : res (option bus_fp) := bus ← get_dev (dv s) (u_bus u); ask_write bus 8.
Definition get_read8 (u : uart) s : res (option bus_fp) := bus ← get_dev (dv s) (u_bus u); ask_read bus 8.
Definition bus_write8 (fp : bus_fp) (u : uart) (reg val : Z) s : res (io S) :=
  '(_, h) ← bus_write depth (dv s) fp (u_bus u) (u_base u) reg val (hw s); Ok (set_hw h s).
Definition bus_read8 (fp : bus_fp) (u : uart) (reg : Z) s : res (Z * io S) :=
  '(_, v, h) ← bus_read depth (dv s) fp (u_bus u) (u_base u) reg (hw s); Ok (v, set_hw h s).

Definition uart_ns16550_init (inst : uart) s : res (io S) :=
  fp ← get_write8 inst s;
  match fp with
  | None => Ok s
  | Some fp =>
    s ← bus_write8 fp inst UART_FIFO_CONTROL
          (Z.lor (Z.lor UART_FCR_RTB_4 UART_FCR_RST_TRANSMIT) UART_FCR_RST_RECEIVER) s;
    s ← bus_write8 fp inst UART_LINE_CONTROL UART_LCR_DLAB s;
    s ← bus_write8 fp inst UART_DIVISOR_LSB (Z.land (UART_FREQ / UART_BAUDRATE) 0xff) s;
    s ← bus_write8 fp inst UART_DIVISOR_MSB (Z.land (Z.shiftr (UART_FREQ / UART_BAUDRATE) 8) 0xff) s;
    bus_write8 fp inst UART_LINE_CONTROL
      (Z.lor (Z.lor UART_LCR_DATA_8BIT UART_LCR_STOP_1BIT) UART_LCR_PARITY_NONE) s
  end.

Definition uart_ns16550_enable (inst : uart) s : res (io S) :=
  fp ← get_write8 inst s;
  match fp with None => Ok s | Some fp => bus_write8 fp inst UART_MODEM_CONTROL (Z.lor UART_MCR_RTSC UART_MCR_DTRC) s end.
Definition uart_ns16550_disable (inst : uart) s : res (io S) :=
  fp ← get_write8 inst s;
  match fp with None => Ok s | Some fp => bus_write8 fp inst UART_MODEM_CONTROL 0 s end.
Definition uart_ns16550_enable_interrupt (inst : uart) s : res (io S) :=
  fp ← get_write8 inst s;
  match fp with None => Ok s | Some fp => bus_write8 fp inst UART_INTR_ENABLE UART_IER_RBFI s end.
Definition uart_ns16550_disable_interrupt (inst : uart) s : res (io S) :=
  fp ← get_write8 inst s;
  match fp with None => Ok s | Some fp => bus_write8 fp inst UART_INTR_ENABLE 0 s end.

(** [do { bus_read8(..., UART_LINE_STATUS, &buf); } while (!(buf & mask))] *)
Definition poll_status (fp : bus_fp) (u : uart) (mask : Z) s : res (io S) :=
  loop polls (λ s,
    '(buf, s) ← bus_read8 fp u UART_LINE_STATUS s;
    if Z.land buf mask =? 0 then Ok (inl s) else Ok (inr s)) s.

Definition uart_ns16550_getchar (inst : uart) s : res (Z * io S) :=
  fp ← get_read8 inst s;
  match fp with
  | None => Ok (0, s)
  | Some fp =>
    s ← poll_status fp inst UART_LSR_DATA_READY s;
    '(buf, s) ← bus_read8 fp inst UART_RCV_BUFFER s;
    Ok (w8 buf, s)
  end.

Definition uart_ns16550_putchar (inst : uart) (c : Z) s : res (Z * io S) :=
  fr ← get_read8 inst s;
  fw ← get_write8 inst s;
  match fr, fw with
  | Some fr, Some fw =>
    s ← poll_status fr inst UART_LSR_THRE s;
    s ← bus_write8 fw inst UART_TRANS_HOLD c s;
    Ok (0, s)
  | _, _ => Ok (EOF_, s)
  end.

Definition early_console_putchar (c : Z) s : res (Z * io S) :=
  '(_, s) ← uart_ns16550_putchar (early_uart s) (w8 c) s; Ok (0, s).
Definition norm_console_putchar (c : Z) s : res (Z * io S) :=
  '(_, s) ← uart_ns16550_putchar (norm_uart s) (w8 c) s; Ok (0, s).
Definition early_console_set_bus (bus base : Z) s : io S := set_early_uart (Uart bus base) s.
Definition norm_console_set_bus (bus base : Z) s : io S := set_norm_uart (Uart bus base) s.

(** ** console.c *)
Definition set_console (putchar : putchar_impl) (puts : puts_impl) s : io S :=
  Io (hw s) (dv s) (kmem s) (status s) (Some putchar) (Some puts) (spinlock_init (con_lock s))
    (early_uart s) (norm_uart s) (mapped_bus s) (mapped_base s) (jumpq s) (kmap s).

Definition call_putchar (f : putchar_impl) (c : Z) s : res (Z * io S) :=
  match f with EarlyPutchar => early_console_putchar c s | NormPutchar => norm_console_putchar c s end.

Definition kputchar (c : Z) s : res (Z * io S) :=
  match putchar_ s with None => Ok (EOF_, s) | Some f => call_putchar f c s end.

(** [fuel] bounds the length of the string. *)
Definition kputs_chars (fuel : nat) (str : Z) s : res (Z * io S) :=
  match putchar_ s with
  | None => Ok (EOF_, s)
  | Some f =>
    loop fuel (λ '(str, s),
      let c := sgn 8 (kmem s str) in
      if c =? 0 then Ok (inr (0, s))
      else
        s ← (if c =? 10 then '(_, s) ← call_putchar f 13 s; Ok s else Ok s);
        '(_, s) ← call_putchar f c s;
        Ok (inl (w32 (str + 1), s))) (str, s)
  end.

(** [spin_lock_irq_save(&__lock, flags)] and [spin_unlock_irq_restore(&__lock, flags)]. *)
Definition con_enter s : res (Z * io S) :=
  let '(flags, st) := local_irq_save (status s) in
  lk ← of_option OutOfFuel (try_lock (con_lock s)); Ok (flags, set_con_lock lk (set_status st s)).
Definition con_exit (flags : Z) s : io S :=
  let s := set_con_lock (unlock (con_lock s)) s in set_status (local_irq_restore flags (status s)) s.

Definition kputs (fuel : nat) (str : Z) s : res (Z * io S) :=
  match puts_ s with
  | None => Ok (EOF_, s)
  | Some DefaultKputs =>
    '(flags, s) ← con_enter s;
    '(result, s) ← kputs_chars fuel str s;
    Ok (result, con_exit flags s)
  end.

(** [printf_buf] is the address of the local array. *)
Definition kprintf (printf_buf : Z) (fmt : list Z) (args : list va) s : res (Z * io S) :=
  '(result, m) ← vsnprintf printf_buf BUFSIZ fmt args (kmem s);
  '(_, s) ← kputs (Z.to_nat BUFSIZ) printf_buf (set_kmem m s);
  Ok (result, s).

(** kern/panic/panic.c: what [panic] does before it stops the processor for
    good.  [buf] is the static buffer, the others are the string literals; on
    MIPS [panic_other_cpus] is empty. *)
Definition panic_report (buf banner truncated : Z) (fmt : list Z) (args : list va) s : res (io S) :=
  '(result, m) ← vsnprintf buf BUFSIZ fmt args (kmem s);
  '(_, s) ← kputs 64 banner (set_kmem m s);
  s ← (if BUFSIZ <=? result then '(_, s) ← kputs 64 truncated s; Ok s else Ok s);
  '(_, s) ← kputs (Z.to_nat BUFSIZ) buf s;
  Ok s.

(** *** Early set-up *)
Definition get_mapped_base (base type : Z) s : res (Z * Z * io S) :=
  if type =? MAP_NONE then Ok (0, base, s)
  else if type =? MAP_LINEAR then Ok (0, postmap_addr base, s)
  else if type =? MAP_DYNAMIC then
    let entry := EarlyMapping base 0 PAGE_SIZE EARLY_MAPPING_KMMAP in
    '(ret, k) ← early_mapping_add entry (kmap s);
    let s := set_kmap k s in
    if ret <? 0 then Ok (ret, 0, s) else Ok (0, m_vaddr entry, s)
  else Ok (- ENOTSUP, 0, s).

Definition console_jump_handler s : io S :=
  set_console EarlyPutchar DefaultKputs (early_console_set_bus (mapped_bus s) (mapped_base s) s).

(** A full queue of handlers ends in an endless loop. *)
Definition uart_early_console_init (bus base mbase : Z) s : res (Z * io S) :=
  let s := early_console_set_bus bus base s in
  let s := set_mapped (postmap_addr bus) mbase s in
  s ← uart_ns16550_init (early_uart s) s;
  s ← uart_ns16550_enable (early_uart s) s;
  let s := set_console EarlyPutchar DefaultKputs s in
  '(r, q) ← jump_handlers_add JumpConsole (jumpq s);
  if negb (r =? 0) then Err OutOfFuel else Ok (0, set_jumpq q s).

Definition early_console_init (bus base type : Z) s : res (Z * io S) :=
  '(ret, mbase, s) ← get_mapped_base base type s;
  if ret <? 0 then Ok (ret, s) else uart_early_console_init bus base mbase s.
End console.

(** ** The device

    What the data sheet of the NS16550 says about the registers the driver uses:
    [tx] is the sequence of characters sent so far, [busy] the number of times
    the line status register will still read as "transmitter not empty" ([limit]
    at most), [dlab] the divisor latch access bit. *)
Class Ns16550 (S : Type) `{Hw S} (B : Z) (limit : nat) := {
  tx : S → list Z; busy : S → nat; dlab : S → bool;
  busy_limit s : (busy s ≤ limit)%nat;
  lsr_read s : let '(v, s') := hw_read 8 (w32 (B + UART_LINE_STATUS)) s in
    Z.testbit v 5 = bool_decide (busy s = 0%nat) ∧ tx s' = tx s ∧ dlab s' = dlab s ∧ busy s' = pred (busy s);
  thr_write c s : busy s = 0%nat → dlab s = false →
    tx (hw_write 8 (w32 (B + UART_TRANS_HOLD)) (w8 c) s) = tx s ++ [w8 c] ∧
    dlab (hw_write 8 (w32 (B + UART_TRANS_HOLD)) (w8 c) s) = false;
  latch_write r c s : r = UART_DIVISOR_LSB ∨ r = UART_DIVISOR_MSB → dlab s = true →
    tx (hw_write 8 (w32 (B + r)) c s) = tx s ∧ dlab (hw_write 8 (w32 (B + r)) c s) = true;
  lcr_write c s : tx (hw_write 8 (w32 (B + UART_LINE_CONTROL)) c s) = tx s ∧
    dlab (hw_write 8 (w32 (B + UART_LINE_CONTROL)) c s) = Z.testbit c 7;
  ctl_write r c s : r = UART_FIFO_CONTROL ∨ r = UART_MODEM_CONTROL →
    tx (hw_write 8 (w32 (B + r)) c s) = tx s ∧ dlab (hw_write 8 (w32 (B + r)) c s) = dlab s }.

(** A zero-terminated string of bytes in memory. *)
Definition zstring (m : mem) (p : Z) (cs : list Z) : Prop :=
  0 ≤ p ∧ p + Z.of_nat (length cs) < 2 ^ 32 ∧ m (p + Z.of_nat (length cs)) = 0 ∧
  (∀ i c, cs !! i = Some c → 0 < c < 256 ∧ m (p + Z.of_nat i) = c).

(** A line feed goes out as carriage return and line feed. *)
Definition crlf (cs : list Z) : list Z := mjoin ((λ c, if c =? 10 then [13; 10] else [c]) <$> cs).

Section output.
Context {S : Type} {Hhw : Hw S} (B : Z) (limit : nat) {Hu : Ns16550 S B limit}.
Context (depth polls : nat) (n : nat) (total : Z).
Context (Hdepth : (n < depth)%nat) (Hpolls : (limit < polls)%nat).
Implicit Types s : io S.

(** The driver's instance [u] is connected to the device at [B]. *)
Definition attached (u : uart) s : Prop := reaches (dv s) (u_bus u) n total ∧ u_base u + total = B.

Lemma uart_addr u s r : attached u s → w32 (u_base u + r + total) = w32 (B + r).
Proof. intros [_ <-]. f_equal. lia. Qed.

Lemma uart_fps u s : attached u s → ∃ fr fw, get_read8 u s = Ok (Some fr) ∧ get_write8 u s = Ok (Some fw) ∧
  (∀ h reg, bus_read8 depth fr u reg (set_hw h s) =
     let '(v, h') := hw_read 8 (w32 (B + reg)) h in Ok (w8 v, set_hw h' s)) ∧
  (∀ h reg c, bus_write8 depth fw u reg c (set_hw h s) = Ok (set_hw (hw_write 8 (w32 (B + reg)) (w8 c) h) s)).
Proof.
  intros Ha. pose proof Ha as [Hr _]. destruct (fps_ok (dv s) (u_bus u) n total 8 Hr) as (i & (d & Hd & H1 & H2) & Hi); [by left|].
  exists (Fp i 8), (Fp i 8). unfold get_read8, get_write8, get_dev. rewrite Hd. cbn [of_option mbind res_bind].
  split_and!; [done|done| |].
  - intros h reg. unfold bus_read8. cbn [dv set_hw hw]. rewrite (bus_read_ok (dv s) _ n total) by (done || by left).
    rewrite (uart_addr u s) by done. by destruct (hw_read 8 _ h).
  - intros h reg c. unfold bus_write8. cbn [dv set_hw hw]. rewrite (bus_write_ok (dv s) _ n total) by (done || by left).
    by rewrite (uart_addr u s).
Qed.

Lemma set_hw_id s : set_hw (hw s) s = s.
Proof. by destruct s. Qed.

Lemma land_thre v : Z.land (w8 v) UART_LSR_THRE =? 0 = negb (Z.testbit v 5).
Proof.
  destruct (Z.eqb_spec (Z.land (w8 v) UART_LSR_THRE) 0) as [E|E].
  - apply (f_equal (λ z, Z.testbit z 5)) in E. rewrite Z.land_spec, Z.bits_0 in E. unfold UART_LSR_THRE in E.
    rewrite wrap_testbit in E by lia. change (Z.testbit 32 5) with true in E. change (5 <? 8) with true in E.
    rewrite andb_true_r, andb_true_l in E. by rewrite E.
  - destruct (Z.testbit v 5) eqn:Ev; [done|]. exfalso. apply E. unfold UART_LSR_THRE. bitwise.
    change 32 with (2 ^ 5). destruct (decide (i = 5)) as [->|Hne]; [by rewrite Ev, andb_false_r|].
    rewrite (Z.pow2_bits_false 5 i) by lia. apply andb_false_r.
Qed.

Lemma uart_poll_ok fr u s h : attached u s →
  (∀ h reg, bus_read8 depth fr u reg (set_hw h s) =
     let '(v, h') := hw_read 8 (w32 (B + reg)) h in Ok (w8 v, set_hw h' s)) →
  wp (poll_status depth polls fr u UART_LSR_THRE (set_hw h s)) (λ s',
    ∃ h', s' = set_hw h' s ∧ tx h' = tx h ∧ dlab h' = dlab h ∧ busy h' = 0%nat).
Proof.
  intros Ha Hr. apply (wp_loop _ (λ s', ∃ h', s' = set_hw h' s ∧ tx h' = tx h ∧ dlab h' = dlab h)
    (λ s', busy (hw s'))).
  - intros s' (h' & -> & Ht & Hd). rewrite Hr. pose proof (lsr_read h') as Hl.
    destruct (hw_read 8 (w32 (B + UART_LINE_STATUS)) h') as [v h2] eqn:Eh. destruct Hl as (Hv & Ht2 & Hd2 & Hb2).
    cbn [mbind res_bind]. rewrite land_thre, Hv. case_bool_decide as Hb0; cbn [negb]; apply wp_ok.
    + exists h2. split_and!; [done|congruence|congruence|by rewrite Hb2, Hb0].
    + split; [exists h2; split_and!; congruence|]. cbn [hw set_hw]. rewrite Hb2. lia.
  - by exists h.
  - cbn [hw set_hw]. pose proof (busy_limit h). lia.
Qed.

Lemma uart_putchar_ok u c s : attached u s → dlab (hw s) = false →
  wp (uart_ns16550_putchar depth polls u c s) (λ '(r, s'), r = 0 ∧
    ∃ h, s' = set_hw h s ∧ tx h = tx (hw s) ++ [w8 c] ∧ dlab h = false).
Proof.
  intros Ha Hd. destruct (uart_fps u s Ha) as (fr & fw & E1 & E2 & Hr & Hw). unfold uart_ns16550_putchar.
  rewrite E1, E2. cbn [mbind res_bind]. apply wp_bind. pose proof (uart_poll_ok fr u s (hw s) Ha Hr) as Hp.
  rewrite set_hw_id in Hp. eapply wp_mono; [exact Hp|]. intros s' (h & -> & Ht & Hdl & Hb).
  rewrite Hw. cbn [mbind res_bind wp]. split; [done|]. destruct (thr_write c h Hb) as [H1 H2]; [congruence|].
  eexists. split; [done|]. split; [congruence|done].
Qed.

(** The console writes to an instance of the driver that is attached. *)
Definition con_uart (f : putchar_impl) s : uart := match f with EarlyPutchar => early_uart s | NormPutchar => norm_uart s end.
Definition console_ok s : Prop :=
  ∃ f, putchar_ s = Some f ∧ puts_ s = Some DefaultKputs ∧ attached (con_uart f s) s ∧
       dlab (hw s) = false ∧ free_lock (con_lock s).

Lemma call_putchar_ok f c s : attached (con_uart f s) s → dlab (hw s) = false →
  wp (call_putchar depth polls f c s) (λ '(_, s'),
    ∃ h, s' = set_hw h s ∧ tx h = tx (hw s) ++ [w8 c] ∧ dlab h = false).
Proof.
  intros Ha Hd. destruct f; [unfold call_putchar, early_console_putchar|unfold call_putchar, norm_console_putchar];
    apply wp_bind; (eapply wp_mono; [by apply uart_putchar_ok|]); intros [r s'] (-> & h & -> & Ht & Hdl); apply wp_ok;
    exists h; rewrite wrap_idemp in Ht; done.
Qed.

Lemma sgn8_byte c : 0 ≤ c < 256 → w8 (sgn 8 c) = c ∧ (sgn 8 c = 0 ↔ c = 0) ∧ (sgn 8 c = 10 ↔ c = 10).
Proof.
  intros Hc. unfold sgn. rewrite (wrap_small 8 c) by (unfold fits; lia). change (2 ^ (8 - 1)) with 128. change (2 ^ 8) with 256.
  destruct (Z.ltb_spec c 128).
  - by rewrite (wrap_small 8 c) by (unfold fits; lia).
  - unfold wrap. split; [|lia]. replace (c - 256) with (c + (-1) * 2 ^ 8) by lia.
    rewrite Z.mod_add by done. apply Z.mod_small. lia.
Qed.

Lemma crlf_cons c cs : crlf (c :: cs) = (if c =? 10 then [13; 10] else [c]) ++ crlf cs.
Proof. done. Qed.

Lemma kputs_loop_ok f cs fuel p s h : zstring (kmem s) p cs → (length cs < fuel)%nat →
  attached (con_uart f s) s → dlab h = false →
  wp (loop fuel (λ '(str, s),
      let c := sgn 8 (kmem s str) in
      if c =? 0 then Ok (inr (0, s))
      else
        s ← (if c =? 10 then '(_, s) ← call_putchar depth polls f 13 s; Ok s else Ok s);
        '(_, s) ← call_putchar depth polls f c s;
        Ok (inl (w32 (str + 1), s))) (p, set_hw h s)) (λ '(r, s'), r = 0 ∧
    ∃ h', s' = set_hw h' s ∧ tx h' = tx h ++ crlf cs ∧ dlab h' = false).
Proof.
  revert fuel p h. induction cs as [|c cs IH]; intros fuel p h (Hp & Hb & Hz & Hcs) Hf Ha Hd;
    (destruct fuel as [|fuel]; [lia|]); cbn [loop]; cbv zeta; cbn [kmem set_hw].
  { cbn [length] in Hz. rewrite Z.add_0_r in Hz. rewrite Hz. cbn. split; [done|]. exists h. by rewrite app_nil_r. }
  cbn [length] in *. destruct (Hcs 0%nat c eq_refl) as [Hc Hm]. rewrite Z.add_0_r in Hm. rewrite Hm.
  destruct (sgn8_byte c) as (Hw8 & H0 & H10); [lia|].
  rewrite (proj2 (Z.eqb_neq (sgn 8 c) 0)) by (rewrite H0; lia).
  assert (∀ h, attached (con_uart f (set_hw h s)) (set_hw h s)) as Ha' by (by intros; destruct f).
  rewrite crlf_cons. apply wp_bind, wp_bind.
  apply wp_mono with (λ s', ∃ h', s' = set_hw h' s ∧ tx h' = tx h ++ (if c =? 10 then [13] else []) ∧ dlab h' = false).
  { destruct (Z.eqb_spec c 10) as [->|Hne].
    - change (sgn 8 10 =? 10) with true. apply wp_bind. eapply wp_mono; [apply call_putchar_ok; [apply Ha'|done]|].
      intros [r s'] (h' & -> & Ht & Hd'). apply wp_ok. exists h'. done.
    - rewrite (proj2 (Z.eqb_neq (sgn 8 c) 10)) by (by rewrite H10). apply wp_ok. exists h. by rewrite app_nil_r. }
  intros s' (h1 & -> & Ht1 & Hd1). apply wp_bind. eapply wp_mono; [apply call_putchar_ok; [apply Ha'|done]|].
  intros [r s'] (h2 & -> & Ht2 & Hd2). apply wp_ok. cbn [hw set_hw] in Ht2. rewrite Hw8 in Ht2.
  rewrite (wrap_small 32 (p + 1)) by (unfold fits; lia). change (set_hw h2 (set_hw h1 s)) with (set_hw h2 s).
  eapply wp_mono; [apply IH; [|lia|done|done]|].
  - split_and!; [lia|lia| |].
    + rewrite <-Hz. f_equal. lia.
    + intros i x Hx. destruct (Hcs (Datatypes.S i) x Hx) as [Hx1 Hx2]. split; [done|]. rewrite <-Hx2. f_equal. lia.
  - intros [r' s'] (-> & h3 & -> & Ht3 & Hd3). split; [done|]. exists h3. split_and!; [done| |done].
    rewrite Ht3, Ht2, Ht1. rewrite <-!app_assoc. f_equal. by destruct (Z.eqb_spec c 10) as [->|].
Qed.

(** What an output operation leaves alone. *)
Record same_setup (s s' : io S) : Prop := SameSetup {
  ss_dv : dv s' = dv s; ss_put : putchar_ s' = putchar_ s; ss_puts : puts_ s' = puts_ s;
  ss_early : early_uart s' = early_uart s; ss_norm : norm_uart s' = norm_uart s;
  ss_irq : Z.testbit (status s') 0 = Z.testbit (status s) 0 }.

Lemma kputs_ok cs fuel p s : console_ok s → zstring (kmem s) p cs → (length cs < fuel)%nat →
  wp (kputs depth polls fuel p s) (λ '(r, s'), r = 0 ∧
    tx (hw s') = tx (hw s) ++ crlf cs ∧ console_ok s' ∧ same_setup s s' ∧ kmem s' = kmem s).
Proof.
  intros (f & Hf & Hp & Ha & Hd & Hl) Hz Hfuel. unfold kputs. rewrite Hp. unfold con_enter.
  destruct (local_irq_save (status s)) as [flags st] eqn:Eirq.
  destruct (lock_unlock (con_lock s) Hl) as (lk & Hlk & Hfree & _). rewrite Hlk. cbn [of_option mbind res_bind].
  set (s1 := set_con_lock lk (set_status st s)).
  unfold kputs_chars. replace (putchar_ s1) with (Some f) by done. apply wp_bind.
  pose proof (kputs_loop_ok f cs fuel p s1 (hw s1) Hz Hfuel ltac:(by destruct f) Hd) as Hloop.
  rewrite set_hw_id in Hloop. eapply wp_mono; [exact Hloop|].
  intros [r s'] (-> & h & -> & Ht & Hdl). apply wp_ok. unfold con_exit. split_and!; [done|done| | |done].
  - exists f. split_and!; [done|done|by destruct f|done|done].
  - split; try done. cbn [status set_status set_con_lock set_hw].
    pose proof (irq_save_restore (status s) st) as (_ & Hi & _). rewrite Eirq in Hi. exact Hi.
Qed.

Lemma kprintf_ok buf ds args o s :
  console_ok s → 0 ≤ buf → buf + BUFSIZ ≤ 2 ^ 32 → renders buf BUFSIZ (kmem s) ds args o → Forall (λ c, c ≠ 0) o →
  wp (kprintf depth polls buf (format_text ds) args s) (λ '(r, s'),
    r = (if Z.of_nat (length o) + 1 <? BUFSIZ then Z.of_nat (length o) else BUFSIZ) ∧
    tx (hw s') = tx (hw s) ++ crlf (take 1023 o) ∧ console_ok s' ∧ same_setup s s' ∧
    (∀ a, ¬ in_buf buf BUFSIZ a → kmem s' a = kmem s a)).
Proof.
  intros Hok Hb He Hr Hnz. unfold kprintf. apply wp_bind.
  pose proof (renders_bytes _ _ _ _ _ _ Hr) as Hbytes.
  eapply wp_mono; [apply (vsnprintf_ok buf BUFSIZ (kmem s) ds args o); (done || unfold BUFSIZ in *; lia)|].
  intros [r m'] (Hres & Hout & Hterm & Hframe). cbv zeta in *. apply wp_bind.
  assert (Z.of_nat (length (take 1023 o)) = Z.of_nat (length o) `min` (BUFSIZ - 1)) as Hlen.
  { rewrite length_take. unfold BUFSIZ. lia. }
  eapply wp_mono; [apply (kputs_ok (take 1023 o)); [exact Hok| |]|].
  - cbn [kmem set_kmem]. unfold zstring. rewrite Hlen. unfold BUFSIZ in *. split_and!; [done|lia|exact Hterm|].
    intros i c Hc. pose proof (lookup_lt_Some _ _ _ Hc) as Hi. rewrite length_take in Hi.
    rewrite lookup_take_lt in Hc by lia. specialize (Hout (Z.of_nat i) ltac:(lia)). rewrite Nat2Z.id, Hc in Hout.
    injection Hout as Hout. pose proof (Forall_lookup_1 _ _ _ _ Hbytes Hc) as Hcb.
    pose proof (Forall_lookup_1 _ _ _ _ Hnz Hc) as Hc0. unfold fits in Hcb. cbn in Hc0. split; [lia|done].
  - unfold BUFSIZ. rewrite length_take. lia.
  - intros [r' s'] (_ & Ht & Hok' & Hs & Hm). apply wp_ok. split_and!; [done|done|done| |].
    + destruct Hs. by split.
    + intros a Ha. rewrite Hm. cbn [kmem set_kmem]. apply Hframe. unfold in_buf in Ha. lia.
Qed.

Lemma uart_setup_ok u s : attached u s →
  wp (s ← uart_ns16550_init depth u s; uart_ns16550_enable depth u s) (λ s', ∃ h,
    s' = set_hw h s ∧ tx h = tx (hw s) ∧ dlab h = false).
Proof.
  intros Ha. destruct (uart_fps u s Ha) as (fr & fw & _ & E2 & _ & Hw).
  unfold uart_ns16550_init, uart_ns16550_enable. rewrite E2. cbn [mbind res_bind].
  rewrite <-(set_hw_id s) at 1. rewrite Hw. cbn [mbind res_bind]. rewrite Hw. cbn [mbind res_bind].
  rewrite Hw. cbn [mbind res_bind]. rewrite Hw. cbn [mbind res_bind]. rewrite Hw. cbn [mbind res_bind].
  match goal with |- wp (get_write8 u (set_hw ?h s) ≫= _) _ => change (get_write8 u (set_hw h s)) with (get_write8 u s) end.
  rewrite E2. cbn [mbind res_bind]. rewrite Hw. cbn [wp]. eexists. split; [done|].
  set (h0 := hw s).
  set (h1 := hw_write 8 (w32 (B + UART_FIFO_CONTROL)) _ h0).
  set (h2 := hw_write 8 (w32 (B + UART_LINE_CONTROL)) _ h1).
  set (h3 := hw_write 8 (w32 (B + UART_DIVISOR_LSB)) _ h2).
  set (h4 := hw_write 8 (w32 (B + UART_DIVISOR_MSB)) _ h3).
  set (h5 := hw_write 8 (w32 (B + UART_LINE_CONTROL)) _ h4).
  destruct (ctl_write UART_FIFO_CONTROL (w8 (Z.lor (Z.lor UART_FCR_RTB_4 UART_FCR_RST_TRANSMIT) UART_FCR_RST_RECEIVER)) h0)
    as [T1 D1]; [by left|].
  destruct (lcr_write (w8 UART_LCR_DLAB) h1) as [T2 D2].
  destruct (latch_write UART_DIVISOR_LSB (w8 (Z.land (UART_FREQ / UART_BAUDRATE) 255)) h2) as [T3 D3]; [by left|exact D2|].
  destruct (latch_write UART_DIVISOR_MSB (w8 (Z.land (Z.shiftr (UART_FREQ / UART_BAUDRATE) 8) 255)) h3) as [T4 D4];
    [by right|exact D3|].
  destruct (lcr_write (w8 (Z.lor (Z.lor UART_LCR_DATA_8BIT UART_LCR_STOP_1BIT) UART_LCR_PARITY_NONE)) h4) as [T5 D5].
  destruct (ctl_write UART_MODEM_CONTROL (w8 (Z.lor UART_MCR_RTSC UART_MCR_DTRC)) h5) as [T6 D6]; [by right|].
  split; [|rewrite D6; exact D5].
  rewrite T6. unfold h5. rewrite T5. unfold h4. rewrite T4. unfold h3. rewrite T3. unfold h2. rewrite T2. unfold h1. exact T1.
Qed.

(** C27. Console output ([kprintf]): with a console on an NS16550 behind any
    number of buses, the characters sent are exactly the text that
    [vsnprintf] prints for the format ([renders]; what C prescribes for all formats
    where the two agree), up to the size of the internal buffer, in order, every line feed
    preceded by a carriage return, however long the device stays busy within its
    limit; the lock is free again, the interrupt enable bit is as before, and no
    memory changes but the internal buffer. *)
Theorem kprintf_correct buf ds args o s :
  console_ok s → 0 ≤ buf → buf + BUFSIZ ≤ 2 ^ 32 → renders buf BUFSIZ (kmem s) ds args o → Forall (λ c, c ≠ 0) o →
  wp (kprintf depth polls buf (format_text ds) args s) (λ '(r, s'),
    r = (if Z.of_nat (length o) + 1 <? BUFSIZ then Z.of_nat (length o) else BUFSIZ) ∧
    tx (hw s') = tx (hw s) ++ crlf (take 1023 o) ∧ console_ok s' ∧ same_setup s s' ∧
    (∀ a, ¬ in_buf buf BUFSIZ a → kmem s' a = kmem s a)).
Proof. apply kprintf_ok. Qed.

(** Bringing the console up ([early_console_init] with a fixed mapping): when
    the bus leads to the device and a jump handler can still be registered, the
    call returns 0, nothing is sent, and the console works afterwards: a string
    given to [kputs] is sent.  Any other mapping type than the three known ones
    is refused and changes nothing. *)
Theorem early_console_correct bus base type s :
  reaches (dv s) bus n total → base + total = B → Z.of_nat (length (jumpq s)) < HANDLER_QUEUE_LENGTH →
  (type = MAP_NONE ∨ type = MAP_LINEAR →
   wp (early_console_init depth bus base type s) (λ '(r, s'),
     r = 0 ∧ tx (hw s') = tx (hw s) ∧ jumpq s' = jumpq s ++ [JumpConsole] ∧
     mapped_bus s' = postmap_addr bus ∧ mapped_base s' = (if type =? MAP_NONE then base else postmap_addr base) ∧
     ∀ p cs fuel, zstring (kmem s) p cs → (length cs < fuel)%nat →
       wp (kputs depth polls fuel p s') (λ '(r, s2), r = 0 ∧ tx (hw s2) = tx (hw s) ++ crlf cs))) ∧
  (type ≠ MAP_NONE → type ≠ MAP_LINEAR → type ≠ MAP_DYNAMIC → early_console_init depth bus base type s = Ok (- ENOTSUP, s)).
Proof.
  intros Hr HB Hq. split.
  2: { intros H1 H2 H3. unfold early_console_init, get_mapped_base.
    by rewrite (proj2 (Z.eqb_neq type MAP_NONE)), (proj2 (Z.eqb_neq type MAP_LINEAR)), (proj2 (Z.eqb_neq type MAP_DYNAMIC)). }
  intros Ht. set (mb := if type =? MAP_NONE then base else postmap_addr base).
  assert (early_console_init depth bus base type s = uart_early_console_init depth bus base mb s) as ->.
  { by destruct Ht as [->| ->]. }
  unfold uart_early_console_init.
  set (s1 := set_mapped (postmap_addr bus) mb (early_console_set_bus bus base s)).
  change (early_uart s1) with (Uart bus base).
  assert (attached (Uart bus base) s1) as Ha by done.
  pose proof (uart_setup_ok (Uart bus base) s1 Ha) as Hset. apply wp_inv in Hset as (s2 & E & h & -> & Htx & Hd).
  destruct (uart_ns16550_init depth (Uart bus base) s1) as [s3|] eqn:E3; [|done]. cbn [mbind res_bind] in *.
  assert (early_uart s3 = Uart bus base) as ->.
  { assert (∃ h3, s3 = set_hw h3 s1) as (h3 & ->); [|done].
    destruct (uart_fps (Uart bus base) s1 Ha) as (fr & fw & _ & Ew & _ & Hw). revert E3. unfold uart_ns16550_init.
    rewrite Ew. cbn [mbind res_bind]. rewrite <-(set_hw_id s1) at 1. do 5 (rewrite Hw; cbn [mbind res_bind]).
    intros [= <-]. eauto. }
  rewrite E. cbn [mbind res_bind]. unfold jump_handlers_add. cbn [jumpq set_console set_hw].
  change (jumpq s1) with (jumpq s).
  rewrite (proj2 (Z.ltb_ge _ _)) by lia. rewrite (proj2 (Z.eqb_neq _ _)) by lia. cbn [mbind res_bind Z.eqb negb wp].
  split_and!; [done|exact Htx|done|done|done|].
  intros p cs fuel Hz Hf. eapply wp_mono; [apply kputs_ok; [|exact Hz|done]|].
  - exists EarlyPutchar. split_and!; try done. exists 0. by unfold Sync.B.
  - intros [r s'] (-> & Ht' & _). split; [done|]. rewrite Ht'. cbn [hw set_jumpq set_console set_hw]. by rewrite Htx.
Qed.
End output.

(** With a dynamic mapping the entry's virtual address is never assigned: the
    base address of the console after the jump is 0. *)
Theorem console_dynamic_base {S} base (s s' : io S) r a : get_mapped_base base MAP_DYNAMIC s = Ok (r, a, s') → a = 0.
Proof.
  unfold get_mapped_base. cbn [Z.eqb MAP_DYNAMIC MAP_NONE MAP_LINEAR Pos.eqb]. unfold MAP_DYNAMIC, MAP_NONE, MAP_LINEAR. cbn [Z.eqb Pos.eqb].
  destruct (early_mapping_add _ _) as [[ret k]|]; [|done]. cbn [mbind res_bind]. destruct (ret <? 0); by intros [= <- <- <-].
Qed.

(** ** A simulated device: after each character it is busy for two polls. *)
Record sim := Sim { s_tx : list Z; s_busy : nat; s_lcr : Z }.
Definition UART_BASE : Z := 0xbfe40000.

#[global] Instance sim_hw : Hw sim := {|
  hw_read w a s := if a =? w32 (UART_BASE + UART_LINE_STATUS)
    then (if Nat.eqb (Nat.min 2 (s_busy s)) 0 then 0x60 else 0, Sim (s_tx s) (pred (Nat.min 2 (s_busy s))) (s_lcr s))
    else (0, s);
  hw_write w a c s :=
    if a =? w32 (UART_BASE + UART_LINE_CONTROL) then Sim (s_tx s) (s_busy s) c
    else if (a =? w32 (UART_BASE + UART_TRANS_HOLD)) && negb (Z.testbit (s_lcr s) 7)
    then Sim (s_tx s ++ [c]) 2 (s_lcr s) else s |}.

#[global, refine] Instance sim_ns16550 : Ns16550 sim UART_BASE 2 := {|
  tx := s_tx; busy s := Nat.min 2 (s_busy s); dlab s := Z.testbit (s_lcr s) 7 |}.
Proof.
  - intros s. lia.
  - intros s. cbn [hw_read sim_hw]. rewrite Z.eqb_refl. cbn [s_tx s_busy s_lcr].
    split_and!; [|done|done|lia]. destruct (Nat.min 2 (s_busy s)); done.
  - intros c s Hb Hd. cbn [hw_write sim_hw]. change (w32 (UART_BASE + UART_TRANS_HOLD) =? w32 (UART_BASE + UART_LINE_CONTROL)) with false.
    rewrite Z.eqb_refl, Hd. done.
  - intros r c s Hr Hd. cbn [hw_write sim_hw]. destruct Hr as [->| ->].
    + change (w32 (UART_BASE + UART_DIVISOR_LSB) =? w32 (UART_BASE + UART_LINE_CONTROL)) with false.
      rewrite Hd, andb_false_r. done.
    + done.
  - intros c s. cbn [hw_write sim_hw]. by rewrite Z.eqb_refl.
  - intros r c s [->| ->]; done.
Defined.

Definition demo_io : io sim :=
  Io (Sim [] 1 0) (<[0x100 := Device [] DEVCLASS_BUS NODEV NULL [0] 0 (Driver DEVCLASS_BUS None (Some IoMem) (Some IoMem))]> ∅)
    (λ a, if a =? 0x5000 then ch "x" else if a =? 0x5001 then 10 else 0) 1 None None 0
    (Uart 0 0) (Uart 0 0) 0 0 [] (Kmmap [] 0 0 0).
Definition demo_console : io sim :=
  set_console EarlyPutchar DefaultKputs (early_console_set_bus 0x100 UART_BASE demo_io).

Lemma demo_reaches : reaches (dv demo_io) 0x100 0 0.
Proof. by eapply reaches_mem. Qed.

Lemma kprintf_correct_witness :
  wp (kprintf 1 3 0x9000 (format_text [DText (ch "n"); DText (ch "="); DInt Cd false 0 0; DText 10]) [VaWord 42] demo_console)
    (λ '(r, s'), r = 5 ∧ tx (hw s') = [ch "n"; ch "="; ch "4"; ch "2"; 13; 10]).
Proof.
  assert (renders 0x9000 BUFSIZ (kmem demo_console)
    [DText (ch "n"); DText (ch "="); DInt Cd false 0 0; DText 10] [VaWord 42]
    ([ch "n"] ++ [ch "="] ++ int_text 10 0 42 ++ [10] ++ [])) as Hr.
  { eapply rn_cons; [done|constructor|]. eapply rn_cons; [done|constructor|].
    eapply rn_cons; [done|by apply (ex_word _ _ _ Cd false 0 0 42)|]. eapply rn_cons; [done|constructor|]. constructor. }
  eapply wp_mono.
  - eapply (kprintf_correct UART_BASE 2 1 3 0 0 ltac:(lia) ltac:(lia) 0x9000 _ _ _ demo_console).
    + exists EarlyPutchar. split_and!; try done; [split; [apply demo_reaches|done]|]. exists 0. by unfold Sync.B.
    + done.
    + by unfold BUFSIZ.
    + exact Hr.
    + by repeat constructor.
  - intros [r s'] (H1 & H2 & _). split; [exact H1|exact H2].
Defined.

Lemma early_console_correct_witness :
  wp (early_console_init 1 0x100 UART_BASE MAP_NONE demo_io) (λ '(r, s'), r = 0 ∧
    wp (kputs 1 3 3 0x5000 s') (λ '(r, s2), r = 0 ∧ tx (hw s2) = [ch "x"; 13; 10])).
Proof.
  destruct (early_console_correct UART_BASE 2 1 3 0 0 ltac:(lia) ltac:(lia) 0x100 UART_BASE MAP_NONE demo_io) as [H _];
    [apply demo_reaches|done|done|].
  eapply wp_mono; [apply H; by left|]. intros [r s'] (-> & _ & _ & _ & _ & Hk). split; [done|].
  apply (Hk 0x5000 [ch "x"; 10] 3%nat).
  - split_and!; [done|done|done|]. intros [|[|i]] c Hc; by inversion Hc.
  - simpl; lia.
Defined.
