(* ===== verification/Dev.v ===== *)
(** * The device framework

    The device index (kern/dev/index/index.c and its implementation
    kern/dev/index/devlist.c), the driver table and the discovery of devices
    (drivers/common/core.c), and the driver parts of drivers/io/io-mem.c and
    drivers/io/io-port.c.

    A [struct device_entry] is at the address [e], its list node at [e + ENODE];
    a [struct devtree_entry_node] has its node at [e + TNODE].  Character arrays
    are the strings they hold: [strcmp] is 0 for equal strings and [strlcpy] keeps
    the first [DEV_NAME_MAX - 1] characters (proved in Libc of the byte-level
    functions). *)
From Stdlib Require Import Ascii.
From stdpp Require Import sorting.
From S2P Require Import Prelude Util DList MmState Libc Palloc Pmm Simple Vmm Init Snprintf Bus.

Definition ENODE : Z := 4.
Definition SIZEOF_DEVICE_ENTRY : Z := 12.
Definition TNODE : Z := 288.
Definition SIZEOF_ENTRY_NODE : Z := 296.
Definition SIZEOF_BUS_DEVICE : Z := 208.
Definition MAJOR_MAX : Z := 16.
Definition DRIVERS_MAX : Z := 128.

(** [struct devtree_entry] *)
Record devtree_entry := DevtreeEntry {
  t_name : list Z; t_model : list Z; t_parent : list Z; t_nregs : Z; t_regs : list Z; t_irq : Z }.
#[global] Instance devtree_entry_eq_dec : EqDecision devtree_entry.
Proof. solve_decision. Defined.

(** The implementations that are ever registered with [set_device_index]. *)
Inductive index_impl := DummyIndex | DevlistIndex.

(** The static variables: of devlist.c the list ([dhead] is [&__head];
    [before_head] is the word in front of it); of index.c the implementation; of
    core.c the tables of drivers (the part of [drivers] in use) and the list of
    undriven entries; the objects, and the memory manager. *)
Record dev_state := DevState {
  objs : devs; dents : gmap Z Z; links_ : links; dhead : Z; before_head : Z; index_ : index_impl;
  devsw : list Z; drivers : list Z; drvs : gmap Z driver;
  uents : gmap Z devtree_entry; uhead : Z; dworld : world }.

Definition set_objs f (s : dev_state) := DevState (f (objs s)) (dents s) (links_ s) (dhead s) (before_head s) (index_ s) (devsw s) (drivers s) (drvs s) (uents s) (uhead s) (dworld s).
Definition set_dents f (s : dev_state) := DevState (objs s) (f (dents s)) (links_ s) (dhead s) (before_head s) (index_ s) (devsw s) (drivers s) (drvs s) (uents s) (uhead s) (dworld s).
Definition set_links f (s : dev_state) := DevState (objs s) (dents s) (f (links_ s)) (dhead s) (before_head s) (index_ s) (devsw s) (drivers s) (drvs s) (uents s) (uhead s) (dworld s).
Definition set_index i (s : dev_state) := DevState (objs s) (dents s) (links_ s) (dhead s) (before_head s) i (devsw s) (drivers s) (drvs s) (uents s) (uhead s) (dworld s).
Definition set_drivers sw ds (s : dev_state) := DevState (objs s) (dents s) (links_ s) (dhead s) (before_head s) (index_ s) sw ds (drvs s) (uents s) (uhead s) (dworld s).
Definition set_uents f (s : dev_state) := DevState (objs s) (dents s) (links_ s) (dhead s) (before_head s) (index_ s) (devsw s) (drivers s) (drvs s) (f (uents s)) (uhead s) (dworld s).
Definition set_dworld w (s : dev_state) := DevState (objs s) (dents s) (links_ s) (dhead s) (before_head s) (index_ s) (devsw s) (drivers s) (drvs s) (uents s) (uhead s) w.

Definition get_obj (s : dev_state) (p : Z) : res device := get_dev (objs s) p.
Definition set_obj (p : Z) (f : device → device) (s : dev_state) : res dev_state :=
  D ← upd_dev p f (objs s); Ok (set_objs (λ _, D) s).
(** The field [dev] of the entry at [e]; also read through the sentry. *)
Definition entry_dev (s : dev_state) (e : Z) : res Z :=
  if e =? dhead s - ENODE then Ok (before_head s) else of_option BadPtr (dents s !! e).
Definition on_links (f : links → res links) (s : dev_state) : res dev_state :=
  L ← f (links_ s); Ok (set_links (λ _, L) s).

Section dev.
Context {K : Kmem}.

Definition on_dworld {A} (f : world → res (A * world)) (s : dev_state) : res (A * dev_state) :=
  '(a, w) ← f (dworld s); Ok (a, set_dworld w s).
Definition on_dworld_ (f : world → res world) (s : dev_state) : res dev_state :=
  w ← f (dworld s); Ok (set_dworld w s).

(** ** devlist.c *)
Definition cmp (a b : Z) (s : dev_state) : res Z :=
  da ← entry_dev s a; db ← entry_dev s b; dev_a ← get_obj s da; dev_b ← get_obj s db;
  Ok (if d_devno dev_b <? d_devno dev_a then 1 else if d_devno dev_a <? d_devno dev_b then -1 else 0).

Definition devlist_add (dev : Z) (s : dev_state) : res (Z * dev_state) :=
  '(this, s) ← on_dworld (kmalloc SIZEOF_DEVICE_ENTRY 0) s;
  if this =? NULL then Ok (EOF_, s)
  else
    let s := set_links <[this + ENODE := Link 0 0]> (set_dents <[this := dev]> s) in
    n ← for_each (links_ s) (dhead s) (λ n, c ← cmp (n - ENODE) this s; Ok (0 <? c));
    s ← on_links (list_add_before (this + ENODE) n) s;
    Ok (0, s).

(** The loop of [__remove]: [inr] is the jump to [ret]. *)
Definition devlist_remove (dev : Z) (s : dev_state) : res (Z * dev_state) :=
  first ← get_next (links_ s) (dhead s);
  r ← loop (S (size (links_ s))) (λ '(n, this),
    if n =? dhead s then Ok (inr (Some this))
    else
      td ← entry_dev s (n - ENODE); tmp ← get_obj s td;
      if d_bus tmp =? dev then Ok (inr None)
      else
        next ← get_next (links_ s) n;
        Ok (inl (next, if td =? dev then n - ENODE else this))) (first, NULL);
  match r with
  | None => Ok (EOF_, s)
  | Some this =>
    if negb (this =? NULL) then
      s ← on_links (list_del (this + ENODE)) s;
      s ← on_dworld_ (kfree this) (set_links (delete (this + ENODE)) (set_dents (delete this) s));
      Ok (0, s)
    else Ok (EOF_, s)
  end.

(** The new value of [*savep] and the result. *)
Definition devlist_next (dev savep : Z) (s : dev_state) : res (Z * Z) :=
  savep ← (if dev =? NULL then n ← get_next (links_ s) (dhead s); Ok (n - ENODE)
           else
             d ← entry_dev s savep; assert_ (d =? dev);;
             n ← get_next (links_ s) (savep + ENODE); Ok (n - ENODE));
  if savep =? dhead s then Ok (savep, NULL)
  else d ← entry_dev s savep; Ok (savep, d).

Definition devlist_from_id (devno : Z) (s : dev_state) : res Z :=
  n ← for_each (links_ s) (dhead s) (λ n,
    d ← entry_dev s (n - ENODE); dev ← get_obj s d; Ok (d_devno dev =? devno));
  if negb (n =? dhead s) then entry_dev s (n - ENODE) else Ok NULL.

Definition devlist_from_name (name : list Z) (s : dev_state) : res Z :=
  n ← for_each (links_ s) (dhead s) (λ n,
    d ← entry_dev s (n - ENODE); dev ← get_obj s d; Ok (bool_decide (d_name dev = name)));
  if negb (n =? dhead s) then entry_dev s (n - ENODE) else Ok NULL.

(** ** index.c *)
Definition set_device_index (index : index_impl) (s : dev_state) : dev_state := set_index index s.
Definition dummy_add (dev : Z) (s : dev_state) : res (Z * dev_state) := Ok (EOF_, s).
Definition dummy_remove (dev : Z) (s : dev_state) : res (Z * dev_state) := Ok (EOF_, s).
Definition dummy_next (dev savep : Z) (s : dev_state) : res (Z * Z) := Ok (savep, NULL).
Definition dummy_from_id (devno : Z) (s : dev_state) : res Z := Ok NULL.
Definition dummy_from_name (name : list Z) (s : dev_state) : res Z := Ok NULL.

Definition dev_add (dev : Z) (s : dev_state) : res (Z * dev_state) :=
  match index_ s with DummyIndex => dummy_add dev s | DevlistIndex => devlist_add dev s end.
Definition dev_remove (dev : Z) (s : dev_state) : res (Z * dev_state) :=
  match index_ s with DummyIndex => dummy_remove dev s | DevlistIndex => devlist_remove dev s end.
Definition dev_next (dev savep : Z) (s : dev_state) : res (Z * Z) :=
  match index_ s with DummyIndex => dummy_next dev savep s | DevlistIndex => devlist_next dev savep s end.
Definition dev_from_id (devno : Z) (s : dev_state) : res Z :=
  match index_ s with DummyIndex => dummy_from_id devno s | DevlistIndex => devlist_from_id devno s end.
Definition dev_from_name (name : list Z) (s : dev_state) : res Z :=
  match index_ s with DummyIndex => dummy_from_name name s | DevlistIndex => devlist_from_name name s end.

(** [INITCALL_CORE(__init)] of devlist.c *)
Definition devlist_init (s : dev_state) : Z * dev_state := (0, set_device_index DevlistIndex s).

(** [for_each_device (dev, savep)] with a body that may leave the loop. *)
Definition for_each_device {A} (body : Z → dev_state → res (option A * dev_state)) (s : dev_state) : res (option A * dev_state) :=
  '(savep, dev) ← dev_next NULL NULL s;
  loop (S (size (links_ s))) (λ '(savep, dev, s),
    if dev =? NULL then Ok (inr (None, s))
    else
      '(r, s) ← body dev s;
      match r with
      | Some a => Ok (inr (Some a, s))
      | None => '(savep, dev) ← dev_next dev savep s; Ok (inl (savep, dev, s))
      end) (savep, dev, s).

(** ** core.c *)
Definition register_driver (major drv : Z) (s : dev_state) : res dev_state :=
  sw ← (if negb (major =? NOMAJOR) then wr (devsw s) major drv else Ok (devsw s));
  if Z.of_nat (length (drivers s)) <? DRIVERS_MAX then Ok (set_drivers sw (drivers s ++ [drv]) s) else Err BadPtr.

Definition initdev (dev class : Z) (name : list Z) (devno drv : Z) (s : dev_state) : res dev_state :=
  dr ← of_option BadPtr (drvs s !! drv);
  s ← set_obj dev (λ d, Device (take (Z.to_nat (DEV_NAME_MAX - 1)) name) class devno (d_bus d) (d_bases d) (d_nregs d) (d_driver d)) s;
  assert_ (class =? drv_class dr);;
  if (class =? DEVCLASS_CHR) || (class =? DEVCLASS_BLK) || (class =? DEVCLASS_NET) || (class =? DEVCLASS_BUS) || (class =? DEVCLASS_NON)
  then set_obj dev (λ d, Device (d_name d) (d_class d) (d_devno d) (d_bus d) (d_bases d) (d_nregs d) dr) s
  else Err Panicked.

Definition dev_match (dev : device) (entry : devtree_entry) (s : dev_state) : res bool :=
  if d_nregs dev =? t_nregs entry then p ← dev_from_name (t_parent entry) s; Ok (d_bus dev =? p) else Ok false.

(** [memcmp] of the first [a->nregs] addresses. *)
Definition entry_match (a b : devtree_entry) : bool :=
  (t_nregs a =? t_nregs b) && bool_decide (t_parent a = t_parent b) &&
  bool_decide (take (Z.to_nat (t_nregs a)) (t_regs a) = take (Z.to_nat (t_nregs a)) (t_regs b)).

Definition check_dup_device (entry : devtree_entry) (s : dev_state) : res Z :=
  '(r, _) ← for_each_device (λ dev s, d ← get_obj s dev; b ← dev_match d entry s;
                               Ok (if (b : bool) then Some dev else None, s)) s;
  Ok (default NULL r).

Definition discover_device (entry : devtree_entry) (s : dev_state) : res dev_state :=
  dev ← check_dup_device entry s;
  if negb (dev =? NULL) then Ok s
  else
    n ← for_each (links_ s) (uhead s) (λ n,
      e ← of_option BadPtr (uents s !! (n - TNODE)); Ok (entry_match e entry));
    if negb (n =? uhead s) then Ok s
    else
      '(node, s) ← on_dworld (kmalloc SIZEOF_ENTRY_NODE 0) s;
      if node =? NULL then Err BadPtr
      else
        let s := set_links <[node + TNODE := Link 0 0]> (set_uents <[node := entry]> s) in
        on_links (list_add_tail (node + TNODE) (uhead s)) s.

(** *** The driver parts of io-mem.c and io-port.c *)
Definition memory_name : list Z := [ch "m"; ch "e"; ch "m"; ch "o"; ch "r"; ch "y"].
Definition io_port_model : list Z := [ch "i"; ch "o"; ch "-"; ch "p"; ch "o"; ch "r"; ch "t"].

(** [drv] of each file is a static object. *)
Context (io_mem_drv io_port_drv : Z).

(** An object of type [struct bus_device] filled with zeros. *)
Definition zero_device : device := Device [] 0 0 0 (replicate 10 0) 0 (Driver 0 None None None).

Definition io_mem_new (entry : devtree_entry) (s : dev_state) : res (Z * dev_state) := Ok (- EEXIST, s).
Definition io_port_new (entry : devtree_entry) (s : dev_state) : res (Z * dev_state) :=
  if negb (bool_decide (t_model entry = io_port_model)) then Ok (- ENOTSUP, s)
  else
    '(dev, s) ← on_dworld (kmalloc SIZEOF_BUS_DEVICE GFP_ZERO) s;
    if dev =? NULL then Ok (- ENOMEM, s)
    else
      let s := set_objs <[dev := zero_device]> s in
      s ← initdev dev DEVCLASS_BUS (t_name entry) NODEV io_port_drv s;
      p ← dev_from_name (t_parent entry) s;
      s ← set_obj dev (set_bus p) s;
      s ← set_obj dev (set_base (at_ (t_regs entry) 0)) s;
      s ← set_obj dev (λ d, Device (d_name d) (d_class d) (d_devno d) (d_bus d) (d_bases d) (t_nregs entry) (d_driver d)) s;
      '(_, s) ← dev_add dev s;
      Ok (0, s).
Definition call_new (f : new_impl) (entry : devtree_entry) (s : dev_state) : res (Z * dev_state) :=
  match f with NewIoMem => io_mem_new entry s | NewIoPort => io_port_new entry s end.

(** [INITCALL_DRIVER(__driver_init)]: a failed [kmalloc] is not noticed. *)
Definition io_mem_driver_init (s : dev_state) : res (Z * dev_state) :=
  s ← register_driver NOMAJOR io_mem_drv s;
  '(p, s) ← on_dworld (kmalloc SIZEOF_BUS_DEVICE GFP_ZERO) s;
  let memory_bus := postmap_addr p in
  if p =? NULL then Err BadPtr
  else
    let s := set_objs <[memory_bus := zero_device]> s in
    s ← initdev memory_bus DEVCLASS_BUS memory_name NODEV io_mem_drv s;
    '(_, s) ← dev_add memory_bus s;
    Ok (0, s).
Definition io_port_driver_init (s : dev_state) : res (Z * dev_state) :=
  s ← register_driver NOMAJOR io_port_drv s; Ok (0, s).

(** *** Probing

    [for (i = 0; i < ndrivers; ++i)]: ask the drivers in order. *)
Fixpoint ask_drivers (ds : list Z) (entry : devtree_entry) (s : dev_state) : res (bool * dev_state) :=
  match ds with
  | [] => Ok (false, s)
  | p :: ds =>
    d ← of_option BadPtr (drvs s !! p);
    match drv_new d with
    | None => ask_drivers ds entry s
    | Some f => '(r, s) ← call_new f entry s; if r =? 0 then Ok (true, s) else ask_drivers ds entry s
    end
  end.

(** The loop over the device tree. *)
Fixpoint scan_tree (tree : list devtree_entry) (s : dev_state) : res dev_state :=
  match tree with
  | [] => Ok s
  | entry :: tree =>
    p ← dev_from_name (t_name entry) s;
    if negb (p =? NULL) then
      d ← get_obj s p; b ← dev_match d entry s;
      if (b : bool) then scan_tree tree s else Err Panicked
    else
      bus ← dev_from_name (t_parent entry) s;
      if bus =? NULL then scan_tree tree s
      else
        dup ← check_dup_device entry s;
        if negb (dup =? NULL) && negb (bool_decide (t_parent entry = memory_name)) then
          d ← get_obj s dup;
          assert_ (negb (bool_decide (d_name d = t_name entry)));;
          s ← set_obj dup (λ d, Device (take (Z.to_nat (DEV_NAME_MAX - 1)) (t_name entry)) (d_class d) (d_devno d) (d_bus d) (d_bases d) (d_nregs d) (d_driver d)) s;
          scan_tree tree s
        else s ← discover_device entry s; scan_tree tree s
  end.

(** No bus driver has a [probe] method, so that the second loop of
    [__probe_devices] only walks over the devices. *)
Definition probe_pass (devtree : list devtree_entry) (s : dev_state) : res (bool * dev_state) :=
  s ← scan_tree devtree s;
  '(_, s) ← for_each_device (A := unit) (λ dev s, _ ← get_obj s dev; Ok (None, s)) s;
  first ← get_next (links_ s) (uhead s);
  second ← get_next (links_ s) first;
  loop (S (size (links_ s))) (λ '(n, n', found, s),
    if n =? uhead s then Ok (inr (found, s))
    else
      e ← of_option BadPtr (uents s !! (n - TNODE));
      '(ok, s) ← ask_drivers (drivers s) e s;
      '(found, s) ← (if (ok : bool) then
          s ← on_links (list_del n) s;
          s ← on_dworld_ (kfree (n - TNODE)) (set_links (delete n) (set_uents (delete (n - TNODE)) s));
          Ok (true, s)
        else Ok (found, s));
      n'' ← get_next (links_ s) n';
      Ok (inl (n', n'', found, s))) (first, second, false, s).

(** [fuel] bounds the number of passes. *)
Definition probe_devices (fuel : nat) (devtree : list devtree_entry) (s : dev_state) : res dev_state :=
  loop fuel (λ s, '(found, s) ← probe_pass devtree s; Ok (if (found : bool) then inl s else inr s)) s.
End dev.

(** ** The device list

    The entries in order, with the address of the node, of the device and the
    device itself. *)
Abbreviation devices := (list (Z * (Z * device))).

Record listed (s : dev_state) (l : devices) : Prop := Listed {
  li_list : dlist (links_ s) (dhead s) l.*1;
  li_ent n p d : (n, (p, d)) ∈ l → dents s !! (n - ENODE) = Some p ∧ objs s !! p = Some d ∧ n ≠ dhead s + ENODE;
  li_sorted : StronglySorted (λ a b, d_devno a.2.2 ≤ d_devno b.2.2) l }.

(** The first device of the list that satisfies [f], or NULL. *)
Definition first_with (f : device → bool) (l : devices) : Z :=
  match list_find (λ x, f x.2.2 = true) l with Some (_, x) => x.2.1 | None => NULL end.

Lemma first_with_split f l1 l2 : Forall (λ nb : Z * (Z * device), f nb.2.2 = false) l1 →
  (∀ nb l', l2 = nb :: l' → f nb.2.2 = true) →
  first_with f (l1 ++ l2) = match l2 with [] => NULL | nb :: _ => nb.2.1 end.
Proof.
  intros H1 H2. unfold first_with. rewrite list_find_app_r.
  - destruct l2 as [|nb l2]; [done|]. cbn [list_find]. by rewrite decide_True by by eapply H2.
  - apply list_find_None. eapply Forall_impl; [exact H1|]. intros nb Hf. cbn in Hf. congruence.
Qed.

Lemma entry_dev_ok s l n p d : listed s l → (n, (p, d)) ∈ l → entry_dev s (n - ENODE) = Ok p ∧ get_obj s p = Ok d.
Proof.
  intros Hl Hin. destruct (li_ent _ _ Hl _ _ _ Hin) as (H1 & H2 & _). unfold entry_dev, get_obj, get_dev.
  assert (n ≠ dhead s) as Hne.
  { intros ->. destruct (li_list _ _ Hl) as [_ Hnd]. apply NoDup_cons in Hnd as [Hnd _]. apply Hnd.
    apply list_elem_of_fmap. by exists (dhead s, (p, d)). }
  rewrite (proj2 (Z.eqb_neq (n - ENODE) (dhead s - ENODE))) by lia. by rewrite H1, H2.
Qed.

(** Looking a device up by any property that the loop tests. *)
Lemma lookup_ok s l (f : device → bool) : listed s l →
  (n ← for_each (links_ s) (dhead s) (λ n, d ← entry_dev s (n - ENODE); dev ← get_obj s d; Ok (f dev));
   if negb (n =? dhead s) then entry_dev s (n - ENODE) else Ok NULL) = Ok (first_with f l).
Proof.
  intros Hl. destruct (for_each_tagged (links_ s) (dhead s) l
    (λ n, d ← entry_dev s (n - ENODE); dev ← get_obj s d; Ok (f dev)) (λ b, f b.2)) as (l1 & l2 & -> & H1 & H2 & ->).
  - apply Hl.
  - intros n [p d] Hin. destruct (entry_dev_ok _ _ _ _ _ Hl Hin) as [-> E]. cbn [mbind res_bind]. by rewrite E.
  - cbn [mbind res_bind]. rewrite (first_with_split f l1 l2 H1 H2). destruct l2 as [|[n [p d]] l2]; cbn [fmap list_fmap hd fst].
    + by rewrite Z.eqb_refl.
    + assert ((n, (p, d)) ∈ l1 ++ (n, (p, d)) :: l2) as Hin by set_solver.
      destruct (entry_dev_ok _ _ _ _ _ Hl Hin) as [-> _].
      assert (n ≠ dhead s) as Hne.
      { intros ->. destruct (li_list _ _ Hl) as [_ Hnd]. apply NoDup_cons in Hnd as [Hnd _]. apply Hnd.
        apply list_elem_of_fmap. by exists (dhead s, (p, d)). }
      by rewrite (proj2 (Z.eqb_neq n (dhead s))).
Qed.

Lemma from_id_ok s l devno : listed s l → devlist_from_id devno s = Ok (first_with (λ d, d_devno d =? devno) l).
Proof. apply (lookup_ok s l (λ d, d_devno d =? devno)). Qed.
Lemma from_name_ok s l name : listed s l → devlist_from_name name s = Ok (first_with (λ d, bool_decide (d_name d = name)) l).
Proof. apply (lookup_ok s l (λ d, bool_decide (d_name d = name))). Qed.

Lemma sorted_split l1 l2 z : StronglySorted (λ a b : Z * (Z * device), d_devno a.2.2 ≤ d_devno b.2.2) (l1 ++ l2) →
  Forall (λ nb : Z * (Z * device), (z <? d_devno nb.2.2) = false) l1 →
  (∀ nb l', l2 = nb :: l' → (z <? d_devno nb.2.2) = true) →
  Forall (λ nb, d_devno nb.2.2 ≤ z) l1 ∧ Forall (λ nb, z < d_devno nb.2.2) l2.
Proof.
  intros Hs H1 H2. split.
  - eapply Forall_impl; [exact H1|]. intros nb Hb. by apply Z.ltb_ge in Hb.
  - destruct l2 as [|nb l2]; [done|]. specialize (H2 nb l2 eq_refl). apply Z.ltb_lt in H2.
    constructor; [done|]. apply StronglySorted_app in Hs as (_ & _ & Hs). apply StronglySorted_inv in Hs as [_ Hs].
    eapply Forall_impl; [exact Hs|]. intros x Hx. cbn in Hx. lia.
Qed.

Section devlist.
Context {K : Kmem}.

Lemma devlist_add_ok s l dev d a w : listed s l → objs s !! dev = Some d →
  kmalloc SIZEOF_DEVICE_ENTRY 0 (dworld s) = Ok (a, w) →
  a + ENODE ∉ dhead s :: l.*1 → a ≠ dhead s →
  if a =? NULL then devlist_add dev s = Ok (EOF_, set_dworld w s)
  else ∃ s' l1 l2, devlist_add dev s = Ok (0, s') ∧ l = l1 ++ l2 ∧
    Forall (λ nb, d_devno nb.2.2 ≤ d_devno d) l1 ∧ Forall (λ nb, d_devno d < d_devno nb.2.2) l2 ∧
    listed s' (l1 ++ (a + ENODE, (dev, d)) :: l2) ∧
    objs s' = objs s ∧ index_ s' = index_ s ∧ dhead s' = dhead s ∧
    (∀ q, q ∉ dhead s :: (a + ENODE) :: l.*1 → links_ s' !! q = links_ s !! q).
Proof.
  intros Hl Hd Hk Hf Hah. unfold devlist_add, on_dworld. rewrite Hk. cbn [mbind res_bind].
  destruct (Z.eqb_spec a NULL) as [->|Ha]; [done|].
  set (s1 := set_links <[a + ENODE := Link 0 0]> (set_dents <[a := dev]> (set_dworld w s))).
  assert (dlist (links_ s1) (dhead s1) l.*1) as Hdl.
  { eapply dlist_frame; [|apply Hl]. intros q Hq. cbn [links_ s1 set_links set_dents set_dworld].
    apply lookup_insert_ne. intros E. apply Hf. by rewrite E. }
  assert (entry_dev s1 a = Ok dev) as Hea.
  { unfold entry_dev. cbn [dhead dents s1 set_links set_dents set_dworld].
    rewrite (proj2 (Z.eqb_neq a (dhead s - ENODE))) by (intros ->; apply Hf; replace (dhead s - ENODE + ENODE) with (dhead s) by lia; left).
    by rewrite lookup_insert_eq. }
  assert (∀ n p x, (n, (p, x)) ∈ l → dents s1 !! (n - ENODE) = Some p ∧ objs s1 !! p = Some x ∧ n ≠ dhead s1 + ENODE) as Hent.
  { intros n p x Hin. destruct (li_ent _ _ Hl _ _ _ Hin) as (H1 & H2 & H3). split_and!; [|done|done].
    cbn [dents s1 set_links set_dents set_dworld]. rewrite lookup_insert_ne; [done|]. intros E. apply Hf.
    rewrite E. replace (n - ENODE + ENODE) with n by lia. right. apply list_elem_of_fmap. by exists (n, (p, x)). }
  assert (listed s1 l) as Hl1 by (split; [done|exact Hent|apply Hl]).
  destruct (for_each_tagged (links_ s1) (dhead s1) l (λ n, c ← cmp (n - ENODE) a s1; Ok (0 <? c))
    (λ b, d_devno d <? d_devno b.2) Hdl) as (l1 & l2 & -> & H1 & H2 & Hw).
  { intros n [p x] Hin. destruct (entry_dev_ok _ _ _ _ _ Hl1 Hin) as [E1 E2]. unfold cmp. rewrite E1, Hea. cbn [mbind res_bind].
    rewrite E2. unfold get_obj, get_dev. change (objs s1) with (objs s). rewrite Hd. cbn [of_option mbind res_bind].
    cbn [snd]. destruct (d_devno d <? d_devno x); [done|]. by destruct (d_devno x <? d_devno d). }
  rewrite Hw. cbn [mbind res_bind]. unfold on_links, list_add_before, list_add_tail.
  rewrite fmap_app in Hdl, Hf. rewrite (dlist_before _ _ _ _ Hdl). cbn [mbind res_bind].
  destruct (dlist_insert_ok (links_ s1) (dhead s1) l1.*1 l2.*1 (a + ENODE) Hdl) as (L' & -> & _ & HL & Hq).
  { cbn [links_ s1 set_links set_dents set_dworld]. rewrite dom_insert_L. set_solver. }
  { exact Hf. }
  cbn [mbind res_bind]. destruct (sorted_split l1 l2 (d_devno d) (li_sorted _ _ Hl) H1 H2) as [Hs1 Hs2].
  eexists _, l1, l2. split_and!; try done.
  - split.
    + rewrite fmap_app. exact HL.
    + intros n p x. rewrite elem_of_app, elem_of_cons. intros [Hin|[[= -> -> ->]|Hin]].
      * apply Hent. set_solver.
      * replace (a + ENODE - ENODE) with a by lia. cbn [dents objs dhead set_links s1 set_dents set_dworld].
        rewrite lookup_insert_eq. split_and!; [done|done|]. lia.
      * apply Hent. set_solver.
    + pose proof (li_sorted _ _ Hl) as Hs. apply StronglySorted_app in Hs as (H12 & Hss1 & Hss2).
      apply StronglySorted_app_2; [|done|].
      * intros x y Hx Hy. apply elem_of_cons in Hy as [->|Hy]; [|by apply H12].
        rewrite Forall_forall in Hs1. apply (Hs1 x Hx).
      * constructor; [done|]. eapply Forall_impl; [exact Hs2|]. intros x Hx. cbn in *. lia.
  - intros q Hq'. cbn [links_ set_links]. rewrite fmap_app in Hq'. rewrite Hq by exact Hq'.
    cbn [links_ s1 set_links set_dents set_dworld]. apply lookup_insert_ne. set_solver.
Qed.

Lemma listed_next s l1 n p d l2 : listed s (l1 ++ (n, (p, d)) :: l2) →
  get_next (links_ s) n = Ok (hd (dhead s) l2.*1) ∧ n ≠ dhead s.
Proof.
  intros Hl. pose proof (li_list _ _ Hl) as Hd. rewrite fmap_app in Hd. split; [by apply (dlist_split _ _ _ _ _ Hd)|].
  destruct Hd as [_ Hnd]. apply NoDup_cons in Hnd as [Hnd _]. set_solver.
Qed.

Lemma listed_length s l : listed s l → (length l ≤ size (links_ s))%nat.
Proof.
  intros Hl. rewrite <-(length_fmap fst). destruct (li_list _ _ Hl) as [Hc Hnd] eqn:E. clear E.
  apply NoDup_dom_length; [by apply NoDup_cons in Hnd as [_ ?]|]. intros x Hx.
  eapply dlist_dom; [apply Hl|by right].
Qed.

(** What the loop of [__remove] finds: a device on the bus [dev] ([None]), or
    the last entry for [dev]. *)
Fixpoint scan_remove (dev : Z) (l : devices) (this : Z) : option Z :=
  match l with
  | [] => Some this
  | (n, (p, d)) :: l => if d_bus d =? dev then None else scan_remove dev l (if p =? dev then n - ENODE else this)
  end.

Lemma remove_loop s l1 l2 dev this fuel : listed s (l1 ++ l2) → (length l2 < fuel)%nat →
  loop fuel (λ '(n, this),
    if n =? dhead s then Ok (inr (Some this))
    else
      td ← entry_dev s (n - ENODE); tmp ← get_obj s td;
      if d_bus tmp =? dev then Ok (inr None)
      else
        next ← get_next (links_ s) n;
        Ok (inl (next, if td =? dev then n - ENODE else this))) (hd (dhead s) l2.*1, this) = Ok (scan_remove dev l2 this).
Proof.
  revert l1 this fuel. induction l2 as [|[n [p d]] l2 IH]; intros l1 this fuel Hl Hf;
    (destruct fuel as [|fuel]; [lia|]); cbn [loop fmap list_fmap hd fst scan_remove].
  { by rewrite Z.eqb_refl. }
  destruct (listed_next _ _ _ _ _ _ Hl) as [Hn Hne].
  assert ((n, (p, d)) ∈ l1 ++ (n, (p, d)) :: l2) as Hin by set_solver.
  destruct (entry_dev_ok _ _ _ _ _ Hl Hin) as [E1 E2].
  rewrite (proj2 (Z.eqb_neq n (dhead s))), E1 by done. cbn [mbind res_bind]. rewrite E2. cbn [mbind res_bind].
  destruct (d_bus d =? dev); [done|]. rewrite Hn. cbn [mbind res_bind].
  apply (IH (l1 ++ [(n, (p, d))])); [by rewrite <-app_assoc|cbn [length] in Hf; lia].
Qed.

Lemma scan_remove_none dev l this : Forall (λ nb : Z * (Z * device), d_bus nb.2.2 ≠ dev ∧ nb.2.1 ≠ dev) l →
  scan_remove dev l this = Some this.
Proof.
  induction 1 as [|[n [p d]] l [H1 H2] _ IH]; [done|]. cbn in H1, H2 |- *.
  by rewrite (proj2 (Z.eqb_neq (d_bus d) dev)), (proj2 (Z.eqb_neq p dev)).
Qed.

Lemma scan_remove_bus dev l this : Exists (λ nb : Z * (Z * device), d_bus nb.2.2 = dev) l → scan_remove dev l this = None.
Proof.
  intros H. revert this. induction H as [[n [p d]] l H|[n [p d]] l _ IH]; intros this; cbn in *.
  - by rewrite H, Z.eqb_refl.
  - destruct (d_bus d =? dev); [done|]. apply IH.
Qed.

Lemma devlist_remove_ok s l1 n dev d l2 w : listed s (l1 ++ (n, (dev, d)) :: l2) → n ≠ ENODE →
  Forall (λ nb : Z * (Z * device), d_bus nb.2.2 ≠ dev ∧ nb.2.1 ≠ dev) (l1 ++ l2) → d_bus d ≠ dev →
  kfree (n - ENODE) (dworld s) = Ok w →
  ∃ s', devlist_remove dev s = Ok (0, s') ∧ listed s' (l1 ++ l2) ∧ objs s' = objs s ∧ index_ s' = index_ s ∧ dhead s' = dhead s.
Proof.
  intros Hl Hn Hno Hb Hk. unfold devlist_remove. pose proof (li_list _ _ Hl) as Hd.
  rewrite (dlist_next _ _ _ Hd). cbn [mbind res_bind].
  rewrite (remove_loop s [] (l1 ++ (n, (dev, d)) :: l2)); [|done|pose proof (listed_length _ _ Hl); lia].
  assert (scan_remove dev (l1 ++ (n, (dev, d)) :: l2) NULL = Some (n - ENODE)) as ->.
  { apply Forall_app in Hno as [Hno1 Hno2]. clear -Hno1 Hno2 Hb. generalize NULL.
    induction Hno1 as [|[m [p x]] l1 [H1 H2] _ IH]; intros this; cbn in *.
    - rewrite (proj2 (Z.eqb_neq (d_bus d) dev)), Z.eqb_refl by done. by apply scan_remove_none.
    - rewrite (proj2 (Z.eqb_neq (d_bus x) dev)), (proj2 (Z.eqb_neq p dev)) by done. apply IH. }
  cbn [mbind res_bind]. rewrite (proj2 (Z.eqb_neq (n - ENODE) NULL)) by (unfold NULL; lia). cbn [negb].
  replace (n - ENODE + ENODE) with n by lia. unfold on_links. rewrite fmap_app in Hd. cbn [fmap list_fmap fst] in Hd.
  destruct (dlist_remove_ok _ _ _ _ _ Hd) as (L' & -> & _ & HL & Hq). cbn [mbind res_bind].
  unfold on_dworld_. change (dworld (set_links (delete n) _)) with (dworld s). rewrite Hk. cbn [mbind res_bind].
  eexists. split; [done|]. split_and!; try done.
  pose proof (proj2 (proj1 (iff_refl (dlist (links_ s) (dhead s) _)) Hd)) as Hnd.
  assert (n ∉ dhead s :: (l1 ++ l2).*1) as Hfresh.
  { rewrite fmap_app. rewrite app_comm_cons, <-Permutation_middle in Hnd. apply NoDup_cons in Hnd as [Hnd _]. exact Hnd. }
  split.
  - cbn [links_ dhead set_dworld set_links set_dents]. eapply dlist_frame; [|rewrite fmap_app; exact HL].
    intros q Hq'. apply lookup_delete_ne. intros ->. by apply Hfresh.
  - intros m p x Hin. destruct (li_ent _ _ Hl m p x) as (H1 & H2 & H3); [set_solver|].
    cbn [dents objs dhead set_dworld set_links set_dents]. split_and!; [|done|done].
    rewrite lookup_delete_ne; [done|]. intros E. apply Hfresh. right. apply list_elem_of_fmap. exists (m, (p, x)).
    split; [cbn; lia|done].
  - pose proof (li_sorted _ _ Hl) as Hs. apply StronglySorted_app in Hs as (H12 & Hs1 & Hs2).
    apply StronglySorted_inv in Hs2 as [Hs2 _]. apply StronglySorted_app_2; [|done|done].
    intros x y Hx Hy. apply H12; [done|by right].
Qed.

Lemma devlist_remove_busy s l dev : listed s l → Exists (λ nb : Z * (Z * device), d_bus nb.2.2 = dev) l →
  devlist_remove dev s = Ok (EOF_, s).
Proof.
  intros Hl Hb. unfold devlist_remove. rewrite (dlist_next _ _ _ (li_list _ _ Hl)). cbn [mbind res_bind].
  rewrite (remove_loop s [] l); [|done|pose proof (listed_length _ _ Hl); lia].
  by rewrite scan_remove_bus.
Qed.

(** *** Iteration *)
Definition dev_of (s : dev_state) (l : devices) : Z := match l with [] => before_head s | (_, (p, _)) :: _ => p end.

Lemma entry_of_hd s l1 l2 : listed s (l1 ++ l2) →
  (if hd (dhead s) l2.*1 - ENODE =? dhead s then Ok (hd (dhead s) l2.*1 - ENODE, NULL)
   else d ← entry_dev s (hd (dhead s) l2.*1 - ENODE); Ok (hd (dhead s) l2.*1 - ENODE, d)) =
  Ok (hd (dhead s) l2.*1 - ENODE, dev_of s l2).
Proof.
  intros Hl. destruct l2 as [|[n [p d]] l2]; cbn [fmap list_fmap hd fst dev_of].
  - rewrite (proj2 (Z.eqb_neq (dhead s - ENODE) (dhead s))) by (unfold ENODE; lia).
    unfold entry_dev. by rewrite Z.eqb_refl.
  - assert ((n, (p, d)) ∈ l1 ++ (n, (p, d)) :: l2) as Hin by set_solver.
    destruct (li_ent _ _ Hl _ _ _ Hin) as (_ & _ & Hne).
    rewrite (proj2 (Z.eqb_neq (n - ENODE) (dhead s))) by lia. by destruct (entry_dev_ok _ _ _ _ _ Hl Hin) as [-> _].
Qed.

Lemma devlist_next_first s l savep : listed s l →
  devlist_next NULL savep s = Ok (hd (dhead s) l.*1 - ENODE, dev_of s l).
Proof.
  intros Hl. unfold devlist_next. rewrite Z.eqb_refl, (dlist_next _ _ _ (li_list _ _ Hl)). cbn [mbind res_bind].
  by apply (entry_of_hd s []).
Qed.

Lemma devlist_next_step s l1 n p d l2 : listed s (l1 ++ (n, (p, d)) :: l2) → p ≠ NULL →
  devlist_next p (n - ENODE) s = Ok (hd (dhead s) l2.*1 - ENODE, dev_of s l2).
Proof.
  intros Hl Hp. unfold devlist_next. rewrite (proj2 (Z.eqb_neq p NULL)) by done.
  assert ((n, (p, d)) ∈ l1 ++ (n, (p, d)) :: l2) as Hin by set_solver.
  destruct (entry_dev_ok _ _ _ _ _ Hl Hin) as [-> _]. cbn [mbind res_bind]. rewrite Z.eqb_refl. cbn [assert_ mbind res_bind].
  replace (n - ENODE + ENODE) with n by lia. destruct (listed_next _ _ _ _ _ _ Hl) as [-> _]. cbn [mbind res_bind].
  apply (entry_of_hd s (l1 ++ [(n, (p, d))])). by rewrite <-app_assoc.
Qed.

Fixpoint first_some {A B} (G : B → option A) (l : list B) : option A :=
  match l with [] => None | x :: l => match G x with Some a => Some a | None => first_some G l end end.

(** [for_each_device] visits every device once, in order, when the word in front
    of the list's sentry is zero. *)
Lemma for_each_device_ok {A} s l (body : Z → dev_state → res (option A * dev_state)) (G : Z * (Z * device) → option A) :
  index_ s = DevlistIndex → before_head s = NULL → listed s l →
  (∀ n p d, (n, (p, d)) ∈ l → p ≠ NULL ∧ body p s = Ok (G (n, (p, d)), s)) →
  for_each_device body s = Ok (first_some G l, s).
Proof.
  intros Hi H0 Hl HG. unfold for_each_device, dev_next. rewrite Hi, (devlist_next_first s l) by done. cbn [mbind res_bind].
  assert (∀ l1 l2 fuel, l = l1 ++ l2 → (length l2 < fuel)%nat →
    loop fuel (λ '(savep, dev, s),
      if dev =? NULL then Ok (inr (None, s))
      else
        '(r, s) ← body dev s;
        match r with
        | Some a => Ok (inr (Some a, s))
        | None => '(savep, dev) ← (match index_ s with DummyIndex => dummy_next dev savep s | DevlistIndex => devlist_next dev savep s end);
                  Ok (inl (savep, dev, s))
        end) (hd (dhead s) l2.*1 - ENODE, dev_of s l2, s) = Ok (first_some G l2, s)) as Hloop.
  { intros l1 l2. revert l1. induction l2 as [|[n [p d]] l2 IH]; intros l1 fuel -> Hf;
      (destruct fuel as [|fuel]; [lia|]); cbn [loop dev_of first_some].
    - by rewrite H0.
    - destruct (HG n p d) as [Hp Hb]; [set_solver|]. rewrite (proj2 (Z.eqb_neq p NULL)) by done. rewrite Hb.
      cbn [mbind res_bind]. destruct (G (n, (p, d))); [done|]. rewrite Hi. cbn [fmap list_fmap hd fst].
      rewrite (devlist_next_step s l1 n p d l2) by done. cbn [mbind res_bind].
      apply (IH (l1 ++ [(n, (p, d))])); [by rewrite <-app_assoc|cbn [length] in Hf; lia]. }
  apply (Hloop []); [done|]. pose proof (listed_length _ _ Hl). lia.
Qed.

(** With any other word there, the walk runs past the end of the list: the check
    for the end compares the address of an entry with that of the sentry node. *)
Theorem dev_next_past_end s l n p d savep : index_ s = DevlistIndex →
  listed s (l ++ [(n, (p, d))]) → p ≠ NULL →
  dev_next p (n - ENODE) s = Ok (dhead s - ENODE, before_head s) ∧
  (listed s [] → dev_next NULL savep s = Ok (dhead s - ENODE, before_head s)).
Proof.
  intros Hi Hl Hp. unfold dev_next. rewrite Hi. split; [by apply (devlist_next_step s l n p d [])|].
  intros Hl0. by apply (devlist_next_first s []).
Qed.

(** *** Discovery *)
Definition same_place (s : dev_state) (l : devices) (entry : devtree_entry) (d : device) : bool :=
  (d_nregs d =? t_nregs entry) && (d_bus d =? first_with (λ b, bool_decide (d_name b = t_parent entry)) l).

Lemma check_dup_ok s l entry : index_ s = DevlistIndex → before_head s = NULL → listed s l →
  (∀ n p d, (n, (p, d)) ∈ l → p ≠ NULL) →
  check_dup_device entry s = Ok (first_with (same_place s l entry) l).
Proof.
  intros Hi H0 Hl Hp. unfold check_dup_device.
  rewrite (for_each_device_ok s l _ (λ x, if same_place s l entry x.2.2 then Some x.2.1 else None)); [|done|done|done|].
  - cbn [mbind res_bind]. f_equal. unfold first_with. clear. generalize (same_place s l entry). intros f.
    induction l as [|[n [p d]] l IH]; [done|]. cbn [first_some list_find snd fst]. destruct (f d) eqn:E.
    + by rewrite decide_True.
    + rewrite decide_False by congruence. rewrite IH. by destruct (list_find _ l) as [[? ?]|].
  - intros n p d Hin. split; [by eapply Hp|]. destruct (entry_dev_ok _ _ _ _ _ Hl Hin) as [_ ->]. cbn [mbind res_bind].
    unfold dev_match, same_place. cbn [snd fst]. destruct (d_nregs d =? t_nregs entry); [|done].
    unfold dev_from_name. rewrite Hi, (from_name_ok s l) by done. cbn [mbind res_bind andb].
    by destruct (d_bus d =? _).
Qed.

(** The undriven entries, with the address of the node. *)
Definition undriven (s : dev_state) (u : list (Z * devtree_entry)) : Prop :=
  dlist (links_ s) (uhead s) u.*1 ∧ ∀ n e, (n, e) ∈ u → uents s !! (n - TNODE) = Some e.

Lemma discover_ok s l u entry a w : index_ s = DevlistIndex → before_head s = NULL → listed s l →
  (∀ n p d, (n, (p, d)) ∈ l → p ≠ NULL) → undriven s u → dhead s :: l.*1 ## uhead s :: u.*1 →
  kmalloc SIZEOF_ENTRY_NODE 0 (dworld s) = Ok (a, w) → a ≠ NULL →
  a + TNODE ∉ (dhead s :: l.*1) ++ (uhead s :: u.*1) →
  if existsb (λ x, same_place s l entry x.2.2) l || existsb (λ x, entry_match x.2 entry) u
  then discover_device entry s = Ok s
  else ∃ s', discover_device entry s = Ok s' ∧ undriven s' (u ++ [(a + TNODE, entry)]) ∧ listed s' l ∧ objs s' = objs s.
Proof.
  intros Hi H0 Hl Hp [Hu He] Hdis Hk Ha Hf. unfold discover_device. rewrite (check_dup_ok s l) by done. cbn [mbind res_bind].
  destruct (existsb (λ x, same_place s l entry x.2.2) l) eqn:Edup; cbn [orb].
  { apply existsb_exists in Edup as ([n [p d]] & Hin%list_elem_of_In & Hs). unfold first_with.
    destruct (list_find (λ x, same_place s l entry x.2.2 = true) l) as [[i [n' [p' d']]]|] eqn:E.
    - apply list_find_Some in E as (Hl' & _ & _). cbn [snd fst].
      rewrite (proj2 (Z.eqb_neq p' NULL)); [done|]. by eapply Hp, list_elem_of_lookup_2.
    - apply list_find_None in E. rewrite Forall_forall in E. by apply E in Hin. }
  assert (first_with (same_place s l entry) l = NULL) as ->.
  { unfold first_with. rewrite (proj2 (list_find_None _ _)); [done|]. apply Forall_forall. intros x Hx Hs.
    apply (Bool.not_true_iff_false (existsb (λ x, same_place s l entry x.2.2) l)) in Edup. apply Edup.
    apply existsb_exists. exists x. by rewrite <-list_elem_of_In. }
  change (negb (NULL =? NULL)) with false. cbv iota.
  destruct (for_each_tagged (links_ s) (uhead s) u (λ n, e ← of_option BadPtr (uents s !! (n - TNODE)); Ok (entry_match e entry))
    (λ e, entry_match e entry) Hu) as (u1 & u2 & -> & H1 & H2 & ->).
  { intros n e Hin. by rewrite (He n e Hin). }
  cbn [mbind res_bind]. destruct u2 as [|[n e] u2].
  - rewrite app_nil_r in *. cbn [fmap list_fmap hd]. rewrite Z.eqb_refl. cbn [negb].
    assert (existsb (λ x, entry_match x.2 entry) u1 = false) as ->.
    { apply Bool.not_true_iff_false. intros (x & Hx%list_elem_of_In & Hm)%existsb_exists.
      rewrite Forall_forall in H1. specialize (H1 x Hx). cbn in H1, Hm. congruence. }
    unfold on_dworld. rewrite Hk. cbn [mbind res_bind]. rewrite (proj2 (Z.eqb_neq a NULL)) by done.
    set (s1 := set_links <[a + TNODE := Link 0 0]> (set_uents <[a := entry]> (set_dworld w s))).
    assert (∀ q, q ≠ a + TNODE → links_ s1 !! q = links_ s !! q) as Hq1 by (intros q Hq; by apply lookup_insert_ne).
    assert (dlist (links_ s1) (uhead s1) u1.*1) as Hu1.
    { eapply dlist_frame; [|exact Hu]. intros q Hq. apply Hq1. intros ->. set_solver. }
    unfold on_links, list_add_tail. pose proof (dlist_before (links_ s1) (uhead s1) u1.*1 []) as Hb. rewrite app_nil_r in Hb.
    cbn [hd] in Hb. change (uhead (set_links _ _)) with (uhead s1). rewrite (Hb Hu1). cbn [mbind res_bind].
    destruct (dlist_insert_ok (links_ s1) (uhead s1) u1.*1 [] (a + TNODE)) as (L' & E & _ & HL & Hq).
    { by rewrite app_nil_r. }
    { cbn [links_ s1 set_links]. rewrite dom_insert_L. set_solver. }
    { rewrite app_nil_r. set_solver. }
    cbn [hd] in E. rewrite E. cbn [mbind res_bind]. rewrite app_nil_r in Hq.
    eexists. split; [done|]. split_and!; [| |done].
    + split.
      * rewrite fmap_app. exact HL.
      * intros n e Hin. cbn [uents set_links s1 set_uents set_dworld]. apply elem_of_app in Hin as [Hin|Hin].
        -- rewrite lookup_insert_ne; [by apply He|]. intros ->. apply Hf. apply elem_of_app. right. right.
           apply list_elem_of_fmap. exists (n, e). split; [cbn; lia|done].
        -- apply list_elem_of_singleton in Hin as [= -> ->]. replace (a + TNODE - TNODE) with a by lia. by rewrite lookup_insert_eq.
    + split; [|apply Hl|apply Hl]. cbn [links_ dhead set_links s1 set_uents set_dworld].
      eapply dlist_frame; [|apply Hl]. intros q Hq'. rewrite Hq.
      * apply Hq1. intros ->. set_solver.
      * change (uhead s1) with (uhead s). intros Hin. apply elem_of_cons in Hin as [->|Hin]; [set_solver|].
        apply elem_of_cons in Hin as [->|Hin]; [set_solver|]. set_solver.
  - cbn [fmap list_fmap hd fst]. assert (n ≠ uhead s) as Hne.
    { destruct Hu as [_ Hnd]. rewrite fmap_app in Hnd. apply NoDup_cons in Hnd as [Hnd _]. set_solver. }
    rewrite (proj2 (Z.eqb_neq n (uhead s))) by done. cbn [negb].
    assert (existsb (λ x, entry_match x.2 entry) (u1 ++ (n, e) :: u2) = true) as ->; [|done].
    apply existsb_exists. exists (n, e). rewrite <-list_elem_of_In. split; [set_solver|]. by apply (H2 (n, e) u2).
Qed.
End devlist.

(** C29. The device index: adding a device ([dev_add] with the device list
    installed) fails with EOF when there is no memory for the entry and changes
    nothing; otherwise the device is placed after all devices with the same or a
    smaller number and before the others, the list stays sorted and well-formed,
    and the lookups by number and by name deliver the first device of it that
    fits, or NULL.  Removing the device is refused as long as it is the bus of a
    device in the list, and otherwise restores the list. *)
Theorem device_index_correct {K : Kmem} s l dev d a w :
  index_ s = DevlistIndex → listed s l → objs s !! dev = Some d →
  kmalloc SIZEOF_DEVICE_ENTRY 0 (dworld s) = Ok (a, w) → a + ENODE ∉ dhead s :: l.*1 → a ≠ dhead s →
  if a =? NULL then dev_add dev s = Ok (EOF_, set_dworld w s)
  else ∃ s' l1 l2, dev_add dev s = Ok (0, s') ∧ l = l1 ++ l2 ∧
    Forall (λ nb, d_devno nb.2.2 ≤ d_devno d) l1 ∧ Forall (λ nb, d_devno d < d_devno nb.2.2) l2 ∧
    let l' := l1 ++ (a + ENODE, (dev, d)) :: l2 in
    listed s' l' ∧
    (∀ devno, dev_from_id devno s' = Ok (first_with (λ x, d_devno x =? devno) l')) ∧
    (∀ name, dev_from_name name s' = Ok (first_with (λ x, bool_decide (d_name x = name)) l')) ∧
    (Exists (λ nb, d_bus nb.2.2 = dev) l' → dev_remove dev s' = Ok (EOF_, s')) ∧
    (Forall (λ nb, d_bus nb.2.2 ≠ dev ∧ nb.2.1 ≠ dev) l → d_bus d ≠ dev →
     ∀ w', kfree a (dworld s') = Ok w' → ∃ s2, dev_remove dev s' = Ok (0, s2) ∧ listed s2 l ∧ objs s2 = objs s).
Proof.
  intros Hi Hl Hd Hk Hf Hh. pose proof (devlist_add_ok s l dev d a w Hl Hd Hk Hf Hh) as H. unfold dev_add. rewrite Hi.
  destruct (Z.eqb_spec a NULL) as [|Ha]; [done|].
  destruct H as (s' & l1 & l2 & E & -> & H1 & H2 & Hl' & Ho & Hi' & Hh' & _). exists s', l1, l2.
  unfold dev_from_id, dev_from_name, dev_remove. rewrite Hi', Hi. split_and!; try done.
  - intros devno. by apply from_id_ok.
  - intros name. by apply from_name_ok.
  - by apply devlist_remove_busy.
  - intros Hno Hb w' Hw'. destruct (devlist_remove_ok s' l1 (a + ENODE) dev d l2 w' Hl') as (s2 & E2 & Hl2 & Ho2 & _).
    + unfold ENODE, NULL in *. lia.
    + done.
    + done.
    + by replace (a + ENODE - ENODE) with a by lia.
    + exists s2. split_and!; [done|done|congruence].
Qed.

(** Discovery of devices ([discover_device]), with the word in front of the
    device list's sentry zero: an entry for which there is already a device, or
    which is already waiting for a driver, is ignored; any other one is appended
    to the entries waiting for a driver.  "Already a device" only compares the
    parent bus and the number of register spaces. *)
Theorem discover_correct {K : Kmem} s l u entry a w :
  index_ s = DevlistIndex → before_head s = NULL → listed s l →
  (∀ n p d, (n, (p, d)) ∈ l → p ≠ NULL) → undriven s u → dhead s :: l.*1 ## uhead s :: u.*1 →
  kmalloc SIZEOF_ENTRY_NODE 0 (dworld s) = Ok (a, w) → a ≠ NULL →
  a + TNODE ∉ (dhead s :: l.*1) ++ (uhead s :: u.*1) →
  if existsb (λ x, same_place s l entry x.2.2) l || existsb (λ x, entry_match x.2 entry) u
  then discover_device entry s = Ok s
  else ∃ s', discover_device entry s = Ok s' ∧ undriven s' (u ++ [(a + TNODE, entry)]) ∧ listed s' l ∧ objs s' = objs s.
Proof. apply discover_ok. Qed.

(** ** An example: the memory bus, and an I/O port bus below it. *)
Definition demo_dev (devno bus : Z) (name : list Z) : device :=
  Device name DEVCLASS_BUS devno bus [0] 1 (Driver DEVCLASS_BUS None (Some IoMem) (Some IoMem)).
Definition demo_devs : dev_state :=
  DevState (<[0x100 := demo_dev 7 NULL memory_name]> (<[0x200 := demo_dev 3 NULL []]> ∅))
    (<[0x5000 := 0x100]> ∅)
    (<[0x4000 := Link 0x5004 0x5004]> (<[0x5004 := Link 0x4000 0x4000]> (<[0x6000 := Link 0x6000 0x6000]> ∅)))
    0x4000 NULL DevlistIndex (replicate 16 0) [] ∅ ∅ 0x6000 boot_w.
Definition demo_list : devices := [(0x5004, (0x100, demo_dev 7 NULL memory_name))].

Lemma demo_listed : listed demo_devs demo_list.
Proof.
  split.
  - split; [done|]. repeat constructor; set_solver.
  - intros n p d Hin. apply list_elem_of_singleton in Hin as [= -> -> ->]. done.
  - repeat constructor.
Qed.

Lemma demo_undriven : undriven demo_devs [].
Proof. split; [split; [done|apply NoDup_singleton]|]. intros n e Hin. by apply elem_of_nil in Hin. Qed.

Lemma device_index_correct_witness : ∃ s' l1 l2, dev_add (K := kmem demo_junk 1) 0x200 demo_devs = Ok (0, s') ∧ demo_list = l1 ++ l2 ∧
  listed s' (l1 ++ (0x80200038 + ENODE, (0x200, demo_dev 3 NULL [])) :: l2).
Proof.
  destruct (kmalloc (K := kmem demo_junk 1) SIZEOF_DEVICE_ENTRY 0 (dworld demo_devs)) as [[a w]|] eqn:E; [|discriminate E].
  assert (a = 0x80200038) as ->. { pose proof (f_equal (λ r, match r with Ok (a, _) => a | _ => 0 end) E) as E2. symmetry. exact E2. }
  pose proof (device_index_correct (K := kmem demo_junk 1) demo_devs demo_list 0x200 (demo_dev 3 NULL []) 0x80200038 w eq_refl demo_listed eq_refl E) as H.
  destruct H as (s' & l1 & l2 & H1 & H2 & _ & _ & H3 & _); [cbn; set_solver|done|]. exists s', l1, l2. done.
Defined.

Lemma discover_correct_witness : ∃ s', discover_device (K := kmem demo_junk 1) (DevtreeEntry [] io_port_model memory_name 2 [0] 0) demo_devs = Ok s' ∧
  undriven s' [(0x80200038 + TNODE, DevtreeEntry [] io_port_model memory_name 2 [0] 0)].
Proof.
  destruct (kmalloc (K := kmem demo_junk 1) SIZEOF_ENTRY_NODE 0 (dworld demo_devs)) as [[a w]|] eqn:E; [|discriminate E].
  assert (a = 0x80200038) as ->. { pose proof (f_equal (λ r, match r with Ok (a, _) => a | _ => 0 end) E) as E2. symmetry. exact E2. }
  pose proof (discover_correct (K := kmem demo_junk 1) demo_devs demo_list [] (DevtreeEntry [] io_port_model memory_name 2 [0] 0)
    0x80200038 w eq_refl eq_refl demo_listed) as H.
  destruct H as (s' & H1 & H2 & _).
  - intros n p d Hin. apply list_elem_of_singleton in Hin as [= -> -> ->]. done.
  - apply demo_undriven.
  - intros x Hx Hy. apply list_elem_of_singleton in Hy as ->. repeat (apply elem_of_cons in Hx as [Hx|Hx]; [done|]). by apply elem_of_nil in Hx.
  - exact E.
  - done.
  - intros Hin. repeat (apply elem_of_cons in Hin as [Hin|Hin]; [done|]). by apply elem_of_nil in Hin.
  - by exists s'.
Defined.
