(* ===== verification/Boot.v ===== *)
(** * Bring-up of devices and processors

    The parts of the start-up code that tie the components together: the early
    devices (kern/init/early_init.c), the permanent console
    (drivers/serial/uart-ns16550.c, [__init]) on the memory bus that the device
    framework knows, and the stacks of the other processors
    (kern/arch/mips/arch_smp.c). *)
From Stdlib Require Import Ascii.
From S2P Require Import Prelude Util DList MmState Libc Palloc Pmm Simple Vmm Init EarlyKmmap Sync Snprintf Bus Console Dev.

(** ** early_init.c: MIPS has no root port bus. *)
Definition early_devices_init (early_memory_bus : Z) (D : devs) (q : list jump_handler) : res (Z * devs * list jump_handler) :=
  '(r, D, q) ← io_mem_init early_memory_bus D q;
  Ok (if r <? 0 then EOF_ else 0, D, q).

(** ** The initcall of the NS16550 driver *)
Section console.
Context {S : Type} {Hhw : Hw S} (depth polls : nat).

Definition set_dv (D : devs) (s : io S) : io S :=
  Io (hw s) D (kmem s) (status s) (putchar_ s) (puts_ s) (con_lock s) (early_uart s) (norm_uart s) (mapped_bus s) (mapped_base s) (jumpq s) (kmap s).

(** "mem io addr: 0x%x\n" *)
Definition mem_io_message : list directive :=
  (DText <$> [ch "m"; ch "e"; ch "m"; ch " "; ch "i"; ch "o"; ch " "; ch "a"; ch "d"; ch "d"; ch "r"; ch ":"; ch " "; ch "0"; ch "x"])
  ++ [DInt Cx false 0 0; DText 10].

(** The console and the framework share the device objects; [buf] is the local
    array of [kprintf]. *)
Definition uart_initcall (buf : Z) (ds : dev_state) (s : io S) : res (Z * io S) :=
  mem_io ← dev_from_name memory_name ds;
  let s := set_dv (objs ds) s in
  '(_, s) ← kprintf depth polls buf (format_text mem_io_message) [VaWord mem_io] s;
  let s := norm_console_set_bus mem_io UART_BASE s in
  s ← uart_ns16550_init depth (norm_uart s) s;
  s ← uart_ns16550_enable depth (norm_uart s) s;
  Ok (0, set_console NormPutchar DefaultKputs s).
End console.

(** ** arch_smp.c *)
Section smp.
Context {K : Kmem} (NR_CPUS KSTACKSIZE : Z).

Definition nr_cpus : Z := NR_CPUS.

(** [p] is the local [struct pages] of [alloc_stacks]. *)
Definition alloc_stacks (paddr0 : Z) (slave_stacks : list Z) (w : world) : res (list Z * world) :=
  loop (S (Z.to_nat nr_cpus)) (λ '(i, p, slave_stacks, w),
    if i <? nr_cpus then
      '(r, p, w) ← alloc_pages (Some p) w;
      p ← of_option BadPtr p;
      if r <? 0 then Err Panicked
      else
        slave_stacks ← wr slave_stacks i (paddr p);
        Ok (inl (i + 1, p, slave_stacks, w))
    else Ok (inr (slave_stacks, w))) (1, Pages paddr0 KSTACKSIZE 0, slave_stacks, w).
Definition smp_startup (paddr0 : Z) (slave_stacks : list Z) (w : world) : res (list Z * world) :=
  alloc_stacks paddr0 slave_stacks w.
End smp.

(** ** The permanent console *)
Lemma hex_nonzero v : fits 32 v → Forall (λ c, c ≠ 0) (int_text 16 0 v).
Proof.
  intros Hv. unfold int_text, field. rewrite (proj2 (Z.ltb_ge v 0)) by (unfold fits in Hv; lia). cbn [app Z.eqb].
  destruct (udigits_ok 22 16 (Z.abs v)) as (_ & _ & _ & _ & H); [lia| |lia|].
  { apply base_pow; unfold bases, fits in *; lia. }
  eapply Forall_impl; [exact H|]. intros c (x & Hx & ->). unfold digit. change (ch "0") with 48. change (ch "a") with 97.
  destruct (x <=? 9); lia.
Qed.

Lemma renders_text str size m cs args ds o : Forall (λ c, 0 < c < 256 ∧ c ≠ ch "%") cs →
  renders str size m ds args o → renders str size m ((DText <$> cs) ++ ds) args (cs ++ o).
Proof.
  induction 1 as [|c cs Hc _ IH]; intros Hr; [done|].
  apply (rn_cons str size m (DText c) _ args args [c] (cs ++ o)); [done|apply ex_text|by apply IH].
Qed.

Definition mem_io_text (p : Z) : list Z :=
  [ch "m"; ch "e"; ch "m"; ch " "; ch "i"; ch "o"; ch " "; ch "a"; ch "d"; ch "d"; ch "r"; ch ":"; ch " "; ch "0"; ch "x"]
  ++ int_text 16 0 p ++ [10].

Lemma mem_io_renders str size m p : fits 32 p → renders str size m mem_io_message [VaWord p] (mem_io_text p).
Proof.
  intros Hp. apply renders_text; [by repeat constructor|]. rewrite <-(wrap_small 32 p) at 2 by done.
  eapply rn_cons; [done|by apply (ex_word _ _ _ Cx false 0 0)|]. rewrite <-(app_nil_r [10]).
  eapply rn_cons; [done|constructor|constructor].
Qed.

Section handover.
Context {S : Type} {Hhw : Hw S} (limit : nat) {Hu : Ns16550 S UART_BASE limit}.
Context (depth polls : nat) (Hdepth : (0 < depth)%nat) (Hpolls : (limit < polls)%nat).

(** The permanent console ([__init] of the NS16550 driver): with the early
    console working and the memory bus in the device list, the initcall finds
    the bus by its name, reports its address on the early console, programs the
    device again and switches the console over to the bus of the device
    framework; nothing else is sent and the console works afterwards. *)
Theorem console_handover_correct buf ds l p d (s : io S) :
  index_ ds = DevlistIndex → listed ds l → first_with (λ x, bool_decide (d_name x = memory_name)) l = p →
  objs ds !! p = Some d → get_read_fp (d_driver d) = Some IoMem → get_write_fp (d_driver d) = Some IoMem → fits 32 p →
  console_ok UART_BASE limit 0 0 (set_dv (objs ds) s) → 0 ≤ buf → buf + BUFSIZ ≤ 2 ^ 32 →
  wp (uart_initcall depth polls buf ds s) (λ '(r, s'), r = 0 ∧ putchar_ s' = Some NormPutchar ∧
    norm_uart s' = Uart p UART_BASE ∧ tx (hw s') = tx (hw s) ++ crlf (take 1023 (mem_io_text p)) ∧
    console_ok UART_BASE limit 0 0 s').
Proof.
  intros Hi Hl Hp Hd H1 H2 Hfit Hok Hb He. unfold uart_initcall, dev_from_name. rewrite Hi, (from_name_ok ds l), Hp by done.
  cbn [mbind res_bind]. apply wp_bind. eapply wp_mono.
  { apply (kprintf_ok UART_BASE limit depth polls 0 0 Hdepth Hpolls buf mem_io_message [VaWord p] (mem_io_text p)); try done.
    - by apply mem_io_renders.
    - apply Forall_app. split; [by repeat constructor|]. apply Forall_app. split; [by apply hex_nonzero|by repeat constructor]. }
  intros [r s1] (_ & Ht & (f & _ & _ & _ & _ & Hfree) & Hsame & _). cbv zeta.
  set (s2 := norm_console_set_bus p UART_BASE s1). change (norm_uart s2) with (Uart p UART_BASE).
  assert (attached UART_BASE 0 0 (Uart p UART_BASE) s2) as Ha.
  { split; [|done]. change (dv s2) with (dv s1). rewrite (ss_dv _ _ Hsame). by eapply reaches_mem. }
  pose proof (uart_setup_ok UART_BASE limit depth polls 0 0 Hdepth Hpolls (Uart p UART_BASE) s2 Ha) as Hset.
  apply wp_inv in Hset as (s3 & E & h & -> & Htx & Hdl).
  destruct (uart_ns16550_init depth (Uart p UART_BASE) s2) as [s4|] eqn:E4; [|done]. cbn [mbind res_bind] in *.
  assert (norm_uart s4 = Uart p UART_BASE) as ->.
  { assert (∃ h4, s4 = set_hw h4 s2) as (h4 & ->); [|done].
    destruct (uart_fps UART_BASE limit depth polls 0 0 Hdepth Hpolls (Uart p UART_BASE) s2 Ha) as (fr & fw & _ & Ew & _ & Hw). revert E4.
    unfold uart_ns16550_init. rewrite Ew. cbn [mbind res_bind]. rewrite <-(set_hw_id s2) at 1.
    do 5 (rewrite Hw; cbn [mbind res_bind]). intros [= <-]. eauto. }
  rewrite E. cbn [mbind res_bind wp]. split_and!; [done|done|done| |].
  - cbn [hw set_console set_hw]. rewrite Htx. exact Ht.
  - exists NormPutchar. split_and!; try done. exists 0. by unfold Sync.B.
Qed.
End handover.

(** ** Stacks *)
Section stacks.
Context {K : Kmem} {J : world → Prop} `{!KmemLaws K J}.
Context (NR_CPUS KSTACKSIZE : Z) (Hsz : 0 < KSTACKSIZE) (Hpg : KSTACKSIZE mod PAGE_SIZE = 0).

Definition in_stack (p x : Z) : Prop := p ≤ x < p + KSTACKSIZE.

(** The stacks of the processors [1 .. i - 1] are in place: taken from the
    memory [bs0] that was free at the start, page aligned and apart from each
    other and from what is free now. *)
Record stacks_ok (bs0 : blocks) (i : Z) (st : list Z) (bs : blocks) : Prop := StacksOk {
  sk_free j x : 1 ≤ j < i → in_stack (at_ st j) x → avail bs0 x ∧ ¬ avail bs x;
  sk_align j : 1 ≤ j < i → at_ st j mod PAGE_SIZE = 0;
  sk_apart j k x : 1 ≤ j < i → 1 ≤ k < i → in_stack (at_ st j) x → in_stack (at_ st k) x → j = k;
  sk_sub x : avail bs x → avail bs0 x }.

Lemma stacks_ok_next bs0 i st bs q bs' : 1 ≤ i < Z.of_nat (length st) → stacks_ok bs0 i st bs →
  q mod PAGE_SIZE = 0 → (∀ x, avail bs x ↔ avail bs' x ∨ q ≤ x < q + KSTACKSIZE) →
  (∀ x, q ≤ x < q + KSTACKSIZE → ¬ avail bs' x) →
  stacks_ok bs0 (i + 1) (<[Z.to_nat i := q]> st) bs'.
Proof.
  intros Hi [H1 H2 H3 H4] Hq Ha Hd. split.
  - intros j x Hj Hx. rewrite at_insert in Hx by lia. destruct (Z.eqb_spec j i) as [->|Hne].
    + split; [apply H4, Ha; by right|by apply Hd].
    + destruct (H1 j x) as [Hx1 Hx2]; [lia|done|]. split; [done|]. intros Hx'. apply Hx2, Ha. by left.
  - intros j Hj. rewrite at_insert by lia. destruct (Z.eqb_spec j i) as [->|Hne]; [done|]. apply H2. lia.
  - intros j k x Hj Hk. rewrite !at_insert by lia.
    destruct (Z.eqb_spec j i) as [->|Hj'], (Z.eqb_spec k i) as [->|Hk']; intros Hx Hy; [done| | |].
    + destruct (H1 k x) as [_ Hn]; [lia|done|]. exfalso. apply Hn, Ha. by right.
    + destruct (H1 j x) as [_ Hn]; [lia|done|]. exfalso. apply Hn, Ha. by right.
    + apply (H3 j k x); (done || lia).
  - intros x Hx. apply H4, Ha. by left.
Qed.

Lemma alloc_stacks_ok bs0 fuel i p st w bs : J w → pm_inv w bs → psize p = KSTACKSIZE → pflags p = 0 →
  1 ≤ i → NR_CPUS ≤ Z.of_nat (length st) → stacks_ok bs0 i st bs → (Z.to_nat (NR_CPUS - i) < fuel)%nat →
  wpp (loop fuel (λ '(i, p, slave_stacks, w),
    if i <? NR_CPUS then
      '(r, p, w) ← alloc_pages (Some p) w;
      p ← of_option BadPtr p;
      if r <? 0 then Err Panicked
      else
        slave_stacks ← wr slave_stacks i (paddr p);
        Ok (inl (i + 1, p, slave_stacks, w))
    else Ok (inr (slave_stacks, w))) (i, p, st, w)) (λ '(st', w'), ∃ bs', J w' ∧ pm_inv w' bs' ∧
      length st' = length st ∧ stacks_ok bs0 (Z.max i NR_CPUS) st' bs').
Proof.
  revert i p st w bs. induction fuel as [|fuel IH]; intros i p st w bs HJ Hi Hp Hfl H1 Hlen Hok Hf; [lia|].
  cbn [loop]. destruct (Z.ltb_spec i NR_CPUS) as [Hlt|Hge].
  2: { right. cbn [mbind res_bind wp]. exists bs. rewrite Z.max_l by lia. done. }
  pose proof (alloc_pages_ok p w bs HJ Hi) as Ha. rewrite Hp, Hfl in Ha. specialize (Ha Hsz Hpg).
  destruct (first_fit KSTACKSIZE bs) as [[q bs']|] eqn:E.
  2: { rewrite Ha by done. by left. }
  destruct (wp_inv _ _ Ha) as ([[r p'] w'] & -> & -> & -> & HJ' & Hi' & _). clear Ha.
  cbn [mbind res_bind of_option paddr]. change (0 <? 0) with false. cbv iota.
  rewrite wr_ok by lia. cbn [mbind res_bind].
  destruct (first_fit_pm _ _ _ _ w w' Hi Hsz Hpg E) as (_ & _ & Hq & _ & Hav & Hnav); [apply Hi'|apply Hi'|].
  eapply wpp_mono; [apply (IH (i + 1) _ _ w' bs'); try done|].
  - lia.
  - rewrite length_insert. lia.
  - apply (stacks_ok_next bs0 i st bs); (done || lia).
  - lia.
  - intros [st' w2] (bs2 & HJ2 & Hi2 & Hl2 & Hok2). rewrite length_insert in Hl2. exists bs2.
    replace (Z.max i NR_CPUS) with (Z.max (i + 1) NR_CPUS) by lia. done.
Qed.

(** Starting the other processors ([smp_startup]): either there is not enough
    memory and the kernel panics, or afterwards every processor but the first
    has a stack of its own: page aligned, taken from memory that was free, no
    longer free, and disjoint from the stacks of the others. *)
Theorem smp_stacks_correct paddr0 st w bs : J w → pm_inv w bs → NR_CPUS ≤ Z.of_nat (length st) →
  wpp (smp_startup NR_CPUS KSTACKSIZE paddr0 st w) (λ '(st', w'), ∃ bs', J w' ∧ pm_inv w' bs' ∧
    length st' = length st ∧ stacks_ok bs (Z.max 1 NR_CPUS) st' bs').
Proof.
  intros HJ Hi Hlen. unfold smp_startup, alloc_stacks. apply (alloc_stacks_ok bs _ _ _ _ _ bs); try done.
  - split; (intros; lia) || done.
  - unfold nr_cpus. lia.
Qed.
End stacks.

Lemma smp_stacks_correct_witness :
  wpp (smp_startup (K := Vmm.kmem demo_junk 1) 4 0x8000 0 [0; 0; 0; 0] boot_w) (λ '(st, w),
    ∃ bs, stacks_ok 0x8000 [(0x210000, 0xfdf0000)] 4 st bs).
Proof.
  eapply wpp_mono.
  - apply (smp_stacks_correct (K := Vmm.kmem demo_junk 1) (J := boot_J) 4 0x8000 ltac:(lia) eq_refl 0 [0; 0; 0; 0] boot_w
      [(0x210000, 0xfdf0000)] boot_w_J boot_w_inv). simpl; lia.
  - intros [st w] (bs & _ & _ & _ & H). exists bs. exact H.
Defined.

(** The framework of the example in Dev, with the memory bus at 0x100. *)
Lemma console_handover_correct_witness :
  wp (uart_initcall 1 3 0x9000 demo_devs demo_console) (λ '(r, s'), r = 0 ∧ norm_uart s' = Uart 0x100 UART_BASE).
Proof.
  eapply wp_mono.
  - apply (console_handover_correct 2 1 3 ltac:(lia) ltac:(lia) 0x9000 demo_devs demo_list 0x100 (demo_dev 7 NULL memory_name) demo_console
      eq_refl demo_listed eq_refl eq_refl eq_refl eq_refl).
    + unfold fits. lia.
    + exists EarlyPutchar. split_and!; try done.
      * split; [by eapply reaches_mem|done].
      * exists 0. by unfold Sync.B.
    + done.
    + by unfold BUFSIZ.
  - intros [r s'] (H1 & _ & H2 & _). split; [exact H1|exact H2].
Defined.
