(* ===== verification/Head.v ===== *)
(** * The first instructions of the kernel

    kern/arch/mips/entry.S: the entry of the first processor and of the others,
    before and after the jump to the high addresses, on the machine of Entry.  What
    the other processors take for their stack is compared with what [smp_startup]
    of kern/arch/mips/arch_smp.c stores for them. *)
From S2P Require Import Prelude Util DList MmState Libc Palloc Pmm Simple Vmm Init Cp0 Pgtable Sync Uvm Areas Tlb Proc Trap Entry Boot.

Definition IO_CAC_BASE : Z := Seg.KSEG0.

Section code.
(** Addresses of the linker script, of the array and of the C functions. *)
Context (_gp boot_stack slave_stacks bss_begin bss_end : Z).
Context (master_early_init master_init slave_early_init slave_init : Z).

























(** What processor [n] takes for its stack pointer. *)
Definition slave_sp (m : mem) (n : Z) : Z := w32 (ld32 m (slave_stacks + 4 * n) + IO_CAC_BASE).





(** ** The stacks of the other processors

    [slave_stacks] is an array of [addr_t], eight bytes each, to which
    [alloc_stacks] assigns the lowest address of each stack. *)
Definition stored (st : list Z) (m : mem) : Prop := ∀ j, 0 ≤ j < Z.of_nat (length st) →
  ld32 m (slave_stacks + 8 * j) = w32 (at_ st j) ∧ ld32 m (slave_stacks + 8 * j + 4) = at_ st j / 2 ^ 32.

(** The entry code takes the array for one of four-byte words that are the tops of
    the stacks.  With memory below 4 GiB every processor of an odd number starts
    with the same stack pointer, the lowest address of the kernel segment, and
    processor [2 * j] with the lowest address of the stack of processor [j]: all of
    that stack lies above. *)
Theorem slave_stack_shared st m KSTACKSIZE : stored st m → Forall (fits 32) st → ∀ j, 0 ≤ j < Z.of_nat (length st) →
  slave_sp m (2 * j + 1) = KERN_BASE ∧ slave_sp m (2 * j) = w32 (at_ st j + IO_CAC_BASE) ∧
  (at_ st j + KSTACKSIZE ≤ 2 ^ 31 → ∀ x, in_stack KSTACKSIZE (at_ st j) x → slave_sp m (2 * j) ≤ x + IO_CAC_BASE).
Proof.
  intros Hst Hf j Hj. destruct (Hst j Hj) as [E1 E2]. pose proof (at_fits 32 st j ltac:(done) Hf) as Ha. unfold slave_sp.
  replace (slave_stacks + 4 * (2 * j + 1)) with (slave_stacks + 8 * j + 4) by lia. replace (slave_stacks + 4 * (2 * j)) with (slave_stacks + 8 * j) by lia.
  rewrite E1, E2, Z.div_small, (wrap_small 32 (at_ st j)) by done. split_and!; [done|done|]. intros Hk x Hx. unfold in_stack, IO_CAC_BASE, Seg.KSEG0, fits in *.
  rewrite wrap_small by (unfold fits; lia). lia.
Qed.
End code.


