(* ===== verification/Bootmain.v ===== *)
(** * The boot loader

    boot/bootmain.c with the routines of include/arch/i386/arch-boot.h and the
    formats of include/aim/boot.h and include/elf.h: the loader reads the ELF
    header of the kernel from the second partition of an IDE disk, copies the
    segments to their physical addresses and jumps to the entry point.  The
    machine behind the port instructions is the class [Ports], and what the data
    sheet of an ATA disk promises of it is the class [Ata]; the loops that wait
    for the disk have no bound in the source and get [polls]. *)
From S2P Require Import Prelude Util Libc Pgtable.

Definition SECTSIZE : Z := 512.
Definition ELF_MAGIC : Z := 0x464C457F.
(** The partition table inside the boot sector, and the scratch space. *)
Definition PTABLE : Z := 0x7dbe.
Definition ELF_SCRATCH : Z := 0x10000.
Definition KERNEL_SECTOR : Z := 0x7dd6.

(** ** The formats *)

Definition ld16 (m : mem) (a : Z) : Z := m a + 2 ^ 8 * m (a + 1).

(** [struct DPT]: the members that the loader reads, and the size. *)
Definition SIZEOF_DPT : Z := 16.
Definition dpt_psectorID (m : mem) (p : Z) : Z := ld32 m (p + 8).

(** [struct elfhdr] *)
Definition elf_magic (m : mem) (p : Z) : Z := ld32 m p.
Definition elf_entry (m : mem) (p : Z) : Z := ld32 m (p + 24).
Definition elf_phoff (m : mem) (p : Z) : Z := ld32 m (p + 28).
Definition elf_phnum (m : mem) (p : Z) : Z := ld16 m (p + 44).

(** [struct proghdr] *)
Definition SIZEOF_PROGHDR : Z := 32.
Definition ph_off (m : mem) (p : Z) : Z := ld32 m (p + 4).
Definition ph_paddr (m : mem) (p : Z) : Z := ld32 m (p + 12).
Definition ph_filesz (m : mem) (p : Z) : Z := ld32 m (p + 16).
Definition ph_memsz (m : mem) (p : Z) : Z := ld32 m (p + 20).

(** ** The machine: an access to a port of [w] bits may change its state. *)
Class Ports (S : Type) := {
  port_in : Z → Z → S → Z * S;
  port_out : Z → Z → Z → S → S }.

Section loader.
Context {S : Type} `{P : Ports S} (polls : nat).

(** arch-boot.h; [insl] and [stosb] are the string instructions with a count. *)
Definition inb (port : Z) (s : S) : Z * S := let '(v, s) := port_in 8 (w16 port) s in (w8 v, s).
Definition outb (port data : Z) (s : S) : S := port_out 8 (w16 port) (w8 data) s.
Fixpoint insl (port addr : Z) (cnt : nat) (m : mem) (s : S) : mem * S :=
  match cnt with
  | O => (m, s)
  | Datatypes.S cnt =>
    let '(v, s) := port_in 32 (w16 port) s in
    insl port (w32 (addr + 4)) cnt (st32 addr (w32 v) m) s
  end.
Fixpoint stosb (addr data : Z) (cnt : nat) (m : mem) : mem :=
  match cnt with
  | O => m
  | Datatypes.S cnt => stosb (w32 (addr + 1)) data cnt (store addr (w8 data) m)
  end.

(** ** bootmain.c *)
Definition waitdisk (s : S) : res S :=
  loop polls (λ s,
    let '(v, s) := inb 0x1F7 s in
    if negb (Z.land v 0xC0 =? 0x40) then Ok (inl s) else Ok (inr s)) s.

Definition readsect (dst offset : Z) (m : mem) (s : S) : res (mem * S) :=
  s ← waitdisk s;
  let s := outb 0x1F2 1 s in
  let s := outb 0x1F3 offset s in
  let s := outb 0x1F4 (Z.shiftr offset 8) s in
  let s := outb 0x1F5 (Z.shiftr offset 16) s in
  let s := outb 0x1F6 (Z.lor (Z.shiftr offset 24) 0xE0) s in
  let s := outb 0x1F7 0x20 s in
  s ← waitdisk s;
  Ok (insl 0x1F0 dst (Z.to_nat (SECTSIZE / 4)) m s).

Definition readseg (pa count offset : Z) (m : mem) (s : S) : res (mem * S) :=
  let epa := w32 (pa + count) in
  let pa := w32 (pa - offset mod SECTSIZE) in
  let offset := w32 (offset / SECTSIZE + ld32 m KERNEL_SECTOR) in
  loop (Datatypes.S (Z.to_nat ((count + 2 * SECTSIZE) / SECTSIZE))) (λ '(pa, offset, m, s),
    if pa <? epa then
      '(m, s) ← readsect pa offset m s;
      Ok (inl (w32 (pa + SECTSIZE), w32 (offset + 1), m, s))
    else Ok (inr (m, s))) (pa, offset, m, s).

(** The body of the loop over the program headers. *)
Definition load_segment (ph : Z) (m : mem) (s : S) : res (mem * S) :=
  let pa := ph_paddr m ph in
  '(m, s) ← readseg pa (ph_filesz m ph) (ph_off m ph) m s;
  if ph_filesz m ph <? ph_memsz m ph
  then Ok (stosb (w32 (pa + ph_filesz m ph)) 0 (Z.to_nat (w32 (ph_memsz m ph - ph_filesz m ph))) m, s)
  else Ok (m, s).

(** The address that is called, or [None] when [bootmain] returns. *)
Definition bootmain (m : mem) (s : S) : res (option Z * mem * S) :=
  let elf := ELF_SCRATCH in
  '(m, s) ← readsect elf (dpt_psectorID m (PTABLE + SIZEOF_DPT)) m s;
  if negb (elf_magic m elf =? ELF_MAGIC) then Ok (None, m, s)
  else
    let ph := w32 (elf + elf_phoff m elf) in
    let eph := w32 (ph + SIZEOF_PROGHDR * elf_phnum m elf) in
    '(m, s) ← loop (Datatypes.S (Z.to_nat (elf_phnum m elf))) (λ '(ph, m, s),
      if ph <? eph then
        '(m, s) ← load_segment ph m s;
        Ok (inl (w32 (ph + SIZEOF_PROGHDR), m, s))
      else Ok (inr (m, s))) (ph, m, s);
    Ok (Some (elf_entry m elf), m, s).
End loader.

(** ** The disk

    [task s p] is the register of the task file behind the ports 0x1F2 to 0x1F6,
    [fifo s] what the data port still delivers, [ata_busy s] the number of times
    that the status still says busy, at most [limit].  The command 0x20 with a
    count of 1 delivers the sector that the task file addresses (28 bits, LBA
    mode, first drive). *)
Definition lba (t : Z → Z) : Z := t 0x1F3 + 2 ^ 8 * t 0x1F4 + 2 ^ 16 * t 0x1F5 + 2 ^ 24 * (t 0x1F6 mod 2 ^ 4).
Definition sector (disk : Z → Z) (n : Z) : list Z := (λ i, disk (n * SECTSIZE + i)) <$> seqZ 0 SECTSIZE.

Class Ata (S : Type) `{Ports S} (disk : Z → Z) (limit : nat) := {
  task : S → Z → Z; fifo : S → list Z; ata_busy : S → nat;
  disk_bytes x : fits 8 (disk x);
  ata_busy_limit s : (ata_busy s ≤ limit)%nat;
  status_read s : let '(v, s') := port_in 8 0x1F7 s in
    (Z.land (w8 v) 0xC0 = 0x40 ↔ ata_busy s = 0%nat) ∧ task s' = task s ∧ fifo s' = fifo s ∧ ata_busy s' = pred (ata_busy s);
  task_write p v s : 0x1F2 ≤ p ≤ 0x1F6 → fits 8 v → ata_busy s = 0%nat →
    (∀ q, task (port_out 8 p v s) q = if q =? p then v else task s q) ∧ ata_busy (port_out 8 p v s) = 0%nat;
  read_command s : ata_busy s = 0%nat → task s 0x1F2 = 1 → Z.land (task s 0x1F6) 0xF0 = 0xE0 →
    fifo (port_out 8 0x1F7 0x20 s) = sector disk (lba (task s));
  data_read s b0 b1 b2 b3 r : ata_busy s = 0%nat → fifo s = b0 :: b1 :: b2 :: b3 :: r →
    let '(v, s') := port_in 32 0x1F0 s in
    v = b0 + 2 ^ 8 * b1 + 2 ^ 16 * b2 + 2 ^ 24 * b3 ∧ fifo s' = r ∧ (r ≠ [] → ata_busy s' = 0%nat) }.

Section reading.
Context {S : Type} {P : Ports S} {disk : Z → Z} {limit : nat} {A : Ata S disk limit} (polls : nat).
Context (Hpolls : (limit < polls)%nat).
Implicit Types s : S.

Lemma waitdisk_ok s : wp (waitdisk polls s) (λ s', ata_busy s' = 0%nat ∧ task s' = task s ∧ fifo s' = fifo s).
Proof.
  apply (wp_loop _ (λ s', task s' = task s ∧ fifo s' = fifo s) ata_busy).
  - intros s' [Ht Hf]. unfold inb. change (w16 0x1F7) with 0x1F7. pose proof (status_read s') as Hr.
    destruct (port_in 8 0x1F7 s') as [v s2]. destruct Hr as (Hv & Ht2 & Hf2 & Hb2).
    destruct (Z.eqb_spec (Z.land (w8 v) 0xC0) 0x40) as [E|E]; cbn [negb]; apply wp_ok.
    + apply Hv in E. split_and!; [by rewrite Hb2, E|congruence|congruence].
    + split; [split; congruence|]. rewrite Hb2. destruct (ata_busy s') eqn:Eb; [|lia]. by exfalso; apply E, Hv.
  - done.
  - pose proof (ata_busy_limit s). lia.
Qed.

(** The bytes of a little-endian word. *)
Lemma st32_bytes a b0 b1 b2 b3 m x : fits 8 b0 → fits 8 b1 → fits 8 b2 → fits 8 b3 →
  st32 a (w32 (b0 + 2 ^ 8 * b1 + 2 ^ 16 * b2 + 2 ^ 24 * b3)) m x =
    if (a <=? x) && (x <? a + 4) then at_ [b0; b1; b2; b3] (x - a) else m x.
Proof.
  unfold fits. intros H0 H1 H2 H3. rewrite (wrap_small 32) by (unfold fits; lia). unfold st32.
  destruct (Z.leb_spec a x), (Z.ltb_spec x (a + 4)); try done. cbn [andb].
  assert (x - a = 0 ∨ x - a = 1 ∨ x - a = 2 ∨ x - a = 3) as Hx by lia.
  change (2 ^ 8) with 256 in *. change (2 ^ 16) with 65536 in *. change (2 ^ 24) with 16777216 in *.
  destruct Hx as [->|[->|[->| ->]]]; [change (at_ _ 0) with b0|change (at_ _ 1) with b1|change (at_ _ 2) with b2|change (at_ _ 3) with b3];
    match goal with |- context [2 ^ ?e] => let v := eval vm_compute in (2 ^ e) in change (2 ^ e) with v end;
    Z.div_mod_to_equations; lia.
Qed.

Lemma at_app_r (l k : list Z) i : Z.of_nat (length l) ≤ i → at_ (l ++ k) i = at_ k (i - Z.of_nat (length l)).
Proof.
  intros Hi. unfold at_. rewrite !(proj2 (Z.leb_le 0 _)) by lia. rewrite lookup_app_r by lia. do 2 f_equal. lia.
Qed.
Lemma at_app_l (l k : list Z) i : i < Z.of_nat (length l) → at_ (l ++ k) i = at_ l i.
Proof. intros Hi. unfold at_. destruct (Z.leb_spec 0 i); [|done]. by rewrite lookup_app_l by lia. Qed.

(** [rep insl] moves the data of the disk to memory. *)
Lemma insl_ok cnt addr m s : 0 ≤ addr → addr + 4 * Z.of_nat cnt < 2 ^ 32 →
  length (fifo s) = (4 * cnt)%nat → Forall (fits 8) (fifo s) → (cnt ≠ 0%nat → ata_busy s = 0%nat) →
  ∀ a, (insl 0x1F0 addr cnt m s).1 a =
    if (addr <=? a) && (a <? addr + 4 * Z.of_nat cnt) then at_ (fifo s) (a - addr) else m a.
Proof.
  revert addr m s. induction cnt as [|cnt IH]; intros addr m s Ha He Hl Hb Hbusy a.
  { cbn [insl fst]. destruct (Z.leb_spec addr a), (Z.ltb_spec a (addr + 4 * Z.of_nat 0)); (done || lia). }
  destruct (fifo s) as [|b0 [|b1 [|b2 [|b3 r]]]] eqn:Ef; [cbn in Hl; lia..|].
  cbn [insl]. change (w16 0x1F0) with 0x1F0. pose proof (data_read s b0 b1 b2 b3 r (Hbusy ltac:(lia)) Ef) as Hd.
  destruct (port_in 32 0x1F0 s) as [v s']. destruct Hd as (-> & Hf & Hn).
  rewrite !Forall_cons in Hb. destruct Hb as (B0 & B1 & B2 & B3 & Hb). cbn [length] in Hl.
  rewrite (wrap_small 32 (addr + 4)) by (unfold fits; lia). rewrite IH.
  - rewrite Hf, st32_bytes by done. change (b0 :: b1 :: b2 :: b3 :: r) with ([b0; b1; b2; b3] ++ r).
    destruct (Z.leb_spec (addr + 4) a), (Z.ltb_spec a (addr + 4 + 4 * Z.of_nat cnt)),
      (Z.leb_spec addr a), (Z.ltb_spec a (addr + 4 * Z.of_nat (Datatypes.S cnt))), (Z.ltb_spec a (addr + 4));
      cbn [andb]; try lia; try done.
    + rewrite at_app_r by (cbn [length]; lia). f_equal. cbn [length]. lia.
    + by rewrite at_app_l by (cbn [length]; lia).
  - lia.
  - lia.
  - rewrite Hf. lia.
  - by rewrite Hf.
  - intros Hc. apply Hn. intros ->. cbn in Hl. lia.
Qed.

(** The address that the loader writes to the task file. *)
Lemma sector_address n : 0 ≤ n < 2 ^ 28 →
  w8 n + 2 ^ 8 * w8 (Z.shiftr n 8) + 2 ^ 16 * w8 (Z.shiftr n 16) +
    2 ^ 24 * (w8 (Z.lor (Z.shiftr n 24) 0xE0) mod 2 ^ 4) = n ∧
  Z.land (w8 (Z.lor (Z.shiftr n 24) 0xE0)) 0xF0 = 0xE0.
Proof.
  intros Hn. rewrite !Z.shiftr_div_pow2 by lia.
  assert (n / 2 ^ 24 = 0 ∨ 1 ≤ n / 2 ^ 24 < 16) as Hd by (Z.div_mod_to_equations; lia).
  assert (Z.lor (n / 2 ^ 24) 0xE0 = n / 2 ^ 24 + 0xE0) as ->.
  { assert (n / 2 ^ 24 ∈ seqZ 0 16) as Hin by (apply elem_of_seqZ; lia). revert Hin. generalize (n / 2 ^ 24).
    apply (Forall_forall (λ k, Z.lor k 0xE0 = k + 0xE0)). by repeat constructor. }
  split.
  - unfold wrap. Z.div_mod_to_equations; lia.
  - assert (n / 2 ^ 24 ∈ seqZ 0 16) as Hin by (apply elem_of_seqZ; lia). revert Hin. generalize (n / 2 ^ 24).
    apply (Forall_forall (λ k, Z.land (w8 (k + 0xE0)) 0xF0 = 0xE0)). by repeat constructor.
Qed.

(** The part of a memory that holds the bytes of the disk from position [x] on. *)
Definition holds_disk (m0 m : mem) (lo hi x : Z) : Prop :=
  ∀ a, m a = if (lo <=? a) && (a <? hi) then disk (x + (a - lo)) else m0 a.

Lemma at_sector n i : 0 ≤ i < SECTSIZE → at_ (sector disk n) i = disk (n * SECTSIZE + i).
Proof.
  intros Hi. unfold at_, sector. rewrite (proj2 (Z.leb_le 0 i)) by lia. rewrite list_lookup_fmap.
  rewrite lookup_seqZ_lt by lia. cbn. f_equal. lia.
Qed.

Lemma outb_task p v s : 0x1F2 ≤ p ≤ 0x1F6 → ata_busy s = 0%nat →
  (∀ q, task (outb p v s) q = if q =? p then w8 v else task s q) ∧ ata_busy (outb p v s) = 0%nat.
Proof.
  intros Hp Hb. unfold outb. rewrite (wrap_small 16 p) by (unfold fits; lia). apply task_write; [done|by apply wrap_fits|done].
Qed.

Lemma readsect_ok dst n m s : 0 ≤ dst → dst + SECTSIZE < 2 ^ 32 → 0 ≤ n < 2 ^ 28 →
  wp (readsect polls dst n m s) (λ '(m', _), holds_disk m m' dst (dst + SECTSIZE) (n * SECTSIZE)).
Proof.
  intros Hd He Hn. unfold readsect. apply wp_bind. eapply wp_mono; [apply waitdisk_ok|].
  intros s1 (B1 & _). cbv zeta. apply wp_bind. eapply wp_mono; [apply waitdisk_ok|].
  intros s2 (B2 & _ & F2). apply wp_ok.
  destruct (sector_address n Hn) as [Hlba Hmode].
  set (v3 := Z.lor (Z.shiftr n 24) 0xE0) in *.
  destruct (outb_task 0x1F2 1 s1) as [T2 N2]; [lia|done|]. set (t2 := outb 0x1F2 1 s1) in *.
  destruct (outb_task 0x1F3 n t2) as [T3 N3]; [lia|done|]. set (t3 := outb 0x1F3 n t2) in *.
  destruct (outb_task 0x1F4 (Z.shiftr n 8) t3) as [T4 N4]; [lia|done|]. set (t4 := outb 0x1F4 (Z.shiftr n 8) t3) in *.
  destruct (outb_task 0x1F5 (Z.shiftr n 16) t4) as [T5 N5]; [lia|done|]. set (t5 := outb 0x1F5 (Z.shiftr n 16) t4) in *.
  destruct (outb_task 0x1F6 v3 t5) as [T6 N6]; [lia|done|]. set (t6 := outb 0x1F6 v3 t5) in *.
  assert (fifo s2 = sector disk n) as Hf.
  { rewrite F2. change (outb 0x1F7 0x20 t6) with (port_out 8 0x1F7 0x20 t6). rewrite read_command; [|done|..].
    - f_equal. unfold lba. rewrite !T6, !T5, !T4, !T3. exact Hlba.
    - by rewrite T6, T5, T4, T3, T2.
    - by rewrite T6. }
  change (Z.to_nat (SECTSIZE / 4)) with 128%nat. pose proof (insl_ok 128 dst m s2) as Hi.
  destruct (insl 0x1F0 dst 128 m s2) as [m' s3]. cbn [fst] in Hi. intros a. rewrite Hi; clear Hi.
  - change (4 * Z.of_nat 128) with SECTSIZE. rewrite Hf.
    destruct (Z.leb_spec dst a), (Z.ltb_spec a (dst + SECTSIZE)); try done. cbn [andb]. by rewrite at_sector by lia.
  - done.
  - exact He.
  - by rewrite Hf.
  - rewrite Hf. apply Forall_fmap, Forall_forall. intros x _. exact (@disk_bytes S P disk limit A _).
  - done.
Qed.
(** What [readseg] writes: whole sectors, from the start of the first one. *)
Definition seg_lo (pa offset : Z) : Z := pa - offset mod SECTSIZE.
Definition seg_sectors (count offset : Z) : Z := (count + offset mod SECTSIZE + (SECTSIZE - 1)) / SECTSIZE.
Definition seg_hi (pa count offset : Z) : Z := seg_lo pa offset + SECTSIZE * seg_sectors count offset.

Lemma seg_bounds pa count offset : 0 ≤ count →
  seg_lo pa offset ≤ pa ∧ pa + count ≤ seg_hi pa count offset < pa + count + SECTSIZE ∧
  pa < seg_lo pa offset + SECTSIZE ∧ 0 ≤ seg_sectors count offset ≤ (count + 2 * SECTSIZE - 2) / SECTSIZE.
Proof. intros Hc. unfold seg_hi, seg_lo, seg_sectors, SECTSIZE. Z.div_mod_to_equations. lia. Qed.

Lemma readseg_ok pa count offset m s K : ld32 m KERNEL_SECTOR = K → 0 ≤ K → 0 ≤ offset → 0 ≤ count →
  0 ≤ seg_lo pa offset → seg_hi pa count offset < 2 ^ 32 → K + offset / SECTSIZE + seg_sectors count offset ≤ 2 ^ 28 →
  wp (readseg polls pa count offset m s) (λ '(m', _),
    holds_disk m m' (seg_lo pa offset) (seg_hi pa count offset) ((K + offset / SECTSIZE) * SECTSIZE)).
Proof.
  intros HK HK0 Ho Hc Hlo Hhi Hlba. destruct (seg_bounds pa count offset Hc) as (B1 & B2 & B3 & B4).
  assert (0 ≤ offset / SECTSIZE) as Hq by (apply Z.div_pos; [lia|done]).
  unfold readseg. rewrite HK. cbv zeta. change (pa - offset mod SECTSIZE) with (seg_lo pa offset).
  rewrite (wrap_small 32 (pa + count)), (wrap_small 32 (seg_lo pa offset)), (wrap_small 32 (_ + K)) by (unfold fits; lia).
  set (lo := seg_lo pa offset) in *. set (n := seg_sectors count offset) in *.
  set (x0 := K + offset / SECTSIZE) in *. change (seg_hi pa count offset) with (lo + SECTSIZE * n) in *.
  apply (wp_loop _ (λ '(p, o, m', _), ∃ k, 0 ≤ k ≤ n ∧ p = lo + SECTSIZE * k ∧ o = x0 + k ∧
      holds_disk m m' lo p (x0 * SECTSIZE))
    (λ '(p, _, _, _), Z.to_nat ((lo + SECTSIZE * n - p) / SECTSIZE))).
  - intros [[[p o] m1] s1] (k & Hk & -> & -> & Hm1). unfold SECTSIZE in *.
    destruct (Z.ltb_spec (lo + 512 * k) (pa + count)) as [Hlt|Hge].
    + apply wp_bind. eapply wp_mono; [apply readsect_ok; unfold SECTSIZE; lia|]. intros [m2 s2] Hm2. apply wp_ok.
      unfold SECTSIZE in *. rewrite (wrap_small 32 (lo + 512 * k + 512)), (wrap_small 32 (x0 + k + 1)) by (unfold fits; lia).
      split; [|Z.div_mod_to_equations; lia]. exists (k + 1). split_and!; [lia|lia|lia|lia|].
      intros a. rewrite Hm2, Hm1.
      destruct (Z.leb_spec lo a), (Z.leb_spec (lo + 512 * k) a), (Z.ltb_spec a (lo + 512 * k)),
        (Z.ltb_spec a (lo + 512 * k + 512)); cbn [andb]; try done; try lia. f_equal. lia.
    + apply wp_ok. assert (k = n) as -> by lia. done.
  - exists 0. split_and!; [lia|lia|lia|lia|]. intros a.
    destruct (Z.leb_spec lo a), (Z.ltb_spec a lo); cbn [andb]; (done || lia).
  - unfold SECTSIZE in *. clear Hhi Hlba. Z.div_mod_to_equations. lia.
Qed.
Lemma stosb_ok c cnt addr m : 0 ≤ addr → addr + Z.of_nat cnt < 2 ^ 32 →
  ∀ a, stosb addr c cnt m a = if (addr <=? a) && (a <? addr + Z.of_nat cnt) then w8 c else m a.
Proof.
  revert addr m. induction cnt as [|cnt IH]; intros addr m Ha He a.
  { cbn [stosb]. destruct (Z.leb_spec addr a), (Z.ltb_spec a (addr + Z.of_nat 0)); (done || lia). }
  cbn [stosb]. rewrite (wrap_small 32 (addr + 1)) by (unfold fits; lia). rewrite IH by lia. unfold store.
  destruct (Z.leb_spec (addr + 1) a), (Z.ltb_spec a (addr + 1 + Z.of_nat cnt)), (Z.leb_spec addr a),
    (Z.ltb_spec a (addr + Z.of_nat (Datatypes.S cnt))), (Z.eqb_spec a addr); cbn [andb]; (done || lia).
Qed.

(** ** The kernel image

    The file starts at sector [K] of the disk. *)
Context (K : Z).
Definition file : mem := λ x, disk (K * SECTSIZE + x).

Record seg := Seg { g_off : Z; g_paddr : Z; g_filesz : Z; g_memsz : Z }.
Definition seg_of (q : Z) : seg := Seg (ph_off file q) (ph_paddr file q) (ph_filesz file q) (ph_memsz file q).
Definition segments : list seg := (λ i, seg_of (elf_phoff file 0 + SIZEOF_PROGHDR * i)) <$> seqZ 0 (elf_phnum file 0).

(** The bytes of a segment, and those that loading it may overwrite. *)
Definition g_end (g : seg) : Z := g_paddr g + Z.max (g_filesz g) (g_memsz g).
Definition w_lo (g : seg) : Z := seg_lo (g_paddr g) (g_off g).
Definition w_hi (g : seg) : Z := Z.max (seg_hi (g_paddr g) (g_filesz g) (g_off g)) (g_end g).
Definition apart (lo hi lo' hi' : Z) : Prop := hi ≤ lo' ∨ hi' ≤ lo.
Definition loaded (g : seg) (m : mem) : Prop :=
  ∀ i, 0 ≤ i < Z.max (g_filesz g) (g_memsz g) → m (g_paddr g + i) = if i <? g_filesz g then file (g_off g + i) else 0.

(** The segment lies in the address space and on the disk, and does not
    overwrite the headers or the partition table. *)
Record seg_ok (g : seg) : Prop := SegOk {
  so_lo : 0 ≤ w_lo g; so_hi : w_hi g < 2 ^ 32;
  so_disk : K + g_off g / SECTSIZE + seg_sectors (g_filesz g) (g_off g) ≤ 2 ^ 28;
  so_elf : apart (w_lo g) (w_hi g) ELF_SCRATCH (ELF_SCRATCH + SECTSIZE);
  so_table : apart (w_lo g) (w_hi g) KERNEL_SECTOR (KERNEL_SECTOR + 4) }.

(** An ELF file whose headers fit into one sector and whose segments, rounded to
    sectors, do not overwrite the earlier ones. *)
Record image_ok : Prop := ImageOk {
  im_magic : elf_magic file 0 = ELF_MAGIC;
  im_headers : elf_phoff file 0 + SIZEOF_PROGHDR * elf_phnum file 0 ≤ SECTSIZE;
  im_segs : Forall seg_ok segments;
  im_order : ∀ i j g h, segments !! i = Some g → segments !! j = Some h → (i < j)%nat →
    apart (w_lo h) (w_hi h) (g_paddr g) (g_end g) }.

(** The headers and the partition table are in place. *)
Definition headers_in (m : mem) : Prop :=
  (∀ x, 0 ≤ x < SECTSIZE → m (ELF_SCRATCH + x) = file x) ∧ ld32 m KERNEL_SECTOR = K.

Lemma file_fits x : fits 8 (file x).
Proof. exact (@disk_bytes S P disk limit A _). Qed.

Lemma file_ld32 q : fits 32 (ld32 file q).
Proof.
  unfold ld32, fits. pose proof (file_fits q). pose proof (file_fits (q + 1)).
  pose proof (file_fits (q + 2)). pose proof (file_fits (q + 3)). unfold fits in *. lia.
Qed.

Lemma header_ld32 m q d : headers_in m → 0 ≤ q + d → q + d + 4 ≤ SECTSIZE → ld32 m (ELF_SCRATCH + q + d) = ld32 file (q + d).
Proof. intros [Hm _] H0 H1. unfold ld32. rewrite <-!Z.add_assoc, !Hm by lia. done. Qed.

Lemma header_seg m q : headers_in m → 0 ≤ q → q + SIZEOF_PROGHDR ≤ SECTSIZE →
  ph_off m (ELF_SCRATCH + q) = g_off (seg_of q) ∧ ph_paddr m (ELF_SCRATCH + q) = g_paddr (seg_of q) ∧
  ph_filesz m (ELF_SCRATCH + q) = g_filesz (seg_of q) ∧ ph_memsz m (ELF_SCRATCH + q) = g_memsz (seg_of q).
Proof.
  intros H0 Hq Hq2. unfold SIZEOF_PROGHDR, SECTSIZE in *. unfold ph_off, ph_paddr, ph_filesz, ph_memsz.
  rewrite !(header_ld32 m) by (done || unfold SECTSIZE; lia). done.
Qed.

Lemma seg_of_fits q : fits 32 (g_off (seg_of q)) ∧ fits 32 (g_filesz (seg_of q)) ∧ fits 32 (g_memsz (seg_of q)).
Proof. split_and!; apply file_ld32. Qed.

Lemma headers_frame m m' lo hi : headers_in m → (∀ a, a < lo ∨ hi ≤ a → m' a = m a) →
  apart lo hi ELF_SCRATCH (ELF_SCRATCH + SECTSIZE) → apart lo hi KERNEL_SECTOR (KERNEL_SECTOR + 4) → headers_in m'.
Proof.
  intros [Hm HK] Hf H1 H2. unfold apart in *. split.
  - intros x Hx. rewrite Hf by lia. by apply Hm.
  - rewrite <-HK. apply ld32_ext. intros x Hx. apply Hf. lia.
Qed.

Lemma load_segment_ok q m s : headers_in m → 0 ≤ K → 0 ≤ q → q + SIZEOF_PROGHDR ≤ SECTSIZE → seg_ok (seg_of q) →
  wp (load_segment polls (ELF_SCRATCH + q) m s) (λ '(m', _),
    loaded (seg_of q) m' ∧ (∀ a, a < w_lo (seg_of q) ∨ w_hi (seg_of q) ≤ a → m' a = m a) ∧ headers_in m').
Proof.
  intros Hin HK Hq Hq2 [Hlo Hhi Hd He Ht]. unfold SIZEOF_PROGHDR, SECTSIZE in *.
  pose proof (λ m0 H0, header_seg m0 q H0 Hq Hq2) as Hph. destruct (seg_of_fits q) as (F1 & F2 & F3).
  destruct (Hph m Hin) as (E1 & E2 & E3 & _). unfold load_segment. rewrite E1, E2, E3. clear E1 E2 E3.
  revert Hph F1 F2 F3 Hlo Hhi Hd He Ht. generalize (seg_of q). intros g Hph F1 F2 F3 Hlo Hhi Hd He Ht. unfold fits in *.
  destruct (seg_bounds (g_paddr g) (g_filesz g) (g_off g)) as (B1 & B2 & B3 & _); [lia|].
  assert (seg_hi (g_paddr g) (g_filesz g) (g_off g) ≤ w_hi g ∧ g_end g ≤ w_hi g) as [W1 W2] by (unfold w_hi; lia).
  fold (w_lo g) in *. unfold g_end in *.
  apply wp_bind. eapply wp_mono; [apply (readseg_ok _ _ _ m s K); first [apply Hin|exact Hlo|exact Hd|lia]|].
  intros [m1 s1] Hm1. fold (w_lo g) in Hm1.
  assert (∀ a, a < w_lo g ∨ w_hi g ≤ a → m1 a = m a) as Hf1.
  { intros a Ha. rewrite Hm1. destruct (Z.leb_spec (w_lo g) a), (Z.ltb_spec a (seg_hi (g_paddr g) (g_filesz g) (g_off g))); (done || lia). }
  assert (∀ i, 0 ≤ i < g_filesz g → m1 (g_paddr g + i) = file (g_off g + i)) as Hl1.
  { intros i Hi. rewrite Hm1. rewrite (proj2 (Z.leb_le _ _)), (proj2 (Z.ltb_lt _ _)) by lia. cbn [andb].
    unfold file. f_equal. unfold w_lo, seg_lo, SECTSIZE. Z.div_mod_to_equations. lia. }
  pose proof (headers_frame m m1 _ _ Hin Hf1 He Ht) as Hin1.
  destruct (Hph m1 Hin1) as (_ & _ & E3 & E4). rewrite E3, E4.
  destruct (Z.ltb_spec (g_filesz g) (g_memsz g)) as [Hlt|Hge]; apply wp_ok.
  2: { split_and!; [|done|done]. intros i Hi. rewrite (proj2 (Z.ltb_lt i (g_filesz g))) by lia. apply Hl1. lia. }
  rewrite (wrap_small 32 (g_paddr g + _)), (wrap_small 32 (g_memsz g - _)) by (unfold fits; lia).
  assert (∀ a, a < w_lo g ∨ w_hi g ≤ a →
    stosb (g_paddr g + g_filesz g) 0 (Z.to_nat (g_memsz g - g_filesz g)) m1 a = m a) as Hf2.
  { intros a Ha. rewrite stosb_ok by lia. rewrite Z2Nat.id by lia.
    destruct (Z.leb_spec (g_paddr g + g_filesz g) a), (Z.ltb_spec a (g_paddr g + g_filesz g + (g_memsz g - g_filesz g)));
      cbn [andb]; try lia; by apply Hf1. }
  split_and!; [|exact Hf2|exact (headers_frame _ _ _ _ Hin Hf2 He Ht)].
  intros i Hi. rewrite stosb_ok by lia. rewrite Z2Nat.id by lia.
  destruct (Z.ltb_spec i (g_filesz g)), (Z.leb_spec (g_paddr g + g_filesz g) (g_paddr g + i)),
    (Z.ltb_spec (g_paddr g + i) (g_paddr g + g_filesz g + (g_memsz g - g_filesz g))); cbn [andb]; try lia; try done; apply Hl1; lia.
Qed.

Lemma segments_lookup k : 0 ≤ k < elf_phnum file 0 →
  segments !! Z.to_nat k = Some (seg_of (elf_phoff file 0 + SIZEOF_PROGHDR * k)).
Proof. intros Hk. unfold segments. rewrite list_lookup_fmap, lookup_seqZ_lt by lia. cbn [fmap option_fmap option_map].
  by rewrite Z2Nat.id, Z.add_0_l by lia. Qed.

(** What holds before the segment number [k] is loaded. *)
Definition upto (m0 m : mem) (k : Z) : Prop :=
  headers_in m ∧ (∀ i g, segments !! i = Some g → Z.of_nat i < k → loaded g m) ∧
  (∀ a, Forall (λ g, a < w_lo g ∨ w_hi g ≤ a) segments → m a = m0 a).

Lemma upto_step m0 m k s : image_ok → 0 ≤ K → 0 ≤ k < elf_phnum file 0 → upto m0 m k →
  wp (load_segment polls (ELF_SCRATCH + (elf_phoff file 0 + SIZEOF_PROGHDR * k)) m s) (λ '(m', _), upto m0 m' (k + 1)).
Proof.
  intros [_ Hh Hs Ho] HK Hk (Hin & Hl & Hf). pose proof (segments_lookup k Hk) as Hg.
  pose proof (Forall_lookup_1 _ _ _ _ Hs Hg) as Hok. pose proof (file_ld32 28) as F. unfold fits in F.
  change (ld32 file 28) with (elf_phoff file 0) in F. unfold SIZEOF_PROGHDR, SECTSIZE in *.
  eapply wp_mono; [apply (load_segment_ok (elf_phoff file 0 + 32 * k)); unfold SIZEOF_PROGHDR, SECTSIZE; (done || lia)|].
  intros [m' s'] (Hl' & Hf' & Hin'). split_and!; [done| |].
  - intros i g Hi Hlt. destruct (decide (i = Z.to_nat k)) as [->|Hne].
    { rewrite Hg in Hi. by injection Hi as <-. }
    specialize (Hl i g Hi ltac:(lia)). specialize (Ho i _ g _ Hi Hg ltac:(lia)). unfold apart, g_end in Ho.
    intros x Hx. rewrite Hf' by lia. by apply Hl.
  - intros a Ha. rewrite Hf'; [by apply Hf|]. by apply (Forall_lookup_1 _ _ _ _ Ha Hg).
Qed.

Lemma header_ld16 m q d : headers_in m → 0 ≤ q + d → q + d + 2 ≤ SECTSIZE → ld16 m (ELF_SCRATCH + q + d) = ld16 file (q + d).
Proof. intros [Hm _] H0 H1. unfold ld16. rewrite <-!Z.add_assoc, !Hm by lia. done. Qed.

Lemma load_all_ok m s : image_ok → 0 ≤ K → headers_in m →
  let ph := w32 (ELF_SCRATCH + elf_phoff m ELF_SCRATCH) in
  let eph := w32 (ph + SIZEOF_PROGHDR * elf_phnum m ELF_SCRATCH) in
  wp (loop (Datatypes.S (Z.to_nat (elf_phnum m ELF_SCRATCH))) (λ '(ph, m, s),
      if ph <? eph then
        '(m, s) ← load_segment polls ph m s;
        Ok (inl (w32 (ph + SIZEOF_PROGHDR), m, s))
      else Ok (inr (m, s))) (ph, m, s)) (λ '(m', _), upto m m' (elf_phnum file 0)).
Proof.
  intros Him HK Hin. pose proof (im_headers Him) as Hh. unfold SIZEOF_PROGHDR, SECTSIZE, ELF_SCRATCH in *.
  pose proof (file_ld32 28) as F. unfold fits in F. change (ld32 file 28) with (elf_phoff file 0) in F.
  assert (elf_phoff m 0x10000 = elf_phoff file 0) as -> by exact (header_ld32 m 0 28 Hin ltac:(done) ltac:(done)).
  assert (elf_phnum m 0x10000 = elf_phnum file 0) as -> by exact (header_ld16 m 0 44 Hin ltac:(done) ltac:(done)).
  assert (0 ≤ elf_phnum file 0) as Hn.
  { unfold elf_phnum, ld16. pose proof (file_fits (0 + 44)). pose proof (file_fits (0 + 44 + 1)). unfold fits in *. lia. }
  cbv zeta. rewrite (wrap_small 32 (0x10000 + _)), (wrap_small 32 (_ + 32 * _)) by (unfold fits; lia).
  apply (wp_loop _ (λ '(p, m', _), ∃ k, 0 ≤ k ≤ elf_phnum file 0 ∧ p = 0x10000 + (elf_phoff file 0 + 32 * k) ∧ upto m m' k)
    (λ '(p, _, _), Z.to_nat ((0x10000 + elf_phoff file 0 + 32 * elf_phnum file 0 - p) / 32))).
  - intros [[p m1] s1] (k & Hk & -> & Hu).
    destruct (Z.ltb_spec (0x10000 + (elf_phoff file 0 + 32 * k)) (0x10000 + elf_phoff file 0 + 32 * elf_phnum file 0)).
    + apply wp_bind. eapply wp_mono; [apply (upto_step m); (done || lia)|]. intros [m2 s2] Hu2. apply wp_ok.
      rewrite (wrap_small 32) by (unfold fits; lia). split; [|Z.div_mod_to_equations; lia].
      exists (k + 1). split_and!; [lia|lia|lia|done].
    + apply wp_ok. by replace (elf_phnum file 0) with k by lia.
  - exists 0. split_and!; [lia|lia|lia|]. split_and!; [done| |done]. lia.
  - Z.div_mod_to_equations. lia.
Qed.

(** C26. The boot loader ([bootmain]): for a kernel file at the sector that the
    second partition entry names, whose headers fit into one sector and whose
    segments do not overwrite the headers, the partition table or each other,
    the loader terminates with a jump to the file's entry point; every segment
    is in memory at its physical address, its bytes from the file followed by
    zeros up to its size in memory, and no byte outside the rounded segments and
    the scratch sector has changed.  When the file is not an ELF file, the loader
    returns, and only the scratch sector has changed. *)
Theorem bootmain_correct m s : ld32 m KERNEL_SECTOR = K → 0 ≤ K < 2 ^ 28 →
  (image_ok →
   wp (bootmain polls m s) (λ '(e, m', _), e = Some (elf_entry file 0) ∧ (∀ g, g ∈ segments → loaded g m') ∧
     ∀ a, Forall (λ g, a < w_lo g ∨ w_hi g ≤ a) segments → ¬ (ELF_SCRATCH ≤ a < ELF_SCRATCH + SECTSIZE) → m' a = m a)) ∧
  (elf_magic file 0 ≠ ELF_MAGIC →
   wp (bootmain polls m s) (λ '(e, m', _), e = None ∧
     ∀ a, ¬ (ELF_SCRATCH ≤ a < ELF_SCRATCH + SECTSIZE) → m' a = m a)).
Proof.
  intros HKm HK. 
  pose proof (readsect_ok ELF_SCRATCH K m s ltac:(done) ltac:(done) HK) as Hr. apply wp_inv in Hr as ([m1 s1] & Er & Hm1).
  unfold bootmain. change (dpt_psectorID m (PTABLE + SIZEOF_DPT)) with (ld32 m KERNEL_SECTOR). rewrite HKm, Er. cbn [mbind res_bind].
  assert (∀ a, ¬ (ELF_SCRATCH ≤ a < ELF_SCRATCH + SECTSIZE) → m1 a = m a) as Hf1.
  { intros a Ha. rewrite Hm1. destruct (Z.leb_spec ELF_SCRATCH a), (Z.ltb_spec a (ELF_SCRATCH + SECTSIZE)); (done || lia). }
  assert (headers_in m1) as Hin.
  { split.
    - intros x Hx. rewrite Hm1. rewrite (proj2 (Z.leb_le _ _)), (proj2 (Z.ltb_lt _ _)) by lia. cbn [andb]. unfold file. f_equal. lia.
    - rewrite <-HKm. apply ld32_ext. intros x Hx. apply Hf1. unfold KERNEL_SECTOR, ELF_SCRATCH, SECTSIZE in *. lia. }
  pose proof (λ d H0 H1, header_ld32 m1 0 d Hin H0 H1) as Hh. rewrite Z.add_0_r in Hh.
  assert (elf_magic m1 ELF_SCRATCH = elf_magic file 0) as -> by apply (Hh 0 ltac:(done) ltac:(done)).
  split; intros Him.
  2: { rewrite (proj2 (Z.eqb_neq _ _)) by done. by split. }
  rewrite (im_magic Him), Z.eqb_refl. cbn [negb]. cbv zeta. apply wp_bind.
  eapply wp_mono; [apply load_all_ok; (done || lia)|]. intros [m2 s2] (Hin2 & Hl & Hf2). apply wp_ok. split_and!.
  - f_equal. exact (header_ld32 m2 0 24 Hin2 ltac:(done) ltac:(done)).
  - intros g Hg. apply list_elem_of_lookup in Hg as [i Hi]. apply (Hl i g Hi).
    pose proof (lookup_lt_Some _ _ _ Hi) as Hlt. unfold segments in Hlt. rewrite length_fmap, length_seqZ in Hlt. lia.
  - intros a Ha Hs. by rewrite Hf2, Hf1.
Qed.
End reading.

(** ** A simulated disk: busy for two polls after each command. *)
Record sim_disk := SimDisk { sd_task : Z → Z; sd_fifo : list Z; sd_busy : nat }.

(** A kernel file with two segments at sector 3. *)
Definition demo_file : list Z :=
  [0x7F; 0x45; 0x4C; 0x46] ++ replicate 20 0 ++ [0x80; 0; 0x10; 0] ++ [52; 0; 0; 0] ++ replicate 12 0 ++ [2; 0] ++ replicate 6 0 ++
  [1; 0; 0; 0] ++ [0x80; 0; 0; 0] ++ replicate 4 0 ++ [0x80; 0; 0x10; 0] ++ [4; 0; 0; 0] ++ [8; 0; 0; 0] ++ replicate 8 0 ++
  [1; 0; 0; 0] ++ [0x84; 0; 0; 0] ++ replicate 4 0 ++ [0x84; 3; 0x10; 0] ++ [2; 0; 0; 0] ++ [2; 0; 0; 0] ++ replicate 8 0 ++
  replicate 12 0 ++ [11; 12; 13; 14; 15; 16].
Definition demo_disk (x : Z) : Z := at_ demo_file (x - 3 * SECTSIZE).

#[global] Instance sim_ports : Ports sim_disk := {|
  port_in w p s :=
    if p =? 0x1F7 then (if Nat.eqb (Nat.min 2 (sd_busy s)) 0 then 0x50 else 0x80, SimDisk (sd_task s) (sd_fifo s) (pred (Nat.min 2 (sd_busy s))))
    else match sd_fifo s with
         | b0 :: b1 :: b2 :: b3 :: r => (b0 + 2 ^ 8 * b1 + 2 ^ 16 * b2 + 2 ^ 24 * b3, SimDisk (sd_task s) r 0)
         | _ => (0, s)
         end;
  port_out w p v s :=
    if p =? 0x1F7 then SimDisk (sd_task s) (sector demo_disk (lba (sd_task s))) 2
    else SimDisk (λ q, if q =? p then v else sd_task s q) (sd_fifo s) (sd_busy s) |}.

Lemma demo_disk_bytes x : fits 8 (demo_disk x).
Proof. apply at_fits; [lia|]. apply (bool_decide_unpack _). by vm_compute. Qed.

#[global, refine] Instance sim_ata : Ata sim_disk demo_disk 2 := {|
  task := sd_task; fifo := sd_fifo; ata_busy s := Nat.min 2 (sd_busy s) |}.
Proof.
  - exact demo_disk_bytes.
  - intros s. lia.
  - intros s. cbn [port_in sim_ports]. rewrite Z.eqb_refl. cbn [sd_task sd_fifo sd_busy]. split_and!; [|done|done|lia]. destruct (Nat.min 2 (sd_busy s)); done.
  - intros p v s Hp Hv Hb. cbn [port_out sim_ports]. rewrite (proj2 (Z.eqb_neq p 0x1F7)) by lia. done.
  - done.
  - intros s b0 b1 b2 b3 r Hb Hf. cbn [port_in sim_ports]. change (0x1F0 =? 0x1F7) with false. cbv iota. rewrite Hf. done.
Defined.

Definition demo_boot_mem : mem := λ a, if a =? KERNEL_SECTOR then 3 else 0.

Lemma demo_segments : segments (disk := demo_disk) 3 = [Seg 0x80 0x100080 4 8; Seg 0x84 0x100384 2 2].
Proof. by vm_compute. Qed.

Lemma demo_image_ok : image_ok (disk := demo_disk) 3.
Proof.
  split.
  - by vm_compute.
  - by vm_compute.
  - rewrite demo_segments. repeat constructor; try (by vm_compute); right; by vm_compute.
  - rewrite demo_segments. intros [|[|i]] [|[|j]] g h Hg Hh Hij; try lia; try done.
    injection Hg as <-. injection Hh as <-. right. by vm_compute.
Qed.

Lemma bootmain_correct_witness :
  wp (bootmain 3 demo_boot_mem (SimDisk (λ _, 0) [] 1)) (λ '(e, m', _),
    e = Some 0x100080 ∧ m' 0x100080 = 11 ∧ m' 0x100083 = 14 ∧ m' 0x100087 = 0 ∧ m' 0x100385 = 16 ∧ m' 0x200000 = 0).
Proof.
  destruct (bootmain_correct (disk := demo_disk) (limit := 2) 3 ltac:(lia) 3 demo_boot_mem (SimDisk (λ _, 0) [] 1)) as [Hb _];
    [by vm_compute|lia|].
  eapply wp_mono; [exact (Hb demo_image_ok)|]. clear Hb.
  intros [[e m'] s'] (-> & Hl & Hf). rewrite demo_segments in Hl, Hf.
  pose proof (Hl (Seg 0x80 0x100080 4 8) ltac:(left)) as H1.
  pose proof (Hl (Seg 0x84 0x100384 2 2) ltac:(right; left)) as H2. unfold loaded in H1, H2. cbn [g_paddr g_filesz g_memsz g_off] in *.
  split_and!; [by vm_compute|(etransitivity; [apply (H1 0); lia|by vm_compute])|(etransitivity; [apply (H1 3); lia|by vm_compute])|(etransitivity; [apply (H1 7); lia|by vm_compute])|(etransitivity; [apply (H2 1); lia|by vm_compute])|].
  apply Hf; [|vm_compute; by intros [_ ?]]. rewrite !Forall_cons. split_and!; [right; by vm_compute..|done].
Defined.
