(* ===== verification/Mp.v ===== *)
(** * The multiprocessor tables of the PC

    kern/arch/i386/arch_mp.c and include/arch/i386/arch-mp.h: the search for the
    floating pointer structure, the check of the configuration table, and the
    walk over its entries that finds the processors and the I/O interrupt
    controller.  The tables are read from the byte memory; the number of
    processors the kernel is configured for is the parameter [CPUNUM]. *)
From S2P Require Import Prelude Util Libc Pgtable Bootmain.

(** [struct mp] and [struct mpconf], the members that are read. *)
Definition SIZEOF_MP : Z := 16.
Definition mp_physaddr (m : mem) (p : Z) : Z := ld32 m (p + 4).
Definition mp_imcrp (m : mem) (p : Z) : Z := m (p + 12).
Definition SIZEOF_MPCONF : Z := 44.
Definition conf_length (m : mem) (p : Z) : Z := ld16 m (p + 4).
Definition conf_version (m : mem) (p : Z) : Z := m (p + 6).
Definition conf_lapicaddr (m : mem) (p : Z) : Z := ld32 m (p + 36).

(** [struct mpproc], [struct mpioapic] and the types of the entries. *)
Definition SIZEOF_MPPROC : Z := 20.
Definition SIZEOF_MPIOAPIC : Z := 8.
Definition mpproc_apicid (m : mem) (p : Z) : Z := m (p + 1).
Definition mpioapic_apicno (m : mem) (p : Z) : Z := m (p + 1).
Definition MPPROC : Z := 0.
Definition MPBUS : Z := 1.
Definition MPIOAPIC : Z := 2.
Definition MPIOINTR : Z := 3.
Definition MPLINTR : Z := 4.

(** The static variables; [apicids] are the members [cpus[i].apicid]. *)
Record mp_state := MpState { ismp : Z; ncpu : Z; ioapicid : Z; lapic : Z; apicids : list Z }.
Definition set_ismp (x : Z) (t : mp_state) : mp_state := MpState x (ncpu t) (ioapicid t) (lapic t) (apicids t).
Definition set_ncpu (x : Z) (t : mp_state) : mp_state := MpState (ismp t) x (ioapicid t) (lapic t) (apicids t).
Definition set_ioapicid (x : Z) (t : mp_state) : mp_state := MpState (ismp t) (ncpu t) x (lapic t) (apicids t).
Definition set_lapic (x : Z) (t : mp_state) : mp_state := MpState (ismp t) (ncpu t) (ioapicid t) x (apicids t).
Definition set_apicids (x : list Z) (t : mp_state) : mp_state := MpState (ismp t) (ncpu t) (ioapicid t) (lapic t) x.

(** [memcmp(p, "...", n) == 0] for a string constant. *)
Definition bytes_are (m : mem) (p : Z) (cs : list Z) : bool :=
  forallb (λ '(i, c), m (p + i) =? c) (zip (seqZ 0 (Z.of_nat (length cs))) cs).
Definition sig_MP : list Z := [0x5F; 0x4D; 0x50; 0x5F].
Definition sig_PCMP : list Z := [0x50; 0x43; 0x4D; 0x50].

Definition sum (m : mem) (addr len : Z) : Z :=
  w8 (foldl (λ s i, s + m (addr + i)) 0 (seqZ 0 len)).

Definition mpsearch1 (m : mem) (a len : Z) : res Z :=
  let addr := postmap_addr a in
  let e := w32 (addr + len) in
  loop (S (Z.to_nat (len / SIZEOF_MP))) (λ p,
    if p <? e then
      if bytes_are m p sig_MP && (sum m p SIZEOF_MP =? 0) then Ok (inr p)
      else Ok (inl (w32 (p + SIZEOF_MP)))
    else Ok (inr 0)) addr.

Definition mpsearch (m : mem) : res Z :=
  let bda := postmap_addr 0x400 in
  let p := Z.shiftl (Z.lor (Z.shiftl (m (bda + 0x0F)) 8) (m (bda + 0x0E))) 4 in
  mp ← (if negb (p =? 0) then mpsearch1 m p 1024
        else
          let p := Z.lor (Z.shiftl (m (bda + 0x14)) 8) (m (bda + 0x13)) * 1024 in
          mpsearch1 m (w32 (p - 1024)) 1024);
  if negb (mp =? 0) then Ok mp else mpsearch1 m 0xF0000 0x10000.

(** The configuration table and [*pmp], or [None] for a NULL. *)
Definition mpconfig (m : mem) : res (option (Z * Z)) :=
  mp ← mpsearch m;
  if (mp =? 0) || (mp_physaddr m mp =? 0) then Ok None
  else
    let conf := postmap_addr (mp_physaddr m mp) in
    if negb (bytes_are m conf sig_PCMP) then Ok None
    else if negb (conf_version m conf =? 1) && negb (conf_version m conf =? 4) then Ok None
    else if negb (sum m conf (conf_length m conf) =? 0) then Ok None
    else Ok (Some (conf, mp)).

Section mpinit.
Context {S : Type} `{P : Ports S} (CPUNUM : Z).

(** One turn of the loop over the entries; a type that is unknown leaves the
    [switch] only, so that the next turn looks at the same entry. *)
Definition mp_entry (m : mem) (p : Z) (t : mp_state) : res (Z * mp_state) :=
  if m p =? MPPROC then
    t ← (if ncpu t <? CPUNUM
         then ids ← wr (apicids t) (ncpu t) (mpproc_apicid m p); Ok (set_ncpu (ncpu t + 1) (set_apicids ids t))
         else Ok t);
    Ok (w32 (p + SIZEOF_MPPROC), t)
  else if m p =? MPIOAPIC then Ok (w32 (p + SIZEOF_MPIOAPIC), set_ioapicid (mpioapic_apicno m p) t)
  else if (m p =? MPBUS) || (m p =? MPIOINTR) || (m p =? MPLINTR) then Ok (w32 (p + 8), t)
  else Ok (p, set_ismp 0 t).

Definition mp_walk (fuel : nat) (m : mem) (e p : Z) (t : mp_state) : res mp_state :=
  loop fuel (λ '(p, t),
    if p <? e then '(p, t) ← mp_entry m p t; Ok (inl (p, t)) else Ok (inr t)) (p, t).

Definition mpinit (fuel : nat) (m : mem) (t : mp_state) (s : S) : res (mp_state * S) :=
  c ← mpconfig m;
  match c with
  | None => Ok (t, s)
  | Some (conf, mp) =>
    let t := set_lapic (conf_lapicaddr m conf) (set_ismp 1 t) in
    t ← mp_walk fuel m (w32 (conf + conf_length m conf)) (w32 (conf + SIZEOF_MPCONF)) t;
    if ismp t =? 0 then Err Panicked
    else if negb (mp_imcrp m mp =? 0) then
      let s := outb 0x22 0x70 s in
      let '(v, s) := inb 0x23 s in
      Ok (t, outb 0x23 (Z.lor v 1) s)
    else Ok (t, s)
  end.
End mpinit.

(** ** The search

    The places where the code looks, in its order: the area named by the BIOS
    data area, which is the extended one or, without it, the last KiB of the base
    memory, and then the ROM from 0xF0000 to 0xFFFFF.  The comment above
    [mpsearch] names the ROM from 0xE0000 on; [rom_half_searched] states the
    difference. *)
Definition region (a len : Z) : list Z := (λ k, postmap_addr a + SIZEOF_MP * k) <$> seqZ 0 (len / SIZEOF_MP).
Definition ebda (m : mem) : Z := 16 * (256 * m (postmap_addr 0x40F) + m (postmap_addr 0x40E)).
Definition base_kb (m : mem) : Z := 256 * m (postmap_addr 0x414) + m (postmap_addr 0x413).
Definition candidates (m : mem) : list Z :=
  (if ebda m =? 0 then if base_kb m =? 0 then [] else region (1024 * (base_kb m - 1)) 1024 else region (ebda m) 1024) ++
  region 0xF0000 0x10000.
Definition mp_valid (m : mem) (p : Z) : bool := bytes_are m p sig_MP && (sum m p SIZEOF_MP =? 0).

(** The table that the kernel accepts. *)
Definition conf_valid (m : mem) (c : Z) : bool :=
  bytes_are m c sig_PCMP && ((conf_version m c =? 1) || (conf_version m c =? 4)) && (sum m c (conf_length m c) =? 0).
Definition the_table (m : mem) : option (Z * Z) :=
  mp ← List.find (mp_valid m) (candidates m);
  if mp_physaddr m mp =? 0 then None
  else let c := postmap_addr (mp_physaddr m mp) in if conf_valid m c then Some (c, mp) else None.

Lemma find_app {A} (f : A → bool) l k :
  List.find f (l ++ k) = match List.find f l with Some x => Some x | None => List.find f k end.
Proof. induction l as [|x l IH]; [done|]. simpl. by destruct (f x). Qed.

Lemma postmap_low a : 0 ≤ a < KERN_BASE → postmap_addr a = a + KERN_BASE.
Proof.
  intros Ha. unfold postmap_addr, KERN_BASE in *. rewrite (wrap_small 32 a) by (unfold fits; lia).
  destruct (Z.leb_spec 0x80000000 a); [lia|]. apply wrap_small. unfold fits. lia.
Qed.

Lemma mpsearch1_ok m a len : 0 ≤ a → 0 ≤ len → len mod 16 = 0 → a + len < KERN_BASE →
  mpsearch1 m a len = Ok (default 0 (List.find (mp_valid m) (region a len))).
Proof.
  intros Ha Hl Hm He. unfold mpsearch1, region, SIZEOF_MP. rewrite postmap_low by lia. unfold KERN_BASE in *.
  rewrite (wrap_small 32 (_ + len)) by (unfold fits; lia). cbv zeta.
  assert (∃ n : nat, len = 16 * Z.of_nat n) as [n ->].
  { exists (Z.to_nat (len / 16)). Z.div_mod_to_equations. lia. }
  rewrite (Z.mul_comm 16 (Z.of_nat n)), Z.div_mul, Nat2Z.id, Z.mul_comm by lia. clear Hl Hm.
  set (e := a + 0x80000000 + 16 * Z.of_nat n).
  assert (∀ k j, (k + j = n)%nat → loop (Datatypes.S k) (λ p,
      if p <? e then if bytes_are m p sig_MP && (sum m p 16 =? 0) then Ok (inr p) else Ok (inl (w32 (p + 16)))
      else Ok (inr 0)) (a + 0x80000000 + 16 * Z.of_nat j) =
    Ok (default 0 (List.find (mp_valid m) ((λ k, a + 0x80000000 + 16 * k) <$> seqZ (Z.of_nat j) (Z.of_nat k))))) as H.
  2: { replace (a + 0x80000000) with (a + 0x80000000 + 16 * Z.of_nat 0) at 1 by lia. by apply H. }
  induction k as [|k IH]; intros j Hj; cbn [loop].
  - rewrite (proj2 (Z.ltb_ge _ e)) by lia. done.
  - rewrite (proj2 (Z.ltb_lt _ e)) by lia. rewrite seqZ_cons by lia. cbn [fmap list_fmap List.find].
    change (bytes_are m (a + 0x80000000 + 16 * Z.of_nat j) sig_MP && (sum m (a + 0x80000000 + 16 * Z.of_nat j) 16 =? 0))
      with (mp_valid m (a + 0x80000000 + 16 * Z.of_nat j)).
    destruct (mp_valid m _); [done|]. cbn [mbind res_bind]. rewrite (wrap_small 32) by (unfold fits; lia).
    replace (a + 0x80000000 + 16 * Z.of_nat j + 16) with (a + 0x80000000 + 16 * Z.of_nat (Datatypes.S j)) by lia.
    replace (Z.succ (Z.of_nat j)) with (Z.of_nat (Datatypes.S j)) by lia.
    replace (Z.pred (Z.of_nat (Datatypes.S k))) with (Z.of_nat k) by lia. apply IH. lia.
Qed.

Lemma lor_bytes x y : 0 ≤ x → fits 8 y → Z.lor (Z.shiftl x 8) y = 256 * x + y.
Proof.
  intros Hx Hy. assert (Z.land (Z.shiftl x 8) y = 0) as H.
  { bitwise. destruct (decide (i < 8)).
    - by rewrite Z.testbit_neg_r by lia.
    - by rewrite (fits_testbit_high 8 y), andb_false_r by (done || lia). }
  rewrite <-Z.lxor_lor, <-Z.add_nocarry_lxor, Z.shiftl_mul_pow2 by (done || lia). lia.
Qed.

Section tables.
Context (m : mem) (Hm : ∀ a, fits 8 (m a)).

Lemma candidates_nonzero l1 p l2 : candidates m = l1 ++ p :: l2 → p ≠ 0.
Proof.
  intros E. assert (p ∈ candidates m) as Hp by (rewrite E; set_solver).
  assert (∀ a len, 0 ≤ a < KERN_BASE → p ∈ region a len → p ≠ 0) as Hr.
  { intros a len Ha Hin. unfold region in Hin. apply list_elem_of_fmap in Hin as (k & -> & Hk). apply elem_of_seqZ in Hk.
    rewrite postmap_low by done. unfold KERN_BASE, SIZEOF_MP in *. lia. }
  unfold candidates, ebda, base_kb in Hp. pose proof (Hm (postmap_addr 0x40F)). pose proof (Hm (postmap_addr 0x40E)).
  pose proof (Hm (postmap_addr 0x414)). pose proof (Hm (postmap_addr 0x413)). unfold fits in *.
  apply elem_of_app in Hp as [Hp|Hp]; [|eapply Hr; [|exact Hp]; done].
  destruct (Z.eqb_spec (16 * (256 * m (postmap_addr 0x40F) + m (postmap_addr 0x40E))) 0).
  - destruct (Z.eqb_spec (256 * m (postmap_addr 0x414) + m (postmap_addr 0x413)) 0); [by inversion Hp|].
    eapply Hr; [|exact Hp]. unfold KERN_BASE. lia.
  - eapply Hr; [|exact Hp]. unfold KERN_BASE. lia.
Qed.

Lemma mpsearch_ok : mpsearch m = Ok (default 0 (List.find (mp_valid m) (candidates m))).
Proof.
  unfold mpsearch. cbv zeta.
  change (postmap_addr 0x400 + 0x0F) with (postmap_addr 0x40F). change (postmap_addr 0x400 + 0x0E) with (postmap_addr 0x40E).
  change (postmap_addr 0x400 + 0x14) with (postmap_addr 0x414). change (postmap_addr 0x400 + 0x13) with (postmap_addr 0x413).
  pose proof (Hm (postmap_addr 0x40F)) as B1. pose proof (Hm (postmap_addr 0x40E)) as B2.
  pose proof (Hm (postmap_addr 0x414)) as B3. pose proof (Hm (postmap_addr 0x413)) as B4.
  rewrite !lor_bytes by (done || unfold fits in *; lia). rewrite Z.shiftl_mul_pow2, Z.mul_comm by lia.
  change (2 ^ 4 * (256 * m (postmap_addr 0x40F) + m (postmap_addr 0x40E))) with (ebda m).
  fold (base_kb m). assert (0 ≤ ebda m < 2 ^ 20 ∧ 0 ≤ base_kb m < 2 ^ 16) as [He Hb] by (unfold ebda, base_kb, fits in *; lia).
  assert (∀ l, candidates m = l ++ region 0xF0000 0x10000 →
    (mp ← Ok (default 0 (List.find (mp_valid m) l)); if negb (mp =? 0) then Ok mp else mpsearch1 m 0xF0000 0x10000) =
    Ok (default 0 (List.find (mp_valid m) (candidates m)))) as Hseq.
  { intros l El. rewrite El, find_app, mpsearch1_ok by done. cbn [mbind res_bind].
    destruct (List.find (mp_valid m) l) as [p|] eqn:Ef; cbn [from_option id]; [|done].
    apply List.find_some in Ef as [Hin _]. apply List.in_split in Hin as (l1 & l2 & ->).
    rewrite (proj2 (Z.eqb_neq p 0)); [done|]. apply (candidates_nonzero l1 p (l2 ++ region 0xF0000 0x10000)).
    by rewrite El, <-app_assoc. }
  unfold candidates in Hseq at 1. destruct (Z.eqb_spec (ebda m) 0) as [E0|E0]; cbn [negb].
  2: { rewrite (mpsearch1_ok m (ebda m)) by (done || unfold KERN_BASE; lia). by apply Hseq. }
  destruct (Z.eqb_spec (base_kb m) 0) as [E1|E1].
  - rewrite E1. change (mpsearch1 m (w32 (0 * 1024 - 1024)) 1024) with (Ok (default 0 (List.find (mp_valid m) []))). by apply Hseq.
  - rewrite (wrap_small 32) by (unfold fits; lia). replace (base_kb m * 1024 - 1024) with (1024 * (base_kb m - 1)) by lia.
    rewrite (mpsearch1_ok m (1024 * (base_kb m - 1))) by (done || unfold KERN_BASE; lia). by apply Hseq.
Qed.

(** The configuration table that is used is the one the specification means. *)
Lemma mpconfig_ok : mpconfig m = Ok (the_table m).
Proof.
  unfold mpconfig, the_table. rewrite mpsearch_ok. cbn [mbind res_bind].
  destruct (List.find (mp_valid m) (candidates m)) as [p|] eqn:Ef; cbn [from_option id mbind option_bind]; [|done].
  apply List.find_some in Ef as [Hin _]. apply List.in_split in Hin as (l1 & l2 & E).
  rewrite (proj2 (Z.eqb_neq p 0)) by (by apply (candidates_nonzero l1 p l2)). cbn [orb]. cbv zeta.
  destruct (mp_physaddr m p =? 0); [done|]. unfold conf_valid. destruct (bytes_are m _ sig_PCMP); [|done]. cbn [negb andb].
  destruct (conf_version m _ =? 1), (conf_version m _ =? 4); cbn [negb andb orb]; try done; by destruct (sum m _ _ =? 0).
Qed.
End tables.

(** ** The entries *)
Inductive entry := EProc (apicid : Z) | EIoapic (apicno : Z) | EOther (type : Z).
Definition entry_size (x : entry) : Z := match x with EProc _ => SIZEOF_MPPROC | _ => 8 end.
Definition entry_at (m : mem) (p : Z) (x : entry) : Prop :=
  match x with
  | EProc id => m p = MPPROC ∧ m (p + 1) = id
  | EIoapic id => m p = MPIOAPIC ∧ m (p + 1) = id
  | EOther ty => m p = ty ∧ (ty = MPBUS ∨ ty = MPIOINTR ∨ ty = MPLINTR)
  end.
Fixpoint table_at (m : mem) (p : Z) (es : list entry) : Prop :=
  match es with [] => True | x :: es => entry_at m p x ∧ table_at m (p + entry_size x) es end.
Fixpoint table_size (es : list entry) : Z := match es with [] => 0 | x :: es => entry_size x + table_size es end.

Fixpoint processors (es : list entry) : list Z :=
  match es with [] => [] | EProc id :: es => id :: processors es | _ :: es => processors es end.
Fixpoint controller (es : list entry) (old : Z) : Z :=
  match es with [] => old | EIoapic id :: es => controller es id | _ :: es => controller es old end.

Section walk.
Context (cpus : nat) (m : mem).
Implicit Types t : mp_state.

(** The state after the entries [es]. *)
Definition collect (es : list entry) t : mp_state :=
  let n := Z.to_nat (ncpu t) in let ids := processors es in
  MpState (ismp t) (Z.of_nat (Nat.min cpus (n + length ids))) (controller es (ioapicid t)) (lapic t)
    (take cpus (take n (apicids t) ++ ids ++ drop (n + length ids) (apicids t))).

Definition state_ok t : Prop := 0 ≤ ncpu t ≤ Z.of_nat cpus ∧ length (apicids t) = cpus.

Lemma table_size_pos es : 0 ≤ table_size es.
Proof. induction es as [|[] es IH]; simpl; unfold SIZEOF_MPPROC; lia. Qed.

Lemma collect_nil t : state_ok t → collect [] t = t.
Proof.
  intros [Hn Hl]. destruct t as [i n o l ids]. cbn in *. unfold collect. cbn. f_equal.
  - lia.
  - rewrite Nat.add_0_r, take_drop, take_ge by lia. done.
Qed.

Lemma entry_step p x t : state_ok t → 0 ≤ p → p + entry_size x < 2 ^ 32 → entry_at m p x →
  ∃ t', mp_entry (Z.of_nat cpus) m p t = Ok (p + entry_size x, t') ∧ state_ok t' ∧ ∀ es, collect es t' = collect (x :: es) t.
Proof.
  intros [Hn Hl] Hp He Hx. unfold mp_entry. destruct x as [id|id|ty]; cbn [entry_at entry_size] in *.
  - destruct Hx as [-> Hid]. cbn [Z.eqb MPPROC]. unfold mpproc_apicid. rewrite Hid. unfold SIZEOF_MPPROC in *.
    rewrite (wrap_small 32) by (unfold fits; lia).
    destruct (Z.ltb_spec (ncpu t) (Z.of_nat cpus)).
    + rewrite wr_ok by lia. cbn [mbind res_bind]. eexists. split; [done|]. split.
      { split; cbn [ncpu apicids set_ncpu set_apicids]; [lia|by rewrite length_insert]. }
      intros es. unfold collect. cbn [ismp ncpu ioapicid lapic apicids set_ncpu set_apicids processors controller length].
      replace (Z.to_nat (ncpu t + 1)) with (Datatypes.S (Z.to_nat (ncpu t))) by lia.
      set (n := Z.to_nat (ncpu t)). assert (n < length (apicids t))%nat as Hlt by lia. f_equal; [f_equal; lia|]. f_equal.
      rewrite (take_S_r _ n id) by (by apply list_lookup_insert_eq). rewrite take_insert_ge by lia.
      rewrite <-app_assoc. cbn [app]. rewrite drop_insert_lt by lia.
      replace (n + Datatypes.S (length (processors es)))%nat with (Datatypes.S n + length (processors es))%nat by lia. done.
    + cbn [mbind res_bind]. eexists. split; [done|]. split; [done|]. intros es. unfold collect. cbn [processors controller length].
      f_equal; [lia|]. rewrite !(take_app_le _ _ cpus) by (rewrite length_take; lia). done.
  - destruct Hx as [-> Hid]. cbn [Z.eqb MPIOAPIC MPPROC]. unfold mpioapic_apicno. rewrite Hid. unfold SIZEOF_MPIOAPIC.
    rewrite (wrap_small 32) by (unfold fits; lia). eexists. split; [done|]. done.
  - destruct Hx as [Hty Hor]. rewrite (wrap_small 32 (p + 8)) by (unfold fits; lia). exists t.
    rewrite Hty. by destruct Hor as [->|[->| ->]].
Qed.

Lemma mp_walk_ok es p t fuel e : state_ok t → 0 ≤ p → p + table_size es < 2 ^ 32 → table_at m p es →
  p + table_size es ≤ e → (length es < fuel)%nat →
  mp_walk (Z.of_nat cpus) fuel m e p t =
    mp_walk (Z.of_nat cpus) (fuel - length es) m e (p + table_size es) (collect es t).
Proof.
  revert p t fuel. induction es as [|x es IH]; intros p t fuel Ht Hp He Hx Hle Hf.
  { cbn [length table_size]. rewrite collect_nil, Z.add_0_r, Nat.sub_0_r by done. done. }
  destruct fuel as [|fuel]; [lia|]. cbn [length table_size table_at] in *. destruct Hx as [Hx Hxs].
  pose proof (table_size_pos es). assert (0 < entry_size x) by (by destruct x).
  destruct (entry_step p x t Ht Hp ltac:(lia) Hx) as (t' & E & Ht' & Hc).
  unfold mp_walk at 1. cbn [loop]. rewrite (proj2 (Z.ltb_lt p e)) by lia. rewrite E. cbn [mbind res_bind].
  fold (mp_walk (Z.of_nat cpus) fuel m e (p + entry_size x) t').
  rewrite (IH _ _ fuel Ht') by (done || lia). rewrite Hc. cbn [Nat.sub]. f_equal. lia.
Qed.

Definition unknown (ty : Z) : Prop := ty ∉ [MPPROC; MPBUS; MPIOAPIC; MPIOINTR; MPLINTR].

Lemma mp_entry_unknown p t : unknown (m p) → mp_entry (Z.of_nat cpus) m p t = Ok (p, set_ismp 0 t).
Proof.
  intros Hu. unfold mp_entry. rewrite !(proj2 (Z.eqb_neq (m p) _)) by (intros E; apply Hu; rewrite E; set_solver). done.
Qed.

Lemma mp_walk_stuck es p t fuel e : state_ok t → 0 ≤ p → p + table_size es < 2 ^ 32 → table_at m p es →
  p + table_size es < e → unknown (m (p + table_size es)) → mp_walk (Z.of_nat cpus) fuel m e p t = Err OutOfFuel.
Proof.
  revert p t fuel. induction es as [|x es IH]; intros p t fuel Ht Hp He Hx Hle Hu; cbn [table_size table_at] in *.
  - rewrite Z.add_0_r in *. clear Ht. revert t. induction fuel as [|fuel IHf]; intros t; [done|].
    unfold mp_walk. cbn [loop]. rewrite (proj2 (Z.ltb_lt p e)), mp_entry_unknown by done. apply IHf.
  - destruct fuel as [|fuel]; [done|]. destruct Hx as [Hx Hxs]. pose proof (table_size_pos es). assert (0 < entry_size x) by (by destruct x).
    destruct (entry_step p x t Ht Hp ltac:(lia) Hx) as (t' & E & Ht' & _).
    unfold mp_walk. cbn [loop]. rewrite (proj2 (Z.ltb_lt p e)) by lia. rewrite E. cbn [mbind res_bind].
    rewrite Z.add_assoc in Hu, Hle, He. apply (IH (p + entry_size x) t'); (done || lia).
Qed.
End walk.

Lemma the_table_conf m c p : the_table m = Some (c, p) → 0 ≤ c.
Proof.
  unfold the_table. destruct (List.find _ _) as [q|]; [|done]. cbn [mbind option_bind].
  destruct (mp_physaddr m q =? 0); [done|]. cbv zeta. destruct (conf_valid _ _); [|done]. intros [= <- <-].
  unfold postmap_addr. destruct (_ <=? _); by apply wrap_fits.
Qed.

(** What [mpinit] tells the interrupt controller. *)
Definition imcr {S} `{Ports S} (m : mem) (mp : Z) (s : S) : S :=
  if mp_imcrp m mp =? 0 then s
  else let '(v, s) := inb 0x23 (outb 0x22 0x70 s) in outb 0x23 (Z.lor v 1) s.

(** The lower half of the ROM area that the comment above [mpsearch] names is not
    searched: a structure there is not found, unless the BIOS data area points to
    it. *)
Theorem rom_half_searched m p : (∀ a, fits 8 (m a)) → (if ebda m =? 0 then base_kb m ≤ 640 else ebda m + 1024 ≤ 0xE0000) →
  postmap_addr 0xE0000 ≤ p < postmap_addr 0xF0000 → p ∉ candidates m.
Proof.
  intros Hm Hb Hp Hin. rewrite !postmap_low in Hp by done.
  assert (∀ a len, 0 ≤ a < KERN_BASE → 0 ≤ len → p ∈ region a len → a + KERN_BASE ≤ p < a + len + KERN_BASE) as Hr.
  { intros a len Ha Hl Hr. unfold region in Hr. apply list_elem_of_fmap in Hr as (k & -> & Hk). apply elem_of_seqZ in Hk.
    rewrite postmap_low by done. unfold SIZEOF_MP in *. pose proof (Z.mul_div_le len 16). lia. }
  pose proof (Hm (postmap_addr 0x40F)). pose proof (Hm (postmap_addr 0x40E)). pose proof (Hm (postmap_addr 0x414)). pose proof (Hm (postmap_addr 0x413)).
  unfold candidates in Hin. apply elem_of_app in Hin as [Hin|Hin]; [|apply Hr in Hin; [lia|done|done]].
  unfold ebda, base_kb, fits in *. case_match eqn:E0; [case_match eqn:E1; [by inversion Hin|]|];
    rewrite Z.eqb_neq in *; rewrite ?Z.eqb_eq in *; (apply Hr in Hin; [lia|unfold KERN_BASE; lia|lia]).
Qed.

(** C35. Discovery of the processors ([mpinit]): the table used is that of the
    first valid floating pointer structure in the order of the search: the first
    KiB of the extended BIOS data area or, without one, the last KiB of base
    memory, then the ROM from 0xF0000 to 0xFFFFF (the comment above [mpsearch] says
    from 0xE0000; what lies below 0xF0000 is not searched, theorem
    [rom_half_searched]); when it is valid, the numbers of its processors are stored in order, as many as the
    kernel is configured for, the last I/O controller of the table is the one
    used, the address of the local controllers is taken over, and external
    interrupts are masked if the structure asks for it.  Without a valid table
    nothing changes.  An entry of an unknown type makes the walk run forever. *)
Theorem mpinit_correct {S} `{P : Ports S} cpus m t (s : S) :
  (∀ a, fits 8 (m a)) → ncpu t = 0 → length (apicids t) = cpus →
  (∀ fuel, the_table m = None → mpinit (Z.of_nat cpus) fuel m t s = Ok (t, s)) ∧
  ∀ conf mp es, the_table m = Some (conf, mp) → conf + conf_length m conf < 2 ^ 32 → table_at m (conf + SIZEOF_MPCONF) es →
  (∀ fuel, conf_length m conf = SIZEOF_MPCONF + table_size es → (length es < fuel)%nat →
   wp (mpinit (Z.of_nat cpus) fuel m t s) (λ '(t', s'),
     ncpu t' = Z.min (Z.of_nat cpus) (Z.of_nat (length (processors es))) ∧
     apicids t' = take cpus (processors es ++ drop (length (processors es)) (apicids t)) ∧
     ioapicid t' = controller es (ioapicid t) ∧ lapic t' = conf_lapicaddr m conf ∧ ismp t' = 1 ∧ s' = imcr m mp s)) ∧
  (∀ fuel, SIZEOF_MPCONF + table_size es < conf_length m conf → unknown (m (conf + SIZEOF_MPCONF + table_size es)) →
   mpinit (Z.of_nat cpus) fuel m t s = Err OutOfFuel).
Proof.
  intros Hm Hn Hl. unfold mpinit. rewrite mpconfig_ok by done. cbn [mbind res_bind]. split; [by intros fuel ->|].
  intros conf mp es Ht Hb Hes. rewrite Ht. pose proof (the_table_conf m conf mp Ht) as Hc. pose proof (table_size_pos es).
  set (t0 := set_lapic (conf_lapicaddr m conf) (set_ismp 1 t)).
  assert (state_ok cpus t0) as Hok by (split; [cbn; lia|done]). unfold SIZEOF_MPCONF in *. cbv zeta.
  split; intros fuel Hlen.
  - intros Hf. rewrite (wrap_small 32 (conf + 44)), (wrap_small 32 (conf + _)) by (unfold fits; lia). apply wp_bind.
    rewrite (mp_walk_ok cpus m es) by (done || lia). destruct (fuel - length es)%nat as [|k] eqn:Ek; [lia|].
    unfold mp_walk. cbn [loop]. rewrite (proj2 (Z.ltb_ge _ _)) by lia. cbn [mbind res_bind wp].
    unfold collect. cbn [ismp ncpu apicids ioapicid lapic t0 set_lapic set_ismp Z.eqb]. rewrite Hn. cbn [Z.to_nat Nat.add take app].
    unfold imcr. destruct (mp_imcrp m mp =? 0); cbn [negb]; [|destruct (inb 0x23 _) as [v s']]; apply wp_ok; split_and!; try done; cbn; lia.
  - intros Hu. rewrite (wrap_small 32 (conf + 44)), (wrap_small 32 (conf + _)) by (unfold fits; lia).
    rewrite (mp_walk_stuck cpus m es) by (done || lia). done.
Qed.

(** ** Tables in the BIOS area with two processors, a bus and a controller. *)
Definition demo_tables : list Z :=
  sig_MP ++ [0x10; 0; 0x0F; 0; 1; 4; 1; 0; 0x80; 0; 0; 0] ++
  sig_PCMP ++ [100; 0; 4; 132] ++ replicate 28 0 ++ [0; 0; 0xE0; 0xFE; 0; 0; 0; 0] ++
  [0; 0] ++ replicate 18 0 ++ [0; 1] ++ replicate 18 0 ++ [1; 0] ++ replicate 6 0 ++ [2; 2] ++ replicate 6 0.
Definition demo_bios : mem := λ a, at_ demo_tables (a - (0xF0000 + KERN_BASE)).

Lemma mpinit_correct_witness :
  wp (mpinit 4 5 demo_bios (MpState 0 0 0 0 [9; 9; 9; 9]) (SimDisk (λ _, 0) [] 0)) (λ '(t', _),
    t' = MpState 1 2 2 0xFEE00000 [0; 1; 9; 9]).
Proof.
  destruct (mpinit_correct 4 demo_bios (MpState 0 0 0 0 [9; 9; 9; 9]) (SimDisk (λ _, 0) [] 0)) as [_ H].
  - intros a. apply at_fits; [lia|]. apply (bool_decide_unpack _). by vm_compute.
  - done.
  - done.
  - destruct (H (0xF0010 + KERN_BASE) (0xF0000 + KERN_BASE) [EProc 0; EProc 1; EOther 1; EIoapic 2]) as [H1 _].
    + by vm_compute.
    + by vm_compute.
    + repeat split; try (by vm_compute). by left.
    + eapply wp_mono; [apply (H1 5%nat); [by vm_compute|simpl; lia]|].
      intros [[i n o l ids] s'] (E1 & E2 & E3 & E4 & E5 & _). cbn in *. by subst.
Defined.
