(* ===== verification/I386.v ===== *)
(** * The processor of the PC

    Parts of the i386 port: segment descriptors (include/arch/i386/arch-mmu.h,
    kern/arch/i386/arch_early_init.c), interrupt gates and the dispatch of traps
    (arch-trap.h, kern/arch/i386/arch_trap.c), the boot page directory of 4 MiB
    pages (kern/arch/i386/arch_mmu.c), and the spinlock and semaphore
    (arch-sync.h). *)
From S2P Require Import Prelude Util EarlyKmmap.

(** ** Segments *)
Definition SEG_KCODE : Z := 1.
Definition SEG_KDATA : Z := 2.
Definition SEG_UCODE : Z := 4.
Definition SEG_UDATA : Z := 5.
Definition NSEGS : nat := 7.
Definition DPL_KERNEL : Z := 0.
Definition DPL_USER : Z := 3.
Definition STA_X : Z := 8.
Definition STA_W : Z := 2.
Definition STA_R : Z := 2.
Definition STS_IG32 : Z := 0xE.
Definition STS_TG32 : Z := 0xF.

(** [struct segdesc]: the bit fields in the order of the declaration. *)
Record segdesc := SegDesc {
  lim_15_0 : Z; sd_base_15_0 : Z; sd_base_23_16 : Z; sd_type : Z; sd_s : Z; sd_dpl : Z; sd_p : Z;
  lim_19_16 : Z; sd_avl : Z; sd_rsv1 : Z; sd_db : Z; sd_g : Z; sd_base_31_24 : Z }.

(** The macros [SEG] and [SEG16]; a bit field keeps the low bits of its value,
    and [base] is widened to the 64 bits of [addr_t]. *)
Definition SEG (type base lim dpl : Z) : segdesc :=
  SegDesc (wrap 16 (Z.land (Z.shiftr lim 12) 0xffff)) (wrap 16 (Z.land base 0xffff)) (wrap 8 (Z.land (Z.shiftr base 16) 0xff))
    (wrap 4 type) 1 (wrap 2 dpl) 1 (wrap 4 (Z.shiftr lim 28)) 0 0 1 1 (wrap 8 (Z.shiftr base 24)).
Definition SEG16 (type base lim dpl : Z) : segdesc :=
  SegDesc (wrap 16 (Z.land lim 0xffff)) (wrap 16 (Z.land base 0xffff)) (wrap 8 (Z.land (Z.shiftr base 16) 0xff))
    (wrap 4 type) 1 (wrap 2 dpl) 1 (wrap 4 (Z.shiftr lim 16)) 0 0 1 0 (wrap 8 (Z.shiftr base 24)).

(** [load_segment]; the descriptors 0, 3 and 6 keep their content. *)
Definition load_segment (gdt : list segdesc) : list segdesc :=
  let gdt := <[Z.to_nat SEG_KCODE := SEG (Z.lor STA_X STA_R) 0 0xffffffff 0]> gdt in
  let gdt := <[Z.to_nat SEG_KDATA := SEG STA_W 0 0xffffffff 0]> gdt in
  let gdt := <[Z.to_nat SEG_UCODE := SEG (Z.lor STA_X STA_R) 0 0xffffffff DPL_USER]> gdt in
  <[Z.to_nat SEG_UDATA := SEG STA_W 0 0xffffffff DPL_USER]> gdt.

(** What the processor makes of a descriptor: its base and its last offset. *)
Definition seg_base (d : segdesc) : Z := sd_base_15_0 d + 2 ^ 16 * sd_base_23_16 d + 2 ^ 24 * sd_base_31_24 d.
Definition seg_limit (d : segdesc) : Z :=
  let l := lim_15_0 d + 2 ^ 16 * lim_19_16 d in if sd_g d =? 1 then 4096 * l + 4095 else l.

(** ** Gates *)
Definition IDT_ENTRY_NUM : nat := 256.
Definition T_SYSCALL : Z := 64.
Definition T_PANIC : Z := 80.
Definition T_IRQ0 : Z := 32.
Definition IRQ_TIMER : Z := 0.
Definition IRQ_KBD : Z := 1.
Definition IRQ_COM1 : Z := 4.
Definition IRQ_IDE : Z := 14.
Definition IRQ_ERROR : Z := 19.
Definition IRQ_SPURIOUS : Z := 31.

Record gatedesc := GateDesc {
  offset_15_0 : Z; gd_segment : Z; gd_pad0 : Z; gd_type : Z; gd_system : Z; privilege_level : Z; gd_present : Z; offset_31_16 : Z }.

Definition set_gate (selector offset dpl : Z) (trap : bool) : gatedesc :=
  GateDesc (wrap 16 (Z.land offset 0xFFFF)) (wrap 16 selector) 0 (wrap 4 (if trap then STS_TG32 else STS_IG32)) 0 (wrap 2 dpl) 1
    (wrap 16 (Z.land (Z.shiftr offset 16) 0xFFFF)).

Definition trap_init (vectors : list Z) (idt : list gatedesc) : res (list gatedesc) :=
  let body (idt : list gatedesc) (i : Z) dpl trap :=
    v ← rd vectors i;
    if bool_decide (Z.to_nat i < length idt)%nat
    then Ok (<[Z.to_nat i := set_gate (Z.shiftl SEG_KCODE 3) (w32 v) dpl trap]> idt) else Err BadPtr in
  idt ← loop (S IDT_ENTRY_NUM) (λ '(i, idt),
    if i <? Z.of_nat IDT_ENTRY_NUM then idt ← body idt i DPL_KERNEL false; Ok (inl (i + 1, idt)) else Ok (inr idt)) (0, idt);
  body idt T_SYSCALL DPL_USER true.

Definition gate_offset (g : gatedesc) : Z := offset_15_0 g + 2 ^ 16 * offset_31_16 g.

(** The members of [struct trapframe] that the dispatch reads, and what
    [trap_exec] does: stop this processor, call one of the two handlers and
    return from the trap, or panic. *)
Record trapframe := TrapFrame { tf_trapno : Z; tf_eax : Z; tf_ebx : Z; tf_ecx : Z; tf_edx : Z; tf_esi : Z; tf_edi : Z; tf_ebp : Z }.
Inductive trap_action := Halt | HandleSyscall (number : Z) (args : list Z) | HandleInterrupt (number : Z).
Definition trap_exec (tf : trapframe) : res trap_action :=
  if tf_trapno tf =? T_PANIC then Ok Halt
  else if tf_trapno tf =? T_SYSCALL
  then Ok (HandleSyscall (tf_eax tf) [tf_ebx tf; tf_ecx tf; tf_edx tf; tf_esi tf; tf_edi tf; tf_ebp tf])
  else
    let irqno := sgn 32 (tf_trapno tf - T_IRQ0) in
    if (irqno =? IRQ_TIMER) || (irqno =? IRQ_KBD) || (irqno =? IRQ_COM1) || (irqno =? IRQ_IDE) || (irqno =? IRQ_ERROR) || (irqno =? IRQ_SPURIOUS)
    then Ok (HandleInterrupt (tf_trapno tf)) else Err Panicked.

(** ** The boot page directory *)
Definition PGSIZE2 : Z := 0x400000.
Definition PTE_P : Z := 0x001.
Definition PTE_W : Z := 0x002.
Definition PTE_PS : Z := 0x080.
Definition i386_PDX (va : Z) : Z := Z.land (Z.shiftr (w32 va) 22) 0x3FF.
Definition PGROUNDDOWN2 (a : Z) : Z := Z.land a (w32 (Z.lnot (PGSIZE2 - 1))).

Definition i386_page_index_clear (pgindex : list Z) : list Z := replicate 1024 0.

(** The loop runs [(last - a) / PGSIZE2] times: both ends are multiples. *)
Fixpoint early_map_loop (n : nat) (a last paddr : Z) (pgindex : list Z) : Z * list Z :=
  match n with
  | O => (0, pgindex)
  | S n =>
    if a <? last then
      let k := Z.to_nat (i386_PDX a) in
      if negb (Z.land (at_ pgindex (i386_PDX a)) PTE_P =? 0) then (-1, pgindex)
      else
        let pgindex := <[k := w32 (Z.lxor paddr (Z.land paddr 0xfff))]> pgindex in
        let pgindex := <[k := Z.lor (at_ pgindex (i386_PDX a)) (Z.lor (Z.lor PTE_P PTE_W) PTE_PS)]> pgindex in
        early_map_loop n (w32 (a + PGSIZE2)) last (w64 (paddr + PGSIZE2)) pgindex
    else (0, pgindex)
  end.
Definition i386_page_index_early_map (pgindex : list Z) (paddr vaddr size : Z) : Z * list Z :=
  let a := PGROUNDDOWN2 (w32 vaddr) in
  let last := PGROUNDDOWN2 (w32 (w32 vaddr + size)) in
  early_map_loop (Z.to_nat ((last - a) / PGSIZE2)) a last paddr pgindex.

(** What the processor makes of the directory for an address, with 4 MiB pages. *)
Definition translate (pgindex : list Z) (va : Z) : option Z :=
  let pde := at_ pgindex (va / PGSIZE2) in
  if Z.testbit pde 0 && Z.testbit pde 7 then Some (PGSIZE2 * (pde / PGSIZE2) + va mod PGSIZE2) else None.

(** ** Locks: [xchg] is atomic. *)
Definition UNLOCKED : Z := 0.
Definition LOCKED : Z := 1.
Definition xchg (newval word : Z) : Z * Z := (word, newval).
Definition i386_spin_is_locked (word : Z) : bool := word =? LOCKED.

Inductive cpu_pc := Outside | Inside.
Record xlock := XLock { x_word : Z; x_cpus : list cpu_pc }.
(** One turn of [while (xchg(lock, LOCKED) != 0)], and [xchg(lock, UNLOCKED)]. *)
Definition spin_turn (word : Z) : Z * cpu_pc := let '(r, w) := xchg LOCKED word in (w, if negb (r =? 0) then Outside else Inside).
Definition x_unlock (word : Z) : Z := let '(_, w) := xchg UNLOCKED word in w.
Inductive xstep : xlock → xlock → Prop :=
| xstep_turn w ps i w' p' : ps !! i = Some Outside → spin_turn w = (w', p') → xstep (XLock w ps) (XLock w' (<[i := p']> ps))
| xstep_unlock w ps i : ps !! i = Some Inside → xstep (XLock w ps) (XLock (x_unlock w) (<[i := Outside]> ps)).
Definition x_initial (n : nat) : xlock := XLock UNLOCKED (replicate n Outside).

(** ** Descriptors *)
Lemma land_low n x : 0 ≤ n → Z.land x (2 ^ n - 1) = x mod 2 ^ n.
Proof. intros Hn. rewrite <-Z.land_ones by done. by rewrite Z.ones_equiv, Z.sub_1_r. Qed.

Lemma seg_fields_ok type base lim dpl : fits 32 base → fits 32 lim →
  seg_base (SEG type base lim dpl) = base ∧ seg_limit (SEG type base lim dpl) = 4096 * (lim / 4096) + 4095 ∧
  seg_base (SEG16 type base lim dpl) = base ∧ seg_limit (SEG16 type base lim dpl) = lim mod 2 ^ 20.
Proof.
  intros Hb Hl. unfold seg_base, seg_limit, SEG, SEG16. cbn -[Z.mul Z.pow Z.div Z.modulo wrap Z.land Z.shiftr].
  change 0xffff with (2 ^ 16 - 1). change 0xff with (2 ^ 8 - 1). rewrite !land_low, !Z.shiftr_div_pow2 by lia.
  unfold wrap, fits in *. change (2 ^ 4) with 16. change (2 ^ 8) with 256. change (2 ^ 12) with 4096. change (2 ^ 16) with 65536.
  change (2 ^ 20) with 1048576. change (2 ^ 24) with 16777216. change (2 ^ 28) with 268435456. change (2 ^ 32) with 4294967296 in *.
  split_and!; Z.div_mod_to_equations; lia.
Qed.

Lemma segment_table_ok gdt i dpl : length gdt = NSEGS → (i, dpl) ∈ [(1, 0); (2, 0); (4, 3); (5, 3)]%nat →
  ∃ d, load_segment gdt !! i = Some d ∧ seg_base d = 0 ∧ seg_limit d = 2 ^ 32 - 1 ∧ sd_dpl d = Z.of_nat dpl ∧ sd_p d = 1.
Proof.
  intros Hl Hi. do 7 (destruct gdt as [|? gdt]; [done|]). destruct gdt; [|done].
  apply list_elem_of_In in Hi. cbn in Hi. destruct Hi as [[= <- <-]|[[= <- <-]|[[= <- <-]|[[= <- <-]|[]]]]];
    (eexists; split; [reflexivity|by vm_compute]).
Qed.

(** The gate that a vector [v] gets. *)
Definition gate_ok (v dpl : Z) (trap : bool) (g : gatedesc) : Prop :=
  gate_offset g = v ∧ gd_segment g = 8 ∧ gd_present g = 1 ∧ gd_type g = (if trap then STS_TG32 else STS_IG32) ∧ privilege_level g = dpl.

Lemma set_gate_ok v dpl trap : fits 32 v → 0 ≤ dpl < 4 → gate_ok v dpl trap (set_gate (Z.shiftl SEG_KCODE 3) (w32 v) dpl trap).
Proof.
  intros Hv Hd. rewrite (wrap_small 32) by done. unfold gate_ok, gate_offset, set_gate.
  cbn -[Z.mul Z.pow Z.div Z.modulo wrap Z.land Z.shiftr]. change 0xffff with (2 ^ 16 - 1). rewrite !land_low, !Z.shiftr_div_pow2 by lia.
  split_and!; [|done|done|by destruct trap|by apply wrap_small].
  unfold wrap, fits in *. change (2 ^ 16) with 65536. change (2 ^ 32) with 4294967296 in *. Z.div_mod_to_equations; lia.
Qed.

Lemma trap_init_ok vectors idt : length vectors = IDT_ENTRY_NUM → Forall (fits 32) vectors → length idt = IDT_ENTRY_NUM →
  wp (trap_init vectors idt) (λ idt', length idt' = IDT_ENTRY_NUM ∧ ∀ i v, vectors !! i = Some v →
    ∃ g, idt' !! i = Some g ∧ if Nat.eqb i 64 then gate_ok v DPL_USER true g else gate_ok v DPL_KERNEL false g).
Proof.
  intros Hv Hf Hl. unfold trap_init. cbv zeta. apply wp_bind.
  apply wp_mono with (λ idt', length idt' = IDT_ENTRY_NUM ∧
    ∀ i v, vectors !! i = Some v → ∃ g, idt' !! i = Some g ∧ gate_ok v DPL_KERNEL false g).
  - apply (wp_loop _ (λ '(i, d), 0 ≤ i ≤ 256 ∧ length d = IDT_ENTRY_NUM ∧
      ∀ j v, vectors !! j = Some v → Z.of_nat j < i → ∃ g, d !! j = Some g ∧ gate_ok v DPL_KERNEL false g) (λ '(i, _), Z.to_nat (256 - i))).
    + intros [i d] (Hi & Hd & Hg). change (Z.of_nat IDT_ENTRY_NUM) with 256. unfold IDT_ENTRY_NUM in *. destruct (Z.ltb_spec i 256) as [Hlt|Hge].
      * destruct (lookup_lt_is_Some_2 vectors (Z.to_nat i)) as [v Hvi]; [lia|].
        rewrite rd_ok by lia. unfold at_. rewrite (proj2 (Z.leb_le 0 i)), Hvi by lia. cbn [from_option id mbind res_bind].
        rewrite bool_decide_true by lia. cbn [mbind res_bind]. apply wp_ok. split; [|lia]. split; [lia|].
        split; [by rewrite length_insert|]. intros j w Hj Hji. destruct (decide (j = Z.to_nat i)) as [->|Hne].
        -- rewrite Hvi in Hj. injection Hj as <-. eexists. split; [apply list_lookup_insert_eq; lia|].
           apply set_gate_ok; [by eapply Forall_lookup_1|done].
        -- rewrite list_lookup_insert_ne by done. apply Hg; [done|lia].
      * apply wp_ok. split; [done|]. intros j v Hj. apply Hg; [done|]. apply lookup_lt_Some in Hj. lia.
    + split; [lia|]. split; [done|]. lia.
    + unfold IDT_ENTRY_NUM. lia.
  - intros d (Hd & Hg). unfold IDT_ENTRY_NUM in *. destruct (lookup_lt_is_Some_2 vectors 64) as [v H64]; [lia|].
    change (rd vectors T_SYSCALL) with (of_option BadPtr (vectors !! 64%nat)). rewrite H64. cbn [of_option mbind res_bind].
    rewrite bool_decide_true by (unfold T_SYSCALL; lia). apply wp_ok. change (Z.to_nat T_SYSCALL) with 64%nat.
    split; [by rewrite length_insert|]. intros i w Hi. destruct (Nat.eqb_spec i 64) as [->|Hne].
    + rewrite H64 in Hi. injection Hi as <-. eexists. split; [apply list_lookup_insert_eq; lia|].
      apply set_gate_ok; [by eapply Forall_lookup_1|done].
    + rewrite list_lookup_insert_ne by done. by apply Hg.
Qed.

(** The descriptors of the i386 port: what the processor reads from the
    bit fields of [SEG], [SEG16] and [set_gate] is the base, the limit (to the
    granularity of the descriptor) and the handler address that were given; after
    [load_segment] the kernel and user segments cover the whole address space
    with their privilege; after [trap_init] the gate of every vector leads to its
    handler in the kernel's code segment with interrupts off, and the system call
    gate alone is open to user programs. *)
Theorem descriptors_correct :
  (∀ type base lim dpl, fits 32 base → fits 32 lim →
     seg_base (SEG type base lim dpl) = base ∧ seg_limit (SEG type base lim dpl) = 4096 * (lim / 4096) + 4095 ∧
     seg_base (SEG16 type base lim dpl) = base ∧ seg_limit (SEG16 type base lim dpl) = lim mod 2 ^ 20) ∧
  (∀ gdt i dpl, length gdt = NSEGS → (i, dpl) ∈ [(1, 0); (2, 0); (4, 3); (5, 3)]%nat →
     ∃ d, load_segment gdt !! i = Some d ∧ seg_base d = 0 ∧ seg_limit d = 2 ^ 32 - 1 ∧ sd_dpl d = Z.of_nat dpl ∧ sd_p d = 1) ∧
  (∀ vectors idt, length vectors = IDT_ENTRY_NUM → Forall (fits 32) vectors → length idt = IDT_ENTRY_NUM →
     wp (trap_init vectors idt) (λ idt', length idt' = IDT_ENTRY_NUM ∧ ∀ i v, vectors !! i = Some v →
       ∃ g, idt' !! i = Some g ∧ if Nat.eqb i 64 then gate_ok v DPL_USER true g else gate_ok v DPL_KERNEL false g)).
Proof.
  split_and!; [apply seg_fields_ok|apply segment_table_ok|apply trap_init_ok].
Qed.

Lemma descriptors_correct_witness :
  seg_base (SEG STA_W 0x12345678 0xfffff 0) = 0x12345678 ∧ seg_limit (SEG STA_W 0x12345678 0xfffff 0) = 0xfffff ∧
  wp (trap_init (replicate 256 0x80101234) (replicate 256 (set_gate 0 0 0 false))) (λ idt, ∃ g, idt !! 64%nat = Some g ∧ gate_offset g = 0x80101234).
Proof.
  destruct descriptors_correct as (H1 & _ & H3).
  destruct (H1 STA_W 0x12345678 0xfffff 0) as (E1 & E2 & _); [by unfold fits|by unfold fits|].
  split; [exact E1|]. split; [exact E2|].
  eapply wp_mono; [apply H3; [done| |done]|].
  - by apply Forall_replicate.
  - intros idt [_ Hi]. destruct (Hi 64%nat 0x80101234 eq_refl) as (g & Hg & Ho & _). by exists g.
Defined.

(** ** Large pages *)
Lemma i386_PDX_div a : fits 32 a → i386_PDX a = a / PGSIZE2.
Proof.
  intros Ha. unfold i386_PDX, PGSIZE2. rewrite (wrap_small 32) by done. change 0x3FF with (2 ^ 10 - 1).
  rewrite land_low, Z.shiftr_div_pow2 by lia. change (2 ^ 22) with 0x400000. change (2 ^ 10) with 1024.
  unfold fits in Ha. Z.div_mod_to_equations; lia.
Qed.

Lemma PGROUNDDOWN2_div a : fits 32 a → PGROUNDDOWN2 a = PGSIZE2 * (a / PGSIZE2).
Proof.
  intros Ha. unfold PGROUNDDOWN2, PGSIZE2. change (w32 (Z.lnot (0x400000 - 1))) with (Z.shiftl (Z.ones 10) 22).
  change 0x400000 with (2 ^ 22). rewrite Z.mul_comm, <-Z.shiftr_div_pow2, <-Z.shiftl_mul_pow2 by lia.
  apply Z.bits_inj'. intros i Hi. rewrite Z.land_spec, !Z.shiftl_spec by done. destruct (decide (i < 22)).
  - rewrite !(Z.testbit_neg_r _ (i - 22)) by lia. by rewrite andb_false_r.
  - rewrite Z.shiftr_spec, ones_testbit, Z.sub_add by lia. destruct (Z.ltb_spec (i - 22) 10); [by rewrite andb_true_r|].
    by rewrite (fits_testbit_high 32 a) by (done || lia).
Qed.

Lemma PGROUNDDOWN2_aligned a : fits 32 a → a mod PGSIZE2 = 0 → PGROUNDDOWN2 a = a.
Proof. intros Ha Hm. rewrite PGROUNDDOWN2_div by done. unfold PGSIZE2 in *. Z.div_mod_to_equations; lia. Qed.

(** The entry that is written for a large page. *)
Lemma big_entry pa : fits 32 pa → pa mod PGSIZE2 = 0 →
  Z.lor (w32 (Z.lxor pa (Z.land pa 0xfff))) (Z.lor (Z.lor PTE_P PTE_W) PTE_PS) = pa + 0x83.
Proof.
  intros Hf Hm. assert (∀ b, fits 22 b → Z.land pa b = 0) as Hz.
  { intros b Hb. replace pa with (Z.shiftl (pa / PGSIZE2) 22)
      by (rewrite Z.shiftl_mul_pow2 by lia; unfold PGSIZE2 in *; change (2 ^ 22) with 0x400000; Z.div_mod_to_equations; lia).
    bitwise. destruct (decide (i < 22)).
    - by rewrite Z.testbit_neg_r by lia.
    - by rewrite (fits_testbit_high 22 b), andb_false_r by (done || lia). }
  rewrite (Hz 0xfff) by done. rewrite Z.lxor_0_r, (wrap_small 32) by done.
  change (Z.lor (Z.lor PTE_P PTE_W) PTE_PS) with 0x83. rewrite <-Z.lxor_lor, <-Z.add_nocarry_lxor by (by apply Hz). done.
Qed.

Lemma big_translate pg va pa : at_ pg (va / PGSIZE2) = pa + 0x83 → pa mod PGSIZE2 = 0 → translate pg va = Some (pa + va mod PGSIZE2).
Proof.
  intros E Hm. unfold translate. rewrite E.
  assert (Z.testbit (pa + 0x83) 0 = true ∧ Z.testbit (pa + 0x83) 7 = true) as [-> ->].
  { rewrite !Z.testbit_eqb by lia. unfold PGSIZE2 in *. split; apply Z.eqb_eq; change (2 ^ 0) with 1; change (2 ^ 7) with 128; Z.div_mod_to_equations; lia. }
  cbn [andb]. do 2 f_equal. unfold PGSIZE2 in *. Z.div_mod_to_equations; lia.
Qed.

Lemma early_map_loop_ok n k q pg : length pg = 1024%nat → 0 ≤ k → k + Z.of_nat n < 1024 → 0 ≤ q → q + Z.of_nat n ≤ 1024 →
  (∀ i, k ≤ i < k + Z.of_nat n → at_ pg i = 0) →
  ∃ pg', early_map_loop n (PGSIZE2 * k) (PGSIZE2 * (k + Z.of_nat n)) (PGSIZE2 * q) pg = (0, pg') ∧ length pg' = 1024%nat ∧
    ∀ i, 0 ≤ i → at_ pg' i = if (k <=? i) && (i <? k + Z.of_nat n) then PGSIZE2 * (q + (i - k)) + 0x83 else at_ pg i.
Proof.
  revert k q pg. induction n as [|n IH]; intros k q pg Hl Hk Hkn Hq Hqn Hfree.
  { exists pg. split_and!; [done|done|]. intros i Hi. destruct (Z.leb_spec k i), (Z.ltb_spec i (k + Z.of_nat 0)); (done || lia). }
  cbn [early_map_loop]. rewrite (proj2 (Z.ltb_lt _ _)) by (unfold PGSIZE2; lia).
  assert (i386_PDX (PGSIZE2 * k) = k) as ->.
  { rewrite i386_PDX_div by (unfold fits, PGSIZE2; lia). unfold PGSIZE2. Z.div_mod_to_equations; lia. }
  rewrite (Hfree k) by lia. change (negb (Z.land 0 PTE_P =? 0)) with false. cbv iota zeta.
  rewrite (at_insert pg k), Z.eqb_refl, list_insert_insert_eq by lia. rewrite big_entry by (unfold fits, PGSIZE2; (lia || (Z.div_mod_to_equations; lia))).
  set (pg1 := <[Z.to_nat k := PGSIZE2 * q + 0x83]> pg).
  rewrite (wrap_small 32), (wrap_small 64) by (unfold fits, PGSIZE2; lia).
  replace (PGSIZE2 * k + PGSIZE2) with (PGSIZE2 * (k + 1)) by lia. replace (PGSIZE2 * q + PGSIZE2) with (PGSIZE2 * (q + 1)) by lia.
  replace (k + Z.of_nat (S n)) with (k + 1 + Z.of_nat n) in * by lia.
  destruct (IH (k + 1) (q + 1) pg1) as (pg' & E & Hl' & Hat).
  - unfold pg1. by rewrite length_insert.
  - lia.
  - lia.
  - lia.
  - lia.
  - intros i Hi. unfold pg1. rewrite at_insert by lia. rewrite (proj2 (Z.eqb_neq i k)) by lia. apply Hfree. lia.
  - exists pg'. split_and!; [exact E|done|]. intros i Hi. rewrite Hat by done. unfold pg1. rewrite at_insert by lia.
    destruct (Z.leb_spec (k + 1) i), (Z.ltb_spec i (k + 1 + Z.of_nat n)), (Z.leb_spec k i), (Z.eqb_spec i k); cbn [andb]; try done; lia.
Qed.

(** A mapping of whole large pages. *)
Record big_ok (e : early_mapping) : Prop := BigOk {
  bo_va : m_vaddr e mod PGSIZE2 = 0; bo_pa : m_paddr e mod PGSIZE2 = 0; bo_size : m_size e mod PGSIZE2 = 0;
  bo_bounds : 0 ≤ m_vaddr e ∧ 0 < m_size e ∧ e_end e < 2 ^ 32; bo_phys : 0 ≤ m_paddr e ∧ m_paddr e + m_size e ≤ 2 ^ 32 }.
Definition in_map (e : early_mapping) (va : Z) : Prop := m_vaddr e ≤ va < e_end e.

(** What the directory says after the mappings in [l]. *)
Definition directory_ok (l : list early_mapping) (pg : list Z) : Prop :=
  length pg = 1024%nat ∧
  (∀ e va, e ∈ l → in_map e va → at_ pg (va / PGSIZE2) = m_paddr e + PGSIZE2 * ((va - m_vaddr e) / PGSIZE2) + 0x83) ∧
  (∀ va, fits 32 va → (∀ e, e ∈ l → ¬ in_map e va) → at_ pg (va / PGSIZE2) = 0).

Lemma directory_step l pg e : directory_ok l pg → big_ok e → Forall big_ok l → (∀ f, f ∈ l → disjoint_maps f e) →
  (i386_page_index_early_map pg (m_paddr e) (m_vaddr e) (m_size e)).1 = 0 ∧
  directory_ok (l ++ [e]) (i386_page_index_early_map pg (m_paddr e) (m_vaddr e) (m_size e)).2.
Proof.
  intros (Hl & Hin & Hout) [Hva Hpa Hsz Hb Hp] Hbig Hdis. unfold e_end in Hb. unfold i386_page_index_early_map.
  rewrite (wrap_small 32 (m_vaddr e)) by (unfold fits; lia). rewrite (wrap_small 32 (_ + _)) by (unfold fits; lia).
  rewrite !PGROUNDDOWN2_aligned by (unfold fits, PGSIZE2 in *; (lia || (Z.div_mod_to_equations; lia))). cbv zeta.
  set (k := m_vaddr e / PGSIZE2). set (q := m_paddr e / PGSIZE2). set (n := Z.to_nat (m_size e / PGSIZE2)).
  assert (m_vaddr e = PGSIZE2 * k ∧ m_paddr e = PGSIZE2 * q ∧ m_size e = PGSIZE2 * Z.of_nat n) as (Ek & Eq & En).
  { subst k q n. unfold PGSIZE2 in *. clear - Hva Hpa Hsz Hb. Z.div_mod_to_equations; lia. }
  clearbody k q n. clear Hva Hpa Hsz.
  assert (∀ va, in_map e va ↔ k ≤ va / PGSIZE2 < k + Z.of_nat n) as Hmap.
  { intros va. unfold in_map, e_end. rewrite Ek, En. unfold PGSIZE2. Z.div_mod_to_equations; lia. }
  rewrite Ek, En, <-Z.mul_add_distr_l. replace ((PGSIZE2 * (k + Z.of_nat n) - PGSIZE2 * k) / PGSIZE2) with (Z.of_nat n)
    by (unfold PGSIZE2; Z.div_mod_to_equations; lia). rewrite Nat2Z.id, Eq.
  destruct (early_map_loop_ok n k q pg) as (pg' & E & Hl' & Hat); [done|unfold PGSIZE2 in *; lia..| |].
  - intros i Hi. specialize (Hout (PGSIZE2 * i)). replace (PGSIZE2 * i / PGSIZE2) with i in Hout by (unfold PGSIZE2; Z.div_mod_to_equations; lia).
    apply Hout; [unfold fits, PGSIZE2 in *; lia|]. intros f Hf Hfi. pose proof (Hdis f Hf) as [Hd|Hd]; unfold in_map, e_end, PGSIZE2 in *; lia.
  - rewrite E. cbn [fst snd]. split; [done|]. split_and!; [done| |].
    + intros f va Hf Hfi. assert (0 ≤ va / PGSIZE2) as Hnn.
      { apply elem_of_app in Hf as [Hf| ->%list_elem_of_singleton]; [|apply Hmap in Hfi; unfold PGSIZE2 in *; lia].
        pose proof (proj1 (Forall_forall _ _) Hbig f Hf) as [_ _ _ Hbf _]. unfold in_map in Hfi. apply Z.div_pos; unfold PGSIZE2; lia. }
      rewrite Hat by done. apply elem_of_app in Hf as [Hf| ->%list_elem_of_singleton].
      * rewrite <-(Hin f va Hf Hfi). assert (¬ in_map e va) as Hn.
        { intros Hei. pose proof (Hdis f Hf). unfold disjoint_maps, in_map in *. lia. }
        rewrite Hmap in Hn. destruct (Z.leb_spec k (va / PGSIZE2)), (Z.ltb_spec (va / PGSIZE2) (k + Z.of_nat n)); (done || lia).
      * apply Hmap in Hfi as Hr. rewrite (proj2 (Z.leb_le _ _)), (proj2 (Z.ltb_lt _ _)) by lia. cbn [andb]. rewrite Ek, Eq.
        unfold PGSIZE2. Z.div_mod_to_equations; lia.
    + intros va Hfv Hno. rewrite Hat by (apply Z.div_pos; unfold PGSIZE2, fits in *; lia).
      assert (¬ in_map e va) as Hn by (apply Hno, elem_of_app; right; by left). rewrite Hmap in Hn.
      rewrite <-(Hout va Hfv) by (intros f Hf; apply Hno, elem_of_app; by left).
      destruct (Z.leb_spec k (va / PGSIZE2)), (Z.ltb_spec (va / PGSIZE2) (k + Z.of_nat n)); (done || lia).
Qed.

(** The boot page directory of the i386 port ([page_index_init] with the
    port's [page_index_early_map]): for a queue of disjoint mappings of whole
    4 MiB pages it returns 0, every address of a mapping translates to the
    physical address that the mapping gives it, and no other address is mapped. *)
Theorem boot_directory_correct s idx :
  Forall big_ok (queue s) → (∀ i j e f, queue s !! i = Some e → queue s !! j = Some f → i ≠ j → disjoint_maps e f) →
  wp (page_index_init i386_page_index_clear i386_page_index_early_map s idx) (λ '(r, pg), r = 0 ∧
    (∀ e va, e ∈ queue s → in_map e va → translate pg va = Some (m_paddr e + (va - m_vaddr e))) ∧
    (∀ va, fits 32 va → (∀ e, e ∈ queue s → ¬ in_map e va) → translate pg va = None)).
Proof.
  intros Hbig Hdis. eapply wp_mono.
  - apply (page_index_init_rule _ _ _ _ (λ k pg, directory_ok (take k (queue s)) pg)).
    + split_and!; [done| |].
      * intros e va He. by inversion He.
      * intros va Hva _. unfold i386_page_index_clear, at_. case_match; [|done].
        destruct (replicate 1024 0 !! Z.to_nat (va / PGSIZE2)) eqn:E; [|done]. by apply lookup_replicate in E as [-> _].
    + intros k e pg He Hpg. destruct (directory_step _ _ e Hpg) as [H1 H2].
      * by eapply Forall_lookup_1.
      * by apply Forall_take.
      * intros f Hf. apply elem_of_take in Hf as (j & Hj & Hlt). apply (Hdis j k); (done || lia).
      * rewrite H1, (take_S_r _ _ e) by done. done.
  - intros [r pg]. rewrite take_ge by done. intros (-> & Hl & Hin & Hout). split_and!; [done| |].
    + intros e va He Hi. pose proof (proj1 (Forall_forall _ _) Hbig e He) as [Hva Hpa _ _ _].
      rewrite (big_translate pg va _ (Hin e va He Hi)); [f_equal|]; unfold PGSIZE2 in *; Z.div_mod_to_equations; lia.
    + intros va Hf Hno. unfold translate. by rewrite (Hout va Hf Hno).
Qed.

(** A mapping smaller than a large page is dropped without an error. *)
Theorem early_map_small pg pa va sz : fits 32 va → va mod PGSIZE2 = 0 → 0 ≤ sz < PGSIZE2 → va + sz < 2 ^ 32 →
  i386_page_index_early_map pg pa va sz = (0, pg).
Proof.
  intros Hv Hm Hs He. unfold i386_page_index_early_map. rewrite (wrap_small 32 va) by done.
  rewrite (wrap_small 32 (va + sz)) by (unfold fits in *; lia). rewrite (PGROUNDDOWN2_aligned va) by done.
  assert (PGROUNDDOWN2 (va + sz) = va) as ->; [|by rewrite Z.sub_diag].
  rewrite PGROUNDDOWN2_div by (unfold fits in *; lia). unfold PGSIZE2 in *. Z.div_mod_to_equations; lia.
Qed.

(** ** The spinlock *)
Definition x_inv (s : xlock) : Prop :=
  (x_word s = UNLOCKED ∧ ∀ i, x_cpus s !! i ≠ Some Inside) ∨
  (x_word s = LOCKED ∧ ∃ i, x_cpus s !! i = Some Inside ∧ ∀ j, x_cpus s !! j = Some Inside → j = i).

Lemma x_inv_step s s' : xstep s s' → x_inv s → x_inv s'.
Proof.
  intros Hs Hi. destruct Hs as [w ps i w' p' Hp Hw|w ps i Hp]; unfold x_inv in *; cbn [x_word x_cpus] in *.
  - unfold spin_turn, xchg in Hw. injection Hw as <- <-. right. split; [done|]. pose proof (lookup_lt_Some _ _ _ Hp) as Hlt.
    destruct Hi as [[-> Hno]|[-> (k & Hk & Hu)]]; cbn [negb Z.eqb].
    + exists i. split; [by apply list_lookup_insert_eq|]. intros j Hj. destruct (decide (j = i)) as [|Hne]; [done|].
      rewrite list_lookup_insert_ne in Hj by done. by destruct (Hno j).
    + exists k. cbn. rewrite list_insert_id by done. by split.
  - destruct Hi as [[-> Hno]|[-> (k & Hk & Hu)]]; [by destruct (Hno i)|]. left. split; [done|]. intros j.
    pose proof (lookup_lt_Some _ _ _ Hp) as Hlt. destruct (decide (j = i)) as [->|Hne].
    + by rewrite list_lookup_insert_eq.
    + rewrite list_lookup_insert_ne by done. intros Hj. apply Hne. by rewrite (Hu j Hj), (Hu i Hp).
Qed.

(** The spinlock of the i386 port: for any number of processors and any
    interleaving of their atomic exchanges, at most one is between lock and
    unlock, [spin_is_locked] says exactly whether one is, and when none is, the
    next turn of any waiting processor obtains the lock. *)
Theorem xchg_lock_correct n s : rtc xstep (x_initial n) s →
  (∀ i j, x_cpus s !! i = Some Inside → x_cpus s !! j = Some Inside → i = j) ∧
  (i386_spin_is_locked (x_word s) = true ↔ ∃ i, x_cpus s !! i = Some Inside) ∧
  ((∀ i, x_cpus s !! i ≠ Some Inside) → (spin_turn (x_word s)).2 = Inside).
Proof.
  intros Hr. assert (x_inv s) as Hi.
  { assert (x_inv (x_initial n)) as H0.
    { left. split; [done|]. intros i Hi. by apply lookup_replicate in Hi as [? _]. }
    revert H0. induction Hr as [|a b c Hab _ IH]; [done|]. intros Ha. by eapply IH, x_inv_step. }
  destruct Hi as [[Hw Hno]|[Hw (k & Hk & Hu)]]; rewrite Hw; split_and!.
  - intros i j Hi. by destruct (Hno i).
  - split; [done|]. intros [i Hi]. by destruct (Hno i).
  - done.
  - intros i j H1 H2. by rewrite (Hu i H1), (Hu j H2).
  - split; [by exists k|done].
  - intros H. by destruct (H k).
Qed.

Lemma xchg_lock_correct_witness :
  let s := XLock LOCKED [Outside; Inside] in
  rtc xstep (x_initial 2) s ∧ (i386_spin_is_locked (x_word s) = true ↔ ∃ i, x_cpus s !! i = Some Inside).
Proof.
  intros s. assert (rtc xstep (x_initial 2) s) as Hr.
  { apply rtc_once. exact (xstep_turn UNLOCKED [Outside; Outside] 1 LOCKED Inside eq_refl eq_refl). }
  split; [exact Hr|]. apply (xchg_lock_correct 2 s Hr).
Defined.

Definition demo_queue : kmmap :=
  Kmmap [EarlyMapping 0 KERN_BASE 0x10000000 EARLY_MAPPING_MEMORY; EarlyMapping 0xfe000000 0xfe000000 0x1000000 EARLY_MAPPING_KMMAP] 0 0 0.

Lemma boot_directory_correct_witness :
  wp (page_index_init i386_page_index_clear i386_page_index_early_map demo_queue []) (λ '(r, pg),
    r = 0 ∧ translate pg 0x80412345 = Some 0x412345 ∧ translate pg 0xfee00020 = Some 0xfee00020 ∧ translate pg 0x90000000 = None).
Proof.
  assert (∀ e, e ∈ queue demo_queue → e = EarlyMapping 0 KERN_BASE 0x10000000 EARLY_MAPPING_MEMORY ∨
    e = EarlyMapping 0xfe000000 0xfe000000 0x1000000 EARLY_MAPPING_KMMAP) as Hq.
  { intros e He. apply list_elem_of_In in He as [<-|[<-|[]]]; auto. }
  eapply wp_mono; [apply boot_directory_correct|].
  - apply Forall_forall. intros e [->| ->]%Hq; by repeat split; vm_compute.
  - intros [|[|i]] [|[|j]] e f He Hf Hij; try done; injection He as <-; injection Hf as <-; [by left; vm_compute|by right; vm_compute].
  - intros [r pg] (-> & Hin & Hout). split_and!; [done| | |].
    + apply (Hin (EarlyMapping 0 KERN_BASE 0x10000000 EARLY_MAPPING_MEMORY)); [left|by split; vm_compute].
    + apply (Hin (EarlyMapping 0xfe000000 0xfe000000 0x1000000 EARLY_MAPPING_KMMAP)); [right; left|by split; vm_compute].
    + apply Hout; [by unfold fits|]. intros e [->| ->]%Hq [H1 H2]; by vm_compute in H1, H2.
Defined.
