(* ===== verification/Apic.v ===== *)
(** * The local APIC and the other processors of the PC

    kern/arch/i386/arch_lapic.c and arch_smp.c with include/arch/i386/arch-lapic.h
    and [struct cpu_status] of include/aim/smp.h: programming the local APIC,
    finding the number of the running processor, and starting the others one
    after the other.  The interrupt controller is the class [Lapic] with the laws
    [LapicOk] of its manual; the start of the other processors is a step relation
    in which the first processor and the others interleave. *)
From S2P Require Import Prelude Util MmState Libc Palloc Pmm Pgtable Init Bootmain Mp I386 Boot.

(** ** Registers: indices of 32-bit words *)
Definition ID : Z := 0x0020 / 4.
Definition VER : Z := 0x0030 / 4.
Definition TPR : Z := 0x0080 / 4.
Definition EOI : Z := 0x00B0 / 4.
Definition SVR : Z := 0x00F0 / 4.
Definition ENABLE : Z := 0x00000100.
Definition ESR : Z := 0x0280 / 4.
Definition ICRLO : Z := 0x0300 / 4.
Definition INIT : Z := 0x00000500.
Definition STARTUP : Z := 0x00000600.
Definition DELIVS : Z := 0x00001000.
Definition ASSERT : Z := 0x00004000.
Definition LEVEL : Z := 0x00008000.
Definition BCAST : Z := 0x00080000.
Definition ICRHI : Z := 0x0310 / 4.
Definition TIMER : Z := 0x0320 / 4.
Definition X1 : Z := 0x0000000B.
Definition PERIODIC : Z := 0x00020000.
Definition PCINT : Z := 0x0340 / 4.
Definition LINT0 : Z := 0x0350 / 4.
Definition LINT1 : Z := 0x0360 / 4.
Definition ERROR : Z := 0x0370 / 4.
Definition MASKED : Z := 0x00010000.
Definition TICR : Z := 0x0380 / 4.
Definition TDCR : Z := 0x03E0 / 4.

(** An access to the memory-mapped registers may change the machine. *)
Class Lapic (S : Type) := {
  lapic_rd : Z → S → Z * S;
  lapic_wr : Z → Z → S → S }.

Definition st16 (a v : Z) (m : mem) : mem := store (a + 1) (w8 (v / 2 ^ 8)) (store a (w8 v) m).

(** [struct percpu]: the members of [struct cpu_status]. *)
Record percpu := PerCpu { started : Z; c_stack : Z; apicid : Z }.
Definition set_started (v : Z) (c : percpu) : percpu := PerCpu v (c_stack c) (apicid c).
Definition set_stack (v : Z) (c : percpu) : percpu := PerCpu (started c) v (apicid c).

(** [cpus[i]], with an access outside the array as [BadPtr]. *)
Definition get_cpu (cpus : list percpu) (i : Z) : res percpu :=
  if 0 <=? i then of_option BadPtr (cpus !! Z.to_nat i) else Err BadPtr.
Definition upd_cpu (i : Z) (f : percpu → percpu) (cpus : list percpu) : res (list percpu) :=
  c ← get_cpu cpus i; Ok (<[Z.to_nat i := f c]> cpus).

Section lapic.
Context {S : Type} `{P : Ports S} `{A : Lapic S} (polls : nat) (CPUNUM : Z).

(** ** arch_lapic.c *)
Definition lapicw (index value : Z) (s : S) : S := (lapic_rd ID (lapic_wr index (w32 value) s)).2.

(** [while(lapic[ICRLO] & DELIVS);] *)
Definition wait_delivered (s : S) : res S :=
  loop polls (λ s, let '(v, s) := lapic_rd ICRLO s in
    if negb (Z.land v DELIVS =? 0) then Ok (inl s) else Ok (inr s)) s.

(** [lapic] is the pointer; the registers are behind it. *)
Definition lapic_init (lapic : Z) (s : S) : res S :=
  if lapic =? NULL then Ok s
  else
    let s := lapicw SVR (Z.lor ENABLE (T_IRQ0 + IRQ_SPURIOUS)) s in
    let s := lapicw TDCR X1 s in
    let s := lapicw TIMER (Z.lor PERIODIC (T_IRQ0 + IRQ_TIMER)) s in
    let s := lapicw TICR 10000000 s in
    let s := lapicw LINT0 MASKED s in
    let s := lapicw LINT1 MASKED s in
    let '(v, s) := lapic_rd VER s in
    let s := if 4 <=? Z.land (Z.shiftr v 16) 0xFF then lapicw PCINT MASKED s else s in
    let s := lapicw ERROR (T_IRQ0 + IRQ_ERROR) s in
    let s := lapicw ESR 0 s in
    let s := lapicw ESR 0 s in
    let s := lapicw EOI 0 s in
    let s := lapicw ICRHI 0 s in
    let s := lapicw ICRLO (Z.lor (Z.lor BCAST INIT) LEVEL) s in
    s ← wait_delivered s;
    Ok (lapicw TPR 0 s).

Definition CMOS_PORT : Z := 0x70.

(** The two [uint16_t] of the warm reset vector lie in the memory [m]; the delays
    are empty functions. *)
Definition lapicstartap (id addr : Z) (m : mem) (s : S) : mem * S :=
  let s := outb CMOS_PORT 0xF s in
  let s := outb (CMOS_PORT + 1) 0x0A s in
  let wrv := postmap_addr (Z.lor (Z.shiftl 0x40 4) 0x67) in
  let m := st16 wrv 0 m in
  let m := st16 (wrv + 2) (Z.shiftr addr 4) m in
  let s := lapicw ICRHI (Z.shiftl (w8 id) 24) s in
  let s := lapicw ICRLO (Z.lor (Z.lor INIT LEVEL) ASSERT) s in
  let s := lapicw ICRLO (Z.lor INIT LEVEL) s in
  let ipi s := lapicw ICRLO (Z.lor STARTUP (Z.shiftr addr 12)) (lapicw ICRHI (Z.shiftl (w8 id) 24) s) in
  (m, ipi (ipi s)).

(** ** arch_smp.c *)
(** The loop of [cpuid] over the table. *)
Definition find_cpu (cpus : list percpu) (id : Z) : res Z :=
  loop (Datatypes.S (Z.to_nat CPUNUM)) (λ i,
    if i <? CPUNUM then
      c ← get_cpu cpus i;
      if apicid c =? id then Ok (inr i) else Ok (inl (i + 1))
    else Err Panicked) 0.

Definition cpuid (lapic : Z) (cpus : list percpu) (s : S) : res (Z * S) :=
  if lapic =? NULL then Ok (0, s)
  else
    let '(v, s) := lapic_rd ID s in
    i ← find_cpu cpus (Z.shiftr v 24); Ok (i, s).

(** [xchg(&cpus[cpuid()].started, 1)] *)
Definition claim_started (lapic : Z) (cpus : list percpu) (s : S) : res (list percpu * S) :=
  '(i, s) ← cpuid lapic cpus s;
  cpus ← upd_cpu i (λ c, set_started (xchg 1 (started c)).2 c) cpus;
  Ok (cpus, s).

Definition panic_other_cpus (lapic : Z) (cpus : list percpu) (s : S) : res S :=
  '(now_id, s) ← cpuid lapic cpus s;
  loop (Datatypes.S (Z.to_nat CPUNUM)) (λ '(id, s),
    if id <? CPUNUM then
      if id =? now_id then Ok (inl (id + 1, s))
      else
        c ← get_cpu cpus id;
        let s := lapicw ICRHI (Z.shiftl (apicid c) 24) s in
        let s := lapicw ICRLO 0x50 s in
        s ← wait_delivered s;
        Ok (inl (id + 1, s))
    else Ok (inr s)) (0, s).

(** The body of the loop of [smp_startup] before the wait: the words that the
    entry code of the other processor reads, and its start. *)
Definition prepare_slave (KSTACKSIZE slave_entry pgindex i : Z) (cpus : list percpu) (m : mem) : res (list percpu * mem) :=
  cpus ← upd_cpu i (set_started 0) cpus;
  c ← get_cpu cpus i;
  let m := st32 (w32 (slave_entry - 4)) (w32 (c_stack c + KSTACKSIZE)) m in
  let m := st32 (w32 (slave_entry - 8)) (w32 (premap_addr pgindex)) m in
  let m := st32 (w32 (slave_entry - 12)) (w32 i) m in
  Ok (cpus, m).
Definition start_slave (slave_entry i : Z) (cpus : list percpu) (m : mem) (s : S) : res (mem * S) :=
  c ← get_cpu cpus i;
  Ok (lapicstartap (apicid c) (premap_addr slave_entry) m s).
End lapic.

(** [alloc_stacks]: one [struct pages] for all requests. *)
Definition i386_alloc_stacks `{K : Kmem} (CPUNUM KSTACKSIZE paddr0 : Z) (cpus : list percpu) (w : world) : res (list percpu * world) :=
  loop (Datatypes.S (Z.to_nat CPUNUM)) (λ '(i, p, cpus, w),
    if i <? CPUNUM then
      '(r, p, w) ← alloc_pages (Some p) w;
      p ← of_option BadPtr p;
      if r <? 0 then Err Panicked
      else
        cpus ← upd_cpu i (set_stack (w32 (paddr p))) cpus;
        Ok (inl (i + 1, p, cpus, w))
    else Ok (inr (cpus, w))) (1, Pages paddr0 KSTACKSIZE 0, cpus, w).

(** ** The controller

    [lreg] is what a register was programmed with, [sent] the commands sent so
    far with their destinations, and [busy] bounds how often the delivery status
    still reads as pending.  A command is sent when the one before it has been
    delivered; it is delivered after at most [limit] polls. *)
Definition config : list Z := [ID; VER; TPR; SVR; ICRHI; TIMER; PCINT; LINT0; LINT1; ERROR; TICR; TDCR].
Definition writable : list Z := [TPR; SVR; ICRHI; TIMER; PCINT; LINT0; LINT1; ERROR; TICR; TDCR].

Class LapicOk (S : Type) `{Ports S} `{Lapic S} (limit : nat) := {
  lreg : Z → S → Z;
  sent : S → list (Z * Z);
  busy : S → nat;
  rd_keeps i s : (∀ j, lreg j (lapic_rd i s).2 = lreg j s) ∧ sent (lapic_rd i s).2 = sent s ∧ (busy (lapic_rd i s).2 ≤ busy s)%nat;
  rd_reg i s : i ∈ [ID; VER] → (lapic_rd i s).1 = lreg i s;
  rd_idle s : Z.land (lapic_rd ICRLO s).1 DELIVS = 0 ↔ busy s = 0%nat;
  rd_busy s : (0 < busy s)%nat → (busy (lapic_rd ICRLO s).2 < busy s)%nat;
  wr_reg i v s : i ∈ writable → fits 32 v → lreg i (lapic_wr i v s) = v;
  wr_other i j v s : i ∈ ESR :: EOI :: ICRLO :: writable → j ∈ config → j ≠ i → lreg j (lapic_wr i v s) = lreg j s;
  wr_quiet i v s : i ∈ ESR :: EOI :: writable → sent (lapic_wr i v s) = sent s ∧ (busy (lapic_wr i v s) ≤ busy s)%nat;
  wr_send v s : busy s = 0%nat → fits 32 v →
    sent (lapic_wr ICRLO v s) = sent s ++ [(lreg ICRHI s / 2 ^ 24, v)] ∧ (busy (lapic_wr ICRLO v s) ≤ limit)%nat;
  port_quiet n p v s : (∀ j, lreg j (port_out n p v s) = lreg j s) ∧ sent (port_out n p v s) = sent s ∧ busy (port_out n p v s) = busy s }.

(** Membership in a list of constants, or its refutation from [H]. *)
Ltac in_list := apply (bool_decide_unpack _); vm_compute; exact I.
Ltac by_decision H := let H' := fresh in exfalso; pose proof (bool_decide_pack _ H) as H'; vm_compute in H'; exact H'.

Section programming.
Context {S : Type} `{P : Ports S} `{A : Lapic S} {limit : nat} {L : LapicOk S limit}.
Implicit Types s : S.

Lemma lapicw_reg i v s : i ∈ writable → lreg i (lapicw i v s) = w32 v.
Proof.
  intros Hi. unfold lapicw. destruct (rd_keeps ID (lapic_wr i (w32 v) s)) as (-> & _). apply wr_reg; [done|]. apply wrap_fits. lia.
Qed.
Lemma lapicw_other i j v s : i ∈ ESR :: EOI :: ICRLO :: writable → j ∈ config → j ≠ i → lreg j (lapicw i v s) = lreg j s.
Proof. intros Hi Hj Hne. unfold lapicw. destruct (rd_keeps ID (lapic_wr i (w32 v) s)) as (-> & _). by apply wr_other. Qed.
Lemma lapicw_quiet i v s : i ∈ ESR :: EOI :: writable → sent (lapicw i v s) = sent s ∧ (busy (lapicw i v s) ≤ busy s)%nat.
Proof.
  intros Hi. unfold lapicw. destruct (rd_keeps ID (lapic_wr i (w32 v) s)) as (_ & -> & Hb). destruct (wr_quiet i (w32 v) s Hi) as [-> Hb'].
  split; [done|lia].
Qed.
Lemma lapicw_send v s : busy s = 0%nat → fits 32 v →
  sent (lapicw ICRLO v s) = sent s ++ [(lreg ICRHI s / 2 ^ 24, v)] ∧ (busy (lapicw ICRLO v s) ≤ limit)%nat.
Proof.
  intros Hs Hv. unfold lapicw. rewrite (wrap_small 32) by done. destruct (rd_keeps ID (lapic_wr ICRLO v s)) as (_ & -> & Hb).
  destruct (wr_send v s Hs Hv) as [-> Hb']. split; [done|lia].
Qed.

Lemma wait_delivered_ok polls s : (busy s < polls)%nat →
  wp (wait_delivered polls s) (λ s', (∀ j, lreg j s' = lreg j s) ∧ sent s' = sent s ∧ busy s' = 0%nat).
Proof.
  revert s. induction polls as [|polls IH]; intros s Hlt; [lia|]. unfold wait_delivered. rewrite loop_S.
  pose proof (rd_keeps ICRLO s) as (K1 & K2 & K3). pose proof (rd_idle s) as Hi. pose proof (rd_busy s) as Hb.
  destruct (lapic_rd ICRLO s) as [v s1]. cbn [fst snd] in *. destruct (Z.eqb_spec (Z.land v DELIVS) 0) as [E|E]; cbn [negb mbind res_bind].
  - apply Hi in E. cbn [wp]. split_and!; [done|done|lia].
  - assert (0 < busy s)%nat as Hpos by (destruct (busy s); [by destruct E; apply Hi|lia]).
    eapply wp_mono; [apply IH; specialize (Hb Hpos); lia|]. intros s' (H1 & -> & ->). split_and!; [|done|done]. intros j. by rewrite H1.
Qed.

(** ** Programming the controller *)
Definition programmed (s : S) (r : Z) : Z :=
  if r =? SVR then 0x13F else if r =? TDCR then 0xB else if r =? TIMER then 0x20020 else if r =? TICR then 10000000
  else if (r =? LINT0) || (r =? LINT1) then MASKED
  else if r =? PCINT then if 4 <=? (lreg VER s / 2 ^ 16) mod 2 ^ 8 then MASKED else lreg PCINT s
  else if r =? ERROR then 51 else if (r =? ICRHI) || (r =? TPR) then 0 else lreg r s.

(** A run of writes, and what a register holds after it. *)
Definition writes (ws : list (Z * Z)) (s : S) : S := foldl (λ s w, lapicw w.1 w.2 s) s ws.
Fixpoint last_write (ws : list (Z * Z)) (r d : Z) : Z :=
  match ws with [] => d | (i, v) :: ws => last_write ws r (if i =? r then w32 v else d) end.

Lemma writes_ok ws s : Forall (λ w, w.1 ∈ ESR :: EOI :: writable) ws →
  sent (writes ws s) = sent s ∧ (busy (writes ws s) ≤ busy s)%nat ∧ (∀ r, r ∈ config → lreg r (writes ws s) = last_write ws r (lreg r s)).
Proof.
  revert s. induction ws as [|[i v] ws IH]; intros s Hw; [done|]. inversion Hw as [|? ? Hi Hws]; subst. cbn [fst] in Hi.
  destruct (IH (lapicw i v s) Hws) as (I1 & I2 & I3). destruct (lapicw_quiet i v s Hi) as [Q1 Q2]. change (writes ((i, v) :: ws) s) with (writes ws (lapicw i v s)). split_and!.
  - by rewrite I1.
  - lia.
  - intros r Hr. rewrite I3 by done. cbn [last_write]. f_equal. destruct (Z.eqb_spec i r) as [<-|Hne].
    + apply lapicw_reg. apply elem_of_cons in Hi as [->|[->|Hi]%elem_of_cons]; [by_decision Hr..|done].
    + apply lapicw_other; [|done|done]. rewrite !elem_of_cons in *. tauto.
Qed.

(** Programming the local APIC ([lapic_init]): where there is a controller,
    the function returns once its broadcast has been delivered
    (after at most [limit] polls), having sent that one command, and every
    register holds what the code means it to hold: the unit enabled with the
    spurious vector, a periodic timer on vector 32, both interrupt pins masked,
    the performance counter masked where the version has one, the error vector,
    and the task priority that lets all interrupts in; no other register changes. *)
Theorem lapic_init_correct polls lapic s : lapic ≠ NULL → busy s = 0%nat → (limit < polls)%nat →
  wp (lapic_init polls lapic s) (λ s', (∀ r, r ∈ config → lreg r s' = programmed s r) ∧
    sent s' = sent s ++ [(0, Z.lor (Z.lor BCAST INIT) LEVEL)] ∧ busy s' = 0%nat).
Proof.
  intros Hl Hb Hp. unfold lapic_init. rewrite (proj2 (Z.eqb_neq _ _) Hl). cbv zeta.
  set (ws1 := [(SVR, 0x13F); (TDCR, X1); (TIMER, 0x20020); (TICR, 10000000); (LINT0, MASKED); (LINT1, MASKED)]).
  change (lapicw LINT1 MASKED _) with (writes ws1 s).
  destruct (writes_ok ws1 s) as (S1 & B1 & R1); [repeat constructor; in_list|].
  pose proof (rd_keeps VER (writes ws1 s)) as (K1 & K2 & K3). pose proof (rd_reg VER (writes ws1 s) ltac:(in_list)) as Hv.
  destruct (lapic_rd VER (writes ws1 s)) as [v s2]. cbn [fst snd] in *.
  set (ws2 := (if 4 <=? Z.land (Z.shiftr v 16) 0xFF then [(PCINT, MASKED)] else []) ++ [(ERROR, 51); (ESR, 0); (ESR, 0); (EOI, 0); (ICRHI, 0)]).
  replace (lapicw ICRHI 0 _) with (writes ws2 s2) by (unfold ws2; by destruct (4 <=? _)).
  destruct (writes_ok ws2 s2) as (S2 & B2 & R2); [unfold ws2; destruct (4 <=? _); repeat constructor; in_list|].
  destruct (lapicw_send (Z.lor (Z.lor BCAST INIT) LEVEL) (writes ws2 s2)) as [S3 B3]; [lia|done|].
  apply wp_bind. eapply wp_mono; [apply wait_delivered_ok; lia|]. intros s3 (R3 & S3' & B3'). apply wp_ok.
  destruct (lapicw_quiet TPR 0 s3 ltac:(in_list)) as [S4 B4]. split_and!; [|rewrite S4, S3', S3, S2, K2, S1, R2 by in_list; f_equal|lia].
  - intros r Hr. destruct (decide (r = TPR)) as [->|Hne]; [by rewrite lapicw_reg by in_list|].
    rewrite lapicw_other, R3, lapicw_other by (done || in_list || (intros ->; by_decision Hr)).
    rewrite R2, K1, R1 by done. rewrite R1 in Hv by in_list. change (last_write ws1 VER (lreg VER s)) with (lreg VER s) in Hv.
    assert (Z.land (Z.shiftr v 16) 0xFF = (v / 2 ^ 16) mod 2 ^ 8) as E by (rewrite Z.shiftr_div_pow2 by lia; by apply (Z.land_ones _ 8)).
    unfold programmed, ws2. rewrite <-Hv, E. clear -Hr Hne. unfold config in Hr.
    repeat (apply elem_of_cons in Hr as [->|Hr]; [destruct (4 <=? _); reflexivity || done|]). by apply elem_of_nil in Hr.
  - unfold ws2. destruct (4 <=? _); reflexivity.
Qed.
End programming.

(** ** The number of the running processor *)
Section numbers.
Context {S : Type} `{P : Ports S} `{A : Lapic S} {limit : nat} {L : LapicOk S limit} (CPUNUM : Z).
Implicit Types (s : S) (cpus : list percpu).

Lemma get_cpu_ok cpus i c : 0 ≤ i → cpus !! Z.to_nat i = Some c → get_cpu cpus i = Ok c.
Proof. intros Hi Hc. unfold get_cpu. rewrite (proj2 (Z.leb_le _ _) Hi), Hc. done. Qed.

(** The first entry with the identifier, or a panic. *)
Lemma find_cpu_ok cpus id : Z.of_nat (length cpus) = CPUNUM →
  find_cpu CPUNUM cpus id = match list_find (λ c, apicid c = id) cpus with Some (i, _) => Ok (Z.of_nat i) | None => Err Panicked end.
Proof.
  intros Hlen. unfold find_cpu.
  assert (∀ k l fuel, cpus = take k cpus ++ l → (k ≤ length cpus)%nat → (length l < fuel)%nat →
    loop fuel (λ i, if i <? CPUNUM then c ← get_cpu cpus i; if apicid c =? id then Ok (inr i) else Ok (inl (i + 1)) else Err Panicked) (Z.of_nat k) =
    match list_find (λ c, apicid c = id) l with Some (i, _) => Ok (Z.of_nat (k + i)) | None => Err Panicked end) as Hgen.
  { intros k l. revert k. induction l as [|c l IH]; intros k fuel E Hk Hf; (destruct fuel as [|fuel]; [lia|]); rewrite loop_S.
    - rewrite app_nil_r in E. assert (length cpus = k) by (rewrite E, length_take; lia).
      rewrite (proj2 (Z.ltb_ge _ _)) by lia. done.
    - assert (cpus !! k = Some c) as Hc by (rewrite E, lookup_app_r; rewrite length_take; [by rewrite Nat.min_l, Nat.sub_diag by lia|lia]).
      pose proof (lookup_lt_Some _ _ _ Hc) as Hlt. rewrite (proj2 (Z.ltb_lt _ _)) by lia.
      rewrite (get_cpu_ok cpus _ c) by (rewrite ?Nat2Z.id; done || lia). cbn [mbind res_bind list_find].
      destruct (Z.eqb_spec (apicid c) id) as [E1|E1]; [rewrite decide_True by done; cbn; by rewrite Nat.add_0_r|rewrite decide_False by done].
      cbn [mbind res_bind]. replace (Z.of_nat k + 1) with (Z.of_nat (Datatypes.S k)) by lia. rewrite IH.
      + destruct (list_find _ l) as [[i c']|]; [|done]. cbn. f_equal. lia.
      + rewrite (take_S_r _ _ c) by done. by rewrite <-app_assoc.
      + lia.
      + cbn [length] in Hf. lia. }
  specialize (Hgen 0%nat cpus (Datatypes.S (Z.to_nat CPUNUM))). change (Z.of_nat 0) with 0 in Hgen. cbn [Nat.add] in Hgen. rewrite Hgen; [done|done|lia|lia].
Qed.

Lemma find_cpu_nth cpus i c : Z.of_nat (length cpus) = CPUNUM → NoDup (apicid <$> cpus) → cpus !! i = Some c →
  find_cpu CPUNUM cpus (apicid c) = Ok (Z.of_nat i).
Proof.
  intros Hlen Hnd Hi. rewrite find_cpu_ok by done.
  assert (list_find (λ c', apicid c' = apicid c) cpus = Some (i, c)) as ->; [|done].
  apply list_find_Some. split_and!; [done|done|]. intros j y Hj Hlt E.
  assert (j = i); [|lia]. eapply NoDup_lookup; [exact Hnd|by rewrite list_lookup_fmap, Hj|by rewrite list_lookup_fmap, Hi, E].
Qed.

(** What [cpuid] returns on the processor whose controller has the identifier of
    the entry [i]. *)
Lemma cpuid_nth lapic cpus s i c : lapic ≠ NULL → Z.of_nat (length cpus) = CPUNUM → NoDup (apicid <$> cpus) → cpus !! i = Some c →
  lreg ID s = apicid c * 2 ^ 24 →
  cpuid CPUNUM lapic cpus s = Ok (Z.of_nat i, (lapic_rd ID s).2).
Proof.
  intros Hl Hlen Hnd Hi Hid. unfold cpuid. rewrite (proj2 (Z.eqb_neq _ _) Hl). pose proof (rd_reg ID s ltac:(in_list)) as Hr.
  destruct (lapic_rd ID s) as [v s']. cbn [fst snd] in *. subst v. rewrite Hid, Z.shiftr_div_pow2, Z.div_mul by lia.
  by rewrite (find_cpu_nth cpus i c).
Qed.
End numbers.

(** ** Starting the other processors

    What a processor does with a command that reaches it: an INIT resets it until
    a STARTUP gives it the page to begin at; the de-assertion of INIT and a
    STARTUP to a processor that does not wait for one are ignored.  The entry code
    (kern/arch/i386/entry.S) loads the page directory and the stack pointer from
    the two words in front of it and calls [slave_init]. *)
Inductive phase := Off | WaitSipi | Booting (page : Z) | Paged (cr3 : Z) | Stacked (cr3 esp : Z) | Joined (cr3 esp : Z).
Record ap := Ap { ap_id : Z; ap_phase : phase }.

Definition targeted (id : Z) (c : Z * Z) : bool :=
  match (c.2 / 2 ^ 18) mod 4 with 0 => c.1 =? id | 1 => false | _ => true end.
Definition receive (c : Z * Z) (a : ap) : ap :=
  if targeted (ap_id a) c then
    match (c.2 / 2 ^ 8) mod 8 with
    | 5 => if Z.testbit c.2 15 && negb (Z.testbit c.2 14) then a else Ap (ap_id a) WaitSipi
    | 6 => match ap_phase a with WaitSipi => Ap (ap_id a) (Booting (c.2 mod 2 ^ 8)) | _ => a end
    | _ => a
    end
  else a.
Definition receive_all (cs : list (Z * Z)) (aps : list ap) : list ap := (λ a, foldl (λ a c, receive c a) a cs) <$> aps.

Inductive bsp_pc := Store (i : Z) | Send (i : Z) | Wait (i : Z) | Finished.

Section startup.
Context {S : Type} `{P : Ports S} `{A : Lapic S} {L : LapicOk S 0}.
Context (CPUNUM KSTACKSIZE slave_entry pgindex lapic : Z).

(** The processor that runs [smp_startup], the tables and memory they share, its
    controller, and the others. *)
Record sys := Sys { y_pc : bsp_pc; y_cpus : list percpu; y_mem : mem; y_dev : S; y_aps : list ap }.
Definition turn (i : Z) : bsp_pc := if i <? CPUNUM then Store i else Finished.
Definition new_commands (s s' : S) : list (Z * Z) := drop (length (sent s)) (sent s').

Inductive sstep : sys → sys → Prop :=
| st_store i cpus m s aps cpus' m' : prepare_slave KSTACKSIZE slave_entry pgindex i cpus m = Ok (cpus', m') →
    sstep (Sys (Store i) cpus m s aps) (Sys (Send i) cpus' m' s aps)
| st_send i cpus m s aps m' s' : start_slave slave_entry i cpus m s = Ok (m', s') →
    sstep (Sys (Send i) cpus m s aps) (Sys (Wait i) cpus m' s' (receive_all (new_commands s s') aps))
| st_wait i cpus m s aps c : get_cpu cpus i = Ok c → started c ≠ 0 →
    sstep (Sys (Wait i) cpus m s aps) (Sys (turn (i + 1)) cpus m s aps)
| st_page pc cpus m s aps j id page : aps !! j = Some (Ap id (Booting page)) → 4096 * page = premap_addr slave_entry →
    sstep (Sys pc cpus m s aps) (Sys pc cpus m s (<[j := Ap id (Paged (ld32 m (w32 (slave_entry - 8))))]> aps))
| st_stack pc cpus m s aps j id cr3 : aps !! j = Some (Ap id (Paged cr3)) →
    sstep (Sys pc cpus m s aps) (Sys pc cpus m s (<[j := Ap id (Stacked cr3 (ld32 m (w32 (slave_entry - 4))))]> aps))
| st_join pc cpus m s aps j id cr3 esp (d d' d'' : S) k cpus' : aps !! j = Some (Ap id (Stacked cr3 esp)) →
    lreg ID d = id * 2 ^ 24 → cpuid CPUNUM lapic cpus d = Ok (k, d') → k ≠ 0 → claim_started CPUNUM lapic cpus d' = Ok (cpus', d'') →
    sstep (Sys pc cpus m s aps) (Sys pc cpus' m s (<[j := Ap id (Joined cr3 esp)]> aps)).

(** At the start of the loop the others are off; the table lists all of them. *)
Definition s_initial (cpus : list percpu) (m : mem) (s : S) : sys :=
  Sys (turn 1) cpus m s ((λ c, Ap (apicid c) Off) <$> tail cpus).

(** *** The commands *)
Definition wrv_byte (a : Z) : Prop := KERN_BASE + 0x467 ≤ a < KERN_BASE + 0x46B.
Definition startup_commands (id page : Z) : list (Z * Z) :=
  [(id, Z.lor (Z.lor INIT LEVEL) ASSERT); (id, Z.lor INIT LEVEL); (id, Z.lor STARTUP page); (id, Z.lor STARTUP page)].

Lemma icrhi_ok id (s : S) : fits 8 id → lreg ICRHI (lapicw ICRHI (Z.shiftl (w8 id) 24) s) / 2 ^ 24 = id.
Proof.
  intros Hid. rewrite lapicw_reg by in_list. rewrite (wrap_small 8) by done. rewrite Z.shiftl_mul_pow2 by lia.
  rewrite (wrap_small 32) by (unfold fits in *; lia). apply Z.div_mul. lia.
Qed.
(** A command goes out and is delivered at once. *)
Lemma send_ok v (s : S) : busy s = 0%nat → fits 32 v →
  sent (lapicw ICRLO v s) = sent s ++ [(lreg ICRHI s / 2 ^ 24, v)] ∧ busy (lapicw ICRLO v s) = 0%nat ∧ lreg ICRHI (lapicw ICRLO v s) = lreg ICRHI s.
Proof.
  intros Hb Hv. destruct (lapicw_send v s Hb Hv) as [-> Hb']. split_and!; [done|lia|]. apply lapicw_other; in_list || done.
Qed.
Lemma st16_out a v (m : mem) x : ¬ (a ≤ x < a + 2) → st16 a v m x = m x.
Proof. intros Hx. unfold st16, store. zcases; done || lia. Qed.

Lemma lapicstartap_ok id addr (m : mem) (s : S) : busy s = 0%nat → fits 8 id → fits 20 addr →
  let '(m', s') := lapicstartap id addr m s in
  busy s' = 0%nat ∧ new_commands s s' = startup_commands id (addr / 2 ^ 12) ∧ (∀ a, ¬ wrv_byte a → m' a = m a).
Proof.
  intros Hb Hid Ha. unfold lapicstartap. set (s1 := outb _ _ (outb _ _ s)).
  assert (sent s1 = sent s ∧ busy s1 = 0%nat) as [S1 B1].
  { unfold s1, outb. destruct (port_quiet 8 (w16 CMOS_PORT) (w8 0xF) s) as (_ & Q1 & Q2).
    destruct (port_quiet 8 (w16 (CMOS_PORT + 1)) (w8 0x0A) (port_out 8 (w16 CMOS_PORT) (w8 0xF) s)) as (_ & Q3 & Q4). split; congruence. }
  rewrite Z.shiftr_div_pow2 by lia. set (page := addr / 2 ^ 12).
  assert (fits 8 page) as Hpage by (unfold page, fits in *; Z.to_euclidean_division_equations; lia).
  assert (fits 32 (Z.lor STARTUP page)) as Hsi.
  { change STARTUP with (Z.shiftl 6 8). rewrite lor_bytes by done. unfold fits in *. lia. }
  pose proof (icrhi_ok id s1 Hid) as H2. destruct (lapicw_quiet ICRHI (Z.shiftl (w8 id) 24) s1 ltac:(in_list)) as [S2 B2].
  set (s2 := lapicw ICRHI _ s1) in *. destruct (send_ok (Z.lor (Z.lor INIT LEVEL) ASSERT) s2) as (S3 & B3 & H3); [lia|done|].
  set (s3 := lapicw ICRLO (Z.lor (Z.lor INIT LEVEL) ASSERT) s2) in *. destruct (send_ok (Z.lor INIT LEVEL) s3 B3) as (S4 & B4 & H4); [done|].
  set (s4 := lapicw ICRLO (Z.lor INIT LEVEL) s3) in *.
  pose proof (icrhi_ok id s4 Hid) as H5. destruct (lapicw_quiet ICRHI (Z.shiftl (w8 id) 24) s4 ltac:(in_list)) as [S5 B5].
  set (s5 := lapicw ICRHI _ s4) in *. destruct (send_ok (Z.lor STARTUP page) s5) as (S6 & B6 & H6); [lia|done|].
  set (s6 := lapicw ICRLO _ s5) in *.
  pose proof (icrhi_ok id s6 Hid) as H7. destruct (lapicw_quiet ICRHI (Z.shiftl (w8 id) 24) s6 ltac:(in_list)) as [S7 B7].
  set (s7 := lapicw ICRHI _ s6) in *. destruct (send_ok (Z.lor STARTUP page) s7) as (S8 & B8 & H8); [lia|done|].
  split_and!; [done| |].
  - unfold new_commands. rewrite S8, S7, S6, S5, S4, S3, S2, S1, H2, H3, H2, H5, H7, <-!app_assoc, drop_app_length. done.
  - intros a Hw. unfold wrv_byte in Hw. change (postmap_addr (Z.lor (Z.shiftl 0x40 4) 0x67)) with (KERN_BASE + 0x467).
    rewrite !st16_out by lia. done.
Qed.

(** They start the processor with the identifier, whatever it did, and no other. *)
Lemma startup_received id page a : fits 8 page →
  foldl (λ a c, receive c a) a (startup_commands id page) = if ap_id a =? id then Ap id (Booting page) else a.
Proof.
  intros Hp. unfold startup_commands. change STARTUP with (Z.shiftl 6 8). rewrite lor_bytes by done. unfold fits in Hp.
  assert (((256 * 6 + page) / 2 ^ 18) mod 4 = 0 ∧ ((256 * 6 + page) / 2 ^ 8) mod 8 = 6 ∧ (256 * 6 + page) mod 2 ^ 8 = page) as (E1 & E2 & E3)
    by (Z.to_euclidean_division_equations; lia).
  assert (∀ c x, (c / 2 ^ 18) mod 4 = 0 → targeted x (id, c) = (id =? x)) as Ht by (intros c x E; unfold targeted; cbn [fst snd]; by rewrite E).
  destruct a as [i ph]. cbn [foldl ap_id]. destruct (Z.eqb_spec i id) as [->|Hne].
  - unfold receive at 4. cbn [ap_id]. rewrite Ht, Z.eqb_refl by done. cbn. unfold receive at 3. cbn [ap_id]. rewrite Ht, Z.eqb_refl by done. cbn [snd].
    change (Z.testbit _ 15 && _) with true. cbv iota. unfold receive at 2. cbn [ap_id]. rewrite Ht, Z.eqb_refl by done. cbn [snd]. rewrite E2. cbn [ap_phase].
    unfold receive. cbn [ap_id]. rewrite Ht, Z.eqb_refl by done. cbn [snd ap_phase]. by rewrite E2, E3.
  - assert (∀ c, (c / 2 ^ 18) mod 4 = 0 → receive (id, c) (Ap i ph) = Ap i ph) as Hr.
    { intros c E. unfold receive. cbn [ap_id]. rewrite Ht by done. by rewrite (proj2 (Z.eqb_neq id i)) by done. }
    by rewrite !Hr by done.
Qed.

(** *** The invariant *)
Context (cpus0 : list percpu) (Hlen : Z.of_nat (length cpus0) = CPUNUM) (Hnd : NoDup (apicid <$> cpus0)).
Context (Hids : Forall (λ c, fits 8 (apicid c)) cpus0) (Hentry : fits 20 slave_entry) (Hpos : 0 < slave_entry) (Hpage : slave_entry mod 4096 = 0).
Context (Hlapic : lapic ≠ NULL).

Definition PG : Z := w32 (premap_addr pgindex).
Definition top (c : percpu) : Z := w32 (c_stack c + KSTACKSIZE).
Definition same_table (cpus : list percpu) : Prop := set_started 0 <$> cpus = set_started 0 <$> cpus0.
Definition flag (cpus : list percpu) (k : nat) : option Z := started <$> cpus !! k.

Lemma same_table_lookup cpus k c : same_table cpus → cpus0 !! k = Some c → ∃ f, cpus !! k = Some (set_started f c).
Proof.
  intros Ht Hk. assert ((set_started 0 <$> cpus) !! k = Some (set_started 0 c)) as E by (rewrite Ht, list_lookup_fmap, Hk; done).
  rewrite list_lookup_fmap in E. destruct (cpus !! k) as [[f st id]|]; [|done]. injection E as Es Ei. exists f. unfold set_started. by rewrite <-Es, <-Ei.
Qed.
Lemma same_table_upd cpus k f c : same_table cpus → cpus0 !! k = Some c → same_table (<[k := set_started f c]> cpus).
Proof.
  unfold same_table. intros Ht Hk. rewrite list_fmap_insert, Ht. apply list_insert_id. by rewrite list_lookup_fmap, Hk.
Qed.
Lemma same_table_ids cpus : same_table cpus → apicid <$> cpus = apicid <$> cpus0 ∧ Z.of_nat (length cpus) = CPUNUM.
Proof.
  intros Ht. assert (length cpus = length cpus0) as E by (apply (f_equal length) in Ht; by rewrite !length_fmap in Ht). split; [|by rewrite E].
  apply (f_equal (fmap apicid)) in Ht. by rewrite <-!list_fmap_compose in Ht.
Qed.

Lemma prepare_slave_ok (i : nat) cpus m c : same_table cpus → cpus0 !! i = Some c →
  ∃ cpus' m', prepare_slave KSTACKSIZE slave_entry pgindex (Z.of_nat i) cpus m = Ok (cpus', m') ∧ same_table cpus' ∧
    (∀ k, flag cpus' k = if decide (k = i) then Some 0 else flag cpus k) ∧
    ld32 m' (w32 (slave_entry - 4)) = top c ∧ ld32 m' (w32 (slave_entry - 8)) = PG.
Proof.
  intros Ht Hc. destruct (same_table_lookup _ _ _ Ht Hc) as [f Hf]. unfold prepare_slave, upd_cpu.
  rewrite (get_cpu_ok cpus _ (set_started f c)) by (rewrite ?Nat2Z.id; done || lia). cbn [mbind res_bind]. rewrite Nat2Z.id.
  assert (<[i := set_started 0 (set_started f c)]> cpus !! i = Some (set_started 0 c)) as Hi by (apply list_lookup_insert_eq; by eapply lookup_lt_Some).
  rewrite (get_cpu_ok _ _ (set_started 0 c)) by (rewrite ?Nat2Z.id; done || lia). cbn [mbind res_bind].
  unfold fits in Hentry. rewrite !(wrap_small 32 (slave_entry - _)) by (unfold fits; Z.to_euclidean_division_equations; lia).
  eexists _, _. split_and!; [done|by apply (same_table_upd cpus i 0 c)| | |].
  - intros k. unfold flag. destruct (decide (k = i)) as [->|Hne]; [by rewrite Hi|by rewrite list_lookup_insert_ne].
  - rewrite !ld32_st32_ne by lia. apply ld32_st32_eq, wrap_fits. lia.
  - rewrite ld32_st32_ne by lia. apply ld32_st32_eq, wrap_fits. lia.
Qed.

Lemma start_slave_ok (i : nat) cpus m (s : S) c : same_table cpus → cpus0 !! i = Some c → busy s = 0%nat →
  ∃ m' s', start_slave slave_entry (Z.of_nat i) cpus m s = Ok (m', s') ∧ busy s' = 0%nat ∧
    new_commands s s' = startup_commands (apicid c) (slave_entry / 2 ^ 12) ∧
    ld32 m' (w32 (slave_entry - 4)) = ld32 m (w32 (slave_entry - 4)) ∧ ld32 m' (w32 (slave_entry - 8)) = ld32 m (w32 (slave_entry - 8)).
Proof.
  intros Ht Hc Hb. destruct (same_table_lookup _ _ _ Ht Hc) as [f Hf]. unfold start_slave.
  rewrite (get_cpu_ok cpus _ (set_started f c)) by (rewrite ?Nat2Z.id; done || lia). cbn [mbind res_bind apicid set_started].
  rewrite (premap_addr_low slave_entry) by (unfold fits in Hentry; unfold KERN_BASE; lia).
  rewrite Forall_lookup in Hids. pose proof (lapicstartap_ok (apicid c) slave_entry m s Hb (Hids _ _ Hc) Hentry) as Hs.
  destruct (lapicstartap (apicid c) slave_entry m s) as [m' s']. destruct Hs as (B & N & M). exists m', s'.
  unfold fits in Hentry. split_and!; try done; apply ld32_ext; intros x Hx; apply M; unfold wrv_byte, KERN_BASE;
    rewrite (wrap_small 32) in Hx by (unfold fits; Z.to_euclidean_division_equations; lia); lia.
Qed.

Definition params (m : mem) (c : percpu) : Prop := ld32 m (w32 (slave_entry - 4)) = top c ∧ ld32 m (w32 (slave_entry - 8)) = PG.
(** The processor [k], with the table entry [c], between its start and the end of
    the wait. *)
Definition coming (cpus : list percpu) (k : nat) (c : percpu) (ph : phase) : Prop :=
  match ph with
  | Booting p => 4096 * p = premap_addr slave_entry ∧ flag cpus k = Some 0
  | Paged cr3 => cr3 = PG ∧ flag cpus k = Some 0
  | Stacked cr3 esp => cr3 = PG ∧ esp = top c ∧ flag cpus k = Some 0
  | Joined cr3 esp => cr3 = PG ∧ esp = top c ∧ flag cpus k = Some 1
  | _ => False
  end.
Definition phase_ok (i : nat) (pc : bsp_pc) (m : mem) (cpus : list percpu) (k : nat) (c : percpu) (ph : phase) : Prop :=
  ((k < i)%nat → ph = Joined PG (top c) ∧ flag cpus k = Some 1) ∧
  (k = i → match pc with
           | Store _ => ph = Off
           | Send _ => ph = Off ∧ params m c ∧ flag cpus k = Some 0
           | Wait _ => params m c ∧ coming cpus k c ph
           | Finished => False end) ∧
  ((i < k)%nat → ph = Off).
Record boot_inv (i : nat) (y : sys) : Prop := BootInv {
  bi_pc : (1 ≤ i)%nat ∧ match y_pc y with Finished => i = Nat.max 1 (length cpus0) | Store j | Send j | Wait j => j = Z.of_nat i ∧ (i < length cpus0)%nat end;
  bi_table : same_table (y_cpus y);
  bi_idle : busy (y_dev y) = 0%nat;
  bi_len : length (y_aps y) = pred (length cpus0);
  bi_phase j c : cpus0 !! Datatypes.S j = Some c → ∃ ph, y_aps y !! j = Some (Ap (apicid c) ph) ∧ phase_ok i (y_pc y) (y_mem y) (y_cpus y) (Datatypes.S j) c ph }.

Lemma boot_initial m s : busy s = 0%nat → boot_inv 1 (s_initial cpus0 m s).
Proof.
  intros Hs. unfold s_initial, turn. split; cbn [y_pc y_cpus y_mem y_dev y_aps].
  - split; [done|]. destruct (Z.ltb_spec 1 CPUNUM); [split; [done|lia]|lia].
  - done.
  - done.
  - rewrite length_fmap. by destruct cpus0.
  - intros j c Hc. exists Off. rewrite list_lookup_fmap. pose proof (lookup_lt_Some _ _ _ Hc) as Hlt.
    replace (tail cpus0 !! j) with (Some c) by (rewrite <-Hc; by destruct cpus0). split; [done|].
    split_and!; [lia| |done]. intros Ej. destruct (Z.ltb_spec 1 CPUNUM); [done|lia].
Qed.

(** Only the processor that the first one waits for is on its way. *)
Lemma boot_active i y j id ph : boot_inv i y → y_aps y !! j = Some (Ap id ph) → ph ≠ Off → (∀ cr3 esp, ph ≠ Joined cr3 esp) →
  y_pc y = Wait (Z.of_nat i) ∧ Datatypes.S j = i ∧ ∃ c, cpus0 !! i = Some c ∧ id = apicid c ∧ params (y_mem y) c ∧ coming (y_cpus y) i c ph.
Proof.
  intros [Bpc _ _ Bl Bp] Hj N1 N2. pose proof (lookup_lt_Some _ _ _ Hj) as Hlt. rewrite Bl in Hlt.
  destruct (lookup_lt_is_Some_2 cpus0 (Datatypes.S j)) as [c Hc]; [lia|].
  destruct (Bp j c Hc) as (ph' & Hj' & (P1 & P2 & P3)). rewrite Hj in Hj'. injection Hj' as -> <-.
  destruct (Nat.lt_trichotomy (Datatypes.S j) i) as [Hl|[He|Hl]]; [by destruct (P1 Hl) as [-> _]; destruct (N2 PG (top c))| |by destruct N1; apply P3].
  subst i. specialize (P2 eq_refl). destruct (y_pc y) as [k|k|k|]; [done|by destruct P2| |done]. destruct Bpc as [_ [-> _]].
  destruct P2 as [Hpar Hco]. split_and!; [done|done|]. by exists c.
Qed.

(** That processor moves on. *)
Lemma boot_advance i j cpus cpus' m s aps c ph : boot_inv i (Sys (Wait (Z.of_nat i)) cpus m s aps) → Datatypes.S j = i → cpus0 !! i = Some c →
  same_table cpus' → (∀ k, k ≠ i → flag cpus' k = flag cpus k) → params m c → coming cpus' i c ph →
  boot_inv i (Sys (Wait (Z.of_nat i)) cpus' m s (<[j := Ap (apicid c) ph]> aps)).
Proof.
  intros [Bpc _ Bi Bl Bp] Hj Hc Ht Hf Hpar Hco. cbn [y_pc y_cpus y_mem y_dev y_aps] in *.
  split; cbn [y_pc y_cpus y_mem y_dev y_aps]; [done|done|done|by rewrite length_insert|].
  intros j' c' Hc'. destruct (Bp j' c' Hc') as (ph' & Hj' & P1 & P2 & P3). destruct (decide (j' = j)) as [->|Hne].
  - rewrite Hj, Hc in Hc'. injection Hc' as <-. exists ph. split; [apply list_lookup_insert_eq; by eapply lookup_lt_Some|]. split_and!; [lia| |lia].
    intros _. rewrite Hj. done.
  - exists ph'. rewrite list_lookup_insert_ne by done. split; [done|]. unfold phase_ok. rewrite Hf by lia. split_and!; [done|lia|done].
Qed.

Definition weight (ph : phase) : nat :=
  match ph with Booting _ => 4 | Paged _ => 3 | Stacked _ _ => 2 | Joined _ _ => 1 | _ => 0 end.
(** The steps that are left. *)
Definition work (y : sys) : nat :=
  match y_pc y with
  | Finished => 0
  | Store i => 6 * Z.to_nat (CPUNUM - i) + 6
  | Send i => 6 * Z.to_nat (CPUNUM - i) + 5
  | Wait i => 6 * Z.to_nat (CPUNUM - i) + match y_aps y !! Z.to_nat (i - 1) with Some a => weight (ap_phase a) | None => 0 end
  end.

Lemma boot_store i cpus m s aps cpus' m' : boot_inv i (Sys (Store (Z.of_nat i)) cpus m s aps) →
  prepare_slave KSTACKSIZE slave_entry pgindex (Z.of_nat i) cpus m = Ok (cpus', m') → boot_inv i (Sys (Send (Z.of_nat i)) cpus' m' s aps).
Proof.
  intros [[B1 [_ B2]] Bt Bi Bl Bp] E. cbn [y_pc y_cpus y_mem y_dev y_aps] in *. destruct (lookup_lt_is_Some_2 cpus0 i B2) as [c Hc].
  destruct (prepare_slave_ok i cpus m c Bt Hc) as (? & ? & E' & Ht & Hf & Hp). rewrite E in E'. injection E' as <- <-.
  split; cbn [y_pc y_cpus y_mem y_dev y_aps]; try done. intros j c' Hc'. destruct (Bp j c' Hc') as (ph & Hj & P1 & P2 & P3). exists ph. split; [done|].
  unfold phase_ok. rewrite Hf. destruct (decide (Datatypes.S j = i)) as [Ei|]; [|split_and!; done]. split_and!; [lia| |done].
  intros _. rewrite Ei, Hc in Hc'. injection Hc' as <-. by split; [apply P2|].
Qed.

Lemma boot_send i cpus m s aps m' s' : boot_inv i (Sys (Send (Z.of_nat i)) cpus m s aps) →
  start_slave slave_entry (Z.of_nat i) cpus m s = Ok (m', s') → boot_inv i (Sys (Wait (Z.of_nat i)) cpus m' s' (receive_all (new_commands s s') aps)).
Proof.
  intros [[B1 [_ B2]] Bt Bi Bl Bp] E. cbn [y_pc y_cpus y_mem y_dev y_aps] in *. destruct (lookup_lt_is_Some_2 cpus0 i B2) as [c Hc].
  destruct (start_slave_ok i cpus m s c Bt Hc Bi) as (? & ? & E' & Hi & Hn & Hm4 & Hm8). rewrite E in E'. injection E' as <- <-. rewrite Hn.
  unfold fits in Hentry. assert (fits 8 (slave_entry / 2 ^ 12)) as Hpg by (unfold fits; Z.to_euclidean_division_equations; lia).
  split; cbn [y_pc y_cpus y_mem y_dev y_aps]; [done|done|done|unfold receive_all; by rewrite length_fmap|]. intros j c' Hc'.
  destruct (Bp j c' Hc') as (ph & Hj & P1 & P2 & P3). unfold receive_all. rewrite list_lookup_fmap, Hj. cbn [fmap option_fmap option_map].
  rewrite startup_received by done. cbn [ap_id]. destruct (decide (Datatypes.S j = i)) as [Ei|Hne].
  - rewrite Ei, Hc in Hc'. injection Hc' as <-. rewrite Z.eqb_refl. eexists. split; [done|]. destruct (P2 Ei) as (_ & [Q1 Q2] & Hf).
    split_and!; [lia| |lia]. intros _. unfold params. rewrite Hm4, Hm8. split; [done|]. split; [|done].
    rewrite premap_addr_low by (unfold KERN_BASE; lia). Z.to_euclidean_division_equations. lia.
  - rewrite (proj2 (Z.eqb_neq _ _)).
    + exists ph. split; [done|]. by split_and!.
    + intros Eid. apply Hne. eapply NoDup_lookup; [exact Hnd|by rewrite list_lookup_fmap, Hc'|by rewrite list_lookup_fmap, Hc, Eid].
Qed.

Lemma boot_wait i cpus m s aps c : boot_inv i (Sys (Wait (Z.of_nat i)) cpus m s aps) → get_cpu cpus (Z.of_nat i) = Ok c → started c ≠ 0 →
  boot_inv (Datatypes.S i) (Sys (turn (Z.of_nat i + 1)) cpus m s aps).
Proof.
  intros [[B1 [_ B2]] Bt Bi Bl Bp] Hg Hs. cbn [y_pc y_cpus y_mem y_dev y_aps] in *.
  assert (flag cpus i = Some (started c)) as Hfl.
  { unfold get_cpu in Hg. rewrite (proj2 (Z.leb_le _ _)), Nat2Z.id in Hg by lia. unfold flag. destruct (cpus !! i); [|done]. by injection Hg as ->. }
  split; cbn [y_pc y_cpus y_mem y_dev y_aps]; [|done|done|done|].
  - split; [lia|]. unfold turn. destruct (Z.ltb_spec (Z.of_nat i + 1) CPUNUM); [split|]; lia.
  - intros j c' Hc'. pose proof (lookup_lt_Some _ _ _ Hc'). destruct (Bp j c' Hc') as (ph & Hj & P1 & P2 & P3). exists ph. split; [done|]. split_and!.
    + intros Hlt. destruct (decide (Datatypes.S j = i)) as [Ei|]; [|apply P1; lia]. destruct (P2 Ei) as [_ Hco].
      subst i. destruct ph; cbn in Hco; destruct_and?; try done; [congruence..|]. by subst.
    + intros E. unfold turn. rewrite (proj2 (Z.ltb_lt _ _)) by lia. apply P3. lia.
    + intros Hlt. apply P3. lia.
Qed.

Lemma work_advance i j cpus cpus' m s aps id ph ph' : Datatypes.S j = i → aps !! j = Some (Ap id ph) → (weight ph' < weight ph)%nat →
  (work (Sys (Wait (Z.of_nat i)) cpus' m s (<[j := Ap id ph']> aps)) < work (Sys (Wait (Z.of_nat i)) cpus m s aps))%nat.
Proof.
  intros <- Hj Hw. unfold work. cbn [y_pc y_aps]. replace (Z.to_nat (Z.of_nat (Datatypes.S j) - 1)) with j by lia.
  rewrite Hj, list_lookup_insert_eq by (by eapply lookup_lt_Some). cbn [ap_phase]. lia.
Qed.

(** [claim_started] on the processor of the entry [i]. *)
Lemma claim_ok (i : nat) cpus c (d : S) : same_table cpus → cpus0 !! i = Some c → lreg ID d = apicid c * 2 ^ 24 →
  cpuid CPUNUM lapic cpus d = Ok (Z.of_nat i, (lapic_rd ID d).2) ∧
  claim_started CPUNUM lapic cpus d = Ok (<[i := set_started 1 c]> cpus, (lapic_rd ID d).2).
Proof.
  intros Ht Hc Hd. destruct (same_table_lookup _ _ _ Ht Hc) as [f Hf]. destruct (same_table_ids _ Ht) as [Eids El].
  assert (cpuid CPUNUM lapic cpus d = Ok (Z.of_nat i, (lapic_rd ID d).2)) as E by (apply (cpuid_nth CPUNUM lapic cpus d i (set_started f c)); by rewrite ?Eids).
  split; [done|]. unfold claim_started. rewrite E. cbn [mbind res_bind]. unfold upd_cpu.
  rewrite (get_cpu_ok cpus _ (set_started f c)) by (rewrite ?Nat2Z.id; done || lia). cbn [mbind res_bind]. by rewrite Nat2Z.id.
Qed.

Lemma boot_step i y y' : boot_inv i y → sstep y y' → ∃ i', boot_inv i' y' ∧ (work y' < work y)%nat.
Proof.
  intros Hinv Hst. pose proof Hinv as [Bpc Bt Bi Bl Bp].
  destruct Hst as [k cpus m s aps cpus' m' E|k cpus m s aps m' s' E|k cpus m s aps c E Hc|pc cpus m s aps j id page Hj Ep
    |pc cpus m s aps j id cr3 Hj|pc cpus m s aps j id cr3 esp d d' d'' k cpus' Hj Hid Ec Hk E]; cbn [y_pc y_cpus y_mem y_dev y_aps] in *.
  - destruct Bpc as [_ [-> B2]]. exists i. split; [by eapply boot_store|]. cbn. lia.
  - destruct Bpc as [B1 [-> B2]]. exists i. assert (boot_inv i (Sys (Wait (Z.of_nat i)) cpus m' s' (receive_all (new_commands s s') aps))) as Hn by by eapply boot_send.
    split; [done|]. unfold work. cbn [y_pc y_aps]. destruct (receive_all _ _ !! _) as [a|]; [|lia]. destruct a as [id ph]. cbn. destruct ph; cbn; lia.
  - destruct Bpc as [B1 [-> B2]]. exists (Datatypes.S i). split; [by eapply boot_wait|]. unfold work, turn. cbn [y_pc y_aps].
    destruct (lookup_lt_is_Some_2 cpus0 i B2) as [c' Hc']. destruct i as [|j]; [lia|]. destruct (Bp j c' Hc') as (ph & Hj & _ & P2 & _).
    replace (Z.to_nat (Z.of_nat (Datatypes.S j) - 1)) with j by lia. rewrite Hj. cbn [ap_phase]. destruct (P2 eq_refl) as [_ Hco].
    destruct (Z.ltb_spec (Z.of_nat (Datatypes.S j) + 1) CPUNUM); destruct ph; cbn in Hco |- *; (done || lia).
  - destruct (boot_active _ _ _ _ _ Hinv Hj) as (Ew & Ei & c & Hc & -> & Hp & Hco); [done|done|]. cbn [y_pc y_mem y_cpus] in *. subst pc.
    exists i. split; [apply (boot_advance i j cpus cpus m s aps c); try done; by destruct Hp, Hco|].
    eapply work_advance; [done|done|cbn; lia].
  - destruct (boot_active _ _ _ _ _ Hinv Hj) as (Ew & Ei & c & Hc & -> & Hp & Hco); [done|done|]. cbn [y_pc y_mem y_cpus] in *. subst pc.
    exists i. split; [apply (boot_advance i j cpus cpus m s aps c); try done; by destruct Hp, Hco|].
    eapply work_advance; [done|done|cbn; lia].
  - destruct (boot_active _ _ _ _ _ Hinv Hj) as (Ew & Ei & c & Hc & -> & Hp & Hco); [done|done|]. cbn [y_pc y_mem y_cpus] in *. subst pc.
    destruct (claim_ok i cpus c d Bt Hc Hid) as [Ec' _]. rewrite Ec' in Ec. injection Ec as <- <-.
    destruct (claim_ok i cpus c (lapic_rd ID d).2 Bt Hc) as [_ E']; [by rewrite (proj1 (rd_keeps ID d))|]. rewrite E' in E. injection E as <- <-.
    destruct (same_table_lookup _ _ _ Bt Hc) as [f Hf]. pose proof (lookup_lt_Some _ _ _ Hf) as Hlt.
    exists i. split; [apply (boot_advance i j cpus _ m s aps c); try done|].
    + by apply same_table_upd.
    + intros k' Hne. unfold flag. by rewrite list_lookup_insert_ne.
    + destruct Hco as (-> & -> & _). split_and!; [done|done|]. unfold flag. by rewrite list_lookup_insert_eq.
    + eapply work_advance; [done|done|cbn; lia].
Qed.

Lemma boot_progress i y : boot_inv i y → (∀ id, fits 8 id → ∃ d : S, lreg ID d = id * 2 ^ 24) → y_pc y ≠ Finished → ∃ y', sstep y y'.
Proof.
  intros [[B1 Bpc] Bt Bi Bl Bp] Hown Hpc. destruct y as [pc cpus m s aps]. cbn [y_pc y_cpus y_mem y_dev y_aps] in *.
  destruct pc as [k|k|k|]; [..|done]; destruct Bpc as [-> B2]; destruct (lookup_lt_is_Some_2 cpus0 i B2) as [c Hc].
  - destruct (prepare_slave_ok i cpus m c Bt Hc) as (cpus' & m' & E & _). eexists. by apply st_store.
  - destruct (start_slave_ok i cpus m s c Bt Hc Bi) as (m' & s' & E & _). eexists. by apply st_send.
  - destruct i as [|j]; [lia|]. destruct (Bp j c Hc) as (ph & Hj & _ & P2 & _). destruct (P2 eq_refl) as [_ Hco].
    destruct ph as [| |page|cr3|cr3 esp|cr3 esp]; cbn in Hco; [done|done|..].
    + eexists. eapply st_page; [done|]. apply Hco.
    + eexists. by eapply st_stack.
    + rewrite Forall_lookup in Hids. destruct (Hown (apicid c)) as [d Hd]; [by eapply Hids|].
      destruct (claim_ok _ cpus c d Bt Hc Hd) as [E1 _]. destruct (claim_ok _ cpus c (lapic_rd ID d).2 Bt Hc) as [_ E2]; [by rewrite (proj1 (rd_keeps ID d))|].
      eexists. by eapply (st_join _ cpus m s aps j _ cr3 esp d).
    + destruct Hco as (_ & _ & Hf). unfold flag in Hf. destruct (cpus !! Datatypes.S j) as [c'|] eqn:E; [|done]. injection Hf as Hf.
      eexists. eapply (st_wait _ cpus m s aps c'); [|by rewrite Hf]. apply get_cpu_ok; [lia|]. by rewrite Nat2Z.id.
Qed.

Lemma boot_reached m s n y : busy s = 0%nat → nsteps sstep n (s_initial cpus0 m s) y → ∃ i, boot_inv i y ∧ (n + work y ≤ work (s_initial cpus0 m s))%nat.
Proof.
  intros Hs. revert y. induction n as [|n IH]; intros y Hn.
  - inversion Hn; subst. exists 1%nat. split; [by apply boot_initial|lia].
  - apply nsteps_inv_r in Hn as (y1 & Hn & Hst). destruct (IH y1 Hn) as (i & Hi & Hw). destruct (boot_step i y1 y Hi Hst) as (i' & Hi' & Hw').
    exists i'. split; [done|lia].
Qed.

(** A processor that has loaded its directory, or its stack pointer too. *)
Definition loaded (ph : phase) (cr3 : Z) (esp : option Z) : Prop :=
  match ph with Paged x => x = cr3 ∧ esp = None | Stacked x e | Joined x e => x = cr3 ∧ esp = Some e | _ => False end.

(** C20. Starting the other processors ([smp_startup] of the PC with [lapicstartap],
    the entry code and [claim_started]), for a table with different APIC
    identifiers and a controller that delivers a command at once: however the
    processors interleave, each one comes up with the kernel's page directory and
    with the end of its own stack, although all of them read these from the same
    two words; the first processor never gets stuck before it has finished, it
    finishes after a bounded number of steps, and then every other processor has
    joined and has set its flag. *)
Theorem smp_startup_handshake m s n y : busy s = 0%nat → (∀ id, fits 8 id → ∃ d : S, lreg ID d = id * 2 ^ 24) →
  nsteps sstep n (s_initial cpus0 m s) y →
  (∀ j c, cpus0 !! Datatypes.S j = Some c → ∃ ph, y_aps y !! j = Some (Ap (apicid c) ph) ∧
     (∀ cr3 esp, loaded ph cr3 esp → cr3 = PG ∧ (∀ e, esp = Some e → e = top c)) ∧
     (y_pc y = Finished → ph = Joined PG (top c) ∧ flag (y_cpus y) (Datatypes.S j) = Some 1)) ∧
  (y_pc y ≠ Finished → ∃ y', sstep y y') ∧ (n ≤ 6 * length cpus0)%nat.
Proof.
  intros Hs Hown Hn. destruct (boot_reached m s n y Hs Hn) as (i & Hinv & Hw). split_and!.
  - intros j c Hc. destruct (bi_phase _ _ Hinv j c Hc) as (ph & Hj & P1 & P2 & P3). exists ph. split_and!; [done| |].
    + intros cr3 esp Hl. destruct (Nat.lt_trichotomy (Datatypes.S j) i) as [H|[H|H]].
      * destruct (P1 H) as [-> _]. destruct Hl as [<- ->]. split; [done|]. by intros e [= <-].
      * specialize (P2 H). destruct (y_pc y); [by subst ph|by destruct P2 as [-> _]| |done].
        destruct P2 as [_ Hco]. destruct ph; cbn in Hl, Hco; try done; destruct Hl as [<- ->]; (split; [apply Hco|]); try done; by intros e [= <-]; apply Hco.
      * by rewrite (P3 H) in Hl.
    + intros Hf. destruct (bi_pc _ _ Hinv) as [_ Hpc]. rewrite Hf in Hpc. apply P1. apply lookup_lt_Some in Hc. lia.
  - by eapply boot_progress.
  - revert Hw. unfold s_initial, work at 2, turn. cbn [y_pc]. destruct (Z.ltb_spec 1 CPUNUM); cbn [y_pc]; lia.
Qed.
End startup.

(** ** Stacks

    The loop makes the requests of the MIPS version, which [smp_stacks_correct] is
    about, and keeps the low 32 bits of the answers. *)
Section stacks.
Context {K : Kmem} (CPUNUM KSTACKSIZE : Z).

(** The table [cpus] with the stacks [st] for the processors below [i]. *)
Definition given (cpus0 cpus : list percpu) (st : list Z) (i : Z) : Prop :=
  length cpus = length cpus0 ∧ length st = length cpus0 ∧
  ∀ k c, cpus0 !! k = Some c → cpus !! k = Some (if bool_decide (1 ≤ Z.of_nat k < i) then set_stack (w32 (at_ st (Z.of_nat k))) c else c).

Lemma given_next cpus0 cpus st i v : given cpus0 cpus st i → 1 ≤ i < Z.of_nat (length cpus0) →
  ∃ c, get_cpu cpus i = Ok c ∧ given cpus0 (<[Z.to_nat i := set_stack (w32 v) c]> cpus) (<[Z.to_nat i := v]> st) (i + 1).
Proof.
  intros (L1 & L2 & Hg) Hi. destruct (lookup_lt_is_Some_2 cpus0 (Z.to_nat i)) as [c Hc]; [lia|]. pose proof (Hg _ _ Hc) as Hc'.
  rewrite bool_decide_eq_false_2 in Hc' by lia. exists c. split; [apply get_cpu_ok; [lia|done]|]. split_and!; [by rewrite length_insert..|].
  intros k c' Hk. destruct (decide (k = Z.to_nat i)) as [->|Hne].
  - rewrite Hc in Hk. injection Hk as <-. rewrite list_lookup_insert_eq by lia. rewrite bool_decide_eq_true_2 by lia.
    rewrite at_insert, Z2Nat.id, Z.eqb_refl by lia. done.
  - rewrite list_lookup_insert_ne by done. rewrite (Hg _ _ Hk), at_insert by lia. rewrite (proj2 (Z.eqb_neq _ _)) by lia.
    rewrite (bool_decide_ext (1 ≤ Z.of_nat k < i) (1 ≤ Z.of_nat k < i + 1)) by lia. done.
Qed.

(** The two versions of [alloc_stacks] agree, errors included. *)
Theorem alloc_stacks_same paddr0 cpus0 st w : length st = length cpus0 → CPUNUM ≤ Z.of_nat (length cpus0) →
  match alloc_stacks CPUNUM KSTACKSIZE paddr0 st w with
  | Ok (st', w') => ∃ cpus, i386_alloc_stacks CPUNUM KSTACKSIZE paddr0 cpus0 w = Ok (cpus, w') ∧ given cpus0 cpus st' (Z.max 1 CPUNUM)
  | Err e => i386_alloc_stacks CPUNUM KSTACKSIZE paddr0 cpus0 w = Err e
  end.
Proof.
  intros Hl Hn.
  pose (R := λ (x : Z * pages * list Z * world) (y : Z * pages * list percpu * world), let '(i, p, st, w) := x in let '(i', p', cpus, w') := y in
    i = i' ∧ p = p' ∧ w = w' ∧ 1 ≤ i ∧ (i ≤ Z.max 1 CPUNUM) ∧ given cpus0 cpus st i).
  pose (Q := λ (x : list Z * world) (y : list percpu * world), x.2 = y.2 ∧ given cpus0 y.1 x.1 (Z.max 1 CPUNUM)).
  unfold alloc_stacks, i386_alloc_stacks, nr_cpus.
  match goal with |- match loop ?f ?b1 ?s1 with Ok _ => _ | Err e => loop _ ?b2 ?s2 = _ end => pose proof (loop_sim R Q b1 b2 f s1 s2) as Hsim end.
  match type of Hsim with ?H1 → ?H2 → _ => assert H1 as Hb; [|assert H2 as Hr] end.
  - clear Hsim. intros [[[i p] st1] w1] [[[i' p'] cpus] w'] (<- & <- & <- & Hi & Hmax & Hg). destruct (Z.ltb_spec i CPUNUM) as [Hlt|Hge].
    + destruct (alloc_pages (Some p) w1) as [[[r p1] w2]|e]; [|done]. cbn [mbind res_bind].
      destruct p1 as [p1|]; [|done]. cbn [of_option mbind res_bind]. destruct (r <? 0); [done|].
      destruct (given_next cpus0 cpus st1 i (paddr p1) Hg) as (c & Hc & Hg'); [lia|]. pose proof Hg as (_ & L2 & _).
      rewrite wr_ok by lia. cbn [mbind res_bind]. unfold upd_cpu. rewrite Hc. cbn [mbind res_bind]. eexists. split; [done|]. split_and!; done || lia.
    + eexists. split; [done|]. split; [done|]. by replace (Z.max 1 CPUNUM) with i by lia.
  - split_and!; try done; [lia|]. split_and!; [done|done|]. intros k c Hc. by rewrite bool_decide_eq_false_2 by lia.
  - specialize (Hsim Hb Hr). destruct (loop _ _ _) as [[st' w']|e]; [|done]. destruct Hsim as ([cpus w2] & E & Hw & Hg). cbn in Hw, Hg. subst w2. by exists cpus.
Qed.
End stacks.

(** ** Witnesses: a controller that remembers what is written to it. *)
Definition demo_apic : Type := (Z → Z) * list (Z * Z).
#[global] Instance demo_ports : Ports demo_apic := {| port_in _ _ s := (0, s); port_out _ _ _ s := s |}.
#[global] Instance demo_lapic : Lapic demo_apic := {|
  lapic_rd i s := (if i =? ICRLO then 0 else s.1 i, s);
  lapic_wr i v s := if i =? ICRLO then (s.1, s.2 ++ [(s.1 ICRHI / 2 ^ 24, v)]) else (λ j, if j =? i then v else s.1 j, s.2) |}.
#[global] Instance demo_lapic_ok : LapicOk demo_apic 0.
Proof.
  refine {| lreg j s := s.1 j; sent s := s.2; busy _ := 0%nat |}; cbn.
  - done.
  - intros i s Hi. destruct (Z.eqb_spec i ICRLO) as [->|]; [by_decision Hi|done].
  - done.
  - lia.
  - intros i v s Hi _. destruct (Z.eqb_spec i ICRLO) as [->|]; [by_decision Hi|]. cbn. by rewrite Z.eqb_refl.
  - intros i j v s _ _ Hne. destruct (i =? ICRLO); [done|]. cbn. by rewrite (proj2 (Z.eqb_neq _ _) Hne).
  - intros i v s Hi. destruct (Z.eqb_spec i ICRLO) as [->|]; [by_decision Hi|done].
  - done.
  - done.
Defined.

Definition demo_apic_state : demo_apic := (λ i, if i =? VER then 0x50014 else 0, []).
Lemma lapic_init_correct_witness :
  wp (lapic_init 1 0xFEE00000 demo_apic_state) (λ s, s.1 SVR = 0x13F ∧ s.1 PCINT = MASKED ∧ s.1 TPR = 0 ∧ s.2 = [(0, 0x88500)]).
Proof.
  eapply wp_mono; [apply (lapic_init_correct (limit := 0) 1 0xFEE00000 demo_apic_state); [done|done|lia]|].
  intros s (Hr & Hs & _). split_and!; [apply (Hr SVR); in_list|apply (Hr PCINT); in_list|apply (Hr TPR); in_list|exact Hs].
Defined.

(** Two processors: the second one has been started and has loaded its directory. *)
Definition demo_cpus : list percpu := [PerCpu 0 0 0; PerCpu 7 0x200000 1].
Lemma smp_startup_handshake_witness : ∃ y,
  nsteps (sstep 2 0x1000 0x7000 0x80104000 0xFEE00000) 3 (s_initial 2 demo_cpus (λ _, 0) demo_apic_state) y ∧
  (∃ cr3, y_aps y = [Ap 1 (Paged cr3)] ∧ cr3 = 0x104000) ∧ ∃ y', sstep 2 0x1000 0x7000 0x80104000 0xFEE00000 y y'.
Proof.
  eexists. assert (∀ (P Q : Prop), P → (P → Q) → P ∧ Q) as and_dep by tauto. apply and_dep.
  - eapply nsteps_l; [by apply st_store|]. eapply nsteps_l; [by apply st_send|]. eapply nsteps_l; [by apply (st_page _ _ _ _ _ _ _ _ _ _ 0 1 7)|]. apply nsteps_O.
  - intros Hn. destruct (smp_startup_handshake 2 0x1000 0x7000 0x80104000 0xFEE00000 demo_cpus eq_refl
      ltac:(by apply (bool_decide_unpack _)) ltac:(by repeat constructor) ltac:(done) ltac:(done) eq_refl ltac:(done) (λ _, 0) demo_apic_state 3 _
      eq_refl ltac:(intros id Hid; by exists (λ _, id * 2 ^ 24, [])) Hn) as (Hp & Hs & _). split; [|by apply Hs].
    destruct (Hp 0%nat _ eq_refl) as (ph & Hph & Hl & _). cbn in Hph. injection Hph as <-. eexists. split; [done|].
    destruct (Hl _ None (conj eq_refl eq_refl)) as [E _]. exact E.
Defined.
