(* ===== verification/Semaphore.v ===== *)
(** * Semaphores and counters of the PC

    include/arch/i386/arch-sync.h: [semaphore_dec] and [semaphore_inc] as a step
    relation in which every access to the value and every exchange on the lock of
    every processor is a step; include/arch/i386/atomic.h: the counters. *)
From S2P Require Import Prelude Util Libc I386.

(** ** Counters

    The assembly names the parameter [counter] as its memory operand, not what it
    points to: the local pointer changes, and the memory does not.  The result is
    the memory and the pointer that the function forgets when it returns. *)
Definition i386_atomic_add (counter val : Z) (m : mem) : mem * Z := (m, w32 (counter + val)).
Definition i386_atomic_sub (counter val : Z) (m : mem) : mem * Z := (m, w32 (counter - val)).
Definition i386_atomic_inc (counter : Z) (m : mem) : mem * Z := (m, w32 (counter + 1)).
Definition i386_atomic_dec (counter : Z) (m : mem) : mem * Z := (m, w32 (counter - 1)).

(** ** Semaphores *)
Record semaphore_t := Semaphore { s_val : Z; s_limit : Z; spinlock : Z }.
Definition i386_semaphore_init (val : Z) : semaphore_t := Semaphore val val UNLOCKED.

(** Where a processor is.  [Idle] and [Holding] are between the calls.  In a call
    of [semaphore_dec] it has seen a positive value and spins for the lock
    ([Spin]), has the lock and is about to look again ([Look]), is about to read
    the value for the decrement ([Read]), has read it ([Write]), or is about to
    unlock and leave ([Leave]) or try again ([Retry]); the same for
    [semaphore_inc]. *)
Inductive sem_call := Dec | Inc.
Inductive sem_pc :=
| Idle | Holding
| Spin (c : sem_call) | Look (c : sem_call) | Read (c : sem_call) | Write (c : sem_call) (v : Z) | Leave (c : sem_call) | Retry (c : sem_call).
Record sem_sys := SemSys { ss_sem : semaphore_t; ss_cpus : list sem_pc }.

(** The conditions of the two calls, what they store, and where they start and end. *)
Definition enabled (c : sem_call) (sem : semaphore_t) : bool :=
  match c with Dec => negb (s_val sem <=? 0) | Inc => negb (s_limit sem <=? s_val sem) end.
Definition stored (c : sem_call) (v : Z) : Z := match c with Dec => sgn 32 (v - 1) | Inc => sgn 32 (v + 1) end.
Definition before (c : sem_call) : sem_pc := match c with Dec => Idle | Inc => Holding end.
Definition after (c : sem_call) : sem_pc := match c with Dec => Holding | Inc => Idle end.
Definition set_val (v : Z) (sem : semaphore_t) : semaphore_t := Semaphore v (s_limit sem) (spinlock sem).
Definition set_lock (w : Z) (sem : semaphore_t) : semaphore_t := Semaphore (s_val sem) (s_limit sem) w.

(** One access of a processor: the wait for the condition, a turn of [spin_lock],
    the test, the read and the write of the value, [spin_unlock]. *)
Inductive cpu_step : semaphore_t → sem_pc → semaphore_t → sem_pc → Prop :=
| cs_poll c sem : enabled c sem = true → cpu_step sem (before c) sem (Spin c)
| cs_spin c sem w p : spin_turn (spinlock sem) = (w, p) →
    cpu_step sem (Spin c) (set_lock w sem) (match p with Inside => Look c | Outside => Spin c end)
| cs_look c sem : cpu_step sem (Look c) sem (if enabled c sem then Read c else Retry c)
| cs_read c sem : cpu_step sem (Read c) sem (Write c (s_val sem))
| cs_write c sem v : cpu_step sem (Write c v) (set_val (stored c v) sem) (Leave c)
| cs_leave c sem : cpu_step sem (Leave c) (set_lock (x_unlock (spinlock sem)) sem) (after c)
| cs_retry c sem : cpu_step sem (Retry c) (set_lock (x_unlock (spinlock sem)) sem) (before c).
Inductive sem_step : sem_sys → sem_sys → Prop :=
| sem_step_cpu sem sem' ps i p p' : ps !! i = Some p → cpu_step sem p sem' p' → sem_step (SemSys sem ps) (SemSys sem' (<[i := p']> ps)).
Definition sem_initial (val : Z) (n : nat) : sem_sys := SemSys (i386_semaphore_init val) (replicate n Idle).

(** ** The invariant *)
(** A processor has the lock; a processor counts as one of the [limit] users. *)
Definition locked (p : sem_pc) : Z := match p with Look _ | Read _ | Write _ _ | Leave _ | Retry _ => 1 | _ => 0 end.
Definition uses (p : sem_pc) : Z :=
  match p with Holding | Leave Dec => 1 | Leave Inc => 0 | Spin Inc | Look Inc | Read Inc | Write Inc _ | Retry Inc => 1 | _ => 0 end.
Fixpoint total_of (f : sem_pc → Z) (ps : list sem_pc) : Z := match ps with [] => 0 | p :: ps => f p + total_of f ps end.

Lemma total_insert f ps i p p' : ps !! i = Some p → total_of f (<[i := p']> ps) = total_of f ps - f p + f p'.
Proof.
  revert i. induction ps as [|q ps IH]; intros [|i] Hi; try done; cbn in *; [injection Hi as ->; lia|]. rewrite IH by done. lia.
Qed.
Lemma sum_nonneg f ps : (∀ p, 0 ≤ f p) → 0 ≤ total_of f ps.
Proof. intros Hf. induction ps as [|p ps IH]; cbn; [done|]. specialize (Hf p). lia. Qed.
Lemma total_member f ps i p : (∀ p, 0 ≤ f p) → ps !! i = Some p → f p ≤ total_of f ps.
Proof.
  intros Hf. revert i. induction ps as [|q ps IH]; intros [|i] Hi; try done; cbn in *.
  - injection Hi as ->. pose proof (sum_nonneg f ps Hf). lia.
  - specialize (IH i Hi). specialize (Hf q). lia.
Qed.
(** Two members count twice. *)
Lemma total_two f ps i j p q : (∀ p, 0 ≤ f p) → ps !! i = Some p → ps !! j = Some q → i ≠ j → f p + f q ≤ total_of f ps.
Proof.
  intros Hf. revert i j. induction ps as [|r ps IH]; intros [|i] [|j] Hi Hj Hne; try done; cbn in *.
  - injection Hi as ->. pose proof (total_member f ps j q Hf Hj). lia.
  - injection Hj as ->. pose proof (total_member f ps i p Hf Hi). lia.
  - specialize (IH i j Hi Hj). specialize (Hf r). lia.
Qed.
Lemma locked_nonneg p : 0 ≤ locked p. Proof. by destruct p. Qed.
Lemma uses_nonneg p : 0 ≤ uses p. Proof. destruct p as [| |[]|[]|[]|[]|[]|[]]; done. Qed.

(** What a processor in the critical section knows. *)
Definition knows (sem : semaphore_t) (p : sem_pc) : Prop :=
  match p with Read c => enabled c sem = true | Write c v => enabled c sem = true ∧ v = s_val sem | _ => True end.

Record sem_inv (L : Z) (y : sem_sys) : Prop := SemInv {
  si_limit : s_limit (ss_sem y) = L;
  si_lock : spinlock (ss_sem y) = total_of locked (ss_cpus y) ∧ total_of locked (ss_cpus y) ≤ 1;
  si_users : s_val (ss_sem y) + total_of uses (ss_cpus y) = L;
  si_val : 0 ≤ s_val (ss_sem y);
  si_knows i p : ss_cpus y !! i = Some p → knows (ss_sem y) p }.

Lemma total_replicate f p n : f p = 0 → total_of f (replicate n p) = 0.
Proof. intros Hp. induction n as [|n IH]; cbn; [done|]. lia. Qed.

Lemma sem_inv_initial L n : 0 ≤ L → sem_inv L (sem_initial L n).
Proof.
  intros HL. split; cbn [ss_sem ss_cpus sem_initial i386_semaphore_init s_val s_limit spinlock].
  - done.
  - by rewrite total_replicate.
  - rewrite total_replicate by done. lia.
  - done.
  - intros i p [-> _]%lookup_replicate. done.
Qed.

(** Everything but a write leaves what the others know; a write happens under the
    lock, where no other processor knows anything. *)
Lemma knows_other L sem ps i j p q sem' p' : sem_inv L (SemSys sem ps) → cpu_step sem p sem' p' → ps !! i = Some p → ps !! j = Some q → i ≠ j → knows sem' q.
Proof.
  intros [_ [_ Hl] _ _ Hk] Hs Hi Hj Hne. cbn [ss_sem ss_cpus] in *. pose proof (Hk j q Hj) as Hq.
  destruct Hs; try exact Hq; try (destruct q as [| |[]|[]|[]|[]|[]|[]]; exact Hq).
  pose proof (total_two locked ps i j _ q locked_nonneg Hi Hj Hne) as H2. cbn in H2. destruct q; cbn in H2 |- *; done || lia.
Qed.

Lemma sem_inv_step L y y' : L < 2 ^ 31 → sem_inv L y → sem_step y y' → sem_inv L y'.
Proof.
  intros HL Hinv Hs. destruct Hs as [sem sem' ps i p p' Hp Hc]. pose proof Hinv as [I1 [I2 I3] I4 I5 I6]. cbn [ss_sem ss_cpus] in *.
  pose proof (I6 i p Hp) as Hkn. pose proof (total_member locked ps i p locked_nonneg Hp) as Hm.
  pose proof (sum_nonneg uses ps uses_nonneg) as Hu. pose proof (sum_nonneg locked ps locked_nonneg) as Hl. pose proof (total_member uses ps i p uses_nonneg Hp) as Hmu.
  assert (∀ j q, <[i := p']> ps !! j = Some q → knows sem' p' → knows sem' q) as Hoth.
  { intros j q Hj Hk. destruct (decide (j = i)) as [->|Hne]; [|by eapply knows_other; [exact Hinv|exact Hc|exact Hp|by rewrite list_lookup_insert_ne in Hj|done]].
    rewrite list_lookup_insert_eq in Hj by (by eapply lookup_lt_Some). by injection Hj as <-. }
  assert (∀ f, total_of f (<[i := p']> ps) = total_of f ps - f p + f p') as Ht by (intros f; by apply total_insert).
  destruct Hc as [c sem He|c sem w q Hq|c sem|c sem|c sem v|c sem|c sem].
  - split; cbn [ss_sem ss_cpus]; rewrite ?Ht; [done|destruct c; cbn in *; lia|destruct c; cbn in *; lia|done|intros j q Hj; eapply Hoth; done].
  - unfold spin_turn, xchg in Hq. injection Hq as <- <-. revert Ht Hoth. destruct (Z.eqb_spec (spinlock sem) 0) as [E|E]; cbn [negb]; intros Ht Hoth.
    + split; cbn [ss_sem ss_cpus set_lock s_limit s_val spinlock]; rewrite ?Ht; [done|cbn; unfold LOCKED; lia|destruct c; cbn; lia|done|intros j q Hj; eapply Hoth; done].
    + split; cbn [ss_sem ss_cpus set_lock s_limit s_val spinlock]; rewrite ?Ht; [done|cbn; unfold LOCKED; lia|destruct c; cbn; lia|done|intros j q Hj; eapply Hoth; done].
  - split; cbn [ss_sem ss_cpus]; rewrite ?Ht; [done|destruct (enabled c sem); cbn; lia|destruct (enabled c sem), c; cbn; lia|done|].
    intros j q Hj. eapply Hoth; [done|]. by destruct (enabled c sem) eqn:E.
  - split; cbn [ss_sem ss_cpus]; rewrite ?Ht; [done|cbn; lia|destruct c; cbn; lia|done|]. intros j q Hj. eapply Hoth; [done|]. by split.
  - destruct Hkn as [He ->].
    assert (stored c (s_val sem) = match c with Dec => s_val sem - 1 | Inc => s_val sem + 1 end ∧ 0 ≤ stored c (s_val sem)) as [Es Hs0].
    { destruct c; cbn in He |- *; apply negb_true_iff, Z.leb_gt in He; rewrite sgn_small by lia; lia. }
    split; cbn [ss_sem ss_cpus set_val s_limit s_val spinlock]; rewrite ?Ht; [done|cbn; lia|rewrite Es; destruct c; cbn in *; lia|done|intros j q Hj; eapply Hoth; done].
  - split; cbn [ss_sem ss_cpus set_lock s_limit s_val spinlock]; rewrite ?Ht; [done| | |done|intros j q Hj; eapply Hoth; [done|by destruct c]].
    + cbn in Hm. destruct c; cbn; unfold UNLOCKED; lia.
    + destruct c; cbn; lia.
  - split; cbn [ss_sem ss_cpus set_lock s_limit s_val spinlock]; rewrite ?Ht; [done| | |done|intros j q Hj; eapply Hoth; [done|by destruct c]].
    + cbn in Hm. destruct c; cbn; unfold UNLOCKED; lia.
    + destruct c; cbn; lia.
Qed.

(** ** Progress *)
(** The call a processor is in, or makes next; how many steps of its own a
    processor with the lock is away from the unlock at most. *)
Definition call_of (p : sem_pc) : sem_call :=
  match p with Idle => Dec | Holding => Inc | Spin c | Look c | Read c | Write c _ | Leave c | Retry c => c end.
Definition steps_left (p : sem_pc) : nat :=
  match p with Look _ => 4 | Read _ => 3 | Write _ _ => 2 | Leave _ | Retry _ => 1 | _ => 0 end.

(** A processor on its own. *)
Definition cpu_turn (a b : semaphore_t * sem_pc) : Prop := cpu_step a.1 a.2 b.1 b.2.
Lemma cpu_alone k a b ps i : bsteps cpu_turn k a b → ps !! i = Some a.2 →
  bsteps sem_step k (SemSys a.1 ps) (SemSys b.1 (<[i := b.2]> ps)).
Proof.
  intros Hs. revert ps. induction Hs as [k [sem p]|k [sem p] [sem' p'] c Hab _ IH]; intros ps Hi; cbn in *.
  - rewrite list_insert_id by done. constructor.
  - econstructor; [by eapply sem_step_cpu|]. specialize (IH (<[i := p']> ps)). rewrite list_insert_insert_eq in IH. apply IH.
    by apply list_lookup_insert_eq, (lookup_lt_Some _ _ _ Hi).
Qed.

Lemma turn_l k sem p sem' p' b : cpu_step sem p sem' p' → bsteps cpu_turn k (sem', p') b → bsteps cpu_turn (S k) (sem, p) b.
Proof. intros Hs Hb. by eapply bsteps_l, Hb. Qed.

(** With the lock free and the condition true, a processor completes its call on
    its own, from before it or from the wait for the lock. *)
Lemma complete c sem p : spinlock sem = UNLOCKED → enabled c sem = true → p = before c ∨ p = Spin c →
  bsteps cpu_turn 6 (sem, p) (set_val (stored c (s_val sem)) sem, after c).
Proof.
  intros Hl He Hp. destruct sem as [v lim w]. cbn [spinlock] in Hl. subst w.
  assert (bsteps cpu_turn 5 (Semaphore v lim UNLOCKED, Spin c) (set_val (stored c v) (Semaphore v lim UNLOCKED), after c)) as H5.
  { eapply turn_l; [by apply (cs_spin c _ LOCKED Inside)|].
    assert (enabled c (set_lock LOCKED (Semaphore v lim UNLOCKED)) = true) as He' by (by destruct c).
    eapply turn_l; [apply (cs_look c)|]. rewrite He'. eapply turn_l; [apply (cs_read c)|]. eapply turn_l; [apply (cs_write c)|].
    eapply turn_l; [apply (cs_leave c)|]. constructor. }
  destruct Hp as [->| ->]; [|by apply bsteps_S]. eapply turn_l; [by apply (cs_poll c)|exact H5].
Qed.

(** A processor with the lock gives it back on its own, in four steps. *)
Lemma release sem p : locked p = 1 → ∃ v q, bsteps cpu_turn 4 (sem, p) (Semaphore v (s_limit sem) UNLOCKED, q) ∧
  (q = before (call_of p) ∨ q = after (call_of p)).
Proof.
  assert (∀ c sem k, bsteps cpu_turn (S k) (sem, Leave c) (Semaphore (s_val sem) (s_limit sem) UNLOCKED, after c)) as H1
    by (intros; by apply bsteps_once, (cs_leave c sem0)).
  assert (∀ c sem k, bsteps cpu_turn (S k) (sem, Retry c) (Semaphore (s_val sem) (s_limit sem) UNLOCKED, before c)) as H1'
    by (intros; by apply bsteps_once, (cs_retry c sem0)).
  assert (∀ c v sem k, bsteps cpu_turn (S (S k)) (sem, Write c v) (Semaphore (stored c v) (s_limit sem) UNLOCKED, after c)) as H2
    by (intros; eapply turn_l; [apply (cs_write c sem0 v)|apply (H1 c (set_val (stored c v) sem0))]).
  assert (∀ c sem k, bsteps cpu_turn (S (S (S k))) (sem, Read c) (Semaphore (stored c (s_val sem)) (s_limit sem) UNLOCKED, after c)) as H3
    by (intros; eapply turn_l; [apply (cs_read c sem0)|apply H2]).
  intros Hl. destruct p as [| |c|c|c|c v|c|c]; try done; cbn [call_of].
  - destruct (enabled c sem) eqn:E; do 2 eexists.
    + split; [|by right]. eapply turn_l; [apply (cs_look c sem)|]. rewrite E. apply H3.
    + split; [|by left]. eapply turn_l; [apply (cs_look c sem)|]. rewrite E. apply H1'.
  - do 2 eexists. split; [apply H3|by right].
  - do 2 eexists. split; [apply H2|by right].
  - do 2 eexists. split; [apply H1|by right].
  - do 2 eexists. split; [apply H1'|by left].
Qed.
Lemma total_pos f ps : 0 < total_of f ps → ∃ i p, ps !! i = Some p ∧ 0 < f p.
Proof.
  induction ps as [|q ps IH]; cbn; [lia|]. intros Hs. destruct (decide (0 < f q)) as [Hq|Hq]; [by exists 0%nat, q|].
  destruct IH as (i & p & Hi & Hp); [lia|]. by exists (S i), p.
Qed.
Lemma sem_inv_steps L k y y' : L < 2 ^ 31 → sem_inv L y → bsteps sem_step k y y' → sem_inv L y'.
Proof. intros HL Hi Hs. induction Hs as [|k a b c Hab _ IH]; [done|]. apply IH. by eapply sem_inv_step. Qed.

(** The lock is held exactly by the processor that is inside. *)
Lemma lock_held L y : sem_inv L y →
  (spinlock (ss_sem y) = LOCKED ∧ ∃ i p, ss_cpus y !! i = Some p ∧ locked p = 1) ∨
  (spinlock (ss_sem y) = UNLOCKED ∧ ∀ i p, ss_cpus y !! i = Some p → locked p = 0).
Proof.
  intros [_ [I2 I3] _ _ _]. pose proof (sum_nonneg locked (ss_cpus y) locked_nonneg) as H0.
  assert (∀ p, locked p ≤ 1) as Hle by (by intros []). unfold LOCKED, UNLOCKED.
  destruct (decide (total_of locked (ss_cpus y) = 0)) as [Hz|Hz].
  - right. split; [lia|]. intros i p Hi. pose proof (total_member locked _ i p locked_nonneg Hi). pose proof (locked_nonneg p). lia.
  - left. split; [lia|]. destruct (total_pos locked (ss_cpus y)) as (i & p & Hi & Hp); [lia|]. exists i, p. specialize (Hle p). split; [done|lia].
Qed.

(** The lock comes free, and a processor is then before its call, waits for the
    lock, or has completed the call. *)
Lemma lock_comes_free L y i p : sem_inv L y → ss_cpus y !! i = Some p →
  ∃ y' p', bsteps sem_step 4 y y' ∧ spinlock (ss_sem y') = UNLOCKED ∧ ss_cpus y' !! i = Some p' ∧
    (p' = before (call_of p) ∨ p' = Spin (call_of p) ∨ p' = after (call_of p)).
Proof.
  intros Hinv Hi. pose proof Hinv as [_ [_ I3] _ _ _].
  assert (∀ p, locked p = 0 → p = before (call_of p) ∨ p = Spin (call_of p)) as Hout.
  { intros q Hq. destruct q; try done; by (left + right). }
  destruct (lock_held L y Hinv) as [(_ & j & q & Hj & Hq)|[Hfree Hz]].
  - destruct y as [sem ps]. cbn [ss_sem ss_cpus] in *. destruct (release sem q Hq) as (v & q' & Hr & Hq').
    pose proof (cpu_alone _ _ _ ps j Hr Hj) as Hs. destruct (decide (i = j)) as [->|Hne].
    + rewrite Hi in Hj. injection Hj as ->. eexists _, q'. split_and!; [exact Hs|done| |tauto].
      by apply list_lookup_insert_eq, (lookup_lt_Some _ _ _ Hi).
    + eexists _, p. split_and!; [exact Hs|done|by cbn [ss_cpus]; rewrite list_lookup_insert_ne|].
      assert (locked p = 0) as Hp; [|destruct (Hout p Hp); tauto].
      pose proof (total_two locked ps i j p q locked_nonneg Hi Hj Hne). pose proof (locked_nonneg p). lia.
  - exists y, p. split_and!; [constructor|done|done|]. destruct (Hout p (Hz i p Hi)); tauto.
Qed.

(** With the lock free a call is completed at once, or after one [semaphore_inc]
    of another processor. *)
Lemma call_completes L y i p c : 0 < L < 2 ^ 31 → sem_inv L y → spinlock (ss_sem y) = UNLOCKED → ss_cpus y !! i = Some p →
  p = before c ∨ p = Spin c → ∃ y', bsteps sem_step 12 y y' ∧ ss_cpus y' !! i = Some (after c).
Proof.
  intros HL Hinv Hl Hi Hp. pose proof Hinv as [I1 [I2 I3] I4 I5 _]. destruct y as [sem ps]. cbn [ss_sem ss_cpus] in *.
  pose proof (lookup_lt_Some _ _ _ Hi) as Hlen. destruct (enabled c sem) eqn:E.
  { pose proof (cpu_alone _ _ _ ps i (complete c sem p Hl E Hp) Hi) as Hs.
    eexists. split; [eapply bsteps_weaken; [|exact Hs]; lia|]. by apply list_lookup_insert_eq. }
  pose proof (total_member uses ps i p uses_nonneg Hi) as Hu. destruct c; cbn in E; apply negb_false_iff, Z.leb_le in E.
  2: { destruct Hp as [->| ->]; cbn in Hu; lia. }
  destruct (total_pos uses ps) as (j & q & Hj & Hq); [lia|].
  pose proof (total_member locked ps j q locked_nonneg Hj) as Hlq. unfold UNLOCKED in Hl.
  assert (q = Holding ∨ q = Spin Inc) as Hq' by (destruct q as [| |[]|[]|[]|[]|[]|[]]; cbn in Hq, Hlq; (by (left + right)) || lia).
  assert (i ≠ j) as Hne by (intros ->; rewrite Hi in Hj; injection Hj as ->; destruct Hp as [->| ->]; cbn in Hq; lia).
  assert (enabled Inc sem = true) as EI by (cbn; apply negb_true_iff, Z.leb_gt; lia).
  pose proof (cpu_alone _ _ _ ps j (complete Inc sem q Hl EI Hq') Hj) as Hs1. cbn [fst snd] in Hs1.
  set (sem1 := set_val (stored Inc (s_val sem)) sem) in *.
  assert (enabled Dec sem1 = true) as ED.
  { cbn. replace (s_val sem) with 0 by lia. done. }
  assert (<[j := after Inc]> ps !! i = Some p) as Hi1 by (by rewrite list_lookup_insert_ne).
  pose proof (cpu_alone _ _ _ _ i (complete Dec sem1 p Hl ED Hp) Hi1) as Hs2.
  eexists. split; [by eapply (bsteps_trans 6 6); [exact Hs1|exact Hs2]|]. apply list_lookup_insert_eq. by rewrite length_insert.
Qed.

(** C34. The semaphore of the i386 port, for any number of processors and every
    interleaving of their accesses: the value and the processors between a
    [semaphore_dec] and the [semaphore_inc] that gives it back add up to the limit,
    so at most [limit] are in between, and the value stays in bounds; at most one
    processor is between lock and unlock, and the lock word says whether there is
    one, so a turn of [spin_lock] fails only while another is inside; a processor
    inside is never blocked, and each step it takes brings it nearer to the unlock,
    four at most.  No deadlock: unless the limit is 0, for every processor, also
    one that waits for the value or for the lock, at most 16 further steps of the
    processors lead to the end of its call.  (That a waiting processor gets through
    in every fair interleaving is not claimed: an exchange lock does not promise
    it.) *)
Theorem semaphore_correct L n y : 0 ≤ L < 2 ^ 31 → rtc sem_step (sem_initial L n) y →
  0 ≤ s_val (ss_sem y) ≤ L ∧ s_val (ss_sem y) + total_of uses (ss_cpus y) = L ∧
  (∀ i j p q, ss_cpus y !! i = Some p → ss_cpus y !! j = Some q → locked p = 1 → locked q = 1 → i = j) ∧
  ((spinlock (ss_sem y) = LOCKED ∧ ∃ i p, ss_cpus y !! i = Some p ∧ locked p = 1) ∨
   (spinlock (ss_sem y) = UNLOCKED ∧ ∀ i p, ss_cpus y !! i = Some p → locked p = 0)) ∧
  (∀ i p, ss_cpus y !! i = Some p → locked p = 1 → (steps_left p ≤ 4)%nat ∧ (∃ sem' p', cpu_step (ss_sem y) p sem' p') ∧
     ∀ sem sem' p', cpu_step sem p sem' p' → (steps_left p' < steps_left p)%nat) ∧
  (0 < L → ∀ i p, ss_cpus y !! i = Some p → ∃ y', bsteps sem_step 16 y y' ∧ ss_cpus y' !! i = Some (after (call_of p))).
Proof.
  intros HL Hr. assert (sem_inv L y) as Hinv.
  { pose proof (sem_inv_initial L n ltac:(lia)) as H0. revert H0. induction Hr as [|a b c Hab _ IH]; [done|]. intros Ha.
    apply IH. eapply sem_inv_step; [lia|done|done]. }
  pose proof Hinv as [I1 [I2 I3] I4 I5 I6].
  pose proof (sum_nonneg uses (ss_cpus y) uses_nonneg). split_and!; [lia|lia|done| |by eapply lock_held| |].
  - intros i j p q Hi Hj Lp Lq. destruct (decide (i = j)) as [|Hne]; [done|].
    pose proof (total_two locked _ i j p q locked_nonneg Hi Hj Hne). lia.
  - intros i p Hi Hp. split_and!; [destruct p; cbn; lia|destruct p; try done; eauto using cpu_step|].
    intros sem sem' p' Hs. destruct Hs as [c ? ?|c ? w q ?|c ?|c ?|c ? v|c ?|c ?]; cbn in *; try lia; try (destruct c; cbn in *; lia).
    destruct (enabled c sem); cbn; lia.
  - intros HL0 i p Hi. destruct (lock_comes_free L y i p Hinv Hi) as (y1 & p1 & Hs1 & Hf & Hi1 & Hp1).
    apply or_assoc in Hp1 as [Hp|Hp].
    + destruct (call_completes L y1 i p1 (call_of p)) as (y2 & Hs2 & Hi2); [lia|eapply sem_inv_steps; [|done..]; lia|done|done|done|].
      exists y2. split; [by eapply (bsteps_trans 4 12)|done].
    + exists y1. split; [by eapply bsteps_weaken; [|exact Hs1]; lia|by subst p1].
Qed.

Lemma semaphore_correct_witness :
  let y := SemSys (Semaphore 1 1 LOCKED) [Idle; Look Dec] in
  rtc sem_step (sem_initial 1 2) y ∧ s_val (ss_sem y) + total_of uses (ss_cpus y) = 1 ∧
  ∃ y', bsteps sem_step 16 y y' ∧ ss_cpus y' !! 0%nat = Some Holding.
Proof.
  intros y. assert (rtc sem_step (sem_initial 1 2) y) as Hr.
  { eapply rtc_l; [by eapply (sem_step_cpu _ _ [Idle; Idle] 1 Idle), (cs_poll Dec)|]. apply rtc_once.
    by apply (sem_step_cpu (i386_semaphore_init 1) (Semaphore 1 1 LOCKED) [Idle; Spin Dec] 1 (Spin Dec) (Look Dec)), (cs_spin Dec (i386_semaphore_init 1) LOCKED Inside). }
  destruct (semaphore_correct 1 2 y) as (_ & H2 & _ & _ & _ & H6); [lia|exact Hr|].
  split; [exact Hr|]. split; [exact H2|]. exact (H6 ltac:(lia) 0%nat Idle eq_refl).
Defined.
