(* ===== verification/I386Pg.v ===== *)
(** * Page tables of the PC

    kern/arch/i386/pgoperation.c: two-level tables whose directory entries are
    physical addresses with flags.  A page that [pgalloc] returns is used through
    its physical address, and a table found in the directory through its kernel
    address; both reach the same memory because the first early mapping of
    [arch_mm_init] (kern/arch/i386/arch_early_init.c) maps the addresses below
    [USERTOP] to themselves.  [acc] is the kernel address of what a pointer points
    to; the memory [bytes] is indexed by kernel addresses. *)
From S2P Require Import Prelude Util MmState Libc Palloc Pmm Simple Vmm Init Cp0 Pgtable EarlyKmmap I386.

Definition PTE_U : Z := 0x004.
Definition PGSIZE : Z := 4096.
Definition i386_PTX (va : Z) : Z := Z.land (Z.shiftr (w32 va) 12) 0x3FF.
Definition PTE_ADDR (pte : Z) : Z := Z.land (w32 pte) (w32 (Z.lnot 0xFFF)).
Definition PGROUNDDOWN (a : Z) : Z := Z.land a (w32 (Z.lnot (PGSIZE - 1))).

Definition acc (p : Z) : Z := postmap_addr p.
(** [*p] of a [pte_t *], and a store to it. *)
Definition pte_at (w : world) (p : Z) : Z := ld32 (bytes w) (acc p).
Definition set_pte (p v : Z) (w : world) : world := upd_bytes (st32 (acc p) (w32 v)) w.
Definition present (pte : Z) : bool := negb (Z.land pte PTE_P =? 0).

Section ops.
Context {K : Kmem}.

(** The address of the entry, or 0.  A failed [pgalloc] returns -1, not 0: the
    [memset] of the page at 0xffffffff runs over the end of the address space. *)
Definition walkpgdir (pgindex vaddr : Z) (alloc : bool) (w : world) : res (Z * world) :=
  let pde := w32 (pgindex + 4 * i386_PDX vaddr) in
  if present (pte_at w pde) then
    Ok (w32 (postmap_addr (PTE_ADDR (pte_at w pde)) + 4 * i386_PTX vaddr), w)
  else if negb alloc then Ok (0, w)
  else
    '(pa, w) ← pgalloc w;
    let pgtab := w32 pa in
    if pgtab =? 0 then Ok (0, w)
    else if 2 ^ 32 <? acc pgtab + PGSIZE then Err BadPtr
    else
      let w := upd_bytes (fill (acc pgtab) 0 PGSIZE) w in
      let w := set_pte pde (Z.lor (Z.lor (Z.lor (premap_addr pgtab) PTE_P) PTE_W) PTE_U) w in
      Ok (w32 (pgtab + 4 * i386_PTX vaddr), w).

(** The bounds of the four loops over a range, and their fuel. *)
Definition range_first (vaddr : Z) : Z := PGROUNDDOWN (w32 vaddr).
Definition range_last (vaddr size : Z) : Z := PGROUNDDOWN (w32 (w32 vaddr + size - 1)).
Definition range_fuel (vaddr size : Z) : nat := S (Z.to_nat (w32 (range_last vaddr size - range_first vaddr) / PGSIZE)).

Definition i386_map_pages (pgindex vaddr paddr size flags : Z) (w : world) : res (Z * world) :=
  let last := range_last vaddr size in
  loop (range_fuel vaddr size) (λ '(a, paddr, w),
    '(pte, w) ← walkpgdir pgindex a true w;
    if pte =? 0 then Ok (inr (-1, w))
    else if present (pte_at w pte) then Err Panicked
    else
      let w := set_pte pte (Z.lor (Z.lor paddr flags) PTE_P) w in
      if a =? last then Ok (inr (0, w)) else Ok (inl (w32 (a + PGSIZE), w64 (paddr + PGSIZE), w)))
    (range_first vaddr, paddr, w).

(** The loop that the next three functions share: they differ in what happens at a
    page that is not present, in the new entry, and in what is added to the result
    for every page but the last one. *)
Definition over_pages (missing : Z → world → res (Z * world)) (upd : Z → Z) (step pgindex vaddr size : Z) (w : world) : res (Z * world) :=
  let last := range_last vaddr size in
  loop (range_fuel vaddr size) (λ '(a, r, w),
    '(pte, w) ← walkpgdir pgindex a false w;
    if pte =? 0 then Ok (inr (-1, w))
    else if negb (present (pte_at w pte)) then res ← missing r w; Ok (inr res)
    else
      let w := set_pte pte (upd (pte_at w pte)) w in
      if a =? last then Ok (inr (r, w)) else Ok (inl (w32 (a + PGSIZE), sgn 32 (r + step), w)))
    (range_first vaddr, 0, w).

(** [paddr] of the first and the last only moves as a pointer: nothing is stored
    through it. *)
Definition i386_unmap_pages (pgindex vaddr size : Z) (w : world) : res (Z * world) :=
  over_pages (λ unmap_size w, Ok (unmap_size, w)) (λ _, 0) PGSIZE pgindex vaddr size w.
Definition i386_set_pages_perm (pgindex vaddr size flags : Z) (w : world) : res (Z * world) :=
  over_pages (λ _ _, Err Panicked) (λ e, Z.lor e flags) 0 pgindex vaddr size w.
Definition i386_invalidate_pages (pgindex vaddr size : Z) (w : world) : res (Z * world) :=
  over_pages (λ invalid_size w, Ok (invalid_size, w)) (λ e, Z.lxor e PTE_P) PGSIZE pgindex vaddr size w.

(** The entry is read through the pointer even when it is 0. *)
Definition i386_uva2kva (pgindex uaddr : Z) (w : world) : res Z :=
  '(pte, w) ← walkpgdir pgindex uaddr false w;
  if pte =? 0 then Err BadPtr
  else if negb (present (pte_at w pte)) then Ok 0
  else if Z.land (pte_at w pte) PTE_U =? 0 then Ok 0
  else Ok (postmap_addr (PTE_ADDR (pte_at w pte))).

(** The page of the new directory keeps its old content. *)
Definition i386_init_pgindex (s : kmmap) (w : world) : res (Z * world) :=
  '(pa, w) ← pgalloc w;
  let pgindex := w32 pa in
  loop (S (length (queue s))) (λ '(mapping, w),
    match mapping with
    | None => Ok (inr (pgindex, w))
    | Some i =>
      e ← of_option BadPtr (queue s !! Z.to_nat i);
      '(ret, w) ← i386_map_pages pgindex (m_vaddr e) (m_paddr e) (m_size e) 0 w;
      if ret =? EOF_ then Ok (inr (w32 EOF_, w)) else Ok (inl (early_mapping_next (Some i) s, w))
    end) (early_mapping_next None s, w).

Definition i386_destroy_pgindex (pgindex : Z) (w : world) : res world := pgfree (w32 pgindex) w.
End ops.

(** [switch_pgindex] and [get_pgindex]: the control register CR3. *)
Definition i386_switch_pgindex (pgindex cr3 : Z) : Z * Z := (0, pgindex).
Definition i386_get_pgindex (cr3 : Z) : Z := cr3.

(** ** The mapping that a directory represents

    [pg] is the kernel address of the directory; [tab] the kernel address of the
    table of an entry, or 0, and [ipte] the entry of an address. *)
Definition tab (m : mem) (pg i : Z) : Z := let e := ent m pg i in if present e then PTE_ADDR e + KERN_BASE else 0.
Definition ipte (m : mem) (pg va : Z) : Z := let t := tab m pg (PDX va) in if t =? 0 then 0 else ent m t (PTX va).
(** What the processor makes of an address. *)
Definition itranslate (m : mem) (pg va : Z) : option Z :=
  let e := ipte m pg va in if present e then Some (PTE_ADDR e + va mod 4096) else None.

Lemma i386_indices va : fits 32 va → i386_PDX va = PDX va ∧ i386_PTX va = PTX va.
Proof. intros Hva. unfold i386_PDX, i386_PTX, PDX, PTX. by rewrite !(wrap_small 32 va). Qed.

Lemma PTE_ADDR_div x : fits 32 x → PTE_ADDR x = 4096 * (x / 4096).
Proof.
  intros Hx. unfold PTE_ADDR. rewrite (wrap_small 32) by done. exact (ALIGN_BELOW_pow2 32 12 ltac:(lia) x Hx).
Qed.
Lemma PGROUNDDOWN_div x : fits 32 x → PGROUNDDOWN x = 4096 * (x / 4096).
Proof. intros Hx. exact (ALIGN_BELOW_pow2 32 12 ltac:(lia) x Hx). Qed.
Lemma PTE_ADDR_flags a f : a mod 4096 = 0 → fits 32 a → 0 ≤ f < 4096 → PTE_ADDR (Z.lor a f) = a.
Proof.
  intros Ha Hf Hb. rewrite lor_low by done. unfold fits in *. rewrite PTE_ADDR_div by (unfold fits; Z.to_euclidean_division_equations; lia).
  Z.to_euclidean_division_equations. lia.
Qed.
Lemma present_odd x : present x = Z.odd x.
Proof.
  unfold present. change PTE_P with (Z.ones 1). rewrite Z.land_ones by lia. change (2 ^ 1) with 2. rewrite Zmod_odd. by destruct (Z.odd x).
Qed.
Lemma acc_low p : 0 ≤ p < KERN_BASE → acc p = p + KERN_BASE.
Proof.
  intros Hp. unfold acc, postmap_addr, KERN_BASE in *. rewrite (wrap_small 32 p) by (unfold fits; lia).
  destruct (Z.leb_spec 0x80000000 p); [lia|]. apply wrap_small. unfold fits. lia.
Qed.
Lemma acc_high p : KERN_BASE ≤ p < 2 ^ 32 → acc p = p.
Proof.
  intros Hp. unfold acc, postmap_addr, KERN_BASE in *. rewrite (wrap_small 32 p) by (unfold fits; lia).
  destruct (Z.leb_spec 0x80000000 p); [done|lia].
Qed.

Lemma tab_none m pg i : tab m pg i = 0 → present (ent m pg i) = false.
Proof.
  unfold tab. destruct (present _); [|done]. unfold PTE_ADDR, KERN_BASE. intros E. exfalso.
  assert (0 ≤ Z.land (w32 (ent m pg i)) (w32 (Z.lnot 0xFFF))) by (apply Z.land_nonneg; left; by apply wrap_fits). lia.
Qed.

(** The tables of a directory are distinct pages that are not free. *)
Record itables (m : mem) (pg : Z) (bs : blocks) : Prop := ITables {
  it_page : is_page pg bs;
  it_ent i : 0 ≤ i < 1024 → tab m pg i ≠ 0 → is_page (tab m pg i) bs ∧ tab m pg i ≠ pg;
  it_inj i j : 0 ≤ i < 1024 → 0 ≤ j < 1024 → tab m pg i ≠ 0 → tab m pg i = tab m pg j → i = j }.

(** Writing an entry of a table changes the mapping of that page only. *)
Lemma iset_ok m pg bs va v : itables m pg bs → fits 32 va → fits 32 v → tab m pg (PDX va) ≠ 0 →
  let m' := st32 (tab m pg (PDX va) + 4 * PTX va) v m in
  itables m' pg bs ∧ (∀ i, 0 ≤ i < 1024 → tab m' pg i = tab m pg i) ∧
  (∀ va', fits 32 va' → ipte m' pg va' = if va' / 4096 =? va / 4096 then v else ipte m pg va').
Proof.
  intros Ht Hva Hv He m'. pose proof (PDX_bounds va) as Hpd. pose proof (PTX_bounds va) as Hpt.
  destruct (it_ent _ _ _ Ht _ Hpd He) as [Hpage Hne].
  assert (∀ i, 0 ≤ i < 1024 → tab m' pg i = tab m pg i) as Hpg.
  { intros i Hi. unfold tab. unfold m'. by rewrite (ent_other _ _ _ _ _ _ bs) by (done || apply Ht). }
  split_and!; [|done|].
  - destruct Ht as [H1 H2 H3]. split; [done| |].
    + intros i Hi. rewrite Hpg by done. by apply H2.
    + intros i j Hi Hj. rewrite !Hpg by done. by apply H3.
  - intros va' Hva'. unfold ipte. pose proof (PDX_bounds va') as Hpd'. pose proof (PTX_bounds va') as Hpt'.
    rewrite Hpg by done. rewrite !page_of_indices by done. destruct (decide (PDX va' = PDX va)) as [Ed|Ed].
    + rewrite Ed, (proj2 (Z.eqb_neq _ _) He). unfold m'. rewrite ent_same by done.
      destruct (Z.eqb_spec (PTX va') (PTX va)), (Z.eqb_spec (PDX va * 1024 + PTX va') (PDX va * 1024 + PTX va)); done || lia.
    + rewrite (proj2 (Z.eqb_neq (PDX va' * 1024 + _) _)) by lia. destruct (Z.eqb_spec (tab m pg (PDX va')) 0) as [|E]; [done|].
      unfold m'. apply (ent_other _ _ _ _ _ _ bs); try done; [by apply (it_ent _ _ _ Ht)|].
      intros Eq. apply Ed. symmetry. by apply (it_inj _ _ _ Ht).
Qed.

Lemma directory_entry q : 0 ≤ q → q mod 4096 = 0 → q + 4096 ≤ KERN_BASE →
  fits 32 (Z.lor q 7) ∧ present (Z.lor q 7) = true ∧ PTE_ADDR (Z.lor q 7) = q.
Proof.
  intros Hq Hm Hb. unfold KERN_BASE in Hb. split_and!; [rewrite lor_low by lia; unfold fits; lia| |apply PTE_ADDR_flags; unfold fits; lia].
  rewrite present_odd, lor_low by lia. rewrite Z.odd_add. replace q with (2 * (q / 2)) by (Z.to_euclidean_division_equations; lia). by rewrite Z.odd_mul.
Qed.

(** A new, empty table changes no mapping. *)
Lemma inew_ok m pg bs bs' va q : itables m pg bs → fits 32 va → tab m pg (PDX va) = 0 →
  taken q 4096 bs bs' → 0 ≤ q → q mod 4096 = 0 → q + 4096 ≤ KERN_BASE →
  let p := q + KERN_BASE in
  let m' := st32 (pg + 4 * PDX va) (Z.lor q 7) (fill p 0 4096 m) in
  itables m' pg bs' ∧ (∀ i, 0 ≤ i < 1024 → tab m' pg i = if i =? PDX va then p else tab m pg i) ∧
  (∀ va', fits 32 va' → ipte m' pg va' = ipte m pg va').
Proof.
  intros Ht Hva He Hq Hq0 Hqm Hqb p m'. pose proof (PDX_bounds va) as Hpd. destruct (directory_entry q Hq0 Hqm Hqb) as (Hf & Hp & Ha).
  assert (p ≠ 0) as Hp0 by (unfold p, KERN_BASE in *; lia).
  assert (is_page p bs') as Hpg'.
  { unfold is_page, p, KERN_BASE in *. destruct Hq as [_ Hd]. split_and!; try lia.
    - rewrite Z.add_mod, Hqm by lia. done.
    - intros x Hx. apply Hd. lia. }
  assert (∀ t i, is_page t bs → 0 ≤ i < 1024 → ent (fill p 0 4096 m) t i = ent m t i) as Hfill.
  { intros t i Htp Hi. assert (t ≠ p) as Hne by by eapply is_page_fresh.
    apply ld32_fill_ne. destruct Htp as (Hm & _), Hpg' as (Hm' & _). Z.to_euclidean_division_equations. lia. }
  assert (∀ i, 0 ≤ i < 1024 → tab m' pg i = if i =? PDX va then p else tab m pg i) as Hpg.
  { intros i Hi. unfold tab, m'. rewrite ent_same by done. destruct (i =? PDX va); [by rewrite Hp, Ha|]. rewrite Hfill by (done || apply Ht). done. }
  assert (∀ i, 0 ≤ i < 1024 → tab m pg i ≠ 0 → tab m pg i ≠ p) as Hfresh.
  { intros i Hi Hi0. eapply is_page_fresh; [done|done|]. by apply (it_ent _ _ _ Ht). }
  assert (is_page pg bs') as Hpage by (eapply is_page_taken; [done|apply Ht]).
  assert (pg ≠ p) as Hpgp by (eapply is_page_fresh; [done|done|apply Ht]).
  split_and!; [|done|].
  - split; [done| |].
    + intros i Hi. rewrite Hpg by done. destruct (Z.eqb_spec i (PDX va)) as [->|]; [done|].
      intros Hi0. destruct (it_ent _ _ _ Ht i Hi Hi0). split; [by eapply is_page_taken|done].
    + intros i j Hi Hj. rewrite !Hpg by done. destruct (Z.eqb_spec i (PDX va)) as [->|], (Z.eqb_spec j (PDX va)) as [->|]; try done.
      * intros _ Hx. exfalso. apply (Hfresh j Hj); congruence.
      * intros Hi0 Hx. exfalso. by apply (Hfresh i Hi).
      * by apply (it_inj _ _ _ Ht).
  - intros va' Hva'. unfold ipte. pose proof (PDX_bounds va') as Hpd'. pose proof (PTX_bounds va') as Hpt'. rewrite Hpg by done.
    assert (∀ t j, is_page t bs' → pg ≠ t → 0 ≤ j < 1024 → ent m' t j = ent (fill p 0 4096 m) t j) as Hoth by (intros; by apply (ent_other _ _ _ _ _ _ bs')).
    destruct (Z.eqb_spec (PDX va') (PDX va)) as [Ed|Ed].
    + rewrite (proj2 (Z.eqb_neq _ _) Hp0), Ed, He, Hoth by done. cbn [Z.eqb]. apply ld32_fill_0; lia.
    + destruct (Z.eqb_spec (tab m pg (PDX va')) 0) as [|E]; [done|]. destruct (it_ent _ _ _ Ht _ Hpd' E) as [Hpe Hne].
      rewrite Hoth by (done || by eapply is_page_taken). by apply Hfill.
Qed.

Section laws.
Context {K : Kmem} {J : world → Prop} `{!KmemLaws K J}.

(** The state in which the page at the physical address [p] is a directory.  The
    code takes a table at the physical address 0 for a failure, so that this page
    must not be free. *)
Definition ipt_inv (w : world) (p : Z) (bs : blocks) : Prop :=
  J w ∧ pm_inv w bs ∧ itables (bytes w) (p + KERN_BASE) bs ∧ ¬ avail bs 0 ∧ 0 ≤ p < KERN_BASE.

Lemma directory_word w p bs i : ipt_inv w p bs → 0 ≤ i < 1024 → w32 (p + 4 * i) = p + 4 * i ∧ acc (p + 4 * i) = p + KERN_BASE + 4 * i.
Proof.
  intros (_ & _ & Ht & _ & Hp) Hi. destruct (it_page _ _ _ Ht) as (Hm & _ & Hb & _). unfold KERN_BASE in *.
  assert (p + 4 * i < 0x80000000) by (Z.to_euclidean_division_equations; lia).
  split; [apply wrap_small; unfold fits; lia|rewrite acc_low; unfold KERN_BASE; lia].
Qed.

(** A table that exists is found; a missing one is made, or the walk ends. *)
Lemma walk_found w p bs va c : ipt_inv w p bs → fits 32 va → tab (bytes w) (p + KERN_BASE) (PDX va) ≠ 0 →
  ∃ pte, walkpgdir p va c w = Ok (pte, w) ∧ pte ≠ 0 ∧ acc pte = tab (bytes w) (p + KERN_BASE) (PDX va) + 4 * PTX va.
Proof.
  intros Hi Hva Hne. pose proof Hi as (_ & _ & Ht & _). pose proof (PDX_bounds va) as Hpd. pose proof (PTX_bounds va) as Hpt.
  destruct (directory_word w p bs _ Hi Hpd) as [E1 E2]. destruct (i386_indices va Hva) as [Ed Et].
  unfold walkpgdir. rewrite Ed, Et, E1. unfold pte_at at 1. rewrite E2. change (ld32 (bytes w) (p + KERN_BASE + 4 * PDX va)) with (ent (bytes w) (p + KERN_BASE) (PDX va)).
  destruct (it_ent _ _ _ Ht _ Hpd Hne) as [(P1 & P2 & P3 & _) _]. revert Hne P1 P2 P3. unfold tab. destruct (present _); [|done]. intros Hne P1 P2 P3.
  unfold pte_at. rewrite E2. change (ld32 (bytes w) (p + KERN_BASE + 4 * PDX va)) with (ent (bytes w) (p + KERN_BASE) (PDX va)).
  set (e := ent (bytes w) (p + KERN_BASE) (PDX va)) in *. change (postmap_addr (PTE_ADDR e)) with (acc (PTE_ADDR e)).
  rewrite acc_low by (unfold KERN_BASE in *; lia). eexists. split; [done|].
  rewrite wrap_small by (unfold fits, KERN_BASE in *; lia). split; [unfold KERN_BASE in *; lia|]. apply acc_high. unfold KERN_BASE in *. lia.
Qed.
Lemma walk_none w p bs va : ipt_inv w p bs → fits 32 va → tab (bytes w) (p + KERN_BASE) (PDX va) = 0 → walkpgdir p va false w = Ok (0, w).
Proof.
  intros Hi Hva He. pose proof (PDX_bounds va) as Hpd. destruct (directory_word w p bs _ Hi Hpd) as [E1 E2]. destruct (i386_indices va Hva) as [Ed Et].
  unfold walkpgdir. rewrite Ed, E1. unfold pte_at at 1. rewrite E2. change (ld32 _ _) with (ent (bytes w) (p + KERN_BASE) (PDX va)).
  by rewrite (tab_none _ _ _ He).
Qed.

Lemma walk_create w p bs va : ipt_inv w p bs → fits 32 va → 0 < total bs →
  wp (walkpgdir p va true w) (λ '(pte, w'), pte ≠ 0 ∧ acc pte = tab (bytes w') (p + KERN_BASE) (PDX va) + 4 * PTX va ∧
    tab (bytes w') (p + KERN_BASE) (PDX va) ≠ 0 ∧ (∃ bs', ipt_inv w' p bs' ∧ total bs - PAGE_SIZE ≤ total bs') ∧
    (∀ va', fits 32 va' → ipte (bytes w') (p + KERN_BASE) va' = ipte (bytes w) (p + KERN_BASE) va')).
Proof.
  intros Hi Hva Htot. destruct (decide (tab (bytes w) (p + KERN_BASE) (PDX va) = 0)) as [E|E].
  2:{ destruct (walk_found w p bs va true Hi Hva E) as (pte & -> & H1 & H2). apply wp_ok. split_and!; try done.
      exists bs. split; [done|]. unfold PAGE_SIZE. lia. }
  pose proof Hi as (HJ & Hpm & Ht & Hz & Hp). pose proof (PDX_bounds va) as Hpd. pose proof (PTX_bounds va) as Hpt.
  destruct (directory_word w p bs _ Hi Hpd) as [E1 E2]. destruct (i386_indices va Hva) as [Ed Et].
  unfold walkpgdir. rewrite Ed, Et, E1. unfold pte_at at 1. rewrite E2. change (ld32 _ _) with (ent (bytes w) (p + KERN_BASE) (PDX va)).
  rewrite (tab_none _ _ _ E). cbn [negb]. pose proof Hpm as (_ & (l & _ & _ & Hwf & _) & _).
  destruct (first_fit_page _ _ Hwf Htot) as (q & bs' & Eff). pose proof (pgalloc_ok w bs HJ Hpm) as Ha. rewrite Eff in Ha.
  destruct (wp_inv _ _ Ha) as ([r w1] & -> & -> & HJ1 & Hpm1 & Hby & Hq0 & Hqm & Hqb & Htk). cbn [mbind res_bind].
  destruct (first_fit_wf PAGE_SIZE (-1) bs q bs' Hwf ltac:(done) ltac:(done) Eff) as (_ & Htt & _).
  assert (q ≠ 0) as Hqn by (intros ->; apply Hz, (proj1 Htk); right; unfold PAGE_SIZE; lia). unfold PAGE_SIZE, PGSIZE in *.
  rewrite (wrap_small 32 q) by (unfold fits, KERN_BASE in *; lia). rewrite (proj2 (Z.eqb_neq _ _) Hqn), (acc_low q) by lia.
  rewrite (proj2 (Z.ltb_ge _ _)) by (unfold KERN_BASE in *; lia). rewrite premap_addr_low by lia.
  replace (Z.lor (Z.lor (Z.lor q PTE_P) PTE_W) PTE_U) with (Z.lor q 7) by (by rewrite <-!Z.lor_assoc).
  destruct (directory_entry q Hq0 Hqm Hqb) as (Hf & _).
  destruct (inew_ok (bytes w) (p + KERN_BASE) bs bs' va q Ht Hva E Htk Hq0 Hqm Hqb) as (Ht' & Htab & Hpte).
  apply wp_ok. rewrite (wrap_small 32 (q + _)) by (unfold fits, KERN_BASE in *; Z.to_euclidean_division_equations; lia).
  unfold set_pte. cbn [bytes upd_bytes]. rewrite E2, (wrap_small 32 (Z.lor q 7)), Hby by done.
  rewrite acc_low by (unfold KERN_BASE in *; Z.to_euclidean_division_equations; lia). rewrite (Htab (PDX va) Hpd), Z.eqb_refl.
  split_and!; [lia|lia|unfold KERN_BASE; lia| |done]. exists bs'. split; [|lia]. split_and!; [by eapply km_frame|done|by cbn [bytes upd_bytes]; rewrite Hby| |lia|lia].
  intros H0. apply Hz, (proj1 Htk). by left.
Qed.

(** A store through the pointer that the walk delivers. *)
Lemma set_pte_inv w p bs va pte v : ipt_inv w p bs → fits 32 va → tab (bytes w) (p + KERN_BASE) (PDX va) ≠ 0 →
  acc pte = tab (bytes w) (p + KERN_BASE) (PDX va) + 4 * PTX va →
  ipt_inv (set_pte pte v w) p bs ∧ (∀ i, 0 ≤ i < 1024 → tab (bytes (set_pte pte v w)) (p + KERN_BASE) i = tab (bytes w) (p + KERN_BASE) i) ∧
  (∀ va', fits 32 va' → ipte (bytes (set_pte pte v w)) (p + KERN_BASE) va' = if va' / 4096 =? va / 4096 then w32 v else ipte (bytes w) (p + KERN_BASE) va').
Proof.
  intros (HJ & Hpm & Ht & Hz & Hp) Hva Hne Ha. unfold set_pte. rewrite Ha. cbn [bytes upd_bytes].
  destruct (iset_ok (bytes w) (p + KERN_BASE) bs va (w32 v) Ht Hva ltac:(by apply wrap_fits) Hne) as (H1 & H2 & H3).
  split_and!; [|done|done]. split_and!; [by eapply km_frame|done|done|done|lia|lia].
Qed.
Lemma pte_at_walk w p va pte : acc pte = tab (bytes w) (p + KERN_BASE) (PDX va) + 4 * PTX va → tab (bytes w) (p + KERN_BASE) (PDX va) ≠ 0 →
  pte_at w pte = ipte (bytes w) (p + KERN_BASE) va.
Proof. intros Ha Hne. unfold pte_at, ipte. by rewrite Ha, (proj2 (Z.eqb_neq _ _) Hne). Qed.

Context (p vaddr n : Z) (Hvm : vaddr mod 4096 = 0) (Hv0 : 0 ≤ vaddr) (Hn : 0 < n) (Hb : vaddr + 4096 * n < 2 ^ 32).

Lemma range_ok : range_first vaddr = vaddr ∧ range_last vaddr (4096 * n) = vaddr + 4096 * (n - 1) ∧ range_fuel vaddr (4096 * n) = Z.to_nat n.
Proof.
  assert (range_first vaddr = vaddr) as E1.
  { unfold range_first. rewrite (wrap_small 32) by (unfold fits; lia). rewrite PGROUNDDOWN_div by (unfold fits; lia). Z.to_euclidean_division_equations; lia. }
  assert (range_last vaddr (4096 * n) = vaddr + 4096 * (n - 1)) as E2.
  { unfold range_last. rewrite (wrap_small 32 vaddr) by (unfold fits; lia). rewrite wrap_small by (unfold fits; lia).
    rewrite PGROUNDDOWN_div by (unfold fits; lia). Z.to_euclidean_division_equations; lia. }
  split_and!; [done|done|]. unfold range_fuel. rewrite E1, E2, wrap_small by (unfold fits; lia).
  replace (vaddr + 4096 * (n - 1) - vaddr) with ((n - 1) * PGSIZE) by (unfold PGSIZE; lia). rewrite Z.div_mul by done. lia.
Qed.

(** The entry of [va] when the first [k] pages of the range have got the entries
    [f 0], [f 1], ... *)
Definition upto (f : Z → Z) (k : Z) (m : mem) (va : Z) : Z :=
  if (vaddr <=? va) && (va <? vaddr + 4096 * k) then f ((va - vaddr) / 4096) else ipte m (p + KERN_BASE) va.
Lemma upto_next f k m va : fits 32 va → 0 ≤ k →
  (if va / 4096 =? (vaddr + 4096 * k) / 4096 then f k else upto f k m va) = upto f (k + 1) m va.
Proof.
  intros Hva Hk. unfold upto. pose proof (same_page vaddr k va Hvm) as Hs. unfold PAGE_SIZE in Hs.
  destruct (Z.eqb_spec (va / 4096) ((vaddr + 4096 * k) / 4096)) as [E|E].
  - apply Hs in E. rewrite (proj2 (Z.leb_le _ _)), (proj2 (Z.ltb_lt _ _)) by lia. cbn [andb]. f_equal. Z.to_euclidean_division_equations; lia.
  - assert (¬ (vaddr + 4096 * k ≤ va < vaddr + 4096 * (k + 1))) by tauto. zcases; simpl; try done; lia.
Qed.
Lemma upto_0 f m va : upto f 0 m va = ipte m (p + KERN_BASE) va.
Proof. unfold upto. zcases; simpl; try done; lia. Qed.
Lemma upto_later f k m : 0 ≤ k < n → upto f k m (vaddr + 4096 * k) = ipte m (p + KERN_BASE) (vaddr + 4096 * k).
Proof. intros Hk. unfold upto. rewrite (proj2 (Z.ltb_ge _ _)) by lia. by rewrite andb_false_r. Qed.

Definition mapped_to (paddr flags k : Z) : Z := w32 (Z.lor (Z.lor (paddr + 4096 * k) flags) PTE_P).

Lemma present_tab m pg va : present (ipte m pg va) = true → tab m pg (PDX va) ≠ 0.
Proof. unfold ipte. intros Hp E. by rewrite E in Hp. Qed.

Lemma i386_map_ok w bs paddr flags : ipt_inv w p bs → 0 ≤ paddr → paddr + 4096 * n < 2 ^ 64 → 4096 * n ≤ total bs →
  (∀ k, 0 ≤ k < n → present (ipte (bytes w) (p + KERN_BASE) (vaddr + 4096 * k)) = false) →
  wp (i386_map_pages p vaddr paddr (4096 * n) flags w) (λ '(r, w'), r = 0 ∧ (∃ bs', ipt_inv w' p bs' ∧ total bs - 4096 * n ≤ total bs') ∧
    (∀ va, fits 32 va → ipte (bytes w') (p + KERN_BASE) va = upto (mapped_to paddr flags) n (bytes w) va)).
Proof.
  intros Hi Hp0 Hpb Htot Hfree. unfold i386_map_pages. destruct range_ok as (-> & -> & ->).
  apply (wp_loop _ (λ '(a, pa, w'), ∃ k bs', 0 ≤ k < n ∧ a = vaddr + 4096 * k ∧ pa = paddr + 4096 * k ∧ ipt_inv w' p bs' ∧ total bs - 4096 * k ≤ total bs' ∧
      (∀ va, fits 32 va → ipte (bytes w') (p + KERN_BASE) va = upto (mapped_to paddr flags) k (bytes w) va))
    (λ '(a, _, _), Z.to_nat ((vaddr + 4096 * (n - 1) - a) / 4096))).
  - intros [[a pa] w1] (k & bs1 & Hk & -> & -> & Hi1 & Ht1 & He1). assert (fits 32 (vaddr + 4096 * k)) as Hva by (unfold fits; lia).
    apply wp_bind. eapply wp_mono; [apply (walk_create w1 p bs1 _ Hi1 Hva); lia|].
    intros [pte w2] (Hpte & Hacc & Htab & (bs2 & Hi2 & Ht2) & Hsame). unfold PAGE_SIZE in Ht2. rewrite (proj2 (Z.eqb_neq _ _) Hpte).
    rewrite (pte_at_walk w2 p _ pte Hacc Htab), Hsame, He1, upto_later, Hfree by done. cbv zeta.
    destruct (set_pte_inv w2 p bs2 (vaddr + 4096 * k) pte (Z.lor (Z.lor (paddr + 4096 * k) flags) PTE_P) Hi2 Hva Htab Hacc) as (Hi3 & _ & He3).
    set (w3 := set_pte _ _ w2) in *.
    assert (∀ va, fits 32 va → ipte (bytes w3) (p + KERN_BASE) va = upto (mapped_to paddr flags) (k + 1) (bytes w) va) as He.
    { intros va Hv. rewrite He3, Hsame, He1 by done. rewrite <-upto_next by (done || lia). done. }
    destruct (Z.eqb_spec (vaddr + 4096 * k) (vaddr + 4096 * (n - 1))) as [E|E]; apply wp_ok.
    + assert (k + 1 = n) as <- by lia. split_and!; [done| |done]. exists bs2. split; [done|lia].
    + rewrite (wrap_small 32), (wrap_small 64) by (unfold fits, PGSIZE; lia). unfold PGSIZE. split.
      * exists (k + 1), bs2. split_and!; try done; lia.
      * Z.to_euclidean_division_equations; lia.
  - exists 0, bs. split_and!; try done; try lia. intros va Hv. by rewrite upto_0.
  - Z.to_euclidean_division_equations; lia.
Qed.

(** The loop over mapped pages; the result lacks the step of the last page. *)
Lemma over_pages_ok missing upd step w bs : ipt_inv w p bs → 0 ≤ step → step * (n - 1) < 2 ^ 31 →
  (∀ k, 0 ≤ k < n → present (ipte (bytes w) (p + KERN_BASE) (vaddr + 4096 * k)) = true) →
  wp (over_pages missing upd step p vaddr (4096 * n) w) (λ '(r, w'), r = step * (n - 1) ∧ ipt_inv w' p bs ∧
    (∀ va, fits 32 va → ipte (bytes w') (p + KERN_BASE) va =
       upto (λ k, w32 (upd (ipte (bytes w) (p + KERN_BASE) (vaddr + 4096 * k)))) n (bytes w) va)).
Proof.
  intros Hi Hst Hsn Hpres. unfold over_pages. destruct range_ok as (-> & -> & ->).
  set (f := λ k, w32 (upd (ipte (bytes w) (p + KERN_BASE) (vaddr + 4096 * k)))).
  apply (wp_loop _ (λ '(a, r, w'), ∃ k, 0 ≤ k < n ∧ a = vaddr + 4096 * k ∧ r = step * k ∧ ipt_inv w' p bs ∧
      (∀ va, fits 32 va → ipte (bytes w') (p + KERN_BASE) va = upto f k (bytes w) va))
    (λ '(a, _, _), Z.to_nat ((vaddr + 4096 * (n - 1) - a) / 4096))).
  - intros [[a r] w1] (k & Hk & -> & -> & Hi1 & He1). assert (fits 32 (vaddr + 4096 * k)) as Hva by (unfold fits; lia).
    assert (ipte (bytes w1) (p + KERN_BASE) (vaddr + 4096 * k) = ipte (bytes w) (p + KERN_BASE) (vaddr + 4096 * k)) as Hsame
      by (by rewrite He1, upto_later).
    assert (present (ipte (bytes w1) (p + KERN_BASE) (vaddr + 4096 * k)) = true) as Hpr by (rewrite Hsame; by apply Hpres).
    pose proof (present_tab _ _ _ Hpr) as Htab. destruct (walk_found w1 p bs _ false Hi1 Hva Htab) as (pte & -> & Hpte & Hacc). cbn [mbind res_bind].
    rewrite (proj2 (Z.eqb_neq _ _) Hpte), !(pte_at_walk w1 p _ pte Hacc Htab), Hpr. cbn [negb]. cbv zeta. rewrite Hsame.
    destruct (set_pte_inv w1 p bs (vaddr + 4096 * k) pte (upd (ipte (bytes w) (p + KERN_BASE) (vaddr + 4096 * k))) Hi1 Hva Htab Hacc) as (Hi2 & _ & He2).
    set (w2 := set_pte _ _ w1) in *.
    assert (∀ va, fits 32 va → ipte (bytes w2) (p + KERN_BASE) va = upto f (k + 1) (bytes w) va) as He.
    { intros va Hv. rewrite He2, He1 by done. by rewrite <-upto_next by (done || lia). }
    destruct (Z.eqb_spec (vaddr + 4096 * k) (vaddr + 4096 * (n - 1))) as [E|E]; apply wp_ok.
    + assert (k + 1 = n) as <- by lia. split_and!; [f_equal; lia|done|done].
    + rewrite (wrap_small 32), sgn_small by (unfold fits, PGSIZE; nia). unfold PGSIZE. split.
      * exists (k + 1). split_and!; try done; lia.
      * Z.to_euclidean_division_equations; lia.
  - exists 0. split_and!; try done; try lia. intros va Hv. by rewrite upto_0.
  - Z.to_euclidean_division_equations; lia.
Qed.

(** *** Translations *)
Lemma mapped_entry paddr flags k : 0 ≤ paddr → paddr mod 4096 = 0 → paddr + 4096 * n ≤ KERN_BASE → 0 ≤ flags < 4096 → 0 ≤ k < n →
  mapped_to paddr flags k = Z.lor (paddr + 4096 * k) (Z.lor flags 1) ∧ 0 ≤ Z.lor flags 1 < 4096 ∧ present (mapped_to paddr flags k) = true ∧
  PTE_ADDR (mapped_to paddr flags k) = paddr + 4096 * k.
Proof.
  intros H0 Hm Hk Hf Hkn. unfold KERN_BASE in Hk. assert (fits 12 (Z.lor flags 1)) as Hf1 by (apply fits_lor; unfold fits; lia).
  assert ((paddr + 4096 * k) mod 4096 = 0) as Hma by (Z.to_euclidean_division_equations; lia).
  assert (mapped_to paddr flags k = Z.lor (paddr + 4096 * k) (Z.lor flags 1)) as E.
  { unfold mapped_to. change PTE_P with 1. rewrite <-Z.lor_assoc. apply wrap_small. unfold fits in *. rewrite lor_low by (done || lia). lia. }
  rewrite E. unfold fits in Hf1. split_and!; [done|lia|lia| |apply PTE_ADDR_flags; unfold fits; lia].
  rewrite present_odd, !Z.lor_assoc. rewrite <-Z.bit0_odd, Z.lor_spec. cbn. by rewrite orb_true_r.
Qed.

Lemma land_bit x i : 0 ≤ i → (Z.land x (2 ^ i) =? 0) = negb (Z.testbit x i).
Proof.
  intros Hi. destruct (Z.testbit x i) eqn:E; cbn.
  - apply Z.eqb_neq. intros E0. apply (f_equal (λ y, Z.testbit y i)) in E0. rewrite Z.land_spec, E, Z.pow2_bits_true, Z.bits_0 in E0 by done. done.
  - apply Z.eqb_eq, Z.bits_inj'. intros j Hj. rewrite Z.land_spec, Z.bits_0. destruct (decide (j = i)) as [->|Hne]; [by rewrite E|].
    by rewrite Z.pow2_bits_false, andb_false_r by done.
Qed.

(** The user bit of a mapped entry is that of the flags. *)
Lemma mapped_user paddr flags k : 0 ≤ paddr → paddr mod 4096 = 0 → paddr + 4096 * n ≤ KERN_BASE → 0 ≤ flags < 4096 → 0 ≤ k < n →
  (Z.land (mapped_to paddr flags k) PTE_U =? 0) = negb (Z.testbit flags 2).
Proof.
  intros H0 Hm Hk Hf Hkn. destruct (mapped_entry paddr flags k H0 Hm Hk Hf Hkn) as (-> & _). change PTE_U with (2 ^ 2). rewrite land_bit by done.
  rewrite !Z.lor_spec. assert (Z.testbit (paddr + 4096 * k) 2 = false) as ->; [|by rewrite orb_false_r].
  assert ((paddr + 4096 * k) mod 2 ^ 12 = 0) as Hz by (change (2 ^ 12) with 4096; Z.to_euclidean_division_equations; lia).
  rewrite <-(Z.mod_pow2_bits_low _ 12) by lia. by rewrite Hz.
Qed.

Lemma mapped_more paddr flags extra k : 0 ≤ paddr → paddr mod 4096 = 0 → paddr + 4096 * n ≤ KERN_BASE → 0 ≤ flags < 4096 → 0 ≤ extra < 4096 → 0 ≤ k < n →
  w32 (Z.lor (mapped_to paddr flags k) extra) = mapped_to paddr (Z.lor flags extra) k.
Proof.
  intros H0 Hm Hk Hf Hx Hkn. assert (0 ≤ Z.lor flags extra < 4096) as Hfx by (apply (fits_lor 12); unfold fits; lia).
  destruct (mapped_entry paddr flags k H0 Hm Hk Hf Hkn) as (-> & _). destruct (mapped_entry paddr (Z.lor flags extra) k H0 Hm Hk Hfx Hkn) as (E & _).
  replace (Z.lor (Z.lor (paddr + 4096 * k) (Z.lor flags 1)) extra) with (mapped_to paddr (Z.lor flags extra) k)
    by (rewrite E, <-!Z.lor_assoc; by rewrite (Z.lor_comm 1 extra)).
  apply wrap_small. unfold mapped_to. by apply wrap_fits.
Qed.

Definition in_range (va : Z) : Prop := vaddr ≤ va < vaddr + 4096 * n.
Lemma upto_in f m va : in_range va → upto f n m va = f ((va - vaddr) / 4096) ∧ 0 ≤ (va - vaddr) / 4096 < n ∧ va = vaddr + 4096 * ((va - vaddr) / 4096) + va mod 4096.
Proof.
  intros Hva. unfold in_range, upto in *. rewrite (proj2 (Z.leb_le _ _)), (proj2 (Z.ltb_lt _ _)) by lia.
  split_and!; [done|..]; Z.to_euclidean_division_equations; lia.
Qed.
Lemma upto_out f m va : ¬ in_range va → upto f n m va = ipte m (p + KERN_BASE) va.
Proof. unfold in_range, upto. intros Hva. zcases; simpl; try done; lia. Qed.

(** C32. Page tables of the PC: mapping a range of pages that are not present
    succeeds while there is memory, after which every address of the range
    translates to its place in the frames, every other address translates as
    before, and [uva2kva] delivers the frame of the address (without the offset in
    the page) exactly when the flags say that it is a user page; changing the
    permissions returns 0 and moves nothing; taking the mapping away restores all
    translations, but reports one page less than it took away. *)
Theorem i386_pages_correct w bs paddr flags extra : ipt_inv w p bs → 0 ≤ paddr → paddr mod 4096 = 0 → paddr + 4096 * n ≤ KERN_BASE →
  0 ≤ flags < 4096 → 0 ≤ extra < 4096 → 4096 * n ≤ total bs → (∀ va, in_range va → itranslate (bytes w) (p + KERN_BASE) va = None) →
  wp (i386_map_pages p vaddr paddr (4096 * n) flags w) (λ '(r, w1), r = 0 ∧
    (∀ va, in_range va → itranslate (bytes w1) (p + KERN_BASE) va = Some (paddr + (va - vaddr)) ∧
       i386_uva2kva p va w1 = Ok (if Z.testbit flags 2 then paddr + (va - vaddr) / 4096 * 4096 + KERN_BASE else 0)) ∧
    (∀ va, fits 32 va → ¬ in_range va → itranslate (bytes w1) (p + KERN_BASE) va = itranslate (bytes w) (p + KERN_BASE) va) ∧
    wp (i386_set_pages_perm p vaddr (4096 * n) extra w1) (λ '(r, w2), r = 0 ∧
      ∀ va, fits 32 va → itranslate (bytes w2) (p + KERN_BASE) va = itranslate (bytes w1) (p + KERN_BASE) va) ∧
    wp (i386_unmap_pages p vaddr (4096 * n) w1) (λ '(r, w2), r = 4096 * n - 4096 ∧
      ∀ va, fits 32 va → itranslate (bytes w2) (p + KERN_BASE) va = itranslate (bytes w) (p + KERN_BASE) va)).
Proof.
  intros Hi H0 Hm Hk Hf Hx Htot Hnone.
  assert (∀ va, in_range va → fits 32 va) as Hfit by (unfold in_range, fits; lia).
  assert (∀ k, 0 ≤ k < n → in_range (vaddr + 4096 * k)) as Hpg by (unfold in_range; lia).
  eapply wp_mono; [apply (i386_map_ok w bs); try done; [unfold KERN_BASE in *; lia|]|].
  { intros k Hkn. specialize (Hnone _ (Hpg k Hkn)). unfold itranslate in Hnone. by destruct (present _). }
  intros [r w1] (-> & (bs1 & Hi1 & _) & He1).
  assert (∀ k, 0 ≤ k < n → present (ipte (bytes w1) (p + KERN_BASE) (vaddr + 4096 * k)) = true) as Hpr.
  { intros k Hkn. rewrite He1 by by apply Hfit, Hpg. destruct (upto_in (mapped_to paddr flags) (bytes w) _ (Hpg k Hkn)) as (-> & Hb' & _).
    by destruct (mapped_entry paddr flags _ H0 Hm Hk Hf Hb') as (_ & _ & -> & _). }
  split_and!; [done| | | |].
  - intros va Hva. destruct (upto_in (mapped_to paddr flags) (bytes w) va Hva) as (Eu & Hb' & Ev).
    destruct (mapped_entry paddr flags _ H0 Hm Hk Hf Hb') as (_ & _ & Hp1 & Ha1). pose proof (He1 va (Hfit va Hva)) as Hent. rewrite Eu in Hent. split.
    + unfold itranslate. rewrite Hent, Hp1, Ha1. f_equal. lia.
    + assert (present (ipte (bytes w1) (p + KERN_BASE) va) = true) as Hp2 by by rewrite Hent.
      destruct (walk_found w1 p bs1 va false Hi1 (Hfit va Hva) (present_tab _ _ _ Hp2)) as (pte & Hw & Hpte & Hacc). unfold i386_uva2kva. rewrite Hw.
      cbn [mbind res_bind]. rewrite (proj2 (Z.eqb_neq _ _) Hpte), !(pte_at_walk w1 p va pte Hacc (present_tab _ _ _ Hp2)), Hp2, Hent, mapped_user by done.
      cbn [negb]. destruct (Z.testbit flags 2); cbn [negb]; [|done]. rewrite Ha1. change (postmap_addr ?x) with (acc x).
      rewrite acc_low by (unfold KERN_BASE in *; lia). f_equal. lia.
  - intros va Hva Hout. unfold itranslate. by rewrite He1, upto_out.
  - unfold i386_set_pages_perm. eapply wp_mono; [apply (over_pages_ok _ _ 0 w1 bs1); try done; lia|]. intros [r w2] (-> & _ & He2). split; [lia|].
    intros va Hva. unfold itranslate. rewrite He2 by done. destruct (decide (in_range va)) as [Hin|Hout]; [|by rewrite upto_out].
    destruct (upto_in (λ k, w32 (Z.lor (ipte (bytes w1) (p + KERN_BASE) (vaddr + 4096 * k)) extra)) (bytes w1) va Hin) as (-> & Hb' & _).
    rewrite (He1 (vaddr + _)), (He1 va) by (done || by apply Hfit, Hpg). destruct (upto_in (mapped_to paddr flags) (bytes w) va Hin) as (-> & _).
    destruct (upto_in (mapped_to paddr flags) (bytes w) _ (Hpg _ Hb')) as (-> & _). replace ((vaddr + 4096 * ((va - vaddr) / 4096) - vaddr) / 4096)
      with ((va - vaddr) / 4096) by (Z.to_euclidean_division_equations; lia). rewrite mapped_more by done.
    destruct (mapped_entry paddr flags _ H0 Hm Hk Hf Hb') as (_ & _ & -> & ->).
    assert (0 ≤ Z.lor flags extra < 4096) as Hfx by (apply (fits_lor 12); unfold fits; lia).
    by destruct (mapped_entry paddr (Z.lor flags extra) _ H0 Hm Hk Hfx Hb') as (_ & _ & -> & ->).
  - unfold i386_unmap_pages. eapply wp_mono; [apply (over_pages_ok _ _ PGSIZE w1 bs1); try done; unfold PGSIZE, KERN_BASE in *; lia|]. intros [r w2] (-> & _ & He2).
    split; [unfold PGSIZE; lia|]. intros va Hva. unfold itranslate. rewrite He2 by done. destruct (decide (in_range va)) as [Hin|Hout].
    + destruct (upto_in (λ _, w32 0) (bytes w1) va Hin) as (-> & _). specialize (Hnone va Hin). unfold itranslate in Hnone. by destruct (present (ipte _ _ _)).
    + by rewrite !upto_out, He1, upto_out.
Qed.

(** A page that is present already stops the kernel. *)
Lemma i386_map_present w bs paddr flags : ipt_inv w p bs → present (ipte (bytes w) (p + KERN_BASE) vaddr) = true →
  i386_map_pages p vaddr paddr (4096 * n) flags w = Err Panicked.
Proof.
  intros Hi Hpr. unfold i386_map_pages. destruct range_ok as (-> & -> & ->). destruct (Z.to_nat n) as [|k] eqn:E; [lia|]. rewrite loop_S.
  pose proof (present_tab _ _ _ Hpr) as Htab. destruct (walk_found w p bs vaddr true Hi ltac:(unfold fits; lia) Htab) as (pte & -> & Hpte & Hacc).
  cbn [mbind res_bind]. by rewrite (proj2 (Z.eqb_neq _ _) Hpte), (pte_at_walk w p _ pte Hacc Htab), Hpr.
Qed.
End laws.

(** A new directory has the content that its page happened to have. *)
Lemma i386_init_stale `{K : Kmem} {J : world → Prop} `{!KmemLaws K J} s w bs q bs' : J w → pm_inv w bs → first_fit PAGE_SIZE bs = Some (q, bs') → queue s = [] →
  wp (i386_init_pgindex s w) (λ '(pg, w'), pg = q ∧ ∀ i, ent (bytes w') (q + KERN_BASE) i = ent (bytes w) (q + KERN_BASE) i).
Proof.
  intros HJ Hi Hff Hs. unfold i386_init_pgindex. pose proof (pgalloc_ok w bs HJ Hi) as Ha. rewrite Hff in Ha.
  destruct (wp_inv _ _ Ha) as ([r w1] & -> & -> & _ & _ & Hby & Hq0 & _ & Hqb & _). cbn [mbind res_bind]. rewrite loop_S.
  assert (early_mapping_next None s = None) as -> by (unfold early_mapping_next, queue_size; by rewrite Hs). cbn [mbind res_bind wp]. rewrite Hby. split; [|done].
  apply wrap_small. unfold fits, PAGE_SIZE, KERN_BASE in *. lia.
Qed.

(** ** Witness: an empty directory at the physical address 0x101000. *)
Lemma demo_directory i : tab (bytes boot_w) 0x80101000 i = 0.
Proof. done. Qed.
Lemma demo_ipt_inv : ipt_inv (J := boot_J) boot_w 0x101000 demo_bs.
Proof.
  destruct demo_pt_inv as (HJ & Hpm & Ht). split_and!; [done|done| | |by unfold KERN_BASE..].
  - split; [apply Ht|intros i _ Hn; by rewrite demo_directory in Hn|intros i j _ _ Hn; by rewrite demo_directory in Hn].
  - intros [Hy|Hy]%avail_cons; [lia|by apply avail_nil in Hy].
Qed.

Lemma i386_pages_correct_witness :
  wp (i386_map_pages (K := kmem demo_junk 1) 0x101000 0x400000 0x300000 (4096 * 2) 6 boot_w) (λ '(r, w1), r = 0 ∧
    itranslate (bytes w1) 0x80101000 0x401234 = Some 0x301234 ∧ i386_uva2kva (K := kmem demo_junk 1) 0x101000 0x401234 w1 = Ok 0x80301000 ∧
    wp (i386_unmap_pages (K := kmem demo_junk 1) 0x101000 0x400000 (4096 * 2) w1) (λ '(r, w2), r = 4096)).
Proof.
  eapply wp_mono; [apply (i386_pages_correct (K := kmem demo_junk 1) (J := boot_J) 0x101000 0x400000 2 eq_refl ltac:(done) ltac:(done) ltac:(done)
    boot_w demo_bs 0x300000 6 0 demo_ipt_inv)|]; try done.
  intros [r w1] (-> & Hin & _ & _ & Hun). destruct (Hin 0x401234) as [H1 H2]; [by unfold in_range|]. split_and!; [done|exact H1|exact H2|].
  eapply wp_mono; [exact Hun|]. intros [r w2] (-> & _). done.
Defined.
