(* ===== verification/I386Proc.v ===== *)
(** * Processes of the PC

    kern/arch/i386/proc.c and switch.S: trap frames on the kernel stacks, the
    contexts that [switch_regs] saves and loads, the set-up of a new process and
    of the child of a fork.  Stacks and frames are bytes of the memory; of
    [struct proc] only the stack, the context and the page directory of its address
    space matter here. *)
From S2P Require Import Prelude Util MmState Libc Pgtable Bootmain Apic I386Pg.

(** [struct trapframe] of include/arch/i386/arch-trap.h: the offsets used. *)
Definition SIZEOF_TF : Z := 76.
Definition TF_EAX : Z := 28.
Definition TF_EIP : Z := 56.
Definition TF_CS : Z := 60.

(** [struct context] of include/arch/i386/context.h. *)
Record context := Ctx { x_esp : Z; x_ebp : Z; x_edi : Z; x_esi : Z; x_ebx : Z }.
Record proc := Proc { kstack : Z; kstack_size : Z; p_pgindex : Z; p_context : context }.
Definition set_context (c : context) (p : proc) : proc := Proc (kstack p) (kstack_size p) (p_pgindex p) c.
Definition kstacktop (p : proc) : Z := w32 (kstack p + kstack_size p).

Section setup.
Context (forkret : Z).

Definition i386_proc_trapframe (p : proc) : Z := w32 (kstacktop p - SIZEOF_TF).

(** [cs] is the code segment of the running processor. *)
Definition i386_bootstrap_trapframe (cs tf entry args : Z) (m : mem) : mem :=
  st32 (w32 (tf + TF_EAX)) (w32 args) (st32 (w32 (tf + TF_EIP)) (w32 entry) (st16 (w32 (tf + TF_CS)) cs m)).

(** The subtraction of the size of a pointer from [tf] counts in trap frames. *)
Definition i386_bootstrap_context (c : context) (tf : Z) (m : mem) : context * mem :=
  let esp := w32 (tf - 4 * SIZEOF_TF) in
  (Ctx esp (x_ebp c) 0 0 0, st32 esp (w32 forkret) m).

Definition i386_proc_ksetup (cs entry args : Z) (p : proc) (m : mem) : proc * mem :=
  let tf := i386_proc_trapframe p in
  let m := i386_bootstrap_trapframe cs tf entry args m in
  let '(c, m) := i386_bootstrap_context (p_context p) tf m in
  (set_context c p, m).

(** The stack of the user is not stored; [__bootstrap_user] is empty. *)
Definition i386_proc_usetup (cs entry stacktop args : Z) (p : proc) (m : mem) : proc * mem :=
  let tf := i386_proc_trapframe p in
  let m := i386_bootstrap_trapframe cs tf entry args m in
  let '(c, m) := i386_bootstrap_context (p_context p) tf m in
  (set_context c p, m).

(** [*tf_child = *tf_parent] *)
Definition copy_tf (dst src : Z) (m : mem) : mem := λ x, if (dst <=? x) && (x <? dst + SIZEOF_TF) then m (src + (x - dst)) else m x.
Definition i386_arch_fork (child parent : proc) (m : mem) : proc * mem :=
  let tf_child := i386_proc_trapframe child in
  let tf_parent := i386_proc_trapframe parent in
  let m := copy_tf tf_child tf_parent m in
  let '(c, m) := i386_bootstrap_context (p_context child) tf_child m in
  (set_context c child, m).
End setup.

(** [switch_regs]: the registers as they are when it is entered, with the return
    address on top of the stack, go to the old context; the new ones come from the
    other context, and [ret] takes the address to go on at from their stack. *)
Record regs := Regs { g_eip : Z; g_esp : Z; g_ebp : Z; g_edi : Z; g_esi : Z; g_ebx : Z }.
Definition save_regs (g : regs) : context := Ctx (g_esp g) (g_ebp g) (g_edi g) (g_esi g) (g_ebx g).
Definition load_regs (new : context) (m : mem) : regs :=
  Regs (ld32 m (x_esp new)) (w32 (x_esp new + 4)) (x_ebp new) (x_edi new) (x_esi new) (x_ebx new).

(** A processor: [current_proc], the register with the page directory, the registers
    at the entry of [switch_regs], and the processes. *)
Record cpu := Cpu { current_proc : Z; c_cr3 : Z; c_regs : regs; procs : gmap Z proc }.
Definition get_proc (c : cpu) (p : Z) : res proc := of_option BadPtr (procs c !! p).

Definition i386_switch_regs (old new : Z) (m : mem) (c : cpu) : res cpu :=
  o ← get_proc c old;
  let c := Cpu (current_proc c) (c_cr3 c) (c_regs c) (<[old := set_context (save_regs (c_regs c)) o]> (procs c)) in
  n ← get_proc c new;
  Ok (Cpu (current_proc c) (c_cr3 c) (load_regs (p_context n) m) (procs c)).

Definition i386_switch_context (p : Z) (m : mem) (c : cpu) : res cpu :=
  let current := current_proc c in
  let c := Cpu p (c_cr3 c) (c_regs c) (procs c) in
  n ← get_proc c p;
  let c := Cpu (current_proc c) (i386_switch_pgindex (p_pgindex n) (c_cr3 c)).2 (c_regs c) (procs c) in
  i386_switch_regs current p m c.

(** ** The stack of a process

    [tf] is its trap frame. *)
Record stack_ok (p : proc) (tf : Z) : Prop := StackOk {
  so_base : 0 ≤ kstack p;
  so_room : 5 * SIZEOF_TF ≤ kstack_size p;
  so_end : kstack p + kstack_size p < 2 ^ 32;
  so_tf : tf = kstack p + kstack_size p - SIZEOF_TF }.

Lemma trapframe_ok p tf : stack_ok p tf → i386_proc_trapframe p = tf ∧ kstack p ≤ tf - 4 * SIZEOF_TF ∧ 4 * SIZEOF_TF ≤ tf ∧ tf + SIZEOF_TF < 2 ^ 32.
Proof.
  intros [H1 H2 H3 ->]. unfold i386_proc_trapframe, kstacktop, SIZEOF_TF in *. rewrite (wrap_small 32 (kstack p + _)) by (unfold fits; lia).
  rewrite wrap_small by (unfold fits; lia). lia.
Qed.

Definition ld_cs (m : mem) (tf : Z) : Z := ld16 m (tf + TF_CS).
Lemma ld16_st16 a v m : fits 16 v → ld16 (st16 a v m) a = v.
Proof.
  intros Hv. unfold ld16, st16, store. rewrite Z.eqb_refl. destruct (Z.eqb_spec a (a + 1)); [lia|]. rewrite Z.eqb_refl.
  unfold wrap, fits in *. Z.to_euclidean_division_equations; lia.
Qed.
Lemma ld16_ext (m m' : mem) a : (∀ x, a ≤ x < a + 2 → m' x = m x) → ld16 m' a = ld16 m a.
Proof. intros H. unfold ld16. by rewrite !H by lia. Qed.

(** What the set-up writes: nothing outside the frame and one word. *)
Lemma ksetup_ok forkret cs entry args p m tf : stack_ok p tf → fits 16 cs → fits 32 entry → fits 32 args → fits 32 forkret →
  let '(p', m') := i386_proc_ksetup forkret cs entry args p m in
  kstack p' = kstack p ∧ kstack_size p' = kstack_size p ∧ x_esp (p_context p') = tf - 4 * SIZEOF_TF ∧ ld32 m' (tf - 4 * SIZEOF_TF) = forkret ∧
  ld32 m' (tf + TF_EIP) = entry ∧ ld32 m' (tf + TF_EAX) = args ∧ ld_cs m' tf = cs ∧ p_pgindex p' = p_pgindex p ∧
  (∀ x, ¬ (kstack p ≤ x < kstack p + kstack_size p) → m' x = m x).
Proof.
  intros Hs Hcs He Ha Hf. destruct (trapframe_ok p tf Hs) as (E & H1 & H2 & H3). destruct Hs as [_ _ _ Htf].
  unfold i386_proc_ksetup, i386_bootstrap_trapframe, i386_bootstrap_context. rewrite E. unfold SIZEOF_TF, TF_EIP, TF_EAX, TF_CS, ld_cs in *.
  rewrite !(wrap_small 32 (tf + _)), (wrap_small 32 (tf - _)), (wrap_small 32 entry), (wrap_small 32 args), (wrap_small 32 forkret) by (done || (unfold fits; lia)).
  cbn [kstack kstack_size p_context set_context x_esp x_edi x_esi x_ebx]. split_and!; try done.
  - by apply ld32_st32_eq.
  - rewrite ld32_st32_ne, ld32_st32_ne by lia. by apply ld32_st32_eq.
  - rewrite ld32_st32_ne by lia. by apply ld32_st32_eq.
  - rewrite <-(ld16_st16 (tf + 60) cs m) at 2 by done. apply ld16_ext. intros x Hx. by rewrite !st32_out by (unfold TF_CS in *; lia).
  - intros x Hx. rewrite !st32_out by lia. apply st16_out. lia.
Qed.

(** The child of a fork. *)
Lemma fork_ok forkret c p m tfc tfp : stack_ok c tfc → stack_ok p tfp → fits 32 forkret →
  (kstack c + kstack_size c ≤ kstack p ∨ kstack p + kstack_size p ≤ kstack c) →
  let '(c', m') := i386_arch_fork forkret c p m in
  x_esp (p_context c') = tfc - 4 * SIZEOF_TF ∧ ld32 m' (tfc - 4 * SIZEOF_TF) = forkret ∧
  (∀ i, 0 ≤ i < SIZEOF_TF → m' (tfc + i) = m (tfp + i)) ∧ (∀ x, ¬ (kstack c ≤ x < kstack c + kstack_size c) → m' x = m x).
Proof.
  intros Hc Hp Hf Hd. destruct (trapframe_ok c tfc Hc) as (Ec & C1 & C2 & C3). destruct (trapframe_ok p tfp Hp) as (Ep & P1 & P2 & P3).
  destruct Hc as [_ _ _ Tc], Hp as [_ _ _ Tp]. unfold i386_arch_fork, i386_bootstrap_context. rewrite Ec, Ep. unfold SIZEOF_TF in *.
  rewrite (wrap_small 32 (tfc - _)), (wrap_small 32 forkret) by (done || (unfold fits; lia)). cbn [p_context set_context x_esp]. split_and!; [done| | |].
  - by apply ld32_st32_eq.
  - intros i Hi. rewrite st32_out by lia. unfold copy_tf, SIZEOF_TF. rewrite (proj2 (Z.leb_le _ _)), (proj2 (Z.ltb_lt _ _)) by lia. cbn [andb]. f_equal. lia.
  - intros x Hx. rewrite st32_out by lia. unfold copy_tf, SIZEOF_TF. zcases; simpl; try done; lia.
Qed.

(** ** Switching *)
Lemma switch_away p m c o n : p ≠ current_proc c → procs c !! current_proc c = Some o → procs c !! p = Some n →
  i386_switch_context p m c = Ok (Cpu p (p_pgindex n) (load_regs (p_context n) m) (<[current_proc c := set_context (save_regs (c_regs c)) o]> (procs c))).
Proof.
  intros Hne Ho Hn. destruct c as [cur cr3 g ps]. cbn [procs current_proc c_cr3 c_regs] in *. unfold i386_switch_context, i386_switch_regs, get_proc.
  cbv beta zeta. cbn [procs current_proc c_cr3 c_regs]. rewrite Hn. cbn [of_option mbind res_bind procs current_proc c_cr3 c_regs]. rewrite Ho.
  cbn [of_option mbind res_bind procs current_proc c_cr3 c_regs]. by rewrite lookup_insert_ne, Hn.
Qed.
Lemma switch_self m c o : procs c !! current_proc c = Some o →
  i386_switch_context (current_proc c) m c =
    Ok (Cpu (current_proc c) (p_pgindex o) (load_regs (save_regs (c_regs c)) m) (<[current_proc c := set_context (save_regs (c_regs c)) o]> (procs c))).
Proof.
  intros Ho. destruct c as [cur cr3 g ps]. cbn [procs current_proc c_cr3 c_regs] in *. unfold i386_switch_context, i386_switch_regs, get_proc.
  cbv beta zeta. cbn [procs current_proc c_cr3 c_regs]. rewrite !Ho. cbn [of_option mbind res_bind procs current_proc c_cr3 c_regs]. rewrite ?Ho.
  cbn [of_option mbind res_bind procs current_proc c_cr3 c_regs]. by rewrite lookup_insert_eq.
Qed.

(** The process that was running finds its registers in its context. *)
Lemma switch_saves b m c o n : procs c !! current_proc c = Some o → procs c !! b = Some n → ∃ c',
  i386_switch_context b m c = Ok c' ∧ current_proc c' = b ∧ c_cr3 c' = p_pgindex n ∧
  procs c' !! current_proc c = Some (set_context (save_regs (c_regs c)) o).
Proof.
  intros Ho Hn. destruct (decide (b = current_proc c)) as [->|Hne].
  - eexists. split; [by apply switch_self|]. cbn. rewrite lookup_insert_eq. rewrite Ho in Hn. injection Hn as <-. done.
  - eexists. split; [by apply switch_away|]. cbn. by rewrite lookup_insert_eq.
Qed.

(** Where [switch_regs] returns to, with the registers [g] at its entry. *)
Definition back (g : regs) (m : mem) : regs := Regs (ld32 m (g_esp g)) (g_esp g + 4) (g_ebp g) (g_edi g) (g_esi g) (g_ebx g).

(** C33. Processes of the PC.  A kernel process that has been set up starts in
    [forkret] when it is switched to, on its own stack below its trap frame, which
    holds the entry point, the argument and the code segment, and in its address
    space; setting it up touches nothing outside its stack.  A process that is
    switched away from goes on where it was, with its registers and its address
    space, when it is switched to again, provided that its return address is still
    on its stack.  The child of a fork starts in [forkret] with an exact copy of
    the trap frame of its parent, whose stack is untouched (the return value of
    the system call is therefore the same in both). *)
Theorem process_switch_correct forkret cs entry args p m tf : stack_ok p tf → fits 16 cs → fits 32 entry → fits 32 args → fits 32 forkret →
  (let '(p', m') := i386_proc_ksetup forkret cs entry args p m in
   i386_proc_trapframe p' = tf ∧ ld32 m' (tf + TF_EIP) = entry ∧ ld32 m' (tf + TF_EAX) = args ∧ ld_cs m' tf = cs ∧
   (∀ x, ¬ (kstack p ≤ x < kstack p + kstack_size p) → m' x = m x) ∧
   ∀ c a, a ≠ current_proc c → is_Some (procs c !! current_proc c) → procs c !! a = Some p' →
     wp (i386_switch_context a m' c) (λ c', current_proc c' = a ∧ c_cr3 c' = p_pgindex p ∧ g_eip (c_regs c') = forkret ∧ kstack p ≤ g_esp (c_regs c') < tf)) ∧
  (∀ c b m1 o, fits 32 (g_esp (c_regs c) + 4) → procs c !! current_proc c = Some o → is_Some (procs c !! b) →
     wp (i386_switch_context b m1 c) (λ c1, current_proc c1 = b ∧
       ∀ c2 m2, current_proc c2 ≠ current_proc c → is_Some (procs c2 !! current_proc c2) → procs c2 !! current_proc c = procs c1 !! current_proc c →
         ld32 m2 (g_esp (c_regs c)) = ld32 m1 (g_esp (c_regs c)) →
         wp (i386_switch_context (current_proc c) m2 c2) (λ c3, current_proc c3 = current_proc c ∧ c_cr3 c3 = p_pgindex o ∧ c_regs c3 = back (c_regs c) m1))) ∧
  (∀ child tfc, stack_ok child tfc → (kstack child + kstack_size child ≤ kstack p ∨ kstack p + kstack_size p ≤ kstack child) →
     let '(child', m') := i386_arch_fork forkret child p m in
     (∀ c a, a ≠ current_proc c → is_Some (procs c !! current_proc c) → procs c !! a = Some child' →
        wp (i386_switch_context a m' c) (λ c', g_eip (c_regs c') = forkret)) ∧
     (∀ i, 0 ≤ i < SIZEOF_TF → m' (tfc + i) = m (tf + i)) ∧ (∀ x, kstack p ≤ x < kstack p + kstack_size p → m' x = m x)).
Proof.
  intros Hs Hcs He Ha Hf. split_and!.
  - pose proof (ksetup_ok forkret cs entry args p m tf Hs Hcs He Ha Hf) as Hk. destruct (trapframe_ok p tf Hs) as (E & H1 & H2 & H3).
    destruct (i386_proc_ksetup forkret cs entry args p m) as [p' m'] eqn:Eq. destruct Hk as (K1 & K2 & K3 & K4 & K5 & K6 & K7 & K9 & K8).
    split_and!; try done.
    + unfold i386_proc_trapframe, kstacktop in *. by rewrite K1, K2.
    + intros c a Hne [o Ho] Hp. rewrite (switch_away a m' c o p' Hne Ho Hp). apply wp_ok. cbn [current_proc c_cr3 c_regs load_regs g_eip g_esp].
      rewrite K3, K4. unfold SIZEOF_TF in *. rewrite wrap_small by (unfold fits; lia). split_and!; [done|done|done|lia..].
  - intros c b m1 o Hfit Ho [n Hn]. destruct (switch_saves b m1 c o n Ho Hn) as (c1 & E1 & C1 & _ & C3). rewrite E1. apply wp_ok. split; [done|].
    intros c2 m2 Hne [o2 Ho2] Hp Hsame. rewrite C3 in Hp. rewrite (switch_away _ m2 c2 o2 _ (not_eq_sym Hne) Ho2 Hp). apply wp_ok.
    split_and!; [done|done|]. cbn [c_regs p_context set_context]. unfold load_regs, save_regs, back. cbn. by rewrite Hsame, wrap_small.
  - intros child tfc Hc Hd. pose proof (fork_ok forkret child p m tfc tf Hc Hs Hf Hd) as Hk. destruct (i386_arch_fork forkret child p m) as [c' m'].
    destruct Hk as (K1 & K2 & K3 & K4). split_and!; [|done|].
    + intros c a Hne [o Ho] Hp. rewrite (switch_away a m' c o c' Hne Ho Hp). apply wp_ok. cbn [c_regs load_regs g_eip]. by rewrite K1, K2.
    + intros x Hx. apply K4. lia.
Qed.

Lemma process_switch_correct_witness :
  let '(p', m') := i386_proc_ksetup 0x80100000 8 0x80100800 42 (Proc 0x80200000 32768 0x300000 (Ctx 0 0 0 0 0)) (λ _, 0) in
  ld32 m' (0x80208000 - 76 + TF_EIP) = 0x80100800 ∧
  wp (i386_switch_context 2 m' (Cpu 1 0 (Regs 0 0 0 0 0 0) (<[1 := p']> {[2 := p']}))) (λ c, c_cr3 c = 0x300000 ∧ g_eip (c_regs c) = 0x80100000).
Proof.
  destruct (process_switch_correct 0x80100000 8 0x80100800 42 (Proc 0x80200000 32768 0x300000 (Ctx 0 0 0 0 0)) (λ _, 0) (0x80208000 - 76)) as [H _];
    [by split|by unfold fits..|].
  destruct (i386_proc_ksetup _ _ _ _ _ _) as [p' m']. destruct H as (_ & H1 & _ & _ & _ & H2). split; [exact H1|].
  eapply wp_mono; [apply (H2 (Cpu 1 0 (Regs 0 0 0 0 0 0) (<[1 := p']> {[2 := p']})) 2); [done|by eexists|done]|]. by intros c (_ & C1 & C2 & _).
Defined.
