(* ===== verification/I386Trap.v ===== *)
(** * Traps of the PC

    kern/arch/i386/vectors.S and trap_asm.S: the 256 entries that the interrupt
    gates lead to, the trap frame that [alltraps] builds for [trap_exec], and the
    way back through [trapret], as instructions on the registers and the stack in
    memory; also the first way out of a new process, whose frame [__proc_ksetup]
    of kern/arch/i386/proc.c has made.  What the processor does by itself for an
    interrupt and for [iret] is that of the architecture, without the checks of
    descriptors that end in another exception and without the clearing of data
    segments of an inner level; a segment register is pushed as a word with zeros
    above it. *)
From S2P Require Import Prelude Util DList MmState Libc Pgtable Entry Bootmain Apic I386 I386Proc.

(** ** The machine *)
Record gprs := Gprs { eax : Z; ecx : Z; edx : Z; ebx : Z; esp : Z; ebp : Z; esi : Z; edi : Z }.
Record segs := Segs { cs : Z; ss : Z; ds : Z; es : Z; fs : Z; gs : Z }.
Record pc := Pc { pg : gprs; ps : segs; eip : Z; eflags : Z; pm : mem }.

Definition set_esp (v : Z) (p : pc) : pc :=
  let g := pg p in Pc (Gprs (eax g) (ecx g) (edx g) (ebx g) v (ebp g) (esi g) (edi g)) (ps p) (eip p) (eflags p) (pm p).
Definition set_eax (v : Z) (p : pc) : pc :=
  let g := pg p in Pc (Gprs v (ecx g) (edx g) (ebx g) (esp g) (ebp g) (esi g) (edi g)) (ps p) (eip p) (eflags p) (pm p).
Definition set_segs (s : segs) (p : pc) : pc := Pc (pg p) s (eip p) (eflags p) (pm p).

Definition push (v : Z) (p : pc) : pc :=
  let a := w32 (esp (pg p) - 4) in
  let p := set_esp a p in Pc (pg p) (ps p) (eip p) (eflags p) (st32 a v (pm p)).
Definition pop (p : pc) : Z * pc := (ld32 (pm p) (esp (pg p)), set_esp (w32 (esp (pg p) + 4)) p).

Inductive sreg := DS | ES | FS | GS.
Definition get_seg (x : sreg) (s : segs) : Z := match x with DS => ds s | ES => es s | FS => fs s | GS => gs s end.
Definition set_seg (x : sreg) (v : Z) (s : segs) : segs :=
  match x with
  | DS => Segs (cs s) (ss s) v (es s) (fs s) (gs s)
  | ES => Segs (cs s) (ss s) (ds s) v (fs s) (gs s)
  | FS => Segs (cs s) (ss s) (ds s) (es s) v (gs s)
  | GS => Segs (cs s) (ss s) (ds s) (es s) (fs s) v
  end.

Inductive insn := Pushl (v : Z) | Pushl_seg (x : sreg) | Pushal | Movw_ax (v : Z) | Movw_seg (x : sreg) | Pushl_esp | Call (ret : Z) |
  Movl_esp (off : Z) | Popal | Popl_seg (x : sreg) | Addl_esp (v : Z) | Iret.

(** The privilege level of a selector. *)
Definition rpl (sel : Z) : Z := Z.land sel 3.

Definition popal (p : pc) : pc :=
  let '(rdi, p) := pop p in let '(rsi, p) := pop p in let '(rbp, p) := pop p in let '(_, p) := pop p in
  let '(rbx, p) := pop p in let '(rdx, p) := pop p in let '(rcx, p) := pop p in let '(rax, p) := pop p in
  Pc (Gprs rax rcx rdx rbx (esp (pg p)) rbp rsi rdi) (ps p) (eip p) (eflags p) (pm p).

(** To an outer level [iret] also loads the stack. *)
Definition iret (p : pc) : pc :=
  let '(ip, p) := pop p in let '(c, p) := pop p in let '(fl, p) := pop p in
  let outer := rpl (cs (ps p)) <? rpl (w16 c) in
  let s := ps p in
  let p := Pc (pg p) (Segs (w16 c) (ss s) (ds s) (es s) (fs s) (gs s)) ip fl (pm p) in
  if outer then
    let '(sp, p) := pop p in let '(x, p) := pop p in
    let s := ps p in set_segs (Segs (cs s) (w16 x) (ds s) (es s) (fs s) (gs s)) (set_esp sp p)
  else p.

Definition exec (i : insn) (p : pc) : pc :=
  let g := pg p in
  match i with
  | Pushl v | Call v => push v p
  | Pushl_seg x => push (get_seg x (ps p)) p
  | Pushal => push (edi g) (push (esi g) (push (ebp g) (push (esp g) (push (ebx g) (push (edx g) (push (ecx g) (push (eax g) p)))))))
  | Movw_ax v => set_eax (Z.lor (Z.land (eax g) 0xffff0000) (w16 v)) p
  | Movw_seg x => set_segs (set_seg x (w16 (eax g)) (ps p)) p
  | Pushl_esp => push (esp g) p
  | Movl_esp off => set_esp (ld32 (pm p) (w32 (esp g + off))) p
  | Popal => popal p
  | Popl_seg x => let '(v, p) := pop p in set_segs (set_seg x (w16 v) (ps p)) p
  | Addl_esp v => set_esp (w32 (esp g + v)) p
  | Iret => iret p
  end.
Definition run (code : list insn) (p : pc) : pc := foldl (λ p i, exec i p) p code.

(** ** The code *)

(** The entries that do not push a zero in the place of the error code. *)
Definition has_error (n : Z) : bool := (n =? 8) || (10 <=? n) && (n <=? 14) || (n =? 17).

(** [vector0] to [vector255]; the jump to [alltraps] is the end. *)
Definition vector (n : Z) : list insn := (if has_error n then [] else [Pushl 0]) ++ [Pushl n].

(** [alltraps] up to and including the call of [trap_exec], which returns to
    [ret] if at all. *)
Definition alltraps (ret : Z) : list insn :=
  [Pushl_seg DS; Pushl_seg ES; Pushl_seg FS; Pushl_seg GS; Pushal; Movw_ax (Z.shiftl SEG_KDATA 3); Movw_seg DS; Movw_seg ES; Pushl_esp; Call ret].
Definition trapret : list insn := [Movl_esp 4; Popal; Popl_seg GS; Popl_seg FS; Popl_seg ES; Popl_seg DS; Addl_esp 8; Iret].

(** The processor pushes an error code for the double fault, the exceptions from
    the invalid task segment to the page fault and the alignment check. *)
Definition pushes_error (n : Z) : Prop := n ∈ [8; 10; 11; 12; 13; 14; 17].

(** What the processor does for an interrupt through a gate, with the error code
    if there is one: from an outer level it takes the stack of the kernel first;
    the flags TF, NT, RF and VM are cleared, and by an interrupt gate also IF. *)
Definition FL_TRACE : Z := 0x34100.
Definition FL_IF : Z := 0x200.
Definition gate_flags (gate : gatedesc) (fl : Z) : Z :=
  Z.land fl (Z.lnot (if gd_type gate =? STS_TG32 then FL_TRACE else Z.lor FL_TRACE FL_IF)).
Definition outer (p : pc) : bool := negb (rpl (cs (ps p)) =? 0).
Definition deliver (err : option Z) (gate : gatedesc) (esp0 ss0 : Z) (p : pc) : pc :=
  let g := pg p in let s := ps p in
  let q := if outer p then push (esp g) (push (ss s) (set_esp esp0 (set_segs (Segs (cs s) ss0 (ds s) (es s) (fs s) (gs s)) p))) else p in
  let q := push (eip p) (push (cs s) (push (eflags p) q)) in
  let q := match err with Some e => push e q | None => q end in
  let s := ps q in
  Pc (pg q) (Segs (gd_segment gate) (ss s) (ds s) (es s) (fs s) (gs s)) (gate_offset gate) (gate_flags gate (eflags p)) (pm q).

(** The members of the trap frame that [trap_exec] reads. *)
Definition read_frame (m : mem) (tf : Z) : I386.trapframe :=
  I386.TrapFrame (ld32 m (tf + 48)) (ld32 m (tf + 28)) (ld32 m (tf + 16)) (ld32 m (tf + 24)) (ld32 m (tf + 20)) (ld32 m (tf + 4)) (ld32 m tf) (ld32 m (tf + 8)).

(** [struct trapframe], from its first member to its last. *)
Definition base (esp0 : Z) (p : pc) : Z := if outer p then esp0 else esp (pg p).
Definition frame_words (esp0 : Z) (err : option Z) (n : Z) (p : pc) : list Z :=
  let g := pg p in let s := ps p in
  [edi g; esi g; ebp g; base esp0 p - (if outer p then 44 else 36); ebx g; edx g; ecx g; eax g; gs s; fs s; es s; ds s; n; default 0 err; eip p; cs s; eflags p] ++
  (if outer p then [esp g; ss s] else []).
Definition frame_at (m : mem) (tf : Z) (ws : list Z) : Prop := ∀ j w, ws !! j = Some w → ld32 m (tf + 4 * Z.of_nat j) = w.

Record pc_ok (p : pc) : Prop := PcOk {
  ok_gprs : Forall (fits 32) [eax (pg p); ecx (pg p); edx (pg p); ebx (pg p); esp (pg p); ebp (pg p); esi (pg p); edi (pg p)];
  ok_segs : Forall (fits 16) [cs (ps p); ss (ps p); ds (ps p); es (ps p); fs (ps p); gs (ps p)];
  ok_rest : fits 32 (eip p) ∧ fits 32 (eflags p) }.

(** ** Entry *)

(** The selector of the data of the kernel is the low half of [eax]. *)
Lemma kdata_low v : w16 (Z.lor (Z.land v 0xffff0000) (w16 (Z.shiftl 2 3))) = 16.
Proof.
  change (w16 (Z.shiftl 2 3)) with 16. unfold wrap. apply Z.bits_inj'. intros k Hk.
  destruct (decide (k < 16)).
  - rewrite Z.mod_pow2_bits_low, Z.lor_spec, Z.land_spec by lia. replace (Z.testbit 0xffff0000 k) with false; [by rewrite andb_false_r|].
    symmetry. change 0xffff0000 with (Z.shiftl 0xffff 16). rewrite Z.shiftl_spec by lia. apply Z.testbit_neg_r. lia.
  - rewrite Z.mod_pow2_bits_high by lia. symmetry. change 16 with (2 ^ 4). apply Z.pow2_bits_false. lia.
Qed.

(** [p] with the words [vs] pushed below [B]. *)
Definition grow (B : Z) (vs : list Z) (p : pc) : pc :=
  let g := pg p in
  Pc (Gprs (eax g) (ecx g) (edx g) (ebx g) (B - 4 * Z.of_nat (length vs)) (ebp g) (esi g) (edi g)) (ps p) (eip p) (eflags p) (push_all B vs (pm p)).

Lemma push_grow B vs v p : fits 32 B → 4 * Z.of_nat (S (length vs)) ≤ B → push v (grow B vs p) = grow B (vs ++ [v]) p.
Proof.
  intros Hf Hb. unfold push, grow. cbn [pg esp set_esp ps eip eflags pm]. rewrite wrap_small by (unfold fits in *; lia).
  rewrite push_all_app, length_app. cbn [length push_all eax ecx edx ebx ebp esi edi]. f_equal; [f_equal; lia].
Qed.
Lemma grow_set B p : set_esp B p = grow B [] p.
Proof. destruct p as [[] ? ? ? ?]. unfold grow, set_esp. cbn. by rewrite Z.sub_0_r. Qed.
Lemma grow_nil p : p = grow (esp (pg p)) [] p.
Proof. rewrite <-grow_set. by destruct p as [[] ? ? ? ?]. Qed.

Lemma code_app c d p : run (c ++ d) p = run d (run c p).
Proof. apply foldl_app. Qed.
Lemma run_cons i c p : run (i :: c) p = run c (exec i p).
Proof. done. Qed.

Section steps.
Context (B : Z) (vs : list Z) (p : pc) (Hf : fits 32 B).

Lemma step_seg x : 4 * Z.of_nat (S (length vs)) ≤ B → exec (Pushl_seg x) (grow B vs p) = grow B (vs ++ [get_seg x (ps p)]) p.
Proof. intros Hb. exact (push_grow B vs _ p Hf Hb). Qed.
Lemma step_esp : 4 * Z.of_nat (S (length vs)) ≤ B → exec Pushl_esp (grow B vs p) = grow B (vs ++ [B - 4 * Z.of_nat (length vs)]) p.
Proof. intros Hb. exact (push_grow B vs _ p Hf Hb). Qed.
Lemma step_call r : 4 * Z.of_nat (S (length vs)) ≤ B → exec (Call r) (grow B vs p) = grow B (vs ++ [r]) p.
Proof. intros Hb. exact (push_grow B vs _ p Hf Hb). Qed.
Lemma step_pushal : 4 * Z.of_nat (8 + length vs) ≤ B → exec Pushal (grow B vs p) =
  let g := pg p in grow B (vs ++ [eax g; ecx g; edx g; ebx g; B - 4 * Z.of_nat (length vs); ebp g; esi g; edi g]) p.
Proof.
  intros Hb. cbv zeta. cbn [exec]. rewrite !push_grow by (done || rewrite ?length_app; cbn [length]; lia). by rewrite <-!app_assoc.
Qed.
End steps.

Lemma base_fits esp0 p : pc_ok p → fits 32 esp0 → fits 32 (base esp0 p).
Proof. intros [Hg _ _] H0. unfold base. destruct (outer p); [done|]. rewrite !Forall_cons in Hg. tauto. Qed.

Lemma has_error_spec n : has_error n = true ↔ pushes_error n.
Proof. unfold has_error, pushes_error. rewrite !orb_true_iff, andb_true_iff, !Z.eqb_eq, !Z.leb_le. set_unfold. lia. Qed.

Section path.
Context (n : Z) (err : option Z) (gate : gatedesc) (esp0 ss0 ret : Z) (p : pc).
Context (Hp : pc_ok p) (Hn : 0 ≤ n < 256) (Herr : is_Some err ↔ pushes_error n) (Hew : fits 32 (default 0 err)).
Context (H0 : fits 32 esp0) (Hb : 84 ≤ base esp0 p).

Definition tframe : Z := base esp0 p - 4 * Z.of_nat (length (frame_words esp0 err n p)).

(** The processor when [trap_exec] is entered. *)
Definition entered : pc :=
  let g := pg p in let s := ps p in
  grow (base esp0 p) (reverse (frame_words esp0 err n p) ++ [tframe; ret])
    (Pc (Gprs (Z.lor (Z.land (eax g) 0xffff0000) 0x10) (ecx g) (edx g) (ebx g) (esp g) (ebp g) (esi g) (edi g))
        (Segs (gd_segment gate) (if outer p then ss0 else ss s) 0x10 0x10 (fs s) (gs s)) (gate_offset gate) (gate_flags gate (eflags p)) (pm p)).

Definition hw_words : list Z := (if outer p then [ss (ps p); esp (pg p)] else []) ++ [eflags p; cs (ps p); eip p] ++ (match err with Some e => [e] | None => [] end).
Lemma deliver_eq : deliver err gate esp0 ss0 p = grow (base esp0 p) hw_words
  (Pc (pg p) (Segs (gd_segment gate) (if outer p then ss0 else ss (ps p)) (ds (ps p)) (es (ps p)) (fs (ps p)) (gs (ps p))) (gate_offset gate)
     (gate_flags gate (eflags p)) (pm p)).
Proof.
  pose proof (base_fits esp0 p Hp H0) as Hf. unfold deliver, hw_words, base in *. cbv zeta. destruct (outer p).
  - rewrite grow_set, !push_grow by (done || (cbn [length app]; lia)). destruct err; [rewrite push_grow by (done || (cbn [length app]; lia))|]; reflexivity.
  - assert (push (eflags p) p = grow (esp (pg p)) [eflags p] p) as -> by (rewrite (grow_nil p) at 2; apply push_grow; cbn [length]; [done|lia]).
    rewrite !push_grow by (done || (cbn [length app]; lia)). destruct err; [rewrite push_grow by (done || (cbn [length app]; lia))|]; reflexivity.
Qed.

Lemma hw_length : (length hw_words ≤ 6)%nat.
Proof. unfold hw_words. destruct (outer p), err; cbn; lia. Qed.

(** The vector completes what the processor pushed to the error code and the
    number. *)
Definition sw_words : list Z := (if outer p then [ss (ps p); esp (pg p)] else []) ++ [eflags p; cs (ps p); eip p; default 0 err; n].
Lemma vector_eq q : run (vector n) (grow (base esp0 p) hw_words q) = grow (base esp0 p) sw_words q.
Proof.
  pose proof (base_fits esp0 p Hp H0) as Hf. pose proof hw_length. unfold vector, sw_words, hw_words in *.
  pose proof (has_error_spec n) as He. destruct err as [e|], (has_error n); try (exfalso; destruct Herr as [H1 H2], He as [H3 H4];
    (discriminate H4; apply H1; by eexists) || (destruct H2; [by apply H3|done])).
  all: cbn [run foldl app exec]; rewrite !push_grow by (done || (destruct (outer p); cbn [length app] in *; lia)); by rewrite <-!app_assoc.
Qed.

Lemma alltraps_eq q : pg q = pg p → ds (ps q) = ds (ps p) → es (ps q) = es (ps p) → fs (ps q) = fs (ps p) → gs (ps q) = gs (ps p) →
  run (alltraps ret) (grow (base esp0 p) sw_words q) = grow (base esp0 p) (reverse (frame_words esp0 err n p) ++ [tframe; ret])
    (Pc (Gprs (Z.lor (Z.land (eax (pg p)) 0xffff0000) 0x10) (ecx (pg p)) (edx (pg p)) (ebx (pg p)) (esp (pg p)) (ebp (pg p)) (esi (pg p)) (edi (pg p)))
        (Segs (cs (ps q)) (ss (ps q)) 0x10 0x10 (fs (ps p)) (gs (ps p))) (eip q) (eflags q) (pm q)).
Proof.
  intros Eg Ed Ee Ef Ec. pose proof (base_fits esp0 p Hp H0) as Hf. unfold tframe, alltraps.
  assert (length (frame_words esp0 err n p) = 12 + length sw_words)%nat as -> by (unfold frame_words, sw_words; by destruct (outer p)).
  assert (length sw_words ≤ 7)%nat as Hl by (unfold sw_words; destruct (outer p); cbn; lia).
  rewrite !run_cons. do 4 (rewrite step_seg by (done || rewrite ?length_app; cbn [length]; lia)).
  rewrite step_pushal by (done || rewrite ?length_app; cbn [length]; lia). cbv zeta. rewrite !length_app. cbn [length].
  change (exec (Movw_ax ?v) (grow ?b ?l ?r)) with (grow b l (set_eax (Z.lor (Z.land (eax (pg r)) 0xffff0000) (w16 v)) r)).
  do 2 change (exec (Movw_seg ?x) (grow ?b ?l ?r)) with (grow b l (set_segs (set_seg x (w16 (eax (pg r))) (ps r)) r)).
  rewrite step_esp, step_call by (done || rewrite ?length_app; cbn [length]; lia). rewrite !length_app. cbn [length].
  assert (SEG_KDATA = 2) as Esel by reflexivity. rewrite Esel.
  unfold set_eax, set_segs, set_seg. cbn [run foldl get_seg pg ps eax ecx edx ebx esp ebp esi edi cs ss ds es fs gs eip eflags pm]. rewrite kdata_low, Eg, Ed, Ee, Ef, Ec.
  f_equal. unfold frame_words, sw_words. destruct (outer p); cbn [length app Nat.add]; repeat (f_equal; try lia).
Qed.

Lemma entry_eq : run (vector n ++ alltraps ret) (deliver err gate esp0 ss0 p) = entered.
Proof. rewrite deliver_eq, code_app, vector_eq. by apply alltraps_eq. Qed.

Lemma words_fit : Forall (fits 32) (frame_words esp0 err n p).
Proof.
  pose proof (base_fits esp0 p Hp H0) as Hf. destruct Hp as [Hg Hs [He Hl]]. rewrite !Forall_cons in Hg. rewrite !Forall_cons in Hs.
  unfold frame_words. apply Forall_app. unfold fits in *. split; destruct (outer p); repeat (apply Forall_cons_2; [lia|]); apply Forall_nil_2.
Qed.
Lemma words_length : length (frame_words esp0 err n p) = if outer p then 19%nat else 17%nat.
Proof. unfold frame_words. by destruct (outer p). Qed.

Lemma entered_frame : frame_at (pm entered) tframe (frame_words esp0 err n p).
Proof.
  intros j w Hj. pose proof (lookup_lt_Some _ _ _ Hj) as Hl. pose proof words_fit as Hw. rewrite Forall_lookup in Hw.
  rewrite <-(push_all_in (base esp0 p) (reverse (frame_words esp0 err n p) ++ [tframe; ret]) (pm p) (length (frame_words esp0 err n p) - S j) w).
  - unfold entered, grow. cbn [pm]. f_equal. unfold tframe. lia.
  - rewrite lookup_app_l by (rewrite length_reverse; lia). rewrite reverse_lookup by lia. by replace (_ - S _)%nat with j by lia.
  - by eapply Hw.
Qed.
Lemma tframe_bound : 8 ≤ tframe ∧ tframe + (if outer p then 76 else 68) = base esp0 p.
Proof. unfold tframe. rewrite words_length. destruct (outer p); lia. Qed.
Lemma entered_esp : esp (pg entered) = tframe - 8.
Proof. unfold entered, grow, tframe. cbn [pg esp]. rewrite length_app, length_reverse. cbn [length]. lia. Qed.
Lemma entered_args : fits 32 ret → ld32 (pm entered) (esp (pg entered)) = ret ∧ ld32 (pm entered) (esp (pg entered) + 4) = tframe.
Proof.
  intros Hr. pose proof tframe_bound. pose proof (base_fits esp0 p Hp H0) as Hf. pose proof words_length as Hl.
  pose proof (λ j v, push_all_in (base esp0 p) (reverse (frame_words esp0 err n p) ++ [tframe; ret]) (pm p) j v) as Hin.
  unfold entered, grow. cbn [pm pg esp]. rewrite length_app, length_reverse. cbn [length]. split.
  - etrans; [|apply (Hin (S (length (frame_words esp0 err n p))) ret)]; [f_equal; lia| |done].
    rewrite lookup_app_r, length_reverse by (rewrite length_reverse; lia). by replace (S _ - _)%nat with 1%nat by lia.
  - etrans; [|apply (Hin (length (frame_words esp0 err n p)) tframe)]; [f_equal; lia| |unfold fits in *; destruct (outer p); lia].
    rewrite lookup_app_r, length_reverse by (rewrite length_reverse; lia). by rewrite Nat.sub_diag.
Qed.
Lemma entered_out x : x < tframe - 8 ∨ base esp0 p ≤ x → pm entered x = pm p x.
Proof.
  intros Hx. unfold entered, grow. cbn [pm]. apply push_all_out. rewrite length_app, length_reverse. cbn [length]. unfold tframe in Hx. lia.
Qed.
End path.

(** ** Return *)
Lemma pop_at a q : 0 ≤ a → a + 4 < 2 ^ 32 → pop (set_esp a q) = (ld32 (pm q) a, set_esp (a + 4) q).
Proof. intros H0 H1. unfold pop. rewrite wrap_small by (unfold fits; cbn; lia). done. Qed.
Lemma popal_at a q : 0 ≤ a → a + 32 < 2 ^ 32 → let f j := ld32 (pm q) (a + j) in
  exec Popal (set_esp a q) = set_esp (a + 32) (Pc (Gprs (f 28) (f 24) (f 20) (f 16) 0 (f 8) (f 4) (f 0)) (ps q) (eip q) (eflags q) (pm q)).
Proof.
  intros H0 H1 f. cbn [exec]. unfold popal. do 8 (rewrite pop_at by lia; cbv iota beta).
  assert (∀ i j, 0 ≤ i → a + i + j = a + (i + j)) as E by lia. rewrite <-!Z.add_assoc. unfold f. by rewrite Z.add_0_r.
Qed.
Lemma popl_at a x q : 0 ≤ a → a + 4 < 2 ^ 32 → exec (Popl_seg x) (set_esp a q) = set_esp (a + 4) (set_segs (set_seg x (w16 (ld32 (pm q) a)) (ps q)) q).
Proof. intros H0 H1. cbn [exec]. by rewrite pop_at. Qed.
Lemma addl_at a v q : 0 ≤ a + v < 2 ^ 32 → exec (Addl_esp v) (set_esp a q) = set_esp (a + v) q.
Proof. intros H. cbn [exec]. unfold set_esp at 1. cbn. by rewrite wrap_small. Qed.
Lemma iret_at a q : 0 ≤ a → a + 12 < 2 ^ 32 → let f j := ld32 (pm q) (a + j) in
  let out := rpl (cs (ps q)) <? rpl (w16 (f 4)) in (out = true → a + 16 < 2 ^ 32) →
  exec Iret (set_esp a q) = set_esp (if out then f 12 else a + 12)
    (Pc (pg q) (Segs (w16 (f 4)) (if out then w16 (f 16) else ss (ps q)) (ds (ps q)) (es (ps q)) (fs (ps q)) (gs (ps q))) (f 0) (f 8) (pm q)).
Proof.
  intros H0 H1 f out H2. cbn [exec]. unfold iret. do 3 (rewrite pop_at by lia; cbv iota beta). rewrite <-!Z.add_assoc.
  change (rpl (cs (ps (set_esp (a + (4 + (4 + 4))) q))) <? rpl (w16 (ld32 (pm q) (a + 4)))) with out. subst f. cbv beta zeta. rewrite Z.add_0_r.
  destruct out; [|done]. specialize (H2 eq_refl). unfold pop. cbn [pg esp set_esp pm ps]. rewrite (wrap_small 32 (a + _ + 4)) by (unfold fits; lia).
  cbn [pg esp set_esp pm ps]. rewrite <-!Z.add_assoc. reflexivity.
Qed.

(** What [trapret] makes of the frame at [tf]. *)
Definition resumed (q : pc) (tf : Z) : pc :=
  let f j := ld32 (pm q) (tf + j) in
  let out := negb (rpl (w16 (f 60)) =? 0) in
  Pc (Gprs (f 28) (f 24) (f 20) (f 16) (if out then f 68 else tf + 68) (f 8) (f 4) (f 0))
     (Segs (w16 (f 60)) (if out then w16 (f 72) else ss (ps q)) (w16 (f 44)) (w16 (f 40)) (w16 (f 36)) (w16 (f 32))) (f 56) (f 64) (pm q).

Lemma rpl_range x : 0 ≤ rpl x < 4.
Proof. unfold rpl. change 3 with (Z.ones 2). rewrite Z.land_ones by lia. apply Z.mod_pos_bound. lia. Qed.

Lemma trapret_eq q tf : rpl (cs (ps q)) = 0 → ld32 (pm q) (w32 (esp (pg q) + 4)) = tf → 0 ≤ tf → tf + 68 < 2 ^ 32 →
  (rpl (w16 (ld32 (pm q) (tf + 60))) ≠ 0 → tf + 72 < 2 ^ 32) → run trapret q = resumed q tf.
Proof.
  intros Hr He H0 H1 H2. unfold trapret. rewrite !run_cons.
  change (exec (Movl_esp 4) q) with (set_esp (ld32 (pm q) (w32 (esp (pg q) + 4))) q). rewrite He.
  rewrite popal_at by lia. cbv zeta. do 4 (rewrite popl_at by lia). rewrite addl_at by lia.
  unfold set_segs, set_seg. cbn [pg ps cs ss ds es fs gs eip eflags pm]. rewrite <-!Z.add_assoc.
  pose proof (rpl_range (w16 (ld32 (pm q) (tf + 60)))) as Hx.
  assert ((0 <? rpl (w16 (ld32 (pm q) (tf + 60)))) = negb (rpl (w16 (ld32 (pm q) (tf + 60))) =? 0)) as Ho by (zcases; cbn; lia).
  rewrite iret_at; [|lia..|]; cbn [pg ps cs ss ds es fs gs eip eflags pm]; rewrite <-!Z.add_assoc, Hr.
  - change (tf + (32 + (4 + (4 + (4 + (4 + (8 + 4))))))) with (tf + 60). rewrite Ho. reflexivity.
  - intros E%Z.ltb_lt. change (tf + (32 + (4 + (4 + (4 + (4 + (8 + 4))))))) with (tf + 60) in E. enough (tf + 72 < 2 ^ 32) by lia. apply H2. lia.
Qed.

(** Rewrites with the words [js] of a frame. *)
Ltac read_words F js :=
  lazymatch js with
  | ?j :: ?js => let c := eval compute in (4 * Z.of_nat j) in rewrite ?(F j _ eq_refl : ld32 _ (_ + c) = _); read_words F js
  | _ => idtac
  end.

(** The frame of an interrupted program resumes it. *)
Lemma resumed_frame n err esp0 p q tf : pc_ok p → frame_at (pm q) tf (frame_words esp0 err n p) → tf + (if outer p then 76 else 68) = base esp0 p →
  resumed q tf = Pc (pg p) (Segs (cs (ps p)) (if outer p then ss (ps p) else ss (ps q)) (ds (ps p)) (es (ps p)) (fs (ps p)) (gs (ps p))) (eip p) (eflags p) (pm q).
Proof.
  intros [_ Hs _] F Hb. rewrite !Forall_cons in Hs. destruct Hs as (S1 & S2 & S3 & S4 & S5 & S6 & _). unfold resumed. cbv zeta.
  unfold frame_at, frame_words in F. read_words F [0; 1; 2; 4; 5; 6; 7; 8; 9; 10; 11; 14; 15; 16]%nat.
  rewrite (wrap_small 16 (cs _)), (wrap_small 16 (ds _)), (wrap_small 16 (es _)), (wrap_small 16 (fs _)), (wrap_small 16 (gs _)) by done.
  change (negb (rpl (cs (ps p)) =? 0)) with (outer p). unfold base in Hb. destruct (outer p); [|rewrite Hb; by destruct (pg p)].
  read_words F [17; 18]%nat. rewrite (wrap_small 16 (ss _)) by done. clear F. by destruct (pg p).
Qed.

Lemma trapret_resumes n err esp0 p q : pc_ok p → fits 32 esp0 → 84 ≤ base esp0 p → rpl (cs (ps q)) = 0 →
  ld32 (pm q) (w32 (esp (pg q) + 4)) = tframe n err esp0 p → frame_at (pm q) (tframe n err esp0 p) (frame_words esp0 err n p) →
  run trapret q = Pc (pg p) (Segs (cs (ps p)) (if outer p then ss (ps p) else ss (ps q)) (ds (ps p)) (es (ps p)) (fs (ps p)) (gs (ps p))) (eip p) (eflags p) (pm q).
Proof.
  intros Hp H0 Hb Hq Hsp F. pose proof (base_fits esp0 p Hp H0) as Hf. destruct (tframe_bound n err esp0 p Hb) as [T1 T2].
  rewrite (trapret_eq q (tframe n err esp0 p)); [by eapply resumed_frame|done|done|lia|unfold fits in Hf; destruct (outer p); lia|].
  unfold frame_at, frame_words in F. read_words F [15]%nat. rewrite wrap_small by (destruct Hp as [_ Hs _]; by apply Forall_cons in Hs as [? _]).
  intros Ho. unfold outer at 1 in T2. rewrite (proj2 (Z.eqb_neq _ _) Ho) in T2. cbn [negb] in T2. unfold fits in Hf. lia.
Qed.

(** What [trap_exec] does for each vector. *)
Definition dispatch (n : Z) (g : gprs) : res trap_action :=
  if n =? 80 then Ok Halt
  else if n =? 64 then Ok (HandleSyscall (eax g) [ebx g; ecx g; edx g; esi g; edi g; ebp g])
  else if bool_decide (n ∈ [32; 33; 36; 46; 51; 63]) then Ok (HandleInterrupt n) else Err Panicked.

Lemma trap_exec_frame n err esp0 p m tf : 0 ≤ n < 256 → frame_at m tf (frame_words esp0 err n p) → trap_exec (read_frame m tf) = dispatch n (pg p).
Proof.
  intros Hn F. unfold read_frame. replace (ld32 m tf) with (ld32 m (tf + 0)) by (f_equal; lia).
  unfold frame_at, frame_words in F. read_words F [0; 1; 2; 4; 5; 6; 7; 12]%nat.
  unfold trap_exec, dispatch. cbn [tf_trapno tf_eax tf_ebx tf_ecx tf_edx tf_esi tf_edi tf_ebp].
  assert (sgn 32 (n - T_IRQ0) = n - 32) as -> by (unfold sgn, wrap, T_IRQ0; zcases; Z.to_euclidean_division_equations; lia).
  unfold T_PANIC, T_SYSCALL, IRQ_TIMER, IRQ_KBD, IRQ_COM1, IRQ_IDE, IRQ_ERROR, IRQ_SPURIOUS.
  destruct (n =? 80); [done|]. destruct (n =? 64); [done|]. case_bool_decide as Hi; set_unfold in Hi; zcases; cbn; try done; lia.
Qed.

(** ** A new process

    Its frame has the entry point, the argument and the code segment, and for the
    rest what was on the stack. *)
Lemma w16_st16 a v m : fits 16 v → w16 (ld32 (st16 a v m) a) = v.
Proof.
  intros Hv. unfold ld32. rewrite (st16_out a v m (a + 2)), (st16_out a v m (a + 3)) by lia. unfold st16, store. rewrite Z.eqb_refl.
  destruct (Z.eqb_spec a (a + 1)); [lia|]. rewrite Z.eqb_refl. unfold wrap, fits in *. Z.to_euclidean_division_equations; lia.
Qed.

Lemma new_process_ok forkret code entry args p m tf q : stack_ok p tf → fits 16 code → rpl code = 0 → fits 32 entry → fits 32 args → fits 32 forkret →
  rpl (cs (ps q)) = 0 → ld32 (pm q) (w32 (esp (pg q) + 4)) = tf → (∀ x, tf ≤ x < tf + SIZEOF_TF → pm q x = (i386_proc_ksetup forkret code entry args p m).2 x) →
  let r := run trapret q in
  eip r = entry ∧ eax (pg r) = args ∧ cs (ps r) = code ∧ esp (pg r) = tf + 68 ∧ kstack p ≤ esp (pg r) ≤ kstack p + kstack_size p ∧ pm r = pm q ∧
  eflags r = ld32 m (tf + 64) ∧ ds (ps r) = w16 (ld32 m (tf + 44)).
Proof.
  intros Hs Hc Hr He Ha Hf Hq Hsp Hm. destruct (trapframe_ok p tf Hs) as (E & H1 & H2 & H3). destruct Hs as [K1 K2 K3 Htf].
  unfold i386_proc_ksetup, i386_bootstrap_trapframe, i386_bootstrap_context in Hm. rewrite E in Hm. unfold SIZEOF_TF, TF_EIP, TF_EAX, TF_CS in *. cbn [snd] in Hm.
  rewrite !(wrap_small 32 (tf + _)), (wrap_small 32 (tf - _)), (wrap_small 32 entry), (wrap_small 32 args), (wrap_small 32 forkret) in Hm by (done || (unfold fits; lia)).
  set (mc := st16 (tf + 60) code m) in *.
  assert (∀ a, 0 ≤ a ≤ 72 → ld32 (pm q) (tf + a) = ld32 (st32 (tf + 28) args (st32 (tf + 56) entry mc)) (tf + a)) as Hl.
  { intros a Hx. apply ld32_ext. intros x Hx'. rewrite Hm by lia. apply st32_out. lia. }
  assert (∀ a, 0 ≤ a ≤ 72 → ¬ (56 < a < 64) → ld32 mc (tf + a) = ld32 m (tf + a)) as Hmc.
  { intros a Hx Hy. apply ld32_ext. intros x Hx'. apply st16_out. lia. }
  assert (w16 (ld32 (pm q) (tf + 60)) = code) as Ecs by (rewrite Hl, !ld32_st32_ne by lia; by apply w16_st16).
  rewrite (trapret_eq q tf) by (done || lia). unfold resumed. cbv zeta. cbn [eip pg ps eax esp cs ds eflags pm]. rewrite Ecs, Hr. cbn [Z.eqb negb].
  split_and!; try done; try lia.
  - rewrite Hl, ld32_st32_ne by lia. by apply ld32_st32_eq.
  - rewrite Hl by lia. by apply ld32_st32_eq.
  - by rewrite Hl, !ld32_st32_ne, Hmc by lia.
  - by rewrite Hl, !ld32_st32_ne, Hmc by lia.
Qed.

(** ** The whole path *)
Lemma gate_of_vector vectors (idt : list gatedesc) n gate : length vectors = IDT_ENTRY_NUM →
  (∀ i v, vectors !! i = Some v → ∃ g, idt !! i = Some g ∧ if Nat.eqb i 64 then gate_ok v DPL_USER true g else gate_ok v DPL_KERNEL false g) →
  0 ≤ n < 256 → idt !! Z.to_nat n = Some gate →
  vectors !! Z.to_nat n = Some (gate_offset gate) ∧ gd_segment gate = 8 ∧ gd_type gate = (if n =? T_SYSCALL then STS_TG32 else STS_IG32).
Proof.
  intros Hv Hg Hn Hgate. destruct (lookup_lt_is_Some_2 vectors (Z.to_nat n)) as [v Hvn]; [rewrite Hv; unfold IDT_ENTRY_NUM; lia|].
  destruct (Hg _ _ Hvn) as (g & Hg' & Hok). rewrite Hgate in Hg'. injection Hg' as <-. rewrite Hvn. unfold T_SYSCALL.
  replace (n =? 64) with (Nat.eqb (Z.to_nat n) 64) by (zcases; destruct (Nat.eqb_spec (Z.to_nat n) 64); lia).
  destruct (Nat.eqb _ _), Hok as (<- & G2 & _ & G3 & _); done.
Qed.

(** C31. Traps of the PC.  Once [trap_init] has filled the table, an interrupt, an
    exception or a system call with any of the 256 numbers enters the code of its
    vector; that and [alltraps] leave a frame of the layout of
    [struct trapframe], with all registers of the interrupted program, the number
    and the error code (zero where the processor gives none), directly below the
    stack pointer the processor started from; no other byte changes but the two
    words of the call.  [trap_exec] is called with its address and kernel
    segments, interrupts disabled except for the system call, and reads from the
    frame its branch and the arguments of the system call.  Whenever [trapret] is
    called with a frame that still has these words, the program goes on with all its
    registers, segments, flags and, from the user's level, its stack.  [trapret]
    with the frame of a new kernel process starts it at its entry point with its
    argument at the end of its stack; its flags and data segments are what was on
    the stack before. *)
Theorem i386_trap_path_correct vectors idt : length vectors = IDT_ENTRY_NUM → Forall (fits 32) vectors → length idt = IDT_ENTRY_NUM →
  wp (trap_init vectors idt) (λ idt', ∀ n err gate esp0 ss0 ret p, idt' !! Z.to_nat n = Some gate → 0 ≤ n < 256 →
    pc_ok p → (is_Some err ↔ pushes_error n) → fits 32 (default 0 err) → fits 32 esp0 → fits 32 ret → 84 ≤ base esp0 p →
    let d := deliver err gate esp0 ss0 p in let q := run (vector n ++ alltraps ret) d in
    let ws := frame_words esp0 err n p in let tf := base esp0 p - 4 * Z.of_nat (length ws) in
    vectors !! Z.to_nat n = Some (eip d) ∧
    ps q = Segs 8 (if outer p then ss0 else ss (ps p)) 16 16 (fs (ps p)) (gs (ps p)) ∧
    eflags q = Z.land (eflags p) (Z.lnot (if n =? T_SYSCALL then FL_TRACE else Z.lor FL_TRACE FL_IF)) ∧
    esp (pg q) = tf - 8 ∧ ld32 (pm q) (tf - 8) = ret ∧ ld32 (pm q) (tf - 4) = tf ∧ frame_at (pm q) tf ws ∧
    (∀ x, x < tf - 8 ∨ base esp0 p ≤ x → pm q x = pm p x) ∧
    trap_exec (read_frame (pm q) tf) = dispatch n (pg p) ∧
    (∀ q', rpl (cs (ps q')) = 0 → ld32 (pm q') (w32 (esp (pg q') + 4)) = tf → frame_at (pm q') tf ws →
       run trapret q' = Pc (pg p) (Segs (cs (ps p)) (if outer p then ss (ps p) else ss (ps q')) (ds (ps p)) (es (ps p)) (fs (ps p)) (gs (ps p)))
         (eip p) (eflags p) (pm q'))) ∧
  (∀ forkret code entry args p m tf q, stack_ok p tf → fits 16 code → rpl code = 0 → fits 32 entry → fits 32 args → fits 32 forkret →
     rpl (cs (ps q)) = 0 → ld32 (pm q) (w32 (esp (pg q) + 4)) = tf → (∀ x, tf ≤ x < tf + SIZEOF_TF → pm q x = (i386_proc_ksetup forkret code entry args p m).2 x) →
     let r := run trapret q in
     eip r = entry ∧ eax (pg r) = args ∧ cs (ps r) = code ∧ esp (pg r) = tf + 68 ∧ kstack p ≤ esp (pg r) ≤ kstack p + kstack_size p ∧ pm r = pm q ∧
     eflags r = ld32 m (tf + 64) ∧ ds (ps r) = w16 (ld32 m (tf + 44))).
Proof.
  intros Hv Hfit Hi. split; [|intros; by eapply new_process_ok]. eapply wp_mono; [by apply trap_init_ok|].
  intros idt' [Hl Hg] n err gate esp0 ss0 ret p Hgate Hn Hp Herr Hew H0 Hr Hb d q ws tf.
  destruct (gate_of_vector vectors idt' n gate Hv Hg Hn Hgate) as (Eo & Es & Et).
  assert (q = entered n err gate esp0 ss0 ret p) as -> by by apply entry_eq. subst tf ws. change (base esp0 p - 4 * _) with (tframe n err esp0 p).
  pose proof (entered_esp n err gate esp0 ss0 ret p) as Ee. assert (frame_at (pm (entered n err gate esp0 ss0 ret p)) (tframe n err esp0 p) (frame_words esp0 err n p)) as Hf by by apply entered_frame.
  destruct (entered_args n err gate esp0 ss0 ret p) as [A1 A2]; [done..|]. rewrite Ee in A1, A2. replace (_ - 8 + 4) with (tframe n err esp0 p - 4) in A2 by lia.
  split_and!; try done.
  - unfold entered, grow. cbn [ps]. by rewrite Es.
  - unfold entered, grow, gate_flags. cbn [eflags]. rewrite Et. by destruct (n =? T_SYSCALL).
  - intros x Hx. by apply entered_out.
  - exact (trap_exec_frame n err esp0 p _ _ Hn Hf).
  - intros q' Hq Hsp Hf'. exact (trapret_resumes n err esp0 p q' Hp H0 Hb Hq Hsp Hf').
Qed.

(** A user program makes the system call 5 and is resumed from the frame as it was
    left. *)
Definition user_w : pc := Pc (Gprs 5 2 3 4 0xbffff000 6 7 8) (Segs 0x23 0x2b 0x2b 0x2b 0 0) 0x8048000 0x202 (λ _, 0).
Lemma user_w_ok : pc_ok user_w.
Proof. split; [repeat (apply Forall_cons_2; [by unfold fits|]); apply Forall_nil_2..|by unfold fits]. Qed.

Lemma i386_trap_path_correct_witness :
  wp (trap_init (replicate 256 0x80101234) (replicate 256 (set_gate 0 0 0 false))) (λ idt, ∃ gate, idt !! 64%nat = Some gate ∧
    let q := run (vector 64 ++ alltraps 0x80101300) (deliver None gate 0x80208000 16 user_w) in
    trap_exec (read_frame (pm q) (0x80208000 - 76)) = Ok (HandleSyscall 5 [4; 2; 3; 7; 8; 6]) ∧ pg (run trapret q) = pg user_w ∧ eip (run trapret q) = 0x8048000) ∧
  let p := Proc 0x80200000 32768 0x300000 (Ctx 0 0 0 0 0) in
  let m := st32 0x80207000 0x80207fb4 (i386_proc_ksetup 0x80100000 8 0x80100800 42 p (λ _, 0)).2 in
  let r := run trapret (Pc (Gprs 0 0 0 0 0x80206ffc 0 0 0) (Segs 8 16 16 16 0 0) 0 2 m) in eip r = 0x80100800 ∧ eax (pg r) = 42.
Proof.
  destruct (i386_trap_path_correct (replicate 256 0x80101234) (replicate 256 (set_gate 0 0 0 false))) as [H1 H2]; [done|by apply Forall_replicate|done|].
  assert (is_Some (match trap_init (replicate 256 0x80101234) (replicate 256 (set_gate 0 0 0 false)) with Ok i => i !! 64%nat | Err _ => None end)) as Hg
    by (vm_compute; by eexists).
  split.
  - destruct (trap_init _ _) as [idt|]; [|done]. destruct Hg as [gate Hg]. exists gate. split; [done|].
    pose proof (H1 64 None gate 0x80208000 16 0x80101300 user_w Hg) as H. cbv zeta in *.
    set (q := run (vector 64 ++ _) _) in *. clearbody q. change (base _ _ - 4 * _) with (0x80208000 - 76) in H.
    destruct H as (_ & E1 & _ & E3 & E4 & E5 & F & _ & T & K); [done|exact user_w_ok|split; [by intros []|intros H64; unfold pushes_error in H64; set_unfold in H64; lia]|by unfold fits..|done|].
    rewrite T, K; [done|by rewrite E1| |exact F]. rewrite E3. exact E5.
  - cbv zeta. set (q := Pc _ _ _ _ _).
    destruct (H2 0x80100000 8 0x80100800 42 (Proc 0x80200000 32768 0x300000 (Ctx 0 0 0 0 0)) (λ _, 0) 0x80207fb4 q) as (R1 & R2 & _);
      [split; unfold SIZEOF_TF; cbn [kstack kstack_size]; lia|unfold fits; lia|reflexivity|unfold fits; lia..|reflexivity| | |split; [exact R1|exact R2]].
    + unfold q. cbn [pm pg esp]. replace (w32 (0x80206ffc + 4)) with 0x80207000 by reflexivity. apply ld32_st32_eq. unfold fits. lia.
    + intros x Hx. unfold SIZEOF_TF in Hx. unfold q. cbn [pm]. apply st32_out. lia.
Defined.
